(* ===== verification/_CoqProject ===== *)
-Q . S2P
Prelude.v
Shared.v
Layout.v
PciConfig.v
PciBus.v
PciBusFacts.v
PciBusAccess.v
PciBusPaths.v
PciBusRun.v
GuestMem.v
Virtqueue.v
VirtqueueFacts.v
VirtqueueRings.v
VirtqueueRun.v
Msix.v
MsixFacts.v
BlkDisk.v
BlkDiskFacts.v
BlkWorker.v
BlkWorkerFacts.v
BlkTransfer.v
BlkDrain.v
BlkEngine.v
BlkDevice.v
BlkDeviceFacts.v
BlkDeviceRun.v
HostMapper.v
MemSlots.v
MemSlotsFacts.v
GpuVram.v
GpuVramFacts.v
GpuChain.v
GpuChainFacts.v
GpuWire.v
GpuProtocol.v
GpuProtocolFacts.v
GpuEdid.v
GpuBackend.v
GpuBackendFacts.v
GpuWorker.v
GpuWorkerFacts.v
GpuFences.v
GpuRun.v
VirtioPci.v
VirtioPciFacts.v
Vhost.v
NetDevice.v
VsockDevice.v
FsDevice.v
ConsoleDevice.v
ConsoleFacts.v
GpuDevice.v
Interrupt.v
NvWindow.v
NvGpu.v
Devices.v
Machine.v
MachineFacts.v
Seccomp.v
Cpuid.v
CpuidFacts.v
Boot.v
BootFacts.v
Lifecycle.v
LifecycleFacts.v
SerialFacts.v
Acpi.v
Config.v
Vm.v
VmFacts.v
HostCalls.v
Isolation.v
Placement.v
Processes.v
Startup.v
StartupFacts.v
Budget.v
GpuLoop.v
Jailer.v
JailerFacts.v
