(* ===== verification/Prelude.v ===== *)
(** * Nesbox: a microVM monitor, its devices and its confinement, verified

    Nesbox is a microVM monitor.  A guest sees a PCI bus ([src/pci]) with
    virtio devices on it ([src/virtio-devices]); the monitor proper
    ([src/vmm]) creates the VM, lays out its memory, attaches the devices and
    runs the vCPUs; the jailer ([src/tools/jailer]) starts it confined.  Every
    byte the devices handle at run time is chosen by the guest, so most theorems
    are about all inputs: any register access, any descriptor chain, any
    interleaving, and a host that may refuse any call.

    ** Parts and files

    - [Prelude]: words, little-endian bytes, buffers, the tactics [bool_prop]
      and [case_tests], the hint databases [words] and [buffers].
    - [Layout] (vmm/src/layout.rs): where RAM, the device windows and the
      64-bit MMIO window lie.
    - [PciConfig] (pci/src/config.rs): the configuration-space builder; a call
      that panics is [None].
    - [PciBus] (pci/src/lib.rs): the bus.  [add_device_arc] places BARs;
      [handle_pio_read]/[_write] and [handle_mmio_read]/[_write] are the vCPU
      exits, which reach [config_read]/[config_write] or a device's BAR;
      [register_doorbells] and [move_doorbells_from] hand eventfds to the kernel.
      Devices and the registrar are the classes [PciDevice] and
      [IoeventRegistrar].  [PciBusFacts]: the invariant [bus_wf] and its
      preservation.  [PciBusAccess]: BAR sizing and moving.  [PciBusPaths]: the
      two configuration mechanisms, dispatch, doorbells.  [PciBusRun]: a device
      on a bus, and a kernel that refuses a registration.
    - [GuestMem]: guest RAM, the class [GuestMemory] with the laws of the
      vm-memory crate, and [FlatRam], an instance of both.
    - [Virtqueue] (virtio-devices/src/common.rs): queue state, descriptor walk,
      rings, notification suppression, common configuration.
      [VirtqueueFacts]: the walk, and how a chain lies in memory ([posted]).
      [VirtqueueRings]: what the driver publishes and what it gets back.  [VirtqueueRun]: rings the device does not write
      over, registers written in halves, and concrete rings.
    - [Msix] (common.rs and pci/src/msi.rs): the MSI-X table.  [MsixFacts]:
      delivery, against an automaton of one vector ([contract]); the control
      register, and a table of four.
    - [BlkDisk] (blk/disk.rs, blk/request.rs): opening a disk, alignment, and the
      request parser.  [BlkDiskFacts]: their theorems.
    - [BlkWorker] (blk/worker.rs, blk/engine.rs): one pass of a queue's worker,
      with its slab of requests in flight; the I/O engine is the class
      [Engine].  [BlkWorkerFacts]: the accounting of requests.  [BlkTransfer]:
      partial transfers, staging, short reads.  [BlkDrain]: no lost wakeup,
      when draining ends and when not, and runs of the worker.
    - [BlkEngine] (blk/engine.rs, and the wait of blk/worker.rs): the two I/O
      engines, over an io_uring (class [IoUring]) and over plain reads and writes
      (class [SyncHost]), the contract [EngineLaws] both keep, and the worker's
      turns on either.
    - [BlkDevice] (blk/mod.rs): the registers, an instance of [PciDevice].
      [BlkDeviceFacts]: invariant, reset, doorbells, the contract with the bus.
      [BlkDeviceRun]: setting up a queue, the device configuration, and what is
      left of the requests of before a reset ([alike]).
    - [HostMapper] (memmap.rs): the trait a device maps host memory through.
      [MemSlots] (vmm/src/memslot.rs) implements it: KVM memory slots handed out
      at run time, over the class [Host] of kernel calls that may fail.
      [MemSlotsFacts]: numbers, reuse, the window.
    - The GPU's command path, gpu/ of virtio-devices/src.  [GpuVram] (vram.rs,
      window.rs): the VRAM accountant with its walk over command streams, and
      the window quota; [GpuVramFacts]: the books.  [GpuChain]
      (descriptor_utils.rs): reading and writing a chain; [GpuChainFacts].
      [GpuWire] and [GpuProtocol] (protocol.rs): structs, [decode], [encode];
      [GpuProtocolFacts]: decoding inverts the wire format.  [GpuEdid]
      (edid.rs, display.rs): the display a guest sees.
      [GpuBackend] (virtio_gpu.rs): resources, contexts, mappings, scanouts,
      fences, over the class [Rutabaga] of the renderer; [GpuBackendFacts].
      [GpuWorker] (worker.rs): a command from its descriptors to its response,
      [process_ctl_queue]; [GpuWorkerFacts]: whole runs; [GpuFences]: chains
      that wait for a fence; [GpuRun]: executable runs; [GpuLoop]: the worker's
      thread, its waits and the pacing of its submissions (a turn of [pace_turn] of
      [Budget] to a step), over the class [CalmQueues] of what it relies on in a
      queue.
    - [VirtioPci]: the registers net.rs, vsock.rs, fs.rs, console.rs and
      gpu/device.rs each write out, once, over the class [VirtioModel] of what a
      device adds.  [VirtioPciFacts]: the invariant under every access, for a
      device that keeps [VirtioModelLaws].
    - [Vhost]: the calls made on a backend in the kernel or in another process
      (class [Vhost]), and the loop that hands queues over, which follows a
      plan. [NetDevice] (net.rs and tap.rs), [VsockDevice] (vsock.rs),
      [FsDevice] (fs.rs): the three devices and their plans.
    - [ConsoleDevice] (console.rs): the terminal, both directions;
      [ConsoleFacts].
    - [GpuDevice] (gpu/device.rs): the GPU's registers and the hand-over of the
      control queue to the worker.
    - [Interrupt] (vmm/src/interrupt.rs, and the lines of vmm/src/acpi.rs): GSIs,
      irqfds and the routing table, over the class [Kvm]; it implements the
      interfaces [MsiRouter] and [IoeventRegistrar].
    - [Devices]: the seven devices as one [PciDevice], and their contract with the
      bus.  [Machine] (vmm/src/bin/nesbox.rs): [assemble], the order in which
      they are attached; [MachineFacts]: the composition.
    - [NvWindow] and [NvGpu] (virtio-devices/src/nvgpu.rs): the device that
      forwards a GPU's ioctls to another process: where that process's mappings
      go ([shmem_map], [shmem_unmap], the pools of the aperture), and its
      registers, its handshake and its checked description of the host.
    - [Shared]: text as bytes with the routines of [str] on the characters they
      spell ([from_utf8], [lossy], [chars], white space), numbers in decimal, paths, [sort_unstable] and [dedup], fields of registers.
    - [Seccomp] (vmm/src/seccomp.rs): the filter programs and their lists, run
      as the kernel runs them over the words of [seccomp_data], and which of a
      process's threads are under which filters (the class [SeccompHost] and its
      laws).
    - [Cpuid] (cpuid.rs): the table a vCPU is given; [CpuidFacts]: the topology
      and the caches a guest computes from it.
    - [Boot] (gdt.rs, regs.rs, boot.rs): descriptors, page tables, registers, the
      zero page; [BootFacts]: long mode, the memory map.
    - [Lifecycle] (lifecycle.rs, power.rs, serial.rs, the vCPU loop of vm.rs and
      the threads at the end of bin/nesbox.rs): how a machine runs and stops;
      [LifecycleFacts]: the end of the process, a step relation over its threads.
      [SerialFacts]: the serial port.
    - [Acpi] (acpi.rs): the tables, over a library for AML and headers, and that
      a guest finds them.
    - [Config] (config.rs): the configuration and its checks.
    - [Vm] (vm.rs): memory, its mapping and its huge pages, the vCPUs, [Vm_new];
      [VmFacts]: RAM is the memory file, and the whole of it.
    - The process around the machine.  [HostCalls]: what is asked of the host, the
      class [HostSys] that answers, the monad [HostM] of runs with their logs, and
      the logic of such runs ([logs], [only], [runs]).  [Isolation]
      (isolation.rs): the report of what confines the process, and its namespaces.
      [Placement] (affinity.rs, sched.rs, gpu/worker.rs): which CPUs, cgroup and
      priority each thread gets.  [Processes] (virtiofsd.rs, renderer.rs,
      stats.rs, control.rs, tap.rs): what is started, checked and opened.
      [Startup] (bin/nesbox.rs): [main], from the command line to the exit code, and
      what a driver's activation starts while the guest runs ([activate]);
      [StartupFacts]: its order, and what it leaves behind.
    - [Budget] (gpu/budget.rs, occupancy.rs, clock.rs, metrics.rs, and the request
      of vmm/src/control.rs): the share of the card a guest may use.
    - [Jailer] (tools/jailer/src/main.rs): from a configuration to the exec;
      [JailerFacts]: what the exec comes after, to the last mount.

    ** How the model reads

    A record is a struct, an operation a function from state to state; a lock
    held for a whole call makes the call one step.  Unsigned words are [Z] with
    [wrap] where Rust wraps: the release profile has no overflow checks.  A
    [&mut [u8]] is a list in and a list out; an eventfd written is a number in
    the list of those signalled.  Code outside the repository is a class, its
    documented behaviour a second class of laws ([GuestMemoryLaws], [KvmLaws],
    [HostMemoryLaws]) with an instance that has them.

    A loop that is not structural has fuel: [walk_loop] gets as many steps as
    the table has entries, which is where the source stops; [zero_chunks] as
    many as there are bytes; [scan] as many as the stream has bytes, which
    [scan_ends] shows is enough; [drain] and [take_offered] return [None] when
    theirs runs out, and [drain_returns] shows that 65536 is enough for a
    driver that leaves its own rings alone. The console's loops return [None]
    when theirs runs out: a register write gives them [PASS], 65536, one more
    than a driver can publish, and [console_output_shown] needs only more than
    the number of chains; [chunks_of] is the number of chunks in a buffer.
    [drain_ctl] returns [None] when out of fuel: its theorems are about every
    state a run reaches, step by step, and [ctl_pass_ends] shows that 65536 is
    enough for a driver that asks for no answer in its own rings.
    [count_capsets] is given the most capsets a renderer may have. [show] has
    twenty digits, as many as 64 bits need; [ancestors] a turn per character
    of the path, which gets shorter each time; [wait_turns] the source's
    hundred looks; [pace] a turn for each sight it has of the clock and the
    counters, and says whether it was through; the engines' waits a turn for
    each signal that may interrupt them, and [wait] a look for each time it
    polls before its deadline. A capability list is walked at most 64 times
    ([notify_cap]): there is room for no more capabilities in 256 bytes.

    ** What the theorems show

    - Bus: BARs stay aligned, in their window and in step with the dispatch
      table under every guest access; new BARs overlap nothing; sizing, moving,
      dispatch and the two configuration mechanisms behave as PCI drivers
      expect; doorbells follow their BARs (when the kernel takes every
      registration; when it refuses one, the offset is lost).
    - Queues: walks are bounded and complete; no chain laid out as virtio lays it
      is lost, reordered or cut; completions reach the driver.
    - Interrupts: a vector is signalled exactly when its contract says; the kernel's
      routing table is the last route of each vector (and a refused route is
      taken for installed).
    - Block device: accepted requests stay inside disk and memory; every
      request is completed once or dropped by a reset; short transfers resume
      where they stopped; staged and short reads deliver the right bytes; what
      comes back for the drivers of before a reset makes no difference to the
      current one; registers hold what was written;
      draining the ring ends (and never does for a queue of size zero); the
      kernel holds a job for exactly the live slots, turn by turn, so no
      submission is refused for want of room and no completion is lost.
    - Memory slots and GPU memory: no slot number is shared, lost or leaked, and
      numbers are reused; what a guest is charged covers what it holds, as long as
      it asks for less than 2^64 bytes in all; quotas are kept.
    - GPU commands: decoding is the inverse of the wire format and responses
      arrive whole; whatever a guest sends and the renderer refuses, slots have
      owners, the quota counts what is mapped, and every chain is handed back
      once, after its fence; the worker never sleeps on a chain or a stop that was
      announced, and pacing holds it only while the limit stands and no stop was
      asked for (it never sleeps at all over a ring at address 0, when it polls).
    - Virtio registers: queues and configuration space stay as built but for
      what a guest may set, and a reset restores them; every device built meets
      the bus's contract, its doorbells where its capabilities say.
    - Devices served elsewhere: starting one is following a plan read off its
      registers, in order, until a call is refused; the ring addresses told to
      another process map back to the guest's.
    - Console: what is printed is shown, in order and flushed; what is typed
      lands in the guest's buffers.
    - The machine: devices are on consecutive slots, their lines are those of
      the ACPI table, no two vectors share a GSI, the GPU and the forwarding
      device know their windows.
    - GPU forwarding: whatever the other process asks, its pools stay apart and
      within bounds; unless the kernel, refusing a mapping over the window, took
      away what was there, they are mapped exactly as recorded and no memory slot is
      left over nothing; a guest reads only a description of the host that was checked.
    - Building a machine: RAM is the memory file, once; the first vCPU starts in
      long mode over tables that map the first gibibyte to itself; the memory map, the ACPI
      tables and CPUID describe the machine that was configured; a configuration
      is accepted exactly when it can be carried out.
    - Running and stopping: the serial port writes what was sent; a vCPU stops
      only for a reason; in every interleaving the process ends with the first
      one, after every thread, and can always get there.
    - Confinement: the filters decide as their lists say, and no thread of the
      process, however late it starts, may exec or mount; the jailer execs nesbox only out of root, inside its jail, with
      the paths and groups it needs and no others; the report names the bound that
      is there; threads run in the cgroup and on the CPUs meant for them.
    - Startup: whatever the host answers, all that [main] itself opens and spawns is
      there before the network and the system calls are given up, the guest runs
      only after that, what its drivers have started comes later still and under
      the same confinement, and no daemon or raw terminal is left behind.
    - The GPU's share: the limiter's arithmetic never overflows or loses its
      number, and it holds a guest only while it is in debt.

    ** Not modelled

    Memory ordering between CPUs (accesses happen in program order), log lines,
    and counters that are only reported, with the JSON they are reported in.
    Formats made by libraries (AML and ACPI headers, the bytes of boot_params,
    JSON, ELF) are parameters, and so are the host's system calls (what an
    io_uring does, statx, ioctls, KVM).  The loops that accept connections are not
    modelled: what they call is.  In [assemble] the devices come already built,
    as [main] of [Startup] builds them.  tools/nesprobe, which drives Vulkan
    through a library to print what it finds, is left out. *)

From Stdlib Require Export ZArith Lia.
From stdpp Require Export numbers prelude gmap list.
#[export] Set Default Goal Selector "!".
Open Scope Z_scope.

(** * Machine words

    Unsigned words are kept as [Z]; a result that Rust reduces modulo
    [2^w] is written with [wrap]. *)

Definition wrap (w x : Z) : Z := x mod 2 ^ w.
Abbreviation u8 := (wrap 8).
Abbreviation u16 := (wrap 16).
Abbreviation u32 := (wrap 32).
Abbreviation u64 := (wrap 64).

Declare Scope word_scope.
Delimit Scope word_scope with word.
(** Arithmetic on [u64] as the release profile compiles it: no overflow checks. *)
Notation "x ⊕ y" := (wrap 64 (x + y)) (at level 50, left associativity) : word_scope.
Notation "x ⊖ y" := (wrap 64 (x - y)) (at level 50, left associativity) : word_scope.
Notation "x ⊗ y" := (wrap 64 (x * y)) (at level 40, left associativity) : word_scope.
Open Scope word_scope.

(** [is_word w x]: [x] is a value of a [w]-bit unsigned integer. *)
Definition is_word (w x : Z) : Prop := 0 <= x < 2 ^ w.
Abbreviation is_byte := (is_word 8).

(** Bitwise complement [!x] of a [w]-bit word. *)
Definition lnotw (w x : Z) : Z := 2 ^ w - 1 - x.

Definition saturating_add (w x y : Z) : Z := Z.min (x + y) (2 ^ w - 1).
Definition saturating_sub (x y : Z) : Z := Z.max 0 (x - y).
Definition checked_add (w x y : Z) : option Z :=
  if x + y <? 2 ^ w then Some (x + y) else None.
Definition checked_sub (x y : Z) : option Z :=
  if y <=? x then Some (x - y) else None.
Definition checked_mul (w x y : Z) : option Z :=
  if x * y <? 2 ^ w then Some (x * y) else None.

(** [u64::is_power_of_two]. *)
Definition is_power_of_two (x : Z) : bool := (0 <? x) && (x =? 2 ^ Z.log2 x).

(** [x & m != 0]. *)
Definition has_bits (x m : Z) : bool := negb (Z.land x m =? 0).

(** Membership in a half-open range [lo..hi]. *)
Definition in_range (lo hi x : Z) : bool := (lo <=? x) && (x <? hi).

(** * Little-endian bytes *)

Fixpoint le_bytes (n : nat) (z : Z) : list Z :=
  match n with
  | O => []
  | S n => z mod 256 :: le_bytes n (z / 256)
  end.

Fixpoint of_le (l : list Z) : Z :=
  match l with
  | [] => 0
  | b :: l => b + 256 * of_le l
  end.

(** * Byte buffers *)

(** [dst[s..s + src.len()].copy_from_slice(src)], for a range inside [dst]. *)
Definition splice (dst : list Z) (s : nat) (src : list Z) : list Z :=
  take s dst ++ src ++ drop (s + length src) dst.

(** The idiom all register windows share: copy what the source still holds
    from [s] on, and fill the rest of the [n]-byte destination with [x]. *)
Definition read_window (src : list Z) (s n : nat) (x : Z) : list Z :=
  resize n x (drop s src).

(** * Tactics *)

(** Case analysis on every test the code makes, turning boolean
    comparisons into facts [lia] can use. *)
Ltac bool_prop :=
  repeat match goal with
  | H : _ && _ = true |- _ => apply andb_true_iff in H; destruct H
  | H : _ && _ = false |- _ => apply andb_false_iff in H
  | H : _ || _ = true |- _ => apply orb_true_iff in H
  | H : _ || _ = false |- _ => apply orb_false_iff in H; destruct H
  | H : negb _ = true |- _ => apply negb_true_iff in H
  | H : negb _ = false |- _ => apply negb_false_iff in H
  | H : (_ =? _) = true |- _ => apply Z.eqb_eq in H
  | H : (_ =? _) = false |- _ => apply Z.eqb_neq in H
  | H : (_ <=? _) = true |- _ => apply Z.leb_le in H
  | H : (_ <=? _) = false |- _ => apply Z.leb_gt in H
  | H : (_ <? _) = true |- _ => apply Z.ltb_lt in H
  | H : (_ <? _) = false |- _ => apply Z.ltb_ge in H
  end.

Ltac case_tests :=
  repeat match goal with
  | |- context [if ?b then _ else _] =>
      match type of b with bool => destruct b eqn:? end
  | H : context [if ?b then _ else _] |- _ =>
      match type of b with bool => destruct b eqn:? end
  end; bool_prop.

Create HintDb words.
Create HintDb buffers.
Create Rewrite HintDb buffers.

(** * Words *)

Lemma wrap_small w x : is_word w x -> wrap w x = x.
Proof. intros H. by apply Z.mod_small. Qed.

Lemma wrap_range w x : 0 <= w -> is_word w (wrap w x).
Proof. intros Hw. apply Z.mod_pos_bound. apply Z.pow_pos_nonneg; lia. Qed.

Lemma wrap_wrap w x : 0 <= w -> wrap w (wrap w x) = wrap w x.
Proof. intros. by apply wrap_small, wrap_range. Qed.

#[export] Hint Resolve wrap_range : words.

Lemma lnotw_range w x : is_word w x -> is_word w (lnotw w x).
Proof. unfold is_word, lnotw. lia. Qed.

Lemma lnotw_ldiff w x y :
  0 <= w -> is_word w x -> is_word w y -> Z.land x (lnotw w y) = Z.ldiff x y.
Proof.
  unfold lnotw. intros Hw Hx Hy.
  assert (Hnot : forall i, 0 <= i < w ->
    Z.testbit (2 ^ w - 1 - y) i = negb (Z.testbit y i)).
  { intros i Hi. replace (2 ^ w - 1 - y) with (2 ^ w + Z.lnot y) by (unfold Z.lnot; lia).
    rewrite <- (Z.mod_pow2_bits_low _ w) by lia.
    rewrite <- Z.add_mod_idemp_l, Z_mod_same_full by lia.
    rewrite Z.add_0_l, Z.mod_pow2_bits_low by lia. by rewrite Z.lnot_spec by lia. }
  apply Z.bits_inj'; intros i Hi.
  rewrite Z.land_spec, Z.ldiff_spec.
  destruct (decide (i < w)) as [Hlt|Hge]; [by rewrite Hnot by lia|].
  assert (Z.testbit x i = false) as ->; [|done].
  rewrite <- (Z.mod_small x (2 ^ w)) by (unfold is_word in *; lia).
  apply Z.mod_pow2_bits_high; lia.
Qed.

Lemma ldiff_ones x k : 0 <= k -> Z.ldiff x (2 ^ k - 1) = x - x mod 2 ^ k.
Proof.
  intros Hk.
  replace (2 ^ k - 1) with (Z.ones k) by (rewrite Z.ones_equiv; lia).
  rewrite Z.ldiff_ones_r, Z.shiftr_div_pow2, Z.shiftl_mul_pow2 by lia.
  pose proof (Z.pow_pos_nonneg 2 k). pose proof (Z.div_mod x (2 ^ k)). lia.
Qed.

(** Masking with the complement of a power of two rounds down to it. *)
Lemma land_align_down w x k :
  0 <= k <= w -> is_word w x -> Z.land x (lnotw w (2 ^ k - 1)) = x - x mod 2 ^ k.
Proof.
  intros Hk Hx. pose proof (Z.pow_le_mono_r 2 k w). pose proof (Z.pow_pos_nonneg 2 k).
  rewrite lnotw_ldiff; [apply ldiff_ones; lia|lia|done|unfold is_word; lia].
Qed.

Lemma land_ones_mod x k : 0 <= k -> Z.land x (2 ^ k - 1) = x mod 2 ^ k.
Proof.
  intros. rewrite <- Z.land_ones by lia. f_equal. rewrite Z.ones_equiv. lia.
Qed.

Lemma is_power_of_two_spec x :
  is_power_of_two x = true <-> exists k, 0 <= k /\ x = 2 ^ k.
Proof.
  unfold is_power_of_two. split.
  - intros H. bool_prop. exists (Z.log2 x). split; [apply Z.log2_nonneg|done].
  - intros (k & Hk & ->). pose proof (Z.pow_pos_nonneg 2 k).
    rewrite Z.log2_pow2 by done. apply andb_true_iff.
    split; [apply Z.ltb_lt; lia|apply Z.eqb_refl].
Qed.

Lemma in_range_spec lo hi x : in_range lo hi x = true <-> lo <= x < hi.
Proof. unfold in_range. rewrite andb_true_iff, Z.leb_le, Z.ltb_lt. lia. Qed.

Lemma land_low_shiftl x y k :
  0 <= k -> 0 <= x < 2 ^ k -> Z.land x (Z.shiftl y k) = 0.
Proof.
  intros Hk Hx. apply Z.bits_inj'; intros i Hi.
  rewrite Z.land_spec, Z.bits_0, Z.shiftl_spec by done.
  destruct (decide (i < k)).
  - rewrite (Z.testbit_neg_r y) by lia. by rewrite andb_false_r.
  - rewrite <- (Z.mod_small x (2 ^ k)) by lia.
    by rewrite Z.mod_pow2_bits_high by lia.
Qed.

(** Or-ing a high part onto a low part that fits below it is addition. *)
Lemma lor_shiftl_add x y k :
  0 <= k -> 0 <= x < 2 ^ k -> Z.lor x (Z.shiftl y k) = x + y * 2 ^ k.
Proof.
  intros Hk Hx. pose proof (land_low_shiftl x y k Hk Hx) as H0.
  rewrite <- Z.shiftl_mul_pow2 by done.
  by rewrite Z.add_nocarry_lxor, Z.lxor_lor.
Qed.

(** A number without bits from [k] on is a [k]-bit word. *)
Lemma bits_small x k : 0 <= k -> (forall j, k <= j -> Z.testbit x j = false) -> is_word k x.
Proof.
  intros Hk H. replace x with (x mod 2 ^ k); [apply Z.mod_pos_bound; lia|].
  apply Z.bits_inj'. intros j Hj. destruct (decide (j < k)).
  - by rewrite Z.mod_pow2_bits_low by lia.
  - by rewrite Z.mod_pow2_bits_high, H by lia.
Qed.

Lemma word_high_bit x k j : is_word k x -> 0 <= k <= j -> Z.testbit x j = false.
Proof. intros Hx Hj. rewrite <- (Z.mod_small x (2 ^ k)) by exact Hx. by apply Z.mod_pow2_bits_high. Qed.

Lemma lor_range a b k : 0 <= k -> is_word k a -> is_word k b -> is_word k (Z.lor a b).
Proof.
  intros Hk Ha Hb. apply bits_small; [done|]. intros j Hj.
  by rewrite Z.lor_spec, (word_high_bit a k), (word_high_bit b k).
Qed.

Lemma land_word a b k : 0 <= k -> is_word k a -> is_word k (Z.land a b).
Proof.
  intros Hk Ha. apply bits_small; [done|]. intros j Hj. by rewrite Z.land_spec, (word_high_bit a k).
Qed.

(** * Little-endian bytes *)

Lemma length_le_bytes n z : length (le_bytes n z) = n.
Proof. revert z; induction n; intros; simpl; auto. Qed.

Lemma le_bytes_bytes n z : Forall is_byte (le_bytes n z).
Proof.
  revert z; induction n; intros z; simpl; constructor; auto.
  unfold is_word. change (2 ^ 8) with 256. by apply Z.mod_pos_bound.
Qed.

Lemma of_le_le_bytes n z : of_le (le_bytes n z) = z mod 2 ^ (8 * Z.of_nat n).
Proof.
  revert z; induction n as [|n IH]; intros z; simpl of_le.
  - by rewrite Z.mod_1_r.
  - rewrite IH.
    replace (8 * Z.of_nat (S n)) with (8 + 8 * Z.of_nat n) by lia.
    rewrite Z.pow_add_r by lia. change (2 ^ 8) with 256.
    pose proof (Z.pow_pos_nonneg 2 (8 * Z.of_nat n)).
    rewrite Z.rem_mul_r by lia. lia.
Qed.

Lemma of_le_range l :
  Forall is_byte l -> 0 <= of_le l < 2 ^ (8 * Z.of_nat (length l)).
Proof.
  induction 1 as [|b l Hb _ IH]; simpl; [lia|].
  replace (8 * Z.of_nat (S (length l))) with (8 + 8 * Z.of_nat (length l)) by lia.
  rewrite Z.pow_add_r by lia. unfold is_word in Hb. change (2 ^ 8) with 256 in *. lia.
Qed.

Lemma le_bytes_of_le l : Forall is_byte l -> le_bytes (length l) (of_le l) = l.
Proof.
  induction 1 as [|b l Hb _ IH]; simpl; [done|].
  unfold is_word in Hb. change (2 ^ 8) with 256 in Hb.
  rewrite (Z.mul_comm 256), Z_mod_plus_full, Z.div_add, Z.mod_small, Z.div_small by lia.
  by rewrite Z.add_0_l, IH.
Qed.

Lemma of_le_le_bytes_small n z :
  0 <= z < 2 ^ (8 * Z.of_nat n) -> of_le (le_bytes n z) = z.
Proof. intros. rewrite of_le_le_bytes. by apply Z.mod_small. Qed.

#[export] Hint Rewrite length_le_bytes : buffers.
#[export] Hint Resolve le_bytes_bytes : buffers.

(** * Buffers *)

Lemma length_splice dst s src :
  (s + length src <= length dst)%nat -> length (splice dst s src) = length dst.
Proof. intros. unfold splice. rewrite !length_app, length_take, length_drop. lia. Qed.

Lemma lookup_splice_in dst s src i :
  (s + length src <= length dst)%nat -> (s <= i < s + length src)%nat ->
  splice dst s src !! i = src !! (i - s)%nat.
Proof.
  intros. unfold splice. rewrite lookup_app_r by (rewrite length_take; lia).
  rewrite length_take, lookup_app_l by lia. f_equal. lia.
Qed.

Lemma lookup_splice_out dst s src i :
  (s + length src <= length dst)%nat -> (i < s \/ s + length src <= i)%nat ->
  splice dst s src !! i = dst !! i.
Proof.
  intros Hl [Hi|Hi]; unfold splice.
  - rewrite lookup_app_l by (rewrite length_take; lia). by rewrite lookup_take_lt.
  - rewrite lookup_app_r by (rewrite length_take; lia).
    rewrite length_take, lookup_app_r by lia. rewrite lookup_drop. f_equal. lia.
Qed.

Lemma splice_bytes dst s src :
  Forall is_byte dst -> Forall is_byte src -> Forall is_byte (splice dst s src).
Proof.
  intros. unfold splice.
  repeat apply Forall_app_2; auto using Forall_take, Forall_drop.
Qed.

Lemma length_read_window src s n x : length (read_window src s n x) = n.
Proof. apply length_resize. Qed.

Lemma lookup_read_window src s n x i :
  (i < n)%nat ->
  read_window src s n x !! i = Some (default x (src !! (s + i)%nat)).
Proof.
  intros Hi. unfold read_window.
  destruct (src !! (s + i)%nat) as [y|] eqn:E; simpl.
  - rewrite lookup_resize; [by rewrite lookup_drop, E|lia|].
    rewrite length_drop. apply lookup_lt_Some in E. lia.
  - apply lookup_resize_new; [|lia].
    rewrite length_drop. apply lookup_ge_None in E. lia.
Qed.

#[export] Hint Rewrite length_splice length_read_window : buffers.
#[export] Hint Resolve splice_bytes : buffers.
