(* ===== verification/Shared.v ===== *)
(** Text as bytes, and what the standard library does with it.

    [v.sort_unstable(); v.dedup()]: a list as an ordered set.

    Fields of words: bits masked out and put in, as the code that fills hardware
    registers does it, and read back. *)

From stdpp Require Import strings sorting.
From S2P Require Import Prelude.

(** The bytes of an ASCII literal. *)
Definition ascii_bytes (s : string) : list Z :=
  (fun c => Z.of_N (Ascii.N_of_ascii c)) <$> String.list_ascii_of_string s.

Lemma ascii_bytes_byte s : Forall is_byte (ascii_bytes s).
Proof.
  apply Forall_fmap, Forall_true. intros c. simpl. pose proof (Ascii.N_ascii_bounded c). unfold is_word. lia.
Qed.

(** * Text *)

Abbreviation Text := (list Z).

(** ** UTF-8 *)

(** A byte after the first of a character. *)
Definition is_cont (b : Z) : bool := in_range 0x80 0xC0 b.

(** The second byte a first byte of a longer character may have. *)
Definition second_of_three (b c : Z) : bool :=
  in_range (if b =? 0xE0 then 0xA0 else 0x80) (if b =? 0xED then 0xA0 else 0xC0) c.
Definition second_of_four (b c : Z) : bool :=
  in_range (if b =? 0xF0 then 0x90 else 0x80) (if b =? 0xF4 then 0x90 else 0xC0) c.

(** [String::from_utf8]: is the byte string well formed? *)
Fixpoint utf8_valid (l : list Z) : bool :=
  match l with
  | [] => true
  | b :: l =>
      if in_range 0 0x80 b then utf8_valid l
      else
        match l with
        | [] => false
        | c :: l =>
            if in_range 0xC2 0xE0 b then is_cont c && utf8_valid l
            else
              match l with
              | [] => false
              | d :: l =>
                  if in_range 0xE0 0xF0 b then second_of_three b c && is_cont d && utf8_valid l
                  else
                    match l with
                    | [] => false
                    | e :: l => in_range 0xF0 0xF5 b && second_of_four b c && is_cont d && is_cont e && utf8_valid l
                    end
              end
        end
  end.

Definition from_utf8 (l : list Z) : option (list Z) := if utf8_valid l then Some l else None.

(** U+FFFD. *)
Definition REPLACEMENT : Text := [0xEF; 0xBF; 0xBD].

(** [to_string_lossy], and [display] of a path: a first byte with the bytes after
    it that could continue it is one replacement character when they are not a
    whole one. *)
Fixpoint lossy (l : list Z) : Text :=
  match l with
  | [] => []
  | b :: l1 =>
      if in_range 0 0x80 b then b :: lossy l1
      else if in_range 0xC2 0xE0 b then
        match l1 with
        | c :: l2 => if is_cont c then b :: c :: lossy l2 else REPLACEMENT ++ lossy l1
        | [] => REPLACEMENT
        end
      else if in_range 0xE0 0xF0 b then
        match l1 with
        | c :: l2 =>
            if second_of_three b c then
              match l2 with
              | d :: l3 => if is_cont d then b :: c :: d :: lossy l3 else REPLACEMENT ++ lossy l2
              | [] => REPLACEMENT
              end
            else REPLACEMENT ++ lossy l1
        | [] => REPLACEMENT
        end
      else if in_range 0xF0 0xF5 b then
        match l1 with
        | c :: l2 =>
            if second_of_four b c then
              match l2 with
              | d :: l3 =>
                  if is_cont d then
                    match l3 with
                    | e :: l4 => if is_cont e then b :: c :: d :: e :: lossy l4 else REPLACEMENT ++ lossy l3
                    | [] => REPLACEMENT
                    end
                  else REPLACEMENT ++ lossy l2
              | [] => REPLACEMENT
              end
            else REPLACEMENT ++ lossy l1
        | [] => REPLACEMENT
        end
      else REPLACEMENT ++ lossy l1
  end.

(** Text is left as it is. *)
Lemma lossy_valid l : utf8_valid l = true -> lossy l = l.
Proof.
  induction l as [l IH] using (induction_ltof1 _ length). unfold ltof in IH.
  destruct l as [|b l1]; [done|]. cbn [utf8_valid lossy]. destruct (in_range 0 0x80 b).
  { intros H. f_equal. apply IH; [simpl; lia|done]. }
  destruct l1 as [|c l2]; [done|]. destruct (in_range 0xC2 0xE0 b).
  { intros [-> H]%andb_true_iff. do 2 f_equal. apply IH; [simpl; lia|done]. }
  destruct l2 as [|d l3]; [done|]. destruct (in_range 0xE0 0xF0 b).
  { intros [[-> ->]%andb_true_iff H]%andb_true_iff. do 3 f_equal. apply IH; [simpl; lia|done]. }
  destruct l3 as [|e l4]; [done|]. intros [[[[-> ->]%andb_true_iff ->]%andb_true_iff ->]%andb_true_iff H]%andb_true_iff.
  do 4 f_equal. apply IH; [simpl; lia|done].
Qed.

(** The characters of text: a byte with those that continue it. *)
Fixpoint chars (l : Text) : list Text :=
  match l with
  | [] => []
  | b :: l =>
      match chars l with
      | (c :: k) :: rest => if is_cont c then (b :: c :: k) :: rest else [b] :: (c :: k) :: rest
      | rest => [b] :: rest
      end
  end.

(** ** White space *)

(** [char::is_whitespace]: of ASCII tab to carriage return and the space; U+0085
    and U+00A0; U+1680, U+2000 to U+200A, U+2028, U+2029, U+202F, U+205F, U+3000. *)
Definition is_space (ch : Text) : bool :=
  match ch with
  | [c] => (c =? 32) || in_range 9 14 c
  | [0xC2; c] => (c =? 0x85) || (c =? 0xA0)
  | [0xE1; c; d] => (c =? 0x9A) && (d =? 0x80)
  | [0xE2; c; d] =>
      (c =? 0x80) && (in_range 0x80 0x8B d || (d =? 0xA8) || (d =? 0xA9) || (d =? 0xAF)) || (c =? 0x81) && (d =? 0x9F)
  | [0xE3; c; d] => (c =? 0x80) && (d =? 0x80)
  | _ => false
  end.

Fixpoint skip_spaces (l : list Text) : list Text :=
  match l with c :: rest => if is_space c then skip_spaces rest else l | [] => [] end.

(** [split_whitespace]: the word that is being read, and the words after it. *)
Fixpoint words_from (cur : Text) (l : list Text) : list Text :=
  match l with
  | [] => match cur with [] => [] | _ => [cur] end
  | c :: l =>
      if is_space c then match cur with [] => words_from [] l | _ => cur :: words_from [] l end
      else words_from (cur ++ c) l
  end.

Definition words (l : Text) : list Text := words_from [] (chars l).
Definition first_word (l : Text) : option Text := head (words l).

(** [trim]: the characters without the white space before and after them. *)
Definition trim (l : Text) : Text := concat (reverse (skip_spaces (reverse (skip_spaces (chars l))))).

(** A no-break space separates words, and an accent does not; a character cut
    short and a stray byte are replaced, one mark each. *)
Example text_as_characters :
  words [0x61; 0xC2; 0xA0; 0xC3; 0xA9; 0x62; 9; 0x63] = [[0x61]; [0xC3; 0xA9; 0x62]; [0x63]] /\
  trim [0xE3; 0x80; 0x80; 0x61; 32; 0x62; 10] = [0x61; 32; 0x62] /\
  lossy [0x61; 0xE2; 0x82; 0x62; 0xFF] = [0x61] ++ REPLACEMENT ++ [0x62] ++ REPLACEMENT.
Proof. vm_compute. done. Qed.

(** A line ends at a newline, with the carriage return before it. *)
Definition chomp (l : Text) : Text :=
  match reverse l with 13 :: rest => reverse rest | _ => l end.

Fixpoint lines_from (cur : Text) (l : Text) : list Text :=
  match l with
  | [] => match cur with [] => [] | _ => [cur] end
  | c :: l => if c =? 10 then chomp cur :: lines_from [] l else lines_from (cur ++ [c]) l
  end.

Definition lines (l : Text) : list Text := lines_from [] l.

Definition strip_prefix (pre l : Text) : option Text :=
  if bool_decide (take (length pre) l = pre) then Some (drop (length pre) l) else None.

Definition strip_suffix (suf l : Text) : option Text := reverse <$> strip_prefix (reverse suf) (reverse l).

Definition starts_with (pre l : Text) : bool := bool_decide (take (length pre) l = pre).

(** [split_once], at the first [c]. *)
Fixpoint split_once (c : Z) (l : Text) : option (Text * Text) :=
  match l with
  | [] => None
  | x :: l => if x =? c then Some ([], l) else '(a, b) ← split_once c l; Some (x :: a, b)
  end.

(** [trim_end_matches(c)]. *)
Fixpoint skip_char (c : Z) (l : Text) : Text :=
  match l with x :: rest => if x =? c then skip_char c rest else l | [] => [] end.

Definition trim_end_char (c : Z) (l : Text) : Text := reverse (skip_char c (reverse l)).

Fixpoint find_map {A B} (f : A -> option B) (l : list A) : option B :=
  match l with
  | [] => None
  | x :: l => match f x with Some y => Some y | None => find_map f l end
  end.

(** [parse] at an unsigned type of [w] bits: digits, after at most a plus. *)
Fixpoint dec_value (w acc : Z) (l : Text) : option Z :=
  match l with
  | [] => Some acc
  | c :: l =>
      if (48 <=? c) && (c <=? 57) then
        acc ← checked_mul w acc 10;
        acc ← checked_add w acc (c - 48);
        dec_value w acc l
      else None
  end.

Definition parse_uint (w : Z) (s : Text) : option Z :=
  match s with
  | [] => None
  | [c] => if (c =? 43) || (c =? 45) then None else dec_value w 0 s
  | c :: rest => if c =? 43 then dec_value w 0 rest else dec_value w 0 s
  end.

(** The decimal digits of a number. *)
Fixpoint decimal (fuel : nat) (n : Z) (acc : Text) : Text :=
  match fuel with
  | O => acc
  | S fuel => let acc := 48 + n mod 10 :: acc in if n / 10 =? 0 then acc else decimal fuel (n / 10) acc
  end.

(** Twenty digits are as many as a 64-bit number has. *)
Definition show (n : Z) : Text := decimal 20 n [].

(** * Paths *)

Record Path := { absolute : bool; comps : list Text }.

#[export] Instance Path_eq_dec : EqDecision Path.
Proof. solve_decision. Defined.

Definition SLASH : Z := 47.

(** The components of a path's text: empty ones vanish, and "." but for a
    leading one. *)
Fixpoint pieces (cur : Text) (l : Text) : list Text :=
  match l with
  | [] => [cur]
  | c :: l => if c =? SLASH then cur :: pieces [] l else pieces (cur ++ [c]) l
  end.

Definition DOT : Text := ascii_bytes ".".

Definition parse_path (s : Text) : Path :=
  let all := filter (fun c => c <> []) (pieces [] s) in
  let abs := match s with c :: _ => c =? SLASH | [] => false end in
  {| absolute := abs;
     comps := match abs, all with
              | false, c :: rest => c :: filter (fun c => c <> DOT) rest
              | _, l => filter (fun c => c <> DOT) l
              end |}.

Definition path_of (s : string) : Path := parse_path (ascii_bytes s).

Definition root_path : Path := {| absolute := true; comps := [] |}.

Definition path_join (p q : Path) : Path :=
  if absolute q then q else {| absolute := absolute p; comps := comps p ++ comps q |}.

Definition path_parent (p : Path) : option Path :=
  match comps p with
  | [] => None
  | cs => Some {| absolute := absolute p; comps := take (length cs - 1) cs |}
  end.

(** * Ordered sets *)

(** [v.dedup()]: of equal neighbours one is kept. *)
Fixpoint dedup (l : list Z) : list Z :=
  match l with
  | x :: (y :: _) as rest => if x =? y then dedup rest else x :: dedup rest
  | l => l
  end.

Definition sorted_set (l : list Z) : list Z := dedup (merge_sort Z.le l).

Lemma dedup_cons2 x y l : dedup (x :: y :: l) = if x =? y then dedup (y :: l) else x :: dedup (y :: l).
Proof. done. Qed.

Lemma elem_of_dedup x l : x ∈ dedup l <-> x ∈ l.
Proof.
  induction l as [|y [|z l] IH]; [done..|]. rewrite dedup_cons2, (elem_of_cons (z :: l)).
  destruct (y =? z) eqn:E; bool_prop; rewrite ?(elem_of_cons (dedup (z :: l))), IH; [|done].
  rewrite elem_of_cons. naive_solver.
Qed.

Lemma elem_of_sorted_set x l : x ∈ sorted_set l <-> x ∈ l.
Proof. unfold sorted_set. rewrite elem_of_dedup. by rewrite merge_sort_Permutation. Qed.

Lemma dedup_sublist l : sublist (dedup l) l.
Proof.
  induction l as [|y [|z l] IH]; [done..|]. rewrite dedup_cons2. destruct (y =? z); [by constructor|by constructor].
Qed.

Lemma sublist_same_length (l k : list Z) : sublist l k -> length l = length k -> l = k.
Proof.
  induction 1 as [|x l k H IH|x l k H IH]; simpl; intros E; [done|f_equal; apply IH; lia|].
  apply sublist_length in H. lia.
Qed.

Lemma length_sorted_set l : (length (sorted_set l) <= length l)%nat.
Proof. unfold sorted_set. rewrite (sublist_length _ _ (dedup_sublist _)). by rewrite merge_sort_Permutation. Qed.

Lemma dedup_sorted l : StronglySorted Z.le l -> StronglySorted Z.lt (dedup l).
Proof.
  induction l as [|y [|z l] IH]; [constructor|repeat constructor|]. intros [Hs Hy]%StronglySorted_inv. rewrite dedup_cons2.
  destruct (y =? z) eqn:E; bool_prop; [by apply IH|]. constructor; [by apply IH|].
  apply Forall_forall. intros x Hx. rewrite elem_of_dedup in Hx.
  apply Forall_cons in Hy as [Hyz _]. apply StronglySorted_inv in Hs as [_ Hz]. rewrite Forall_forall in Hz.
  apply elem_of_cons in Hx as [->|Hx]; [lia|]. specialize (Hz x Hx). simpl in Hz. lia.
Qed.

Lemma sorted_set_sorted l : StronglySorted Z.lt (sorted_set l).
Proof.
  apply dedup_sorted, (StronglySorted_merge_sort Z.le); apply _.
Qed.

Lemma strictly_sorted_NoDup l : StronglySorted Z.lt l -> NoDup l.
Proof.
  induction 1 as [|x l _ IH Hx]; constructor; [|done]. intros Hin. rewrite Forall_forall in Hx.
  specialize (Hx x Hin). lia.
Qed.

(** As long as the list exactly when nothing is in it twice. *)
Lemma sorted_set_NoDup l : length (sorted_set l) = length l <-> NoDup l.
Proof.
  unfold sorted_set. rewrite <- (merge_sort_Permutation Z.le l) at 2 3.
  assert (StronglySorted Z.le (merge_sort Z.le l)) as Hs by (apply StronglySorted_merge_sort; apply _). set (m := merge_sort Z.le l) in *. clearbody m. split.
  - intros E. assert (dedup m = m) as <-; [|by apply strictly_sorted_NoDup, dedup_sorted].
    pose proof (dedup_sublist m) as Hsub. by apply sublist_same_length.
  - intros Hn. assert (dedup m = m) as ->; [|done]. clear Hs. induction m as [|y [|z m] IH]; [done..|].
    rewrite dedup_cons2. apply NoDup_cons in Hn as [Hy Hn]. destruct (y =? z) eqn:E; bool_prop.
    + subst. exfalso. apply Hy. by left.
    + by rewrite IH.
Qed.

(** [(x >> sh) & ((1 << w) - 1)], and [x & !(mask << sh) | ((v & mask) << sh)] on 32 bits. *)
Definition field (x sh w : Z) : Z := Z.land (Z.shiftr x sh) (2 ^ w - 1).
Definition put (x sh w v : Z) : Z :=
  Z.lor (Z.land x (lnotw 32 (Z.shiftl (2 ^ w - 1) sh))) (Z.shiftl (Z.land v (2 ^ w - 1)) sh).

Lemma mask_bit w j : 0 <= w -> 0 <= j -> Z.testbit (2 ^ w - 1) j = (j <? w).
Proof. intros. rewrite Z.sub_1_r, <- Z.ones_equiv. by apply Z.testbit_ones_nonneg. Qed.

Lemma lnotw_bit w y j : is_word w y -> 0 <= w -> 0 <= j -> Z.testbit (lnotw w y) j = (j <? w) && negb (Z.testbit y j).
Proof.
  intros Hy Hw Hj. assert (is_word w (2 ^ w - 1)) as Ho by (pose proof (Z.pow_pos_nonneg 2 w); unfold is_word; lia).
  assert (Z.land (2 ^ w - 1) (lnotw w y) = lnotw w y) as <-.
  { rewrite Z.land_comm, land_ones_mod by done. apply Z.mod_small. by apply lnotw_range. }
  rewrite lnotw_ldiff by done. rewrite Z.ldiff_spec. by rewrite mask_bit.
Qed.

Lemma shifted_mask_bit w sh j : 0 <= w -> 0 <= sh -> 0 <= j ->
  Z.testbit (Z.shiftl (2 ^ w - 1) sh) j = (sh <=? j) && (j <? sh + w).
Proof.
  intros. rewrite Z.shiftl_spec by done. destruct (sh <=? j) eqn:E; bool_prop; simpl.
  - rewrite mask_bit by lia. apply Bool.eq_iff_eq_true. rewrite !Z.ltb_lt. lia.
  - by rewrite Z.testbit_neg_r by lia.
Qed.

Lemma shifted_mask_word w sh : 0 <= w -> 0 <= sh -> sh + w <= 32 -> is_word 32 (Z.shiftl (2 ^ w - 1) sh).
Proof.
  intros. rewrite Z.shiftl_mul_pow2 by done. pose proof (Z.pow_pos_nonneg 2 w). pose proof (Z.pow_pos_nonneg 2 sh).
  assert (2 ^ (sh + w) <= 2 ^ 32) by (apply Z.pow_le_mono_r; lia). rewrite Z.pow_add_r in * by lia.
  unfold is_word. nia.
Qed.

Lemma put_bit x sh w v j : 0 <= w -> 0 <= sh -> sh + w <= 32 -> 0 <= j < 32 ->
  Z.testbit (put x sh w v) j = if (sh <=? j) && (j <? sh + w) then Z.testbit v (j - sh) else Z.testbit x j.
Proof.
  intros. unfold put. rewrite Z.lor_spec, Z.land_spec.
  rewrite lnotw_bit by (lia || (apply shifted_mask_word; lia)).
  rewrite shifted_mask_bit, Z.shiftl_spec by lia. rewrite (proj2 (Z.ltb_lt j 32)) by lia.
  destruct ((sh <=? j) && (j <? sh + w)) eqn:E; bool_prop; simpl; rewrite ?andb_false_r, ?andb_true_r; simpl.
  - rewrite Z.land_spec, mask_bit by lia. rewrite (proj2 (Z.ltb_lt (j - sh) w)) by lia. by rewrite andb_true_r.
  - destruct (decide (sh <= j)); [|rewrite (Z.testbit_neg_r _ (j - sh)) by lia; by rewrite orb_false_r].
    rewrite Z.land_spec, mask_bit by lia. rewrite (proj2 (Z.ltb_ge (j - sh) w)) by (destruct E; bool_prop; lia).
    by rewrite andb_false_r, orb_false_r.
Qed.

Lemma field_bit x sh w j : 0 <= w -> 0 <= sh -> 0 <= j -> Z.testbit (field x sh w) j = (j <? w) && Z.testbit x (j + sh).
Proof.
  intros. unfold field. rewrite Z.land_spec, mask_bit, Z.shiftr_spec by lia. by rewrite andb_comm.
Qed.

(** What is put in a field is read back, and other fields are left. *)
Lemma field_put x sh w v : 0 <= w -> 0 <= sh -> sh + w <= 32 -> is_word w v -> field (put x sh w v) sh w = v.
Proof.
  intros. apply Z.bits_inj'. intros j Hj. rewrite field_bit by lia. destruct (j <? w) eqn:E; bool_prop; simpl.
  - rewrite put_bit by lia. rewrite (proj2 (Z.leb_le sh (j + sh))), (proj2 (Z.ltb_lt (j + sh) (sh + w))) by lia.
    simpl. f_equal. lia.
  - symmetry. apply (word_high_bit v w); [done|lia].
Qed.

Lemma field_put_other x sh w v sh' w' : 0 <= w -> 0 <= sh -> sh + w <= 32 -> 0 <= w' -> 0 <= sh' -> sh' + w' <= 32 ->
  sh + w <= sh' \/ sh' + w' <= sh -> field (put x sh w v) sh' w' = field x sh' w'.
Proof.
  intros. apply Z.bits_inj'. intros j Hj. rewrite !field_bit by lia. destruct (j <? w') eqn:E; bool_prop; simpl; [|done].
  rewrite put_bit by lia. destruct ((sh <=? j + sh') && (j + sh' <? sh + w)) eqn:E'; bool_prop; [lia|done].
Qed.
