(* ===== verification/Layout.v ===== *)
(** Guest physical address space layout, [vmm/src/layout.rs]: where RAM, the
    PCI windows and the ACPI block go, and that they never overlap. *)

From S2P Require Import Prelude.

Definition MMIO_HOLE_START : Z := 0xC0000000.
Definition MMIO_HOLE_END : Z := 0x100000000.
Definition PCI_MMIO_START : Z := 0xC0000000.
Definition PCI_MMIO_END : Z := 0xE0000000.
Definition PCI_MMIO64_MAX_SIZE : Z := 0x1000000000.
Definition MMCONFIG_START : Z := 0xE0000000.
Definition MMCONFIG_BUS_COUNT : Z := 1.
Definition MMCONFIG_SIZE : Z := MMCONFIG_BUS_COUNT * 0x100000.
Definition IOAPIC_START : Z := 0xFEC00000.
Definition LAPIC_START : Z := 0xFEE00000.
Definition ACPI_SIZE : Z := 0x10000.

Module Window64.

Record Mmio64Window := { start : Z; size : Z }.

Definition end_ (w : Mmio64Window) : Z := start w ⊕ size w.

Definition fits_above (w : Mmio64Window) (ram_top : Z) : bool := ram_top <=? start w.

Definition mmio64_window (phys_bits : Z) : Mmio64Window :=
  let phys_bits := Z.max 32 (Z.min 63 phys_bits) in
  let addressable := wrap 64 (Z.shiftl 1 phys_bits) in
  let size := Z.min PCI_MMIO64_MAX_SIZE (addressable / 4) in
  {| start := addressable ⊖ size; size := size |}.

End Window64.

(** A region of guest RAM: start address and length in bytes. *)
Definition ram_regions (mem_size : Z) : list (Z * Z) :=
  if mem_size <=? MMIO_HOLE_START then [(0, mem_size)]
  else [(0, MMIO_HOLE_START); (MMIO_HOLE_END, mem_size ⊖ MMIO_HOLE_START)].

Definition acpi_start (mem_size : Z) : Z :=
  let low_ram_end := Z.min mem_size MMIO_HOLE_START in
  low_ram_end ⊖ ACPI_SIZE.

Definition ram_top (mem_size : Z) : Z :=
  match last (ram_regions mem_size) with
  | Some (start, size) => start ⊕ size
  | None => 0
  end.

(** Is [a] an address of one of [regions]? *)
Definition in_regions (regions : list (Z * Z)) (a : Z) : Prop :=
  exists r, r ∈ regions /\ fst r <= a < fst r + snd r.

Lemma addressable_pow b : 32 <= b <= 63 -> wrap 64 (Z.shiftl 1 b) = 2 ^ b.
Proof.
  intros Hb. rewrite Z.shiftl_1_l. apply wrap_small. split; [apply Z.pow_nonneg; lia|].
  apply Z.pow_lt_mono_r; lia.
Qed.

(** What [mmio64_window] computes, for every width the CPU can report. *)
Lemma mmio64_window_eq bits :
  let b := Z.max 32 (Z.min 63 bits) in
  let s := Z.min PCI_MMIO64_MAX_SIZE (2 ^ b / 4) in
  Window64.mmio64_window bits = {| Window64.start := 2 ^ b - s; Window64.size := s |} /\
  0 < s <= 2 ^ b / 4 /\ 2 ^ b / 4 * 4 = 2 ^ b.
Proof.
  intros b s.
  assert (Hb : 32 <= b <= 63) by lia.
  assert (E : 2 ^ b = 2 ^ 30 * 4 * 2 ^ (b - 32)).
  { change (2 ^ 30 * 4) with (2 ^ 32). rewrite <- Z.pow_add_r by lia. f_equal. lia. }
  pose proof (Z.pow_pos_nonneg 2 (b - 32)).
  assert (D : 2 ^ b / 4 = 2 ^ 30 * 2 ^ (b - 32)).
  { rewrite E. rewrite <- Z.mul_assoc, (Z.mul_comm 4), Z.mul_assoc. by apply Z.div_mul. }
  pose proof (Z.pow_lt_mono_r 2 b 64).
  assert (Hs : 0 < s <= 2 ^ b / 4) by (unfold s, PCI_MMIO64_MAX_SIZE; lia).
  split; [|lia].
  unfold Window64.mmio64_window. fold b. rewrite addressable_pow by done. fold s.
  f_equal. apply wrap_small. unfold is_word. lia.
Qed.

(** The window ends exactly at the top of the (clamped) address space. *)
Lemma mmio64_window_end bits :
  Window64.end_ (Window64.mmio64_window bits) = 2 ^ Z.max 32 (Z.min 63 bits).
Proof.
  destruct (mmio64_window_eq bits) as (-> & ? & ?). unfold Window64.end_. simpl.
  pose proof (Z.pow_lt_mono_r 2 (Z.max 32 (Z.min 63 bits)) 64).
  rewrite Z.sub_add. apply wrap_small. unfold is_word.
  pose proof (Z.pow_nonneg 2 (Z.max 32 (Z.min 63 bits))). lia.
Qed.

(** For every physical address width a CPU can report, the 64-bit MMIO
    window stays inside the address space the guest can reach, starts no lower
    than three quarters of it (so it never covers more than the top quarter),
    and its size is a positive power of two that divides both its ends, so a
    naturally aligned BAR that starts in the window also ends in it. *)
Theorem mmio64_window_in_space (bits : Z) (Hbits : 32 <= bits <= 63) :
  let w := Window64.mmio64_window bits in
  Window64.end_ w = 2 ^ bits /\
  3 * 2 ^ bits <= 4 * Window64.start w /\
  is_power_of_two (Window64.size w) = true /\
  Window64.start w mod Window64.size w = 0 /\
  Window64.end_ w mod Window64.size w = 0.
Proof.
  intros w. unfold w. rewrite mmio64_window_end.
  destruct (mmio64_window_eq bits) as (-> & Hs & H4). simpl.
  replace (Z.max 32 (Z.min 63 bits)) with bits in * by lia.
  split; [done|]. split; [lia|].
  assert (exists k, 0 <= k <= bits - 2 /\ Z.min PCI_MMIO64_MAX_SIZE (2 ^ bits / 4) = 2 ^ k)
    as (k & Hk & ->).
  { exists (Z.min 36 (bits - 2)). split; [lia|].
    assert (2 ^ bits / 4 = 2 ^ (bits - 2)) as ->.
    { rewrite Z.pow_sub_r by lia. done. }
    change PCI_MMIO64_MAX_SIZE with (2 ^ 36).
    destruct (Z.min_spec 36 (bits - 2)) as [[? ->]|[? ->]].
    - pose proof (Z.pow_le_mono_r 2 36 (bits - 2)). lia.
    - pose proof (Z.pow_le_mono_r 2 (bits - 2) 36). lia. }
  split; [apply is_power_of_two_spec; exists k; lia|].
  pose proof (Z.pow_pos_nonneg 2 k).
  assert (E : 2 ^ bits = 2 ^ (bits - k) * 2 ^ k) by (rewrite <- Z.pow_add_r by lia; f_equal; lia).
  rewrite E. split; [|apply Z_mod_mult].
  replace (2 ^ (bits - k) * 2 ^ k - 2 ^ k) with ((2 ^ (bits - k) - 1) * 2 ^ k) by lia.
  apply Z_mod_mult.
Qed.

Lemma mmio64_window_in_space_witness :
  Window64.end_ (Window64.mmio64_window 39) = 2 ^ 39.
Proof. apply (mmio64_window_in_space 39). lia. Defined.

Lemma in_ram_regions mem_size a :
  0 <= mem_size < 2 ^ 63 ->
  in_regions (ram_regions mem_size) a <->
  0 <= a < Z.min mem_size MMIO_HOLE_START \/
  MMIO_HOLE_END <= a < MMIO_HOLE_END + (mem_size - MMIO_HOLE_START).
Proof.
  intros Hm. unfold in_regions, ram_regions, MMIO_HOLE_START, MMIO_HOLE_END.
  destruct (mem_size <=? 3221225472) eqn:E; bool_prop.
  - split.
    + intros (r & ->%list_elem_of_singleton & H). simpl in *. lia.
    + intros [H|H]; [|lia]. exists (0, mem_size). split; [by apply list_elem_of_singleton|]. simpl. lia.
  - rewrite wrap_small by (unfold is_word; lia). split.
    + intros (r & Hr & H). apply list_elem_of_In in Hr as [<-|[<-|[]]]; simpl in *; lia.
    + intros [H|H]; [exists (0, 3221225472)|eexists (_, _)];
        (split; [apply list_elem_of_In; simpl; eauto|simpl; lia]).
Qed.

(** Splitting guest RAM around the device hole loses nothing and overlaps
    nothing. For every memory size the regions hold exactly [mem_size] bytes,
    no RAM address falls in the PCI BAR window, the ECAM window, the IOAPIC or
    LAPIC pages, and when [fits_above] accepts the 64-bit window no RAM address
    falls in that window either. *)
Theorem ram_avoids_devices (mem_size bits a : Z)
    (Hm : 0 <= mem_size < 2 ^ 63) (Ha : in_regions (ram_regions mem_size) a) :
  sum_list_with (fun r => Z.to_nat (snd r)) (ram_regions mem_size) = Z.to_nat mem_size /\
  ~ (PCI_MMIO_START <= a < PCI_MMIO_END) /\
  ~ (MMCONFIG_START <= a < MMCONFIG_START + MMCONFIG_SIZE) /\
  ~ (IOAPIC_START <= a < MMIO_HOLE_END) /\
  a < ram_top mem_size /\
  (Window64.fits_above (Window64.mmio64_window bits) (ram_top mem_size) = true ->
   a < Window64.start (Window64.mmio64_window bits)).
Proof.
  assert (Htop : a < ram_top mem_size).
  { apply in_ram_regions in Ha; [|done].
    unfold ram_top, ram_regions, MMIO_HOLE_START, MMIO_HOLE_END in *.
    destruct (mem_size <=? 3221225472) eqn:E; bool_prop; simpl.
    - rewrite wrap_small by (unfold is_word; lia). lia.
    - rewrite !wrap_small by (rewrite ?wrap_small; unfold is_word; lia). lia. }
  split.
  { unfold ram_regions, MMIO_HOLE_START, MMIO_HOLE_END.
    destruct (mem_size <=? 3221225472) eqn:E; bool_prop; cbn -[Z.to_nat wrap]; [lia|].
    rewrite wrap_small by (unfold is_word; lia). lia. }
  apply in_ram_regions in Ha; [|done].
  unfold MMIO_HOLE_START, MMIO_HOLE_END, PCI_MMIO_START, PCI_MMIO_END, MMCONFIG_START,
    MMCONFIG_SIZE, MMCONFIG_BUS_COUNT, IOAPIC_START in *.
  repeat split; [lia..|]. unfold Window64.fits_above. intros ?; bool_prop. lia.
Qed.

Lemma ram_avoids_devices_witness :
  in_regions (ram_regions (8192 * 2 ^ 20)) (2 ^ 32) /\ 2 ^ 32 < ram_top (8192 * 2 ^ 20).
Proof.
  assert (H : in_regions (ram_regions (8192 * 2 ^ 20)) (2 ^ 32)).
  { apply in_ram_regions; [lia|]. right. unfold MMIO_HOLE_END, MMIO_HOLE_START. lia. }
  split; [exact H|].
  destruct (ram_avoids_devices (8192 * 2 ^ 20) 39 (2 ^ 32)) as (_ & _ & _ & _ & Htop & _);
    [lia|exact H|exact Htop].
Defined.
