(* ===== verification/PciConfig.v ===== *)
(** The PCI configuration-space builder, [pci/src/config.rs].

    [PciConfig] is the builder's state: the 256 bytes, the offset of the last
    capability and where the next one may start.  A failed [assert!] is [None].
    The theorems are about the linked list of capabilities the builder leaves
    behind: a guest that walks it from offset 0x34 finds exactly the
    capabilities that were added, in order, and nothing overlaps. *)

From S2P Require Import Prelude.

Definition PCIE_TYPE_RC_INTEGRATED : Z := 0x9.
Definition HEADER_TYPE_DEVICE : Z := 0x00.
Definition CAP_LIST_HEAD : Z := 0x34.
Definition FIRST_CAP : Z := 0x40.
Definition CAP_MAX : Z := 0x100.

Record PciConfig := {
  data : list Z;
  last_cap_offset : option Z;
  next_cap_start : Z
}.

(** [data[s..s + src.len()].copy_from_slice(src)] at a constant offset. *)
Definition put (d : list Z) (s : Z) (src : list Z) : list Z := splice d (Z.to_nat s) src.
Definition get (d : list Z) (s : Z) : Z := default 0 (d !! Z.to_nat s).

Definition new (vendor device revision class_code subsystem_vendor subsystem_id : Z)
    : PciConfig :=
  let c := replicate 256 0 in
  let c := put c 0 (le_bytes 2 vendor) in
  let c := put c 2 (le_bytes 2 device) in
  let c := put c 4 (le_bytes 2 0x0006) in
  let c := put c 6 (le_bytes 2 0x0010) in
  let c := put c 8 [revision] in
  let c := put c 9 [u8 (Z.land class_code 0xFF)] in
  let c := put c 10 [u8 (Z.land (Z.shiftr class_code 8) 0xFF)] in
  let c := put c 11 [u8 (Z.land (Z.shiftr class_code 16) 0xFF)] in
  let c := put c 0x0e [HEADER_TYPE_DEVICE] in
  let c := put c 0x2c (le_bytes 2 subsystem_vendor) in
  let c := put c 0x2e (le_bytes 2 subsystem_id) in
  {| data := c; last_cap_offset := None; next_cap_start := FIRST_CAP |}.

Definition with_data (c : PciConfig) (d : list Z) : PciConfig :=
  {| data := d; last_cap_offset := last_cap_offset c; next_cap_start := next_cap_start c |}.

Definition set_irq_pin (c : PciConfig) (pin : Z) : PciConfig :=
  with_data c (put (data c) 0x3d [pin]).

Definition set_irq_line (c : PciConfig) (line : Z) : PciConfig :=
  with_data c (put (data c) 0x3c [line]).

Definition set_bar_mem (c : PciConfig) (bar_idx : Z) (_size : Z) : option PciConfig :=
  if bar_idx <? 6 then
    let off := 0x10 + bar_idx * 4 in
    Some (with_data c (put (data c) off (le_bytes 4 0)))
  else None.

Definition set_bar_mem64 (c : PciConfig) (bar_idx : Z) (_size : Z) : option PciConfig :=
  if bar_idx <? 5 then
    let off := 0x10 + bar_idx * 4 in
    Some (with_data c (put (data c) off (le_bytes 8 0)))
  else None.

Definition next_dword (offset : Z) : Z := Z.land (u16 (offset + 3)) (lnotw 16 3).

Definition add_cap (c : PciConfig) (cap_id : Z) (payload : list Z) : option (PciConfig * Z) :=
  let total_cap_len := 2 + Z.of_nat (length payload) in
  let start := next_cap_start c in
  if negb ((FIRST_CAP <=? start) && (start <? CAP_MAX)) then None
  else
    let s := start in
    if negb (s + total_cap_len <=? CAP_MAX) then None
    else
      let d := put (data c) s [cap_id] in
      let d := put d (s + 1) [0] in
      let d := put d (s + 2) payload in
      let d :=
        match last_cap_offset c with
        | Some prev => put d (prev + 1) [u8 start]
        | None => put d CAP_LIST_HEAD [u8 start]
        end in
      Some ({| data := d;
               last_cap_offset := Some start;
               next_cap_start := next_dword (u16 (start + u16 total_cap_len)) |}, start).

Definition add_virtio_cap (c : PciConfig) (cfg_type bar_idx offset length : Z)
    : option (PciConfig * Z) :=
  let payload := [0x10; cfg_type; bar_idx; 0; 0; 0] ++ le_bytes 4 offset ++ le_bytes 4 length in
  add_cap c 0x09 payload.

Definition add_virtio_notify_cap (c : PciConfig) (bar_idx offset length multiplier : Z)
    : option (PciConfig * Z) :=
  let payload := [0x14; 2; bar_idx; 0; 0; 0] ++ le_bytes 4 offset ++ le_bytes 4 length
                 ++ le_bytes 4 multiplier in
  add_cap c 0x09 payload.

Definition shm_cap_payload (shmid bar_idx offset length : Z) : list Z :=
  [24; 8; bar_idx; shmid; 0; 0] ++ le_bytes 4 (u32 offset) ++ le_bytes 4 (u32 length)
  ++ le_bytes 4 (u32 (Z.shiftr offset 32)) ++ le_bytes 4 (u32 (Z.shiftr length 32)).

Definition add_virtio_shm_cap (c : PciConfig) (shmid bar_idx offset length : Z)
    : option (PciConfig * Z) :=
  add_cap c 0x09 (shm_cap_payload shmid bar_idx offset length).

Definition add_msix_cap (c : PciConfig) (table_size table_off pba_off : Z)
    : option (PciConfig * Z) :=
  let payload := le_bytes 2 table_size ++ le_bytes 4 table_off ++ le_bytes 4 pba_off in
  add_cap c 0x11 payload.

Definition add_pcie_cap (c : PciConfig) (device_type : Z) : option (PciConfig * Z) :=
  let caps_reg := Z.lor 0x0002 (Z.shiftl (Z.land device_type 0xF) 4) in
  let payload := le_bytes 2 caps_reg ++ replicate 56 0 in
  add_cap c 0x10 payload.

Definition build (c : PciConfig) : list Z := data c.

(** The walk a guest makes over the capability list; [fuel] bounds it, and
    [None] says it did not reach the terminator within that many steps. *)
Fixpoint capabilities_from (fuel : nat) (cfg : list Z) (pos : Z) : option (list (Z * Z)) :=
  if (pos =? 0) || negb (pos <? 256) then Some []
  else
    match fuel with
    | O => None
    | S fuel =>
        rest ← capabilities_from fuel cfg (get cfg (pos + 1));
        Some ((pos, get cfg pos) :: rest)
    end.

Definition capabilities (fuel : nat) (cfg : list Z) : option (list (Z * Z)) :=
  capabilities_from fuel cfg (get cfg CAP_LIST_HEAD).

(** * The list invariant *)

(** One capability: where it starts, its id and its payload. *)
Definition cap : Type := Z * Z * list Z.
Definition cap_end (k : cap) : Z := k.1.1 + 2 + Z.of_nat (length k.2).

(** [chain d ptr lo caps]: following the pointer byte at [ptr] visits [caps],
    each starting at or after [lo] and after the end of the one before, with
    its id and payload in place. *)
Fixpoint chain (d : list Z) (ptr lo : Z) (caps : list cap) : Prop :=
  match caps with
  | [] => d !! Z.to_nat ptr = Some 0
  | (o, id, pl) :: rest =>
      d !! Z.to_nat ptr = Some o /\ lo <= o /\
      d !! Z.to_nat o = Some id /\
      (forall i, (i < length pl)%nat -> d !! (Z.to_nat (o + 2) + i)%nat = pl !! i) /\
      chain d (o + 1) (o + 2 + Z.of_nat (length pl)) rest
  end.

Definition chain_end (lo : Z) (caps : list cap) : Z :=
  default lo (cap_end <$> last caps).

Record cap_inv (c : PciConfig) (caps : list cap) : Prop := {
  inv_len : length (data c) = 256%nat;
  inv_chain : chain (data c) CAP_LIST_HEAD FIRST_CAP caps;
  inv_last : last_cap_offset c = (fun k => k.1.1) <$> last caps;
  inv_next : chain_end FIRST_CAP caps <= next_cap_start c;
  inv_room : chain_end FIRST_CAP caps <= CAP_MAX
}.

Definition last_ptr (ptr : Z) (caps : list cap) : Z :=
  default ptr ((fun k => k.1.1 + 1) <$> last caps).

Lemma chain_end_cons lo k caps : chain_end lo (k :: caps) = chain_end (cap_end k) caps.
Proof. unfold chain_end. rewrite last_cons. by destruct (last caps). Qed.

Lemma last_ptr_cons ptr k caps : last_ptr ptr (k :: caps) = last_ptr (k.1.1 + 1) caps.
Proof. unfold last_ptr. rewrite last_cons. by destruct (last caps). Qed.

Lemma chain_end_snoc lo caps k : chain_end lo (caps ++ [k]) = cap_end k.
Proof. unfold chain_end. by rewrite last_snoc. Qed.

Lemma chain_bounds d ptr lo caps :
  chain d ptr lo caps ->
  lo + 2 * Z.of_nat (length caps) <= chain_end lo caps /\
  (caps = [] \/ lo < last_ptr ptr caps < chain_end lo caps).
Proof.
  revert ptr lo; induction caps as [|[[o id] pl] rest IH]; intros ptr lo; simpl.
  - intros _. unfold chain_end. simpl. split; [lia|by left].
  - intros (_ & Hlo & _ & _ & Hr). destruct (IH _ _ Hr) as [IH1 IH2].
    rewrite chain_end_cons, last_ptr_cons. unfold cap_end in *. simpl in *.
    split; [lia|]. right. destruct IH2 as [->|]; [|lia].
    unfold last_ptr, chain_end. simpl. lia.
Qed.

(** Changing bytes past the list and outside the head pointer keeps it. *)
Lemma chain_frame d d' ptr lo caps :
  ptr < lo -> chain d ptr lo caps ->
  (forall i, i = ptr \/ lo <= i < chain_end lo caps ->
     d' !! Z.to_nat i = d !! Z.to_nat i) ->
  0 <= lo -> chain d' ptr lo caps.
Proof.
  revert ptr lo; induction caps as [|[[o id] pl] rest IH]; intros ptr lo Hp; simpl.
  - intros <- Hf _. apply Hf. by left.
  - intros (Hptr & Hlo & Hid & Hpl & Hr) Hf H0.
    pose proof (chain_bounds _ _ _ _ Hr) as [Hb _].
    rewrite chain_end_cons in Hf. unfold cap_end in Hf. simpl in Hf.
    repeat split; auto.
    + rewrite <- Hptr. apply Hf. by left.
    + rewrite <- Hid. apply Hf. lia.
    + intros i Hi. rewrite <- Hpl by done.
      replace (Z.to_nat (o + 2) + i)%nat with (Z.to_nat (o + 2 + Z.of_nat i)) by lia.
      apply Hf. lia.
    + apply IH; [lia|done| |lia]. intros i [->|Hi]; apply Hf; lia.
Qed.

(** Appending one capability: only the last pointer byte of the old list
    changes, everything else of it stays. *)
Lemma chain_snoc d d' ptr lo caps o id pl :
  0 <= ptr < lo -> chain d ptr lo caps -> chain_end lo caps <= o ->
  (forall i, i <> last_ptr ptr caps -> i = ptr \/ lo <= i < chain_end lo caps ->
     d' !! Z.to_nat i = d !! Z.to_nat i) ->
  d' !! Z.to_nat (last_ptr ptr caps) = Some o ->
  d' !! Z.to_nat o = Some id ->
  d' !! Z.to_nat (o + 1) = Some 0 ->
  (forall i, (i < length pl)%nat -> d' !! (Z.to_nat (o + 2) + i)%nat = pl !! i) ->
  chain d' ptr lo (caps ++ [(o, id, pl)]).
Proof.
  intros Hp Hc Ho Hf Hl Hid Hz Hpl.
  revert ptr lo Hp Hc Ho Hf Hl; induction caps as [|[[o1 id1] pl1] rest IH];
    intros ptr lo Hp Hc Ho Hf Hl; simpl.
  - unfold last_ptr, chain_end in *. simpl in *. auto 6.
  - destruct Hc as (Hptr & Hlo & Hid1 & Hpl1 & Hr).
    rewrite chain_end_cons in *. rewrite last_ptr_cons in *. unfold cap_end in *. simpl in *.
    pose proof (chain_bounds _ _ _ _ Hr) as [Hb Hlp].
    assert (o1 < last_ptr (o1 + 1) rest).
    { destruct Hlp as [->|]; [unfold last_ptr; simpl|]; lia. }
    assert (forall i, (i < length pl1)%nat -> o1 + 2 + Z.of_nat i <> last_ptr (o1 + 1) rest).
    { destruct Hlp as [->|]; [unfold last_ptr; simpl|]; lia. }
    repeat split; auto.
    + rewrite <- Hptr. apply Hf; lia.
    + rewrite <- Hid1. apply Hf; lia.
    + intros i Hi. rewrite <- Hpl1 by done.
      replace (Z.to_nat (o1 + 2) + i)%nat with (Z.to_nat (o1 + 2 + Z.of_nat i)) by lia.
      apply Hf; [by auto|lia].
    + apply IH; auto; [lia|]. intros i Hne Hi. apply Hf; [done|lia].
Qed.

(** ** Puts *)

Lemma length_put d s src :
  0 <= s -> s + Z.of_nat (length src) <= Z.of_nat (length d) ->
  length (put d s src) = length d.
Proof. intros. apply length_splice. lia. Qed.

Lemma lookup_put_out d s src i :
  0 <= s -> s + Z.of_nat (length src) <= Z.of_nat (length d) ->
  0 <= i -> i < s \/ s + Z.of_nat (length src) <= i ->
  put d s src !! Z.to_nat i = d !! Z.to_nat i.
Proof. intros. apply lookup_splice_out; lia. Qed.

Lemma lookup_put_in d s src j :
  0 <= s -> s + Z.of_nat (length src) <= Z.of_nat (length d) ->
  (j < length src)%nat -> put d s src !! (Z.to_nat s + j)%nat = src !! j.
Proof. intros. unfold put. rewrite lookup_splice_in by lia. f_equal. lia. Qed.

Lemma lookup_put_one d s x :
  0 <= s < Z.of_nat (length d) -> put d s [x] !! Z.to_nat s = Some x.
Proof.
  intros. rewrite <- (Nat.add_0_r (Z.to_nat s)). rewrite lookup_put_in; simpl; try lia. done.
Qed.

Lemma next_dword_spec x : 0 <= x <= 256 -> x <= next_dword x <= 256.
Proof.
  intros Hx. unfold next_dword. rewrite wrap_small by (unfold is_word; lia).
  change (lnotw 16 3) with (lnotw 16 (2 ^ 2 - 1)).
  rewrite land_align_down by (unfold is_word; lia).
  change (2 ^ 2) with 4. Z.div_mod_to_equations. lia.
Qed.

(** ** Every builder operation keeps the list *)

Lemma cap_inv_new v d r cc sv si : cap_inv (new v d r cc sv si) [].
Proof.
  split; [reflexivity|reflexivity|..].
  - done.
  - unfold chain_end. simpl. lia.
  - unfold chain_end, FIRST_CAP, CAP_MAX. simpl. lia.
Qed.

(** A write below the capability area that misses the list head is invisible
    to the list. *)
Lemma cap_inv_header c caps s src :
  0 <= s -> s + Z.of_nat (length src) <= FIRST_CAP ->
  (CAP_LIST_HEAD < s \/ s + Z.of_nat (length src) <= CAP_LIST_HEAD) ->
  cap_inv c caps -> cap_inv (with_data c (put (data c) s src)) caps.
Proof.
  intros H0 Hs Hh [Hl Hc Hla Hn Hr]. unfold FIRST_CAP, CAP_LIST_HEAD in *.
  split; simpl; auto.
  - rewrite length_put; lia.
  - eapply chain_frame; eauto; try (unfold CAP_LIST_HEAD, FIRST_CAP; lia).
    intros i Hi. apply lookup_put_out; unfold CAP_LIST_HEAD, FIRST_CAP in *; lia.
Qed.

(** What a capability at [s] linked from [p] leaves in the space. *)
Lemma put_cap d s p id pl :
  length d = 256%nat -> 0x34 <= p < s -> s + 2 + Z.of_nat (length pl) <= 256 ->
  let d' := put (put (put (put d s [id]) (s + 1) [0]) (s + 2) pl) p [s] in
  length d' = 256%nat /\
  (forall i, i <> p -> 0 <= i < s -> d' !! Z.to_nat i = d !! Z.to_nat i) /\
  d' !! Z.to_nat p = Some s /\ d' !! Z.to_nat s = Some id /\ d' !! Z.to_nat (s + 1) = Some 0 /\
  (forall i, (i < length pl)%nat -> d' !! (Z.to_nat (s + 2) + i)%nat = pl !! i).
Proof.
  intros Hl Hp Hs. set (d1 := put d s [id]). set (d2 := put d1 (s + 1) [0]). set (d3 := put d2 (s + 2) pl).
  assert (L1 : length d1 = 256%nat) by (unfold d1; rewrite length_put; simpl; lia).
  assert (L2 : length d2 = 256%nat) by (unfold d2; rewrite length_put; simpl; lia).
  assert (L3 : length d3 = 256%nat) by (unfold d3; rewrite length_put; simpl; lia).
  cbv zeta. split_and!.
  - rewrite length_put; simpl; lia.
  - intros i Hi Hs'. rewrite lookup_put_out by (simpl; lia). unfold d3. rewrite lookup_put_out by (simpl; lia).
    unfold d2. rewrite lookup_put_out by (simpl; lia). apply lookup_put_out; simpl; lia.
  - apply lookup_put_one. lia.
  - rewrite lookup_put_out by (simpl; lia). unfold d3. rewrite lookup_put_out by (simpl; lia).
    unfold d2. rewrite lookup_put_out by (simpl; lia). apply lookup_put_one. lia.
  - rewrite lookup_put_out by (simpl; lia). unfold d3. rewrite lookup_put_out by (simpl; lia). apply lookup_put_one. lia.
  - intros i Hi. replace (Z.to_nat (s + 2) + i)%nat with (Z.to_nat (s + 2 + Z.of_nat i)) by lia.
    rewrite lookup_put_out by (simpl; lia).
    replace (Z.to_nat (s + 2 + Z.of_nat i)) with (Z.to_nat (s + 2) + i)%nat by lia. apply lookup_put_in; [lia..|done].
Qed.

Lemma add_cap_inv c caps id pl c' o :
  cap_inv c caps -> add_cap c id pl = Some (c', o) ->
  cap_inv c' (caps ++ [(o, id, pl)]) /\
  (forall i, 0 <= i < FIRST_CAP -> i <> CAP_LIST_HEAD ->
     data c' !! Z.to_nat i = data c !! Z.to_nat i).
Proof.
  intros [Hl Hc Hla Hn Hr] Ha. unfold add_cap in Ha. case_tests; try done.
  injection Ha as <- <-.
  set (s := next_cap_start c) in *.
  set (p := last_ptr CAP_LIST_HEAD caps).
  assert (Hp : match last_cap_offset c with
               | Some prev => prev + 1 | None => CAP_LIST_HEAD end = p).
  { rewrite Hla. unfold p, last_ptr. by destruct (last caps). }
  pose proof (chain_bounds _ _ _ _ Hc) as [Hb Hlp]. fold p in Hlp.
  assert (Hps : 0x34 <= p < s /\ (p = 0x34 \/ FIRST_CAP <= p)).
  { unfold FIRST_CAP, CAP_LIST_HEAD in *. destruct Hlp as [->|]; [unfold p, last_ptr; simpl|];
      unfold CAP_LIST_HEAD; lia. }
  set (d3 := put (put (put (data c) s [id]) (s + 1) [0]) (s + 2) pl).
  assert (Hd : match last_cap_offset c with
               | Some prev => put d3 (prev + 1) [u8 s]
               | None => put d3 CAP_LIST_HEAD [u8 s] end = put d3 p [s]).
  { unfold FIRST_CAP, CAP_MAX in *. rewrite wrap_small by (unfold is_word; lia).
    rewrite <- Hp. by destruct (last_cap_offset c). }
  rewrite Hd. unfold FIRST_CAP, CAP_MAX, CAP_LIST_HEAD in *.
  destruct (put_cap (data c) s p id pl) as (Hlen & Hout & H1 & H2 & H3 & H4); [done|lia..|]. fold d3 in Hlen, Hout, H1, H2, H3, H4.
  split; [|intros i Hi Hne; apply Hout; lia].
  split; simpl.
  - done.
  - apply (chain_snoc (data c)); [unfold CAP_LIST_HEAD, FIRST_CAP; lia|exact Hc|exact Hn|..]; fold p; try done.
    unfold CAP_LIST_HEAD, FIRST_CAP in *. intros i Hi Hr'. apply Hout; [done|lia].
  - by rewrite last_snoc.
  - rewrite chain_end_snoc. unfold cap_end. simpl.
    rewrite (wrap_small 16 (2 + _)) by (unfold is_word; lia).
    rewrite wrap_small by (unfold is_word; lia).
    pose proof (next_dword_spec (s + (2 + Z.of_nat (length pl)))). lia.
  - rewrite chain_end_snoc. unfold cap_end, CAP_MAX. simpl. lia.
Qed.

(** * The builder as a whole *)

(** The calls a device makes while it builds its configuration space. *)
Inductive builder_op :=
  | SetIrqPin (pin : Z)
  | SetIrqLine (line : Z)
  | SetBarMem (bar_idx size : Z)
  | SetBarMem64 (bar_idx size : Z)
  | AddCap (cap_id : Z) (payload : list Z).

Definition run_op (c : PciConfig) (op : builder_op) : option PciConfig :=
  match op with
  | SetIrqPin pin => Some (set_irq_pin c pin)
  | SetIrqLine line => Some (set_irq_line c line)
  | SetBarMem i s => set_bar_mem c i s
  | SetBarMem64 i s => set_bar_mem64 c i s
  | AddCap id pl => fst <$> add_cap c id pl
  end.

Fixpoint run_ops (c : PciConfig) (ops : list builder_op) : option PciConfig :=
  match ops with
  | [] => Some c
  | op :: ops => c' ← run_op c op; run_ops c' ops
  end.

(** [bar_idx] is a [usize], so it is never negative. *)
Definition op_ok (op : builder_op) : Prop :=
  match op with
  | SetBarMem i _ | SetBarMem64 i _ => 0 <= i
  | _ => True
  end.

Definition added (ops : list builder_op) : list (Z * list Z) :=
  omap (fun op => match op with AddCap id pl => Some (id, pl) | _ => None end) ops.

Definition forget (k : cap) : Z * list Z := (k.1.2, k.2).

Lemma run_op_inv c caps op c' :
  op_ok op -> cap_inv c caps -> run_op c op = Some c' ->
  exists new, cap_inv c' (caps ++ new) /\ forget <$> new = added [op].
Proof.
  intros Hok Hi Hr. destruct op as [pin|line|i s|i s|id pl]; simpl in *.
  - injection Hr as <-. exists []. rewrite app_nil_r. split; [|done].
    apply cap_inv_header; unfold FIRST_CAP, CAP_LIST_HEAD; simpl; try lia; done.
  - injection Hr as <-. exists []. rewrite app_nil_r. split; [|done].
    apply cap_inv_header; unfold FIRST_CAP, CAP_LIST_HEAD; simpl; try lia; done.
  - unfold set_bar_mem in Hr. case_tests; try done. injection Hr as <-.
    exists []. rewrite app_nil_r. split; [|done].
    apply cap_inv_header; unfold FIRST_CAP, CAP_LIST_HEAD; simpl; try lia; done.
  - unfold set_bar_mem64 in Hr. case_tests; try done. injection Hr as <-.
    exists []. rewrite app_nil_r. split; [|done].
    apply cap_inv_header; unfold FIRST_CAP, CAP_LIST_HEAD; simpl; try lia; done.
  - destruct (add_cap c id pl) as [[c1 o]|] eqn:E; simpl in Hr; [|done].
    injection Hr as <-. exists [(o, id, pl)]. split; [|done].
    by apply (add_cap_inv c caps id pl c1 o).
Qed.

Lemma run_ops_inv ops c caps c' :
  Forall op_ok ops -> cap_inv c caps -> run_ops c ops = Some c' ->
  exists new, cap_inv c' (caps ++ new) /\ forget <$> new = added ops.
Proof.
  intros Hok; revert c caps. induction Hok as [|op ops Hop Hok IH]; intros c caps Hi Hr; simpl in Hr.
  - injection Hr as <-. exists []. by rewrite app_nil_r.
  - destruct (run_op c op) as [c1|] eqn:E; simpl in Hr; [|done].
    destruct (run_op_inv _ _ _ _ Hop Hi E) as (n1 & Hi1 & Hn1).
    destruct (IH _ _ Hi1 Hr) as (n2 & Hi2 & Hn2).
    exists (n1 ++ n2). rewrite app_assoc. split; [done|].
    rewrite fmap_app, Hn1, Hn2. unfold added. simpl. by destruct op.
Qed.

Lemma capabilities_chain fuel d ptr lo caps :
  0 < lo -> length d = 256%nat -> chain d ptr lo caps -> (length caps <= fuel)%nat ->
  capabilities_from fuel d (get d ptr) = Some ((fun k => (k.1.1, k.1.2)) <$> caps).
Proof.
  revert ptr lo fuel; induction caps as [|[[o id] pl] rest IH]; intros ptr lo fuel Hlo Hl Hc Hf.
  - simpl in Hc. unfold get. rewrite Hc. by destruct fuel.
  - simpl in Hc, Hf. destruct Hc as (Hptr & Ho & Hid & _ & Hr).
    assert (o < 256) by (apply lookup_lt_Some in Hid; lia).
    unfold get at 1. rewrite Hptr. simpl.
    destruct fuel as [|fuel]; [lia|]. simpl.
    destruct (o =? 0) eqn:E1; bool_prop; [lia|].
    destruct (o <? 256) eqn:E2; bool_prop; [|lia]. simpl.
    rewrite (IH _ (o + 2 + Z.of_nat (length pl))); [|lia|done|done|lia].
    simpl. unfold get. by rewrite Hid.
Qed.

Lemma chain_lookup d ptr lo caps i o id pl :
  0 <= lo -> chain d ptr lo caps -> caps !! i = Some (o, id, pl) ->
  lo <= o /\ o + 2 + Z.of_nat (length pl) <= chain_end lo caps /\
  (forall j, (j < length pl)%nat -> d !! (Z.to_nat (o + 2) + j)%nat = pl !! j) /\
  (forall j o' id' pl', (j < i)%nat -> caps !! j = Some (o', id', pl') ->
     o' + 2 + Z.of_nat (length pl') <= o).
Proof.
  revert ptr lo i; induction caps as [|[[o1 id1] pl1] rest IH]; intros ptr lo i H0 Hc Hi; [done|].
  simpl in Hc. destruct Hc as (_ & Hlo & _ & Hpl & Hr).
  pose proof (chain_bounds _ _ _ _ Hr) as [Hb _].
  rewrite chain_end_cons. unfold cap_end. simpl.
  destruct i as [|i]; simpl in Hi.
  - injection Hi as -> -> ->. repeat split; [lia|lia|done|]. intros. lia.
  - destruct (IH (o1 + 1) (o1 + 2 + Z.of_nat (length pl1)) i ltac:(lia) Hr Hi) as (H1 & H2 & H3 & H4).
    repeat split; [lia|lia|done|]. intros [|j] o' id' pl' Hj Hl; simpl in Hl.
    + injection Hl as -> -> ->. lia.
    + eapply H4; eauto. lia.
Qed.

Lemma slice_of_lookup (d pl : list Z) (s : nat) :
  (forall j, (j < length pl)%nat -> d !! (s + j)%nat = pl !! j) ->
  take (length pl) (drop s d) = pl.
Proof.
  intros H. apply list_eq; intros i.
  destruct (decide (i < length pl)%nat) as [Hi|Hi].
  - rewrite lookup_take_lt, lookup_drop by done. by apply H.
  - rewrite lookup_take_ge, lookup_ge_None_2 by lia. done.
Qed.

Lemma run_op_header c caps op c' i :
  op_ok op -> cap_inv c caps -> run_op c op = Some c' -> 0 <= i < 0x10 ->
  data c' !! Z.to_nat i = data c !! Z.to_nat i.
Proof.
  intros Hok Hi Hr Hlt. pose proof (inv_len _ _ Hi) as Hl.
  destruct op as [pin|line|b s|b s|id pl]; simpl in *.
  - injection Hr as <-. apply lookup_put_out; simpl; lia.
  - injection Hr as <-. apply lookup_put_out; simpl; lia.
  - unfold set_bar_mem in Hr. case_tests; try done. injection Hr as <-.
    apply lookup_put_out; cbn; lia.
  - unfold set_bar_mem64 in Hr. case_tests; try done. injection Hr as <-.
    apply lookup_put_out; cbn; lia.
  - destruct (add_cap c id pl) as [[c1 o]|] eqn:E; simpl in Hr; [|done]. injection Hr as <-.
    eapply add_cap_inv; eauto; unfold FIRST_CAP, CAP_LIST_HEAD; lia.
Qed.

Lemma run_ops_header ops c caps c' i :
  Forall op_ok ops -> cap_inv c caps -> run_ops c ops = Some c' -> 0 <= i < 0x10 ->
  data c' !! Z.to_nat i = data c !! Z.to_nat i.
Proof.
  intros Hok; revert c caps. induction Hok as [|op ops Hop Hok IH]; intros c caps Hi Hr Hlt;
    simpl in Hr; [congruence|].
  destruct (run_op c op) as [c1|] eqn:E; simpl in Hr; [|done].
  destruct (run_op_inv _ _ _ _ Hop Hi E) as (n1 & Hi1 & _).
  rewrite (IH _ _ Hi1 Hr Hlt). by apply (run_op_header _ _ _ _ _ Hop Hi E).
Qed.

(** Whatever sequence of builder calls a device makes, if none of them
    panics then a guest walking the capability list from offset 0x34 reaches
    the terminator and finds exactly the capabilities that were added, in the
    order they were added; each lies between 0x40 and 0x100 with its payload
    intact, no two overlap, and the first sixteen header bytes (vendor, device,
    command, status, class) are what [new] wrote. *)
Theorem capability_list_complete (v d r cc sv si : Z) (ops : list builder_op) (c' : PciConfig)
    (Hops : Forall op_ok ops) (Hrun : run_ops (new v d r cc sv si) ops = Some c') :
  exists offs : list Z,
    capabilities 256 (build c') = Some (zip offs (fst <$> added ops)) /\
    length offs = length (added ops) /\
    (forall i o id pl, offs !! i = Some o -> added ops !! i = Some (id, pl) ->
       FIRST_CAP <= o /\ o + 2 + Z.of_nat (length pl) <= CAP_MAX /\
       take (length pl) (drop (Z.to_nat (o + 2)) (build c')) = pl) /\
    (forall i j oi idi pli oj, (i < j)%nat -> offs !! i = Some oi ->
       added ops !! i = Some (idi, pli) -> offs !! j = Some oj ->
       oi + 2 + Z.of_nat (length pli) <= oj) /\
    take 16 (build c') = take 16 (data (new v d r cc sv si)).
Proof.
  destruct (run_ops_inv _ _ _ _ Hops (cap_inv_new v d r cc sv si) Hrun) as (caps & Hi & Ha).
  simpl in Hi. destruct Hi as [Hl Hc _ _ Hroom].
  assert (Hlook : forall i o id pl, ((fun k : cap => k.1.1) <$> caps) !! i = Some o ->
    added ops !! i = Some (id, pl) -> caps !! i = Some (o, id, pl)).
  { intros i o id pl H1 H2. rewrite <- Ha in H2. rewrite list_lookup_fmap in H1. rewrite list_lookup_fmap in H2.
    destruct (caps !! i) as [[[o' id'] pl']|]; [|done].
    injection H1 as <-. by injection H2 as <- <-. }
  exists ((fun k : cap => k.1.1) <$> caps). repeat split.
  - unfold capabilities, build.
    rewrite (capabilities_chain 256 _ _ FIRST_CAP caps); [|unfold FIRST_CAP; lia|done|done|].
    + f_equal. rewrite <- Ha. clear. induction caps; simpl; [done|]. by f_equal.
    + pose proof (chain_bounds _ _ _ _ Hc) as [Hb _]. unfold FIRST_CAP, CAP_MAX in *. lia.
  - by rewrite <- Ha, !length_fmap.
  - pose proof (Hlook _ _ _ _ H H0) as Hk.
    eapply chain_lookup in Hk as (? & _); eauto. unfold FIRST_CAP. lia.
  - pose proof (Hlook _ _ _ _ H H0) as Hk.
    eapply chain_lookup in Hk as (_ & ? & _); eauto; unfold FIRST_CAP in *; lia.
  - pose proof (Hlook _ _ _ _ H H0) as Hk. apply slice_of_lookup.
    eapply chain_lookup in Hk as (_ & _ & ? & _); eauto. unfold FIRST_CAP. lia.
  - intros i j oi idi pli oj Hij Hoi Hai Hoj.
    pose proof (Hlook _ _ _ _ Hoi Hai) as Hk.
    rewrite list_lookup_fmap in Hoj.
    destruct (caps !! j) as [[[o2 id2] pl2]|] eqn:Ej; simpl in Hoj; [|done].
    injection Hoj as <-.
    eapply chain_lookup in Ej as (_ & _ & _ & Hord); eauto. unfold FIRST_CAP. lia.
  - unfold build. apply list_eq; intros i. destruct (decide (i < 16)%nat).
    + rewrite !lookup_take_lt by done. rewrite <- (Nat2Z.id i).
      eapply run_ops_header; eauto using cap_inv_new. lia.
    + by rewrite !lookup_take_ge by lia.
Qed.

(** The capabilities the block device registers, in its own order. *)
Definition blk_like_ops : list builder_op :=
  [SetBarMem 0 0x1000; SetIrqPin 1; SetIrqLine 10;
   AddCap 0x09 (replicate 14 1); AddCap 0x09 (replicate 18 2); AddCap 0x09 (replicate 14 3);
   AddCap 0x09 (replicate 14 4); AddCap 0x11 (replicate 10 5); AddCap 0x10 (replicate 58 6)].

Lemma capability_list_complete_witness :
  exists c', run_ops (new 0x1AF4 0x1042 1 0x010000 0x1AF4 2) blk_like_ops = Some c' /\
  exists offs, capabilities 256 (build c') = Some (zip offs [9; 9; 9; 9; 0x11; 0x10]).
Proof.
  destruct (run_ops (new 0x1AF4 0x1042 1 0x010000 0x1AF4 2) blk_like_ops) as [c'|] eqn:E;
    [|vm_compute in E; discriminate].
  exists c'. split; [reflexivity|].
  destruct (capability_list_complete 0x1AF4 0x1042 1 0x010000 0x1AF4 2 blk_like_ops c')
    as (offs & H & _).
  - unfold blk_like_ops. repeat constructor; simpl; lia.
  - exact E.
  - exists offs. exact H.
Defined.

(** What a guest reads out of a shared-memory capability at [pos]: BAR, shmid,
    and the 64-bit offset and length reassembled from their two halves. *)
Definition decode_shm (cfg : list Z) (pos : Z) : Z * Z * Z * Z :=
  let rd o := of_le (take 4 (drop (Z.to_nat (pos + o)) cfg)) in
  (get cfg (pos + 4), get cfg (pos + 5),
   Z.lor (rd 8) (Z.shiftl (rd 16) 32), Z.lor (rd 12) (Z.shiftl (rd 20) 32)).

Lemma rejoin_halves x :
  is_word 64 x -> Z.lor (of_le (le_bytes 4 (u32 x)))
    (Z.shiftl (of_le (le_bytes 4 (u32 (Z.shiftr x 32)))) 32) = x.
Proof.
  intros Hx. unfold is_word in Hx.
  rewrite !of_le_le_bytes_small by (change (8 * Z.of_nat 4) with 32; apply wrap_range; lia).
  rewrite (wrap_small 32 (Z.shiftr x 32)).
  - rewrite lor_shiftl_add by (try lia; apply wrap_range; lia).
    unfold wrap. rewrite Z.shiftr_div_pow2 by lia. pose proof (Z.div_mod x (2 ^ 32)). lia.
  - rewrite Z.shiftr_div_pow2 by lia. split; [apply Z.div_pos; lia|].
    apply Z.div_lt_upper_bound; lia.
Qed.

(** A shared-memory capability carries its 64-bit offset and length through
    the split into 32-bit registers: whatever configuration space it is added
    to, a guest that reassembles the halves the way Linux does reads back the
    BAR, shmid, offset and length that were given. *)
Theorem shm_cap_roundtrip (c : PciConfig) (caps : list cap) (shmid bar offset len : Z)
    (c' : PciConfig) (pos : Z)
    (Hinv : cap_inv c caps) (Hoff : is_word 64 offset) (Hlen : is_word 64 len)
    (Hadd : add_virtio_shm_cap c shmid bar offset len = Some (c', pos)) :
  decode_shm (build c') pos = (bar, shmid, offset, len).
Proof.
  pose proof (add_cap_inv _ _ _ _ _ _ Hinv Hadd) as [[Hl Hc _ _ _] _].
  assert (Hk : (caps ++ [(pos, 0x09, shm_cap_payload shmid bar offset len)]) !! length caps
    = Some (pos, 0x09, shm_cap_payload shmid bar offset len)).
  { by apply list_lookup_middle. }
  destruct (chain_lookup _ _ FIRST_CAP _ _ _ _ _ ltac:(done) Hc Hk) as (Hlo & _ & Hp & _).
  unfold FIRST_CAP in Hlo.
  change (length (shm_cap_payload shmid bar offset len)) with 22%nat in Hp.
  assert (Hrd : forall o, 2 <= o <= 20 ->
    take 4 (drop (Z.to_nat (pos + o)) (data c')) =
    take 4 (drop (Z.to_nat (o - 2)) (shm_cap_payload shmid bar offset len))).
  { intros o Ho. apply list_eq; intros i. destruct (decide (i < 4)%nat).
    - rewrite !lookup_take_lt, !lookup_drop by done.
      replace (Z.to_nat (pos + o) + i)%nat
        with (Z.to_nat (pos + 2) + (Z.to_nat (o - 2) + i))%nat by lia.
      apply Hp. lia.
    - by rewrite !lookup_take_ge by lia. }
  assert (Hget : forall o, 2 <= o < 24 ->
    get (data c') (pos + o) = default 0 (shm_cap_payload shmid bar offset len !! Z.to_nat (o - 2))).
  { intros o Ho. unfold get. f_equal.
    replace (Z.to_nat (pos + o)) with (Z.to_nat (pos + 2) + Z.to_nat (o - 2))%nat by lia.
    apply Hp. lia. }
  unfold decode_shm, build.
  rewrite !Hrd, !Hget by lia.
  change (take 4 (drop (Z.to_nat (8 - 2)) (shm_cap_payload shmid bar offset len)))
    with (le_bytes 4 (u32 offset)).
  change (take 4 (drop (Z.to_nat (16 - 2)) (shm_cap_payload shmid bar offset len)))
    with (le_bytes 4 (u32 (Z.shiftr offset 32))).
  change (take 4 (drop (Z.to_nat (12 - 2)) (shm_cap_payload shmid bar offset len)))
    with (le_bytes 4 (u32 len)).
  change (take 4 (drop (Z.to_nat (20 - 2)) (shm_cap_payload shmid bar offset len)))
    with (le_bytes 4 (u32 (Z.shiftr len 32))).
  by rewrite !rejoin_halves.
Qed.

Lemma shm_cap_roundtrip_witness :
  exists c' pos, add_virtio_shm_cap (new 0x1AF4 0x1050 1 0x030000 0x1AF4 16) 1 2 0 (8 * 2 ^ 30)
    = Some (c', pos) /\ decode_shm (build c') pos = (2, 1, 0, 8 * 2 ^ 30).
Proof.
  destruct (add_virtio_shm_cap (new 0x1AF4 0x1050 1 0x030000 0x1AF4 16) 1 2 0 (8 * 2 ^ 30))
    as [[c' pos]|] eqn:E; [|vm_compute in E; discriminate].
  exists c', pos. split; [reflexivity|].
  apply (shm_cap_roundtrip (new 0x1AF4 0x1050 1 0x030000 0x1AF4 16) []).
  - apply cap_inv_new.
  - unfold is_word. lia.
  - unfold is_word. lia.
  - exact E.
Defined.
