(* ===== verification/PciBus.v ===== *)
(** The PCI bus, [pci/src/lib.rs]: BAR allocation, configuration space through
    the CAM1 ports and through ECAM, BAR sizing and reassignment by the guest,
    MMIO dispatch and the doorbells handed to the kernel.

    Devices and the doorbell registrar are trait objects in the source; here
    they are the classes [PciDevice] and [IoeventRegistrar], over the state a
    device or registrar keeps behind its locks.  A byte buffer passed as
    [&mut [u8]] is a list in and a list out. *)

From S2P Require Import Prelude.

Abbreviation Bdf := (Z * Z * Z)%type.

Definition MMIO_WINDOW_START : Z := 0xC0000000.
Definition MMIO_WINDOW_END : Z := 0xE0000000.
Definition ECAM_BASE : Z := 0xE0000000.
Definition ECAM_SIZE : Z := 0x100000.
Definition ECAM_FUNCTION_SIZE : Z := 0x1000.

Record Mmio64Window := { start : Z; end_ : Z }.

Definition Mmio64Window_new (start size : Z) : Mmio64Window :=
  {| start := start; end_ := start ⊕ size |}.

Inductive BarType := Mem32 | Mem64.

#[export] Instance BarType_eq_dec : EqDecision BarType.
Proof. solve_decision. Defined.

Definition type_bits (t : BarType) : Z :=
  match t with Mem32 => 0x0 | Mem64 => Z.lor 0x4 0x8 end.

Definition is_64bit (t : BarType) : bool :=
  match t with Mem64 => true | Mem32 => false end.

Record Doorbell := { door_bar_idx : nat; door_offset : Z; door_fd : Z }.

(** * Interfaces *)

Class IoeventRegistrar (R : Type) := {
  register : R -> Z -> Z -> R * bool;
  unregister : R -> Z -> Z -> R * bool
}.

Class PciDevice (D : Type) := {
  read_config : D -> Z -> list Z -> D * list Z;
  write_config : D -> Z -> list Z -> D;
  read_bar : D -> nat -> Z -> list Z -> D * list Z * bool;
  write_bar : D -> nat -> Z -> list Z -> D * bool;
  bar_size : D -> nat -> Z;
  bar_type_of : D -> nat -> BarType;
  doorbells : D -> list Doorbell
}.

(** * State *)

Record Bar := {
  bar_idx : nat;
  addr : Z;
  size : Z;
  bar_type : BarType;
  probing_lo : bool;
  probing_hi : bool
}.

Definition set_addr (b : Bar) (a : Z) : Bar :=
  {| bar_idx := bar_idx b; addr := a; size := size b; bar_type := bar_type b;
     probing_lo := probing_lo b; probing_hi := probing_hi b |}.
Definition set_probing_lo (b : Bar) (p : bool) : Bar :=
  {| bar_idx := bar_idx b; addr := addr b; size := size b; bar_type := bar_type b;
     probing_lo := p; probing_hi := probing_hi b |}.
Definition set_probing_hi (b : Bar) (p : bool) : Bar :=
  {| bar_idx := bar_idx b; addr := addr b; size := size b; bar_type := bar_type b;
     probing_lo := probing_lo b; probing_hi := p |}.

Record RegisteredDoorbell := {
  rd_bdf : Bdf; rd_bar_idx : nat; rd_addr : Z; rd_fd : Z
}.

Abbreviation Region := (Z * Z * Bdf * nat)%type.

(** The ways [add_device_arc] bails. *)
Inductive AddError :=
  | BusFull
  | NotPowerOfTwo (bar_idx : nat) (size : Z)
  | WindowExhausted (bar_idx : nat) (size window_end : Z)
  | Bar5Is64Bit.

Section Bus.
Context {D R : Type} `{PciDevice D} `{IoeventRegistrar R}.

Record PciDeviceEntry := { device : D; bars : list Bar }.

Record Bus := {
  devices : gmap Bdf PciDeviceEntry;
  next_bdf : Bdf;
  config_addr : Z;
  mmio_regions : list Region;
  ioevents : option R;
  registered : list RegisteredDoorbell;
  mmio64 : Mmio64Window
}.

Definition set_devices (b : Bus) (d : gmap Bdf PciDeviceEntry) : Bus :=
  {| devices := d; next_bdf := next_bdf b; config_addr := config_addr b;
     mmio_regions := mmio_regions b; ioevents := ioevents b;
     registered := registered b; mmio64 := mmio64 b |}.
Definition set_next_bdf (b : Bus) (n : Bdf) : Bus :=
  {| devices := devices b; next_bdf := n; config_addr := config_addr b;
     mmio_regions := mmio_regions b; ioevents := ioevents b;
     registered := registered b; mmio64 := mmio64 b |}.
Definition set_config_addr (b : Bus) (a : Z) : Bus :=
  {| devices := devices b; next_bdf := next_bdf b; config_addr := a;
     mmio_regions := mmio_regions b; ioevents := ioevents b;
     registered := registered b; mmio64 := mmio64 b |}.
Definition set_mmio_regions (b : Bus) (r : list Region) : Bus :=
  {| devices := devices b; next_bdf := next_bdf b; config_addr := config_addr b;
     mmio_regions := r; ioevents := ioevents b;
     registered := registered b; mmio64 := mmio64 b |}.
Definition set_doorbells (b : Bus) (io : option R) (r : list RegisteredDoorbell) : Bus :=
  {| devices := devices b; next_bdf := next_bdf b; config_addr := config_addr b;
     mmio_regions := mmio_regions b; ioevents := io;
     registered := r; mmio64 := mmio64 b |}.

Definition Bus_new (w : Mmio64Window) : Bus :=
  {| devices := ∅; next_bdf := (0, 1, 0); config_addr := 0; mmio_regions := [];
     ioevents := None; registered := []; mmio64 := w |}.

Definition set_ioevent_registrar (b : Bus) (r : R) : Bus :=
  set_doorbells b (Some r) (registered b).

(** * Doorbells *)

Fixpoint register_each (bdf : Bdf) (bars : list (nat * Z)) (doors : list Doorbell)
    (reg : R) (acc : list RegisteredDoorbell) : R * list RegisteredDoorbell :=
  match doors with
  | [] => (reg, acc)
  | door :: doors =>
      match list_find (fun b => b.1 = door_bar_idx door) bars with
      | None => register_each bdf bars doors reg acc
      | Some (_, (_, base)) =>
          let addr := base ⊕ door_offset door in
          let '(reg, ok) := register reg addr (door_fd door) in
          let acc :=
            if ok : bool then
              acc ++ [{| rd_bdf := bdf; rd_bar_idx := door_bar_idx door; rd_addr := addr;
                         rd_fd := door_fd door |}]
            else acc in
          register_each bdf bars doors reg acc
      end
  end.

Definition register_doorbells (b : Bus) (bdf : Bdf) (dev : D) (bars : list (nat * Z)) : Bus :=
  match doorbells dev with
  | [] => b
  | doors =>
      match ioevents b with
      | None => b
      | Some reg =>
          let '(reg, acc) := register_each bdf bars doors reg (registered b) in
          set_doorbells b (Some reg) acc
      end
  end.

Fixpoint move_each (bdf : Bdf) (bar_idx : nat) (old_base new_base : Z)
    (entries : list RegisteredDoorbell) (reg : R) : R * list RegisteredDoorbell :=
  match entries with
  | [] => (reg, [])
  | e :: rest =>
      if negb (bool_decide (rd_bdf e = bdf)) || negb (Nat.eqb (rd_bar_idx e) bar_idx) then
        let '(reg, rest) := move_each bdf bar_idx old_base new_base rest reg in
        (reg, e :: rest)
      else
        let offset := saturating_sub (rd_addr e) old_base in
        let addr := new_base ⊕ offset in
        if addr =? rd_addr e then
          let '(reg, rest) := move_each bdf bar_idx old_base new_base rest reg in
          (reg, e :: rest)
        else
          let '(reg, _) := unregister reg (rd_addr e) (rd_fd e) in
          let '(reg, ok) := register reg addr (rd_fd e) in
          let e' :=
            if ok : bool then
              {| rd_bdf := rd_bdf e; rd_bar_idx := rd_bar_idx e; rd_addr := addr;
                 rd_fd := rd_fd e |}
            else e in
          let '(reg, rest) := move_each bdf bar_idx old_base new_base rest reg in
          (reg, e' :: rest)
  end.

Definition move_doorbells_from (b : Bus) (bdf : Bdf) (bar_idx : nat) (old_base new_base : Z)
    : Bus :=
  match ioevents b with
  | None => b
  | Some reg =>
      let '(reg, acc) := move_each bdf bar_idx old_base new_base (registered b) reg in
      set_doorbells b (Some reg) acc
  end.

(** * Adding a device *)

Definition top_of (regions : list Region) (window_start window_end : Z) : Z :=
  let tops :=
    (fun r : Region => r.1.1.1 ⊕ r.1.1.2) <$>
      filter (fun r : Region => in_range window_start window_end r.1.1.1 = true) regions in
  match tops with
  | [] => window_start
  | t :: ts => foldr Z.max t ts
  end.

(** The loop over the six BAR registers.  [remaining] counts the registers not yet
    looked at, so [bar_idx] is [6 - remaining]; a 64-bit BAR takes two. *)
Fixpoint assign_bars (dev : D) (w : Mmio64Window) (remaining : nat) (next32 next64 : Z)
    (acc : list Bar) : AddError + list Bar :=
  match remaining with
  | O => inr acc
  | S remaining =>
      let idx := (5 - remaining)%nat in
      let size := bar_size dev idx in
      if size =? 0 then assign_bars dev w remaining next32 next64 acc
      else if negb (is_power_of_two size) then inl (NotPowerOfTwo idx size)
      else
        let t := bar_type_of dev idx in
        let '(next_addr, window_end) :=
          match t with
          | Mem32 => (next32, MMIO_WINDOW_END)
          | Mem64 => (next64, end_ w)
          end in
        let aligned := Z.land (u64 (next_addr + size - 1)) (lnotw 64 (size - 1)) in
        if window_end <? aligned ⊕ size then inl (WindowExhausted idx size window_end)
        else
          let bar := {| bar_idx := idx; addr := aligned; size := size; bar_type := t;
                        probing_lo := false; probing_hi := false |} in
          match t with
          | Mem32 => assign_bars dev w remaining (aligned ⊕ size) next64 (acc ++ [bar])
          | Mem64 =>
              match remaining with
              | O => inl Bar5Is64Bit
              | S remaining => assign_bars dev w remaining next32 (aligned ⊕ size) (acc ++ [bar])
              end
          end
  end.

Definition add_device_arc (b : Bus) (dev : D) : AddError + (Bus * Bdf) :=
  let '(bus, dv, func) := next_bdf b in
  if (0 <? bus) || (31 <? dv) then inl BusFull
  else
    let hwm32 := top_of (mmio_regions b) MMIO_WINDOW_START MMIO_WINDOW_END in
    let hwm64 := top_of (mmio_regions b) (start (mmio64 b)) (end_ (mmio64 b)) in
    let next32 := Z.max hwm32 MMIO_WINDOW_START in
    let next64 := Z.max hwm64 (start (mmio64 b)) in
    match assign_bars dev (mmio64 b) 6 next32 next64 [] with
    | inl e => inl e
    | inr bs =>
        let bdf := (bus, dv, func) in
        let b := set_devices b (<[bdf := {| device := dev; bars := bs |}]> (devices b)) in
        let b := set_next_bdf b (if dv <? 31 then (bus, dv + 1, 0) else (bus + 1, 0, 0)) in
        let b := set_mmio_regions b
                   (mmio_regions b ++ ((fun x => (addr x, size x, bdf, bar_idx x)) <$> bs)) in
        let b := register_doorbells b bdf dev ((fun x => (bar_idx x, addr x)) <$> bs) in
        inr (b, bdf)
    end.

Definition bar_address (b : Bus) (bdf : Bdf) (idx : nat) : option Z :=
  entry ← devices b !! bdf;
  (fun p => addr p.2) <$> list_find (fun x => bar_idx x = idx) (bars entry).

(** * Configuration space *)

Definition host_bridge : list Z :=
  let cfg := replicate 64 0 in
  let cfg := splice cfg 0x00 (le_bytes 2 0x8086) in
  let cfg := splice cfg 0x02 (le_bytes 2 0x1237) in
  let cfg := splice cfg 0x04 (le_bytes 2 0x0006) in
  let cfg := splice cfg 0x06 (le_bytes 2 0x0000) in
  let cfg := splice cfg 0x08 [0x02] in
  let cfg := splice cfg 0x09 [0x00] in
  let cfg := splice cfg 0x0a [0x00] in
  let cfg := splice cfg 0x0b [0x06] in
  splice cfg 0x0e [0x00].

Definition bar_slot_for_offset (offset : Z) : option nat :=
  if (0x10 <=? offset) && (offset <=? 0x27) then Some (Z.to_nat ((offset - 0x10) / 4))
  else None.

(** The index in [bars] of the BAR owning register [slot], and whether [slot]
    is its high half. *)
Definition find_bar (bs : list Bar) (slot : nat) : option (nat * bool) :=
  match list_find (fun b => bar_idx b = slot) bs with
  | Some (i, _) => Some (i, false)
  | None =>
      match list_find (fun b => is_64bit (bar_type b) = true /\ S (bar_idx b) = slot) bs with
      | Some (i, _) => Some (i, true)
      | None => None
      end
  end.

(** The value a read of one half of a BAR returns, and the BAR afterwards. *)
Definition bar_read_value (bar : Bar) (is_high : bool) : Bar * Z :=
  let mask := lnotw 64 (size bar - 1) in
  if is_high then
    if probing_hi bar then (set_probing_hi bar false, u32 (Z.shiftr mask 32))
    else (bar, u32 (Z.shiftr (addr bar) 32))
  else if probing_lo bar then (set_probing_lo bar false, Z.land (u32 mask) (lnotw 32 0xF))
  else (bar, Z.lor (u32 (addr bar)) (type_bits (bar_type bar))).

Definition config_read (b : Bus) (bdf : Bdf) (offset : Z) (data : list Z)
    : Bus * list Z * bool :=
  if bool_decide (bdf = (0, 0, 0)) then
    (b, read_window host_bridge (Z.to_nat offset) (length data) 0, true)
  else
    match devices b !! bdf with
    | None => (b, data, false)
    | Some entry =>
        match bar_slot_for_offset offset with
        | Some slot =>
            match find_bar (bars entry) slot with
            | Some (i, is_high) =>
                match bars entry !! i with
                | Some bar =>
                    let '(bar', val) := bar_read_value bar is_high in
                    let entry' := {| device := device entry; bars := <[i := bar']> (bars entry) |} in
                    (set_devices b (<[bdf := entry']> (devices b)),
                     read_window (le_bytes 4 val) (Z.to_nat (Z.land offset 3)) (length data) 0,
                     true)
                | None => (b, data, false)
                end
            | None => (b, replicate (length data) 0, true)
            end
        | None =>
            let '(dev', data') := read_config (device entry) offset data in
            (set_devices b (<[bdf := {| device := dev'; bars := bars entry |}]> (devices b)),
             data', true)
        end
    end.

Definition window_of (w : Mmio64Window) (t : BarType) : Z * Z :=
  match t with
  | Mem32 => (MMIO_WINDOW_START, MMIO_WINDOW_END)
  | Mem64 => (start w, end_ w)
  end.

(** What a DWORD write to one half of a BAR does to it: nothing, arm a sizing
    read, or move it. *)
Inductive BarWrite :=
  | BarIgnored
  | BarProbe (bar : Bar)
  | BarMoved (bar : Bar) (moved_from moved_to : Z).

Definition requested_addr (bar : Bar) (is_high : bool) (raw : Z) : Z :=
  Z.land
    (if is_high then Z.lor (Z.land (addr bar) 0xFFFFFFFF) (u64 (Z.shiftl raw 32))
     else Z.lor (Z.land (addr bar) (lnotw 64 0xFFFFFFFF)) (Z.land raw (lnotw 64 0xF)))
    (lnotw 64 (size bar - 1)).

Definition bar_write (w : Mmio64Window) (bar : Bar) (is_high : bool) (data : list Z) : BarWrite :=
  if (length data <? 4)%nat then BarIgnored
  else
    let raw := of_le (take 4 data) in
    if raw =? 0xFFFFFFFF then
      BarProbe (if is_high then set_probing_hi bar true else set_probing_lo bar true)
    else
      let requested := requested_addr bar is_high raw in
      let '(lo, hi) := window_of w (bar_type bar) in
      if negb (in_range lo hi requested) then BarIgnored
      else if requested =? addr bar then BarIgnored
      else BarMoved (set_addr bar requested) (addr bar) requested.

Definition update_regions (regions : list Region) (bdf : Bdf) (slot : nat) (moved_to : Z)
    : list Region :=
  (fun r : Region =>
     let '(base, size, rbdf, rslot) := r in
     if bool_decide (rbdf = bdf) && Nat.eqb rslot slot then (moved_to, size, rbdf, rslot)
     else r) <$> regions.

Definition config_write (b : Bus) (bdf : Bdf) (offset : Z) (data : list Z) : Bus :=
  match bar_slot_for_offset offset with
  | Some slot =>
      match devices b !! bdf with
      | None => b
      | Some entry =>
          match find_bar (bars entry) slot with
          | None => b
          | Some (i, is_high) =>
              match bars entry !! i with
              | None => b
              | Some bar =>
                  let put bar' :=
                    set_devices b
                      (<[bdf := {| device := device entry; bars := <[i := bar']> (bars entry) |}]>
                         (devices b)) in
                  match bar_write (mmio64 b) bar is_high data with
                  | BarIgnored => b
                  | BarProbe bar' => put bar'
                  | BarMoved bar' from to_ =>
                      let b := put bar' in
                      let b := set_mmio_regions b
                                 (update_regions (mmio_regions b) bdf (bar_idx bar) to_) in
                      move_doorbells_from b bdf (bar_idx bar) from to_
                  end
              end
          end
      end
  | None =>
      match devices b !! bdf with
      | Some entry =>
          set_devices b
            (<[bdf := {| device := write_config (device entry) offset data;
                         bars := bars entry |}]> (devices b))
      | None => b
      end
  end.

(** * CAM1 ports *)

Definition cam_bdf (a : Z) : Bdf :=
  (u8 (Z.land (Z.shiftr a 16) 0xFF), u8 (Z.land (Z.shiftr a 11) 0x1F),
   u8 (Z.land (Z.shiftr a 8) 0x07)).

Definition handle_pio_write (b : Bus) (port : Z) (data : list Z) : Bus * bool :=
  if in_range 0xCF8 0xCFC port then
    if (length data =? 4)%nat then (set_config_addr b (of_le data), true) else (b, true)
  else if in_range 0xCFC 0xD00 port then
    let a := config_addr b in
    if Z.land a 0x80000000 =? 0 then (b, true)
    else
      let reg := u32 (Z.land a 0xFC + (port - 0xCFC)) in
      (config_write b (cam_bdf a) reg data, true)
  else (b, false).

Definition handle_pio_read (b : Bus) (port : Z) (data : list Z) : Bus * list Z * bool :=
  if in_range 0xCF8 0xCFC port then
    (b, read_window (le_bytes 4 (config_addr b)) (Z.to_nat (port - 0xCF8)) (length data) 0, true)
  else if in_range 0xCFC 0xD00 port then
    let a := config_addr b in
    if Z.land a 0x80000000 =? 0 then (b, replicate (length data) 0xFF, true)
    else
      let reg := u32 (Z.land a 0xFC + (port - 0xCFC)) in
      let '(b, out, found) := config_read b (cam_bdf a) reg data in
      if found : bool then (b, out, true) else (b, replicate (length data) 0xFF, true)
  else (b, data, false).

(** * MMIO *)

Definition ecam_decode (a : Z) : Bdf * Z :=
  let off := a ⊖ ECAM_BASE in
  ((u8 (Z.land (Z.shiftr off 20) 0xff), u8 (Z.land (Z.shiftr off 15) 0x1f),
    u8 (Z.land (Z.shiftr off 12) 0x07)),
   u32 (off mod ECAM_FUNCTION_SIZE)).

Definition in_ecam (a : Z) : bool := in_range ECAM_BASE (ECAM_BASE + ECAM_SIZE) a.

(** The first region holding [a] whose device is still present. *)
Fixpoint mmio_find (devs : gmap Bdf PciDeviceEntry) (a : Z) (rs : list Region)
    : option (PciDeviceEntry * Bdf * nat * Z) :=
  match rs with
  | [] => None
  | (base, size, bdf, idx) :: rs =>
      if (base <=? a) && (a <? base ⊕ size) then
        match devs !! bdf with
        | Some entry => Some (entry, bdf, idx, a ⊖ base)
        | None => mmio_find devs a rs
        end
      else mmio_find devs a rs
  end.

Definition mmio_target (b : Bus) (a : Z) : option (PciDeviceEntry * Bdf * nat * Z) :=
  mmio_find (devices b) a (mmio_regions b).

Definition handle_mmio_write (b : Bus) (a : Z) (data : list Z) : Bus * bool :=
  if in_ecam a then
    let '(bdf, reg) := ecam_decode a in
    if reg <? 0x100 then (config_write b bdf reg data, true) else (b, true)
  else
    match mmio_target b a with
    | Some (entry, bdf, idx, off) =>
        let '(dev', ok) := write_bar (device entry) idx off data in
        (set_devices b (<[bdf := {| device := dev'; bars := bars entry |}]> (devices b)), ok)
    | None => (b, false)
    end.

Definition handle_mmio_read (b : Bus) (a : Z) (data : list Z) : Bus * list Z * bool :=
  if in_ecam a then
    let '(bdf, reg) := ecam_decode a in
    if 0x100 <=? reg then (b, replicate (length data) 0, true)
    else
      let '(b, out, found) := config_read b bdf reg data in
      if found : bool then (b, out, true) else (b, replicate (length data) 0xFF, true)
  else
    match mmio_target b a with
    | Some (entry, bdf, idx, off) =>
        let '(dev', out, ok) := read_bar (device entry) idx off data in
        (set_devices b (<[bdf := {| device := dev'; bars := bars entry |}]> (devices b)), out, ok)
    | None => (b, data, false)
    end.

End Bus.

Arguments PciDeviceEntry : clear implicits.
Arguments Bus : clear implicits.
