(* ===== verification/PciBusFacts.v ===== *)
(** Correctness of the PCI bus of [PciBus]: BAR placement, the invariant that
    ties the MMIO dispatch table to the devices' BARs under every guest access,
    BAR sizing and moving, and the agreement of the two configuration
    mechanisms. *)

From S2P Require Import Prelude PciBus.

(** * Placement arithmetic *)

(** The allocator's rounding is the least multiple of the size at or above. *)
Lemma align_up next k :
  0 <= k <= 62 -> 0 <= next <= 2 ^ 63 ->
  let a := Z.land (u64 (next + 2 ^ k - 1)) (lnotw 64 (2 ^ k - 1)) in
  next <= a < next + 2 ^ k /\ a mod 2 ^ k = 0.
Proof.
  intros Hk Hn a. pose proof (Z.pow_pos_nonneg 2 k). pose proof (Z.pow_le_mono_r 2 k 62).
  unfold a. rewrite wrap_small by (unfold is_word; lia).
  rewrite land_align_down by (unfold is_word; lia).
  pose proof (Z.mod_pos_bound (next + 2 ^ k - 1) (2 ^ k)). split; [lia|].
  rewrite Zminus_mod_idemp_r, Z.sub_diag. done.
Qed.

(** A naturally aligned block that starts below a multiple of its size ends
    at or below it. *)
Lemma aligned_below a s e :
  0 < s -> a mod s = 0 -> e mod s = 0 -> a < e -> a + s <= e.
Proof.
  intros Hs Ha He Hlt.
  pose proof (Z.div_mod a s). pose proof (Z.div_mod e s).
  assert (a / s < e / s) by nia. nia.
Qed.

Lemma pow2_divides j k : 0 <= j <= k -> 2 ^ k mod 2 ^ j = 0.
Proof.
  intros. replace k with (k - j + j) by lia. rewrite Z.pow_add_r by lia. apply Z_mod_mult.
Qed.

(** * The invariant *)

(** What the layout guarantees of the 64-bit window: above 4 GiB, and ending
    at a power of two no larger than [2^63]. *)
Definition window_ok (w : Mmio64Window) : Prop :=
  0x100000000 <= start w < end_ w /\ exists k, 0 <= k <= 63 /\ end_ w = 2 ^ k.

Definition bar_ok (w : Mmio64Window) (b : Bar) : Prop :=
  (exists k, 0 <= k <= 62 /\ size b = 2 ^ k) /\ addr b mod size b = 0 /\
  fst (window_of w (bar_type b)) <= addr b /\
  addr b + size b <= snd (window_of w (bar_type b)).

(** Registers a BAR occupies. *)
Definition slots (b : Bar) : list nat :=
  if is_64bit (bar_type b) then [bar_idx b; S (bar_idx b)] else [bar_idx b].

Definition slots_ok (bs : list Bar) : Prop :=
  NoDup (bs ≫= slots) /\ Forall (fun i => (i < 6)%nat) (bs ≫= slots).

Definition bdf_issued (next bdf : Bdf) : Prop :=
  exists d, bdf = (0, d, 0) /\ 1 <= d <= 31 /\ (next = (1, 0, 0) \/ exists n, next = (0, n, 0) /\ d < n).

Section Facts.
Context {D R : Type} {HD : PciDevice D} {HR : IoeventRegistrar R}.

Implicit Types (b : Bus D R) (e : PciDeviceEntry D).

Record bus_wf (b : Bus D R) : Prop := {
  wf_window : window_ok (mmio64 b);
  wf_bars : forall bdf e, devices b !! bdf = Some e ->
    Forall (bar_ok (mmio64 b)) (bars e) /\ slots_ok (bars e);
  wf_regions : forall a s bdf i, (a, s, bdf, i) ∈ mmio_regions b <->
    exists e x, devices b !! bdf = Some e /\ x ∈ bars e /\
      a = addr x /\ s = size x /\ i = bar_idx x;
  wf_next : next_bdf b = (1, 0, 0) \/ exists n, next_bdf b = (0, n, 0) /\ 1 <= n <= 31;
  wf_issued : forall bdf e, devices b !! bdf = Some e -> bdf_issued (next_bdf b) bdf
}.

(** ** What [assign_bars] places *)

(** [placed w idx n32 n64 l]: the BARs of [l] use registers from [idx] on, each
    window is filled upwards from its cursor, and every BAR fits its window. *)
Fixpoint placed (w : Mmio64Window) (idx : nat) (n32 n64 : Z) (l : list Bar) : Prop :=
  match l with
  | [] => True
  | x :: l =>
      (idx <= bar_idx x)%nat /\ (exists k, 0 <= k <= 62 /\ size x = 2 ^ k) /\
      addr x mod size x = 0 /\
      match bar_type x with
      | Mem32 => (bar_idx x <= 5)%nat /\ n32 <= addr x /\ addr x + size x <= MMIO_WINDOW_END /\
                 placed w (S (bar_idx x)) (addr x + size x) n64 l
      | Mem64 => (bar_idx x <= 4)%nat /\ n64 <= addr x /\ addr x + size x <= end_ w /\
                 placed w (S (S (bar_idx x))) n32 (addr x + size x) l
      end
  end.

Lemma placed_weaken w i j n32 n64 l : (i <= j)%nat -> placed w j n32 n64 l -> placed w i n32 n64 l.
Proof. destruct l; simpl; [done|]. intros Hij (? & ?). split; [lia|done]. Qed.

(** A BAR no larger than [2^62] is what keeps [aligned + size] from wrapping. *)
Definition sizes_ok (dev : D) : Prop := forall i, 0 <= bar_size dev i <= 2 ^ 62.

Lemma assign_bars_placed dev w remaining n32 n64 acc bs :
  sizes_ok dev -> window_ok w -> (remaining <= 6)%nat ->
  0 <= n32 <= MMIO_WINDOW_END -> 0 <= n64 <= end_ w ->
  assign_bars dev w remaining n32 n64 acc = inr bs ->
  exists new, bs = acc ++ new /\ placed w (6 - remaining) n32 n64 new.
Proof.
  intros Hs Hw. revert n32 n64 acc.
  induction remaining as [remaining IH] using lt_wf_ind; intros n32 n64 acc Hr H32 H64 Ha.
  destruct Hw as [Hw1 (wk & Hwk & Hwe)].
  pose proof (Z.pow_le_mono_r 2 wk 63 ltac:(lia) ltac:(lia)) as Hw63.
  destruct remaining as [|rem]; cbn [assign_bars] in Ha.
  { injection Ha as <-. exists []. by rewrite app_nil_r. }
  destruct (bar_size dev (5 - rem) =? 0) eqn:E0; bool_prop.
  { apply IH in Ha as (new & -> & Hp); [|lia..]. exists new. split; [done|].
    eapply placed_weaken; [|exact Hp]. lia. }
  destruct (is_power_of_two (bar_size dev (5 - rem))) eqn:Ep; simpl in Ha; [|done].
  apply is_power_of_two_spec in Ep as (k & Hk & Esz).
  pose proof (Hs (5 - rem)%nat) as Hsz.
  assert (Hk62 : k <= 62).
  { apply (Z.pow_le_mono_r_iff 2); lia. }
  rewrite Esz in *.
  destruct (bar_type_of dev (5 - rem)) eqn:Et.
  - destruct (align_up n32 k ltac:(lia) ltac:(unfold MMIO_WINDOW_END in *; lia)) as [Hal Hmod].
    set (al := Z.land _ _) in *.
    rewrite (wrap_small 64 (al + 2 ^ k)) in Ha by (unfold is_word, MMIO_WINDOW_END in *; lia).
    destruct (MMIO_WINDOW_END <? al + 2 ^ k) eqn:Ew; bool_prop; [done|].
    apply IH in Ha as (new & -> & Hp); [|lia..].
    eexists. rewrite <- app_assoc. split; [done|]. cbn -[Nat.sub].
    repeat split; [lia|exists k; lia|done|lia..|].
    eapply placed_weaken; [|exact Hp]. lia.
  - destruct (align_up n64 k ltac:(lia) ltac:(lia)) as [Hal Hmod].
    set (al := Z.land _ _) in *.
    rewrite (wrap_small 64 (al + 2 ^ k)) in Ha by (unfold is_word; lia).
    destruct (end_ w <? al + 2 ^ k) eqn:Ew; bool_prop; [done|].
    destruct rem as [|rem]; [done|].
    apply IH in Ha as (new & -> & Hp); [|lia..].
    eexists. rewrite <- app_assoc. split; [done|]. cbn -[Nat.sub].
    repeat split; [lia|exists k; lia|done|lia..|].
    eapply placed_weaken; [|exact Hp]. lia.
Qed.

Lemma assign_bars_sizes dev w rem n32 n64 acc bs :
  assign_bars dev w rem n32 n64 acc = inr bs ->
  Forall (fun x => size x = bar_size dev (bar_idx x)) acc ->
  Forall (fun x => size x = bar_size dev (bar_idx x)) bs.
Proof.
  revert n32 n64 acc. induction rem as [rem IH] using lt_wf_ind; intros n32 n64 acc Ha Hacc.
  destruct rem as [|rem]; cbn [assign_bars] in Ha; [by injection Ha as <-|].
  destruct (bar_size dev (5 - rem) =? 0); [by eapply IH in Ha; [|lia|]|].
  destruct (negb (is_power_of_two (bar_size dev (5 - rem)))); [done|].
  destruct (bar_type_of dev (5 - rem)); (case_match; [done|]).
  - eapply IH in Ha; [done|lia|]. by apply Forall_app_2, Forall_singleton.
  - destruct rem as [|rem]; [done|]. eapply IH in Ha; [done|lia|].
    by apply Forall_app_2, Forall_singleton.
Qed.

Lemma placed_above w idx n32 n64 l x :
  placed w idx n32 n64 l -> x ∈ l ->
  match bar_type x with Mem32 => n32 <= addr x | Mem64 => n64 <= addr x end.
Proof.
  revert idx n32 n64; induction l as [|y l IH]; intros idx n32 n64 Hp Hx; [by apply not_elem_of_nil in Hx|].
  destruct Hp as (_ & (k & Hk & Es) & _ & Hp). pose proof (Z.pow_pos_nonneg 2 k).
  apply elem_of_cons in Hx as [->|Hx].
  - destruct (bar_type y); tauto.
  - destruct (bar_type y); destruct Hp as (_ & ? & _ & Hp); apply IH in Hp; auto;
      destruct (bar_type x); lia.
Qed.

Lemma placed_bar_ok w idx n32 n64 l :
  MMIO_WINDOW_START <= n32 -> start w <= n64 -> placed w idx n32 n64 l -> Forall (bar_ok w) l.
Proof.
  revert idx n32 n64; induction l as [|y l IH]; intros idx n32 n64 H32 H64 Hp; [constructor|].
  destruct Hp as (_ & (k & Hk & Es) & Hm & Hp). pose proof (Z.pow_pos_nonneg 2 k).
  constructor.
  - unfold bar_ok, window_of. repeat split; [by exists k|done|..]; destruct (bar_type y); simpl; lia.
  - destruct (bar_type y); destruct Hp as (_ & ? & ? & Hp); apply IH in Hp; auto; lia.
Qed.

Lemma placed_slots w idx n32 n64 l :
  placed w idx n32 n64 l ->
  NoDup (l ≫= slots) /\ Forall (fun i => (idx <= i < 6)%nat) (l ≫= slots).
Proof.
  revert idx n32 n64; induction l as [|y l IH]; intros idx n32 n64 Hp;
    [split; constructor|].
  destruct Hp as (Hi & _ & _ & Hp). cbn [mbind list_bind]. unfold slots at 1 3.
  destruct (bar_type y); destruct Hp as (H5 & _ & _ & Hp); apply IH in Hp as [Hn Hf];
    rewrite Forall_forall in Hf; cbn [is_64bit app].
  - split; constructor; [by intros ?%Hf; lia|done|lia|].
    apply Forall_forall. intros z ?%Hf. lia.
  - split; constructor.
    + rewrite elem_of_cons. intros [|?%Hf]; lia.
    + constructor; [by intros ?%Hf; lia|done].
    + lia.
    + constructor; [lia|]. apply Forall_forall. intros z ?%Hf. lia.
Qed.

Definition bars_disjoint (x y : Bar) : Prop :=
  addr x + size x <= addr y \/ addr y + size y <= addr x.

Lemma bar_ok_types_disjoint w x y :
  window_ok w -> bar_ok w x -> bar_ok w y -> bar_type x <> bar_type y -> bars_disjoint x y.
Proof.
  intros [? _] (_ & _ & Hx1 & Hx2) (_ & _ & Hy1 & Hy2) Hne. unfold bars_disjoint.
  unfold window_of, MMIO_WINDOW_START, MMIO_WINDOW_END in *.
  destruct (bar_type x), (bar_type y); simpl in *; try done; lia.
Qed.

Lemma placed_disjoint w idx n32 n64 l i j x y :
  window_ok w -> MMIO_WINDOW_START <= n32 -> start w <= n64 -> placed w idx n32 n64 l ->
  (i < j)%nat -> l !! i = Some x -> l !! j = Some y -> bars_disjoint x y.
Proof.
  intros Hw. revert idx n32 n64 i j.
  induction l as [|z l IH]; intros idx n32 n64 i j H32 H64 Hp Hij Hi Hj; [done|].
  pose proof (placed_bar_ok _ _ _ _ _ H32 H64 Hp) as Hok.
  destruct j as [|j]; [lia|]. simpl in Hj.
  destruct Hp as (_ & (k & Hk & Es) & _ & Hp). pose proof (Z.pow_pos_nonneg 2 k).
  destruct i as [|i]; simpl in Hi.
  - injection Hi as ->.
    destruct (decide (bar_type x = bar_type y)) as [Ht|Hne].
    + left. apply list_elem_of_lookup_2 in Hj.
      destruct (bar_type x) eqn:Ex; destruct Hp as (_ & _ & _ & Hp);
        eapply placed_above in Hp; eauto; rewrite <- Ht in Hp; done.
    + rewrite Forall_cons in Hok. destruct Hok as [Hx Hl].
      eapply bar_ok_types_disjoint; eauto.
      rewrite Forall_forall in Hl. apply Hl. by apply list_elem_of_lookup_2 in Hj.
  - destruct (bar_type z); destruct Hp as (_ & ? & ? & Hp);
      (eapply IH; [..|exact Hp| |exact Hi|exact Hj]; lia).
Qed.

(** ** The high-water mark *)

Lemma foldr_max_ge (t : Z) (ts : list Z) : forall x, x ∈ t :: ts -> x <= foldr Z.max t ts.
Proof.
  induction ts as [|u ts IH]; intros x Hx; simpl.
  - apply list_elem_of_singleton in Hx as ->. lia.
  - apply elem_of_cons in Hx as [->|Hx]; [specialize (IH t ltac:(set_solver)); lia|].
    apply elem_of_cons in Hx as [->|Hx]; [lia|].
    specialize (IH x ltac:(set_solver)). lia.
Qed.

Lemma foldr_max_in (t : Z) (ts : list Z) : foldr Z.max t ts ∈ t :: ts.
Proof.
  induction ts as [|u ts IH]; simpl; [set_solver|].
  destruct (Z.max_spec u (foldr Z.max t ts)) as [[_ ->]|[_ ->]]; set_solver.
Qed.

Lemma top_of_spec (rs : list Region) lo hi :
  lo <= hi ->
  (forall a s bdf i, (a, s, bdf, i) ∈ rs -> lo <= a < hi -> 0 <= s /\ a + s <= hi) ->
  0 <= lo -> hi < 2 ^ 64 ->
  lo <= top_of rs lo hi <= hi /\
  (forall a s bdf i, (a, s, bdf, i) ∈ rs -> lo <= a < hi -> a + s <= top_of rs lo hi).
Proof.
  intros Hlh Hrs H0 H64. unfold top_of.
  set (f := fun r : Region => r.1.1.1 ⊕ r.1.1.2).
  set (l := filter _ rs).
  assert (Hl : forall a s bdf i, (a, s, bdf, i) ∈ rs -> lo <= a < hi -> a + s ∈ f <$> l).
  { intros a s bdf i Hin Ha. apply list_elem_of_fmap. exists (a, s, bdf, i). unfold f. simpl.
    destruct (Hrs _ _ _ _ Hin Ha). rewrite wrap_small by (unfold is_word; lia).
    split; [done|]. apply list_elem_of_filter. simpl. by rewrite in_range_spec. }
  assert (Hf : forall t, t ∈ f <$> l -> lo <= t <= hi).
  { intros t (r & -> & Hr)%list_elem_of_fmap. destruct r as [[[a s] bdf] i].
    apply list_elem_of_filter in Hr as [Ha%in_range_spec Hr]. simpl in *.
    destruct (Hrs _ _ _ _ Hr Ha). unfold f. simpl. rewrite wrap_small by (unfold is_word; lia). lia. }
  destruct (f <$> l) as [|t ts] eqn:El.
  - split; [lia|]. intros a s bdf i Hin Ha. specialize (Hl _ _ _ _ Hin Ha). by apply not_elem_of_nil in Hl.
  - split; [apply Hf, foldr_max_in|]. intros a s bdf i Hin Ha. apply foldr_max_ge. eauto.
Qed.

(** ** Frames *)

Definition same_core b b' : Prop :=
  devices b' = devices b /\ next_bdf b' = next_bdf b /\
  mmio_regions b' = mmio_regions b /\ mmio64 b' = mmio64 b.

Lemma wf_same_core b b' : same_core b b' -> bus_wf b -> bus_wf b'.
Proof.
  intros (Ed & En & Er & Ew) [? ? ? ? ?]. split; rewrite ?Ed, ?En, ?Er, ?Ew; auto.
Qed.

Lemma register_doorbells_core b bdf dev bs : same_core b (register_doorbells b bdf dev bs).
Proof.
  unfold register_doorbells. destruct (doorbells dev); [done|].
  destruct (ioevents b); [|done]. by destruct (register_each _ _ _ _ _).
Qed.

Lemma move_doorbells_core b bdf i old new : same_core b (move_doorbells_from b bdf i old new).
Proof.
  unfold move_doorbells_from. destruct (ioevents b); [|done]. by destruct (move_each _ _ _ _ _ _).
Qed.

(** Every region is some device's BAR, placed in the window of its type. *)
Lemma wf_region_bar b a s bdf i :
  bus_wf b -> (a, s, bdf, i) ∈ mmio_regions b ->
  exists x, bar_ok (mmio64 b) x /\ a = addr x /\ s = size x /\ i = bar_idx x.
Proof.
  intros Hwf (e & x & He & Hx & -> & -> & ->)%(wf_regions b Hwf).
  exists x. destruct (wf_bars b Hwf _ _ He) as [Hf _].
  rewrite Forall_forall in Hf. auto.
Qed.

Lemma window_ok_lt w : window_ok w -> end_ w < 2 ^ 64.
Proof.
  intros (_ & k & Hk & ->). apply Z.pow_lt_mono_r; lia.
Qed.

Lemma wf_tops b t :
  bus_wf b ->
  let '(lo, hi) := window_of (mmio64 b) t in
  lo <= top_of (mmio_regions b) lo hi <= hi /\
  forall x bdf, bar_ok (mmio64 b) x -> bar_type x = t ->
    (addr x, size x, bdf, bar_idx x) ∈ mmio_regions b ->
    addr x + size x <= top_of (mmio_regions b) lo hi.
Proof.
  intros Hwf. pose proof (wf_window b Hwf) as Hw. pose proof (window_ok_lt _ Hw).
  destruct Hw as [Hw _].
  destruct (window_of (mmio64 b) t) as [lo hi] eqn:Ewin.
  destruct (top_of_spec (mmio_regions b) lo hi) as [Hb Ht].
  - destruct t; injection Ewin as <- <-; unfold MMIO_WINDOW_START, MMIO_WINDOW_END; lia.
  - intros a s bdf i Hin Ha.
    destruct (wf_region_bar _ _ _ _ _ Hwf Hin) as (x & ((k & Hk & Es) & _ & Hx1 & Hx2) & -> & -> & _).
    pose proof (Z.pow_pos_nonneg 2 k).
    unfold window_of, MMIO_WINDOW_START, MMIO_WINDOW_END in *.
    destruct (bar_type x), t; simpl in *; injection Ewin as <- <-; lia.
  - destruct t; injection Ewin as <- <-; unfold MMIO_WINDOW_START; lia.
  - destruct t; injection Ewin as <- <-; unfold MMIO_WINDOW_END; lia.
  - split; [done|]. intros x bdf ((k & Hk & Es) & _ & Hx1 & Hx2) <- Hin.
    pose proof (Z.pow_pos_nonneg 2 k).
    rewrite Ewin in Hx1, Hx2. simpl in *. eapply Ht; [exact Hin|lia].
Qed.

(** ** Adding a device *)

(** What a successful [add_device_arc] does to the bus. *)
Lemma add_device_spec b dev b' bdf :
  bus_wf b -> sizes_ok dev -> add_device_arc b dev = inr (b', bdf) ->
  exists bs,
    bdf = next_bdf b /\ devices b !! bdf = None /\
    (exists d, bdf = (0, d, 0) /\ 1 <= d <= 31 /\
       next_bdf b' = (if d <? 31 then (0, d + 1, 0) else (1, 0, 0))) /\
    devices b' = <[bdf := {| device := dev; bars := bs |}]> (devices b) /\
    mmio_regions b' = mmio_regions b ++ ((fun x => (addr x, size x, bdf, bar_idx x)) <$> bs) /\
    mmio64 b' = mmio64 b /\
    (exists b1, b' = register_doorbells b1 bdf dev ((fun x => (bar_idx x, addr x)) <$> bs) /\
       registered b1 = registered b /\ ioevents b1 = ioevents b) /\
    Forall (fun x => size x = bar_size dev (bar_idx x)) bs /\
    placed (mmio64 b) 0 (top_of (mmio_regions b) MMIO_WINDOW_START MMIO_WINDOW_END)
      (top_of (mmio_regions b) (start (mmio64 b)) (end_ (mmio64 b))) bs.
Proof.
  intros Hwf Hs Ha. unfold add_device_arc in Ha.
  destruct (next_bdf b) as [[bus dv] func] eqn:En.
  destruct ((0 <? bus) || (31 <? dv)) eqn:Ef; [done|]. bool_prop.
  pose proof (wf_tops b Mem32 Hwf) as [H32 _]. pose proof (wf_tops b Mem64 Hwf) as [H64 _].
  rewrite !Z.max_l in Ha by lia.
  destruct (assign_bars _ _ _ _ _ _) as [|bs] eqn:Eas; [done|].
  pose proof (assign_bars_sizes _ _ _ _ _ _ _ Eas ltac:(constructor)) as Hsz.
  apply assign_bars_placed in Eas as (new & -> & Hp);
    [|done|apply (wf_window b Hwf)|lia|unfold MMIO_WINDOW_START in *; lia|..].
  2: { destruct (wf_window b Hwf) as [? _]. lia. }
  injection Ha as <- <-. exists new.
  assert (Hn : bus = 0 /\ func = 0 /\ 1 <= dv <= 31).
  { destruct (wf_next b Hwf) as [E|(n & E & Hn)]; rewrite En in E; injection E as -> -> ->; lia. }
  destruct Hn as (-> & -> & Hdv).
  set (b1 := set_mmio_regions _ _).
  assert (Hreg : exists b2, register_doorbells b1 (0, dv, 0) dev
      ((fun x => (bar_idx x, addr x)) <$> new) =
    register_doorbells b2 (0, dv, 0) dev ((fun x => (bar_idx x, addr x)) <$> new) /\
    registered b2 = registered b /\ ioevents b2 = ioevents b) by (by exists b1).
  destruct (register_doorbells_core b1 (0, dv, 0) dev ((fun x => (bar_idx x, addr x)) <$> new))
    as (-> & -> & -> & ->).
  repeat split; try done.
  - destruct (devices b !! (0, dv, 0)) as [e|] eqn:Ed; [|done].
    apply (wf_issued b Hwf) in Ed as (d & E & _ & Hlt). injection E as ->.
    rewrite En in Hlt. destruct Hlt as [|(n & E & ?)]; [done|]. injection E as ->. lia.
  - by exists dv.
Qed.

Lemma add_device_wf b dev b' bdf :
  bus_wf b -> sizes_ok dev -> add_device_arc b dev = inr (b', bdf) -> bus_wf b'.
Proof.
  intros Hwf Hs Ha.
  destruct (add_device_spec _ _ _ _ Hwf Hs Ha)
    as (bs & Hb & Hnone & (d & -> & Hd & Hn) & Hdev & Hreg & Hw & _ & _ & Hp).
  pose proof (wf_tops b Mem32 Hwf) as [H32 _]. pose proof (wf_tops b Mem64 Hwf) as [H64 _].
  pose proof (placed_bar_ok _ _ _ _ _ (proj1 H32) (proj1 H64) Hp) as Hok.
  destruct (placed_slots _ _ _ _ _ Hp) as [Hnd Hsl].
  split; rewrite ?Hw.
  - apply (wf_window b Hwf).
  - intros bdf' e. rewrite Hdev, lookup_insert. case_decide; [|by apply (wf_bars b Hwf)].
    intros [= <-]. simpl. split; [done|]. split; [done|].
    eapply Forall_impl; [exact Hsl|]. simpl. lia.
  - intros a s bdf' i. rewrite Hreg, elem_of_app, Hdev, (wf_regions b Hwf), list_elem_of_fmap.
    setoid_rewrite lookup_insert. split.
    + intros [(e & x & He & Hx)|(x & [= -> -> -> ->] & Hx)].
      * exists e, x. case_decide; [congruence|done].
      * eexists _, x. case_decide; [|done]. split; [done|]. simpl. eauto.
    + intros (e & x & He & Hx & -> & -> & ->). case_decide; [|left; by exists e, x].
      injection He as <-. subst bdf'. right. exists x. eauto.
  - rewrite Hn. destruct (d <? 31) eqn:E; bool_prop; [right|by left].
    exists (d + 1). split; [done|lia].
  - intros bdf' e. rewrite Hdev, lookup_insert, Hn. case_decide.
    + intros _. subst bdf'. exists d. repeat split; try lia.
      destruct (d <? 31) eqn:E; bool_prop; [right; exists (d + 1); split; [done|lia]|by left].
    + intros He. destruct (wf_issued b Hwf _ _ He) as (d' & -> & Hd' & Hlt).
      exists d'. repeat split; try lia. rewrite <- Hb in Hlt.
      destruct Hlt as [|(n & [= <-] & ?)]; [done|].
      destruct (d <? 31) eqn:E; bool_prop; [right; exists (d + 1); split; [done|lia]|by left].
Qed.

(** ** Guest accesses *)

(** What a BAR is to the rest of the bus: everything but the sizing flags. *)
Definition geom (x : Bar) : nat * Z * Z * BarType := (bar_idx x, addr x, size x, bar_type x).

Lemma geom_elem (l l' : list Bar) x :
  geom <$> l' = geom <$> l -> x ∈ l -> exists y, y ∈ l' /\ geom y = geom x.
Proof.
  intros Hg Hx. assert (Hin : geom x ∈ geom <$> l') by (rewrite Hg; by apply list_elem_of_fmap_2).
  apply list_elem_of_fmap in Hin as (y & -> & Hy). eauto.
Qed.

Lemma geom_bar_ok w x y : geom y = geom x -> bar_ok w x -> bar_ok w y.
Proof. unfold geom, bar_ok. intros [= E1 E2 E3 E4]. by rewrite E2, E3, E4. Qed.

Lemma geom_slots (l l' : list Bar) : geom <$> l' = geom <$> l -> l' ≫= slots = l ≫= slots.
Proof.
  revert l'; induction l as [|x l IH]; intros [|y l'] Hg; try done.
  rewrite !fmap_cons in Hg. injection Hg as E1 E2 E3 E4 Hl.
  rewrite !bind_cons, (IH l' Hl). unfold slots. by rewrite E1, E4.
Qed.

(** Replacing a device's state or its BARs' sizing flags keeps the invariant. *)
Lemma wf_same_geom b bdf e e' :
  bus_wf b -> devices b !! bdf = Some e -> geom <$> bars e' = geom <$> bars e ->
  bus_wf (set_devices b (<[bdf := e']> (devices b))).
Proof.
  intros Hwf He Hg. destruct (wf_bars b Hwf _ _ He) as [Hf Hsl].
  split; simpl.
  - apply (wf_window b Hwf).
  - intros bdf' e1. rewrite lookup_insert. case_decide; [|by apply (wf_bars b Hwf)].
    intros [= <-]. split.
    + apply Forall_forall. intros y Hy.
      destruct (geom_elem _ _ _ (eq_sym Hg) Hy) as (x & Hx & E).
      rewrite Forall_forall in Hf. eapply geom_bar_ok; [symmetry; exact E|auto].
    + unfold slots_ok. by rewrite (geom_slots _ _ Hg).
  - intros a s bdf' i. rewrite (wf_regions b Hwf). setoid_rewrite lookup_insert.
    case_decide; [|done]. subst bdf'. split.
    + intros (e1 & x & He1 & Hx & -> & -> & ->). assert (e1 = e) as -> by congruence.
      destruct (geom_elem _ _ _ Hg Hx) as (y & Hy & [= E1 E2 E3 E4]).
      exists e', y. by rewrite E1, E2, E3.
    + intros (e1 & y & [= <-] & Hy & -> & -> & ->).
      destruct (geom_elem _ _ _ (eq_sym Hg) Hy) as (x & Hx & [= E1 E2 E3 E4]).
      exists e, x. by rewrite E1, E2, E3.
  - apply (wf_next b Hwf).
  - intros bdf' e1. rewrite lookup_insert. case_decide; [|by apply (wf_issued b Hwf)].
    intros _. subst. by apply (wf_issued b Hwf) in He.
Qed.

Lemma geom_update (l : list Bar) i x y :
  l !! i = Some x -> geom y = geom x -> geom <$> <[i := y]> l = geom <$> l.
Proof.
  intros Hx Hg. rewrite list_fmap_insert, Hg. apply list_insert_id.
  by rewrite list_lookup_fmap, Hx.
Qed.

Lemma bar_read_geom x hi : geom (bar_read_value x hi).1 = geom x.
Proof. unfold bar_read_value. destruct hi, (probing_hi x), (probing_lo x); done. Qed.

Lemma config_read_wf b bdf off data : bus_wf b -> bus_wf (config_read b bdf off data).1.1.
Proof.
  intros Hwf. unfold config_read. case_bool_decide; [done|].
  destruct (devices b !! bdf) as [e|] eqn:He; [|done].
  destruct (bar_slot_for_offset off) as [slot|].
  - destruct (find_bar (bars e) slot) as [[i hi]|]; [|done].
    destruct (bars e !! i) as [x|] eqn:Hx; [|done].
    pose proof (bar_read_geom x hi) as Hg. destruct (bar_read_value x hi) as [x' v]. simpl in *.
    eapply wf_same_geom; eauto. simpl. by eapply geom_update.
  - destruct (read_config (device e) off data) as [d' out]. simpl.
    by eapply wf_same_geom; eauto.
Qed.

Lemma bar_write_probe_geom w x hi data x' :
  bar_write w x hi data = BarProbe x' -> geom x' = geom x.
Proof.
  unfold bar_write. case_match; [done|]. case_match; [|by repeat case_match].
  intros [= <-]. by destruct hi.
Qed.

(** A guest can only move a BAR to an aligned place inside its own window. *)
Lemma bar_write_moved w x hi data x' from to_ :
  window_ok w -> bar_ok w x ->
  bar_write w x hi data = BarMoved x' from to_ ->
  bar_ok w x' /\ x' = set_addr x to_ /\ from = addr x.
Proof.
  intros Hw Hok. unfold bar_write.
  destruct (length data <? 4)%nat; [done|].
  destruct (of_le (take 4 data) =? 0xFFFFFFFF); [done|].
  destruct (window_of w (bar_type x)) as [lo hi'] eqn:Ew.
  destruct (in_range lo hi' _) eqn:Ein; simpl; [|done].
  destruct (_ =? addr x); [done|]. intros [= <- <- <-].
  split; [|done].
  destruct Hok as ((k & Hk & Es) & Hm & Hx1 & Hx2). rewrite Ew in Hx1, Hx2. simpl in Hx1, Hx2.
  assert (Hr : requested_addr x hi (of_le (take 4 data)) mod 2 ^ k = 0).
  { unfold requested_addr. rewrite Es. apply Z.bits_inj'. intros n Hn.
    rewrite Z.bits_0. destruct (decide (n < k)).
    - rewrite Z.mod_pow2_bits_low, Z.land_spec by lia.
      assert (Z.testbit (lnotw 64 (2 ^ k - 1)) n = false) as ->; [|by rewrite andb_false_r].
      replace (lnotw 64 (2 ^ k - 1)) with ((2 ^ (64 - k) - 1) * 2 ^ k).
      + by apply Z.mul_pow2_bits_low.
      + unfold lnotw. replace 64 with (64 - k + k) at 2 by lia.
        rewrite Z.pow_add_r by lia. lia.
    - apply Z.mod_pow2_bits_high. lia. }
  set (rq := requested_addr x hi (of_le (take 4 data))) in *.
  apply in_range_spec in Ein.
  unfold bar_ok. simpl. rewrite Ew, Es. simpl. pose proof (Z.pow_pos_nonneg 2 k).
  repeat split; [by exists k|done|lia|].
  apply aligned_below; [lia|done| |lia].
  destruct Hw as [Hw (wk & Hwk & Ewe)].
  destruct (bar_type x); injection Ew as <- <-.
  - assert (k <= 29).
    { apply (Z.pow_le_mono_r_iff 2); [lia..|]. unfold MMIO_WINDOW_START, MMIO_WINDOW_END in *. lia. }
    change MMIO_WINDOW_END with (7 * 2 ^ 29).
    rewrite Z.mul_mod, pow2_divides, Z.mul_0_r by lia. done.
  - rewrite Ewe in *. apply pow2_divides. split; [lia|].
    apply (Z.pow_le_mono_r_iff 2); [lia..|]. destruct (decide (k <= wk)); [lia|].
    pose proof (Z.pow_lt_mono_r 2 wk k). lia.
Qed.

Lemma slots_self (x : Bar) : bar_idx x ∈ slots x.
Proof. unfold slots. destruct (is_64bit (bar_type x)); set_solver. Qed.

(** Two BARs of one device with a register in common are the same BAR. *)
Lemma slots_ok_inj l i j x y n :
  slots_ok l -> l !! i = Some x -> l !! j = Some y -> n ∈ slots x -> n ∈ slots y -> i = j.
Proof.
  intros [Hnd _]. revert i j. induction l as [|z l IH]; intros i j Hi Hj Hx Hy; [done|].
  rewrite bind_cons in Hnd. apply NoDup_app in Hnd as (_ & Hdis & Hnd).
  assert (Hin : forall k u, l !! k = Some u -> n ∈ slots u -> n ∈ l ≫= slots).
  { intros k u Hk Hu. apply list_elem_of_bind. exists u. split; [done|].
    by apply list_elem_of_lookup_2 in Hk. }
  destruct i as [|i], j as [|j]; simpl in Hi, Hj; simplify_eq; [done| | |].
  - exfalso. eapply Hdis; eauto.
  - exfalso. eapply Hdis; eauto.
  - f_equal. eauto.
Qed.

Lemma slots_ok_idx_inj l i j x y :
  slots_ok l -> l !! i = Some x -> l !! j = Some y -> bar_idx x = bar_idx y -> i = j.
Proof.
  intros Hok Hi Hj E. apply (slots_ok_inj l i j x y (bar_idx x)); auto using slots_self.
  rewrite E. apply slots_self.
Qed.

Lemma find_bar_spec l slot i hi :
  find_bar l slot = Some (i, hi) ->
  exists x, l !! i = Some x /\ slot ∈ slots x /\
    if hi : bool then is_64bit (bar_type x) = true /\ S (bar_idx x) = slot else bar_idx x = slot.
Proof.
  unfold find_bar. destruct (list_find _ l) as [[j y]|] eqn:E1.
  - intros [= -> <-]. apply list_find_Some in E1 as (Hl & <- & _).
    exists y. split; [done|]. split; [apply slots_self|done].
  - destruct (list_find (fun u => is_64bit (bar_type u) = true /\ S (bar_idx u) = slot) l)
      as [[j y]|] eqn:E2; [|done].
    intros [= -> <-]. apply list_find_Some in E2 as (Hl & [Ht <-] & _).
    exists y. split; [done|]. split; [|done]. unfold slots. rewrite Ht. set_solver.
Qed.

Lemma find_bar_lookup l slot x i :
  slots_ok l -> l !! i = Some x -> slot ∈ slots x ->
  find_bar l slot = Some (i, negb (Nat.eqb (bar_idx x) slot)).
Proof.
  intros Hok Hi Hs.
  destruct (find_bar l slot) as [[j hi]|] eqn:E.
  - apply find_bar_spec in E as (y & Hj & Hy & Hhi).
    assert (j = i) as -> by (eapply slots_ok_inj; eauto). assert (y = x) as -> by congruence.
    f_equal. f_equal. destruct hi.
    + destruct (Nat.eqb_spec (bar_idx x) slot); [lia|done].
    + by destruct (Nat.eqb_spec (bar_idx x) slot).
  - exfalso. unfold find_bar in E. case_match; [by destruct p|].
    case_match; [by destruct p|]. unfold slots in Hs.
    eapply list_find_None in H. rewrite Forall_forall in H.
    eapply list_find_None in H0. rewrite Forall_forall in H0.
    apply list_elem_of_lookup_2 in Hi. specialize (H _ Hi). specialize (H0 _ Hi). simpl in *.
    destruct (is_64bit (bar_type x)).
    + rewrite !elem_of_cons in Hs. destruct Hs as [->|[->|Hs]]; [by auto..|set_solver].
    + rewrite elem_of_cons in Hs. destruct Hs as [->|Hs]; [by auto|set_solver].
Qed.

Lemma elem_of_update_regions rs bdf slot to_ (r : Region) :
  r ∈ update_regions rs bdf slot to_ <->
  exists a0, (a0, r.1.1.2, r.1.2, r.2) ∈ rs /\
    ((r.1.2 = bdf /\ r.2 = slot /\ r.1.1.1 = to_) \/
     (~ (r.1.2 = bdf /\ r.2 = slot) /\ r.1.1.1 = a0)).
Proof.
  unfold update_regions. rewrite list_elem_of_fmap.
  destruct r as [[[a s] rb] rs']. simpl. split.
  - intros ([[[a0 s0] b0] i0] & E & Hin). simpl in E.
    case_bool_decide; destruct (Nat.eqb_spec i0 slot); simplify_eq/=; eauto 6; exists a0;
      (split; [done|]); right; (split; [tauto|done]).
  - intros (a0 & Hin & Hc). exists (a0, s, rb, rs'). split; [|done]. simpl.
    case_bool_decide; destruct (Nat.eqb_spec rs' slot); simpl; destruct Hc as [(? & ? & ?)|[? ?]];
      simplify_eq; tauto.
Qed.

Lemma wf_move b bdf e i x to_ :
  bus_wf b -> devices b !! bdf = Some e -> bars e !! i = Some x ->
  bar_ok (mmio64 b) (set_addr x to_) ->
  bus_wf (set_mmio_regions
    (set_devices b (<[bdf := {| device := device e; bars := <[i := set_addr x to_]> (bars e) |}]>
       (devices b)))
    (update_regions (mmio_regions b) bdf (bar_idx x) to_)).
Proof.
  intros Hwf He Hx Hok. destruct (wf_bars b Hwf _ _ He) as [Hf Hsl].
  assert (Hil : (i < length (bars e))%nat) by (by eapply lookup_lt_Some).
  assert (Hsame : <[i := set_addr x to_]> (bars e) ≫= slots = bars e ≫= slots).
  { clear -Hx. revert i Hx. induction (bars e) as [|y l IH]; intros [|i] Hx; simplify_eq/=; [done|].
    f_equal. by apply IH. }
  split; simpl.
  - apply (wf_window b Hwf).
  - intros bdf' e1. rewrite lookup_insert. case_decide; [|by apply (wf_bars b Hwf)].
    intros [= <-]. simpl. split; [by apply Forall_insert|]. unfold slots_ok. by rewrite Hsame.
  - intros a s bdf' j. rewrite elem_of_update_regions. setoid_rewrite (wf_regions b Hwf).
    setoid_rewrite lookup_insert. simpl. split.
    + intros (a0 & (e1 & y & He1 & Hy & -> & -> & ->) & Hc).
      apply list_elem_of_lookup in Hy as [jj Hjj].
      destruct Hc as [(-> & Eidx & ->)|[Hne ->]].
      * assert (e1 = e) as -> by congruence.
        assert (jj = i) as -> by (eapply slots_ok_idx_inj; eauto).
        assert (y = x) as -> by congruence. eexists _, (set_addr x to_).
        case_decide; [|done]. split; [done|]. split; [|done]. simpl.
        apply list_elem_of_lookup. exists i. by apply list_lookup_insert_eq.
      * case_decide; [|exists e1, y; split; [done|]; split; [by eapply list_elem_of_lookup_2|done]].
        subst bdf'. assert (e1 = e) as -> by congruence. eexists _, y. split; [done|].
        split; [|done]. simpl. apply list_elem_of_lookup. exists jj.
        rewrite list_lookup_insert_ne; [done|]. intros <-. assert (y = x) by congruence.
        subst. tauto.
    + intros (e1 & y & He1 & Hy & -> & -> & ->). case_decide as Hb.
      * injection He1 as <-. subst bdf'. simpl in Hy.
        apply list_elem_of_lookup in Hy as [jj Hjj].
        destruct (decide (i = jj)) as [<-|Hne].
        { rewrite list_lookup_insert_eq in Hjj by done. injection Hjj as <-. simpl.
          exists (addr x). split; [|by left]. exists e, x.
          split; [done|]. split; [by eapply list_elem_of_lookup_2|done]. }
        rewrite list_lookup_insert_ne in Hjj by done. exists (addr y). split.
        { exists e, y. split; [done|]. split; [by eapply list_elem_of_lookup_2|done]. }
        right. split; [|done]. intros [_ Eidx]. apply Hne.
        eapply slots_ok_idx_inj; eauto.
      * exists (addr y). split; [by exists e1, y|]. right. split; [|done]. intros [-> _]. done.
  - apply (wf_next b Hwf).
  - intros bdf' e1. rewrite lookup_insert. case_decide; [|by apply (wf_issued b Hwf)].
    intros _. subst. by apply (wf_issued b Hwf) in He.
Qed.

(** What a configuration write does to the BARs, once the ignored cases and
    the doorbells are set aside. *)
Lemma config_write_cases b bdf off data :
  bus_wf b ->
  config_write b bdf off data = b \/
  (exists e e', devices b !! bdf = Some e /\ geom <$> bars e' = geom <$> bars e /\
     (device e' = device e \/ device e' = write_config (device e) off data) /\
     config_write b bdf off data = set_devices b (<[bdf := e']> (devices b))) \/
  (exists e i x hi to_, devices b !! bdf = Some e /\ bars e !! i = Some x /\
     bar_write (mmio64 b) x hi data = BarMoved (set_addr x to_) (addr x) to_ /\
     bar_ok (mmio64 b) (set_addr x to_) /\
     config_write b bdf off data =
       move_doorbells_from
         (set_mmio_regions
            (set_devices b (<[bdf := {| device := device e;
                                        bars := <[i := set_addr x to_]> (bars e) |}]> (devices b)))
            (update_regions (mmio_regions b) bdf (bar_idx x) to_))
         bdf (bar_idx x) (addr x) to_).
Proof.
  intros Hwf. unfold config_write.
  destruct (bar_slot_for_offset off) as [slot|].
  - destruct (devices b !! bdf) as [e|] eqn:He; [|by left].
    destruct (find_bar (bars e) slot) as [[i hi]|]; [|by left].
    destruct (bars e !! i) as [x|] eqn:Hx; [|by left].
    destruct (bar_write (mmio64 b) x hi data) as [|x'|x' from to_] eqn:Ew; [by left| |].
    + right; left. eexists e, _. split; [done|]. split; [|split; [|reflexivity]]; simpl.
      * eapply geom_update; eauto using bar_write_probe_geom.
      * by left.
    + right; right. destruct (wf_bars b Hwf _ _ He) as [Hf _]. rewrite Forall_forall in Hf.
      destruct (bar_write_moved _ _ _ _ _ _ _ (wf_window b Hwf)
        (Hf x (list_elem_of_lookup_2 _ _ _ Hx)) Ew) as (Hok & -> & ->).
      by exists e, i, x, hi, to_.
  - destruct (devices b !! bdf) as [e|] eqn:He; [|by left].
    right; left. eexists e, _. split; [done|]. split; [|split; [|reflexivity]]; [done|by right].
Qed.

Lemma config_write_wf b bdf off data : bus_wf b -> bus_wf (config_write b bdf off data).
Proof.
  intros Hwf.
  destruct (config_write_cases b bdf off data Hwf)
    as [->|[(e & e' & He & Hg & _ & ->)|(e & i & x & hi & to_ & He & Hx & _ & Hok & ->)]].
  - done.
  - by eapply wf_same_geom.
  - eapply wf_same_core; [apply move_doorbells_core|]. by apply wf_move.
Qed.

Lemma mmio_target_device b a e bdf idx off :
  mmio_target b a = Some (e, bdf, idx, off) -> devices b !! bdf = Some e.
Proof.
  unfold mmio_target. induction (mmio_regions b) as [|[[[base sz] rb] ri] rs IH]; simpl; [done|].
  case_match; [|done]. destruct (devices b !! rb) eqn:Ed; [|done]. intros [= <- <- <- <-]. done.
Qed.

Lemma handle_mmio_write_wf b a data : bus_wf b -> bus_wf (handle_mmio_write b a data).1.
Proof.
  intros Hwf. unfold handle_mmio_write. destruct (in_ecam a).
  - destruct (ecam_decode a) as [bdf reg]. case_match; [by apply config_write_wf|done].
  - destruct (mmio_target b a) as [[[[e bdf] idx] off]|] eqn:Et; [|done].
    apply mmio_target_device in Et. destruct (write_bar _ _ _ _). simpl.
    by eapply wf_same_geom.
Qed.

Lemma handle_mmio_read_wf b a data : bus_wf b -> bus_wf (handle_mmio_read b a data).1.1.
Proof.
  intros Hwf. unfold handle_mmio_read. destruct (in_ecam a).
  - destruct (ecam_decode a) as [bdf reg]. case_match; [done|].
    pose proof (config_read_wf b bdf reg data Hwf) as Hr.
    destruct (config_read b bdf reg data) as [[b' out] []]; done.
  - destruct (mmio_target b a) as [[[[e bdf] idx] off]|] eqn:Et; [|done].
    apply mmio_target_device in Et. destruct (read_bar _ _ _ _) as [[d' o] ok]. simpl.
    by eapply wf_same_geom.
Qed.

Lemma handle_pio_write_wf b port data : bus_wf b -> bus_wf (handle_pio_write b port data).1.
Proof.
  intros Hwf. unfold handle_pio_write. case_match.
  - case_match; [|done]. by eapply wf_same_core; [|exact Hwf].
  - case_match; [|done]. case_match; [done|]. by apply config_write_wf.
Qed.

Lemma handle_pio_read_wf b port data : bus_wf b -> bus_wf (handle_pio_read b port data).1.1.
Proof.
  intros Hwf. unfold handle_pio_read. case_match; [done|]. case_match; [|done].
  case_match; [done|]. set (reg := u32 _).
  pose proof (config_read_wf b (cam_bdf (config_addr b)) reg data Hwf) as Hr.
  destruct (config_read b (cam_bdf (config_addr b)) reg data) as [[b' out] []]; done.
Qed.

(** ** The bus as a transition system *)

(** Everything that can happen to a bus: the VMM installs the registrar and
    adds devices (of the kind [P] allows), a vCPU exits with a port or MMIO access. *)
Inductive bus_step (P : D -> Prop) : Bus D R -> Bus D R -> Prop :=
  | step_registrar b r : bus_step P b (set_ioevent_registrar b r)
  | step_add b dev b' bdf :
      sizes_ok dev -> P dev -> add_device_arc b dev = inr (b', bdf) -> bus_step P b b'
  | step_pio_write b port data : bus_step P b (handle_pio_write b port data).1
  | step_pio_read b port data : bus_step P b (handle_pio_read b port data).1.1
  | step_mmio_write b a data : bus_step P b (handle_mmio_write b a data).1
  | step_mmio_read b a data : bus_step P b (handle_mmio_read b a data).1.1.

Lemma bus_step_wf P b b' : bus_step P b b' -> bus_wf b -> bus_wf b'.
Proof.
  intros [] Hwf; eauto using add_device_wf, handle_pio_write_wf, handle_pio_read_wf,
    handle_mmio_write_wf, handle_mmio_read_wf.
  by eapply wf_same_core; [|exact Hwf].
Qed.

Lemma bus_new_wf w : window_ok w -> bus_wf (Bus_new (D := D) (R := R) w).
Proof.
  intros Hw. split; simpl; try done.
  - intros a s bdf i. split; [by intros ?%not_elem_of_nil|]. by intros (e & x & He & _).
  - right. exists 1. split; [done|lia].
Qed.

Lemma reachable_wf P w b : window_ok w -> rtc (bus_step P) (Bus_new w) b -> bus_wf b.
Proof.
  intros Hw. pose proof (bus_new_wf w Hw) as H0. revert H0. generalize (Bus_new (D := D) (R := R) w).
  intros b0 Hwf Hr. induction Hr; eauto using bus_step_wf.
Qed.

(** C2: From an empty bus, whatever devices the VMM adds and whatever port and
    MMIO accesses the guest makes, every BAR stays a power-of-two block,
    naturally aligned and wholly inside the window the bus decodes for its
    type; no two BARs of a device share a register; and the MMIO dispatch table
    holds exactly the devices' current BARs.  A hostile guest cannot move a BAR
    over RAM, ECAM or the interrupt controllers. *)
Theorem bus_invariant (w : Mmio64Window) (b : Bus D R)
    (Hw : window_ok w) (Hreach : rtc (bus_step (fun _ => True)) (Bus_new w) b) : bus_wf b.
Proof. eauto using reachable_wf. Qed.

(** BARs of different devices never overlap when the bus places them:
    every BAR given to a newly added device is disjoint from every region
    already on the bus, wherever the guest has moved those, and the device's
    own BARs are disjoint from each other. *)
Theorem add_device_disjoint (b b' : Bus D R) (dev : D) (bdf : Bdf)
    (Hwf : bus_wf b) (Hs : sizes_ok dev) (Hadd : add_device_arc b dev = inr (b', bdf)) :
  exists e, devices b' !! bdf = Some e /\
    (forall x a s bdf' i, x ∈ bars e -> (a, s, bdf', i) ∈ mmio_regions b ->
       addr x + size x <= a \/ a + s <= addr x) /\
    (forall i j x y, bars e !! i = Some x -> bars e !! j = Some y -> i <> j ->
       addr x + size x <= addr y \/ addr y + size y <= addr x).
Proof.
  destruct (add_device_spec _ _ _ _ Hwf Hs Hadd) as (bs & _ & _ & _ & Hdev & _ & _ & _ & _ & Hp).
  pose proof (wf_tops b Mem32 Hwf) as [H32 T32]. pose proof (wf_tops b Mem64 Hwf) as [H64 T64].
  pose proof (placed_bar_ok _ _ _ _ _ (proj1 H32) (proj1 H64) Hp) as Hok.
  rewrite Forall_forall in Hok.
  eexists. split; [rewrite Hdev; apply lookup_insert_eq|]. simpl. split.
  - intros x a s bdf' i Hx Hr.
    destruct (wf_region_bar _ _ _ _ _ Hwf Hr) as (y & Hy & -> & -> & ->).
    destruct (decide (bar_type x = bar_type y)) as [Ht|Hne].
    + right. pose proof (placed_above _ _ _ _ _ _ Hp Hx) as Hab.
      destruct (bar_type x); [specialize (T32 _ _ Hy (eq_sym Ht) Hr)
                             |specialize (T64 _ _ Hy (eq_sym Ht) Hr)]; simpl in *; lia.
    + exact (bar_ok_types_disjoint _ _ _ (wf_window b Hwf) (Hok x Hx) Hy Hne).
  - intros i j x y Hi Hj Hne. destruct (decide (i < j)%nat).
    + apply (placed_disjoint (mmio64 b) 0 _ _ bs i j x y (wf_window b Hwf)
        (proj1 H32) (proj1 H64) Hp); [lia|done..].
    + enough (bars_disjoint y x) by (unfold bars_disjoint in *; tauto).
      apply (placed_disjoint (mmio64 b) 0 _ _ bs j i y x (wf_window b Hwf)
        (proj1 H32) (proj1 H64) Hp); [lia|done..].
Qed.

End Facts.
