(* ===== verification/PciBusAccess.v ===== *)
(** What a guest sees through the bus: BAR sizing, BAR moves with their
    dispatch and doorbells, and the agreement of the CAM1 ports with ECAM.
    Witnesses run on [FakeDevice] and [RecordingRegistrar], the device and
    registrar of the bus's own tests. *)

From S2P Require Import Prelude PciBus PciBusFacts.

(** * Concrete devices *)

Record FakeDevice := { fk_bars : list (Z * BarType); fk_doors : list Doorbell }.

#[export] Instance FakeDevice_pci : PciDevice FakeDevice := {
  read_config d _ data := (d, replicate (length data) 0);
  write_config d _ _ := d;
  read_bar d _ _ data := (d, data, true);
  write_bar d _ _ _ := (d, true);
  bar_size d i := default 0 (fst <$> fk_bars d !! i);
  bar_type_of d i := default Mem32 (snd <$> fk_bars d !! i);
  doorbells d := fk_doors d
}.

(** Records what the kernel would have been asked to do: [true] registers,
    [false] unregisters. *)
Abbreviation RecordingRegistrar := (list (bool * Z)).

#[export] Instance RecordingRegistrar_reg : IoeventRegistrar RecordingRegistrar := {
  register r a _ := (r ++ [(true, a)], true);
  unregister r a _ := (r ++ [(false, a)], true)
}.

Definition TEST_MMIO64 : Mmio64Window := {| start := 0x7C00000000; end_ := 0x8000000000 |}.

Lemma test_window_ok : window_ok TEST_MMIO64.
Proof. split; [simpl; lia|]. exists 39. split; [lia|reflexivity]. Qed.

Lemma fake_sizes_ok (d : FakeDevice) :
  Forall (fun p : Z * BarType => 0 <= fst p <= 2 ^ 62) (fk_bars d) -> sizes_ok d.
Proof.
  intros Hf i. simpl. destruct (fk_bars d !! i) as [[s t]|] eqn:E; simpl; [|lia].
  rewrite Forall_forall in Hf. apply (Hf (s, t)). by apply list_elem_of_lookup_2 in E.
Qed.

(** * Register access *)

Section Access.
Context {D R : Type} {HD : PciDevice D} {HR : IoeventRegistrar R}.
Implicit Types (b : Bus D R) (e : PciDeviceEntry D).

Definition read_reg b (bdf : Bdf) (reg : Z) : Bus D R * Z :=
  let '(b', d, _) := config_read b bdf reg [0; 0; 0; 0] in (b', of_le d).

Definition write_reg b (bdf : Bdf) (reg val : Z) : Bus D R :=
  config_write b bdf reg (le_bytes 4 val).

Definition BAR_REG (slot : nat) : Z := 0x10 + 4 * Z.of_nat slot.

Lemma bar_slot_reg slot : (slot < 6)%nat -> bar_slot_for_offset (BAR_REG slot) = Some slot.
Proof.
  intros Hs. unfold bar_slot_for_offset, BAR_REG.
  destruct (16 <=? 16 + 4 * Z.of_nat slot) eqn:E1; bool_prop; [|lia].
  destruct (16 + 4 * Z.of_nat slot <=? 39) eqn:E2; bool_prop; [|lia]. simpl. f_equal.
  replace (16 + 4 * Z.of_nat slot - 16) with (Z.of_nat slot * 4) by lia.
  rewrite Z.div_mul by lia. lia.
Qed.

Lemma bar_reg_aligned slot : Z.land (BAR_REG slot) 3 = 0.
Proof.
  change 3 with (2 ^ 2 - 1). rewrite land_ones_mod by lia. unfold BAR_REG.
  replace (16 + 4 * Z.of_nat slot) with ((4 + Z.of_nat slot) * 2 ^ 2) by lia. apply Z_mod_mult.
Qed.

Lemma read_window_all (l : list Z) x : read_window l 0 (length l) x = l.
Proof. unfold read_window. rewrite drop_0. apply resize_all. Qed.

Lemma wf_bdf_nonzero b bdf e : bus_wf b -> devices b !! bdf = Some e -> bdf <> (0, 0, 0).
Proof. intros Hwf (d & -> & Hd & _)%(wf_issued b Hwf) [= ->]. lia. Qed.

Lemma wf_slot b bdf e i x slot :
  bus_wf b -> devices b !! bdf = Some e -> bars e !! i = Some x -> slot ∈ slots x ->
  (slot < 6)%nat /\ find_bar (bars e) slot = Some (i, negb (Nat.eqb (bar_idx x) slot)).
Proof.
  intros Hwf He Hx Hs. destruct (wf_bars b Hwf _ _ He) as [_ Hsl]. split.
  - destruct Hsl as [_ Hf]. rewrite Forall_forall in Hf. apply Hf.
    apply list_elem_of_bind. exists x. split; [done|]. by apply list_elem_of_lookup_2 in Hx.
  - by apply find_bar_lookup.
Qed.

(** A read of a BAR register answers with [bar_read_value]. *)
Lemma read_reg_bar b bdf e i x slot :
  bus_wf b -> devices b !! bdf = Some e -> bars e !! i = Some x -> slot ∈ slots x ->
  let '(x', v) := bar_read_value x (negb (Nat.eqb (bar_idx x) slot)) in
  read_reg b bdf (BAR_REG slot) =
    (set_devices b (<[bdf := {| device := device e; bars := <[i := x']> (bars e) |}]> (devices b)),
     v mod 2 ^ 32).
Proof.
  intros Hwf He Hx Hs. destruct (wf_slot _ _ _ _ _ _ Hwf He Hx Hs) as [H6 Hfind].
  destruct (bar_read_value _ _) as [x' v] eqn:Ev.
  unfold read_reg, config_read.
  rewrite bool_decide_eq_false_2 by (by eapply wf_bdf_nonzero).
  rewrite He, bar_slot_reg, Hfind, Hx, Ev, bar_reg_aligned by done.
  change (length [0; 0; 0; 0]) with (length (le_bytes 4 v)). change (Z.to_nat 0) with 0%nat.
  rewrite read_window_all, of_le_le_bytes. done.
Qed.

Lemma write_reg_bar b bdf e i x slot v :
  bus_wf b -> devices b !! bdf = Some e -> bars e !! i = Some x -> slot ∈ slots x ->
  write_reg b bdf (BAR_REG slot) v =
  match bar_write (mmio64 b) x (negb (Nat.eqb (bar_idx x) slot)) (le_bytes 4 v) with
  | BarIgnored => b
  | BarProbe x' =>
      set_devices b (<[bdf := {| device := device e; bars := <[i := x']> (bars e) |}]> (devices b))
  | BarMoved x' from to_ =>
      move_doorbells_from
        (set_mmio_regions
           (set_devices b (<[bdf := {| device := device e; bars := <[i := x']> (bars e) |}]>
              (devices b)))
           (update_regions (mmio_regions b) bdf (bar_idx x) to_)) bdf (bar_idx x) from to_
  end.
Proof.
  intros Hwf He Hx Hs. destruct (wf_slot _ _ _ _ _ _ Hwf He Hx Hs) as [H6 Hfind].
  unfold write_reg, config_write. by rewrite bar_slot_reg, He, Hfind, Hx by done.
Qed.

Lemma bar_write_ones w x hi :
  bar_write w x hi (le_bytes 4 0xFFFFFFFF) =
  BarProbe (if hi then set_probing_hi x true else set_probing_lo x true).
Proof. reflexivity. Qed.

Lemma set_devices_twice b d1 d2 : set_devices (set_devices b d1) d2 = set_devices b d2.
Proof. reflexivity. Qed.

Lemma set_devices_id b : set_devices b (devices b) = b.
Proof. by destruct b. Qed.

Lemma entry_eta e : {| device := device e; bars := bars e |} = e.
Proof. by destruct e. Qed.

Lemma bar_eta_lo x : probing_lo x = false -> set_probing_lo (set_probing_lo x true) false = x.
Proof. destruct x. simpl. by intros ->. Qed.

Lemma bar_eta_hi x : probing_hi x = false -> set_probing_hi (set_probing_hi x true) false = x.
Proof. destruct x. simpl. by intros ->. Qed.

Lemma slots_high x : bar_type x = Mem64 -> S (bar_idx x) ∈ slots x.
Proof. unfold slots. intros ->. right. constructor. Qed.

(** ** Sizing *)

(** The size a guest computes from the mask: two's complement of it. *)
Definition decode_size (w mask : Z) : Z := wrap w (lnotw w mask + 1).

Lemma size_mask_low k :
  4 <= k <= 62 -> Z.land (u32 (lnotw 64 (2 ^ k - 1))) (lnotw 32 0xF) = (2 ^ 64 - 2 ^ k) mod 2 ^ 32.
Proof.
  intros Hk. change 0xF with (2 ^ 4 - 1). rewrite land_align_down; [|lia|apply wrap_range; lia].
  unfold lnotw, wrap. replace (2 ^ 64 - 1 - (2 ^ k - 1)) with (2 ^ 64 - 2 ^ k) by lia.
  assert (((2 ^ 64 - 2 ^ k) mod 2 ^ 32) mod 2 ^ 4 = 0) as ->; [|lia].
  rewrite Z.mod_mod_divide by (by exists (2 ^ 28)).
  rewrite Zminus_mod, !pow2_divides by lia. done.
Qed.

Lemma size_mask_high k :
  0 <= k <= 62 -> u32 (Z.shiftr (lnotw 64 (2 ^ k - 1)) 32) = (2 ^ 64 - 2 ^ k) / 2 ^ 32.
Proof.
  intros Hk. unfold lnotw. replace (2 ^ 64 - 1 - (2 ^ k - 1)) with (2 ^ 64 - 2 ^ k) by lia.
  rewrite Z.shiftr_div_pow2 by lia. pose proof (Z.pow_pos_nonneg 2 k).
  pose proof (Z.pow_le_mono_r 2 k 62). apply wrap_small. split.
  - apply Z.div_pos; lia.
  - apply Z.div_lt_upper_bound; lia.
Qed.

Lemma decode_size32 k :
  0 <= k <= 29 -> decode_size 32 ((2 ^ 64 - 2 ^ k) mod 2 ^ 32) = 2 ^ k.
Proof.
  intros Hk. pose proof (Z.pow_pos_nonneg 2 k). pose proof (Z.pow_le_mono_r 2 k 29).
  assert ((2 ^ 64 - 2 ^ k) mod 2 ^ 32 = 2 ^ 32 - 2 ^ k) as ->.
  { symmetry. apply (Z.mod_unique_pos _ _ (2 ^ 32 - 1)); lia. }
  unfold decode_size, lnotw. rewrite wrap_small; [lia|]. unfold is_word. lia.
Qed.

Lemma decode_size64 k :
  0 <= k <= 62 ->
  decode_size 64 (Z.lor ((2 ^ 64 - 2 ^ k) mod 2 ^ 32)
    (Z.shiftl (((2 ^ 64 - 2 ^ k) / 2 ^ 32) mod 2 ^ 32) 32)) = 2 ^ k.
Proof.
  intros Hk. pose proof (Z.pow_pos_nonneg 2 k). pose proof (Z.pow_le_mono_r 2 k 62).
  rewrite (Z.mod_small ((2 ^ 64 - 2 ^ k) / 2 ^ 32)).
  2: { split; [apply Z.div_pos; lia|apply Z.div_lt_upper_bound; lia]. }
  rewrite lor_shiftl_add by (try apply Z.mod_pos_bound; lia).
  pose proof (Z.div_mod (2 ^ 64 - 2 ^ k) (2 ^ 32)). unfold decode_size, lnotw.
  rewrite wrap_small; [lia|]. unfold is_word. lia.
Qed.

Lemma devices_insert_back b bdf e i x :
  devices b !! bdf = Some e -> bars e !! i = Some x ->
  set_devices b (<[bdf := {| device := device e; bars := <[i := x]> (bars e) |}]> (devices b)) = b.
Proof.
  intros He Hx. rewrite list_insert_id by done. rewrite entry_eta, insert_id by done.
  apply set_devices_id.
Qed.

Definition with_bar b (bdf : Bdf) e (i : nat) (x : Bar) : Bus D R :=
  set_devices b (<[bdf := {| device := device e; bars := <[i := x]> (bars e) |}]> (devices b)).

Lemma with_bar_wf b bdf e i x y :
  bus_wf b -> devices b !! bdf = Some e -> bars e !! i = Some x -> geom y = geom x ->
  bus_wf (with_bar b bdf e i y).
Proof. intros. eapply wf_same_geom; eauto. simpl. by eapply geom_update. Qed.

(** Reading or arming a half of a BAR rewrites only that BAR. *)
Lemma read_reg_with_bar b bdf e i x y slot :
  bus_wf b -> devices b !! bdf = Some e -> bars e !! i = Some x -> geom y = geom x ->
  slot ∈ slots x ->
  let '(y', v) := bar_read_value y (negb (Nat.eqb (bar_idx x) slot)) in
  read_reg (with_bar b bdf e i y) bdf (BAR_REG slot) = (with_bar b bdf e i y', v mod 2 ^ 32).
Proof.
  intros Hwf He Hx Hg Hs. pose proof (lookup_lt_Some _ _ _ Hx) as Hlt.
  pose proof (with_bar_wf _ _ _ _ _ _ Hwf He Hx Hg) as Hwf'.
  assert (Hidx : bar_idx y = bar_idx x /\ slots y = slots x).
  { unfold geom in Hg. injection Hg as E1 E2 E3 E4. split; [done|]. unfold slots. by rewrite E1, E4. }
  destruct Hidx as [Ei Es].
  epose proof (read_reg_bar (with_bar b bdf e i y) bdf _ i y slot Hwf'
    (lookup_insert_eq _ _ _) (list_lookup_insert_eq _ _ _ Hlt)) as Hr.
  rewrite Es, Ei in Hr. specialize (Hr Hs). destruct (bar_read_value y _) as [y' v].
  rewrite Hr. f_equal. unfold with_bar. simpl. by rewrite set_devices_twice, insert_insert_eq,
    list_insert_insert_eq.
Qed.

Lemma probe_with_bar b bdf e i x y slot :
  bus_wf b -> devices b !! bdf = Some e -> bars e !! i = Some x -> geom y = geom x ->
  slot ∈ slots x ->
  write_reg (with_bar b bdf e i y) bdf (BAR_REG slot) 0xFFFFFFFF =
  with_bar b bdf e i
    (if negb (Nat.eqb (bar_idx x) slot) then set_probing_hi y true else set_probing_lo y true).
Proof.
  intros Hwf He Hx Hg Hs. pose proof (lookup_lt_Some _ _ _ Hx) as Hlt.
  pose proof (with_bar_wf _ _ _ _ _ _ Hwf He Hx Hg) as Hwf'.
  assert (Hidx : bar_idx y = bar_idx x /\ slots y = slots x).
  { unfold geom in Hg. injection Hg as E1 E2 E3 E4. split; [done|]. unfold slots. by rewrite E1, E4. }
  destruct Hidx as [Ei Es].
  erewrite (write_reg_bar (with_bar b bdf e i y) bdf _ i y slot); [|done| | |by rewrite Es].
  2: { apply lookup_insert_eq. }
  2: { simpl. by apply list_lookup_insert_eq. }
  rewrite bar_write_ones, Ei. unfold with_bar. simpl.
  by rewrite set_devices_twice, insert_insert_eq, list_insert_insert_eq.
Qed.

(** The BAR sizing protocol reports the size and disturbs nothing.  For a
    32-bit BAR of at least 16 bytes, writing all ones and reading back gives a
    mask whose two's complement is the BAR's size; for a 64-bit BAR, writing
    all ones to both registers and then reading both gives the halves of such a
    mask, at any size up to [2^62].  Afterwards the bus is exactly what it was:
    the address, the dispatch table and the doorbells are untouched. *)
Theorem sizing_reports_size (b : Bus D R) (bdf : Bdf) (e : PciDeviceEntry D) (i : nat) (x : Bar)
    (Hwf : bus_wf b) (He : devices b !! bdf = Some e) (Hx : bars e !! i = Some x)
    (H16 : 16 <= size x) (Hlo : probing_lo x = false) (Hhi : probing_hi x = false) :
  let lo := BAR_REG (bar_idx x) in
  let hi := BAR_REG (S (bar_idx x)) in
  match bar_type x with
  | Mem32 =>
      let '(b1, m) := read_reg (write_reg b bdf lo 0xFFFFFFFF) bdf lo in
      decode_size 32 m = size x /\ b1 = b
  | Mem64 =>
      let b2 := write_reg (write_reg b bdf lo 0xFFFFFFFF) bdf hi 0xFFFFFFFF in
      let '(b3, m_lo) := read_reg b2 bdf lo in
      let '(b4, m_hi) := read_reg b3 bdf hi in
      decode_size 64 (Z.lor m_lo (Z.shiftl m_hi 32)) = size x /\ b4 = b
  end.
Proof.
  intros lo hi. destruct (wf_bars b Hwf _ _ He) as [Hf _]. rewrite Forall_forall in Hf.
  destruct (Hf x (list_elem_of_lookup_2 _ _ _ Hx)) as ((k & Hk & Es) & Hal & Hw1 & Hw2).
  assert (H4 : 4 <= k) by (apply (Z.pow_le_mono_r_iff 2); lia).
  pose proof (Z.pow_pos_nonneg 2 k). pose proof (Z.pow_le_mono_r 2 k 62).
  assert (Hb : b = with_bar b bdf e i x) by (symmetry; by apply devices_insert_back).
  assert (Hslo : bar_idx x ∈ slots x) by apply slots_self.
  assert (Hlow : forall y, probing_lo y = true -> size y = size x ->
    bar_read_value y false = (set_probing_lo y false, (2 ^ 64 - 2 ^ k) mod 2 ^ 32)).
  { intros y Hp Hsz. unfold bar_read_value. rewrite Hp, Hsz, Es, size_mask_low by lia. done. }
  destruct (bar_type x) eqn:Et.
  - assert (k <= 29).
    { apply (Z.pow_le_mono_r_iff 2); [lia..|].
      unfold window_of, MMIO_WINDOW_START, MMIO_WINDOW_END in *. simpl in *. lia. }
    rewrite Hb. unfold lo. rewrite (probe_with_bar b bdf e i x x) by done.
    rewrite Nat.eqb_refl. simpl.
    pose proof (read_reg_with_bar b bdf e i x (set_probing_lo x true) _ Hwf He Hx eq_refl Hslo) as Hr.
    rewrite Nat.eqb_refl in Hr. cbn [negb] in Hr. rewrite Hlow in Hr by done.
    rewrite Hr, (bar_eta_lo x Hlo), Z.mod_mod, Es by lia. split; [apply decode_size32; lia|done].
  - pose proof (slots_high x Et) as Hshi.
    assert (Hne : Nat.eqb (bar_idx x) (S (bar_idx x)) = false) by (apply Nat.eqb_neq; lia).
    rewrite Hb. unfold lo, hi. rewrite (probe_with_bar b bdf e i x x) by done.
    rewrite Nat.eqb_refl. cbn [negb].
    rewrite (probe_with_bar b bdf e i x (set_probing_lo x true)) by done. rewrite Hne. cbn [negb].
    set (y := set_probing_hi (set_probing_lo x true) true).
    pose proof (read_reg_with_bar b bdf e i x y _ Hwf He Hx eq_refl Hslo) as Hr.
    rewrite Nat.eqb_refl in Hr. cbn [negb] in Hr. rewrite Hlow in Hr by done. rewrite Hr. clear Hr.
    set (z := set_probing_lo y false).
    pose proof (read_reg_with_bar b bdf e i x z _ Hwf He Hx eq_refl Hshi) as Hr.
    rewrite Hne in Hr. cbn [negb] in Hr. unfold bar_read_value in Hr.
    cbn [z y probing_hi set_probing_hi set_probing_lo size] in Hr.
    rewrite Es, size_mask_high in Hr by lia. rewrite Hr, Z.mod_mod, Es by lia.
    split; [apply decode_size64; lia|]. f_equal. destruct x; simpl in *. by subst.
Qed.

(** ** Programming an address *)

Lemma requested_low x raw k :
  size x = 2 ^ k -> 0 <= k <= 62 -> is_word 64 (addr x) -> is_word 32 raw -> raw mod 16 = 0 ->
  requested_addr x false raw =
  let v := addr x / 2 ^ 32 * 2 ^ 32 + raw in v - v mod size x.
Proof.
  intros Es Hk Ha Hr H16. unfold requested_addr. rewrite Es. unfold is_word in Ha, Hr.
  change 0xFFFFFFFF with (2 ^ 32 - 1). change 0xF with (2 ^ 4 - 1).
  rewrite (land_align_down 64 (addr x) 32), (land_align_down 64 raw 4) by (unfold is_word; lia).
  change (2 ^ 4) with 16. rewrite H16, Z.sub_0_r.
  assert (Hhi : addr x - addr x mod 2 ^ 32 = addr x / 2 ^ 32 * 2 ^ 32).
  { pose proof (Z.div_mod (addr x) (2 ^ 32)). lia. }
  rewrite Hhi, <- Z.shiftl_mul_pow2, Z.lor_comm, lor_shiftl_add by lia.
  rewrite Z.shiftl_mul_pow2, Z.add_comm by lia. rewrite land_align_down; [done|lia|].
  assert (addr x / 2 ^ 32 < 2 ^ 32) by (apply Z.div_lt_upper_bound; lia).
  assert (0 <= addr x / 2 ^ 32) by (apply Z.div_pos; lia). unfold is_word. lia.
Qed.

Lemma requested_high x raw k :
  size x = 2 ^ k -> 0 <= k <= 62 -> is_word 64 (addr x) -> is_word 32 raw ->
  requested_addr x true raw = let v := addr x mod 2 ^ 32 + raw * 2 ^ 32 in v - v mod size x.
Proof.
  intros Es Hk Ha Hr. unfold requested_addr. rewrite Es. unfold is_word in Ha, Hr.
  change 0xFFFFFFFF with (2 ^ 32 - 1). rewrite land_ones_mod by lia.
  pose proof (Z.mod_pos_bound (addr x) (2 ^ 32)).
  rewrite wrap_small by (rewrite Z.shiftl_mul_pow2 by lia; unfold is_word; lia).
  rewrite lor_shiftl_add by lia. rewrite land_align_down; [done|lia|]. unfold is_word. lia.
Qed.

Lemma set_addr_id x : set_addr x (addr x) = x.
Proof. by destruct x. Qed.

(** A DWORD write that asks for a place inside the window puts the BAR there. *)
Lemma write_reg_moves b bdf e i x slot raw :
  let hi := negb (Nat.eqb (bar_idx x) slot) in
  let rq := requested_addr x hi raw in
  bus_wf b -> devices b !! bdf = Some e -> bars e !! i = Some x -> slot ∈ slots x ->
  is_word 32 raw -> raw <> 0xFFFFFFFF ->
  fst (window_of (mmio64 b) (bar_type x)) <= rq < snd (window_of (mmio64 b) (bar_type x)) ->
  let b' := write_reg b bdf (BAR_REG slot) raw in
  bus_wf b' /\ mmio64 b' = mmio64 b /\
  exists e', devices b' !! bdf = Some e' /\ device e' = device e /\
    bars e' = <[i := set_addr x rq]> (bars e).
Proof.
  intros hi rq Hwf He Hx Hs Hraw Hne Hwin b'.
  split; [by apply config_write_wf|]. unfold b'.
  rewrite (write_reg_bar b bdf e i x slot) by done. fold hi.
  unfold bar_write. rewrite length_le_bytes. cbn [Nat.ltb Nat.leb].
  change (take 4 (le_bytes 4 raw)) with (le_bytes 4 raw).
  rewrite of_le_le_bytes_small by exact Hraw.
  destruct (raw =? 0xFFFFFFFF) eqn:E; bool_prop; [done|]. fold rq.
  destruct (window_of (mmio64 b) (bar_type x)) as [lo h].
  destruct (in_range lo h rq) eqn:Ein; [|apply not_true_iff_false in Ein;
    rewrite in_range_spec in Ein; simpl in Hwin; lia]. simpl.
  destruct (rq =? addr x) eqn:Eq; bool_prop.
  - split; [done|]. exists e. rewrite Eq, set_addr_id, list_insert_id by done. auto.
  - destruct (move_doorbells_core (set_mmio_regions
      (set_devices b (<[bdf := {| device := device e; bars := <[i := set_addr x rq]> (bars e) |}]>
         (devices b))) (update_regions (mmio_regions b) bdf (bar_idx x) rq))
      bdf (bar_idx x) (addr x) rq) as (-> & _ & _ & ->).
    split; [done|]. eexists. split; [apply lookup_insert_eq|done].
Qed.

Lemma wf_addr_word b bdf e i x :
  bus_wf b -> devices b !! bdf = Some e -> bars e !! i = Some x ->
  (exists k, 0 <= k <= 62 /\ size x = 2 ^ k) /\ is_word 64 (addr x) /\
  bar_ok (mmio64 b) x.
Proof.
  intros Hwf He Hx. destruct (wf_bars b Hwf _ _ He) as [Hf _]. rewrite Forall_forall in Hf.
  pose proof (Hf x (list_elem_of_lookup_2 _ _ _ Hx)) as Hok.
  split; [apply Hok|]. split; [|done].
  destruct Hok as ((k & Hk & Es) & _ & H1 & H2). pose proof (Z.pow_pos_nonneg 2 k).
  pose proof (window_ok_lt _ (wf_window b Hwf)). destruct (wf_window b Hwf) as [? _].
  unfold window_of, MMIO_WINDOW_START, MMIO_WINDOW_END, is_word in *.
  destruct (bar_type x); simpl in *; lia.
Qed.

Lemma bar_address_found b bdf e i x :
  bus_wf b -> devices b !! bdf = Some e -> bars e !! i = Some x ->
  bar_address b bdf (bar_idx x) = Some (addr x).
Proof.
  intros Hwf He Hx. destruct (wf_bars b Hwf _ _ He) as [_ Hsl].
  unfold bar_address. rewrite He. simpl.
  destruct (list_find (fun u => bar_idx u = bar_idx x) (bars e)) as [[j y]|] eqn:Ef; simpl.
  - apply list_find_Some in Ef as (Hj & Eidx & _).
    assert (j = i) as -> by (eapply slots_ok_idx_inj; eauto). congruence.
  - apply list_find_None in Ef. rewrite Forall_forall in Ef. exfalso.
    by eapply (Ef x); [eapply list_elem_of_lookup_2|].
Qed.

(** The guest's programming sequence for a BAR: one DWORD for a 32-bit BAR,
    low then high for a 64-bit one. *)
Definition program_bar b (bdf : Bdf) (x : Bar) (new : Z) : Bus D R :=
  match bar_type x with
  | Mem32 => write_reg b bdf (BAR_REG (bar_idx x)) new
  | Mem64 => write_reg (write_reg b bdf (BAR_REG (bar_idx x)) (new mod 2 ^ 32))
               bdf (BAR_REG (S (bar_idx x))) (new / 2 ^ 32)
  end.

Lemma align_id v s : v mod s = 0 -> v - v mod s = v.
Proof. lia. Qed.

Lemma program_bar32 b bdf e i x new :
  bus_wf b -> devices b !! bdf = Some e -> bars e !! i = Some x -> bar_type x = Mem32 ->
  16 <= size x -> new mod size x = 0 -> MMIO_WINDOW_START <= new < MMIO_WINDOW_END ->
  bus_wf (program_bar b bdf x new) /\
  exists e', devices (program_bar b bdf x new) !! bdf = Some e' /\
    bars e' = <[i := set_addr x new]> (bars e).
Proof.
  intros Hwf He Hx Et H16 Hal Hwin. unfold program_bar. rewrite Et.
  destruct (wf_addr_word _ _ _ _ _ Hwf He Hx) as ((k & Hk & Es) & Ha & (_ & _ & Hx1 & Hx2)).
  assert (H4 : 4 <= k) by (apply (Z.pow_le_mono_r_iff 2); lia).
  rewrite Et in Hx1, Hx2. unfold window_of, MMIO_WINDOW_START, MMIO_WINDOW_END in *. simpl in *.
  assert (Hrq : requested_addr x false new = new).
  { rewrite (requested_low x new k); [|done|lia|done|unfold is_word; lia|].
    - rewrite (Z.div_small (addr x)) by lia. simpl. by apply align_id.
    - change 16 with (2 ^ 4). rewrite Es in Hal.
      rewrite <- (Z.mod_mod_divide new (2 ^ k)); [by rewrite Hal|].
      exists (2 ^ (k - 4)). rewrite <- Z.pow_add_r by lia. f_equal. lia. }
  destruct (write_reg_moves b bdf e i x (bar_idx x) new) as (Hwf' & _ & e' & He' & _ & Hb);
    rewrite ?Nat.eqb_refl, ?Et, ?Hrq; simpl; auto using slots_self; try (unfold is_word; lia).
  - unfold MMIO_WINDOW_START, MMIO_WINDOW_END. lia.
  - split; [done|]. exists e'. split; [done|].
    rewrite Nat.eqb_refl in Hb. cbn [negb] in Hb. by rewrite Hrq in Hb.
Qed.

(** Combining halves: [h * 2^32 + l] rounded down to a multiple of the size,
    when the target with the same high or low half already is one. *)
Lemma round_low k h l l' :
  0 <= k <= 62 -> 0 <= l < 2 ^ 32 -> 0 <= l' < 2 ^ 32 ->
  (h * 2 ^ 32 + l') mod 2 ^ k = 0 -> l mod 2 ^ Z.min k 32 = 0 ->
  (h * 2 ^ 32 + l) - (h * 2 ^ 32 + l) mod 2 ^ k =
  h * 2 ^ 32 + (if k <=? 32 then l else l').
Proof.
  intros Hk Hl Hl' H0 Hm. destruct (k <=? 32) eqn:E; bool_prop.
  - rewrite Z.min_l in Hm by lia. apply align_id.
    rewrite Zplus_mod, Hm, Z.add_0_r, Z.mod_mod by (pose proof (Z.pow_pos_nonneg 2 k); lia).
    rewrite Zmult_mod, pow2_divides, Z.mul_0_r by lia. apply Z.mod_0_l.
    pose proof (Z.pow_pos_nonneg 2 k); lia.
  - assert (Ek : 2 ^ k = 2 ^ (k - 32) * 2 ^ 32) by (rewrite <- Z.pow_add_r by lia; f_equal; lia).
    pose proof (Z.pow_pos_nonneg 2 (k - 32)).
    assert (Hd : (h * 2 ^ 32 + l') mod 2 ^ 32 = 0).
    { rewrite <- (Z.mod_mod_divide _ (2 ^ k)); [by rewrite H0|]. by exists (2 ^ (k - 32)). }
    rewrite Z.add_comm, Z_mod_plus_full, Z.mod_small in Hd by lia. subst l'.
    rewrite Z.add_0_r in H0 |- *.
    rewrite Z.min_r in Hm by lia. rewrite Z.mod_small in Hm by lia. subst l.
    rewrite Z.add_0_r. by apply align_id.
Qed.

Lemma low_half_aligned k v :
  0 <= k <= 62 -> v mod 2 ^ k = 0 -> (v mod 2 ^ 32) mod 2 ^ Z.min k 32 = 0.
Proof.
  intros Hk Hv. pose proof (Z.pow_pos_nonneg 2 (Z.min k 32)). rewrite Z.mod_mod_divide.
  - rewrite <- (Z.mod_mod_divide _ (2 ^ k)); [by rewrite Hv, Z.mod_0_l by lia|].
    exists (2 ^ (k - Z.min k 32)). rewrite <- Z.pow_add_r by lia. f_equal. lia.
  - exists (2 ^ (32 - Z.min k 32)). rewrite <- Z.pow_add_r by lia. f_equal. lia.
Qed.

Lemma aligned_16 k v : 4 <= k -> v mod 2 ^ k = 0 -> v mod 16 = 0.
Proof.
  intros Hk Hv. change 16 with (2 ^ 4). rewrite <- (Z.mod_mod_divide v (2 ^ k)); [by rewrite Hv|].
  exists (2 ^ (k - 4)). rewrite <- Z.pow_add_r by lia. f_equal. lia.
Qed.

(** The two writes of a 64-bit move: the first keeps the old high half, the
    second completes the address the guest asked for. *)
Lemma program64_halves x new k :
  size x = 2 ^ k -> 4 <= k <= 62 -> is_word 64 (addr x) -> addr x mod 2 ^ k = 0 ->
  0 <= new < 2 ^ 63 -> new mod 2 ^ k = 0 ->
  exists mid, requested_addr x false (new mod 2 ^ 32) = mid /\
    addr x / 2 ^ 32 * 2 ^ 32 <= mid < addr x / 2 ^ 32 * 2 ^ 32 + 2 ^ 32 /\
    (new mod 2 ^ 32) mod 16 = 0 /\ 0 <= new / 2 ^ 32 < 2 ^ 31 /\
    requested_addr (set_addr x mid) true (new / 2 ^ 32) = new.
Proof.
  intros Es Hk Ha Hm Hnew Hal. unfold is_word in Ha.
  pose proof (low_half_aligned k _ ltac:(lia) Hm) as La.
  pose proof (low_half_aligned k _ ltac:(lia) Hal) as Ln.
  pose proof (Z.div_mod (addr x) (2 ^ 32)). pose proof (Z.div_mod new (2 ^ 32)).
  pose proof (Z.mod_pos_bound (addr x) (2 ^ 32)). pose proof (Z.mod_pos_bound new (2 ^ 32)).
  assert (0 <= addr x / 2 ^ 32 < 2 ^ 32).
  { split; [apply Z.div_pos; lia|apply Z.div_lt_upper_bound; lia]. }
  assert (Hnh : 0 <= new / 2 ^ 32 < 2 ^ 31).
  { split; [apply Z.div_pos; lia|apply Z.div_lt_upper_bound; lia]. }
  assert (H16 : (new mod 2 ^ 32) mod 16 = 0) by (apply (aligned_16 (Z.min k 32)); [lia|done]).
  set (mid := addr x / 2 ^ 32 * 2 ^ 32 + (if k <=? 32 then new mod 2 ^ 32 else addr x mod 2 ^ 32)).
  assert (Hlo : mid mod 2 ^ 32 = new mod 2 ^ 32).
  { unfold mid. rewrite Z.add_comm, Z_mod_plus_full.
    destruct (k <=? 32) eqn:E; bool_prop; rewrite Z.mod_mod by lia; [done|].
    rewrite Z.min_r, Z.mod_mod in La, Ln by lia. by rewrite La, Ln. }
  exists mid. split.
  { rewrite (requested_low x _ k); [|done|lia|done|unfold is_word; lia|done].
    rewrite Es. apply round_low; try lia. rewrite <- Hm. f_equal. lia. }
  split; [unfold mid; destruct (k <=? 32); lia|]. split; [done|]. split; [done|].
  rewrite (requested_high _ _ k); [|done|lia| |unfold is_word; lia].
  - cbn [addr set_addr size]. rewrite Hlo, Es.
    replace (new mod 2 ^ 32 + new / 2 ^ 32 * 2 ^ 32) with new by lia. by apply align_id.
  - simpl. unfold is_word, mid. destruct (k <=? 32); lia.
Qed.

Lemma program_bar64 b bdf e i x new :
  bus_wf b -> devices b !! bdf = Some e -> bars e !! i = Some x -> bar_type x = Mem64 ->
  16 <= size x -> new mod size x = 0 -> start (mmio64 b) <= new < end_ (mmio64 b) ->
  start (mmio64 b) mod 2 ^ 32 = 0 -> end_ (mmio64 b) mod 2 ^ 32 = 0 ->
  bus_wf (program_bar b bdf x new) /\
  exists e', devices (program_bar b bdf x new) !! bdf = Some e' /\
    bars e' = <[i := set_addr x new]> (bars e).
Proof.
  intros Hwf He Hx Et H16 Hal Hwin Hs0 He0. unfold program_bar. rewrite Et.
  destruct (wf_addr_word _ _ _ _ _ Hwf He Hx) as ((k & Hk & Es) & Ha & (_ & Hm & Hx1 & Hx2)).
  rewrite Es in Hm, Hal. rewrite Et in Hx1, Hx2. simpl in Hx1, Hx2.
  destruct (wf_window b Hwf) as [Hw0 (wk & Hwk & Hwe)].
  pose proof (Z.pow_le_mono_r 2 wk 63 ltac:(lia) ltac:(lia)). pose proof (Z.pow_pos_nonneg 2 k).
  assert (H4 : 4 <= k) by (apply (Z.pow_le_mono_r_iff 2); lia).
  destruct (program64_halves x new k) as (mid & Hrq1 & Hmid & Hnl16 & Hnh & Hrq2); auto; [lia..|].
  pose proof (Z.mod_pos_bound new (2 ^ 32)) as Hnl.
  assert (Hw1 : start (mmio64 b) <= mid < end_ (mmio64 b)).
  { pose proof (Z.div_mod (start (mmio64 b)) (2 ^ 32)). pose proof (Z.div_mod (addr x) (2 ^ 32)).
    pose proof (Z.mod_pos_bound (addr x) (2 ^ 32)).
    pose proof (Z.div_mod (end_ (mmio64 b)) (2 ^ 32)). lia. }
  destruct (write_reg_moves b bdf e i x (bar_idx x) (new mod 2 ^ 32))
    as (Hwf1 & Ew1 & e1 & He1 & _ & Hb1);
    rewrite ?Nat.eqb_refl, ?Et; cbn [negb]; rewrite ?Hrq1; auto using slots_self.
  { unfold is_word. lia. }
  { intros E. by rewrite E in Hnl16. }
  rewrite Nat.eqb_refl in Hb1. cbn [negb] in Hb1. rewrite Hrq1 in Hb1.
  set (b1 := write_reg b bdf _ _) in *. set (x1 := set_addr x mid) in *.
  assert (Hx1' : bars e1 !! i = Some x1).
  { rewrite Hb1. apply list_lookup_insert_eq. by eapply lookup_lt_Some. }
  assert (Hne : Nat.eqb (bar_idx x1) (S (bar_idx x)) = false) by (apply Nat.eqb_neq; simpl; lia).
  destruct (write_reg_moves b1 bdf e1 i x1 (S (bar_idx x)) (new / 2 ^ 32))
    as (Hwf2 & _ & e2 & He2 & _ & Hb2);
    rewrite ?Hne; cbn [negb]; rewrite ?Hrq2; auto; try lia.
  - by apply (slots_high x1).
  - unfold is_word. lia.
  - rewrite Ew1. simpl. rewrite Et. simpl. lia.
  - split; [done|]. exists e2. split; [done|]. rewrite Hne in Hb2. cbn [negb] in Hb2.
    by rewrite Hrq2, Hb1, list_insert_insert_eq in Hb2.
Qed.

(** Programming a BAR puts it where the guest asked.  For a new address
    aligned to the BAR's size and inside the window of its type, the guest's
    write sequence (one DWORD for a 32-bit BAR; low half then high half for a
    64-bit one, whose window both ends are multiples of 4 GiB) leaves the bus
    well formed, [bar_address] answers the new address, the dispatch table
    holds the BAR at the new address and nowhere else, and no other BAR of the
    device moves.  The intermediate state of a 64-bit move never loses a half. *)
Theorem bar_program_moves (b : Bus D R) (bdf : Bdf) (e : PciDeviceEntry D) (i : nat) (x : Bar)
    (new : Z)
    (Hwf : bus_wf b) (He : devices b !! bdf = Some e) (Hx : bars e !! i = Some x)
    (H16 : 16 <= size x) (Hal : new mod size x = 0)
    (Hwin : in_range (window_of (mmio64 b) (bar_type x)).1 (window_of (mmio64 b) (bar_type x)).2 new
            = true)
    (Hgib : start (mmio64 b) mod 2 ^ 32 = 0 /\ end_ (mmio64 b) mod 2 ^ 32 = 0) :
  let b' := program_bar b bdf x new in
  bus_wf b' /\
  bar_address b' bdf (bar_idx x) = Some new /\
  (forall a s, (a, s, bdf, bar_idx x) ∈ mmio_regions b' <-> a = new /\ s = size x) /\
  (forall j y, j <> i -> bars e !! j = Some y -> bar_address b' bdf (bar_idx y) = Some (addr y)).
Proof.
  intros b'. apply in_range_spec in Hwin. destruct Hgib.
  assert (Hp : bus_wf b' /\ exists e', devices b' !! bdf = Some e' /\
    bars e' = <[i := set_addr x new]> (bars e)).
  { destruct (bar_type x) eqn:Et.
    - by apply program_bar32.
    - by apply program_bar64. }
  destruct Hp as (Hwf' & e' & He' & Hb').
  assert (Hx' : bars e' !! i = Some (set_addr x new)).
  { rewrite Hb'. apply list_lookup_insert_eq. by eapply lookup_lt_Some. }
  split; [done|]. split; [exact (bar_address_found _ _ _ _ _ Hwf' He' Hx')|]. split.
  - intros a s. rewrite (wf_regions b' Hwf'). split.
    + intros (e1 & y & He1 & Hy & -> & -> & Eidx). assert (e1 = e') as -> by congruence.
      apply list_elem_of_lookup in Hy as [j Hj]. destruct (wf_bars b' Hwf' _ _ He') as [_ Hsl].
      assert (j = i) as -> by (eapply slots_ok_idx_inj; eauto; by rewrite <- Eidx).
      assert (y = set_addr x new) as -> by congruence. done.
    + intros [-> ->]. exists e', (set_addr x new). split; [done|].
      split; [by eapply list_elem_of_lookup_2|done].
  - intros j y Hne Hj. apply (bar_address_found _ _ e' j); [done|done|].
    by rewrite Hb', list_lookup_insert_ne.
Qed.

End Access.
