(* ===== verification/PciBusPaths.v ===== *)
(** The ways into the bus: the CAM1 ports and ECAM reach the same registers,
    MMIO goes to the BAR that holds the address, and the doorbells handed to the
    kernel stay inside the BARs that own them. *)

From S2P Require Import Prelude PciBus PciBusFacts PciBusAccess.

Section Paths.
Context {D R : Type} {HD : PciDevice D} {HR : IoeventRegistrar R}.
Implicit Types (b : Bus D R) (e : PciDeviceEntry D).

(** * CAM1 and ECAM *)

(** CONFIG_ADDRESS and the data port for a register, as the guest forms them. *)
Definition cam_addr (dev func reg : Z) : Z :=
  2 ^ 31 + dev * 2 ^ 11 + func * 2 ^ 8 + (reg - reg mod 4).
Definition cam_port (reg : Z) : Z := 0xCFC + reg mod 4.
(** The ECAM address of the same register on bus 0. *)
Definition ecam_addr (dev func reg : Z) : Z :=
  ECAM_BASE + dev * 2 ^ 15 + func * 2 ^ 12 + reg.

Lemma field a lo n : 0 <= lo -> 0 <= n -> Z.land (Z.shiftr a lo) (2 ^ n - 1) = (a / 2 ^ lo) mod 2 ^ n.
Proof. intros. by rewrite land_ones_mod, Z.shiftr_div_pow2. Qed.

Lemma cam_bdf_addr dev func reg :
  0 <= dev < 32 -> 0 <= func < 8 -> 0 <= reg < 256 ->
  cam_bdf (cam_addr dev func reg) = (0, dev, func).
Proof.
  intros Hd Hf Hr. unfold cam_bdf.
  change 0xFF with (2 ^ 8 - 1). change 0x1F with (2 ^ 5 - 1). change 0x07 with (2 ^ 3 - 1).
  rewrite !field by lia. unfold cam_addr.
  change (2 ^ 31) with 2147483648. change (2 ^ 11) with 2048. change (2 ^ 8) with 256.
  change (2 ^ 16) with 65536. change (2 ^ 5) with 32. change (2 ^ 3) with 8.
  f_equal; [f_equal|]; (rewrite wrap_small; [|unfold is_word; change (2 ^ 8) with 256]);
    Z.div_mod_to_equations; lia.
Qed.

Lemma cam_enabled dev func reg :
  0 <= dev < 32 -> 0 <= func < 8 -> 0 <= reg < 256 ->
  (Z.land (cam_addr dev func reg) 0x80000000 =? 0) = false.
Proof.
  intros Hd Hf Hr. apply Z.eqb_neq. intros H.
  apply (f_equal (fun z => Z.testbit z 31)) in H. rewrite Z.land_spec in H.
  change (Z.testbit 0x80000000 31) with true in H. rewrite andb_true_r, Z.bits_0 in H.
  rewrite Z.testbit_false in H by lia. unfold cam_addr in H. revert H.
  change (2 ^ 31) with 2147483648. change (2 ^ 11) with 2048. change (2 ^ 8) with 256.
  Z.div_mod_to_equations. lia.
Qed.

Lemma cam_reg dev func reg :
  0 <= dev < 32 -> 0 <= func < 8 -> 0 <= reg < 256 ->
  u32 (Z.land (cam_addr dev func reg) 0xFC + (cam_port reg - 0xCFC)) = reg.
Proof.
  intros Hd Hf Hr.
  assert (E : Z.land (cam_addr dev func reg) 0xFC = reg - reg mod 4).
  { replace 0xFC with (Z.land (2 ^ 8 - 1) (lnotw 8 (2 ^ 2 - 1))) by done.
    rewrite Z.land_assoc, land_ones_mod by lia.
    rewrite land_align_down; [|lia|apply Z.mod_pos_bound; lia].
    unfold cam_addr. change (2 ^ 31) with 2147483648. change (2 ^ 11) with 2048.
    change (2 ^ 8) with 256. change (2 ^ 2) with 4. Z.div_mod_to_equations. lia. }
  rewrite E. unfold cam_port. rewrite wrap_small; [lia|]. unfold is_word.
  Z.div_mod_to_equations. lia.
Qed.

Lemma ecam_decode_addr dev func reg :
  0 <= dev < 32 -> 0 <= func < 8 -> 0 <= reg < 256 ->
  in_ecam (ecam_addr dev func reg) = true /\
  ecam_decode (ecam_addr dev func reg) = ((0, dev, func), reg).
Proof.
  intros Hd Hf Hr. unfold in_ecam, ecam_addr, ECAM_BASE, ECAM_SIZE. split.
  { apply in_range_spec. change (2 ^ 15) with 32768. change (2 ^ 12) with 4096. lia. }
  unfold ecam_decode, ECAM_BASE, ECAM_FUNCTION_SIZE.
  change 0xff with (2 ^ 8 - 1). change 0x1f with (2 ^ 5 - 1). change 0x07 with (2 ^ 3 - 1).
  rewrite !field by lia.
  change (2 ^ 15) with 32768. change (2 ^ 12) with 4096.
  rewrite (wrap_small 64) by (unfold is_word; lia).
  change (2 ^ 20) with 1048576. change (2 ^ 5) with 32. change (2 ^ 3) with 8.
  f_equal; [f_equal; [f_equal|]|]; (rewrite wrap_small; [|unfold is_word;
    change (2 ^ 8) with 256 || change (2 ^ 32) with 4294967296]);
    change (2 ^ 8) with 256; Z.div_mod_to_equations; lia.
Qed.

(** The configuration handlers do not look at CONFIG_ADDRESS. *)
Lemma config_write_addr b a bdf off data :
  config_write (set_config_addr b a) bdf off data = set_config_addr (config_write b bdf off data) a.
Proof.
  unfold config_write. destruct (bar_slot_for_offset off); simpl.
  - destruct (devices b !! bdf) as [e|]; [|done].
    destruct (find_bar (bars e) n) as [[i hi]|]; [|done].
    destruct (bars e !! i) as [x|]; [|done].
    destruct (bar_write (mmio64 b) x hi data); [done|done|].
    unfold move_doorbells_from. simpl. destruct (ioevents b); [|done].
    by destruct (move_each _ _ _ _ _ _).
  - by destruct (devices b !! bdf).
Qed.

Lemma config_read_addr b a bdf off data :
  config_read (set_config_addr b a) bdf off data =
  let '(b', out, ok) := config_read b bdf off data in (set_config_addr b' a, out, ok).
Proof.
  unfold config_read. case_bool_decide; [done|]. simpl.
  destruct (devices b !! bdf) as [e|]; [|done].
  destruct (bar_slot_for_offset off) as [n|].
  - destruct (find_bar (bars e) n) as [[i hi]|]; [|done].
    destruct (bars e !! i) as [x|]; [|done]. by destruct (bar_read_value x hi).
  - by destruct (read_config (device e) off data).
Qed.

(** The two configuration mechanisms are the same configuration space.  For
    every device, function and register of bus 0, writing CONFIG_ADDRESS and
    then accessing CONFIG_DATA has the same effect and returns the same bytes
    as the ECAM access of that register; the only difference is the latched
    CONFIG_ADDRESS. *)
Theorem cam_ecam_agree (b : Bus D R) (dev func reg : Z) (data : list Z)
    (Hd : 0 <= dev < 32) (Hf : 0 <= func < 8) (Hr : 0 <= reg < 256) :
  let a := cam_addr dev func reg in
  let b0 := (handle_pio_write b 0xCF8 (le_bytes 4 a)).1 in
  handle_pio_write b0 (cam_port reg) data =
    (set_config_addr (handle_mmio_write b (ecam_addr dev func reg) data).1 a, true) /\
  handle_pio_read b0 (cam_port reg) data =
    (let '(b', out, ok) := handle_mmio_read b (ecam_addr dev func reg) data in
     (set_config_addr b' a, out, ok)).
Proof.
  intros a b0.
  assert (Ha : 0 <= a < 2 ^ 32).
  { unfold a, cam_addr. change (2 ^ 31) with 2147483648. change (2 ^ 11) with 2048.
    change (2 ^ 8) with 256. Z.div_mod_to_equations. lia. }
  assert (Hb0 : b0 = set_config_addr b a).
  { unfold b0, handle_pio_write. cbn [in_range Z.leb Z.ltb Z.compare andb length Nat.eqb].
    rewrite length_le_bytes. cbn [Nat.eqb fst]. by rewrite of_le_le_bytes_small. }
  assert (Hp : in_range 0xCF8 0xCFC (cam_port reg) = false /\
               in_range 0xCFC 0xD00 (cam_port reg) = true).
  { unfold cam_port, in_range. pose proof (Z.mod_pos_bound reg 4). split.
    - apply andb_false_iff. right. apply Z.ltb_ge. lia.
    - apply andb_true_iff. rewrite Z.leb_le, Z.ltb_lt. lia. }
  destruct Hp as [Hp1 Hp2]. destruct (ecam_decode_addr dev func reg Hd Hf Hr) as [He1 He2].
  assert (Hlt : (reg <? 0x100) = true) by (apply Z.ltb_lt; lia).
  assert (Hge : (0x100 <=? reg) = false) by (apply Z.leb_gt; lia).
  unfold handle_pio_write, handle_pio_read, handle_mmio_write, handle_mmio_read.
  rewrite Hb0, Hp1, Hp2, He1, He2, Hlt, Hge. cbn [config_addr set_config_addr].
  unfold a. rewrite cam_enabled, cam_bdf_addr, cam_reg by done.
  rewrite config_write_addr, config_read_addr. split; [done|].
  by destruct (config_read b (0, dev, func) reg data) as [[b' out] []].
Qed.

(** * MMIO dispatch *)

Lemma mmio_find_hit (devs : gmap Bdf (PciDeviceEntry D)) rs a e bdf idx base :
  devs !! bdf = Some e -> is_word 64 a ->
  (forall a' s' bdf' i', (a', s', bdf', i') ∈ rs -> 0 <= a' /\ 0 <= s' /\ a' + s' < 2 ^ 64) ->
  (forall a' s' bdf' i', (a', s', bdf', i') ∈ rs -> a' <= a < a' + s' ->
     bdf' = bdf /\ i' = idx /\ a' = base) ->
  (exists a' s' bdf' i', (a', s', bdf', i') ∈ rs /\ a' <= a < a' + s') ->
  mmio_find devs a rs = Some (e, bdf, idx, a - base).
Proof.
  intros He Ha. induction rs as [|[[[a1 s1] b1] i1] rs IH]; intros Hb Hu (a' & s' & b' & i' & Hin & Hh);
    [by apply not_elem_of_nil in Hin|].
  simpl. destruct (Hb _ _ _ _ (list_elem_of_here _ _)) as (H1 & H2 & H3).
  rewrite (wrap_small 64 (a1 + s1)) by (unfold is_word; lia).
  destruct ((a1 <=? a) && (a <? a1 + s1)) eqn:E; bool_prop.
  - destruct (Hu _ _ _ _ (list_elem_of_here _ _)) as (-> & -> & ->); [lia|].
    rewrite He, wrap_small; [done|]. unfold is_word in *. lia.
  - apply IH.
    + intros. eapply Hb. by right.
    + intros ? ? ? ? Hr. eapply Hu. by right.
    + apply elem_of_cons in Hin as [[= -> -> -> ->]|Hin]; [lia|]. eauto 6.
Qed.

Lemma wf_region_bounds b a s bdf i :
  bus_wf b -> (a, s, bdf, i) ∈ mmio_regions b -> 0 <= a /\ 0 < s /\ a + s < 2 ^ 64 /\
  (a + s <= ECAM_BASE \/ ECAM_BASE + ECAM_SIZE <= a).
Proof.
  intros Hwf Hin. destruct (wf_region_bar _ _ _ _ _ Hwf Hin)
    as (x & ((k & Hk & Es) & _ & H1 & H2) & -> & -> & _).
  pose proof (Z.pow_pos_nonneg 2 k). pose proof (window_ok_lt _ (wf_window b Hwf)).
  destruct (wf_window b Hwf) as [? _].
  unfold window_of, MMIO_WINDOW_START, MMIO_WINDOW_END, ECAM_BASE, ECAM_SIZE in *.
  destruct (bar_type x); simpl in *; lia.
Qed.

(** MMIO reaches the right device at the right offset.  An access at offset
    [off] of a BAR, on a bus where no other region covers that address, is
    handed to that BAR's device as an access of BAR [bar_idx x] at [off], and
    nothing else on the bus changes; it is never taken for an ECAM access. *)
Theorem mmio_dispatch (b : Bus D R) (bdf : Bdf) (e : PciDeviceEntry D) (i : nat) (x : Bar)
    (off : Z) (data : list Z)
    (Hwf : bus_wf b) (He : devices b !! bdf = Some e) (Hx : bars e !! i = Some x)
    (Hoff : 0 <= off < size x)
    (Halone : forall a s bdf' j, (a, s, bdf', j) ∈ mmio_regions b ->
       a <= addr x + off < a + s -> bdf' = bdf /\ j = bar_idx x) :
  handle_mmio_read b (addr x + off) data =
    (let '(d', out, ok) := read_bar (device e) (bar_idx x) off data in
     (set_devices b (<[bdf := {| device := d'; bars := bars e |}]> (devices b)), out, ok)) /\
  handle_mmio_write b (addr x + off) data =
    (let '(d', ok) := write_bar (device e) (bar_idx x) off data in
     (set_devices b (<[bdf := {| device := d'; bars := bars e |}]> (devices b)), ok)).
Proof.
  assert (Hxin : x ∈ bars e) by (by eapply list_elem_of_lookup_2).
  assert (Hreg : (addr x, size x, bdf, bar_idx x) ∈ mmio_regions b).
  { apply (wf_regions b Hwf). by exists e, x. }
  destruct (wf_region_bounds _ _ _ _ _ Hwf Hreg) as (Hb0 & Hb1 & Hb2 & Hb3).
  assert (Hne : in_ecam (addr x + off) = false).
  { unfold in_ecam. apply not_true_iff_false. rewrite in_range_spec. lia. }
  assert (Ht : mmio_target b (addr x + off) = Some (e, bdf, bar_idx x, off)).
  { unfold mmio_target. replace off with (addr x + off - addr x) at 2 by lia.
    apply mmio_find_hit; [done|unfold is_word; lia|..].
    - intros a' s' bdf' i' Hin. destruct (wf_region_bounds _ _ _ _ _ Hwf Hin). lia.
    - intros a' s' bdf' i' Hin Hh. destruct (Halone _ _ _ _ Hin Hh) as [-> ->].
      split; [done|]. split; [done|].
      apply (wf_regions b Hwf) in Hin as (e1 & y & He1 & Hy & -> & -> & Eidx).
      assert (e1 = e) as -> by congruence. apply list_elem_of_lookup in Hy as [j Hj].
      destruct (wf_bars b Hwf _ _ He) as [_ Hsl].
      assert (j = i) as -> by (eapply slots_ok_idx_inj; eauto). congruence.
    - exists (addr x), (size x), bdf, (bar_idx x). split; [done|lia]. }
  unfold handle_mmio_read, handle_mmio_write. by rewrite Hne, Ht.
Qed.

(** * Doorbells *)

(** A kernel registration stands for a doorbell its device declares, at the
    doorbell's place in the BAR as the BAR is now. *)
Definition door_at b (r : RegisteredDoorbell) : Prop :=
  exists e x d, devices b !! rd_bdf r = Some e /\ x ∈ bars e /\ d ∈ doorbells (device e) /\
    bar_idx x = rd_bar_idx r /\ door_bar_idx d = rd_bar_idx r /\ rd_fd r = door_fd d /\
    rd_addr r = addr x + door_offset d /\ 0 <= door_offset d < size x.

(** Nothing is registered before there is a registrar, and every registration
    lies inside its BAR. *)
Definition doors_ok b : Prop :=
  (ioevents b = None -> registered b = []) /\ Forall (door_at b) (registered b).

Definition reliable : Prop := forall (r : R) a fd, (register r a fd).2 = true.

(** A device's doorbells do not change while it is in use. *)
Class DoorbellsFixed : Prop := {
  df_read_config (d : D) o data : doorbells (read_config d o data).1 = doorbells d;
  df_write_config (d : D) o data : doorbells (write_config d o data) = doorbells d;
  df_read_bar (d : D) i o data : doorbells (read_bar d i o data).1.1 = doorbells d;
  df_write_bar (d : D) i o data : doorbells (write_bar d i o data).1 = doorbells d
}.

(** A device declares doorbells inside its own BARs. *)
Definition doors_in_bars (dev : D) : Prop :=
  Forall (fun d => 0 <= door_offset d < bar_size dev (door_bar_idx d)) (doorbells dev).

Lemma register_each_inside b bdf bs doors reg acc :
  Forall (door_at b) acc ->
  (forall d base j, d ∈ doors ->
     list_find (fun p : nat * Z => p.1 = door_bar_idx d) bs = Some (j, (door_bar_idx d, base)) ->
     door_at b {| rd_bdf := bdf; rd_bar_idx := door_bar_idx d; rd_addr := base ⊕ door_offset d;
                      rd_fd := door_fd d |}) ->
  Forall (door_at b) (register_each bdf bs doors reg acc).2.
Proof.
  revert reg acc. induction doors as [|d doors IH]; intros reg acc Hacc Hd; simpl; [done|].
  destruct (list_find _ bs) as [[j [idx base]]|] eqn:Ef.
  - destruct (register reg (base ⊕ door_offset d) (door_fd d)) as [reg' ok].
    apply IH.
    + destruct ok; [|done]. apply Forall_app_2, Forall_singleton; [done|].
      pose proof Ef as Ef'. apply list_find_Some in Ef' as (_ & Eidx & _). simpl in Eidx. subst idx.
      eapply Hd; [by left|exact Ef].
    + intros d' base' j' Hin. eapply Hd. by right.
  - apply IH; [done|]. intros d' base' j' Hin. eapply Hd. by right.
Qed.

Lemma door_at_mono b b' r :
  (forall e x, devices b !! rd_bdf r = Some e -> x ∈ bars e -> bar_idx x = rd_bar_idx r ->
     exists e' x', devices b' !! rd_bdf r = Some e' /\ x' ∈ bars e' /\
       doorbells (device e') = doorbells (device e) /\
       bar_idx x' = bar_idx x /\ addr x' = addr x /\ size x' = size x) ->
  door_at b r -> door_at b' r.
Proof.
  intros Hm (e & x & d & He & Hx & Hd & Ei & Ha).
  destruct (Hm e x He Hx Ei) as (e' & x' & He' & Hx' & E0 & E1 & E2 & E3).
  exists e', x', d. rewrite E0, E1, E2, E3. auto.
Qed.

(** Changing a device's state, or sizing flags, leaves every doorbell inside. *)
Lemma doors_same_geom b bdf e e' :
  devices b !! bdf = Some e -> geom <$> bars e' = geom <$> bars e ->
  doorbells (device e') = doorbells (device e) -> doors_ok b ->
  doors_ok (set_devices b (<[bdf := e']> (devices b))).
Proof.
  intros He Hg Eds [Hn Hd]. split; [exact Hn|]. eapply Forall_impl; [exact Hd|]. intros r. simpl.
  apply door_at_mono. intros e1 x He1 Hx Ei. simpl. rewrite lookup_insert. case_decide as Hb.
  - rewrite <- Hb in He1. assert (e1 = e) as -> by congruence.
    destruct (geom_elem _ _ _ Hg Hx) as (y & Hy & [= E1 E2 E3 E4]). by exists e', y.
  - by exists e1, x.
Qed.

Lemma move_each_inside b b' bdf idx from to_ l reg :
  reliable -> Forall (door_at b) l ->
  (forall r, ~ (rd_bdf r = bdf /\ rd_bar_idx r = idx) -> door_at b r -> door_at b' r) ->
  (forall r, rd_bdf r = bdf -> rd_bar_idx r = idx -> door_at b r ->
     from <= rd_addr r /\
     door_at b' {| rd_bdf := rd_bdf r; rd_bar_idx := rd_bar_idx r;
                       rd_addr := to_ ⊕ (rd_addr r - from); rd_fd := rd_fd r |}) ->
  Forall (door_at b') (move_each bdf idx from to_ l reg).2.
Proof.
  intros Hrel Hl Hother Hmoved. revert reg.
  induction Hl as [|r l Hr Hl IH]; intros reg; simpl; [constructor|].
  case_bool_decide as Hb; destruct (Nat.eqb_spec (rd_bar_idx r) idx) as [Hi|Hi]; simpl;
    try (destruct (move_each bdf idx from to_ l reg) as [reg' rest] eqn:Em;
         specialize (IH reg); rewrite Em in IH; constructor; [|done]; apply Hother; tauto).
  destruct (Hmoved r Hb Hi Hr) as [Hle Hin]. unfold saturating_sub. rewrite Z.max_r by lia.
  destruct (_ =? rd_addr r) eqn:Eq; bool_prop.
  - destruct (move_each bdf idx from to_ l reg) as [reg' rest] eqn:Em.
    specialize (IH reg). rewrite Em in IH. constructor; [|done].
    rewrite Eq in Hin. by destruct r.
  - destruct (unregister reg (rd_addr r) (rd_fd r)) as [reg1 ok1].
    pose proof (Hrel reg1 (to_ ⊕ (rd_addr r - from)) (rd_fd r)) as Hok.
    destruct (register reg1 _ _) as [reg2 ok2]. simpl in Hok. subst ok2.
    destruct (move_each bdf idx from to_ l reg2) as [reg3 rest] eqn:Em.
    specialize (IH reg2). rewrite Em in IH. by constructor.
Qed.

Section Fixed.
Context {HF : DoorbellsFixed}.

Lemma config_write_doors b bdf off data :
  reliable -> bus_wf b -> doors_ok b -> doors_ok (config_write b bdf off data).
Proof.
  intros Hrel Hwf Hok0. pose proof Hok0 as [Hn Hd].
  destruct (config_write_cases b bdf off data Hwf)
    as [->|[(e & e' & He & Hg & Hdv & ->)|(e & i & x & hi & to_ & He & Hx & _ & Hok & ->)]];
    [done|eapply doors_same_geom; [done..| |done]; by destruct Hdv as [->| ->];
          rewrite ?df_write_config|].
  set (b1 := set_mmio_regions _ _).
  assert (Hwf1 : bus_wf b1) by (by apply wf_move).
  destruct (wf_bars b Hwf _ _ He) as [_ Hsl].
  assert (Hlt : (i < length (bars e))%nat) by (by eapply lookup_lt_Some).
  set (e1 := {| device := device e; bars := <[i := set_addr x to_]> (bars e) |}).
  assert (He1 : devices b1 !! bdf = Some e1) by apply lookup_insert_eq.
  assert (Hx1 : bars e1 !! i = Some (set_addr x to_)) by (by apply list_lookup_insert_eq).
  assert (Hother : forall r, ~ (rd_bdf r = bdf /\ rd_bar_idx r = bar_idx x) ->
    door_at b r -> door_at b1 r).
  { intros r Hne. apply door_at_mono. intros e0 y He0 Hy Ei. simpl. rewrite lookup_insert.
    case_decide as Hb; [|by exists e0, y]. rewrite <- Hb in He0.
    assert (e0 = e) as -> by congruence. exists e1, y. split; [done|]. split; [|done].
    apply list_elem_of_lookup in Hy as [j Hj]. apply list_elem_of_lookup. exists j. simpl.
    rewrite list_lookup_insert_ne; [done|]. intros <-. assert (y = x) as -> by congruence.
    apply Hne. split; [done|congruence]. }
  assert (Hmoved : forall r, rd_bdf r = bdf -> rd_bar_idx r = bar_idx x -> door_at b r ->
    addr x <= rd_addr r /\ door_at b1 {| rd_bdf := rd_bdf r; rd_bar_idx := rd_bar_idx r;
      rd_addr := to_ ⊕ (rd_addr r - addr x); rd_fd := rd_fd r |}).
  { intros r Hrb Hri (e0 & y & d & He0 & Hy & Hin & Ei & Ed & Ef & Ea & Ho). rewrite Hrb in He0.
    assert (e0 = e) as -> by congruence. apply list_elem_of_lookup in Hy as [j Hj].
    assert (j = i) as -> by (eapply slots_ok_idx_inj; eauto; congruence).
    assert (y = x) as -> by congruence. split; [lia|].
    destruct (wf_region_bounds b1 to_ (size x) bdf (bar_idx x) Hwf1) as (B1 & B2 & B3 & _).
    { apply (wf_regions b1 Hwf1). exists e1, (set_addr x to_).
      split; [done|]. split; [by eapply list_elem_of_lookup_2|done]. }
    exists e1, (set_addr x to_), d. simpl. rewrite Hrb. split; [done|].
    split; [by eapply list_elem_of_lookup_2|]. do 4 (split; [done|]).
    rewrite wrap_small by (unfold is_word; lia). lia. }
  unfold move_doorbells_from, doors_ok. change (ioevents b1) with (ioevents b).
  change (registered b1) with (registered b). destruct (ioevents b) as [reg|] eqn:Eio.
  - pose proof (move_each_inside b b1 bdf (bar_idx x) (addr x) to_ (registered b) reg
      Hrel Hd Hother Hmoved) as Hm.
    destruct (move_each _ _ _ _ _ _) as [reg' acc]. by split.
  - change (ioevents b1) with (ioevents b). change (registered b1) with (registered b).
    rewrite (Hn eq_refl). by split.
Qed.

Lemma config_read_doors b bdf off data : doors_ok b -> doors_ok (config_read b bdf off data).1.1.
Proof.
  intros Hd. unfold config_read. case_bool_decide; [done|].
  destruct (devices b !! bdf) as [e|] eqn:He; [|done].
  destruct (bar_slot_for_offset off) as [slot|].
  - destruct (find_bar (bars e) slot) as [[i hi]|]; [|done].
    destruct (bars e !! i) as [x|] eqn:Hx; [|done].
    pose proof (bar_read_geom x hi) as Hg. destruct (bar_read_value x hi) as [x' v]. simpl in *.
    eapply doors_same_geom; [done| |done|done]. simpl. by eapply geom_update.
  - pose proof (df_read_config (device e) off data) as Hf.
    destruct (read_config (device e) off data) as [d' out]. simpl. by eapply doors_same_geom.
Qed.

Lemma add_device_doors b dev b' bdf :
  bus_wf b -> sizes_ok dev -> doors_in_bars dev -> add_device_arc b dev = inr (b', bdf) ->
  doors_ok b -> doors_ok b'.
Proof.
  intros Hwf Hs Hdb Ha [Hn Hd]. pose proof (add_device_wf _ _ _ _ Hwf Hs Ha) as Hwf'.
  destruct (add_device_spec _ _ _ _ Hwf Hs Ha)
    as (bs & _ & Hnone & _ & Hdev & Hreg & _ & (b1 & Eb' & Er & Eio) & Hsz & _).
  assert (Hold : Forall (door_at b') (registered b)).
  { eapply Forall_impl; [exact Hd|]. intros r. apply door_at_mono. intros e x He Hx _.
    exists e, x. rewrite Hdev, lookup_insert. case_decide; [congruence|done]. }
  assert (Hnew : forall d base j, d ∈ doorbells dev ->
    list_find (fun p : nat * Z => p.1 = door_bar_idx d) ((fun x => (bar_idx x, addr x)) <$> bs)
      = Some (j, (door_bar_idx d, base)) ->
    door_at b' {| rd_bdf := bdf; rd_bar_idx := door_bar_idx d; rd_addr := base ⊕ door_offset d;
                      rd_fd := door_fd d |}).
  { intros d base j Hin Hf. apply list_find_Some in Hf as (Hl & _ & _).
    rewrite list_lookup_fmap in Hl. destruct (bs !! j) as [x|] eqn:Hx; [|done].
    injection Hl as Ei Ea. apply list_elem_of_lookup_2 in Hx.
    rewrite Forall_forall in Hsz. pose proof (Hsz x Hx) as Esz.
    unfold doors_in_bars in Hdb. rewrite Forall_forall in Hdb. pose proof (Hdb d Hin) as Hdo.
    destruct (wf_region_bounds b' (addr x) (size x) bdf (bar_idx x) Hwf') as (B1 & B2 & B3 & _).
    { rewrite Hreg. apply elem_of_app. right. apply list_elem_of_fmap. by exists x. }
    eexists _, x, d. rewrite Hdev, lookup_insert_eq. do 6 (split; [done|]).
    simpl. rewrite <- Ei, <- Esz in Hdo. rewrite <- Ea.
    rewrite wrap_small by (unfold is_word; lia). lia. }
  unfold register_doorbells in Eb'. destruct (doorbells dev) as [|d ds] eqn:Eds.
  { subst b1. split; [rewrite Eio, Er; exact Hn|by rewrite Er]. }
  destruct (ioevents b1) as [reg|] eqn:E1.
  - pose proof (register_each_inside b' bdf _ (d :: ds) reg (registered b1)
      ltac:(by rewrite Er) Hnew) as Hall.
    destruct (register_each _ _ _ _ _) as [reg' acc]. subst b'. by split.
  - subst b1. rewrite <- Eio in Hn. split; rewrite Er; [intros _; by apply Hn|done].
Qed.

Lemma bus_step_doors b b' :
  reliable -> bus_step doors_in_bars b b' -> bus_wf b -> doors_ok b -> doors_ok b'.
Proof.
  intros Hrel Hstep Hwf Hd. destruct Hstep as [b r|b dev b' bdf Hs Hp Ha|b port data|b port data|b a data|b a data].
  - by split; [|apply Hd].
  - by eapply add_device_doors.
  - unfold handle_pio_write. case_match; [by case_match|]. case_match; [|done].
    case_match; [done|]. by apply config_write_doors.
  - unfold handle_pio_read. case_match; [done|]. case_match; [|done]. case_match; [done|].
    set (reg := u32 _). pose proof (config_read_doors b (cam_bdf (config_addr b)) reg data Hd) as Hr.
    destruct (config_read _ _ reg data) as [[b' out] []]; done.
  - unfold handle_mmio_write. destruct (in_ecam a).
    + destruct (ecam_decode a) as [bdf reg]. case_match; [by apply config_write_doors|done].
    + destruct (mmio_target b a) as [[[[e bdf] idx] off]|] eqn:Et; [|done].
      apply mmio_target_device in Et. pose proof (df_write_bar (device e) idx off data) as Hf.
      destruct (write_bar _ _ _ _). simpl. by eapply doors_same_geom.
  - unfold handle_mmio_read. destruct (in_ecam a).
    + destruct (ecam_decode a) as [bdf reg]. case_match; [done|].
      pose proof (config_read_doors b bdf reg data Hd) as Hr.
      destruct (config_read b bdf reg data) as [[b' out] []]; done.
    + destruct (mmio_target b a) as [[[[e bdf] idx] off]|] eqn:Et; [|done].
      apply mmio_target_device in Et. pose proof (df_read_bar (device e) idx off data) as Hf.
      destruct (read_bar _ _ _ _) as [[d' o] ok]. simpl.
      by eapply doors_same_geom.
Qed.

End Fixed.

(** C17: The kernel never signals a doorbell for somebody else's address.  With a
    kernel that accepts every registration and devices whose (unchanging)
    doorbells lie inside their BARs, every registration at any reachable state
    is a doorbell its device declares, with that doorbell's eventfd, at exactly
    its offset from where the BAR is now: moving a BAR, through either
    configuration mechanism and through the half-written states of a 64-bit
    move, takes its doorbells along. *)
Theorem doorbells_inside_bars (w : Mmio64Window) (b : Bus D R)
    (Hw : window_ok w) (Hrel : reliable) (Hfix : DoorbellsFixed)
    (Hreach : rtc (bus_step doors_in_bars) (Bus_new w) b) :
  Forall (door_at b) (registered b).
Proof.
  assert (Hboth : bus_wf b /\ doors_ok b); [|apply Hboth].
  assert (H0 : bus_wf (Bus_new (D := D) (R := R) w) /\ doors_ok (Bus_new (D := D) (R := R) w)).
  { split; [by apply bus_new_wf|]. by split; [|constructor]. }
  revert Hreach H0. generalize (Bus_new (D := D) (R := R) w). intros b0 Hr.
  induction Hr as [|b0 b1 b2 Hs _ IH]; [done|]. intros [Hwf Hd]. apply IH.
  eauto using bus_step_wf, bus_step_doors.
Qed.

End Paths.
