(* ===== verification/PciBusRun.v ===== *)
(** The bus on concrete devices: the device and registrar of the bus's own tests
    added, sized, moved and accessed, each run an instance of a theorem of
    [PciBusFacts], [PciBusAccess] or [PciBusPaths]; and what a refused doorbell
    registration does to the next move. *)

From S2P Require Import Prelude PciBus PciBusFacts PciBusAccess PciBusPaths.

(** Two BARs, a 32-bit one with a doorbell and a 64-bit one. *)
Definition net_like : FakeDevice :=
  {| fk_bars := [(0x4000, Mem32); (0, Mem32); (0x100000, Mem64)];
     fk_doors := [{| door_bar_idx := 0; door_offset := 0x300; door_fd := 7 |}] |}.

Abbreviation TestBus := (Bus FakeDevice RecordingRegistrar).

Definition added (b : TestBus) (d : FakeDevice) : TestBus :=
  match add_device_arc b d with inr (b', _) => b' | inl _ => b end.

Definition bus1 : TestBus := set_ioevent_registrar (Bus_new TEST_MMIO64) [].
Definition bus2 : TestBus := added bus1 net_like.
Definition bus3 : TestBus := added bus2 net_like.
(** The guest moves BAR 0 of the first device through ECAM. *)
Definition bus4 : TestBus :=
  (handle_mmio_write bus3 (ecam_addr 1 0 0x10) (le_bytes 4 0xD0000000)).1.

Definition bdf1 : Bdf := (0, 1, 0).
Definition bdf2 : Bdf := (0, 2, 0).

Lemma net_like_sizes : sizes_ok net_like.
Proof. apply fake_sizes_ok. repeat constructor; simpl; lia. Qed.

Lemma fake_doors_fixed : DoorbellsFixed (D := FakeDevice).
Proof. by split. Qed.

Lemma net_like_doors : doors_in_bars net_like.
Proof. repeat constructor; simpl; lia. Qed.

Lemma recording_reliable : reliable (R := RecordingRegistrar).
Proof. done. Qed.

Lemma reach4 (P : FakeDevice -> Prop) : P net_like -> rtc (bus_step P) (Bus_new TEST_MMIO64) bus4.
Proof.
  intros HP. eapply rtc_l; [apply step_registrar|]. fold bus1.
  eapply rtc_l; [apply (step_add P bus1 net_like bus2 bdf1 net_like_sizes HP); by vm_compute|].
  eapply rtc_l; [apply (step_add P bus2 net_like bus3 bdf2 net_like_sizes HP); by vm_compute|].
  eapply rtc_l; [apply step_mmio_write|]. apply rtc_refl.
Qed.

Lemma bus4_wf : bus_wf bus4.
Proof. apply (reachable_wf (fun _ => True) _ _ test_window_ok). by apply reach4. Qed.

Lemma bus3_wf : bus_wf bus3.
Proof.
  apply (reachable_wf (fun _ => True) TEST_MMIO64); [apply test_window_ok|].
  eapply rtc_l; [apply step_registrar|]. fold bus1.
  eapply rtc_l; [apply (step_add _ bus1 net_like bus2 bdf1 net_like_sizes I); by vm_compute|].
  eapply rtc_l; [apply (step_add _ bus2 net_like bus3 bdf2 net_like_sizes I); by vm_compute|].
  apply rtc_refl.
Qed.

(** After the move: BAR 0 is at its new address, and the recorded kernel calls
    took the doorbell along. *)
Example bus4_bars :
  bar_address bus4 bdf1 0 = Some 0xD0000000 /\ bar_address bus4 bdf1 2 = Some 0x7C00000000 /\
  bar_address bus4 bdf2 0 = Some 0xC0004000 /\
  ioevents bus4 = Some [(true, 0xC0000300); (true, 0xC0004300);
                        (false, 0xC0000300); (true, 0xD0000300)].
Proof. by vm_compute. Qed.

Lemma bus_invariant_witness : bus_wf bus4.
Proof. apply (bus_invariant TEST_MMIO64); [apply test_window_ok|]. by apply reach4. Defined.

Definition bus5 : TestBus := added bus4 net_like.

Lemma add_device_disjoint_witness :
  exists e, devices bus5 !! (0, 3, 0) = Some e /\
    forall x a s bdf' i, x ∈ bars e -> (a, s, bdf', i) ∈ mmio_regions bus4 ->
       addr x + size x <= a \/ a + s <= addr x.
Proof.
  assert (Hadd : add_device_arc bus4 net_like = inr (bus5, (0, 3, 0))) by (by vm_compute).
  destruct (add_device_disjoint bus4 bus5 net_like (0, 3, 0) bus4_wf net_like_sizes Hadd)
    as (e & He & Hd & _). exact (ex_intro _ e (conj He Hd)).
Defined.

Definition entry_of (b : TestBus) (bdf : Bdf) : PciDeviceEntry FakeDevice :=
  default {| device := net_like; bars := [] |} (devices b !! bdf).

Definition bar_at (b : TestBus) (bdf : Bdf) (i : nat) : Bar :=
  default {| bar_idx := 0; addr := 0; size := 0; bar_type := Mem32; probing_lo := false;
             probing_hi := false |} (bars (entry_of b bdf) !! i).

Lemma sizing_reports_size_witness :
  let b2 := write_reg (write_reg bus4 bdf1 0x18 0xFFFFFFFF) bdf1 0x1C 0xFFFFFFFF in
  let '(b3, m_lo) := read_reg b2 bdf1 0x18 in
  let '(b4, m_hi) := read_reg b3 bdf1 0x1C in
  decode_size 64 (Z.lor m_lo (Z.shiftl m_hi 32)) = 0x100000 /\ b4 = bus4.
Proof.
  exact (sizing_reports_size bus4 bdf1 (entry_of bus4 bdf1) 1 (bar_at bus4 bdf1 1) bus4_wf
    ltac:(by vm_compute) ltac:(by vm_compute) ltac:(by vm_compute) ltac:(by vm_compute)
    ltac:(by vm_compute)).
Defined.

Lemma bar_program_moves_witness :
  let b' := program_bar bus4 bdf1 (bar_at bus4 bdf1 1) 0x7D00000000 in
  bus_wf b' /\ bar_address b' bdf1 2 = Some 0x7D00000000.
Proof.
  assert (Hi : bar_idx (bar_at bus4 bdf1 1) = 2%nat) by (by vm_compute).
  assert (He : devices bus4 !! bdf1 = Some (entry_of bus4 bdf1)) by (by vm_compute).
  assert (Hx : bars (entry_of bus4 bdf1) !! 1%nat = Some (bar_at bus4 bdf1 1)) by (by vm_compute).
  assert (Hs : 16 <= size (bar_at bus4 bdf1 1)) by (by vm_compute).
  assert (Hal : 0x7D00000000 mod size (bar_at bus4 bdf1 1) = 0) by (by vm_compute).
  assert (Hw : in_range (window_of (mmio64 bus4) (bar_type (bar_at bus4 bdf1 1))).1
    (window_of (mmio64 bus4) (bar_type (bar_at bus4 bdf1 1))).2 0x7D00000000 = true)
    by (by vm_compute).
  assert (Hg : start (mmio64 bus4) mod 2 ^ 32 = 0 /\ end_ (mmio64 bus4) mod 2 ^ 32 = 0)
    by (split; vm_compute; reflexivity).
  destruct (bar_program_moves bus4 bdf1 _ 1 _ 0x7D00000000 bus4_wf He Hx Hs Hal Hw Hg)
    as (Hwf & Ha & _).
  rewrite Hi in Ha. exact (conj Hwf Ha).
Defined.

Lemma cam_ecam_agree_witness :
  let a := cam_addr 1 0 0x10 in
  let b0 := (handle_pio_write bus4 0xCF8 (le_bytes 4 a)).1 in
  handle_pio_write b0 0xCFC (le_bytes 4 0xC8000000) =
    (set_config_addr
       (handle_mmio_write bus4 (ecam_addr 1 0 0x10) (le_bytes 4 0xC8000000)).1 a, true).
Proof. by apply (cam_ecam_agree bus4 1 0 0x10 (le_bytes 4 0xC8000000)); lia. Defined.

Lemma mmio_dispatch_witness :
  (handle_mmio_write bus4 0xD0000300 [1; 2]).2 = true /\
  (handle_mmio_read bus4 0xD0000300 [1; 2]).2 = true.
Proof.
  destruct (mmio_dispatch bus4 bdf1 (entry_of bus4 bdf1) 0 (bar_at bus4 bdf1 0) 0x300 [1; 2] bus4_wf)
    as [Hr Hw]; [by vm_compute..| |].
  - assert (E : mmio_regions bus4 = [(0xD0000000, 0x4000, bdf1, 0%nat);
      (0x7C00000000, 0x100000, bdf1, 2%nat); (0xC0004000, 0x4000, bdf2, 0%nat);
      (0x7C00100000, 0x100000, bdf2, 2%nat)]) by (by vm_compute).
    assert (Ea : addr (bar_at bus4 bdf1 0) = 0xD0000000) by (by vm_compute).
    assert (Ei : bar_idx (bar_at bus4 bdf1 0) = 0%nat) by (by vm_compute).
    rewrite E, Ea, Ei. clear E Ea Ei.
    intros a s bdf' j Hin Hh. rewrite !elem_of_cons, elem_of_nil in Hin.
    destruct Hin as [Hin|[Hin|[Hin|[Hin|[]]]]]; injection Hin as -> -> -> ->; (done || lia).
  - assert (Ea : addr (bar_at bus4 bdf1 0) = 0xD0000000) by (by vm_compute).
    rewrite Ea in Hr, Hw. change (0xD0000000 + 0x300) with 0xD0000300 in Hr, Hw.
    rewrite Hr, Hw. split; reflexivity.
Defined.

Lemma doorbells_inside_bars_witness : Forall (door_at bus4) (registered bus4).
Proof.
  apply (doorbells_inside_bars TEST_MMIO64); [apply test_window_ok|apply recording_reliable|apply fake_doors_fixed|].
  apply reach4, net_like_doors.
Defined.

(** * A refused registration *)

Section Refused.
Context {R : Type} {HR : IoeventRegistrar R}.

(** A doorbell whose re-registration the kernel refuses loses its place in
    the BAR.  The doorbell sits at offset [off] of a BAR; the BAR moves from
    [a] to [b'] and the kernel refuses, then it moves on to [c] and the kernel
    accepts.  The entry still held the address of the first place, so the
    offset is computed against the wrong base and the kernel is given an
    address other than [c + off], the one the device's notifications arrive
    at.  Nothing later repairs it. *)
Theorem refused_move_loses_offset (reg reg1 reg2 reg3 reg4 : R) (bdf : Bdf) (idx : nat)
    (a b' c off fd : Z) (ok1 ok2 : bool)
    (Hoff : 0 < off) (Ha : 0 <= a) (Hao : a + off < 2 ^ 64) (Hb : 0 <= b') (Hbo : b' + off < 2 ^ 64)
    (Hc : 0 <= c) (Hco : c + a + off < 2 ^ 64) (Hab : a <> b')
    (Hfar : saturating_sub (a + off) b' + c <> a + off)
    (Hun1 : unregister reg (a + off) fd = (reg1, ok1))
    (Hre1 : register reg1 (b' + off) fd = (reg2, false))
    (Hun2 : unregister reg2 (a + off) fd = (reg3, ok2))
    (Hre2 : register reg3 (c + saturating_sub (a + off) b') fd = (reg4, true)) :
  let entry := {| rd_bdf := bdf; rd_bar_idx := idx; rd_addr := a + off; rd_fd := fd |} in
  let '(r1, l1) := move_each bdf idx a b' [entry] reg in
  let '(_, l2) := move_each bdf idx b' c l1 r1 in
  exists entry', l2 = [entry'] /\ rd_addr entry' <> c + off.
Proof.
  assert (Hs : saturating_sub (a + off) a = off) by (unfold saturating_sub; lia).
  assert (Hs2 : 0 <= saturating_sub (a + off) b' <= a + off /\
                saturating_sub (a + off) b' <> off) by (unfold saturating_sub; lia).
  cbn [move_each rd_bdf rd_bar_idx rd_addr rd_fd].
  rewrite bool_decide_eq_true_2, Nat.eqb_refl by done. cbn [negb orb]. rewrite Hs.
  rewrite (wrap_small 64 (b' + off)) by (unfold is_word; lia).
  rewrite (proj2 (Z.eqb_neq (b' + off) (a + off))) by lia. rewrite Hun1, Hre1.
  cbn [move_each rd_bdf rd_bar_idx rd_addr rd_fd].
  rewrite bool_decide_eq_true_2, Nat.eqb_refl by done. cbn [negb orb].
  rewrite (wrap_small 64 (c + _)) by (unfold is_word; lia).
  rewrite (proj2 (Z.eqb_neq (c + _) (a + off))) by lia. rewrite Hun2, Hre2.
  eexists. split; [done|]. simpl. lia.
Qed.

End Refused.

(** A kernel whose answers are given in advance. *)
Record ScriptedRegistrar := { script : list bool; calls : list (bool * Z) }.

#[export] Instance ScriptedRegistrar_reg : IoeventRegistrar ScriptedRegistrar := {
  register r a _ :=
    ({| script := tail (script r); calls := calls r ++ [(true, a)] |}, hd true (script r));
  unregister r a _ := ({| script := script r; calls := calls r ++ [(false, a)] |}, true)
}.

Lemma refused_move_loses_offset_witness :
  let reg := {| script := [false]; calls := [] |} in
  let entry := {| rd_bdf := bdf1; rd_bar_idx := 0; rd_addr := 0xC0000300; rd_fd := 7 |} in
  let '(r1, l1) := move_each bdf1 0 0xC0000000 0xD0000000 [entry] reg in
  let '(_, l2) := move_each bdf1 0 0xD0000000 0xC8000000 l1 r1 in
  exists entry', l2 = [entry'] /\ rd_addr entry' <> 0xC8000300.
Proof.
  apply (refused_move_loses_offset {| script := [false]; calls := [] |}
    {| script := [false]; calls := [(false, 0xC0000300)] |}
    {| script := []; calls := [(false, 0xC0000300); (true, 0xD0000300)] |}
    {| script := []; calls := [(false, 0xC0000300); (true, 0xD0000300); (false, 0xC0000300)] |}
    {| script := []; calls := [(false, 0xC0000300); (true, 0xD0000300); (false, 0xC0000300);
                              (true, 0xC8000000)] |}
    bdf1 0 0xC0000000 0xD0000000 0xC8000000 0x300 7 true true);
    (vm_compute; done) || lia.
Defined.

(** Through the bus: after the refused move and the next one the kernel answers
    at offset 0 of the BAR, the device listens at offset 0x300. *)
Definition scripted_bus : Bus FakeDevice ScriptedRegistrar :=
  let b := set_ioevent_registrar (Bus_new TEST_MMIO64)
             {| script := [true; false; true]; calls := [] |} in
  let b := match add_device_arc b net_like with inr (b', _) => b' | inl _ => b end in
  let b := write_reg b bdf1 0x10 0xD0000000 in
  write_reg b bdf1 0x10 0xC8000000.

Example scripted_bus_doorbell :
  bar_address scripted_bus bdf1 0 = Some 0xC8000000 /\
  registered scripted_bus =
    [{| rd_bdf := bdf1; rd_bar_idx := 0; rd_addr := 0xC8000000; rd_fd := 7 |}].
Proof. by vm_compute. Qed.
