(* ===== verification/GuestMem.v ===== *)
(** Guest RAM as the devices see it.

    [GuestMemoryMmap] belongs to the [vm-memory] crate, so it is a parameter:
    the class [GuestMemory] has the accessors the devices call, and
    [GuestMemoryLaws] the documented behaviour the proofs rely on.  [FlatRam],
    one zero-based region like the one the sources' tests map, is an instance
    of both, on which the witnesses run. *)

From S2P Require Import Prelude.

Class GuestMemory (M : Type) := {
  (** [read_obj]/[read_slice] of [n] bytes; [None] is the error. *)
  read_slice : M -> Z -> nat -> option (list Z);
  (** [write_obj]/[write_slice]; the flag is false on an error, and the bytes of
      a prefix of the range may have been written then. *)
  write_slice : M -> Z -> list Z -> M * bool;
  (** [get_slice]: is the range inside a single region? *)
  get_slice : M -> Z -> Z -> bool
}.

(** Two byte ranges with no byte in common. *)
Definition apart (a n b m : Z) : Prop := a + n <= b \/ b + m <= a.

Class GuestMemoryLaws (M : Type) `{GuestMemory M} : Prop := {
  read_length m a n l : read_slice m a n = Some l -> length l = n;
  read_bytes m a n l : read_slice m a n = Some l -> Forall is_byte l;
  (** A range that can be read can be written. *)
  write_ok m a l : is_Some (read_slice m a (length l)) -> (write_slice m a l).2 = true;
  read_written m a l :
    (write_slice m a l).2 = true -> Forall is_byte l ->
    read_slice (write_slice m a l).1 a (length l) = Some l;
  (** A write, successful or not, leaves the rest of memory alone. *)
  read_apart m a l b n :
    apart a (Z.of_nat (length l)) b (Z.of_nat n) ->
    read_slice (write_slice m a l).1 b n = read_slice m b n;
  (** Writing does not change what is mapped. *)
  read_mapped m a l b n :
    is_Some (read_slice (write_slice m a l).1 b n) <-> is_Some (read_slice m b n);
  (** A range is mapped when its parts are, and holds their bytes. *)
  read_split m a n1 n2 l :
    read_slice m a (n1 + n2) = Some l ->
    read_slice m a n1 = Some (take n1 l) /\
    read_slice m (a + Z.of_nat n1) n2 = Some (drop n1 l);
  (** A slice of one region is readable; the bounds of a region are fixed. *)
  slice_readable m a n : get_slice m a n = true -> 0 <= n -> is_Some (read_slice m a (Z.to_nat n));
  slice_stable m a l b n : get_slice (write_slice m a l).1 b n = get_slice m b n
}.

Section Objects.
Context {M : Type} {HM : GuestMemory M}.
Implicit Types (m : M) (a : Z).

(** [mem.read_obj::<uN>(a).map(uN::from_le)], [n] bytes wide. *)
Definition read_le m a (n : nat) : option Z := of_le <$> read_slice m a n.
(** [mem.write_obj(uN::to_le(v), a)], the error dropped. *)
Definition write_le m a (n : nat) (v : Z) : M := (write_slice m a (le_bytes n v)).1.

Context {HL : GuestMemoryLaws M}.

Lemma read_le_range m a n v : read_le m a n = Some v -> is_word (8 * Z.of_nat n) v.
Proof.
  unfold read_le. intros (l & El & ->)%fmap_Some.
  pose proof (of_le_range l (read_bytes _ _ _ _ El)) as Hr.
  by rewrite (read_length _ _ _ _ El) in Hr.
Qed.

Lemma read_le_mapped m a n : is_Some (read_le m a n) <-> is_Some (read_slice m a n).
Proof. unfold read_le. by rewrite fmap_is_Some. Qed.

Lemma write_le_read m a n v :
  is_Some (read_le m a n) -> is_word (8 * Z.of_nat n) v -> read_le (write_le m a n v) a n = Some v.
Proof.
  intros Hr Hv. unfold read_le, write_le.
  pose proof (read_written m a (le_bytes n v)) as Hw. rewrite length_le_bytes in Hw.
  rewrite Hw; [|apply write_ok; rewrite length_le_bytes; by apply read_le_mapped|auto with buffers].
  simpl. by rewrite of_le_le_bytes_small.
Qed.

Lemma write_le_apart m a n v b k :
  apart a (Z.of_nat n) b (Z.of_nat k) -> read_le (write_le m a n v) b k = read_le m b k.
Proof.
  intros Ha. unfold read_le, write_le. rewrite read_apart; [done|]. by rewrite length_le_bytes.
Qed.

Lemma write_le_slice m a n v b k :
  apart a (Z.of_nat n) b (Z.of_nat k) -> read_slice (write_le m a n v) b k = read_slice m b k.
Proof. intros Ha. unfold write_le. rewrite read_apart; [done|]. by rewrite length_le_bytes. Qed.

Lemma write_le_mapped m a n v b k :
  is_Some (read_le (write_le m a n v) b k) <-> is_Some (read_le m b k).
Proof. rewrite !read_le_mapped. apply read_mapped. Qed.

End Objects.

#[export] Hint Resolve read_le_range : words.

(** * One region at zero *)

Record FlatRam := { ram_len : Z; ram_byte : Z -> Z }.

Definition ram_has (r : FlatRam) (a n : Z) : bool := (0 <=? a) && (a + n <=? ram_len r).

Definition ram_zero (len : Z) : FlatRam := {| ram_len := len; ram_byte := fun _ => 0 |}.

Definition ram_read (r : FlatRam) (a : Z) (n : nat) : option (list Z) :=
  if ram_has r a (Z.of_nat n) then Some ((fun i => u8 (ram_byte r (a + Z.of_nat i))) <$> seq 0 n)
  else None.

Definition ram_write (r : FlatRam) (a : Z) (l : list Z) : FlatRam * bool :=
  if ram_has r a (Z.of_nat (length l)) then
    ({| ram_len := ram_len r;
        ram_byte x := if (a <=? x) && (x <? a + Z.of_nat (length l))
                      then default 0 (l !! Z.to_nat (x - a)) else ram_byte r x |}, true)
  else (r, false).

#[export] Instance FlatRam_mem : GuestMemory FlatRam := {
  read_slice := ram_read;
  write_slice := ram_write;
  get_slice r a n := ram_has r a n
}.

Lemma ram_read_written r a l :
  (ram_write r a l).2 = true -> Forall is_byte l ->
  ram_read (ram_write r a l).1 a (length l) = Some l.
Proof.
  unfold ram_write, ram_read, ram_has. intros H Hb. destruct (_ && _) eqn:E; [|done]. simpl.
  rewrite E. f_equal. apply list_eq. intros i. rewrite list_lookup_fmap.
  destruct (decide (i < length l)%nat) as [Hi|Hi].
  - rewrite lookup_seq_lt by done. simpl.
    destruct (lookup_lt_is_Some_2 _ _ Hi) as [x Hx].
    rewrite (proj2 (Z.leb_le a _)), (proj2 (Z.ltb_lt _ _)) by lia. simpl.
    replace (Z.to_nat (a + Z.of_nat i - a)) with i by lia. rewrite Hx. simpl.
    rewrite wrap_small; [done|]. by apply (Forall_lookup_1 _ _ _ _ Hb Hx).
  - rewrite lookup_seq_ge, (proj2 (lookup_ge_None l i)) by lia. done.
Qed.

Lemma ram_read_apart r a l b n :
  apart a (Z.of_nat (length l)) b (Z.of_nat n) ->
  ram_read (ram_write r a l).1 b n = ram_read r b n.
Proof.
  intros Ha. unfold ram_write, ram_read. destruct (ram_has r a _) eqn:E; [|done]. simpl.
  unfold ram_has in *. simpl. case_match; [|done]. f_equal. apply list_fmap_ext.
  intros i k Hk%lookup_seq. simpl. unfold apart in Ha.
  case_match; [bool_prop; lia|done].
Qed.

#[export] Instance FlatRam_laws : GuestMemoryLaws FlatRam.
Proof.
  split; simpl.
  - intros m a n l. unfold ram_read. case_match; [|done]. intros [= <-].
    by rewrite length_fmap, length_seq.
  - intros m a n l. unfold ram_read. case_match; [|done]. intros [= <-].
    apply Forall_fmap, Forall_true. intros i. by apply wrap_range.
  - intros m a l [x Hx]. unfold ram_read, ram_write in *. by case_match.
  - apply ram_read_written.
  - apply ram_read_apart.
  - intros m a l b n. unfold ram_read, ram_write. destruct (ram_has m a _); [|done].
    unfold ram_has. simpl. by case_match.
  - intros m a n1 n2 l. unfold ram_read, ram_has. destruct (_ && _) eqn:E; [|done]. bool_prop.
    intros [= <-]. rewrite seq_app, fmap_app.
    rewrite take_app_length', drop_app_length' by (by rewrite length_fmap, length_seq).
    rewrite !(proj2 (andb_true_iff _ _)) by (rewrite ?Z.leb_le; lia). split; [done|]. f_equal.
    apply list_eq. intros i. rewrite !list_lookup_fmap.
    destruct (decide (i < n2)%nat).
    + rewrite !lookup_seq_lt by done. simpl. do 3 f_equal. lia.
    + by rewrite !lookup_seq_ge by lia.
  - intros m a n. unfold ram_read. intros H Hn. rewrite Z2Nat.id by lia. by rewrite H.
  - intros m a l b n. unfold ram_write. by case_match.
Qed.
