(* ===== verification/Virtqueue.v ===== *)
(** Split virtqueues, [virtio-devices/src/common.rs]: the queue state, the walk
    over descriptor chains and indirect tables, the avail and used rings,
    notification suppression, and the common-configuration fields.

    Guest memory is any instance of [GuestMemory].  The fences of the source
    order accesses between CPUs; here accesses happen in program order. *)

From S2P Require Import Prelude GuestMem.

(** * Constants *)

Definition OFF_COMMON : Z := 0x0000.
Definition OFF_ISR : Z := 0x0100.
Definition OFF_DEVICE : Z := 0x0200.
Definition OFF_NOTIFY : Z := 0x0300.
Definition OFF_MSIX_TABLE : Z := 0x0400.
Definition OFF_MSIX_PBA : Z := 0x0500.
Definition BAR0_SIZE : Z := 0x1000.
Definition NOTIFY_MULT : Z := 4.

Definition CFG_DEVICE_FEAT_SEL : Z := 0x00.
Definition CFG_DEVICE_FEAT : Z := 0x04.
Definition CFG_DRIVER_FEAT_SEL : Z := 0x08.
Definition CFG_DRIVER_FEAT : Z := 0x0c.
Definition CFG_MSIX_CONFIG : Z := 0x10.
Definition CFG_NUM_QUEUES : Z := 0x12.
Definition CFG_STATUS : Z := 0x14.
Definition CFG_QUEUE_SEL : Z := 0x16.
Definition CFG_QUEUE_SIZE : Z := 0x18.
Definition CFG_QUEUE_MSIX : Z := 0x1a.
Definition CFG_QUEUE_ENABLE : Z := 0x1c.
Definition CFG_QUEUE_NOTIFY_OFF : Z := 0x1e.
Definition CFG_QUEUE_DESC_LO : Z := 0x20.
Definition CFG_QUEUE_DESC_HI : Z := 0x24.
Definition CFG_QUEUE_AVAIL_LO : Z := 0x28.
Definition CFG_QUEUE_AVAIL_HI : Z := 0x2c.
Definition CFG_QUEUE_USED_LO : Z := 0x30.
Definition CFG_QUEUE_USED_HI : Z := 0x34.

Definition VIRTIO_F_VERSION_1 : Z := Z.shiftl 1 32.
Definition STATUS_DRIVER_OK : Z := 4.

Definition VRING_DESC_F_NEXT : Z := 1.
Definition VRING_DESC_F_WRITE : Z := 2.
Definition VRING_DESC_F_INDIRECT : Z := 4.
Definition VIRTQ_MSI_NO_VECTOR : Z := 0xFFFF.
Definition VRING_DESC_SIZE : Z := 16.

Definition VRING_AVAIL_F_NO_INTERRUPT : Z := 1.
Definition VRING_USED_F_NO_NOTIFY : Z := 1.

Definition VIRTIO_F_RING_INDIRECT_DESC : Z := Z.shiftl 1 28.
Definition VIRTIO_F_RING_EVENT_IDX : Z := Z.shiftl 1 29.

(** * State *)

Record QState := {
  desc : Z;
  avail : Z;
  used : Z;
  qsize : Z;
  enabled : bool;
  last : Z;
  vec : Z;
  indirect : bool;
  event_idx : bool
}.

Definition QState_default : QState :=
  {| desc := 0; avail := 0; used := 0; qsize := 0; enabled := false; last := 0; vec := 0;
     indirect := false; event_idx := false |}.

Definition set_addrs (q : QState) (d a u : Z) : QState :=
  {| desc := d; avail := a; used := u; qsize := qsize q; enabled := enabled q; last := last q;
     vec := vec q; indirect := indirect q; event_idx := event_idx q |}.
Definition with_size (q : QState) (n : Z) : QState :=
  {| desc := desc q; avail := avail q; used := used q; qsize := n; enabled := enabled q;
     last := last q; vec := vec q; indirect := indirect q; event_idx := event_idx q |}.
Definition with_last (q : QState) (n : Z) : QState :=
  {| desc := desc q; avail := avail q; used := used q; qsize := qsize q; enabled := enabled q;
     last := n; vec := vec q; indirect := indirect q; event_idx := event_idx q |}.
Definition with_enabled (q : QState) (e : bool) : QState :=
  {| desc := desc q; avail := avail q; used := used q; qsize := qsize q; enabled := e;
     last := last q; vec := vec q; indirect := indirect q; event_idx := event_idx q |}.
Definition with_vec (q : QState) (v : Z) : QState :=
  {| desc := desc q; avail := avail q; used := used q; qsize := qsize q; enabled := enabled q;
     last := last q; vec := v; indirect := indirect q; event_idx := event_idx q |}.
Definition with_features (q : QState) (ind ev : bool) : QState :=
  {| desc := desc q; avail := avail q; used := used q; qsize := qsize q; enabled := enabled q;
     last := last q; vec := vec q; indirect := ind; event_idx := ev |}.

Record ComCfg := { dfs : Z; dff : Z; df : Z; st : Z }.

Definition ComCfg_default : ComCfg := {| dfs := 0; dff := 0; df := 0; st := 0 |}.

(** (address, length, flags). *)
Abbreviation Desc := (Z * Z * Z)%type.

(** * Common configuration *)

Definition parse_write (data : list Z) : Z * Z * Z :=
  let v := of_le (resize 8 0 data) in
  (u32 v, u16 v, u8 v).

Definition write_val (len : nat) (val : Z) : list Z := resize len 0 (le_bytes 8 val).

Definition set_queue_size (q : QState) (requested max : Z) : QState :=
  if max <? requested then with_size q max else with_size q requested.

Definition lo_half (old v32 : Z) : Z := Z.lor (Z.land old 0xFFFFFFFF00000000) v32.
Definition hi_half (old v32 : Z) : Z := Z.lor (Z.land old 0x00000000FFFFFFFF) (Z.shiftl v32 32).

Definition write_queue_addr (q : QState) (off v32 : Z) : QState :=
  if off =? CFG_QUEUE_DESC_LO then set_addrs q (lo_half (desc q) v32) (avail q) (used q)
  else if off =? CFG_QUEUE_DESC_HI then set_addrs q (hi_half (desc q) v32) (avail q) (used q)
  else if off =? CFG_QUEUE_AVAIL_LO then set_addrs q (desc q) (lo_half (avail q) v32) (used q)
  else if off =? CFG_QUEUE_AVAIL_HI then set_addrs q (desc q) (hi_half (avail q) v32) (used q)
  else if off =? CFG_QUEUE_USED_LO then set_addrs q (desc q) (avail q) (lo_half (used q) v32)
  else if off =? CFG_QUEUE_USED_HI then set_addrs q (desc q) (avail q) (hi_half (used q) v32)
  else q.

Definition write_driver_feature (com : ComCfg) (value : Z) : ComCfg :=
  if dff com =? 0 then
    {| dfs := dfs com; dff := dff com; df := lo_half (df com) value; st := st com |}
  else if dff com =? 1 then
    {| dfs := dfs com; dff := dff com; df := hi_half (df com) value; st := st com |}
  else com.

Definition com_read (com : ComCfg) (off device_features num_queues msix_config_vec qsel qsz qvec
    qen qnoff qdlo qdhi qalo qahi qulo quhi : Z) : Z :=
  if off =? CFG_DEVICE_FEAT_SEL then dfs com
  else if off =? CFG_DEVICE_FEAT then
    if dfs com =? 0 then Z.land device_features 0xFFFFFFFF
    else if dfs com =? 1 then Z.shiftr device_features 32 else 0
  else if off =? CFG_DRIVER_FEAT_SEL then dff com
  else if off =? CFG_DRIVER_FEAT then
    if dff com =? 0 then Z.land (df com) 0xFFFFFFFF
    else if dff com =? 1 then Z.shiftr (df com) 32 else 0
  else if off =? CFG_MSIX_CONFIG then msix_config_vec
  else if off =? CFG_NUM_QUEUES then num_queues
  else if off =? CFG_STATUS then st com
  else if off =? CFG_QUEUE_SEL then qsel
  else if off =? CFG_QUEUE_SIZE then qsz
  else if off =? CFG_QUEUE_MSIX then qvec
  else if off =? CFG_QUEUE_ENABLE then qen
  else if off =? CFG_QUEUE_NOTIFY_OFF then qnoff
  else if off =? CFG_QUEUE_DESC_LO then qdlo
  else if off =? CFG_QUEUE_DESC_HI then qdhi
  else if off =? CFG_QUEUE_AVAIL_LO then qalo
  else if off =? CFG_QUEUE_AVAIL_HI then qahi
  else if off =? CFG_QUEUE_USED_LO then qulo
  else if off =? CFG_QUEUE_USED_HI then quhi
  else 0.

(** * Descriptor chains *)

Section Queue.
Context {M : Type} {HM : GuestMemory M}.

Definition read_desc (mem : M) (table idx : Z) : option (Z * Z * Z * Z) :=
  base ← checked_add 64 table (idx * VRING_DESC_SIZE);
  a ← read_le mem base 8;
  len_at ← checked_add 64 base 8;
  len ← read_le mem len_at 4;
  flags_at ← checked_add 64 base 12;
  flags ← read_le mem flags_at 2;
  next_at ← checked_add 64 base 14;
  next ← read_le mem next_at 2;
  Some (a, len, flags, next).

(** The loop of [walk_chain], at most [fuel] descriptors more.  [follow] is what
    is done with an indirect descriptor. *)
Fixpoint walk_loop (mem : M) (table max : Z) (follow : Z -> Z -> list Desc -> list Desc)
    (fuel : nat) (idx : Z) (out : list Desc) : list Desc :=
  match fuel with
  | O => out
  | S fuel =>
      match read_desc mem table idx with
      | None => out
      | Some (a, len, flags, next) =>
          if has_bits flags VRING_DESC_F_INDIRECT then follow a len out
          else
            let out := out ++ [(a, len, flags)] in
            if max <=? Z.of_nat (length out) then out
            else if (Z.land flags VRING_DESC_F_NEXT =? 0) || (max <=? next) then out
            else walk_loop mem table max follow fuel next out
      end
  end.

(** [walk_chain] with [allow_indirect] false: an indirect descriptor ends the walk. *)
Definition walk_direct (mem : M) (table head max : Z) (out : list Desc) : list Desc :=
  if max <=? head then out
  else walk_loop mem table max (fun _ _ out => out) (Z.to_nat max) head out.

Definition walk_indirect (mem : M) (max : Z) (table byte_len : Z) (out : list Desc) : list Desc :=
  let entries := byte_len / VRING_DESC_SIZE in
  if entries =? 0 then out
  else walk_direct mem table 0 (Z.min entries max) out.

Definition walk_chain (mem : M) (table head max : Z) (out : list Desc) (allow_indirect : bool)
    : list Desc :=
  if max <=? head then out
  else if allow_indirect then
    walk_loop mem table max (walk_indirect mem max) (Z.to_nat max) head out
  else walk_direct mem table head max out.

Definition collect_descs_with (mem : M) (desc_base head max : Z) (allow_indirect : bool)
    : list Desc :=
  walk_chain mem desc_base head max [] allow_indirect.

Definition collect_descs (mem : M) (desc_base head max : Z) : list Desc :=
  collect_descs_with mem desc_base head max false.

(** * Rings *)

Definition has_avail (mem : M) (q : QState) : bool :=
  match read_le mem (avail q ⊕ 2) 2 with
  | Some idx => negb (idx =? last q)
  | None => false
  end.

Definition pop_avail (mem : M) (q : QState) : QState * option (Z * list Desc) :=
  if (qsize q =? 0) || (avail q =? 0) || (desc q =? 0) then (q, None)
  else
    match read_le mem (avail q ⊕ 2) 2 with
    | None => (q, None)
    | Some idx =>
        if idx =? last q then (q, None)
        else
          let slot := last q mod qsize q in
          match read_le mem (avail q ⊕ (4 + slot * 2)) 2 with
          | None => (q, None)
          | Some h =>
              let q := with_last q (u16 (last q + 1)) in
              (q, Some (h, collect_descs_with mem (desc q) h (qsize q) (indirect q)))
          end
    end.

Definition read_used_idx (mem : M) (q : QState) : Z :=
  if (qsize q =? 0) || (used q =? 0) then 0
  else default 0 (read_le mem (used q ⊕ 2) 2).

Definition push_used (mem : M) (q : QState) (head len : Z) : M * Z :=
  if (qsize q =? 0) || (used q =? 0) then (mem, 0)
  else
    let ua := used q ⊕ 2 in
    let ui := default 0 (read_le mem ua 2) in
    let us := ui mod qsize q in
    let ue := used q ⊕ (4 + us * 8) in
    let mem := write_le mem ue 4 head in
    let mem := write_le mem (ue ⊕ 4) 4 len in
    let next := u16 (ui + 1) in
    (write_le mem ua 2 next, next).

(** * Notification suppression *)

Definition used_event_addr (q : QState) : Z := avail q ⊕ (4 + qsize q * 2).
Definition avail_event_addr (q : QState) : Z := used q ⊕ (4 + qsize q * 8).

Definition vring_need_event (event new old : Z) : bool :=
  u16 (u16 (new - event) - 1) <? u16 (new - old).

Definition set_avail_event (mem : M) (q : QState) (idx : Z) : M :=
  if (used q =? 0) || (qsize q =? 0) then mem
  else write_le mem (avail_event_addr q) 2 idx.

Definition avail_wants_interrupt (mem : M) (q : QState) : bool :=
  if avail q =? 0 then true
  else
    match read_le mem (avail q) 2 with
    | Some flags => Z.land flags VRING_AVAIL_F_NO_INTERRUPT =? 0
    | None => true
    end.

Definition used_needs_interrupt (mem : M) (q : QState) (old new : Z) : bool :=
  if negb (event_idx q) then avail_wants_interrupt mem q
  else
    match read_le mem (used_event_addr q) 2 with
    | Some event => vring_need_event event new old
    | None => true
    end.

Definition set_used_no_notify (mem : M) (q : QState) (suppress : bool) : M :=
  if used q =? 0 then mem
  else write_le mem (used q) 2 (if suppress then VRING_USED_F_NO_NOTIFY else 0).

End Queue.
