(* ===== verification/VirtqueueFacts.v ===== *)
(** Descriptor chains: what a walk may collect from a hostile ring, and that it
    collects the whole of a well-formed chain. *)

From S2P Require Import Prelude GuestMem Virtqueue.

Section Chains.
Context {M : Type} {HM : GuestMemory M}.
Implicit Types (mem : M) (table max idx : Z) (out l : list Desc).

(** A descriptor of [table] below [max], flags and all. *)
Definition desc_of mem table max (d : Desc) : Prop :=
  exists idx next, 0 <= idx < max /\ read_desc mem table idx = Some (d.1.1, d.1.2, d.2, next) /\
    has_bits d.2 VRING_DESC_F_INDIRECT = false.

(** An indirect descriptor of [table] below [max], naming the [entries] of [t2]. *)
Definition indirect_of mem table max (t2 entries : Z) : Prop :=
  exists idx len flags next, 0 <= idx < max /\
    read_desc mem table idx = Some (t2, len, flags, next) /\
    has_bits flags VRING_DESC_F_INDIRECT = true /\ entries = len / VRING_DESC_SIZE.

(** ** Hostile rings *)

(** The loop keeps [P] of everything collected and the bound on how much. *)
Lemma walk_loop_inv mem table max follow (P : Desc -> Prop) (bound : nat) fuel idx out :
  (forall d, desc_of mem table max d -> P d) ->
  (forall t2 len out, indirect_of mem table max t2 (len / VRING_DESC_SIZE) ->
     Forall P out -> (length out < bound)%nat ->
     Forall P (follow t2 len out) /\ (length (follow t2 len out) <= bound)%nat) ->
  0 <= idx < max -> (Z.to_nat max <= bound)%nat ->
  Forall P out -> (length out < bound)%nat ->
  (forall i a len f n, read_desc mem table i = Some (a, len, f, n) -> 0 <= n) ->
  Forall P (walk_loop mem table max follow fuel idx out) /\
  (length (walk_loop mem table max follow fuel idx out) <= bound)%nat.
Proof.
  intros HP Hf Hidx Hb Hout Hlen Hn. revert idx out Hidx Hout Hlen.
  induction fuel as [|fuel IH]; intros idx out Hidx Hout Hlen; simpl; [split; [done|lia]|].
  destruct (read_desc mem table idx) as [[[[a len] flags] next]|] eqn:Er; [|split; [done|lia]].
  pose proof (Hn _ _ _ _ _ Er) as Hn0.
  destruct (has_bits flags VRING_DESC_F_INDIRECT) eqn:Ei.
  { apply Hf; [|done..]. by exists idx, len, flags, next. }
  assert (Hout' : Forall P (out ++ [(a, len, flags)])).
  { apply Forall_app_2, Forall_singleton; [done|]. apply HP. by exists idx, next. }
  assert (Hl' : (length (out ++ [(a, len, flags)]) <= bound)%nat) by (rewrite length_app; simpl; lia).
  case_tests; [by split| |by apply IH; [lia|done|lia]]. by split.
Qed.

Context {HL : GuestMemoryLaws M}.

Lemma read_desc_range mem table idx a len flags next :
  read_desc mem table idx = Some (a, len, flags, next) ->
  is_word 64 a /\ is_word 32 len /\ is_word 16 flags /\ is_word 16 next.
Proof.
  unfold read_desc. intros H. repeat (apply bind_Some in H; destruct H as (? & ? & H)).
  injection H as -> -> -> ->.
  repeat split; match goal with
  | E : read_le _ _ _ = Some ?v |- context [?v] => apply read_le_range in E; apply E
  end.
Qed.

Lemma walk_direct_inv mem table head max out (P : Desc -> Prop) (bound : nat) :
  (forall d, desc_of mem table max d -> P d) -> 0 <= head -> (Z.to_nat max <= bound)%nat ->
  Forall P out -> (length out < bound)%nat ->
  Forall P (walk_direct mem table head max out) /\
  (length (walk_direct mem table head max out) <= bound)%nat.
Proof.
  intros HP Hh Hb Hout Hlen. unfold walk_direct. case_tests; [split; [done|lia]|].
  apply walk_loop_inv; [done| |lia|done..|]; [split; [done|lia]|].
  intros i a len f n Hr. by apply read_desc_range in Hr as (_ & _ & _ & []).
Qed.

(** Where a collected descriptor may come from. *)
Definition collected_from mem table max (allow : bool) (d : Desc) : Prop :=
  desc_of mem table max d \/
  (allow = true /\ exists t2 entries, indirect_of mem table max t2 entries /\
     desc_of mem t2 (Z.min entries max) d).

(** Whatever a hostile driver puts in its rings, the walk over a chain
    terminates with at most [max] descriptors (the size the queue was clamped
    to), every one of them read from the queue's table below [max] or, when
    indirection was negotiated, from one table named by the queue's table, and
    none of them itself an indirect descriptor: nesting is never followed and a
    loop in the chain cannot make a request grow without bound. *)
Theorem collect_bounded mem (table head max : Z) (allow : bool)
    (Hh : 0 <= head) (Hm : 0 <= max) :
  Z.of_nat (length (collect_descs_with mem table head max allow)) <= max /\
  Forall (collected_from mem table max allow) (collect_descs_with mem table head max allow).
Proof.
  unfold collect_descs_with, walk_chain. destruct (max <=? head) eqn:E; bool_prop.
  { split; [simpl; lia|constructor]. }
  assert (Hpos : (length (@nil Desc) < Z.to_nat max)%nat) by (simpl; lia).
  enough (Hg : forall l, (Forall (collected_from mem table max allow) l /\
    (length l <= Z.to_nat max)%nat) -> Z.of_nat (length l) <= max /\
    Forall (collected_from mem table max allow) l).
  { apply Hg. destruct allow.
    - apply walk_loop_inv; [by left| |lia|lia|constructor|done|].
      + intros t2 len out Hi Hout Hlen. unfold walk_indirect. case_tests; [split; [done|lia]|].
        apply walk_direct_inv; [|lia|lia|done|done]. intros d Hd. right. split; [done|].
        by exists t2, (len / VRING_DESC_SIZE).
      + intros i a len f n Hr. by apply read_desc_range in Hr as (_ & _ & _ & []).
    - apply walk_direct_inv; [by left|done|lia|constructor|done]. }
  intros l [Hp Hl]. split; [lia|done].
Qed.

(** ** Well-formed chains *)

(** The driver's chain starting at [idx] of a table of [max] entries. *)
Inductive chain mem table max : Z -> list Desc -> Prop :=
  | chain_last idx a len flags next :
      read_desc mem table idx = Some (a, len, flags, next) ->
      has_bits flags VRING_DESC_F_INDIRECT = false ->
      Z.land flags VRING_DESC_F_NEXT = 0 ->
      chain mem table max idx [(a, len, flags)]
  | chain_more idx a len flags next l :
      read_desc mem table idx = Some (a, len, flags, next) ->
      has_bits flags VRING_DESC_F_INDIRECT = false ->
      Z.land flags VRING_DESC_F_NEXT <> 0 -> next < max ->
      chain mem table max next l ->
      chain mem table max idx ((a, len, flags) :: l).

(** Direct descriptors from [idx] up to, not including, the one at [stop]. *)
Inductive prefix_to mem table max : Z -> Z -> list Desc -> Prop :=
  | prefix_here idx : prefix_to mem table max idx idx []
  | prefix_more idx stop a len flags next l :
      read_desc mem table idx = Some (a, len, flags, next) ->
      has_bits flags VRING_DESC_F_INDIRECT = false ->
      Z.land flags VRING_DESC_F_NEXT <> 0 -> next < max ->
      prefix_to mem table max next stop l ->
      prefix_to mem table max idx stop ((a, len, flags) :: l).

(** The loop over a chain takes what still fits: it looks at the bound after
    each descriptor, so it always takes at least one. *)
Lemma walk_loop_chain mem table max follow fuel idx out l :
  chain mem table max idx l -> (length l <= fuel)%nat -> 0 <= max ->
  walk_loop mem table max follow fuel idx out =
  out ++ take (Nat.max 1 (Z.to_nat max - length out)) l.
Proof.
  intros Hc. revert fuel out.
  induction Hc as [idx a len flags next Hr Hi Hn|idx a len flags next l Hr Hi Hn Hlt Hc IH];
    intros [|fuel] out Hf Hm; simpl in Hf; try lia; simpl; rewrite Hr, Hi.
  - assert (Et : take (Nat.max 1 (Z.to_nat max - length out)) [(a, len, flags)] = [(a, len, flags)])
      by (apply take_ge; simpl; lia).
    change (Nat.max 1 ?x) with (Nat.max 1 x) in Et. rewrite Et, Hn. by case_match.
  - destruct (max <=? Z.of_nat (length (out ++ [(a, len, flags)]))) eqn:E; bool_prop;
      rewrite length_app in E; simpl in E.
    + replace (Z.to_nat max - length out)%nat with (Nat.min 1 (Z.to_nat max - length out)) by lia.
      replace (Nat.max 1 _) with 1%nat by lia. done.
    + rewrite (proj2 (Z.eqb_neq _ _) Hn), (proj2 (Z.leb_gt _ _) Hlt). simpl.
      rewrite IH by lia. rewrite <- (assoc_L (++)), length_app. simpl. f_equal.
      destruct (Z.to_nat max - length out)%nat as [|[|n]] eqn:En; [lia|lia|].
      replace (Z.to_nat max - (length out + 1))%nat with (S n) by lia. done.
Qed.

Lemma walk_loop_prefix mem table max follow fuel idx stop out l :
  prefix_to mem table max idx stop l -> (length l <= fuel)%nat ->
  Z.of_nat (length out + length l) < max ->
  walk_loop mem table max follow fuel idx out =
  walk_loop mem table max follow (fuel - length l) stop (out ++ l).
Proof.
  intros Hp. revert fuel out.
  induction Hp as [idx|idx stop a len flags next l Hr Hi Hn Hlt Hp IH]; intros fuel out Hf Hm.
  - by rewrite Nat.sub_0_r, app_nil_r.
  - destruct fuel as [|fuel]; simpl in Hf; [lia|]. simpl in Hm. simpl walk_loop at 1.
    rewrite Hr, Hi, length_app. simpl.
    rewrite (proj2 (Z.leb_gt max _)) by lia.
    rewrite (proj2 (Z.eqb_neq _ _) Hn), (proj2 (Z.leb_gt _ _) Hlt). simpl.
    rewrite IH; [|lia|rewrite length_app; simpl; lia]. by rewrite <- (assoc_L (++)).
Qed.

(** A well-formed chain is collected whole.  A chain of at most [max]
    direct descriptors is returned exactly as the driver linked it, and an
    indirect descriptor whose table holds a chain filling at most its entries
    is replaced by exactly that chain. *)
Theorem collect_complete mem (table head max : Z) (allow : bool) (l : list Desc)
    (Hh : 0 <= head < max) (Hl : Z.of_nat (length l) <= max)
    (Hc : chain mem table max head l \/
          (allow = true /\ exists t2 len flags next,
             read_desc mem table head = Some (t2, len, flags, next) /\
             has_bits flags VRING_DESC_F_INDIRECT = true /\
             chain mem t2 (Z.min (len / VRING_DESC_SIZE) max) 0 l /\
             Z.of_nat (length l) <= len / VRING_DESC_SIZE)) :
  collect_descs_with mem table head max allow = l.
Proof.
  unfold collect_descs_with, walk_chain, walk_direct.
  rewrite (proj2 (Z.leb_gt _ _)) by lia.
  destruct Hc as [Hc|(-> & t2 & len & flags & next & Hr & Hi & Hc & Hlen)].
  - rewrite !(walk_loop_chain _ _ _ _ _ _ _ l Hc) by lia. simpl.
    rewrite Nat.sub_0_r, take_ge by lia. by destruct allow.
  - destruct (Z.to_nat max) as [|fuel] eqn:Ef; [lia|]. simpl. rewrite Hr, Hi.
    unfold walk_indirect, walk_direct.
    assert (Hpos : 0 < len / VRING_DESC_SIZE) by (inversion Hc; subst; cbn [length] in Hlen; lia).
    rewrite (proj2 (Z.eqb_neq _ _)), (proj2 (Z.leb_gt _ _)) by lia.
    rewrite (walk_loop_chain _ _ _ _ _ _ _ l Hc) by lia. simpl. rewrite take_ge by lia. done.
Qed.

(** ** What a driver writes

    A descriptor as the virtio specification lays it out: 16 bytes, the address,
    the length, the flags and the number of the next one, little-endian; flag bit 0
    is NEXT, bit 2 INDIRECT. *)

Definition desc_written mem table (idx : Z) (d : Desc) (next : Z) : Prop :=
  is_word 64 d.1.1 /\ is_word 32 d.1.2 /\ is_word 16 d.2 /\ is_word 16 next /\
  read_slice mem (table + 16 * idx) 16 =
    Some (le_bytes 8 d.1.1 ++ le_bytes 4 d.1.2 ++ le_bytes 2 d.2 ++ le_bytes 2 next).

(** The chain [l] linked from [idx] on in a table of [max] descriptors. *)
Inductive linked mem table max : Z -> list Desc -> Prop :=
  | linked_last idx d next :
      0 <= idx < max -> desc_written mem table idx d next ->
      Z.testbit d.2 2 = false -> Z.testbit d.2 0 = false -> linked mem table max idx [d]
  | linked_more idx d next l :
      0 <= idx < max -> desc_written mem table idx d next ->
      Z.testbit d.2 2 = false -> Z.testbit d.2 0 = true ->
      linked mem table max next l -> linked mem table max idx (d :: l).

Lemma desc_written_read mem table idx d next :
  0 <= table -> 0 <= idx -> table + 16 * idx + 16 <= 2 ^ 64 -> desc_written mem table idx d next ->
  read_desc mem table idx = Some (d.1.1, d.1.2, d.2, next).
Proof.
  intros Ht Hi Hhi (Wa & Wl & Wf & Wn & Hr). destruct d as [[a len] flags]. cbn [fst snd] in *.
  assert (Hfield : forall (pre l post : list Z) n k, le_bytes 8 a ++ le_bytes 4 len ++ le_bytes 2 flags ++ le_bytes 2 next = pre ++ l ++ post ->
    length pre = k -> length l = n -> read_le mem (table + 16 * idx + Z.of_nat k) n = Some (of_le l)).
  { intros pre l post n k E Hk Hn. rewrite E in Hr. assert (16 = k + (n + length post))%nat as Hlen.
    { apply read_length in Hr. rewrite !length_app in Hr. lia. }
    rewrite Hlen in Hr. destruct (read_split _ _ _ _ _ Hr) as [_ H2]. rewrite drop_app_length' in H2 by done.
    destruct (read_split _ _ _ _ _ H2) as [H3 _]. rewrite take_app_length' in H3 by done.
    unfold read_le. by rewrite H3. }
  pose proof (Hfield [] (le_bytes 8 a) _ 8%nat 0%nat eq_refl eq_refl eq_refl) as Fa.
  pose proof (Hfield (le_bytes 8 a) (le_bytes 4 len) _ 4%nat 8%nat eq_refl eq_refl eq_refl) as Fl.
  pose proof (Hfield (le_bytes 8 a ++ le_bytes 4 len) (le_bytes 2 flags) _ 2%nat 12%nat ltac:(by rewrite <- app_assoc) eq_refl eq_refl) as Ff.
  pose proof (Hfield (le_bytes 8 a ++ le_bytes 4 len ++ le_bytes 2 flags) (le_bytes 2 next) [] 2%nat 14%nat
    ltac:(by rewrite app_nil_r, <- !app_assoc) eq_refl eq_refl) as Fn.
  rewrite !of_le_le_bytes_small in Fa, Fl, Ff, Fn by done.
  change (Z.of_nat 8) with 8 in Fl. change (Z.of_nat 12) with 12 in Ff. change (Z.of_nat 14) with 14 in Fn. rewrite Z.add_0_r in Fa.
  unfold read_desc, VRING_DESC_SIZE, checked_add. replace (idx * 16) with (16 * idx) by lia.
  rewrite (proj2 (Z.ltb_lt (table + 16 * idx) _)) by lia. cbn [mbind option_bind]. rewrite Fa. cbn [mbind option_bind].
  rewrite !(proj2 (Z.ltb_lt (table + 16 * idx + _) _)) by lia. cbn [mbind option_bind]. rewrite Fl. cbn [mbind option_bind].
  rewrite Ff. cbn [mbind option_bind]. by rewrite Fn.
Qed.

Lemma land_bit x k : 0 <= k -> Z.land x (2 ^ k) = if Z.testbit x k then 2 ^ k else 0.
Proof.
  intros Hk. apply Z.bits_inj'. intros j Hj. rewrite Z.land_spec, Z.pow2_bits_eqb by lia.
  destruct (Z.eqb_spec k j) as [<-|Hne].
  - rewrite andb_true_r. destruct (Z.testbit x k); [by rewrite Z.pow2_bits_true|by rewrite Z.testbit_0_l].
  - rewrite andb_false_r. destruct (Z.testbit x k); [|by rewrite Z.testbit_0_l].
    rewrite Z.pow2_bits_false by done. done.
Qed.

Lemma linked_chain mem table max idx l :
  0 <= table -> table + 16 * max <= 2 ^ 64 -> linked mem table max idx l -> chain mem table max idx l /\ 0 <= idx < max.
Proof.
  intros Ht Hm Hl. induction Hl as [idx d next Hi Hw Hind Hn|idx d next l Hi Hw Hind Hn _ [IH Hnext]];
    (split; [|done]); (apply desc_written_read in Hw; [|lia..]); destruct d as [[a len] flags]; cbn [fst snd] in *.
  - eapply chain_last; [exact Hw|unfold has_bits; change VRING_DESC_F_INDIRECT with (2 ^ 2); by rewrite land_bit, Hind|].
    change VRING_DESC_F_NEXT with (2 ^ 0). by rewrite land_bit, Hn.
  - eapply chain_more; [exact Hw|unfold has_bits; change VRING_DESC_F_INDIRECT with (2 ^ 2); by rewrite land_bit, Hind| |lia|done].
    change VRING_DESC_F_NEXT with (2 ^ 0). by rewrite land_bit, Hn.
Qed.

(** A request a driver may post on [q]: at most as many descriptors as the queue
    has, linked in the queue's table, or all of them linked in one indirect table
    that a descriptor of the queue's table names, if indirection was negotiated. *)
Definition posted mem (q : QState) (head : Z) (l : list Desc) : Prop :=
  Z.of_nat (length l) <= qsize q /\
  (linked mem (desc q) (qsize q) head l \/
   indirect q = true /\ exists t2 n flags next,
     0 <= head < qsize q /\ desc_written mem (desc q) head (t2, 16 * n, flags) next /\ Z.testbit flags 2 = true /\
     0 <= t2 /\ t2 + 16 * n <= 2 ^ 64 /\ Z.of_nat (length l) <= n /\ linked mem t2 (Z.min n (qsize q)) 0 l).

Lemma posted_collected mem q head l :
  0 <= desc q -> desc q + 16 * qsize q <= 2 ^ 64 -> posted mem q head l ->
  0 <= head < qsize q /\ collect_descs_with mem (desc q) head (qsize q) (indirect q) = l.
Proof.
  intros Hd Hhi [Hl [Hc|(Hi & t2 & n & flags & next & Hh & Hw & Hf & Ht & Ht2 & Hn & Hc)]].
  - apply linked_chain in Hc as [Hc Hh]; [|done..]. split; [done|]. apply collect_complete; [done..|by left].
  - split; [done|]. rewrite Hi. apply collect_complete; [done..|]. right. split; [done|].
    apply desc_written_read in Hw; [|lia..]. exists t2, (16 * n), flags, next. cbn [fst snd] in Hw.
    assert (16 * n / VRING_DESC_SIZE = n) as -> by (unfold VRING_DESC_SIZE; rewrite Z.mul_comm; by apply Z.div_mul).
    split; [done|]. split; [unfold has_bits; change VRING_DESC_F_INDIRECT with (2 ^ 2); by rewrite land_bit, Hf|].
    split; [|done]. apply (linked_chain mem t2 (Z.min n (qsize q)) 0 l); [done|lia|done].
Qed.

(** An indirect table after direct descriptors is cut short.  Virtio lets a
    request be [k] direct descriptors followed by one indirect descriptor; the
    bound of the inner walk is compared with everything collected so far, the
    [k] direct ones included, so of [k + entries] descriptors only
    [max (k + 1) entries] are returned: with [k >= 1] and at least two entries
    the tail of the request (the status byte of a block request, say) is
    dropped. *)
Theorem mixed_chain_truncated mem (table head stop max t2 len flags next : Z) (dl l : list Desc)
    (Hh : 0 <= head < max) (Hp : prefix_to mem table max head stop dl)
    (Hk : 1 <= Z.of_nat (length dl) < max)
    (Hr : read_desc mem table stop = Some (t2, len, flags, next))
    (Hi : has_bits flags VRING_DESC_F_INDIRECT = true)
    (He : 2 <= len / VRING_DESC_SIZE <= max)
    (Hc : chain mem t2 (len / VRING_DESC_SIZE) 0 l)
    (Hfull : Z.of_nat (length l) = len / VRING_DESC_SIZE) :
  collect_descs_with mem table head max true =
    take (Nat.max (S (length dl)) (length l)) (dl ++ l) /\
  (length (collect_descs_with mem table head max true) < length (dl ++ l))%nat.
Proof.
  enough (E : collect_descs_with mem table head max true =
    take (Nat.max (S (length dl)) (length l)) (dl ++ l)).
  { split; [done|]. rewrite E, length_take, length_app. lia. }
  unfold collect_descs_with, walk_chain. rewrite (proj2 (Z.leb_gt _ _)) by lia.
  rewrite (walk_loop_prefix _ _ _ _ _ _ _ _ _ Hp) by (simpl; lia).
  destruct (Z.to_nat max - length dl)%nat as [|fuel] eqn:Ef; [lia|]. simpl. rewrite Hr, Hi.
  unfold walk_indirect, walk_direct. rewrite Z.min_l by lia.
  rewrite (proj2 (Z.eqb_neq _ _)), (proj2 (Z.leb_gt _ _)) by lia.
  rewrite (walk_loop_chain _ _ _ _ _ _ _ l Hc) by lia. rewrite take_app.
  rewrite (take_ge dl) by lia. f_equal. f_equal. lia.
Qed.

End Chains.
