(* ===== verification/VirtqueueRings.v ===== *)
(** The avail and used rings: every request the driver publishes is popped once
    and in order, every completion the device pushes can be read back by the
    driver, across the wrap of the 16-bit indices; and when the driver is
    interrupted. *)

From S2P Require Import Prelude GuestMem Virtqueue VirtqueueFacts.

(** ** Free-running indices *)

Lemma u16_mod_pow2 x k : 0 <= k <= 16 -> u16 x mod 2 ^ k = x mod 2 ^ k.
Proof.
  intros Hk. unfold wrap. apply Z.mod_mod_divide. exists (2 ^ (16 - k)).
  rewrite <- Z.pow_add_r by lia. f_equal. lia.
Qed.

Lemma u16_add_l x y : u16 (u16 x + y) = u16 (x + y).
Proof. unfold wrap. by rewrite Z.add_mod_idemp_l. Qed.

Lemma u16_sub_l x y : u16 (u16 x - y) = u16 (x - y).
Proof. unfold wrap. by rewrite Zminus_mod_idemp_l. Qed.

(** The slot of the [j]-th index after the next one. *)
Lemma next_slot x j k : 0 <= k <= 15 -> (u16 (x + 1) + j) mod 2 ^ k = (x + (1 + j)) mod 2 ^ k.
Proof.
  intros Hk. rewrite <- (u16_mod_pow2 (u16 _ + _)) by lia.
  rewrite u16_add_l, u16_mod_pow2 by lia. f_equal. lia.
Qed.

(** Two free-running indices less than a ring apart use different slots. *)
Lemma slots_apart x i j k :
  0 <= k -> 0 <= i < 2 ^ k -> 0 <= j < 2 ^ k -> i <> j ->
  (x + i) mod 2 ^ k <> (x + j) mod 2 ^ k.
Proof.
  intros Hk Hi Hj Hne E. pose proof (Z.pow_pos_nonneg 2 k).
  pose proof (Z.div_mod (x + i) (2 ^ k)). pose proof (Z.div_mod (x + j) (2 ^ k)).
  assert ((x + i) / 2 ^ k - (x + j) / 2 ^ k = 0 \/ 1 <= (x + i) / 2 ^ k - (x + j) / 2 ^ k \/
          (x + i) / 2 ^ k - (x + j) / 2 ^ k <= -1) by lia.
  nia.
Qed.

Section Rings.
Context {M : Type} {HM : GuestMemory M}.
Implicit Types (mem : M) (q : QState).

(** * The driver's side of the avail ring *)

Definition avail_entry q (idx : Z) : Z := avail q + 4 + 2 * (idx mod qsize q).

Fixpoint write_entries mem q (idx : Z) (heads : list Z) : M :=
  match heads with
  | [] => mem
  | h :: heads => write_entries (write_le mem (avail_entry q idx) 2 h) q (u16 (idx + 1)) heads
  end.

(** The driver publishes [heads]: entries first, then the index. *)
Definition publish mem q (idx : Z) (heads : list Z) : M :=
  write_le (write_entries mem q idx heads) (avail q + 2) 2 (u16 (idx + Z.of_nat (length heads))).

(** The device takes everything on offer, as the workers' loops do. *)
Fixpoint drain (fuel : nat) mem q : QState * list (Z * list Desc) :=
  match fuel with
  | O => (q, [])
  | S fuel =>
      match pop_avail mem q with
      | (q, None) => (q, [])
      | (q, Some x) => let '(q, xs) := drain fuel mem q in (q, x :: xs)
      end
  end.

(** The avail ring of [q] is mapped, of a power-of-two size, and does not wrap
    around the end of the address space. *)
Record avail_ok mem q (k : Z) : Prop := {
  ao_size : qsize q = 2 ^ k;
  ao_k : 0 <= k <= 15;
  ao_low : 0 < avail q;
  ao_high : avail q + 4 + 2 * qsize q <= 2 ^ 64;
  ao_desc : desc q <> 0;
  ao_mapped : forall off n, 0 <= off -> off + Z.of_nat n <= 4 + 2 * qsize q ->
    is_Some (read_le mem (avail q + off) n)
}.

Context {HL : GuestMemoryLaws M}.

Lemma avail_ok_write mem q k a n v : avail_ok mem q k -> avail_ok (write_le mem a n v) q k.
Proof.
  intros []. split; try done. intros off m H1 H2. apply write_le_mapped. by apply ao_mapped0.
Qed.

Lemma entry_slot q k idx : qsize q = 2 ^ k -> 0 <= k <= 15 -> 0 <= idx mod qsize q < qsize q.
Proof. intros -> Hk. apply Z.mod_pos_bound. apply Z.pow_pos_nonneg; lia. Qed.

Lemma write_entries_ok mem q k idx heads :
  avail_ok mem q k -> avail_ok (write_entries mem q idx heads) q k.
Proof.
  revert mem idx. induction heads as [|h heads IH]; intros mem idx Ho; simpl; [done|].
  by apply IH, avail_ok_write.
Qed.

(** Entries written from [idx] on leave alone what lies outside their slots. *)
Lemma write_entries_other mem q k idx heads a n :
  avail_ok mem q k ->
  (forall j, 0 <= j < Z.of_nat (length heads) ->
     apart (avail_entry q (idx + j)) 2 a (Z.of_nat n)) ->
  read_le (write_entries mem q idx heads) a n = read_le mem a n.
Proof.
  revert mem idx. induction heads as [|h heads IH]; intros mem idx Ho Ha; simpl; [done|].
  rewrite IH; [|by apply avail_ok_write|].
  - apply write_le_apart. specialize (Ha 0). rewrite Z.add_0_r in Ha. apply Ha. simpl; lia.
  - intros j Hj. specialize (Ha (1 + j)). unfold avail_entry in *.
    rewrite (ao_size _ _ _ Ho), next_slot in * by apply (ao_k _ _ _ Ho). apply Ha. simpl. lia.
Qed.

Lemma write_entries_read mem q k idx heads i h :
  avail_ok mem q k -> Z.of_nat (length heads) <= qsize q ->
  heads !! i = Some h -> Forall (is_word 16) heads ->
  read_le (write_entries mem q idx heads) (avail_entry q (idx + Z.of_nat i)) 2 = Some h.
Proof.
  revert mem idx i. induction heads as [|h0 heads IH]; intros mem idx i Ho Hlen Hi Hw; [done|].
  pose proof (ao_size _ _ _ Ho) as Hs. pose proof (ao_k _ _ _ Ho) as Hk.
  apply Forall_cons in Hw as [Hw0 Hw]. cbn [length] in Hlen. destruct i as [|i]; simpl in Hi.
  - injection Hi as ->. simpl write_entries.
    replace (idx + Z.of_nat 0) with idx by lia.
    rewrite (write_entries_other _ _ k); [|by apply avail_ok_write|].
    + apply write_le_read; [|done]. unfold avail_entry. rewrite <- Z.add_assoc.
      pose proof (entry_slot q k idx Hs Hk). apply (ao_mapped _ _ _ Ho); lia.
    + intros j Hj. rewrite Hs in Hlen. pose proof (Z.pow_pos_nonneg 2 k).
      unfold avail_entry. rewrite Hs.
      rewrite next_slot by lia.
      pose proof (slots_apart idx (1 + j) 0 k ltac:(lia) ltac:(lia) ltac:(lia) ltac:(lia)) as Hne.
      rewrite Z.add_0_r in Hne. unfold apart. lia.
  - simpl write_entries.
    replace (avail_entry q (idx + Z.of_nat (S i)))
      with (avail_entry q (u16 (idx + 1) + Z.of_nat i)).
    + apply IH; [by apply avail_ok_write|lia|done|done].
    + unfold avail_entry. rewrite Hs, next_slot by lia. do 3 f_equal. lia.
Qed.

(** What the device reads from a ring holding [heads] from its [last] on. *)
Definition ring_holds mem q (heads : list Z) : Prop :=
  read_le mem (avail q + 2) 2 = Some (u16 (last q + Z.of_nat (length heads))) /\
  forall i h, heads !! i = Some h -> read_le mem (avail_entry q (last q + Z.of_nat i)) 2 = Some h.

Lemma publish_holds mem q k heads :
  avail_ok mem q k -> Z.of_nat (length heads) <= qsize q -> Forall (is_word 16) heads ->
  ring_holds (publish mem q (last q) heads) q heads.
Proof.
  intros Ho Hlen Hw. pose proof (ao_size _ _ _ Ho) as Hs. pose proof (ao_k _ _ _ Ho) as Hk.
  unfold publish. split.
  - apply write_le_read; [|by apply wrap_range].
    apply (ao_mapped _ _ _ (write_entries_ok _ _ _ _ heads Ho)); [lia|].
    pose proof (Z.pow_pos_nonneg 2 k). lia.
  - intros i h Hi. rewrite write_le_apart.
    + by apply (write_entries_read mem q k).
    + unfold avail_entry. pose proof (entry_slot q k (last q + Z.of_nat i) Hs Hk). unfold apart. lia.
Qed.

Lemma pop_avail_holds mem q k h heads :
  avail_ok mem q k -> is_word 16 (last q) -> Z.of_nat (length (h :: heads)) < 2 ^ 16 ->
  ring_holds mem q (h :: heads) ->
  pop_avail mem q =
    (with_last q (u16 (last q + 1)),
     Some (h, collect_descs_with mem (desc q) h (qsize q) (indirect q))) /\
  ring_holds mem (with_last q (u16 (last q + 1))) heads.
Proof.
  intros Ho Hlast Hlen [Hidx Hent]. pose proof (ao_size _ _ _ Ho) as Hs.
  pose proof (ao_k _ _ _ Ho) as Hk. destruct Ho as [_ _ Hlo Hhi Hd _].
  pose proof (Z.pow_pos_nonneg 2 k). pose proof (entry_slot q k (last q) Hs Hk) as Hslot.
  assert (Hne : u16 (last q + Z.of_nat (length (h :: heads))) <> last q).
  { unfold is_word, wrap in *. simpl length in *. intros E.
    destruct (decide (last q + Z.of_nat (S (length heads)) < 2 ^ 16)).
    - rewrite Z.mod_small in E by lia. lia.
    - rewrite <- (Z_mod_plus_full _ (-1)), Z.mod_small in E by lia. lia. }
  split.
  - unfold pop_avail. rewrite !(proj2 (Z.eqb_neq _ _)) by lia. simpl orb.
    rewrite (wrap_small 64 (avail q + 2)) by (unfold is_word; lia). rewrite Hidx.
    rewrite (proj2 (Z.eqb_neq _ _)) by done.
    specialize (Hent 0%nat h eq_refl). unfold avail_entry in Hent. rewrite Z.add_0_r in Hent.
    rewrite (wrap_small 64 (avail q + _)) by (unfold is_word; lia).
    replace (avail q + (4 + last q mod qsize q * 2)) with (avail q + 4 + 2 * (last q mod qsize q)) by lia.
    by rewrite Hent.
  - split; simpl.
    + rewrite u16_add_l. rewrite Hidx. do 2 f_equal. simpl length. lia.
    + intros i h' Hi. specialize (Hent (S i) h' Hi). unfold avail_entry in *. simpl. rewrite Hs in *.
      rewrite next_slot by lia. rewrite <- Hent. f_equal. do 3 f_equal. lia.
Qed.

Lemma pop_avail_empty mem q k :
  avail_ok mem q k -> ring_holds mem q [] -> is_word 16 (last q) ->
  pop_avail mem q = (q, None) /\ has_avail mem q = false.
Proof.
  intros [Hs Hk Hlo Hhi Hd _] [Hidx _] Hl. pose proof (Z.pow_pos_nonneg 2 k).
  simpl in Hidx. rewrite Z.add_0_r, wrap_small in Hidx by done.
  unfold pop_avail, has_avail. rewrite !(proj2 (Z.eqb_neq _ _)) by lia. simpl orb.
  rewrite (wrap_small 64 (avail q + 2)) by (unfold is_word; lia). rewrite Hidx.
  by rewrite Z.eqb_refl.
Qed.

Lemma avail_ok_last mem q k n : avail_ok mem q k -> avail_ok mem (with_last q n) k.
Proof. by intros []. Qed.

Lemma drain_holds mem q k heads fuel :
  avail_ok mem q k -> is_word 16 (last q) -> Z.of_nat (length heads) < 2 ^ 16 ->
  ring_holds mem q heads -> (length heads < fuel)%nat ->
  drain fuel mem q =
    (with_last q (u16 (last q + Z.of_nat (length heads))),
     (fun h => (h, collect_descs_with mem (desc q) h (qsize q) (indirect q))) <$> heads) /\
  has_avail mem (with_last q (u16 (last q + Z.of_nat (length heads)))) = false.
Proof.
  revert q fuel. induction heads as [|h heads IH]; intros q [|fuel] Ho Hl Hlen Hr Hf;
    simpl in Hf; try lia; simpl drain.
  - destruct (pop_avail_empty _ _ _ Ho Hr Hl) as [-> He]. simpl.
    rewrite Z.add_0_r, wrap_small by done. by destruct q.
  - destruct (pop_avail_holds _ _ _ _ _ Ho Hl Hlen Hr) as [-> Hr'].
    simpl in Hlen. destruct (IH (with_last q (u16 (last q + 1))) fuel) as [Hd Ha];
      [by apply avail_ok_last|by apply wrap_range|lia|done|lia|].
    rewrite Hd. simpl in *. rewrite u16_add_l in *.
    replace (last q + 1 + Z.of_nat (length heads)) with (last q + Z.of_nat (S (length heads))) in * by lia.
    split; [|done]. reflexivity.
Qed.

(** C20: Every request the driver publishes is taken exactly once, in order and
    whole.  From a queue the device has caught up with, the driver publishes the
    heads of any batch of at most [size] requests, each a chain of at most [size]
    descriptors written in memory as virtio lays them out, linked in the queue's
    table or all in one indirect table.  Draining the queue then returns exactly
    those requests, in the driver's order, each with its head and exactly the
    descriptors the driver linked; [last] ends where the driver's index is, and
    nothing is left on offer.  The 16-bit indices may wrap anywhere in the batch. *)
Theorem published_popped_in_order mem q (k : Z) (reqs : list (Z * list Desc)) (fuel : nat)
    (Ho : avail_ok mem q k) (Hlast : is_word 16 (last q)) (Hd : 0 <= desc q /\ desc q + 16 * qsize q <= 2 ^ 64)
    (Hlen : Z.of_nat (length reqs) <= qsize q) (Hfuel : (length reqs < fuel)%nat) :
  let mem' := publish mem q (last q) reqs.*1 in
  let q' := with_last q (u16 (last q + Z.of_nat (length reqs))) in
  Forall (fun r => posted mem' q r.1 r.2) reqs ->
  drain fuel mem' q = (q', reqs) /\ has_avail mem' q' = false.
Proof.
  intros mem' q' Hp.
  assert (Hsz : qsize q <= 2 ^ 15).
  { rewrite (ao_size _ _ _ Ho). apply Z.pow_le_mono_r; [lia|apply (ao_k _ _ _ Ho)]. }
  assert (Hc : Forall (fun r => 0 <= r.1 < qsize q /\
    collect_descs_with mem' (desc q) r.1 (qsize q) (indirect q) = r.2) reqs).
  { eapply Forall_impl; [exact Hp|]. intros r Hr. destruct Hd. by apply posted_collected. }
  assert (Hw : Forall (is_word 16) reqs.*1).
  { apply Forall_fmap. eapply Forall_impl; [exact Hc|]. intros r [Hr _]. simpl. unfold is_word. lia. }
  assert (Hl : length reqs.*1 = length reqs) by apply length_fmap.
  destruct (drain_holds mem' q k reqs.*1 fuel) as [Hdr Ha];
    [by apply avail_ok_write, write_entries_ok|done|lia|apply (publish_holds _ _ k); [done|lia|done]|lia|].
  rewrite Hl in *. split; [|done]. rewrite Hdr. unfold q'. f_equal. rewrite <- list_fmap_compose.
  transitivity (id <$> reqs); [|apply list_fmap_id]. apply list_fmap_ext. intros i [h l] Hi.
  apply (Forall_lookup_1 _ _ _ _ Hc) in Hi as [_ E]. simpl in *. by rewrite E.
Qed.

(** * The used ring *)

Record used_ok mem q (k : Z) : Prop := {
  uo_size : qsize q = 2 ^ k;
  uo_k : 0 <= k <= 15;
  uo_low : 0 < used q;
  uo_high : used q + 4 + 8 * qsize q <= 2 ^ 64;
  uo_mapped : forall off n, 0 <= off -> off + Z.of_nat n <= 4 + 8 * qsize q ->
    is_Some (read_le mem (used q + off) n)
}.

Definition used_elem q (idx : Z) : Z := used q + 4 + 8 * (idx mod qsize q).

(** The completions of a batch, pushed one after the other. *)
Fixpoint push_all mem q (comps : list (Z * Z)) : M :=
  match comps with
  | [] => mem
  | (head, len) :: comps => push_all (push_used mem q head len).1 q comps
  end.

Lemma used_ok_write mem q k a n v : used_ok mem q k -> used_ok (write_le mem a n v) q k.
Proof.
  intros []. split; try done. intros off m H1 H2. apply write_le_mapped. by apply uo_mapped0.
Qed.

(** One completion, as three writes to known places. *)
Lemma push_used_writes mem q k head len ui :
  used_ok mem q k -> read_le mem (used q + 2) 2 = Some ui ->
  push_used mem q head len =
    (write_le (write_le (write_le mem (used_elem q ui) 4 head) (used_elem q ui + 4) 4 len)
       (used q + 2) 2 (u16 (ui + 1)), u16 (ui + 1)).
Proof.
  intros [Hs Hk Hlo Hhi _] Hui. pose proof (Z.pow_pos_nonneg 2 k).
  pose proof (entry_slot q k ui Hs Hk) as Hslot.
  unfold push_used, used_elem. rewrite !(proj2 (Z.eqb_neq _ _)) by lia. simpl orb.
  rewrite (wrap_small 64 (used q + 2)) by (unfold is_word; lia). rewrite Hui. simpl default.
  rewrite (wrap_small 64 (used q + (4 + _))) by (unfold is_word; lia).
  rewrite (wrap_small 64 (used q + (4 + _) + 4)) by (unfold is_word; lia).
  by replace (used q + (4 + ui mod qsize q * 8)) with (used q + 4 + 8 * (ui mod qsize q)) by lia.
Qed.

Lemma push_used_spec mem q k head len ui :
  used_ok mem q k -> read_le mem (used q + 2) 2 = Some ui -> is_word 32 head -> is_word 32 len ->
  let mem' := (push_used mem q head len).1 in
  used_ok mem' q k /\ (push_used mem q head len).2 = u16 (ui + 1) /\
  read_le mem' (used q + 2) 2 = Some (u16 (ui + 1)) /\
  read_le mem' (used_elem q ui) 4 = Some head /\ read_le mem' (used_elem q ui + 4) 4 = Some len /\
  (forall a n, apart (used_elem q ui) 8 a (Z.of_nat n) -> apart (used q + 2) 2 a (Z.of_nat n) ->
     read_slice mem' a n = read_slice mem a n).
Proof.
  intros Ho Hui Hh Hl mem'. unfold mem'. rewrite (push_used_writes _ _ k _ _ _ Ho Hui). simpl fst.
  pose proof (uo_size _ _ _ Ho) as Hs. pose proof (uo_k _ _ _ Ho) as Hk.
  pose proof (Z.pow_pos_nonneg 2 k).
  pose proof (entry_slot q k ui Hs Hk) as Hslot.
  pose proof (uo_mapped _ _ _ Ho) as Hm.
  split; [by repeat apply used_ok_write|]. split; [done|].
  assert (Hb : apart (used q + 2) 2 (used_elem q ui) 8) by (unfold apart, used_elem; lia).
  unfold apart in Hb.
  split; [apply write_le_read; [|by apply wrap_range]; rewrite !write_le_mapped; apply Hm; lia|].
  split; [|split].
  - rewrite write_le_apart by (unfold apart; lia). rewrite write_le_apart by (unfold apart; lia).
    apply write_le_read; [|done]. unfold used_elem. rewrite <- Z.add_assoc. apply Hm; lia.
  - rewrite write_le_apart by (unfold apart; lia). apply write_le_read; [|done].
    rewrite write_le_mapped. unfold used_elem. rewrite <- !Z.add_assoc. apply Hm; lia.
  - intros a n Ha1 Ha2. unfold apart in *. rewrite !write_le_slice; unfold apart; [done|lia..].
Qed.

(** What the driver finds: the index, and one element per completion. *)
Definition driver_sees mem q (ui : Z) (comps : list (Z * Z)) : Prop :=
  read_le mem (used q + 2) 2 = Some (u16 (ui + Z.of_nat (length comps))) /\
  forall i head len, comps !! i = Some (head, len) ->
    read_le mem (used_elem q (ui + Z.of_nat i)) 4 = Some head /\
    read_le mem (used_elem q (ui + Z.of_nat i) + 4) 4 = Some len.

(** Outside the used ring's index and elements. *)
Definition outside_used q (a n : Z) : Prop := apart (used q + 2) (2 + 8 * qsize q) a n.

Lemma push_all_slot mem q k ui comps a n :
  used_ok mem q k -> read_le mem (used q + 2) 2 = Some ui ->
  Forall (fun c => is_word 32 c.1 /\ is_word 32 c.2) comps ->
  (forall j, 0 <= j < Z.of_nat (length comps) -> apart (used_elem q (ui + j)) 8 a (Z.of_nat n)) ->
  apart (used q + 2) 2 a (Z.of_nat n) ->
  read_slice (push_all mem q comps) a n = read_slice mem a n.
Proof.
  intros Ho Hui Hc. revert mem ui Ho Hui.
  induction Hc as [|[head len] comps [Hh Hl] Hc IH]; intros mem ui Ho Hui Ha Hb; simpl; [done|].
  destruct (push_used_spec mem q k head len ui Ho Hui Hh Hl) as (Ho' & _ & Hui' & _ & _ & Hfr).
  rewrite (IH _ (u16 (ui + 1)) Ho' Hui'); [|intros j Hj|done].
  - apply Hfr; [|done]. specialize (Ha 0). rewrite Z.add_0_r in Ha. apply Ha. simpl. lia.
  - specialize (Ha (1 + j)). unfold used_elem in *. rewrite (uo_size _ _ _ Ho) in *.
    rewrite next_slot by apply (uo_k _ _ _ Ho). apply Ha. simpl. lia.
Qed.

Lemma push_all_sees mem q k ui comps :
  used_ok mem q k -> read_le mem (used q + 2) 2 = Some ui -> is_word 16 ui ->
  Forall (fun c => is_word 32 c.1 /\ is_word 32 c.2) comps ->
  Z.of_nat (length comps) <= qsize q ->
  driver_sees (push_all mem q comps) q ui comps.
Proof.
  intros Ho Hui Hw Hc. revert mem ui Ho Hui Hw.
  induction Hc as [|[head len] comps [Hh Hl] Hc IH]; intros mem ui Ho Hui Hw Hlen.
  { split; [|done]. simpl. by rewrite Z.add_0_r, wrap_small. }
  destruct (push_used_spec mem q k head len ui Ho Hui Hh Hl) as (Ho' & _ & Hui' & He1 & He2 & _).
  pose proof (uo_size _ _ _ Ho) as Hs. pose proof (uo_k _ _ _ Ho) as Hk.
  cbn [length] in Hlen. destruct (IH _ (u16 (ui + 1)) Ho' Hui') as [Hi Hel]; [by apply wrap_range|lia|].
  assert (Hshift : forall j, used_elem q (u16 (ui + 1) + j) = used_elem q (ui + (1 + j))).
  { intros j. unfold used_elem. by rewrite Hs, next_slot by lia. }
  split; simpl push_all.
  - rewrite Hi, u16_add_l. do 2 f_equal. simpl. lia.
  - intros [|i] h l Hi'; simpl in Hi'.
    + injection Hi' as -> ->. rewrite Z.add_0_r. pose proof (entry_slot q k ui Hs Hk).
      pose proof (Z.pow_pos_nonneg 2 k). rewrite Hs in Hlen.
      rewrite <- He1, <- He2. unfold read_le.
      split; (rewrite (push_all_slot _ q k (u16 (ui + 1))); [done..| |unfold apart, used_elem; lia]);
        intros j Hj; rewrite Hshift;
        pose proof (slots_apart ui (1 + j) 0 k ltac:(lia) ltac:(lia) ltac:(lia) ltac:(lia)) as Hne;
        rewrite Z.add_0_r in Hne; unfold apart, used_elem; rewrite Hs in *; lia.
    + specialize (Hel i h l Hi'). rewrite Hshift in Hel.
      by replace (ui + Z.of_nat (S i)) with (ui + (1 + Z.of_nat i)) by lia.
Qed.

(** C21: The driver reads back exactly the completions the device pushed.  After
    any batch of at most [size] completions, the used index has advanced by the
    batch's length and the element of each position holds the head and length
    pushed there, in order, across the wrap of the index; and no byte of guest
    memory outside the used ring was touched. *)
Theorem completions_reach_driver mem q (k ui : Z) (comps : list (Z * Z))
    (Ho : used_ok mem q k) (Hui : read_le mem (used q + 2) 2 = Some ui)
    (Hc : Forall (fun c => is_word 32 c.1 /\ is_word 32 c.2) comps)
    (Hlen : Z.of_nat (length comps) <= qsize q) :
  let mem' := push_all mem q comps in
  driver_sees mem' q ui comps /\
  (forall a n, outside_used q a (Z.of_nat n) -> read_slice mem' a n = read_slice mem a n).
Proof.
  pose proof (uo_size _ _ _ Ho) as Hs. pose proof (uo_k _ _ _ Ho) as Hk. split.
  - apply (push_all_sees mem q k); try done. by apply read_le_range in Hui.
  - intros a n Ha. unfold outside_used, apart in Ha.
    apply (push_all_slot mem q k ui); [done..| |unfold apart; lia].
    intros j Hj. pose proof (entry_slot q k (ui + j) Hs Hk). unfold apart, used_elem. lia.
Qed.

(** * Interrupts *)

(** The indices a batch from [old] to [new] passes. *)
Definition passed (old new event : Z) : Prop :=
  exists j, 0 <= j < u16 (new - old) /\ event = u16 (old + j).

(** The event-index test is right across wrap-around: for 16-bit indices,
    [vring_need_event] holds exactly when the index the other side waits for is
    one of those the batch from [old] to [new] passed. *)
Theorem need_event_iff_passed (event new old : Z)
    (He : is_word 16 event) (Hn : is_word 16 new) (Hold : is_word 16 old) :
  vring_need_event event new old = true <-> passed old new event.
Proof.
  unfold vring_need_event, passed. rewrite Z.ltb_lt. unfold is_word, wrap in *.
  change (2 ^ 16) with 65536 in *. split.
  - intros H. exists ((event - old) mod 65536). split.
    + Z.div_mod_to_equations. lia.
    + rewrite Zplus_mod_idemp_r. replace (old + (event - old)) with event by lia.
      by rewrite Z.mod_small.
  - intros (j & Hj & ->). Z.div_mod_to_equations. lia.
Qed.

End Rings.
