(* ===== verification/VirtqueueRun.v ===== *)
(** Rings the device does not write over.  Memory a driver keeps for itself is a
    list of ranges; what the device writes apart from them leaves them as they
    were, and then every pop sees the avail ring the driver left.

    Feature and address registers written half by half, and the queue theorems
    on concrete rings in a 64 KiB RAM, laid out as the sources' tests do. *)

From S2P Require Import Prelude GuestMem Virtqueue VirtqueueFacts VirtqueueRings.

Section Quiet.
Context {M : Type} {HM : GuestMemory M} {HL : GuestMemoryLaws M}.
Implicit Types (q : QState).

(** A pop moves the device's position and nothing else of the queue. *)
Lemma pop_avail_last (m : M) q : exists n, (pop_avail m q).1 = with_last q n /\
  (is_word 16 (last q) -> is_word 16 n).
Proof.
  unfold pop_avail. case_match; [exists (last q); by destruct q|].
  case_match; [|exists (last q); by destruct q]. case_match; [exists (last q); by destruct q|].
  case_match; [|exists (last q); by destruct q].
  eexists. split; [reflexivity|]. intros _. by apply wrap_range.
Qed.

(** * Memory the device leaves alone *)

(** [own] is memory only the driver writes: ranges, start and length. *)
Definition apart_from (own : list (Z * Z)) (a n : Z) : Prop :=
  Forall (fun r => apart r.1 r.2 a n) own.

Definition same_on (own : list (Z * Z)) (m m' : M) : Prop :=
  Forall (fun r => read_slice m' r.1 (Z.to_nat r.2) = read_slice m r.1 (Z.to_nat r.2)) own.

(** Ranges of bytes that can be written down. *)
Definition own_ok (own : list (Z * Z)) : Prop := Forall (fun r => 0 <= r.2) own.

Lemma same_on_refl own m : same_on own m m.
Proof. by apply Forall_true. Qed.

Lemma same_on_trans own m1 m2 m3 : same_on own m1 m2 -> same_on own m2 m3 -> same_on own m1 m3.
Proof.
  unfold same_on. rewrite !Forall_forall. intros H1 H2 r Hr. rewrite H2, H1 by done. done.
Qed.

Lemma same_on_write own m a l :
  own_ok own -> apart_from own a (Z.of_nat (length l)) -> same_on own m (write_slice m a l).1.
Proof.
  unfold own_ok, apart_from, same_on. rewrite !Forall_forall. intros Ho Ha r Hr.
  apply read_apart. rewrite Z2Nat.id by (by apply Ho). pose proof (Ha r Hr). unfold apart in *. lia.
Qed.

Lemma same_on_write_le own m a n v :
  own_ok own -> apart_from own a (Z.of_nat n) -> same_on own m (write_le m a n v).
Proof. intros Ho Ha. apply same_on_write; [done|]. by rewrite length_le_bytes. Qed.

Lemma apart_from_sub own a n b m :
  apart_from own a n -> a <= b -> b + m <= a + n -> apart_from own b m.
Proof. intros H Hl Hr. eapply Forall_impl; [exact H|]. intros r. unfold apart. lia. Qed.

(** Reads inside an owned range that is mapped. *)
Lemma same_on_read own m m' a n off k :
  same_on own m m' -> (a, n) ∈ own -> is_Some (read_slice m a (Z.to_nat n)) ->
  0 <= off -> off + Z.of_nat k <= n -> read_le m' (a + off) k = read_le m (a + off) k.
Proof.
  unfold same_on. rewrite Forall_forall. intros Hs Hin [l Hl] Ho Hk. pose proof (Hs _ Hin) as He.
  simpl in He. rewrite Hl in He. unfold read_le. f_equal.
  assert (Hsub : forall m1 : M, read_slice m1 a (Z.to_nat n) = Some l ->
    read_slice m1 (a + off) k = Some (take k (drop (Z.to_nat off) l))).
  { intros m1 H1. replace (Z.to_nat n) with (Z.to_nat off + (k + (Z.to_nat n - Z.to_nat off - k)))%nat
      in H1 by lia.
    apply read_split in H1 as [_ H1]. rewrite Z2Nat.id in H1 by done. by apply read_split in H1 as [H1 _]. }
  by rewrite !Hsub.
Qed.

(** A descriptor of an owned table. *)
Lemma read_desc_same own m m' table n i :
  same_on own m m' -> (table, n) ∈ own -> is_Some (read_slice m table (Z.to_nat n)) ->
  0 <= i -> 16 * i + 16 <= n -> 0 <= table -> table + n <= 2 ^ 64 ->
  read_desc m' table i = read_desc m table i.
Proof.
  intros Hs Hin Hm Hi Hn Ht Hw. unfold read_desc, checked_add, VRING_DESC_SIZE.
  assert (Hr : forall off c, 0 <= off -> off + Z.of_nat c <= n ->
    read_le m' (table + off) c = read_le m (table + off) c) by (intros; by eapply same_on_read).
  rewrite (proj2 (Z.ltb_lt (table + i * 16) _)) by lia. simpl.
  rewrite !(proj2 (Z.ltb_lt _ _)) by lia. simpl. rewrite <- !Z.add_assoc. by rewrite !Hr by lia.
Qed.

(** The used ring, flags and event index included, is not the driver's. *)
Definition used_apart (own : list (Z * Z)) q : Prop :=
  0 <= used q /\ 0 <= qsize q /\ used q + 6 + 8 * qsize q <= 2 ^ 64 /\
  apart_from own (used q) (6 + 8 * qsize q).

Lemma push_used_same own (m : M) q h len :
  own_ok own -> used_apart own q -> same_on own m (push_used m q h len).1.
Proof.
  intros Ho (Hu & Hq & Hw & Ha). unfold push_used.
  destruct ((qsize q =? 0) || (used q =? 0)) eqn:Ez; [apply same_on_refl|]. bool_prop. simpl.
  set (us := _ mod qsize q). assert (Hus : 0 <= us < qsize q) by (apply Z.mod_pos_bound; lia).
  rewrite (wrap_small 64 (used q + (4 + us * 8))) by (unfold is_word; lia).
  rewrite (wrap_small 64 (used q + (4 + us * 8) + 4)) by (unfold is_word; lia).
  rewrite (wrap_small 64 (used q + 2)) by (unfold is_word; lia).
  repeat (eapply same_on_trans; [|apply same_on_write_le; [done|]];
    [|eapply apart_from_sub; [exact Ha|lia..]]). apply same_on_refl.
Qed.

(** * A quiet ring *)

Section Driver.
Variables (own : list (Z * Z)) (m0 : M) (q0 : QState) (k idx : Z).

(** The driver's avail ring is in [own], where the device's used ring is not;
    [idx] is the index it holds. *)
Record ring_quiet : Prop := {
  rq_ok : own_ok own;
  rq_avail : avail_ok m0 q0 k;
  rq_ring : (avail q0, 4 + 2 * qsize q0) ∈ own;
  rq_used : used_apart own q0;
  rq_idx : read_le m0 (avail q0 + 2) 2 = Some idx
}.

Context (HQ : ring_quiet).

Lemma quiet_read m off n :
  same_on own m0 m -> 0 <= off -> off + Z.of_nat n <= 4 + 2 * qsize q0 ->
  read_le m (avail q0 + off) n = read_le m0 (avail q0 + off) n.
Proof.
  intros Hs Ho Hn. pose proof (rq_avail HQ) as Ha. eapply same_on_read; [exact Hs|apply (rq_ring HQ)| |lia..].
  apply read_le_mapped. replace (avail q0) with (avail q0 + 0) by lia. apply (ao_mapped _ _ _ Ha); [lia|].
  pose proof (ao_size _ _ _ Ha). pose proof (ao_k _ _ _ Ha). pose proof (Z.pow_pos_nonneg 2 k). lia.
Qed.

(** A pop sees the ring the driver left. *)
Lemma ring_quiet_pop m l :
  same_on own m0 m -> is_word 16 l ->
  let q := with_last q0 l in
  (l = idx /\ pop_avail m q = (q, None) /\ has_avail m q = false) \/
  (l <> idx /\ exists h, read_le m0 (avail q0 + (4 + l mod qsize q0 * 2)) 2 = Some h /\
     pop_avail m q = (with_last q0 (u16 (l + 1)),
       Some (h, collect_descs_with m (desc q0) h (qsize q0) (indirect q0)))).
Proof.
  intros Hs Hl q. pose proof (rq_avail HQ) as Ha. destruct Ha as [Hsz Hk Hlow Hhigh Hd Hm].
  pose proof (Z.pow_pos_nonneg 2 k). assert (Hslot : 0 <= l mod qsize q0 < qsize q0) by (apply Z.mod_pos_bound; lia).
  assert (Ei : read_le m (avail q0 ⊕ 2) 2 = Some idx).
  { rewrite wrap_small by (unfold is_word; lia). rewrite quiet_read by (done || lia). apply (rq_idx HQ). }
  unfold pop_avail, has_avail. simpl. rewrite Ei.
  rewrite !(proj2 (Z.eqb_neq _ _)) by (done || lia). simpl.
  destruct (Z.eqb_spec idx l) as [->|Hne]; [by left|right]. split; [done|].
  rewrite wrap_small by (unfold is_word; lia). rewrite (quiet_read m) by (done || lia).
  destruct (Hm (4 + l mod qsize q0 * 2) 2%nat) as [h Hh]; [lia..|]. rewrite Hh. by exists h.
Qed.

Lemma dist_step l : is_word 16 idx -> is_word 16 l -> l <> idx ->
  u16 (idx - u16 (l + 1)) = u16 (idx - l) - 1.
Proof.
  unfold is_word, wrap. change (2 ^ 16) with 65536. intros Hi Hl Hne. Z.div_mod_to_equations. lia.
Qed.

End Driver.

End Quiet.

(** * Registers written in halves *)

Lemma half_split x : is_word 64 x ->
  Z.land x 0xFFFFFFFF00000000 = (x / 2 ^ 32) * 2 ^ 32 /\ Z.land x 0x00000000FFFFFFFF = x mod 2 ^ 32.
Proof.
  intros Hx. split.
  - change 0xFFFFFFFF00000000 with (lnotw 64 (2 ^ 32 - 1)). rewrite land_align_down by (lia || done).
    pose proof (Z.div_mod x (2 ^ 32)). lia.
  - change 0x00000000FFFFFFFF with (2 ^ 32 - 1). apply land_ones_mod. lia.
Qed.

Lemma lo_half_value old v : is_word 64 old -> is_word 32 v -> lo_half old v = (old / 2 ^ 32) * 2 ^ 32 + v.
Proof.
  intros Ho Hv. unfold lo_half. destruct (half_split old Ho) as [-> _].
  rewrite <- (Z.shiftl_mul_pow2 _ 32), Z.lor_comm by lia.
  rewrite lor_shiftl_add by (unfold is_word in *; lia). rewrite Z.shiftl_mul_pow2 by lia. lia.
Qed.

Lemma hi_half_value old v : is_word 64 old -> is_word 32 v -> hi_half old v = v * 2 ^ 32 + old mod 2 ^ 32.
Proof.
  intros Ho Hv. unfold hi_half. destruct (half_split old Ho) as [_ ->].
  rewrite lor_shiftl_add by (lia || (apply Z.mod_pos_bound; lia)). lia.
Qed.

(** The low word after a low write, the high word after a high write, and each
    write keeps the other. *)
Lemma halves_word old v (hi : bool) : is_word 64 old -> is_word 32 v ->
  let new := if hi then hi_half old v else lo_half old v in
  is_word 64 new /\
  new mod 2 ^ 32 = (if hi then old mod 2 ^ 32 else v) /\
  new / 2 ^ 32 = (if hi then v else old / 2 ^ 32).
Proof.
  intros Ho Hv. destruct hi; simpl; rewrite ?hi_half_value, ?lo_half_value by done;
    unfold is_word in *; change (2 ^ 64) with 18446744073709551616 in *;
    change (2 ^ 32) with 4294967296 in *; split; [|split| |split]; Z.div_mod_to_equations; lia.
Qed.

(** A driver's writes to [driver_feature], each after its selector. *)
Fixpoint write_features (com : ComCfg) (ws : list (Z * Z)) : ComCfg :=
  match ws with
  | [] => com
  | (sel, v) :: ws =>
      write_features
        (write_driver_feature {| dfs := dfs com; dff := sel; df := df com; st := st com |} v) ws
  end.

(** The last value written under selector [sel], [old] if none was. *)
Fixpoint last_write (sel old : Z) (ws : list (Z * Z)) : Z :=
  match ws with
  | [] => old
  | (s, v) :: ws => last_write sel (if s =? sel then v else old) ws
  end.

(** Feature negotiation keeps the words apart.  Whatever selectors a driver
    walks (Linux writes words 0 to 3), the accepted features are the last value
    written to word 0 in the low half and the last written to word 1 in the
    high half; writes under any other selector change neither. *)
Theorem driver_features_words (com : ComCfg) (ws : list (Z * Z))
    (Hdf : is_word 64 (df com)) (Hws : Forall (fun w => is_word 32 w.2) ws) :
  df (write_features com ws) mod 2 ^ 32 = last_write 0 (df com mod 2 ^ 32) ws /\
  df (write_features com ws) / 2 ^ 32 = last_write 1 (df com / 2 ^ 32) ws.
Proof.
  revert com Hdf. induction Hws as [|[sel v] ws Hv _ IH]; intros com Hdf; simpl; [done|].
  simpl in Hv. unfold write_driver_feature. simpl.
  destruct (Z.eqb_spec sel 0) as [->|H0]; [|destruct (Z.eqb_spec sel 1) as [->|H1]].
  - destruct (halves_word (df com) v false Hdf Hv) as (Hw & Hl & Hh).
    destruct (IH {| dfs := dfs com; dff := 0; df := lo_half (df com) v; st := st com |} Hw) as [-> ->].
    simpl in *. by rewrite Hl, Hh.
  - destruct (halves_word (df com) v true Hdf Hv) as (Hw & Hl & Hh).
    destruct (IH {| dfs := dfs com; dff := 1; df := hi_half (df com) v; st := st com |} Hw) as [-> ->].
    simpl in *. by rewrite Hl, Hh.
  - by apply (IH {| dfs := dfs com; dff := sel; df := df com; st := st com |}).
Qed.

(** Linux acknowledging VERSION_1, EVENT_IDX and INDIRECT over four words. *)
Lemma driver_features_words_witness :
  let com := write_features ComCfg_default [(0, 0x30000000); (1, 1); (2, 0); (3, 0)] in
  df com mod 2 ^ 32 = 0x30000000 /\ df com / 2 ^ 32 = 1.
Proof.
  apply (driver_features_words ComCfg_default [(0, 0x30000000); (1, 1); (2, 0); (3, 0)]).
  - by vm_compute.
  - repeat constructor; vm_compute; congruence.
Defined.

(** * Concrete rings *)

Definition put_desc (m : FlatRam) (table idx a len flags next : Z) : FlatRam :=
  let at_ := table + idx * VRING_DESC_SIZE in
  let m := write_le m at_ 8 a in
  let m := write_le m (at_ + 8) 4 len in
  let m := write_le m (at_ + 12) 2 flags in
  write_le m (at_ + 14) 2 next.

Definition TABLE : Z := 0x1000.
Definition INDIRECT : Z := 0x4000.

(** A direct descriptor, then an indirect one naming a table of two. *)
Definition mixed_ram : FlatRam :=
  let m := ram_zero 0x10000 in
  let m := put_desc m TABLE 0 0x7000 16 VRING_DESC_F_NEXT 1 in
  let m := put_desc m TABLE 1 INDIRECT 32 VRING_DESC_F_INDIRECT 0 in
  let m := put_desc m INDIRECT 0 0x8000 512 VRING_DESC_F_NEXT 1 in
  put_desc m INDIRECT 1 0x9000 1 VRING_DESC_F_WRITE 0.

Lemma collect_bounded_witness :
  Z.of_nat (length (collect_descs_with mixed_ram TABLE 1 4 true)) <= 4.
Proof. apply (collect_bounded mixed_ram TABLE 1 4 true); lia. Defined.

Lemma indirect_chain :
  chain mixed_ram INDIRECT 2 0 [(0x8000, 512, VRING_DESC_F_NEXT); (0x9000, 1, VRING_DESC_F_WRITE)].
Proof.
  eapply chain_more; [by vm_compute|by vm_compute|done|done|].
  eapply chain_last; by vm_compute.
Qed.

Lemma collect_complete_witness :
  collect_descs_with mixed_ram TABLE 1 4 true =
    [(0x8000, 512, VRING_DESC_F_NEXT); (0x9000, 1, VRING_DESC_F_WRITE)].
Proof.
  apply (collect_complete mixed_ram TABLE 1 4 true); [lia|simpl; lia|]. right. split; [done|].
  exists INDIRECT, 32, VRING_DESC_F_INDIRECT, 0.
  split; [by vm_compute|]. split; [done|]. split; [apply indirect_chain|simpl; done].
Defined.

Lemma mixed_chain_truncated_witness :
  (length (collect_descs_with mixed_ram TABLE 0 4 true) < 3)%nat.
Proof.
  apply (mixed_chain_truncated mixed_ram TABLE 0 1 4 INDIRECT 32 VRING_DESC_F_INDIRECT 0
    [(0x7000, 16, VRING_DESC_F_NEXT)]
    [(0x8000, 512, VRING_DESC_F_NEXT); (0x9000, 1, VRING_DESC_F_WRITE)]).
  - lia.
  - eapply prefix_more; [by vm_compute|by vm_compute|done|done|apply prefix_here].
  - simpl. lia.
  - by vm_compute.
  - done.
  - vm_compute. split; congruence.
  - apply indirect_chain.
  - done.
Defined.

(** The status byte of that request is what is missing. *)
Example mixed_chain_loses_status :
  collect_descs_with mixed_ram TABLE 0 4 true =
    [(0x7000, 16, VRING_DESC_F_NEXT); (0x8000, 512, VRING_DESC_F_NEXT)].
Proof. by vm_compute. Qed.

(** A queue of four whose index is about to wrap. *)
Definition wrap_queue : QState :=
  {| desc := TABLE; avail := 0x2000; used := 0x3000; qsize := 4; enabled := true;
     last := 0xFFFF; vec := 0; indirect := true; event_idx := false |}.

Lemma ram_zero_mapped len a n : 0 <= a -> a + Z.of_nat n <= len ->
  is_Some (read_le (ram_zero len) a n).
Proof.
  intros H1 H2. apply read_le_mapped. simpl. unfold ram_read, ram_has. simpl.
  rewrite (proj2 (andb_true_iff _ _)) by (rewrite !Z.leb_le; lia). eauto.
Qed.

(** Two descriptors linked in the table, and a request in an indirect table. *)
Definition posted_ram : FlatRam :=
  let m := ram_zero 0x10000 in
  let m := put_desc m TABLE 2 0x7000 16 VRING_DESC_F_NEXT 1 in
  let m := put_desc m TABLE 1 0x7800 512 VRING_DESC_F_WRITE 0 in
  let m := put_desc m TABLE 0 INDIRECT 32 VRING_DESC_F_INDIRECT 0 in
  let m := put_desc m INDIRECT 0 0x8000 512 VRING_DESC_F_NEXT 1 in
  put_desc m INDIRECT 1 0x9000 1 VRING_DESC_F_WRITE 0.

Definition two_requests : list (Z * list Desc) :=
  [(2, [(0x7000, 16, 1); (0x7800, 512, 2)]); (0, [(0x8000, 512, 1); (0x9000, 1, 2)])].

Lemma put_desc_maps m table idx a len flags next b n :
  is_Some (read_le (put_desc m table idx a len flags next) b n) <-> is_Some (read_le m b n).
Proof. unfold put_desc. by rewrite !write_le_mapped. Qed.

Lemma published_popped_in_order_witness :
  drain 3 (publish posted_ram wrap_queue 0xFFFF [2; 0]) wrap_queue = (with_last wrap_queue 1, two_requests).
Proof.
  apply (published_popped_in_order posted_ram wrap_queue 2 two_requests 3).
  - split; try done. intros off n H1 H2. unfold posted_ram. cbv zeta. rewrite !put_desc_maps.
    apply ram_zero_mapped; simpl in *; lia.
  - by vm_compute.
  - vm_compute. split; congruence.
  - simpl. lia.
  - simpl. lia.
  - apply Forall_cons. split; [|apply Forall_cons; split; [|constructor]].
    + split; [vm_compute; congruence|]. left. eapply (linked_more _ _ _ 2 _ 1).
      * vm_compute. split; congruence.
      * vm_compute. repeat split; congruence.
      * reflexivity.
      * reflexivity.
      * eapply (linked_last _ _ _ 1 _ 0); vm_compute; repeat split; congruence.
    + split; [vm_compute; congruence|]. right. split; [reflexivity|]. exists INDIRECT, 2, 4, 0.
      split; [vm_compute; split; congruence|]. split; [vm_compute; repeat split; congruence|].
      split; [reflexivity|]. split; [vm_compute; congruence|]. split; [vm_compute; congruence|].
      split; [vm_compute; congruence|]. eapply (linked_more _ _ _ 0 _ 1).
      * vm_compute. split; congruence.
      * vm_compute. repeat split; congruence.
      * reflexivity.
      * reflexivity.
      * eapply (linked_last _ _ _ 1 _ 0); vm_compute; repeat split; congruence.
Defined.

Lemma completions_reach_driver_witness :
  driver_sees (push_all (ram_zero 0x10000) wrap_queue [(2, 513); (0, 1)]) wrap_queue 0
    [(2, 513); (0, 1)].
Proof.
  apply (completions_reach_driver (ram_zero 0x10000) wrap_queue 2 0 [(2, 513); (0, 1)]).
  - split; try done. intros off n H1 H2. apply ram_zero_mapped; simpl in *; lia.
  - by vm_compute.
  - repeat constructor; vm_compute; congruence.
  - simpl. lia.
Defined.

Lemma need_event_iff_passed_witness : vring_need_event 0xFFFE 1 0xFFFD = true.
Proof.
  apply (need_event_iff_passed 0xFFFE 1 0xFFFD); [by vm_compute..|].
  exists 1. by vm_compute.
Defined.
