(* ===== verification/Msix.v ===== *)
(** MSI-X for virtio-pci devices: the configuration-space helpers and
    [MsixTable] of [virtio-devices/src/common.rs], and [MsiVector]/[MsiRouter]
    of [pci/src/msi.rs].

    A method that writes to an eventfd returns the file descriptors it signalled.
    The interrupt routing table belongs to the hypervisor: [MsiRouter] is a class. *)

From S2P Require Import Prelude Virtqueue.

Record MsiVector := { gsi : Z; irq_fd : Z }.

Definition vector_trigger (v : MsiVector) : list Z := [irq_fd v].

Class MsiRouter (R : Type) := {
  (** The new routing table, and whether the hypervisor took the route. *)
  set_msi_route : R -> Z -> Z -> Z -> R * bool
}.

(** * Configuration space *)

Definition MSIX_MSG_CTL : Z := 2.
Definition MSIX_ENABLE : Z := Z.shiftl 1 15.
Definition MSIX_MSG_CTL_WRITABLE : Z := Z.lor MSIX_ENABLE (Z.shiftl 1 14).

Definition read_cfg_space (cfg : list Z) (offset : Z) (len : nat) : list Z :=
  read_window cfg (Z.to_nat offset) len 0xff.

Definition cfg_byte (cfg : list Z) (i : Z) : Z := default 0 (cfg !! Z.to_nat i).

(** The loop of [write_msix_control] from byte [off] on. *)
Fixpoint write_control_bytes (cfg : list Z) (ctl_off off : Z) (data : list Z) : list Z :=
  match data with
  | [] => cfg
  | byte :: data =>
      let cfg :=
        if (off <? ctl_off) || (ctl_off + 2 <=? off) then cfg
        else
          let lane := off - ctl_off in
          let mask := u8 (Z.shiftr MSIX_MSG_CTL_WRITABLE (8 * lane)) in
          <[Z.to_nat off := Z.lor (Z.land (cfg_byte cfg off) (lnotw 8 mask)) (Z.land byte mask)]> cfg in
      write_control_bytes cfg ctl_off (off + 1) data
  end.

Definition write_msix_control (cfg : list Z) (msix_cap offset : Z) (data : list Z) : list Z :=
  write_control_bytes cfg (msix_cap + MSIX_MSG_CTL) offset data.

Definition msix_control (cfg : list Z) (msix_cap : Z) : Z :=
  let idx := msix_cap + MSIX_MSG_CTL in
  of_le [cfg_byte cfg idx; cfg_byte cfg (idx + 1)].

Definition msix_enabled (cfg : list Z) (msix_cap : Z) : bool :=
  has_bits (msix_control cfg msix_cap) MSIX_ENABLE.

(** * The table *)

Section Table.
Context {R : Type} {HR : MsiRouter R}.

(** [N], the number of entries, is [length entries]. *)
Record MsixTable := {
  entries : list (list Z);
  pba : Z;
  msix_on : bool;
  vectors : list MsiVector;
  router : option R;
  intx : option Z
}.

Definition MsixTable_default (n : nat) : MsixTable :=
  {| entries := replicate n (replicate 16 0); pba := 0; msix_on := false; vectors := [];
     router := None; intx := None |}.

Definition bind (t : MsixTable) (vs : list MsiVector) (r : R) (fd : Z) : MsixTable :=
  {| entries := entries t; pba := pba t; msix_on := msix_on t; vectors := vs;
     router := Some r; intx := Some fd |}.

Definition with_entries (t : MsixTable) (e : list (list Z)) : MsixTable :=
  {| entries := e; pba := pba t; msix_on := msix_on t; vectors := vectors t;
     router := router t; intx := intx t |}.
Definition with_pba (t : MsixTable) (p : Z) : MsixTable :=
  {| entries := entries t; pba := p; msix_on := msix_on t; vectors := vectors t;
     router := router t; intx := intx t |}.
Definition with_router (t : MsixTable) (r : option R) : MsixTable :=
  {| entries := entries t; pba := pba t; msix_on := msix_on t; vectors := vectors t;
     router := r; intx := intx t |}.
Definition set_msix_on (t : MsixTable) (b : bool) : MsixTable :=
  {| entries := entries t; pba := pba t; msix_on := b; vectors := vectors t;
     router := router t; intx := intx t |}.

Definition entry (t : MsixTable) (i : nat) : list Z := default [] (entries t !! i).

(** Bit 0 of vector control. *)
Definition entry_masked (e : list Z) : bool := has_bits (default 0 (e !! 12%nat)) 1.

Definition masked (t : MsixTable) (i : nat) : bool :=
  (i <? length (entries t))%nat && entry_masked (entry t i).

Definition read (t : MsixTable) (offset : Z) (len : nat) : list Z :=
  let ei := Z.to_nat (offset / 16) in
  if (length (entries t) <=? ei)%nat then replicate len 0
  else read_window (entry t ei) (Z.to_nat (offset mod 16)) len 0.

(** The address and data an entry's four dwords encode. *)
Definition entry_addr (e : list Z) : Z :=
  Z.lor (of_le (take 4 e)) (Z.shiftl (of_le (take 4 (drop 4 e))) 32).
Definition entry_data (e : list Z) : Z := of_le (take 4 (drop 8 e)).

Definition program_route (t : MsixTable) (ei : nat) : MsixTable :=
  let e := entry t ei in
  if entry_addr e =? 0 then t
  else
    match router t, vectors t !! ei with
    | Some r, Some v => with_router t (Some (set_msi_route r (gsi v) (entry_addr e) (entry_data e)).1)
    | _, _ => t
    end.

Definition write (t : MsixTable) (offset : Z) (data : list Z) : MsixTable * bool :=
  let ei := Z.to_nat (offset / 16) in
  if (length (entries t) <=? ei)%nat then (t, false)
  else
    let so := Z.to_nat (offset mod 16) in
    let was_masked := entry_masked (entry t ei) in
    let e := splice (entry t ei) so (take (16 - so) data) in
    let t := with_entries t (<[ei := e]> (entries t)) in
    let now_unmasked := negb (entry_masked e) in
    let t := program_route t ei in
    let had_pending := Z.testbit (pba t) (Z.of_nat ei) in
    let deliver_now := was_masked && now_unmasked && had_pending in
    (if deliver_now then with_pba t (Z.land (pba t) (lnotw 64 (Z.shiftl 1 (Z.of_nat ei)))) else t,
     deliver_now).

Definition trigger (t : MsixTable) (vector : Z) : MsixTable * list Z :=
  if negb (msix_on t) || (vector =? VIRTQ_MSI_NO_VECTOR) then
    (t, match intx t with Some fd => [fd] | None => [] end)
  else
    let idx := Z.to_nat vector in
    if (length (entries t) <=? idx)%nat then (t, [])
    else if masked t idx then (with_pba t (Z.lor (pba t) (Z.shiftl 1 (Z.of_nat idx))), [])
    else
      match vectors t !! idx with
      | Some v => (t, vector_trigger v)
      | None => (t, [])
      end.

Definition trigger_unmasked (t : MsixTable) (idx : nat) : list Z :=
  match vectors t !! idx with Some v => vector_trigger v | None => [] end.

Definition read_pba (t : MsixTable) (offset : Z) (len : nat) : list Z :=
  read_window (le_bytes 8 (pba t)) (Z.to_nat offset) len 0.

Definition call_fd (t : MsixTable) (vector : Z) : option Z :=
  if negb (msix_on t) || (vector =? VIRTQ_MSI_NO_VECTOR) then intx t
  else irq_fd <$> vectors t !! Z.to_nat vector.

End Table.

Arguments MsixTable : clear implicits.
