(* ===== verification/MsixFacts.v ===== *)
(** MSI-X delivery: no interrupt is lost while a vector is masked, none is
    invented, and the control register lets the guest change two bits only.

    The MSI-X control register, and the delivery theorems on a four-entry table. *)

From S2P Require Import Prelude Virtqueue Msix.

(** * Pending bits *)

Lemma testbit_set x i j : 0 <= i -> 0 <= j ->
  Z.testbit (Z.lor x (Z.shiftl 1 i)) j = Z.testbit x j || (i =? j).
Proof.
  intros Hi Hj. rewrite Z.lor_spec. f_equal. rewrite Z.shiftl_1_l, Z.pow2_bits_eqb by done. done.
Qed.

Lemma testbit_clear x i j : 0 <= i < 64 -> 0 <= j -> is_word 64 x ->
  Z.testbit (Z.land x (lnotw 64 (Z.shiftl 1 i))) j = Z.testbit x j && negb (i =? j).
Proof.
  intros Hi Hj Hx. rewrite Z.shiftl_1_l.
  pose proof (Z.pow_pos_nonneg 2 i). pose proof (Z.pow_lt_mono_r 2 i 64).
  rewrite lnotw_ldiff; [|lia|done|unfold is_word; lia].
  rewrite Z.ldiff_spec, Z.pow2_bits_eqb by lia. done.
Qed.

Lemma set_bit_word x i : 0 <= i < 64 -> is_word 64 x -> is_word 64 (Z.lor x (Z.shiftl 1 i)).
Proof.
  unfold is_word. intros Hi Hx. rewrite Z.shiftl_1_l. split; [apply Z.lor_nonneg; split; lia|].
  pose proof (Z.pow_pos_nonneg 2 i).
  destruct (decide (Z.lor x (2 ^ i) = 0)); [lia|].
  apply Z.log2_lt_pow2; [pose proof (proj2 (Z.lor_nonneg x (2 ^ i))); lia|].
  rewrite Z.log2_lor by lia. rewrite Z.log2_pow2 by lia.
  destruct (decide (x = 0)) as [->|]; [simpl; lia|].
  apply Z.max_lub_lt; [|lia]. apply Z.log2_lt_pow2; lia.
Qed.

Lemma clear_bit_word x y : is_word 64 x -> is_word 64 y -> is_word 64 (Z.land x (lnotw 64 y)).
Proof.
  unfold is_word. intros Hx Hy. split; [apply Z.land_nonneg; lia|].
  destruct (decide (Z.land x (lnotw 64 y) = 0)); [lia|].
  pose proof (proj2 (Z.land_nonneg x (lnotw 64 y)) ltac:(lia)).
  apply Z.log2_lt_pow2; [lia|].
  pose proof (Z.log2_land x (lnotw 64 y) ltac:(lia) ltac:(unfold lnotw; lia)).
  destruct (decide (x = 0)) as [->|]; [by rewrite Z.land_0_l in *|].
  assert (Z.log2 x < 64) by (apply Z.log2_lt_pow2; lia). lia.
Qed.

Section Delivery.
Context {R : Type} {HR : MsiRouter R}.
Implicit Types (t : MsixTable R).

Definition pending t (i : nat) : bool := Z.testbit (pba t) (Z.of_nat i).

(** What a device does to its table once MSI-X is on: queues and configuration
    changes trigger vectors, the guest writes entries (a write that unmasks a
    pending vector is followed by its delivery, as in every device's [write_bar]). *)
Inductive msix_op := Trig (v : nat) | TableWrite (offset : Z) (data : list Z).

Definition run_op t (op : msix_op) : MsixTable R * list Z :=
  match op with
  | Trig v => trigger t (Z.of_nat v)
  | TableWrite off data =>
      let '(t, deliver) := write t off data in
      (t, if deliver then trigger_unmasked t (Z.to_nat (off / 16)) else [])
  end.

Fixpoint run t (ops : list msix_op) : MsixTable R * list Z :=
  match ops with
  | [] => (t, [])
  | op :: ops =>
      let '(t, fds) := run_op t op in
      let '(t, fds') := run t ops in
      (t, fds ++ fds')
  end.

(** MSI-X is on, every entry has its vector, and only masked entries pend. *)
Record table_ok t : Prop := {
  tk_on : msix_on t = true;
  tk_n : (length (entries t) <= 64)%nat;
  tk_vec : length (vectors t) = length (entries t);
  tk_pba : is_word 64 (pba t);
  tk_pend : forall i, pending t i = true -> masked t i = true
}.

Lemma program_route_same t i :
  entries (program_route t i) = entries t /\ pba (program_route t i) = pba t /\
  msix_on (program_route t i) = msix_on t /\ vectors (program_route t i) = vectors t /\
  intx (program_route t i) = intx t.
Proof. unfold program_route. case_match; [done|]. by repeat case_match. Qed.

(** A table write, once routing is set aside. *)
Lemma write_cases t off data :
  let ei := Z.to_nat (off / 16) in
  let e := splice (entry t ei) (Z.to_nat (off mod 16)) (take (16 - Z.to_nat (off mod 16)) data) in
  let d := masked t ei && negb (entry_masked e) && pending t ei in
  (length (entries t) <= ei)%nat /\ write t off data = (t, false) \/
  (ei < length (entries t))%nat /\
  exists t', write t off data = (t', d) /\
    entries t' = <[ei := e]> (entries t) /\ msix_on t' = msix_on t /\ vectors t' = vectors t /\
    intx t' = intx t /\ pba t' = if d then Z.land (pba t) (lnotw 64 (Z.shiftl 1 (Z.of_nat ei))) else pba t.
Proof.
  intros ei e d. unfold write. fold ei.
  destruct (Nat.leb_spec (length (entries t)) ei) as [Hl|Hl]; [by left|].
  right. split; [done|]. fold e.
  set (t1 := with_entries t (<[ei := e]> (entries t))).
  destruct (program_route_same t1 ei) as (H1 & H2 & H3 & H4 & H5).
  assert (Hd : entry_masked (entry t ei) && negb (entry_masked e) &&
    Z.testbit (pba (program_route t1 ei)) (Z.of_nat ei) = d).
  { rewrite H2. unfold d, masked, pending. by rewrite (proj2 (Nat.ltb_lt _ _) Hl). }
  rewrite Hd. eexists. split; [reflexivity|]. destruct d; simpl; by rewrite ?H1, ?H2, ?H3, ?H4, ?H5.
Qed.

(** The same for an entry's mask: a write changes only the entry it hits. *)
Lemma masked_after t t' ei e i :
  entries t' = <[ei := e]> (entries t) -> (ei < length (entries t))%nat ->
  masked t' i = if decide (i = ei) then entry_masked e else masked t i.
Proof.
  intros He Hlt. unfold masked, entry. rewrite He, length_insert. case_decide as Hi.
  - subst i. rewrite list_lookup_insert_eq by done. by rewrite (proj2 (Nat.ltb_lt _ _) Hlt).
  - by rewrite list_lookup_insert_ne.
Qed.

Lemma write_ok t off data : table_ok t -> table_ok (write t off data).1.
Proof.
  intros [Hon Hn Hv Hp Hpm]. destruct (write_cases t off data) as [[_ ->]|(Hlt & t' & -> & He & Ho & Hve & _ & Hpb)].
  { done. }
  set (ei := Z.to_nat (off / 16)) in *. set (e := splice _ _ _) in *.
  simpl. split.
  - congruence.
  - by rewrite He, length_insert.
  - by rewrite Hve, He, length_insert.
  - rewrite Hpb. case_match; [|done]. apply clear_bit_word; [done|].
    rewrite Z.shiftl_1_l. unfold is_word. pose proof (Z.pow_pos_nonneg 2 (Z.of_nat ei)).
    pose proof (Z.pow_lt_mono_r 2 (Z.of_nat ei) 64). lia.
  - intros i. unfold pending. rewrite Hpb, (masked_after _ _ _ _ _ He Hlt).
    destruct (masked t ei && negb (entry_masked e) && pending t ei) eqn:Ed.
    + rewrite testbit_clear by (lia || done). intros [Hb Hne]%andb_true_iff.
      case_decide; [subst i; by rewrite Z.eqb_refl in Hne|]. by apply Hpm.
    + intros Hb. case_decide as Hi; [|by apply Hpm]. subst i.
      rewrite (Hpm ei Hb) in Ed. unfold pending in Ed. rewrite Hb in Ed. simpl in Ed.
      by rewrite andb_true_r in Ed; apply negb_false_iff in Ed.
Qed.

(** Triggering leaves the enable bit and the entries. *)
Lemma trigger_shape t v :
  msix_on (trigger t v).1 = msix_on t /\ entries (trigger t v).1 = entries t.
Proof. unfold trigger. by repeat case_match. Qed.

Lemma trigger_masked t v :
  table_ok t -> (v < length (entries t))%nat -> masked t v = true ->
  trigger t (Z.of_nat v) = (with_pba t (Z.lor (pba t) (Z.shiftl 1 (Z.of_nat v))), []).
Proof.
  intros [Hon Hn Hv _ _] Hlt Hm. unfold trigger. rewrite Hon. simpl orb.
  rewrite (proj2 (Z.eqb_neq _ _)) by (unfold VIRTQ_MSI_NO_VECTOR; lia).
  rewrite Nat2Z.id, (proj2 (Nat.leb_gt _ _)), Hm by done. done.
Qed.

Lemma trigger_unmasked_fd t v vec :
  table_ok t -> vectors t !! v = Some vec -> masked t v = false ->
  trigger t (Z.of_nat v) = (t, [irq_fd vec]).
Proof.
  intros [Hon Hn Hv _ _] Hvec Hm. unfold trigger. rewrite Hon. simpl orb.
  pose proof (lookup_lt_Some _ _ _ Hvec).
  rewrite (proj2 (Z.eqb_neq _ _)) by (unfold VIRTQ_MSI_NO_VECTOR; lia).
  by rewrite Nat2Z.id, (proj2 (Nat.leb_gt _ _)), Hm, Hvec by lia.
Qed.

Lemma trigger_ignored t v :
  table_ok t -> (length (entries t) <= v)%nat ->
  (trigger t (Z.of_nat v)).1 = t /\
  ((trigger t (Z.of_nat v)).2 = [] \/ Z.of_nat v = VIRTQ_MSI_NO_VECTOR).
Proof.
  intros [Hon _ _ _ _] Hge. unfold trigger. rewrite Hon. simpl orb.
  destruct (Z.eqb_spec (Z.of_nat v) VIRTQ_MSI_NO_VECTOR); [by split; [|right]|].
  rewrite Nat2Z.id, (proj2 (Nat.leb_le _ _)) by done. by split; [|left].
Qed.

Lemma run_op_ok t op : table_ok t -> table_ok (run_op t op).1.
Proof.
  intros Hok. destruct op as [v|off data]; simpl.
  - destruct (decide (v < length (entries t))%nat) as [Hlt|Hge].
    2: { by destruct (trigger_ignored t v Hok) as [-> _]; [lia|]. }
    destruct (masked t v) eqn:Hm.
    + rewrite trigger_masked by done. destruct Hok as [Hon Hn Hv Hp Hpm]. simpl. split; simpl; try done.
      * apply set_bit_word; [lia|done].
      * intros i. unfold pending. simpl. rewrite testbit_set by lia.
        intros [Hb|Hb]%orb_true_iff; [by apply Hpm|]. bool_prop. apply Nat2Z.inj in Hb. by subst i.
    + destruct (lookup_lt_is_Some_2 (vectors t) v) as [vec Hvec]; [by rewrite (tk_vec t Hok)|].
      by rewrite (trigger_unmasked_fd t v vec).
  - pose proof (write_ok t off data Hok) as Hw. by destruct (write t off data).
Qed.

Lemma run_op_vectors t op : vectors (run_op t op).1 = vectors t.
Proof.
  destruct op as [v|off data]; simpl.
  - unfold trigger. by repeat case_match.
  - destruct (write_cases t off data) as [[_ ->]|(_ & t' & -> & _ & _ & H & _)]; done.
Qed.

Lemma run_ok t ops : table_ok t -> table_ok (run t ops).1.
Proof.
  revert t. induction ops as [|op ops IH]; intros t Hok; simpl; [done|].
  pose proof (run_op_ok t op Hok) as H1. destruct (run_op t op) as [t1 f1].
  specialize (IH t1 H1). by destruct (run t1 ops).
Qed.

Lemma run_cons t op ops :
  (run t (op :: ops)).1 = (run (run_op t op).1 ops).1 /\
  (run t (op :: ops)).2 = (run_op t op).2 ++ (run (run_op t op).1 ops).2.
Proof. simpl. destruct (run_op t op) as [t1 f1]. simpl. by destruct (run t1 ops). Qed.

(** How often [ops] triggers vector [v]. *)
Fixpoint triggers (v : nat) (ops : list msix_op) : nat :=
  match ops with
  | [] => 0
  | Trig w :: ops => (if decide (w = v) then 1 else 0) + triggers v ops
  | TableWrite _ _ :: ops => triggers v ops
  end.

Definition signals (fd : Z) (fds : list Z) : nat := length (filter (fun x => x = fd) fds).

Lemma signals_app fd l1 l2 : signals fd (l1 ++ l2) = (signals fd l1 + signals fd l2)%nat.
Proof. unfold signals. by rewrite filter_app, length_app. Qed.

(** Different vectors signal different eventfds, none of them the INTx line. *)
Definition fds_distinct t : Prop :=
  NoDup (irq_fd <$> vectors t) /\ forall fd, intx t = Some fd -> fd ∉ irq_fd <$> vectors t.

Lemma signals_other t v w vec vec' :
  fds_distinct t -> vectors t !! v = Some vec -> vectors t !! w = Some vec' ->
  signals (irq_fd vec) [irq_fd vec'] = if decide (w = v) then 1%nat else 0%nat.
Proof.
  intros [Hnd _] Hv Hw. unfold signals. rewrite filter_cons, filter_nil.
  case_decide as Hf; case_decide as Hwv; simpl; try done.
  - exfalso. apply Hwv. apply (NoDup_lookup _ w v (irq_fd vec') Hnd); rewrite list_lookup_fmap.
    + by rewrite Hw.
    + rewrite Hv. simpl. congruence.
  - subst w. congruence.
Qed.

Definition pend_count t (v : nat) : nat := if pending t v then 1 else 0.

Lemma step_count t op v vec :
  table_ok t -> fds_distinct t -> vectors t !! v = Some vec ->
  (signals (irq_fd vec) (run_op t op).2 + pend_count (run_op t op).1 v <=
   triggers v [op] + pend_count t v)%nat.
Proof.
  intros Hok Hd Hvec. destruct op as [w|off data]; cbn [triggers run_op].
  - destruct (decide (w < length (entries t))%nat) as [Hlt|Hge].
    2: { destruct (trigger_ignored t w Hok) as [-> [->|E]]; [lia|simpl; lia|].
         unfold trigger. rewrite E, Z.eqb_refl, orb_true_r. cbn [snd].
         destruct (intx t) as [fd|] eqn:Ei; [|simpl; lia].
         destruct Hd as [_ Hi]. specialize (Hi fd Ei). unfold signals. rewrite filter_cons, filter_nil.
         case_decide as Hf; [|simpl; lia]. exfalso. apply Hi. subst fd.
         apply list_elem_of_fmap. exists vec. split; [done|]. by eapply list_elem_of_lookup_2. }
    destruct (masked t w) eqn:Hm.
    + rewrite trigger_masked by done. simpl. unfold pend_count, pending. simpl.
      rewrite testbit_set by lia. destruct (Z.testbit (pba t) (Z.of_nat v)); simpl.
      { lia. }
      destruct (Z.eqb_spec (Z.of_nat w) (Z.of_nat v)); [|lia].
      rewrite decide_True by lia. lia.
    + destruct (lookup_lt_is_Some_2 (vectors t) w) as [vec' Hvec']; [by rewrite (tk_vec t Hok)|].
      rewrite (trigger_unmasked_fd t w vec') by done. cbn [fst snd].
      rewrite (signals_other t v w vec vec') by done. lia.
  - destruct (write_cases t off data) as [[_ ->]|(Hlt & t' & -> & _ & _ & Hve & _ & Hpb)]; [simpl; lia|].
    set (ei := Z.to_nat (off / 16)) in *. set (e := splice _ _ _) in *.
    destruct (masked t ei && negb (entry_masked e) && pending t ei) eqn:Ed; cbn [fst snd].
    2: { unfold pend_count, pending. rewrite Hpb. simpl. lia. }
    unfold trigger_unmasked. rewrite Hve.
    destruct (vectors t !! ei) as [vec'|] eqn:Hv'.
    2: { exfalso. apply lookup_ge_None in Hv'. rewrite (tk_vec t Hok) in Hv'. lia. }
    unfold vector_trigger. rewrite (signals_other t v ei vec vec') by done.
    unfold pend_count, pending. rewrite Hpb, testbit_clear;
      [|pose proof (tk_n t Hok); lia|lia|apply (tk_pba t Hok)].
    bool_prop. unfold pending in *. destruct (decide (ei = v)) as [->|Hne].
    + rewrite Z.eqb_refl, andb_false_r. rewrite H0. simpl. lia.
    + rewrite (proj2 (Z.eqb_neq _ _)), andb_true_r by lia. simpl. lia.
Qed.

Lemma run_op_distinct t op : fds_distinct t -> fds_distinct (run_op t op).1.
Proof.
  intros [H1 H2]. unfold fds_distinct. rewrite run_op_vectors. split; [done|].
  intros fd Hfd. apply H2. rewrite <- Hfd. destruct op as [w|off data]; simpl.
  - unfold trigger. by repeat case_match.
  - by destruct (write_cases t off data) as [[_ ->]|(_ & t' & -> & _ & _ & _ & H & _)].
Qed.

(** No interrupt is invented.  Over any sequence of triggers and table
    writes, the signals a vector's eventfd receives, plus one if the vector ends
    up pending, number at most the times the vector was triggered (plus one if
    it was pending at the start): masked triggers coalesce, and unmasking
    delivers at most one interrupt for them. *)
Theorem no_spurious_interrupt t (ops : list msix_op) (v : nat) (vec : MsiVector)
    (Hok : table_ok t) (Hd : fds_distinct t) (Hvec : vectors t !! v = Some vec) :
  let '(t', fds) := run t ops in
  (signals (irq_fd vec) fds + pend_count t' v <= triggers v ops + pend_count t v)%nat.
Proof.
  enough (H : (signals (irq_fd vec) (run t ops).2 + pend_count (run t ops).1 v <=
    triggers v ops + pend_count t v)%nat) by (by destruct (run t ops)).
  revert t Hok Hd Hvec. induction ops as [|op ops IH]; intros t Hok Hd Hvec; [simpl; lia|].
  destruct (run_cons t op ops) as [-> ->]. rewrite signals_app.
  pose proof (step_count t op v vec Hok Hd Hvec) as H1.
  specialize (IH (run_op t op).1 (run_op_ok t op Hok) (run_op_distinct t op Hd)
    ltac:(by rewrite run_op_vectors)).
  replace (triggers v (op :: ops)) with (triggers v [op] + triggers v ops)%nat
    by (destruct op; simpl; lia).
  lia.
Qed.

(** * The contract of a vector

    What the PCI specification asks of one vector, on its mask bit and its pending
    bit: the mask bit is bit 0 of byte 12 of the vector's entry, as the guest last
    wrote it; an interrupt is delivered at once when unmasked and made pending when
    masked; and a write that unmasks delivers what was pending, once. *)

(** The byte a table write puts at byte 12 of the entry it hits, if it reaches it. *)
Definition control_written (off : Z) (data : list Z) : option Z :=
  if off mod 16 <=? 12 then data !! (12 - Z.to_nat (off mod 16))%nat else None.

Definition contract_step (v : nat) (s : bool * bool) (op : msix_op) : (bool * bool) * nat :=
  let '(m, p) := s in
  match op with
  | Trig w => if decide (w = v) then (if m then ((m, true), 0%nat) else ((m, p), 1%nat)) else ((m, p), 0%nat)
  | TableWrite off data =>
      if decide (Z.to_nat (off / 16) = v) then
        let m' := match control_written off data with Some b => Z.odd b | None => m end in
        if m && negb m' && p then ((m', false), 1%nat) else ((m', p), 0%nat)
      else ((m, p), 0%nat)
  end.

Fixpoint contract (v : nat) (s : bool * bool) (ops : list msix_op) : (bool * bool) * nat :=
  match ops with
  | [] => (s, 0%nat)
  | op :: ops =>
      let '(s, n) := contract_step v s op in
      let '(s, k) := contract v s ops in
      (s, (n + k)%nat)
  end.

Definition mask_bit t (v : nat) : bool := Z.odd (default 0 (entry t v !! 12%nat)).

Definition entries_whole t : Prop := Forall (fun e => length e = 16%nat) (entries t).

Lemma entry_masked_odd e : entry_masked e = Z.odd (default 0 (e !! 12%nat)).
Proof.
  unfold entry_masked, has_bits. change 1 with (Z.ones 1) at 1. rewrite Z.land_ones by lia. change (2 ^ 1) with 2.
  rewrite Zmod_odd. by destruct (Z.odd _).
Qed.

Lemma masked_is_bit t v : (v < length (entries t))%nat -> masked t v = mask_bit t v.
Proof. intros Hv. unfold masked, mask_bit. rewrite (proj2 (Nat.ltb_lt _ _)) by done. apply entry_masked_odd. Qed.

Lemma entry_whole t v : entries_whole t -> (v < length (entries t))%nat -> length (entry t v) = 16%nat.
Proof.
  intros Hw Hv. unfold entry. destruct (lookup_lt_is_Some_2 _ _ Hv) as [e He]. rewrite He. by eapply Forall_lookup_1 in Hw.
Qed.

(** Byte 12 of an entry after a write into it. *)
Lemma splice_control e off data :
  length e = 16%nat ->
  let so := Z.to_nat (off mod 16) in
  Z.odd (default 0 (splice e so (take (16 - so) data) !! 12%nat)) =
    match control_written off data with Some b => Z.odd b | None => Z.odd (default 0 (e !! 12%nat)) end.
Proof.
  intros He so. pose proof (Z.mod_pos_bound off 16). unfold control_written. fold so.
  assert (Hl : (length (take (16 - so) data) <= 16 - so)%nat) by (rewrite length_take; lia).
  destruct (Z.leb_spec (off mod 16) 12).
  - destruct (data !! (12 - so)%nat) as [b|] eqn:Eb.
    + pose proof (lookup_lt_Some _ _ _ Eb). rewrite lookup_splice_in by (rewrite length_take; lia).
      rewrite lookup_take_lt by lia. by rewrite Eb.
    + apply lookup_ge_None in Eb. rewrite lookup_splice_out; [done|lia|]. rewrite length_take. lia.
  - rewrite lookup_splice_out; [done|lia|]. left. lia.
Qed.

Lemma run_op_whole t op : entries_whole t -> entries_whole (run_op t op).1.
Proof.
  intros Hw. unfold entries_whole in *. destruct op as [v|off data]; cbn [run_op].
  - by rewrite (proj2 (trigger_shape t (Z.of_nat v))).
  - destruct (write_cases t off data) as [[_ ->]|(Hlt & t' & -> & He & _)]; [done|]. simpl. rewrite He.
    apply Forall_insert; [done|]. rewrite length_splice; [by apply entry_whole|].
    rewrite entry_whole, length_take by done. pose proof (Z.mod_pos_bound off 16). lia.
Qed.

Lemma trigger_spec t w v vec :
  table_ok t -> fds_distinct t -> vectors t !! v = Some vec ->
  let '(t', fds) := run_op t (Trig w) in
  contract_step v (mask_bit t v, pending t v) (Trig w) = ((mask_bit t' v, pending t' v), signals (irq_fd vec) fds).
Proof.
  intros Hok Hd Hvec. pose proof (lookup_lt_Some _ _ _ Hvec) as Hv. rewrite (tk_vec t Hok) in Hv. cbn [run_op contract_step].
  destruct (decide (w < length (entries t))%nat) as [Hlt|Hge].
  2: { destruct (trigger_ignored t w Hok) as [Et Ef]; [lia|]. destruct (trigger t (Z.of_nat w)) as [t' fds] eqn:E.
       cbn [fst snd] in *. subst t'. rewrite decide_False by lia. f_equal. destruct Ef as [->|En]; [done|].
       unfold trigger in E. rewrite En, Z.eqb_refl, orb_true_r in E. injection E as <-.
       destruct (intx t) as [fd|] eqn:Ei; [|done]. destruct Hd as [_ Hi]. unfold signals. rewrite filter_cons, filter_nil.
       case_decide as Hf; [|done]. exfalso. apply (Hi fd Ei). subst fd.
       apply list_elem_of_fmap. exists vec. split; [done|]. by eapply list_elem_of_lookup_2. }
  destruct (masked t w) eqn:Hm.
  - rewrite trigger_masked by done. unfold pending. cbn [pba with_pba]. rewrite testbit_set by lia. case_decide as E.
    + subst w. rewrite <- masked_is_bit, Hm, Z.eqb_refl, orb_true_r by done. f_equal. f_equal.
      by rewrite <- Hm, masked_is_bit.
    + rewrite (proj2 (Z.eqb_neq _ _)), orb_false_r by lia. done.
  - destruct (lookup_lt_is_Some_2 (vectors t) w) as [vec' Hvec']; [by rewrite (tk_vec t Hok)|].
    rewrite (trigger_unmasked_fd t w vec') by done. rewrite (signals_other t v w vec vec') by done.
    case_decide as E; [|done]. subst w. by rewrite <- masked_is_bit, Hm by done.
Qed.

Lemma write_spec t off data v vec :
  table_ok t -> fds_distinct t -> entries_whole t -> vectors t !! v = Some vec ->
  let '(t', fds) := run_op t (TableWrite off data) in
  contract_step v (mask_bit t v, pending t v) (TableWrite off data) = ((mask_bit t' v, pending t' v), signals (irq_fd vec) fds).
Proof.
  intros Hok Hd Hw Hvec. pose proof (lookup_lt_Some _ _ _ Hvec) as Hv. rewrite (tk_vec t Hok) in Hv.
  cbn [run_op contract_step].
  destruct (write_cases t off data) as [[Hge ->]|(Hlt & t' & -> & He & _ & Hve & _ & Hpb)].
  { rewrite decide_False by lia. done. }
  set (ei := Z.to_nat (off / 16)) in *.
  assert (Hm' : mask_bit t' v = if decide (ei = v) then
    match control_written off data with Some b => Z.odd b | None => mask_bit t v end else mask_bit t v).
  { unfold mask_bit at 1. unfold entry at 1. rewrite He. case_decide as E.
    - subst v. rewrite list_lookup_insert_eq by done. cbn [default]. by apply splice_control, entry_whole.
    - by rewrite list_lookup_insert_ne. }
  rewrite entry_masked_odd, splice_control, (masked_is_bit t ei) in * by (done || by apply entry_whole).
  fold (mask_bit t ei) in *.
  set (d := mask_bit t ei && negb _ && pending t ei) in *.
  assert (Hp : pending t' v = if d && bool_decide (ei = v) then false else pending t v).
  { unfold pending. rewrite Hpb. destruct d; [|done]. pose proof (tk_n t Hok).
    rewrite testbit_clear by (lia || apply (tk_pba t Hok)). case_bool_decide as E; cbn [andb].
    - subst v. by rewrite Z.eqb_refl, andb_false_r.
    - by rewrite (proj2 (Z.eqb_neq _ _)), andb_true_r by lia. }
  assert (Hs : signals (irq_fd vec) (if d then trigger_unmasked t' ei else []) = if d && bool_decide (ei = v) then 1%nat else 0%nat).
  { destruct d; [|done]. unfold trigger_unmasked. rewrite Hve.
    destruct (lookup_lt_is_Some_2 (vectors t) ei) as [vec' Hv']; [by rewrite (tk_vec t Hok)|]. rewrite Hv'.
    unfold vector_trigger. rewrite (signals_other t v ei vec vec') by done. by case_decide; case_bool_decide. }
  rewrite Hm', Hp, Hs. case_decide as E; [|by rewrite bool_decide_false, andb_false_r by done].
  subst v. rewrite bool_decide_true, andb_true_r by done. unfold d. by destruct (_ && _ && _).
Qed.

(** C18: No interrupt is lost, none is early and none is invented.  With MSI-X on,
    from any consistent table with an eventfd of its own for each vector, and over
    any triggers and table writes of the guest, half-written entries included, a
    vector's eventfd is signalled exactly as its contract says: a trigger while the
    mask bit the guest last wrote is clear is delivered at once; one while it is set
    is not delivered and stays pending for as long as it is set; the write that
    clears it delivers what is pending, once however often it was triggered; and
    nothing else signals it. *)
Theorem no_lost_interrupt t (ops : list msix_op) (v : nat) (vec : MsiVector)
    (Hok : table_ok t) (Hd : fds_distinct t) (Hw : entries_whole t) (Hvec : vectors t !! v = Some vec) :
  let '(t', fds) := run t ops in
  contract v (mask_bit t v, pending t v) ops = ((mask_bit t' v, pending t' v), signals (irq_fd vec) fds) /\
  (pending t' v = true -> mask_bit t' v = true).
Proof.
  revert t Hok Hd Hw Hvec. induction ops as [|op ops IH]; intros t Hok Hd Hw Hvec.
  { cbn [run contract]. split; [done|]. intros Hp%(tk_pend t Hok). rewrite <- masked_is_bit; [done|].
    rewrite <- (tk_vec t Hok). by eapply lookup_lt_Some. }
  assert (Hs : let '(t', fds) := run_op t op in
    contract_step v (mask_bit t v, pending t v) op = ((mask_bit t' v, pending t' v), signals (irq_fd vec) fds))
    by (destruct op; [by apply trigger_spec|by apply write_spec]).
  pose proof (run_op_ok t op Hok) as H1. pose proof (run_op_distinct t op Hd) as H2.
  pose proof (run_op_whole t op Hw) as H3. pose proof (run_op_vectors t op) as H4. cbn [run contract].
  destruct (run_op t op) as [t1 f1]. cbn [fst] in *. rewrite Hs.
  specialize (IH t1 H1 H2 H3 ltac:(by rewrite H4)). destruct (run t1 ops) as [t2 f2]. destruct IH as [-> Hp].
  by rewrite signals_app.
Qed.

End Delivery.

(** * Message Control *)

Lemma length_write_control cfg ctl off data :
  length (write_control_bytes cfg ctl off data) = length cfg.
Proof.
  revert cfg off. induction data as [|b data IH]; intros cfg off; simpl; [done|].
  rewrite IH. case_match; [done|]. apply length_insert.
Qed.

Lemma cfg_byte_insert cfg i j x : 0 <= i -> 0 <= j < Z.of_nat (length cfg) ->
  cfg_byte (<[Z.to_nat j := x]> cfg) i = if i =? j then x else cfg_byte cfg i.
Proof.
  intros Hi Hj. unfold cfg_byte. destruct (Z.eqb_spec i j) as [->|Hne].
  - by rewrite list_lookup_insert_eq by lia.
  - by rewrite list_lookup_insert_ne by lia.
Qed.

Lemma land_byte x : is_byte x -> Z.land x 0xFF = x.
Proof. intros Hx. change 0xFF with (2 ^ 8 - 1). rewrite land_ones_mod by lia. by apply wrap_small. Qed.

Lemma lor_byte x y : is_byte x -> is_byte y -> is_byte (Z.lor x y).
Proof.
  intros Hx Hy. rewrite <- (land_byte x), <- (land_byte y), <- Z.land_lor_distr_l by done.
  change 0xFF with (2 ^ 8 - 1). rewrite land_ones_mod by lia. by apply wrap_range.
Qed.

Lemma land_byte_r x y : is_byte y -> is_byte (Z.land x y).
Proof.
  intros Hy. rewrite <- (land_byte y), Z.land_assoc by done.
  change 0xFF with (2 ^ 8 - 1). rewrite land_ones_mod by lia. by apply wrap_range.
Qed.

Lemma control_byte_ok old b lane :
  is_byte (Z.lor (Z.land old (lnotw 8 (u8 (Z.shiftr MSIX_MSG_CTL_WRITABLE lane))))
             (Z.land b (u8 (Z.shiftr MSIX_MSG_CTL_WRITABLE lane)))).
Proof.
  assert (Hm : is_byte (u8 (Z.shiftr MSIX_MSG_CTL_WRITABLE lane))) by (by apply wrap_range).
  apply lor_byte; apply land_byte_r; [by apply lnotw_range|done].
Qed.

Lemma write_control_keeps_bytes cfg ctl off data :
  Forall is_byte cfg -> Forall is_byte (write_control_bytes cfg ctl off data).
Proof.
  revert cfg off. induction data as [|b data IH]; intros cfg off Hb; simpl; [done|].
  apply IH. case_match; [done|]. apply Forall_insert; [done|apply control_byte_ok].
Qed.

(** The byte at [ctl + 1] keeps its low six bits. *)
Definition merge_high (old b : Z) : Z := Z.lor (Z.land old 0x3F) (Z.land b 0xC0).

Lemma write_control_spec cfg ctl off data i :
  Forall is_byte cfg -> 0 <= ctl -> ctl + 1 < Z.of_nat (length cfg) -> 0 <= off -> 0 <= i ->
  cfg_byte (write_control_bytes cfg ctl off data) i =
  if (i =? ctl + 1) && (off <=? i) then
    match data !! Z.to_nat (i - off) with
    | Some b => merge_high (cfg_byte cfg i) b
    | None => cfg_byte cfg i
    end
  else cfg_byte cfg i.
Proof.
  intros Hb Hc Hl. revert cfg off Hb Hl. induction data as [|b data IH]; intros cfg off Hb Hl Ho Hi; simpl.
  { by case_match. }
  set (cfg1 := if (off <? ctl) || (ctl + 2 <=? off) then cfg else _).
  assert (Hcfg1 : forall j, 0 <= j -> cfg_byte cfg1 j =
    if (j =? ctl + 1) && (j =? off) then merge_high (cfg_byte cfg j) b else cfg_byte cfg j).
  { intros j Hj. unfold cfg1. destruct (_ || _) eqn:E.
    - case_match; [|done]. bool_prop. lia.
    - bool_prop. rewrite cfg_byte_insert by lia.
      assert (off = ctl \/ off = ctl + 1) as [->| ->] by lia.
      + destruct (Z.eqb_spec j ctl) as [->|]; [|by rewrite andb_false_r].
        rewrite (proj2 (Z.eqb_neq ctl (ctl + 1))) by lia. simpl.
        replace (ctl - ctl) with 0 by lia. simpl.
        change (u8 (Z.shiftr MSIX_MSG_CTL_WRITABLE 0)) with 0.
        rewrite Z.land_0_r, Z.lor_0_r. change (lnotw 8 0) with 0xFF. apply land_byte.
        unfold cfg_byte. destruct (cfg !! _) eqn:E; [|done]. by eapply Forall_lookup_1 in Hb.
      + destruct (Z.eqb_spec j (ctl + 1)) as [->|]; [|done]. simpl.
        replace (ctl + 1 - ctl) with 1 by lia.
        change (u8 (Z.shiftr MSIX_MSG_CTL_WRITABLE (8 * 1))) with 0xC0. done. }
  assert (Hb1 : Forall is_byte cfg1 /\ length cfg1 = length cfg).
  { unfold cfg1. case_match; [done|]. split; [|apply length_insert]. apply Forall_insert; [done|].
    apply control_byte_ok. }
  destruct Hb1 as [Hb1 Hl1].
  rewrite IH by (done || lia). rewrite Hcfg1 by done.
  destruct (Z.eqb_spec i (ctl + 1)) as [->|Hne]; simpl; [|done].
  destruct (Z.eqb_spec (ctl + 1) off) as [<-|Hoff].
  - rewrite (proj2 (Z.leb_gt (ctl + 1 + 1) _)), (proj2 (Z.leb_le (ctl + 1) _)) by lia.
    by rewrite Z.sub_diag.
  - destruct (Z.leb_spec (off + 1) (ctl + 1)).
    + rewrite (proj2 (Z.leb_le off _)) by lia.
      by replace (Z.to_nat (ctl + 1 - off)) with (S (Z.to_nat (ctl + 1 - (off + 1)))) by lia.
    + by rewrite (proj2 (Z.leb_gt off _)) by lia.
Qed.

(** A guest can change nothing in a device's configuration space but the
    two writable bits of MSI-X Message Control.  For any write, at any offset
    and of any length, every byte other than the high byte of Message Control is
    as before; that byte keeps its low six bits and takes bits 6 and 7
    (Function Mask, Enable) from the byte written there, if one was. *)
Theorem msix_control_confined (cfg : list Z) (msix_cap offset : Z) (data : list Z)
    (Hb : Forall is_byte cfg) (Hc : 0 <= msix_cap) (Hl : msix_cap + 3 < Z.of_nat (length cfg))
    (Ho : 0 <= offset) :
  let cfg' := write_msix_control cfg msix_cap offset data in
  length cfg' = length cfg /\
  (forall i, 0 <= i -> i <> msix_cap + 3 -> cfg_byte cfg' i = cfg_byte cfg i) /\
  cfg_byte cfg' (msix_cap + 3) =
    if offset <=? msix_cap + 3 then
      match data !! Z.to_nat (msix_cap + 3 - offset) with
      | Some b => merge_high (cfg_byte cfg (msix_cap + 3)) b
      | None => cfg_byte cfg (msix_cap + 3)
      end
    else cfg_byte cfg (msix_cap + 3).
Proof.
  intros cfg'. unfold cfg', write_msix_control, MSIX_MSG_CTL. split; [apply length_write_control|].
  split.
  - intros i Hi Hne. rewrite write_control_spec by (done || lia).
    by rewrite (proj2 (Z.eqb_neq i _)) by lia.
  - rewrite write_control_spec by (done || lia).
    by rewrite (proj2 (Z.eqb_eq (msix_cap + 3) (msix_cap + 2 + 1))) by lia.
Qed.

(** A driver enabling MSI-X by a 16-bit write, capability at 0x40. *)
Definition cfg0 : list Z := replicate 256 0.

Lemma msix_control_confined_witness :
  cfg_byte (write_msix_control cfg0 0x40 0x42 [0xFF; 0xFF]) 0x43 = 0xC0 /\
  cfg_byte (write_msix_control cfg0 0x40 0x42 [0xFF; 0xFF]) 0x42 = 0.
Proof.
  destruct (msix_control_confined cfg0 0x40 0x42 [0xFF; 0xFF]) as (_ & Hi & Hh).
  - apply Forall_replicate. by vm_compute.
  - lia.
  - by vm_compute.
  - lia.
  - split; [etransitivity; [exact Hh|by vm_compute]|]. rewrite Hi by lia. by vm_compute.
Defined.

(** * A table of four *)

(** The routing table as a log of the routes set. *)
Abbreviation RouteLog := (list (Z * Z * Z)).
#[export] Instance RouteLog_router : MsiRouter RouteLog := {
  set_msi_route r g a d := (r ++ [(g, a, d)], true)
}.

Definition table4 : MsixTable RouteLog :=
  set_msix_on
    (bind (MsixTable_default 4)
       [{| gsi := 24; irq_fd := 10 |}; {| gsi := 25; irq_fd := 11 |}; {| gsi := 26; irq_fd := 12 |};
        {| gsi := 27; irq_fd := 13 |}] [] 9) true.

Lemma table4_ok : table_ok table4.
Proof.
  split; [done|simpl; lia|done|by vm_compute|].
  intros i H. unfold pending in H. simpl in H. by rewrite Z.testbit_0_l in H.
Qed.

(** Mask vector 1, trigger it twice, unmask it. *)
Definition mask_ops : list msix_op :=
  [TableWrite 0x1C [1; 0; 0; 0]; Trig 1; Trig 1; TableWrite 0x1C [0; 0; 0; 0]].

Example mask_run : (run table4 mask_ops).2 = [11].
Proof. by vm_compute. Qed.

Lemma table4_distinct : fds_distinct table4.
Proof.
  split; [apply (bool_decide_unpack _); by vm_compute|]. intros fd [= <-]. apply (bool_decide_unpack _). by vm_compute.
Qed.

Lemma no_lost_interrupt_witness :
  contract 1 (false, false) (take 3 mask_ops) = ((true, true), 0%nat) /\
  contract 1 (false, false) mask_ops = ((false, false), signals 11 (run table4 mask_ops).2).
Proof.
  split; [vm_compute; reflexivity|].
  pose proof (no_lost_interrupt table4 mask_ops 1 {| gsi := 25; irq_fd := 11 |} table4_ok table4_distinct) as H.
  destruct (run table4 mask_ops) as [t' fds] eqn:E. destruct H as [H _]; [by repeat constructor|reflexivity|].
  change (mask_bit table4 1, pending table4 1) with (false, false) in H. rewrite H. vm_compute in E. by injection E as <- <-.
Defined.

Lemma no_spurious_interrupt_witness :
  let '(t', fds) := run table4 mask_ops in (signals 11 fds + pend_count t' 1 <= 2)%nat.
Proof.
  exact (no_spurious_interrupt table4 mask_ops 1 {| gsi := 25; irq_fd := 11 |} table4_ok table4_distinct eq_refl).
Defined.

(** Function Mask is stored and has no effect: with it set, MSI-X counts as
    enabled and an unmasked vector is still signalled. *)
Example function_mask_stored_only :
  let cfg := write_msix_control cfg0 0x40 0x42 [0x00; 0xC0] in
  msix_control cfg 0x40 = 0xC000 /\ msix_enabled cfg 0x40 = true /\
  (trigger (set_msix_on table4 (msix_enabled cfg 0x40)) 1).2 = [11].
Proof. by vm_compute. Qed.
