(* ===== verification/BlkDisk.v ===== *)
(** The backing file and the parser of block requests,
    [virtio-devices/src/blk/disk.rs] and [blk/request.rs].

    What the host says about the file ([statx], [open], the file's size) is an
    argument of [Disk_open]; the rest is the code's own arithmetic. *)

From S2P Require Import Prelude GuestMem Virtqueue.

(** * disk.rs *)

Definition SECTOR_SIZE : Z := 512.
Definition MAX_BLOCK_SIZE : Z := 4096.

Inductive CacheMode := Auto | Direct | Writeback.

Definition from_flag (direct : option bool) : CacheMode :=
  match direct with
  | None => Auto
  | Some true => Direct
  | Some false => Writeback
  end.

Record DioAlign := { dio_mem : Z; dio_offset : Z }.

(** The file handle itself is left out: only the worker's engine uses it. *)
Record Disk := {
  read_only : bool;
  sectors : Z;
  block_size : Z;
  dio : option DioAlign
}.

Inductive OpenError :=
  | AlignAboveBlock (align : Z)
  | NoDirectIo
  | OpenFailed
  | SizeFailed
  | TooSmall (bytes : Z).

(** What the host answers: [STATX_DIOALIGN], whether [open] succeeds with and
    without [O_DIRECT], and the size. *)
Record HostFile := {
  hf_probe : option (Z * Z);
  hf_open : bool -> bool;
  hf_size : option Z
}.

Definition probe_dio (f : HostFile) : option DioAlign :=
  match hf_probe f with
  | None => None
  | Some (m, off) => if (m =? 0) || (off =? 0) then None else Some {| dio_mem := m; dio_offset := off |}
  end.

Definition want_direct (mode : CacheMode) : bool :=
  match mode with Writeback => false | Auto | Direct => true end.

(** Whether to open with [O_DIRECT], and with which alignment. *)
Definition choose_direct (mode : CacheMode) (probe : option DioAlign)
    : OpenError + option DioAlign :=
  if negb (want_direct mode) then inr None
  else
    match probe with
    | Some a =>
        if MAX_BLOCK_SIZE <? dio_offset a then
          match mode with Direct => inl (AlignAboveBlock (dio_offset a)) | _ => inr None end
        else inr (Some a)
    | None => match mode with Direct => inl NoDirectIo | _ => inr None end
    end.

Definition sized (f : HostFile) (ro : bool) (direct : option DioAlign) : OpenError + Disk :=
  match hf_size f with
  | None => inl SizeFailed
  | Some bytes =>
      let s := bytes / SECTOR_SIZE in
      if s =? 0 then inl (TooSmall bytes)
      else
        let bs :=
          match direct with
          | Some a => u32 (Z.max SECTOR_SIZE (Z.min (dio_offset a) MAX_BLOCK_SIZE))
          | None => SECTOR_SIZE
          end in
        inr {| read_only := ro; sectors := s; block_size := bs; dio := direct |}
  end.

Definition Disk_open (f : HostFile) (ro : bool) (mode : CacheMode) : OpenError + Disk :=
  match choose_direct mode (probe_dio f) with
  | inl e => inl e
  | inr direct =>
      if hf_open f (bool_decide (is_Some direct)) then sized f ro direct
      else
        match direct, mode with
        | Some _, Auto =>
            (* Self::open(path, read_only, Writeback) *)
            if hf_open f false then sized f ro None else inl OpenFailed
        | _, _ => inl OpenFailed
        end
  end.

Definition len_bytes (d : Disk) : Z := sectors d ⊗ SECTOR_SIZE.

(** A scatter-gather segment: host address and length. *)
Record IoVec := { iov_base : Z; iov_len : Z }.

Definition is_multiple_of (x n : Z) : bool := x mod n =? 0.

Definition direct_ok (d : Disk) (offset : Z) (iovs : list IoVec) : bool :=
  match dio d with
  | None => true
  | Some a =>
      if negb (is_multiple_of offset (dio_offset a)) then false
      else
        forallb (fun v => is_multiple_of (iov_base v) (dio_mem a) &&
                          is_multiple_of (iov_len v) (dio_offset a)) iovs
  end.

Definition next_multiple_of (x n : Z) : Z := if x mod n =? 0 then x else u64 (x + (n - x mod n)).

(** (alignment, bytes before the request's own data, total). *)
Definition bounce_shape (d : Disk) (offset len : Z) : Z * Z * Z :=
  match dio d with
  | None => (1, 0, len)
  | Some a =>
      let head := offset mod dio_offset a in
      (Z.max (dio_mem a) (dio_offset a), head, next_multiple_of (len ⊕ head) (dio_offset a))
  end.

Definition offset_align (d : Disk) : Z :=
  match dio d with Some a => dio_offset a | None => 1 end.

(** * request.rs *)

Definition BLK_T_IN : Z := 0.
Definition BLK_T_OUT : Z := 1.
Definition BLK_T_FLUSH : Z := 4.
Definition BLK_T_GET_ID : Z := 8.
Definition BLK_T_DISCARD : Z := 11.
Definition BLK_T_WRITE_ZEROES : Z := 13.

Definition BLK_S_OK : Z := 0.
Definition BLK_S_IOERR : Z := 1.
Definition BLK_S_UNSUPP : Z := 2.

(** The bytes of "nesbox-vda", padded to 20. *)
Definition DISK_ID : list Z :=
  [0x6e; 0x65; 0x73; 0x62; 0x6f; 0x78; 0x2d; 0x76; 0x64; 0x61] ++ replicate 10 0.

Definition DISCARD_SEG_SIZE : Z := 16.
Definition DISCARD_F_UNMAP : Z := 1.

Inductive Op :=
  | Read
  | Write
  | Flush
  | GetId
  | Discard (sector sectors : Z)
  | WriteZeroes (sector sectors : Z) (unmap : bool).

#[export] Instance Op_eq_dec : EqDecision Op.
Proof. solve_decision. Defined.

Record Request := {
  head : Z;
  op : Op;
  offset : Z;
  segments : list (Z * Z);
  total : Z;
  status_addr : Z
}.

Inductive ParseError :=
  | Malformed
  | Rejected (status_addr status : Z).

Definition MAX_REQUEST_BYTES : Z := Z.shiftl 128 20.

Section Parse.
Context {M : Type} {HM : GuestMemory M}.

(** The loop over the data descriptors: the segments and their total, or none
    when one lies outside guest memory or the total is absurd. *)
Fixpoint take_segments (mem : M) (data : list Desc) (segs : list (Z * Z)) (tot : Z)
    : option (list (Z * Z) * Z) :=
  match data with
  | [] => Some (segs, tot)
  | (a, len, _) :: data =>
      if len =? 0 then take_segments mem data segs tot
      else if negb (get_slice mem a len) then None
      else
        let tot := tot ⊕ len in
        if MAX_REQUEST_BYTES <? tot then None
        else take_segments mem data (segs ++ [(a, len)]) tot
  end.

Definition read_discard_segment (mem : M) (a : Z) : option (Z * Z * Z) :=
  sector ← read_le mem a 8;
  count ← read_le mem (a ⊕ 8) 4;
  flags ← read_le mem (a ⊕ 12) 4;
  Some (sector, count, flags).

(** The range of a read or write, from its first sector. *)
Definition parse_rw (d : Disk) (kind sector tot : Z) : Z + (Op * Z) :=
  let write := kind =? BLK_T_OUT in
  if write && read_only d then inl BLK_S_IOERR
  else
    match checked_mul 64 sector SECTOR_SIZE with
    | None => inl BLK_S_IOERR
    | Some off =>
        if len_bytes d <? saturating_add 64 off tot then inl BLK_S_IOERR
        else inr (if write then Write else Read, off)
    end.

(** A discard or write-zeroes, its range in the one data segment. *)
Definition parse_discard (mem : M) (d : Disk) (kind : Z) (segs : list (Z * Z)) : Z + (Op * Z) :=
  if read_only d then inl BLK_S_IOERR
  else
    match segs with
    | [(a, len)] =>
        if len <? DISCARD_SEG_SIZE then inl BLK_S_IOERR
        else
          match read_discard_segment mem a with
          | None => inl BLK_S_IOERR
          | Some (start, count, flags) =>
              match checked_mul 64 start SECTOR_SIZE with
              | None => inl BLK_S_IOERR
              | Some byte_off =>
                  let byte_len := count ⊗ SECTOR_SIZE in
                  if len_bytes d <? saturating_add 64 byte_off byte_len then inl BLK_S_IOERR
                  else if kind =? BLK_T_DISCARD then
                    if negb (flags =? 0) then inl BLK_S_UNSUPP
                    else inr (Discard start count, byte_off)
                  else inr (WriteZeroes start count (has_bits flags DISCARD_F_UNMAP), byte_off)
              end
          end
    | _ => inl BLK_S_IOERR
    end.

Definition parse_op (mem : M) (d : Disk) (kind sector : Z) (segs : list (Z * Z)) (tot : Z)
    : Z + (Op * Z) :=
  if (kind =? BLK_T_IN) || (kind =? BLK_T_OUT) then parse_rw d kind sector tot
  else if kind =? BLK_T_FLUSH then inr (Flush, 0)
  else if kind =? BLK_T_GET_ID then inr (GetId, 0)
  else if (kind =? BLK_T_DISCARD) || (kind =? BLK_T_WRITE_ZEROES) then
    parse_discard mem d kind segs
  else inl BLK_S_UNSUPP.

Definition parse (mem : M) (d : Disk) (h : Z) (descs : list Desc) : ParseError + Request :=
  match descs with
  | (header_addr, header_len, _) :: rest =>
      match list.last rest with
      | None => inl Malformed
      | Some (sa, status_len, status_flags) =>
          if (status_len <? 1) || (Z.land status_flags VRING_DESC_F_WRITE =? 0) then inl Malformed
          else if header_len <? 16 then inl (Rejected sa BLK_S_IOERR)
          else
            match read_le mem header_addr 4 with
            | None => inl (Rejected sa BLK_S_IOERR)
            | Some kind =>
                match read_le mem (header_addr ⊕ 8) 8 with
                | None => inl (Rejected sa BLK_S_IOERR)
                | Some sector =>
                    match take_segments mem (removelast rest) [] 0 with
                    | None => inl (Rejected sa BLK_S_IOERR)
                    | Some (segs, tot) =>
                        match parse_op mem d kind sector segs tot with
                        | inl status => inl (Rejected sa status)
                        | inr (o, off) =>
                            inr {| head := h; op := o; offset := off; segments := segs;
                                   total := tot; status_addr := sa |}
                        end
                    end
                end
            end
      end
  | [] => inl Malformed
  end.

End Parse.
