(* ===== verification/BlkDiskFacts.v ===== *)
(** What an accepted block request guarantees to the rest of the device, where a
    refused one may be reported, and the shape of staged transfers. *)

From S2P Require Import Prelude GuestMem Virtqueue BlkDisk.

Section Requests.
Context {M : Type} {HM : GuestMemory M}.
Implicit Types (mem : M) (d : Disk).

Definition seg_total (segs : list (Z * Z)) : Z := foldr (fun s acc => s.2 + acc) 0 segs.

(** The data descriptors that carry bytes, as segments. *)
Definition nonempty (data : list Desc) : list (Z * Z) :=
  (fun x : Desc => x.1) <$> filter (fun x : Desc => x.1.2 <> 0) data.

Lemma seg_total_app l1 l2 : seg_total (l1 ++ l2) = seg_total l1 + seg_total l2.
Proof. induction l1; simpl; lia. Qed.

Lemma take_segments_spec mem data segs tot segs' tot' :
  take_segments mem data segs tot = Some (segs', tot') ->
  Forall (fun x : Desc => is_word 32 x.1.2) data ->
  tot = seg_total segs -> 0 <= tot <= MAX_REQUEST_BYTES ->
  segs' = segs ++ nonempty data /\ tot' = seg_total segs' /\ 0 <= tot' <= MAX_REQUEST_BYTES /\
  Forall (fun s => 0 < s.2 /\ get_slice mem s.1 s.2 = true) (nonempty data).
Proof.
  intros Ht Hw. revert segs tot Ht. induction Hw as [|[[a len] flags] data Hl Hw IH];
    intros segs tot Ht Etot Hb; simpl in Ht.
  { injection Ht as <- <-. unfold nonempty. simpl. rewrite app_nil_r. repeat split; try done; lia. }
  simpl in Hl. unfold is_word in Hl. unfold nonempty in *. rewrite filter_cons. simpl.
  destruct (Z.eqb_spec len 0) as [E0|E0].
  { rewrite decide_False by tauto. by apply (IH segs tot). }
  rewrite decide_True by done. rewrite fmap_cons. simpl.
  destruct (get_slice mem a len) eqn:Es; [|done]. simpl in Ht.
  unfold MAX_REQUEST_BYTES in *. change (Z.shiftl 128 20) with 134217728 in *.
  rewrite (wrap_small 64 (tot + len)) in Ht by (unfold is_word; lia).
  destruct (134217728 <? tot + len) eqn:Eb; bool_prop; [done|].
  destruct (IH (segs ++ [(a, len)]) (tot + len) Ht) as (-> & -> & Hb' & Hf).
  - rewrite seg_total_app. simpl. lia.
  - lia.
  - rewrite <- (assoc_L (++)) in *. split; [done|]. split; [done|]. split; [done|].
    constructor; [|done]. simpl. split; [lia|done].
Qed.

(** The byte range an operation touches in the backing file. *)
Definition op_range (o : Op) (off tot : Z) : Z * Z :=
  match o with
  | Read | Write => (off, tot)
  | Flush | GetId => (0, 0)
  | Discard s n | WriteZeroes s n _ => (s * SECTOR_SIZE, n * SECTOR_SIZE)
  end.

Definition modifies (o : Op) : bool :=
  match o with Write | Discard _ _ | WriteZeroes _ _ _ => true | _ => false end.

(** A disk as [Disk_open] makes them: its capacity in bytes is a [u64]. *)
Definition disk_ok d : Prop := 0 < sectors d /\ sectors d * SECTOR_SIZE < 2 ^ 64.

Lemma len_bytes_exact d : disk_ok d -> len_bytes d = sectors d * SECTOR_SIZE.
Proof. intros [H1 H2]. unfold len_bytes. apply wrap_small. unfold is_word, SECTOR_SIZE in *. lia. Qed.

Lemma checked_mul_inv w x y z : checked_mul w x y = Some z -> z = x * y /\ x * y < 2 ^ w.
Proof. unfold checked_mul. case_match; [|done]. intros [= <-]. bool_prop. done. Qed.

Lemma parse_rw_spec d kind sector tot o off :
  disk_ok d -> 0 <= sector -> 0 <= tot -> parse_rw d kind sector tot = inr (o, off) ->
  (o = Read \/ (o = Write /\ read_only d = false)) /\
  off = sector * SECTOR_SIZE /\ off + tot <= sectors d * SECTOR_SIZE.
Proof.
  intros Hd Hs Ht. unfold parse_rw. rewrite len_bytes_exact by done.
  destruct (kind =? BLK_T_OUT); destruct (read_only d) eqn:Er; simpl; try done;
    (destruct (checked_mul 64 sector SECTOR_SIZE) as [z|] eqn:Ec; [|done]);
    apply checked_mul_inv in Ec as [-> Hlt];
    (destruct (_ <? _) eqn:Eb; [done|]); bool_prop; intros [= <- <-]; unfold saturating_add in Eb;
    destruct Hd; (split; [tauto|split; [done|unfold SECTOR_SIZE in *; lia]]).
Qed.

Context {HL : GuestMemoryLaws M}.

Lemma parse_discard_spec mem d kind segs o off :
  disk_ok d -> parse_discard mem d kind segs = inr (o, off) ->
  read_only d = false /\
  exists s n, 0 <= s /\ 0 <= n /\ (s + n) * SECTOR_SIZE <= sectors d * SECTOR_SIZE /\
    (o = Discard s n \/ exists u, o = WriteZeroes s n u).
Proof.
  intros Hd. unfold parse_discard. rewrite len_bytes_exact by done.
  destruct (read_only d); [done|]. destruct segs as [|[a len] [|? ?]]; try done.
  case_match; [done|]. destruct (read_discard_segment mem a) as [[[start count] flags]|] eqn:Er; [|done].
  unfold read_discard_segment in Er. repeat (apply bind_Some in Er; destruct Er as (? & ? & Er)).
  injection Er as -> -> ->.
  match goal with E : read_le mem a 8 = Some start |- _ => apply read_le_range in E; rename E into Rs end.
  match goal with E : read_le mem _ 4 = Some count |- _ => apply read_le_range in E; rename E into Rc end.
  destruct (checked_mul 64 start SECTOR_SIZE) as [z|] eqn:Ec; [|done].
  apply checked_mul_inv in Ec as [-> Hlt]. unfold is_word in *. simpl in Rs, Rc.
  rewrite (wrap_small 64 (count * SECTOR_SIZE)) by (unfold is_word, SECTOR_SIZE; lia).
  destruct (sectors d * SECTOR_SIZE <? _) eqn:Eb; bool_prop; [done|]. intros Ho. split; [done|].
  exists start, count. destruct Hd as [_ Hd]. unfold saturating_add, SECTOR_SIZE in *.
  split; [lia|]. split; [lia|]. split; [lia|].
  destruct (kind =? BLK_T_DISCARD).
  - destruct (negb (flags =? 0)); [done|]. injection Ho as <- _. by left.
  - injection Ho as <- _. right. eauto.
Qed.

(** The shape of a chain that parses: header, data, status. *)
Lemma parse_inv mem d h descs r :
  parse mem d h descs = inr r ->
  exists hd data sa sl sf kind sector,
    descs = hd :: data ++ [(sa, sl, sf)] /\ 1 <= sl /\ Z.land sf VRING_DESC_F_WRITE <> 0 /\
    read_le mem (hd.1.1) 4 = Some kind /\ read_le mem (hd.1.1 ⊕ 8) 8 = Some sector /\
    take_segments mem data [] 0 = Some (segments r, total r) /\
    parse_op mem d kind sector (segments r) (total r) = inr (op r, offset r) /\
    head r = h /\ status_addr r = sa.
Proof.
  unfold parse. destruct descs as [|[[ha hl] hf] rest]; [done|].
  destruct (list.last rest) as [[[sa sl] sf]|] eqn:El; [|done].
  apply last_Some in El as [data ->].
  assert (Er : removelast (data ++ [(sa, sl, sf)]) = data) by apply removelast_last.
  rewrite Er. destruct ((sl <? 1) || (Z.land sf VRING_DESC_F_WRITE =? 0)) eqn:Es; bool_prop; [done|].
  destruct (hl <? 16); [done|].
  destruct (read_le mem ha 4) as [kind|] eqn:Ek; [|done].
  destruct (read_le mem (ha ⊕ 8) 8) as [sector|] eqn:Esec; [|done].
  destruct (take_segments mem data [] 0) as [[segs tot]|] eqn:Et; [|done].
  destruct (parse_op mem d kind sector segs tot) as [|[o off]] eqn:Eo; [done|].
  intros [= <-]. simpl. by exists (ha, hl, hf), data, sa, sl, sf, kind, sector.
Qed.

(** C7: A request that parses is safe to carry out.  Whatever chain a guest
    offers, an accepted request's segments are exactly the non-empty data
    descriptors in order, each wholly inside one region of guest memory; their
    lengths sum to [total], at most 128 MiB; the byte range it touches lies
    inside the capacity the disk advertises, with no multiplication having
    wrapped; a read-only disk is never modified; and its status goes to the
    last descriptor, which is device-writable. *)
Theorem parse_safe mem d (h : Z) (descs : list Desc) (r : Request)
    (Hd : disk_ok d) (Hw : Forall (fun x : Desc => is_word 32 x.1.2) descs)
    (Hp : parse mem d h descs = inr r) :
  (exists hd data sl sf, descs = hd :: data ++ [(status_addr r, sl, sf)] /\
     1 <= sl /\ Z.land sf VRING_DESC_F_WRITE <> 0 /\ segments r = nonempty data) /\
  Forall (fun s => 0 < s.2 /\ get_slice mem s.1 s.2 = true) (segments r) /\
  total r = seg_total (segments r) /\ 0 <= total r <= MAX_REQUEST_BYTES /\
  (let '(start, len) := op_range (op r) (offset r) (total r) in
   0 <= start /\ 0 <= len /\ start + len <= sectors d * SECTOR_SIZE) /\
  (modifies (op r) = true -> read_only d = false).
Proof.
  apply parse_inv in Hp as (hd & data & sa & sl & sf & kind & sector & -> & Hsl & Hsf & _ & Hsec &
    Ht & Ho & _ & ->).
  apply Forall_cons in Hw as [_ [Hwd _]%Forall_app].
  destruct (take_segments_spec _ _ _ _ _ _ Ht Hwd eq_refl) as (Es & Et & Hb & Hf).
  { unfold MAX_REQUEST_BYTES. change (Z.shiftl 128 20) with 134217728. lia. }
  simpl in Es. apply read_le_range in Hsec as [Hsec _].
  split; [by exists hd, data, sl, sf|]. rewrite Es at 1. do 3 (split; [done|]).
  destruct Hd as [Hd1 Hd2]. unfold parse_op in Ho.
  destruct (_ || _); [|destruct (_ =? _); [|destruct (_ =? _); [|destruct (_ || _); [|done]]]].
  - destruct (parse_rw_spec d kind sector (total r) (op r) (offset r)) as (Hop & -> & Hr);
      [by split|lia|lia|done|].
    destruct Hop as [->|[-> Hro]]; simpl; (split; [unfold SECTOR_SIZE in *; lia|done]).
  - injection Ho as <- <-. simpl. split; [unfold SECTOR_SIZE; lia|done].
  - injection Ho as <- <-. simpl. split; [unfold SECTOR_SIZE; lia|done].
  - destruct (parse_discard_spec _ _ _ _ _ _ (conj Hd1 Hd2) Ho) as (Hro & s & n & Hs & Hn & Hr & Hop).
    unfold SECTOR_SIZE in *. destruct Hop as [->|[u ->]]; simpl; unfold SECTOR_SIZE; (split; [lia|done]).
Qed.

(** A refused request is reported only where the guest asked for a status.
    When parsing fails with a status to write, the address is that of the
    chain's last descriptor, which is device-writable and at least one byte
    long, and the status is an error; a chain without such a descriptor is
    refused with no address at all. *)
Theorem parse_error_address mem d (h : Z) (descs : list Desc) (e : ParseError)
    (Hp : parse mem d h descs = inl e) :
  match e with
  | Rejected sa status =>
      (exists hd data sl sf, descs = hd :: data ++ [(sa, sl, sf)] /\
         1 <= sl /\ Z.land sf VRING_DESC_F_WRITE <> 0) /\
      (status = BLK_S_IOERR \/ status = BLK_S_UNSUPP)
  | Malformed =>
      (length descs < 2)%nat \/
      exists hd data sa sl sf, descs = hd :: data ++ [(sa, sl, sf)] /\
        (sl < 1 \/ Z.land sf VRING_DESC_F_WRITE = 0)
  end.
Proof.
  unfold parse in Hp. destruct descs as [|[[ha hl] hf] rest]; [injection Hp as <-; left; simpl; lia|].
  destruct (list.last rest) as [[[sa sl] sf]|] eqn:El.
  2: { injection Hp as <-. apply last_None in El as ->. left. simpl. lia. }
  apply last_Some in El as [data ->].
  destruct ((sl <? 1) || (Z.land sf VRING_DESC_F_WRITE =? 0)) eqn:Es.
  { injection Hp as <-. right. exists (ha, hl, hf), data, sa, sl, sf. split; [done|].
    apply orb_true_iff in Es as [?|?]; bool_prop; [by left|by right]. }
  bool_prop.
  assert (Hop : forall kind sector segs tot s, parse_op mem d kind sector segs tot = inl s ->
    s = BLK_S_IOERR \/ s = BLK_S_UNSUPP).
  { clear. intros kind sector segs tot s. unfold parse_op, parse_rw, parse_discard.
    repeat case_match; intros [= <-]; auto. }
  assert (Hat : exists hd data' sl' sf', (ha, hl, hf) :: data ++ [(sa, sl, sf)] =
    hd :: data' ++ [(sa, sl', sf')] /\ 1 <= sl' /\ Z.land sf' VRING_DESC_F_WRITE <> 0).
  { by exists (ha, hl, hf), data, sl, sf. }
  destruct (hl <? 16); [injection Hp as <-; by split; [|left]|].
  destruct (read_le mem ha 4) as [kind|]; [|injection Hp as <-; by split; [|left]].
  destruct (read_le mem (ha ⊕ 8) 8) as [sector|]; [|injection Hp as <-; by split; [|left]].
  destruct (take_segments mem _ [] 0) as [[segs tot]|]; [|injection Hp as <-; by split; [|left]].
  destruct (parse_op mem d kind sector segs tot) as [s|[o off]] eqn:Eo; [|done].
  injection Hp as <-. split; [done|]. by eapply Hop.
Qed.

End Requests.

(** * Opening *)

(** A disk that opens can be described to a guest: it holds at least one
    sector and its capacity does not exceed the file; a direct-I/O disk was
    asked for, its offset alignment is no larger than a block a guest accepts,
    and the advertised block size is that alignment, never below a sector;
    [Direct] never falls back to buffered I/O and [Writeback] never uses
    direct. *)
Theorem disk_open_sound (f : HostFile) (ro : bool) (mode : CacheMode) (d : Disk) (bytes : Z)
    (Hsize : hf_size f = Some bytes) (Hb : is_word 64 bytes)
    (Hopen : Disk_open f ro mode = inr d) :
  disk_ok d /\ sectors d * SECTOR_SIZE <= bytes < (sectors d + 1) * SECTOR_SIZE /\
  read_only d = ro /\
  match dio d with
  | Some a => mode <> Writeback /\ probe_dio f = Some a /\ dio_offset a <= MAX_BLOCK_SIZE /\
              block_size d = Z.max SECTOR_SIZE (dio_offset a)
  | None => mode <> Direct /\ block_size d = SECTOR_SIZE
  end.
Proof.
  assert (Hs : forall direct, sized f ro direct = inr d ->
    disk_ok d /\ sectors d * SECTOR_SIZE <= bytes < (sectors d + 1) * SECTOR_SIZE /\
    read_only d = ro /\ dio d = direct /\
    block_size d = match direct with
      | Some a => u32 (Z.max SECTOR_SIZE (Z.min (dio_offset a) MAX_BLOCK_SIZE))
      | None => SECTOR_SIZE end).
  { intros direct. unfold sized. rewrite Hsize. case_match; [done|]. bool_prop. intros [= <-]. simpl.
    unfold is_word, SECTOR_SIZE in *. unfold disk_ok. simpl. unfold SECTOR_SIZE.
    pose proof (Z.div_mod bytes 512). pose proof (Z.mod_pos_bound bytes 512).
    repeat split; try done; try lia. }
  unfold Disk_open, choose_direct in Hopen.
  destruct (want_direct mode) eqn:Ew; simpl in Hopen.
  - destruct (probe_dio f) as [a|] eqn:Ep.
    + destruct (MAX_BLOCK_SIZE <? dio_offset a) eqn:Ea; bool_prop.
      * destruct mode; try done; simpl in Hopen; (destruct (hf_open f false); [|done]);
          apply Hs in Hopen as (H1 & H2 & H3 & -> & ->); done.
      * destruct (hf_open f _) in Hopen.
        -- apply Hs in Hopen as (H1 & H2 & H3 & -> & ->).
           do 3 (split; [done|]). split; [by intros ->|]. split; [done|]. split; [done|].
           unfold SECTOR_SIZE, MAX_BLOCK_SIZE in *. rewrite Z.min_l by lia. apply wrap_small.
           unfold is_word. lia.
        -- destruct mode; try done. destruct (hf_open f false); [|done].
           apply Hs in Hopen as (H1 & H2 & H3 & -> & ->). done.
    + destruct mode; try done; simpl in Hopen; (destruct (hf_open f false); [|done]);
        apply Hs in Hopen as (H1 & H2 & H3 & -> & ->); done.
  - destruct mode; try done. simpl in Hopen. destruct (hf_open f false); [|done].
    apply Hs in Hopen as (H1 & H2 & H3 & -> & ->). done.
Qed.

(** * Staging *)

(** A staged transfer is one direct I/O accepts and that contains the
    request.  For power-of-two alignments up to a block, the window
    [bounce_shape] gives starts at or before the request, ends at or after it,
    and its single segment, in a buffer of the alignment it asks for, passes
    [direct_ok] at the widened offset. *)
Theorem bounce_window_ok (d : Disk) (a : DioAlign) (km ko off len base : Z)
    (Hdio : dio d = Some a) (Hm : dio_mem a = 2 ^ km) (Ho : dio_offset a = 2 ^ ko)
    (Hkm : 0 <= km) (Hko : 0 <= ko <= 12) (Hoff : is_word 64 off) (Hlen : 0 <= len <= MAX_REQUEST_BYTES)
    (Hbase : let '(align, _, _) := bounce_shape d off len in base mod align = 0) :
  let '(_, head_pad, io_len) := bounce_shape d off len in
  0 <= head_pad <= off /\ head_pad + len <= io_len < head_pad + len + dio_offset a /\
  direct_ok d (off - head_pad) [{| iov_base := base; iov_len := io_len |}] = true.
Proof.
  unfold bounce_shape, direct_ok in *. rewrite Hdio in *. rewrite Hm, Ho in *.
  pose proof (Z.pow_pos_nonneg 2 ko). pose proof (Z.pow_le_mono_r 2 ko 12).
  pose proof (Z.mod_pos_bound off (2 ^ ko)) as Hh. pose proof (Z.div_mod off (2 ^ ko)) as Hdm.
  unfold MAX_REQUEST_BYTES in Hlen. change (Z.shiftl 128 20) with 134217728 in Hlen.
  set (hp := off mod 2 ^ ko) in *. unfold is_word in Hoff.
  rewrite (wrap_small 64 (len + hp)) by (unfold is_word; lia).
  assert (Hnm : let io := next_multiple_of (len + hp) (2 ^ ko) in
    len + hp <= io < len + hp + 2 ^ ko /\ io mod 2 ^ ko = 0).
  { unfold next_multiple_of. pose proof (Z.mod_pos_bound (len + hp) (2 ^ ko)).
    pose proof (Z.div_mod (len + hp) (2 ^ ko)). case_match; bool_prop; [lia|].
    rewrite wrap_small by (unfold is_word; lia). split; [lia|].
    replace (len + hp + (2 ^ ko - (len + hp) mod 2 ^ ko)) with (((len + hp) / 2 ^ ko + 1) * 2 ^ ko) by lia.
    apply Z_mod_mult. }
  destruct Hnm as [Hr Hmod]. unfold hp in *. split.
  { split; [lia|]. apply Z.mod_le; lia. }
  split; [lia|]. unfold is_multiple_of. cbn [forallb iov_base iov_len].
  replace (off - off mod 2 ^ ko) with (off / 2 ^ ko * 2 ^ ko) by lia. rewrite Z_mod_mult. simpl.
  rewrite Hmod, andb_true_r. apply andb_true_iff. split; [|done]. apply Z.eqb_eq.
  rewrite <- (Z.mod_mod_divide base (Z.max (2 ^ km) (2 ^ ko))); [by rewrite Hbase, Zmod_0_l|].
  destruct (Z.max_spec (2 ^ km) (2 ^ ko)) as [[Hlt ->]|[_ ->]]; [|apply Z.divide_refl].
  exists (2 ^ (ko - km)). rewrite <- Z.pow_add_r; [f_equal; lia| |lia].
  apply Z.pow_lt_mono_r_iff in Hlt; lia.
Qed.

(** * Witnesses *)

Definition test_disk : Disk :=
  {| read_only := false; sectors := 128; block_size := 512; dio := None |}.

(** A read of 4 KiB at sector 8. *)
Definition read_ram : FlatRam := write_le (write_le (ram_zero 0x20000) 0x1000 4 BLK_T_IN) 0x1008 8 8.
Definition read_descs : list Desc :=
  [(0x1000, 16, 0); (0x2000, 4096, VRING_DESC_F_WRITE); (0x3000, 1, VRING_DESC_F_WRITE)].
Definition read_request : Request :=
  {| head := 7; op := Read; offset := 4096; segments := [(0x2000, 4096)]; total := 4096;
     status_addr := 0x3000 |}.

Lemma parse_safe_witness :
  parse read_ram test_disk 7 read_descs = inr read_request /\
  total read_request = seg_total (segments read_request).
Proof.
  assert (Hp : parse read_ram test_disk 7 read_descs = inr read_request) by (by vm_compute).
  split; [exact Hp|]. apply (parse_safe read_ram test_disk 7 read_descs read_request); [|..|exact Hp].
  - by vm_compute.
  - repeat constructor; vm_compute; congruence.
Defined.

Lemma parse_error_address_witness :
  parse read_ram {| read_only := false; sectors := 8; block_size := 512; dio := None |} 0 read_descs
    = inl (Rejected 0x3000 BLK_S_IOERR) /\
  exists hd data sl sf, read_descs = hd :: data ++ [(0x3000, sl, sf)].
Proof.
  assert (Hp : parse read_ram {| read_only := false; sectors := 8; block_size := 512; dio := None |} 0
    read_descs = inl (Rejected 0x3000 BLK_S_IOERR)) by (by vm_compute).
  split; [exact Hp|].
  destruct (parse_error_address _ _ _ _ _ Hp) as [(hd & data & sl & sf & E & _) _].
  by exists hd, data, sl, sf.
Defined.

Definition ext4_file : HostFile :=
  {| hf_probe := Some (512, 4096); hf_open := fun _ => true; hf_size := Some 65536 |}.

Lemma disk_open_sound_witness :
  exists d, Disk_open ext4_file false Auto = inr d /\ block_size d = 4096.
Proof.
  eexists. split; [reflexivity|].
  destruct (disk_open_sound ext4_file false Auto _ 65536 eq_refl ltac:(by vm_compute) eq_refl)
    as (_ & _ & _ & H). simpl in H. apply H.
Defined.

Lemma bounce_window_ok_witness :
  let d := {| read_only := false; sectors := 128; block_size := 4096;
              dio := Some {| dio_mem := 512; dio_offset := 4096 |} |} in
  let '(_, head_pad, io_len) := bounce_shape d 5120 512 in
  direct_ok d (5120 - head_pad) [{| iov_base := 0x7000; iov_len := io_len |}] = true.
Proof.
  apply (bounce_window_ok {| read_only := false; sectors := 128; block_size := 4096;
              dio := Some {| dio_mem := 512; dio_offset := 4096 |} |}
    {| dio_mem := 512; dio_offset := 4096 |} 9 12 5120 512 0x7000);
    (reflexivity || lia || (vm_compute; split; congruence)).
Defined.
