(* ===== verification/BlkWorker.v ===== *)
(** The block device's worker, [virtio-devices/src/blk/worker.rs]: one per
    queue, it takes requests from the ring, keeps them in a slab of slots while
    the kernel works on them, resumes short transfers, stages what direct I/O
    cannot take, and completes requests out of order.

    The I/O engine is the class [Engine]; its completions are the argument of
    [run_pass].  Host pointers are [Place]s: an address of guest memory or an
    offset in the slot's bounce buffer.  Fields that only feed log lines
    ([reported], [staged_reported], [discard_unsupported]) are left out. *)

From S2P Require Import Prelude GuestMem Virtqueue BlkDisk Msix.

Definition FALLOC_FL_KEEP_SIZE : Z := 0x01.
Definition FALLOC_FL_PUNCH_HOLE : Z := 0x02.
Definition FALLOC_FL_ZERO_RANGE : Z := 0x10.

Definition EINTR : Z := 4.
Definition EAGAIN : Z := 11.
Definition EINVAL : Z := 22.
Definition EOPNOTSUPP : Z := 95.

(** * Scatter-gather lists *)

Inductive Place := InGuest (a : Z) | InBounce (off : Z).

Definition place_add (p : Place) (n : Z) : Place :=
  match p with InGuest a => InGuest (a + n) | InBounce o => InBounce (o + n) end.

Record Iov := { iv_at : Place; iv_len : Z }.

Definition iov_advance (v : Iov) (n : Z) : Iov :=
  {| iv_at := place_add (iv_at v) n; iv_len := iv_len v - n |}.

(** Drop [n] bytes from the front. *)
Fixpoint advance (iovs : list Iov) (n : Z) : list Iov :=
  match iovs with
  | [] => []
  | v :: iovs =>
      if n =? 0 then v :: iovs
      else if iv_len v <=? n then advance iovs (n - iv_len v)
      else iov_advance v n :: iovs
  end.

(** [b_data] is the allocation's contents. *)
Record Bounce := { b_data : list Z; b_skip : Z }.

Definition bounce_len (b : Bounce) : Z := Z.of_nat (length (b_data b)).

(** The bytes belonging to the request itself. *)
Definition bounce_bytes (b : Bounce) (len : Z) : list Z :=
  take (Z.to_nat len) (drop (Z.to_nat (b_skip b)) (b_data b)).

Definition zero_from (b : Bounce) (at_ : Z) : Bounce :=
  let at_ := Z.min at_ (bounce_len b) in
  {| b_data := take (Z.to_nat at_) (b_data b) ++ replicate (Z.to_nat (bounce_len b - at_)) 0;
     b_skip := b_skip b |}.

(** * Jobs *)

Inductive Job :=
  | Readv (iovs : list Iov) (offset : Z)
  | Writev (iovs : list Iov) (offset : Z)
  | FlushData
  | Fallocate (mode offset len : Z).

Record Done := { token : Z; result : Z }.

Class Engine (E : Type) := {
  (** False when the submission is refused. *)
  submit_job : E -> Z -> Job -> E * bool;
  room : E -> Z
}.

Record Slot := {
  s_generation : Z;
  s_head : Z;
  s_op : Op;
  s_status : Z;
  s_segments : list (Z * Z);
  s_iovs : list Iov;
  s_bounce : option Bounce;
  s_offset : Z;
  s_done : Z;
  s_total : Z;
  s_io_len : Z;
  s_bounced : bool
}.

Definition is_rw (o : Op) : bool := match o with Read | Write => true | _ => false end.

(** * Copies between guest pages and a bounce buffer *)

Section Copies.
Context {M : Type} {HM : GuestMemory M}.

Definition write_status (mem : M) (a status : Z) : M := write_le mem a 1 status.

(** [copy_out]'s loop; it stops at the first failing write. *)
Fixpoint copy_segments (mem : M) (src : list Z) (segs : list (Z * Z)) : M * bool :=
  match segs with
  | [] => (mem, true)
  | (a, len) :: segs =>
      let '(mem, ok) := write_slice mem a (take (Z.to_nat len) src) in
      if ok : bool then copy_segments mem (drop (Z.to_nat len) src) segs else (mem, false)
  end.

Definition copy_out (mem : M) (s : Slot) : M * bool :=
  match s_bounce s with
  | None => (mem, false)
  | Some b => copy_segments mem (bounce_bytes b (s_total s)) (s_segments s)
  end.

(** The bytes of the segments, in order: what a staged write copies in. *)
Fixpoint gather (mem : M) (segs : list (Z * Z)) : option (list Z) :=
  match segs with
  | [] => Some []
  | (a, len) :: segs =>
      l ← read_slice mem a (Z.to_nat len);
      rest ← gather mem segs;
      Some (l ++ rest)
  end.

(** The inner loop of [zero_fill]: [fuel] chunks of at most 4096 bytes. *)
Fixpoint zero_chunks (fuel : nat) (mem : M) (a at_ len : Z) : M * bool :=
  match fuel with
  | O => (mem, true)
  | S fuel =>
      if len <=? at_ then (mem, true)
      else
        let n := Z.min (len - at_) 4096 in
        let '(mem, ok) := write_slice mem (a ⊕ at_) (replicate (Z.to_nat n) 0) in
        if ok : bool then zero_chunks fuel mem a (at_ + n) len else (mem, false)
  end.

Fixpoint zero_segments (mem : M) (skip : Z) (segs : list (Z * Z)) : M :=
  match segs with
  | [] => mem
  | (a, len) :: segs =>
      if len <=? skip then zero_segments mem (skip - len) segs
      else
        let '(mem, ok) := zero_chunks (Z.to_nat (len - skip)) mem a skip len in
        if ok : bool then zero_segments mem 0 segs else mem
  end.

Definition zero_fill (mem : M) (s : Slot) : M := zero_segments mem (s_done s) (s_segments s).

End Copies.

(** * The worker *)

Section Worker.
Context {M : Type} {HM : GuestMemory M}.
Context {E : Type} {HE : Engine E}.
Context {R : Type} {HR : MsiRouter R}.
(** The host address a guest address is mapped at, and the allocator: the
    contents of a fresh allocation of a size and alignment, none when it fails. *)
Variable host_addr : Z -> Z.
Variable alloc : Z -> Z -> option (list Z).

(** The last three fields are histories the code does not keep: the heads taken
    from the ring, the used entries pushed, and the heads given up because the
    driver had reset the device. *)
Record Worker := {
  mem : M;
  disk : Disk;
  generation : Z;
  engine : E;
  slots : list (option Slot);
  free : list Z;
  want_drain : bool;
  used_idx : Z;
  notify_suppressed : bool;
  requests : Z;
  interrupts : Z;
  staged : Z;
  in_flight : Z;
  taken : list Z;
  pushed : list (Z * Z);
  dropped : list Z
}.

Definition Worker_new (m : M) (d : Disk) (e : E) (depth : nat) : Worker :=
  {| mem := m; disk := d; generation := 0; engine := e; slots := replicate depth None;
     free := Z.of_nat <$> seq 0 depth; want_drain := true; used_idx := 0;
     notify_suppressed := false; requests := 0; interrupts := 0; staged := 0; in_flight := 0;
     taken := []; pushed := []; dropped := [] |}.

Definition set_mem (w : Worker) (m : M) : Worker :=
  {| mem := m; disk := disk w; generation := generation w; engine := engine w; slots := slots w;
     free := free w; want_drain := want_drain w; used_idx := used_idx w;
     notify_suppressed := notify_suppressed w; requests := requests w;
     interrupts := interrupts w; staged := staged w; in_flight := in_flight w;
     taken := taken w; pushed := pushed w; dropped := dropped w |}.
Definition set_engine (w : Worker) (e : E) : Worker :=
  {| mem := mem w; disk := disk w; generation := generation w; engine := e; slots := slots w;
     free := free w; want_drain := want_drain w; used_idx := used_idx w;
     notify_suppressed := notify_suppressed w; requests := requests w;
     interrupts := interrupts w; staged := staged w; in_flight := in_flight w;
     taken := taken w; pushed := pushed w; dropped := dropped w |}.
(** The slab: [free] is kept top of the stack first. *)
Definition set_slab (w : Worker) (s : list (option Slot)) (f : list Z) : Worker :=
  {| mem := mem w; disk := disk w; generation := generation w; engine := engine w; slots := s;
     free := f; want_drain := want_drain w; used_idx := used_idx w;
     notify_suppressed := notify_suppressed w; requests := requests w;
     interrupts := interrupts w; staged := staged w; in_flight := in_flight w;
     taken := taken w; pushed := pushed w; dropped := dropped w |}.
Definition set_want_drain (w : Worker) (b : bool) : Worker :=
  {| mem := mem w; disk := disk w; generation := generation w; engine := engine w; slots := slots w;
     free := free w; want_drain := b; used_idx := used_idx w;
     notify_suppressed := notify_suppressed w; requests := requests w;
     interrupts := interrupts w; staged := staged w; in_flight := in_flight w;
     taken := taken w; pushed := pushed w; dropped := dropped w |}.
Definition set_suppressed (w : Worker) (b : bool) : Worker :=
  {| mem := mem w; disk := disk w; generation := generation w; engine := engine w; slots := slots w;
     free := free w; want_drain := want_drain w; used_idx := used_idx w;
     notify_suppressed := b; requests := requests w;
     interrupts := interrupts w; staged := staged w; in_flight := in_flight w;
     taken := taken w; pushed := pushed w; dropped := dropped w |}.
Definition set_counts (w : Worker) (rq ir sg fl : Z) : Worker :=
  {| mem := mem w; disk := disk w; generation := generation w; engine := engine w; slots := slots w;
     free := free w; want_drain := want_drain w; used_idx := used_idx w;
     notify_suppressed := notify_suppressed w; requests := rq;
     interrupts := ir; staged := sg; in_flight := fl;
     taken := taken w; pushed := pushed w; dropped := dropped w |}.

(** One more request taken from the ring. *)
Definition count_request (w : Worker) (h : Z) : Worker :=
  {| mem := mem w; disk := disk w; generation := generation w; engine := engine w; slots := slots w;
     free := free w; want_drain := want_drain w; used_idx := used_idx w;
     notify_suppressed := notify_suppressed w; requests := requests w + 1;
     interrupts := interrupts w; staged := staged w; in_flight := in_flight w;
     taken := taken w ++ [h]; pushed := pushed w; dropped := dropped w |}.

Definition note_dropped (w : Worker) (h : Z) : Worker :=
  {| mem := mem w; disk := disk w; generation := generation w; engine := engine w; slots := slots w;
     free := free w; want_drain := want_drain w; used_idx := used_idx w;
     notify_suppressed := notify_suppressed w; requests := requests w;
     interrupts := interrupts w; staged := staged w; in_flight := in_flight w;
     taken := taken w; pushed := pushed w; dropped := dropped w ++ [h] |}.

(** [self.used_idx = push_used(&self.mem, q, head, len)]. *)
Definition push (w : Worker) (q : QState) (h len : Z) : Worker :=
  let '(m, idx) := push_used (mem w) q h len in
  {| mem := m; disk := disk w; generation := generation w; engine := engine w; slots := slots w;
     free := free w; want_drain := want_drain w; used_idx := idx;
     notify_suppressed := notify_suppressed w; requests := requests w;
     interrupts := interrupts w; staged := staged w; in_flight := in_flight w;
     taken := taken w; pushed := pushed w ++ [(h, len)]; dropped := dropped w |}.

(** A status byte and a used entry of length [len]. *)
Definition reply (w : Worker) (q : QState) (h sa status len : Z) : Worker :=
  push (set_mem w (write_status (mem w) sa status)) q h len.

Definition free_token (w : Worker) (t : Z) : Worker := set_slab w (slots w) (t :: free w).

Definition park (w : Worker) (t : Z) (s : Slot) : Worker :=
  set_slab w (<[Z.to_nat t := Some s]> (slots w)) (free w).

Definition slot_at (w : Worker) (t : Z) : option Slot := slots w !! Z.to_nat t ≫= id.

Definition take_slot (w : Worker) (t : Z) : Worker :=
  set_slab w (<[Z.to_nat t := None]> (slots w)) (free w).

Definition can_accept (w : Worker) : bool :=
  match free w with [] => false | _ => 0 <? room (engine w) end.

Definition publish_in_flight (w : Worker) : Worker :=
  set_counts w (requests w) (interrupts w) (staged w)
    (Z.of_nat (length (slots w)) - Z.of_nat (length (free w))).

Definition release (w : Worker) (t : Z) : Worker :=
  match slot_at w t with
  | Some s => free_token (note_dropped (take_slot w t) (s_head s)) t
  | None => w
  end.

(** ** Preparing a transfer *)

Definition iovs_for (m : M) (segs : list (Z * Z)) : list Iov :=
  (fun s => {| iv_at := InGuest s.1; iv_len := s.2 |}) <$>
    filter (fun s => get_slice m s.1 s.2 = true) segs.

(** The host view of guest segments, as [direct_ok] checks them. *)
Definition host_iov (v : Iov) : IoVec :=
  {| iov_base := match iv_at v with InGuest a => host_addr a | InBounce o => o end;
     iov_len := iv_len v |}.

(** The slot around its bounce buffer, and the worker that counted it. *)
Definition stage (w : Worker) (s : Slot) : Worker * (Z + Slot) :=
  let '(align, head_pad, io_len) := bounce_shape (disk w) (s_offset s) (s_total s) in
  if (negb (head_pad =? 0) || negb (io_len =? s_total s)) && bool_decide (s_op s = Write) then
    (w, inl BLK_S_IOERR)
  else
    match alloc (Z.max io_len 1) (Z.max align 1) with
    | None => (w, inl BLK_S_IOERR)
    | Some fresh =>
        let w := set_counts w (requests w) (interrupts w) (staged w + 1) (in_flight w) in
        let filled :=
          if bool_decide (s_op s = Write) then
            match gather (mem w) (s_segments s) with
            | Some l => Some (splice fresh (Z.to_nat head_pad) l)
            | None => None
            end
          else Some fresh in
        match filled with
        | None => (w, inl BLK_S_IOERR)
        | Some data =>
            let b := {| b_data := data; b_skip := head_pad |} in
            (w, inr {| s_generation := s_generation s; s_head := s_head s; s_op := s_op s;
                       s_status := s_status s; s_segments := s_segments s;
                       s_iovs := [{| iv_at := InBounce 0; iv_len := bounce_len b |}];
                       s_bounce := Some b; s_offset := s_offset s ⊖ head_pad; s_done := s_done s;
                       s_total := s_total s; s_io_len := io_len; s_bounced := true |})
        end
    end.

Definition new_slot (w : Worker) (r : Request) : Slot :=
  {| s_generation := generation w; s_head := head r; s_op := op r; s_status := status_addr r;
     s_segments := segments r; s_iovs := []; s_bounce := None; s_offset := offset r; s_done := 0;
     s_total := total r; s_io_len := total r; s_bounced := false |}.

Definition with_iovs (s : Slot) (l : list Iov) : Slot :=
  {| s_generation := s_generation s; s_head := s_head s; s_op := s_op s; s_status := s_status s;
     s_segments := s_segments s; s_iovs := l; s_bounce := s_bounce s; s_offset := s_offset s;
     s_done := s_done s; s_total := s_total s; s_io_len := s_io_len s; s_bounced := s_bounced s |}.

Definition prepare (w : Worker) (r : Request) : Worker * (Z + Slot) :=
  let s := new_slot w r in
  if negb (is_rw (op r)) then (w, inr s)
  else
    let direct := iovs_for (mem w) (segments r) in
    if negb (length direct =? length (segments r))%nat then (w, inl BLK_S_IOERR)
    else if direct_ok (disk w) (offset r) (host_iov <$> direct) then (w, inr (with_iovs s direct))
    else stage w s.

(** ** Submitting *)

(** [None] is the [unreachable!] of a GET_ID. *)
Definition job_of (s : Slot) : option Job :=
  match s_op s with
  | Read => Some (Readv (s_iovs s) (s_offset s))
  | Write => Some (Writev (s_iovs s) (s_offset s))
  | Flush => Some FlushData
  | Discard sector n =>
      Some (Fallocate (Z.lor FALLOC_FL_PUNCH_HOLE FALLOC_FL_KEEP_SIZE)
              (sector ⊗ SECTOR_SIZE) (n ⊗ SECTOR_SIZE))
  | WriteZeroes sector n unmap =>
      Some (Fallocate (Z.lor (if unmap then FALLOC_FL_PUNCH_HOLE else FALLOC_FL_ZERO_RANGE)
                         FALLOC_FL_KEEP_SIZE) (sector ⊗ SECTOR_SIZE) (n ⊗ SECTOR_SIZE))
  | GetId => None
  end.

Definition submit (w : Worker) (t : Z) (s : Slot) : Worker * bool :=
  match job_of s with
  | None => (w, false)
  | Some j => let '(e, ok) := submit_job (engine w) t j in (set_engine w e, ok)
  end.

Definition issue (w : Worker) (q : QState) (r : Request) : Worker * nat :=
  match free w with
  | [] => (reply w q (head r) (status_addr r) BLK_S_IOERR 1, 1%nat)
  | t :: rest =>
      let w := set_slab w (slots w) rest in
      let '(w, prepared) := prepare w r in
      match prepared with
      | inl status => (reply (free_token w t) q (head r) (status_addr r) status 1, 1%nat)
      | inr s =>
          let '(w, ok) := submit w t s in
          if ok : bool then (park w t s, 0%nat)
          else (reply (free_token w t) q (s_head s) (s_status s) BLK_S_IOERR 1, 1%nat)
      end
  end.

(** The id, spread over the segments; the bytes written. *)
Fixpoint write_id (m : M) (id : list Z) (segs : list (Z * Z)) (written : Z) : M * Z :=
  match segs with
  | [] => (m, written)
  | (a, len) :: segs =>
      let n := Nat.min (Z.to_nat len) (length id) in
      if (n =? 0)%nat then (m, written)
      else
        let m := (write_slice m a (take n id)).1 in
        write_id m (drop n id) segs (written + Z.of_nat n)
  end.

Definition start (w : Worker) (q : QState) (h : Z) (descs : list Desc) : Worker * nat :=
  match parse (mem w) (disk w) h descs with
  | inl Malformed => (push w q h 0, 1%nat)
  | inl (Rejected sa status) => (reply w q h sa status 1, 1%nat)
  | inr r =>
      match op r with
      | GetId =>
          let '(m, written) := write_id (mem w) DISK_ID (segments r) 0 in
          (reply (set_mem w m) q h (status_addr r) BLK_S_OK (written + 1), 1%nat)
      | _ => issue w q r
      end
  end.

(** ** Completions *)

Definition resubmit (w : Worker) (q : QState) (t : Z) (s : Slot) : Worker * nat :=
  let '(w, ok) := submit w t s in
  if ok : bool then (park w t s, 0%nat)
  else (free_token (reply w q (s_head s) (s_status s) BLK_S_IOERR 1) t, 1%nat).

Definition finish (w : Worker) (q : QState) (t : Z) (s : Slot) (status : Z) : Worker * nat :=
  let len := if (status =? BLK_S_OK) && bool_decide (s_op s = Read) then u32 (u32 (s_total s) + 1) else 1 in
  (free_token (reply w q (s_head s) (s_status s) status len) t, 1%nat).

(** The slot after [moved] more bytes. *)
Definition progressed (s : Slot) (moved : Z) : Slot :=
  {| s_generation := s_generation s; s_head := s_head s; s_op := s_op s; s_status := s_status s;
     s_segments := s_segments s; s_iovs := s_iovs s; s_bounce := s_bounce s;
     s_offset := s_offset s ⊕ moved; s_done := s_done s ⊕ moved;
     s_total := s_total s; s_io_len := s_io_len s; s_bounced := s_bounced s |}.

Definition with_bounce (s : Slot) (b : option Bounce) : Slot :=
  {| s_generation := s_generation s; s_head := s_head s; s_op := s_op s; s_status := s_status s;
     s_segments := s_segments s; s_iovs := s_iovs s; s_bounce := b; s_offset := s_offset s;
     s_done := s_done s; s_total := s_total s; s_io_len := s_io_len s; s_bounced := s_bounced s |}.

(** A failed transfer. *)
Definition complete_error (w : Worker) (q : QState) (t : Z) (s : Slot) (err : Z) : Worker * nat :=
  if (err =? EINTR) || (err =? EAGAIN) then resubmit w q t s
  else if (err =? EINVAL) && negb (s_bounced s) && (s_done s =? 0) && is_rw (s_op s) then
    match stage w s with
    | (w, inl _) => finish w q t s BLK_S_IOERR
    | (w, inr s) => resubmit w q t s
    end
  else if (err =? EOPNOTSUPP) &&
    match s_op s with Discard _ _ | WriteZeroes _ _ _ => true | _ => false end
  then finish w q t s BLK_S_UNSUPP
  else finish w q t s BLK_S_IOERR.

(** A read or write that moved [s_done] bytes so far, [moved] of them just now. *)
Definition complete_moved (w : Worker) (q : QState) (t : Z) (s : Slot) (moved : Z) : Worker * nat :=
  if s_done s <? s_io_len s then
    if moved =? 0 then
      if bool_decide (s_op s = Read) then
        match s_bounce s with
        | Some b =>
            let s := with_bounce s (Some (zero_from b (s_done s))) in
            let '(m, ok) := copy_out (mem w) s in
            finish (set_mem w m) q t s (if ok : bool then BLK_S_OK else BLK_S_IOERR)
        | None => finish (set_mem w (zero_fill (mem w) s)) q t s BLK_S_OK
        end
      else finish w q t s BLK_S_IOERR
    else resubmit w q t (with_iovs s (advance (s_iovs s) moved))
  else if bool_decide (s_op s = Read) && bool_decide (is_Some (s_bounce s)) then
    let '(m, ok) := copy_out (mem w) s in
    finish (set_mem w m) q t s (if ok : bool then BLK_S_OK else BLK_S_IOERR)
  else finish w q t s BLK_S_OK.

Definition complete (w : Worker) (q : QState) (d : Done) : Worker * nat :=
  let t := u32 (token d) in
  match slot_at w t with
  | None => (w, 0%nat)
  | Some s =>
      let w := take_slot w t in
      if negb (s_generation s =? generation w) then (free_token (note_dropped w (s_head s)) t, 0%nat)
      else if result d <? 0 then complete_error w q t s (- result d)
      else if negb (is_rw (s_op s)) then finish w q t s BLK_S_OK
      else complete_moved w q t (progressed s (result d)) (result d)
  end.

(** ** Draining the ring *)

Definition suppress_notify (w : Worker) (q : QState) (on : bool) : Worker :=
  if event_idx q then
    let want := if on then u16 (u16 (last q + qsize q / 2) + 1) else last q in
    set_suppressed (set_mem w (set_avail_event (mem w) q want)) on
  else if Bool.eqb (notify_suppressed w) on then w
  else set_suppressed (set_mem w (set_used_no_notify (mem w) q on)) on.

(** The inner loop: take chains while there is room and something on offer.
    [None] when [fuel] runs out. *)
Fixpoint take_offered (fuel : nat) (w : Worker) (q : QState) (used : nat)
    : option (Worker * QState * nat) :=
  match fuel with
  | O => None
  | S fuel =>
      if can_accept w then
        match pop_avail (mem w) q with
        | (q, None) => Some (w, q, used)
        | (q, Some (h, descs)) =>
            let '(w, n) := start (count_request w h) q h descs in
            take_offered fuel w q (used + n)
        end
      else Some (w, q, used)
  end.

Fixpoint drain (fuel : nat) (w : Worker) (q : QState) (used : nat)
    : option (Worker * QState * nat) :=
  match fuel with
  | O => None
  | S fuel' =>
      let w := suppress_notify w q true in
      '(w, q, used) ← take_offered fuel w q used;
      if negb (can_accept w) then Some (w, q, used)
      else
        let w := suppress_notify w q false in
        if negb (has_avail (mem w) q) then Some (set_want_drain w false, q, used)
        else drain fuel' w q used
  end.

Fixpoint complete_all (w : Worker) (q : QState) (ds : list Done) (used : nat) : Worker * nat :=
  match ds with
  | [] => (w, used)
  | d :: ds => let '(w, n) := complete w q d in complete_all w q ds (used + n)
  end.

Fixpoint release_all (w : Worker) (ds : list Done) : Worker :=
  match ds with
  | [] => w
  | d :: ds => release_all (release w (u32 (token d))) ds
  end.

Record Irq := { isr : Z; msix : MsixTable R }.

(** One pass of [run], after the wait: [kicked] and the completions collected.
    The eventfds signalled come last. *)
Definition run_pass (fuel : nat) (w : Worker) (q : QState) (irq : Irq) (kicked : bool) (ds : list Done)
    : option (Worker * QState * Irq * list Z) :=
  let w := if kicked then set_want_drain w true else w in
  if negb (enabled q) || (desc q =? 0) then
    Some (publish_in_flight (set_want_drain (release_all w ds) false), q, irq, [])
  else
    let batch_start := read_used_idx (mem w) q in
    let '(w, used) := complete_all w q ds 0 in
    '(w, q, used) ← (if want_drain w then drain fuel w q used else Some (w, q, used));
    let w := publish_in_flight w in
    if (0 <? used)%nat && used_needs_interrupt (mem w) q batch_start (used_idx w) then
      let '(t, fds) := trigger (msix irq) (vec q) in
      let w := set_counts w (requests w) (interrupts w + 1) (staged w) (in_flight w) in
      Some (w, q, {| isr := Z.lor (isr irq) 1; msix := t |}, fds)
    else Some (w, q, irq, []).

End Worker.

Arguments Worker : clear implicits.
Arguments Irq : clear implicits.
