(* ===== verification/BlkWorkerFacts.v ===== *)
(** The worker's books: no slot of the slab is ever lost or handed out twice,
    and every chain taken from the ring is completed to the guest exactly once
    unless the driver reset the device in between. *)

From S2P Require Import Prelude GuestMem Virtqueue BlkDisk Msix BlkWorker.

Section Books.
Context {M : Type} {HM : GuestMemory M}.
Context {E : Type} {HE : Engine E}.
Context {R : Type} {HR : MsiRouter R}.
Variable host_addr : Z -> Z.
Variable alloc : Z -> Z -> option (list Z).
Implicit Types (w : Worker M E) (q : QState).

(** Putting a head in hand away. *)
Lemma put_pushed (h : Z) (a b c : list Z) : h :: a ++ b ++ c ≡ₚ a ++ (b ++ [h]) ++ c.
Proof.
  rewrite <- (assoc_L (++)). simpl. rewrite !(assoc_L (++)). apply Permutation_middle.
Qed.

Lemma put_dropped (h : Z) (a b c : list Z) : h :: a ++ b ++ c ≡ₚ a ++ b ++ c ++ [h].
Proof. rewrite !(assoc_L (++)). apply Permutation_cons_append. Qed.

(** * Live requests *)

Definition live_of (l : list (option Slot)) : list Z := s_head <$> omap id l.
Definition live w : list Z := live_of (slots w).

Lemma live_insert l i s :
  l !! i = Some None -> live_of (<[i := Some s]> l) ≡ₚ s_head s :: live_of l.
Proof.
  intros H. rewrite insert_take_drop by (by eapply lookup_lt_Some).
  rewrite <- (take_drop_middle l i None H) at 3.
  unfold live_of. rewrite !omap_app. simpl. rewrite !fmap_app. simpl.
  symmetry. apply Permutation_middle.
Qed.

Lemma live_take l i s :
  l !! i = Some (Some s) -> s_head s :: live_of (<[i := None]> l) ≡ₚ live_of l.
Proof.
  intros H. rewrite insert_take_drop by (by eapply lookup_lt_Some).
  rewrite <- (take_drop_middle l i (Some s) H) at 3.
  unfold live_of. rewrite !omap_app. simpl. rewrite !fmap_app. simpl.
  apply Permutation_middle.
Qed.

(** * The invariant *)

(** The books with a token and a head possibly in hand: taken out of the slab or
    off the ring, and not yet put anywhere. *)
Record books w (held hd : option Z) : Prop := {
  bk_nodup : NoDup (free w);
  bk_free : forall t, t ∈ free w <->
    0 <= t /\ slots w !! Z.to_nat t = Some None /\ held <> Some t;
  bk_held : forall t, held = Some t -> 0 <= t /\ slots w !! Z.to_nat t = Some None;
  bk_heads : taken w ≡ₚ option_list hd ++ live w ++ (pushed w).*1 ++ dropped w
}.

(** The parts of a worker the books are about. *)
Definition same_books w w' : Prop :=
  slots w' = slots w /\ free w' = free w /\ taken w' = taken w /\
  pushed w' = pushed w /\ dropped w' = dropped w.

Lemma books_same w w' held hd : same_books w w' -> books w held hd -> books w' held hd.
Proof.
  intros (E1 & E2 & E3 & E4 & E5) [H1 H2 H3 H4].
  split; unfold live in *; rewrite ?E1, ?E2, ?E3, ?E4, ?E5 in *; done.
Qed.

Lemma books_new m d e depth : books (Worker_new m d e depth) None None.
Proof.
  split; simpl.
  - apply NoDup_fmap_2; [apply _|apply NoDup_seq].
  - intros t. rewrite list_elem_of_fmap. setoid_rewrite elem_of_seq. rewrite lookup_replicate. split.
    + intros (i & -> & Hi). repeat split; try done; lia.
    + intros (H0 & [_ Hlt] & _). exists (Z.to_nat t). lia.
  - done.
  - unfold live. simpl. assert (live_of (replicate depth None) = []) as ->; [|done].
    unfold live_of. induction depth; simpl; done.
Qed.

(** ** The moves *)

Lemma books_push w q t h len : books w t (Some h) -> books (push w q h len) t None.
Proof.
  unfold push. destruct (push_used (mem w) q h len) as [m idx]. intros [H1 H2 H3 H4].
  split; simpl; try done. unfold live in *. simpl in *. rewrite H4, fmap_app. apply put_pushed.
Qed.

Lemma books_reply w q t h sa st len : books w t (Some h) -> books (reply w q h sa st len) t None.
Proof. intros H. apply books_push. eapply books_same; [|exact H]. done. Qed.

Lemma books_free_token w t hd : books w (Some t) hd -> books (free_token w t) None hd.
Proof.
  intros [H1 H2 H3 H4]. destruct (H3 t eq_refl) as [Ht Hs]. split; simpl; try done.
  - constructor; [|done]. rewrite H2. tauto.
  - intros u. rewrite elem_of_cons, H2. split.
    + intros [->|(?&?&?)]; done.
    + intros (Hu & Hn & _). destruct (decide (u = t)) as [->|Hne]; [by left|right].
      repeat split; try done. congruence.
Qed.

Lemma books_park w t s h :
  s_head s = h -> books w (Some t) (Some h) -> books (park w t s) None None.
Proof.
  intros Es [H1 H2 H3 H4]. destruct (H3 t eq_refl) as [Ht Hs]. split; simpl; try done.
  - intros u. rewrite H2. destruct (decide (u = t)) as [->|Hne].
    + split; [tauto|]. intros (_ & Hn & _). rewrite list_lookup_insert_eq in Hn; [done|].
      by eapply lookup_lt_Some.
    + split.
      * intros (Hu & Hn & _). rewrite list_lookup_insert_ne by lia. done.
      * intros (Hu & Hn & _). rewrite list_lookup_insert_ne in Hn by lia.
        repeat split; try done. congruence.
  - rewrite H4. unfold live. simpl. rewrite (live_insert _ _ s Hs), Es. done.
Qed.

Lemma books_take w t s :
  0 <= t -> slot_at w t = Some s -> books w None None -> books (take_slot w t) (Some t) (Some (s_head s)).
Proof.
  intros Ht Hs [H1 H2 H3 H4]. unfold slot_at in Hs. apply bind_Some in Hs as (o & Ho & Hid). simpl in Hid. subst o.
  pose proof (lookup_lt_Some _ _ _ Ho) as Hlt.
  split; simpl; try done.
  - intros u. rewrite H2. destruct (decide (u = t)) as [->|Hne].
    + split; [|tauto]. intros (_ & Hn & _). congruence.
    + split; intros (Hu & Hn & _); rewrite list_lookup_insert_ne in * by lia;
        repeat split; try done; congruence.
  - intros u [= <-]. split; [done|]. by apply list_lookup_insert_eq.
  - rewrite H4. unfold live. simpl. rewrite <- (live_take _ _ s Ho). done.
Qed.

Lemma books_pop_free w t rest hd :
  free w = t :: rest -> books w None hd -> books (set_slab w (slots w) rest) (Some t) hd.
Proof.
  intros Ef [H1 H2 H3 H4]. rewrite Ef in H1. apply NoDup_cons in H1 as [Hni Hnd].
  assert (Ht : t ∈ free w) by (rewrite Ef; by left). apply H2 in Ht as (Ht & Hs & _).
  split; simpl; try done.
  - intros u. destruct (decide (u = t)) as [->|Hne]; [split; [done|tauto]|].
    pose proof (H2 u) as Hu. rewrite Ef, elem_of_cons in Hu. split.
    + intros Hin. destruct (proj1 Hu (or_intror Hin)) as (? & ? & _).
      repeat split; try done. congruence.
    + intros (? & ? & _). destruct (proj2 Hu) as [|]; [done|done|done].
  - by intros u [= <-].
Qed.

Lemma books_dropped w t h : books w t (Some h) -> books (note_dropped w h) t None.
Proof.
  intros [H1 H2 H3 H4]. split; simpl; try done. unfold live in *. simpl in *.
  rewrite H4. apply put_dropped.
Qed.

Lemma books_count w h : books w None None -> books (count_request w h) None (Some h).
Proof.
  intros [H1 H2 H3 H4]. split; simpl; try done. unfold live in *. simpl in *.
  rewrite <- Permutation_cons_append, H4. done.
Qed.

(** ** Operations *)

Lemma stage_books w s : same_books w (stage alloc w s).1.
Proof.
  unfold stage. destruct (bounce_shape _ _ _) as [[align hp] io]. case_match; [done|].
  destruct (alloc _ _); [|done]. simpl. by repeat case_match.
Qed.

Lemma stage_head w s s' : (stage alloc w s).2 = inr s' -> s_head s' = s_head s.
Proof.
  unfold stage. destruct (bounce_shape _ _ _) as [[align hp] io]. case_match; [done|].
  destruct (alloc _ _); [|done]. simpl. repeat case_match; simpl; try done; by intros [= <-].
Qed.

Lemma prepare_books w r : same_books w (prepare host_addr alloc w r).1.
Proof. unfold prepare. repeat (case_match; [done|]). apply stage_books. Qed.

Lemma prepare_head w r s : (prepare host_addr alloc w r).2 = inr s -> s_head s = head r.
Proof.
  unfold prepare. case_match; [by intros [= <-]|]. case_match; [done|].
  case_match; [by intros [= <-]|]. intros Hs. by apply stage_head in Hs.
Qed.

Lemma submit_books w t s : same_books w (submit w t s).1.
Proof. unfold submit. case_match; [|done]. by destruct (submit_job _ _ _). Qed.

Lemma resubmit_books w q t s :
  books w (Some t) (Some (s_head s)) -> books (resubmit w q t s).1 None None.
Proof.
  intros H. unfold resubmit. pose proof (submit_books w t s) as Hs.
  destruct (submit w t s) as [w1 ok]. simpl in Hs. apply (books_same _ _ _ _ Hs) in H.
  destruct ok; simpl.
  - exact (books_park _ _ _ _ eq_refl H).
  - by apply books_free_token, books_reply.
Qed.

Lemma finish_books w q t s st :
  books w (Some t) (Some (s_head s)) -> books (finish w q t s st).1 None None.
Proof. intros H. unfold finish. simpl. by apply books_free_token, books_reply. Qed.

Lemma issue_books w q r :
  books w None (Some (head r)) -> books (issue host_addr alloc w q r).1 None None.
Proof.
  intros H. unfold issue. destruct (free w) as [|t rest] eqn:Ef; [by apply books_reply|].
  apply (books_pop_free _ _ _ _ Ef) in H. set (w1 := set_slab w (slots w) rest) in *.
  pose proof (prepare_books w1 r) as Hp. pose proof (prepare_head w1 r) as Hh.
  destruct (prepare host_addr alloc w1 r) as [w2 [st|s]]; simpl in Hp, Hh;
    apply (books_same _ _ _ _ Hp) in H.
  - by apply books_reply, books_free_token.
  - specialize (Hh s eq_refl). rewrite <- Hh in H.
    pose proof (submit_books w2 t s) as Hs. destruct (submit w2 t s) as [w3 ok]. simpl in Hs.
    apply (books_same _ _ _ _ Hs) in H. destruct ok; simpl.
    + exact (books_park _ _ _ _ eq_refl H).
    + by apply books_reply, books_free_token.
Qed.

Lemma parse_head m d h descs r : parse m d h descs = inr r -> head r = h.
Proof.
  unfold parse. destruct descs as [|[[ha hl] hf] rest]; [done|].
  destruct (list.last rest) as [[[sa sl] sf]|]; [|done].
  repeat (case_match; try done). by intros [= <-].
Qed.

Lemma start_books w q h descs :
  books w None (Some h) -> books (start host_addr alloc w q h descs).1 None None.
Proof.
  intros H. unfold start. destruct (parse (mem w) (disk w) h descs) as [[|sa st]|r] eqn:Ep.
  - by apply books_push.
  - by apply books_reply.
  - rewrite <- (parse_head _ _ _ _ _ Ep) in *. destruct (op r); try by apply issue_books.
    destruct (write_id _ _ _ _) as [m n]. apply books_reply. by eapply books_same; [|exact H].
Qed.

Lemma complete_moved_books w q t s moved :
  books w (Some t) (Some (s_head s)) -> books (complete_moved w q t s moved).1 None None.
Proof.
  intros H. unfold complete_moved.
  assert (Hm : forall m, books (set_mem w m) (Some t) (Some (s_head s)))
    by (intros m; by eapply books_same; [|exact H]).
  case_match; [case_match|case_match].
  - case_match; [|by apply finish_books]. destruct (s_bounce s) as [b|].
    + destruct (copy_out _ _) as [m ok]. by apply finish_books.
    + by apply finish_books.
  - by apply resubmit_books.
  - destruct (copy_out _ _) as [m ok]. by apply finish_books.
  - by apply finish_books.
Qed.

Lemma complete_books w q d : books w None None -> books (complete alloc w q d).1 None None.
Proof.
  intros H. unfold complete. destruct (slot_at w (u32 (token d))) as [s|] eqn:Es; [|done].
  assert (Ht : 0 <= u32 (token d)) by (by apply wrap_range).
  pose proof (books_take _ _ _ Ht Es H) as Hb.
  case_match; [by apply books_free_token, books_dropped|].
  case_match.
  { unfold complete_error. case_match; [by apply resubmit_books|]. case_match.
    - pose proof (stage_books (take_slot w (u32 (token d))) s) as Hsb.
      pose proof (stage_head (take_slot w (u32 (token d))) s) as Hsh.
      destruct (stage alloc _ s) as [w1 [st|s']]; simpl in Hsb, Hsh;
        apply (books_same _ _ _ _ Hsb) in Hb; [by apply finish_books|].
      apply resubmit_books. by rewrite (Hsh s' eq_refl).
    - case_match; by apply finish_books. }
  case_match; [by apply finish_books|]. by apply complete_moved_books.
Qed.

Lemma release_books w t : 0 <= t -> books w None None -> books (release w t) None None.
Proof.
  intros Ht H. unfold release. destruct (slot_at w t) as [s|] eqn:Es; [|done].
  by apply books_free_token, books_dropped, books_take.
Qed.

Lemma release_all_books w ds : books w None None -> books (release_all w ds) None None.
Proof.
  revert w. induction ds as [|d ds IH]; intros w H; simpl; [done|].
  apply IH, release_books; [by apply wrap_range|done].
Qed.

Lemma complete_all_books w q ds n :
  books w None None -> books (complete_all alloc w q ds n).1 None None.
Proof.
  revert w n. induction ds as [|d ds IH]; intros w n H; simpl; [done|].
  pose proof (complete_books w q d H) as Hc. destruct (complete alloc w q d) as [w1 k]. by apply IH.
Qed.

Lemma suppress_books w q on : same_books w (suppress_notify w q on).
Proof. unfold suppress_notify. by repeat case_match. Qed.

Lemma take_offered_books fuel w q n w' q' n' :
  take_offered host_addr alloc fuel w q n = Some (w', q', n') ->
  books w None None -> books w' None None.
Proof.
  revert w q n. induction fuel as [|fuel IH]; intros w q n Ht H; simpl in Ht; [done|].
  destruct (can_accept w); [|by injection Ht as <- <- <-].
  destruct (pop_avail (mem w) q) as [q1 [[h descs]|]]; [|by injection Ht as <- <- <-].
  pose proof (start_books (count_request w h) q1 h descs (books_count _ _ H)) as Hs.
  destruct (start host_addr alloc _ q1 h descs) as [w1 k]. by eapply IH.
Qed.

Lemma drain_books fuel w q n w' q' n' :
  drain host_addr alloc fuel w q n = Some (w', q', n') -> books w None None -> books w' None None.
Proof.
  revert w q n. induction fuel as [|fuel IH]; intros w q n Hd H; [done|]. cbn [drain] in Hd.
  apply bind_Some in Hd as ([[w1 q1] n1] & Ht & Hd).
  apply take_offered_books in Ht; [|by eapply books_same; [apply suppress_books|]].
  destruct (can_accept w1); simpl in Hd; [|by injection Hd as <- <- <-].
  pose proof (books_same _ _ _ _ (suppress_books w1 q1 false) Ht) as H2.
  destruct (has_avail _ _); simpl in Hd.
  - by eapply IH.
  - injection Hd as <- <- <-. by eapply books_same; [|exact H2].
Qed.

(** * Worker, device and guest together *)

(** What can happen between two passes: the worker runs one, with whatever the
    engine reports; the device resets the queue and moves its generation on; the
    vCPUs write the queue's registers and guest memory. *)
Inductive worker_step : Worker M E * QState * Irq R -> Worker M E * QState * Irq R -> Prop :=
  | step_pass fuel w q irq kicked ds w' q' irq' fds :
      run_pass host_addr alloc fuel w q irq kicked ds = Some (w', q', irq', fds) ->
      worker_step (w, q, irq) (w', q', irq')
  | step_reset w q irq q' :
      worker_step (w, q, irq)
        ({| mem := mem w; disk := disk w; generation := u64 (generation w + 1); engine := engine w;
            slots := slots w; free := free w; want_drain := want_drain w; used_idx := used_idx w;
            notify_suppressed := notify_suppressed w; requests := requests w;
            interrupts := interrupts w; staged := staged w; in_flight := in_flight w;
            taken := taken w; pushed := pushed w; dropped := dropped w |}, q', irq)
  | step_guest w q irq m q' irq' : worker_step (w, q, irq) (set_mem w m, q', irq').

Lemma run_pass_books fuel w q (irq irq' : Irq R) kicked ds w' q' fds :
  run_pass host_addr alloc fuel w q irq kicked ds = Some (w', q', irq', fds) ->
  books w None None -> books w' None None.
Proof.
  unfold run_pass. intros Hr H.
  set (w0 := if kicked then set_want_drain w true else w) in *.
  assert (H0 : books w0 None None).
  { unfold w0. destruct kicked; [by eapply books_same; [|exact H]|done]. }
  destruct (_ || _).
  { injection Hr as <- <- <- <-. eapply books_same; [|by apply release_all_books]. done. }
  pose proof (complete_all_books w0 q ds 0 H0) as Hc.
  destruct (complete_all alloc w0 q ds 0) as [w1 n1]. simpl in Hc.
  apply bind_Some in Hr as ([[w2 q2] n2] & Hd & Hr).
  assert (H2 : books w2 None None).
  { destruct (want_drain w1); [by eapply drain_books|by injection Hd as <- <- <-]. }
  destruct (_ && _).
  - destruct (trigger _ _) as [t f]. injection Hr as <- <- <- <-. by eapply books_same; [|exact H2].
  - injection Hr as <- <- <- <-. by eapply books_same; [|exact H2].
Qed.

Lemma worker_step_books s s' : worker_step s s' -> books s.1.1 None None -> books s'.1.1 None None.
Proof.
  intros Hs H. destruct Hs; simpl in *.
  - by eapply run_pass_books.
  - by eapply books_same; [|exact H].
  - by eapply books_same; [|exact H].
Qed.

(** C1: No request is lost, answered twice or leaked.  From a fresh worker,
    under any interleaving of passes (with any completions the engine reports,
    unknown tokens included), device resets, register writes and writes to
    guest memory: the free tokens are exactly the unoccupied slots, none twice,
    so resets never shrink the queue; and the chains taken from the ring are, as
    a multiset, exactly those still in flight, those completed to the guest in
    the used ring, and those given up by a reset. *)
Theorem worker_accounts (m : M) (d : Disk) (e : E) (depth : nat) (q0 : QState) (irq0 : Irq R)
    (w : Worker M E) (q : QState) (irq : Irq R)
    (Hreach : rtc worker_step (Worker_new m d e depth, q0, irq0) (w, q, irq)) :
  NoDup (free w) /\
  (forall t, t ∈ free w <-> 0 <= t /\ slots w !! Z.to_nat t = Some None) /\
  taken w ≡ₚ live w ++ (pushed w).*1 ++ dropped w.
Proof.
  assert (Hb : books w None None).
  { enough (Hg : forall s s', rtc worker_step s s' -> books s.1.1 None None -> books s'.1.1 None None).
    { apply (Hg _ _ Hreach). apply books_new. }
    induction 1; eauto using worker_step_books. }
  destruct Hb as [H1 H2 _ H4]. split; [done|]. split; [|done].
  intros t. rewrite H2. split; [tauto|]. intros [? ?]. by repeat split.
Qed.

End Books.
