(* ===== verification/BlkTransfer.v ===== *)
(** The data of a block transfer: short transfers resume where they stopped,
    staged reads and short reads leave the right bytes in the guest's pages, and
    a worker that stops draining has asked for the next notification. *)

From S2P Require Import Prelude GuestMem Virtqueue BlkDisk BlkDiskFacts Msix BlkWorker.

(** * Scatter-gather lists as the bytes they name *)

Definition flat_iov (v : Iov) : list Place :=
  (fun i => place_add (iv_at v) (Z.of_nat i)) <$> seq 0 (Z.to_nat (iv_len v)).

Definition flat (l : list Iov) : list Place := l ≫= flat_iov.

Lemma flat_cons v l : flat (v :: l) = flat_iov v ++ flat l.
Proof. reflexivity. Qed.

Lemma place_add_add p n m : place_add (place_add p n) m = place_add p (n + m).
Proof. destruct p; simpl; f_equal; lia. Qed.

Lemma length_flat_iov v : length (flat_iov v) = Z.to_nat (iv_len v).
Proof. unfold flat_iov. by rewrite length_fmap, length_seq. Qed.

Lemma flat_iov_advance v n : 0 <= n <= iv_len v ->
  flat_iov (iov_advance v n) = drop (Z.to_nat n) (flat_iov v).
Proof.
  intros Hn. apply list_eq. intros i. rewrite lookup_drop. unfold flat_iov. simpl.
  rewrite !list_lookup_fmap.
  destruct (decide (i < Z.to_nat (iv_len v - n))%nat) as [Hi|Hi].
  - rewrite !lookup_seq_lt by lia. simpl. f_equal. rewrite place_add_add. f_equal. lia.
  - by rewrite !lookup_seq_ge by lia.
Qed.

(** [advance] drops exactly the first [n] bytes. *)
Lemma flat_advance l n : 0 <= n -> Forall (fun v => 0 <= iv_len v) l ->
  flat (advance l n) = drop (Z.to_nat n) (flat l) /\ Forall (fun v => 0 <= iv_len v) (advance l n).
Proof.
  intros Hn Hl. revert n Hn. induction Hl as [|v l Hv Hl IH]; intros n Hn; cbn [advance].
  { change (flat []) with (@nil Place). by rewrite drop_nil. }
  destruct (Z.eqb_spec n 0) as [->|Hn0]; [split; [done|by constructor]|].
  rewrite flat_cons. destruct (Z.leb_spec (iv_len v) n).
  - destruct (IH (n - iv_len v)) as [-> Hf]; [lia|]. split; [|done].
    rewrite drop_app_ge by (rewrite length_flat_iov; lia). rewrite length_flat_iov. f_equal. lia.
  - rewrite flat_cons, flat_iov_advance by lia. split; [|constructor; [simpl; lia|done]].
    rewrite drop_app_le by (rewrite length_flat_iov; lia). done.
Qed.

(** What a sequence of short transfers moves: the file offsets paired with the
    places, the list advanced after each as [complete] does. *)
Fixpoint moves (l : list Iov) (off : Z) (ms : list Z) : list (Z * Place) :=
  match ms with
  | [] => []
  | m :: ms =>
      zip (seqZ off m) (take (Z.to_nat m) (flat l)) ++ moves (advance l m) (off + m) ms
  end.

Definition sum_of (ms : list Z) : Z := foldr Z.add 0 ms.

Lemma sum_of_nonneg ms : Forall (fun m => 0 <= m) ms -> 0 <= sum_of ms.
Proof. induction 1; simpl; lia. Qed.

(** However a transfer is cut up, each byte moves once and to its place.
    For any sequence of partial results covering no more than the list, the
    pieces the kernel was asked for, put together, pair the file offsets from
    the request's on, one by one, with the bytes of the guest's segments in
    order: nothing is skipped, repeated or shifted. *)
Theorem transfer_covers_once (l : list Iov) (off : Z) (ms : list Z)
    (Hl : Forall (fun v => 0 <= iv_len v) l) (Hms : Forall (fun m => 0 <= m) ms)
    (Hfit : sum_of ms <= Z.of_nat (length (flat l))) :
  moves l off ms = zip (seqZ off (sum_of ms)) (take (Z.to_nat (sum_of ms)) (flat l)).
Proof.
  revert l off Hl Hfit. induction Hms as [|m ms Hm Hms IH]; intros l off Hl Hfit; simpl; [done|].
  simpl in Hfit. pose proof (sum_of_nonneg ms Hms).
  destruct (flat_advance l m Hm Hl) as [Ef Hl'].
  rewrite IH; [|done|rewrite Ef, length_drop; lia]. rewrite Ef.
  rewrite (Z2Nat.inj_add m) by lia. rewrite <- take_take_drop, seqZ_app by lia.
  rewrite zip_with_app; [done|]. rewrite length_seqZ, length_take. lia.
Qed.

Lemma transfer_covers_once_witness :
  moves [{| iv_at := InGuest 0x1000; iv_len := 3 |}; {| iv_at := InGuest 0x9000; iv_len := 2 |}]
    512 [2; 2; 1] =
  [(512, InGuest 0x1000); (513, InGuest 0x1001); (514, InGuest 0x1002);
   (515, InGuest 0x9000); (516, InGuest 0x9001)].
Proof.
  rewrite (transfer_covers_once _ 512 [2; 2; 1]); [reflexivity|..].
  - repeat constructor; simpl; lia.
  - repeat constructor; lia.
  - simpl. lia.
Defined.

(** * A short completion in the worker *)

Section Resume.
Context {M : Type} {HM : GuestMemory M}.
Context {E : Type} {HE : Engine E}.
Variable alloc : Z -> Z -> option (list Z).
Implicit Types (w : Worker M E) (q : QState).

(** What is left of a transfer of [l0] at file offset [off0]. *)
Record resumable (s : Slot) (l0 : list Iov) (off0 : Z) : Prop := {
  rs_iovs : flat (s_iovs s) = drop (Z.to_nat (s_done s)) (flat l0);
  rs_lens : Forall (fun v => 0 <= iv_len v) (s_iovs s);
  rs_offset : s_offset s = off0 + s_done s;
  rs_done : 0 <= s_done s <= s_io_len s;
  rs_word : 0 <= off0 /\ off0 + s_io_len s < 2 ^ 64
}.

(** A short [readv] or [writev] is resumed exactly where it stopped.  When
    the engine reports [moved] bytes of a live request and more are due, the
    worker submits again, under the same token, the rest: the file offset and
    the scatter-gather list both past what has been moved so far, over all the
    partial results together; and the request stays parked under its token if
    the engine takes it. *)
Theorem short_transfer_resumes w q (t moved off0 : Z) (s : Slot) (l0 : list Iov)
    (Ht : is_word 32 t) (Hs : slot_at w t = Some s) (Hg : s_generation s = generation w)
    (Hrw : is_rw (s_op s) = true) (Hr : resumable s l0 off0)
    (Hm : 0 < moved) (Hmore : s_done s + moved < s_io_len s) :
  exists s', resumable s' l0 off0 /\ s_done s' = s_done s + moved /\ s_head s' = s_head s /\
    (exists l, flat l = drop (Z.to_nat (s_done s + moved)) (flat l0) /\
       job_of s' = Some (match s_op s with
                         | Read => Readv l (off0 + s_done s + moved)
                         | _ => Writev l (off0 + s_done s + moved) end)) /\
    complete alloc w q {| token := t; result := moved |} = resubmit (take_slot w t) q t s'.
Proof.
  destruct Hr as [Hi Hl Ho Hd [Hw1 Hw2]].
  assert (Ed : s_done s ⊕ moved = s_done s + moved) by (apply wrap_small; unfold is_word; lia).
  assert (Eo : s_offset s ⊕ moved = off0 + s_done s + moved)
    by (rewrite Ho; apply wrap_small; unfold is_word; lia).
  destruct (flat_advance (s_iovs s) moved ltac:(lia) Hl) as [Ef Hl'].
  assert (Ef2 : flat (advance (s_iovs s) moved) = drop (Z.to_nat (s_done s + moved)) (flat l0)).
  { rewrite Ef, Hi, drop_drop. f_equal. lia. }
  exists (with_iovs (progressed s moved) (advance (s_iovs s) moved)). split; [|split; [|split; [|split]]].
  - split; simpl; rewrite ?Ed, ?Eo; try done; try lia.
  - simpl. by rewrite Ed.
  - done.
  - exists (advance (s_iovs s) moved). split; [done|]. unfold job_of. simpl. rewrite Eo.
    by destruct (s_op s).
  - unfold complete. cbn [token result]. rewrite (wrap_small 32 t) by done. rewrite Hs.
    cbn [generation take_slot set_slab]. rewrite Hg, Z.eqb_refl. cbn [negb].
    rewrite (proj2 (Z.ltb_ge moved 0)) by lia. rewrite Hrw. cbn [negb].
    unfold complete_moved. cbn [s_done s_io_len progressed s_iovs]. rewrite Ed.
    rewrite (proj2 (Z.ltb_lt _ _) Hmore), (proj2 (Z.eqb_neq moved 0)) by lia. done.
Qed.

End Resume.

(** * Bytes in the guest's pages *)

Section Pages.
Context {M : Type} {HM : GuestMemory M} {HL : GuestMemoryLaws M}.
Implicit Types (mem : M) (segs : list (Z * Z)).

Fixpoint segs_apart segs : Prop :=
  match segs with
  | [] => True
  | (a, n) :: segs => Forall (fun s => apart a n s.1 s.2) segs /\ segs_apart segs
  end.

(** Segments as parsing accepts them: mapped, and below the end of memory. *)
Definition segs_mapped mem segs : Prop :=
  Forall (fun s => 0 <= s.1 /\ 0 <= s.2 /\ s.1 + s.2 < 2 ^ 64 /\
                   is_Some (read_slice mem s.1 (Z.to_nat s.2))) segs.

Lemma apart_sym a n b m : apart a n b m -> apart b m a n.
Proof. unfold apart. lia. Qed.

(** A memory that agrees with another on the segments and maps the same. *)
Definition same_over mem mem' segs : Prop :=
  Forall (fun s => read_slice mem' s.1 (Z.to_nat s.2) = read_slice mem s.1 (Z.to_nat s.2)) segs.

Lemma gather_same mem mem' segs : same_over mem mem' segs -> gather mem' segs = gather mem segs.
Proof.
  induction 1 as [|[a n] segs Hs _ IH]; simpl; [done|]. simpl in Hs. by rewrite Hs, IH.
Qed.

Lemma write_same_on mem a l segs :
  Forall (fun s => apart a (Z.of_nat (length l)) s.1 s.2 /\ 0 <= s.2) segs ->
  same_over mem (write_slice mem a l).1 segs.
Proof.
  intros Hf. eapply Forall_impl; [exact Hf|]. intros s [Ha Hn]. apply read_apart.
  by rewrite Z2Nat.id.
Qed.

Lemma segs_mapped_write mem a l segs : segs_mapped mem segs -> segs_mapped (write_slice mem a l).1 segs.
Proof.
  intros Hf. eapply Forall_impl; [exact Hf|]. intros s (? & ? & ? & Hs).
  repeat split; try done. by apply read_mapped.
Qed.

Lemma copy_segments_spec mem src segs :
  segs_apart segs -> segs_mapped mem segs -> Forall is_byte src ->
  Z.of_nat (length src) = seg_total segs ->
  exists mem', copy_segments mem src segs = (mem', true) /\ gather mem' segs = Some src /\
    (forall b k, Forall (fun s => apart s.1 s.2 b (Z.of_nat k)) segs ->
       read_slice mem' b k = read_slice mem b k).
Proof.
  revert mem src. induction segs as [|[a n] segs IH]; intros mem src Ha Hm Hb Hlen; simpl in *.
  { exists mem. split; [done|]. split; [|done]. destruct src; [done|simpl in Hlen; lia]. }
  destruct Ha as [Ha0 Ha]. apply Forall_cons in Hm as [(H1 & H2 & H3 & H4) Hm]. simpl in *.
  assert (Htot : 0 <= seg_total segs).
  { clear -Hm. induction Hm as [|s l (_ & ? & _)]; simpl; lia. }
  assert (Elen : length (take (Z.to_nat n) src) = Z.to_nat n) by (rewrite length_take; lia).
  pose proof (write_ok mem a (take (Z.to_nat n) src)) as Hok. rewrite Elen in Hok. specialize (Hok H4).
  destruct (write_slice mem a (take (Z.to_nat n) src)) as [m1 ok] eqn:Ew. simpl in Hok. subst ok.
  assert (Em1 : m1 = (write_slice mem a (take (Z.to_nat n) src)).1) by (by rewrite Ew).
  destruct (IH m1 (drop (Z.to_nat n) src)) as (m2 & Ec & Eg & Hfr);
    [done|rewrite Em1; by apply segs_mapped_write|by apply Forall_drop|rewrite length_drop; lia|].
  exists m2. split; [done|]. split.
  - rewrite Hfr; [|eapply Forall_impl; [exact Ha0|]; intros s Hs; apply apart_sym; by rewrite Z2Nat.id].
    pose proof (read_written mem a (take (Z.to_nat n) src)) as Hrw. rewrite Ew, Elen in Hrw.
    simpl in Hrw. rewrite Hrw; [|done|by apply Forall_take]. simpl. rewrite Eg. simpl. by rewrite take_drop.
  - intros b k Hf. apply Forall_cons in Hf as [Hf0 Hf]. simpl in Hf0. rewrite (Hfr b k Hf), Em1.
    apply read_apart. by rewrite Elen, Z2Nat.id.
Qed.

(** A staged read delivers its data.  When the segments do not overlap, each
    mapped, copying out of the bounce buffer succeeds and leaves in the guest's
    segments, read in order, exactly the request's bytes of the buffer (past the
    alignment padding), touching nothing else. *)
Theorem copy_out_delivers mem (s : Slot) (b : Bounce)
    (Hbounce : s_bounce s = Some b) (Ha : segs_apart (s_segments s))
    (Hm : segs_mapped mem (s_segments s)) (Hb : Forall is_byte (b_data b))
    (Hfit : 0 <= b_skip b /\ b_skip b + s_total s <= bounce_len b)
    (Htot : s_total s = seg_total (s_segments s)) :
  exists mem', copy_out mem s = (mem', true) /\
    gather mem' (s_segments s) = Some (bounce_bytes b (s_total s)) /\
    (forall a k, Forall (fun g => apart g.1 g.2 a (Z.of_nat k)) (s_segments s) ->
       read_slice mem' a k = read_slice mem a k).
Proof.
  unfold copy_out. rewrite Hbounce.
  assert (0 <= s_total s).
  { rewrite Htot. clear -Hm. induction Hm as [|g l (_ & ? & _)]; simpl; lia. }
  apply copy_segments_spec; [done|done|by apply Forall_take, Forall_drop|].
  unfold bounce_bytes, bounce_len in *. rewrite length_take, length_drop. lia.
Qed.

(** ** Zero-filling *)

Lemma read_end mem a len :
  0 <= len -> is_Some (read_slice mem a (Z.to_nat len)) -> read_slice mem (a + len) 0 = Some [].
Proof.
  intros Hl [l Hs]. pose proof (read_split mem a (Z.to_nat len) 0) as Hsp.
  rewrite Nat.add_0_r in Hsp. destruct (Hsp l Hs) as [_ Hd]. rewrite Z2Nat.id in Hd by lia.
  rewrite Hd. f_equal. apply nil_length_inv. rewrite length_drop, (read_length _ _ _ _ Hs). lia.
Qed.

Lemma zero_chunks_spec fuel mem a at_ len :
  0 <= at_ <= len -> 0 <= a -> a + len < 2 ^ 64 -> len - at_ <= Z.of_nat fuel ->
  is_Some (read_slice mem a (Z.to_nat len)) ->
  exists mem', zero_chunks fuel mem a at_ len = (mem', true) /\
    read_slice mem' (a + at_) (Z.to_nat (len - at_)) = Some (replicate (Z.to_nat (len - at_)) 0) /\
    (forall b k, apart (a + at_) (len - at_) b (Z.of_nat k) -> read_slice mem' b k = read_slice mem b k) /\
    (forall b k, is_Some (read_slice mem' b k) <-> is_Some (read_slice mem b k)).
Proof.
  revert mem at_. induction fuel as [|fuel IH]; intros mem at_ Hat Ha Hw Hf Hs.
  { simpl in Hf. assert (at_ = len) as -> by lia. exists mem. rewrite Z.sub_diag. split; [done|].
    split; [|done]. apply read_end; [lia|done]. }
  simpl. destruct (Z.leb_spec len at_).
  { assert (at_ = len) as -> by lia. exists mem. rewrite Z.sub_diag. split; [done|].
    split; [|done]. apply read_end; [lia|done]. }
  set (n := Z.min (len - at_) 4096).
  rewrite (wrap_small 64 (a + at_)) by (unfold is_word; lia).
  set (z := replicate (Z.to_nat n) 0).
  assert (Elen : length z = Z.to_nat n) by apply length_replicate.
  assert (Hmap : is_Some (read_slice mem (a + at_) (Z.to_nat n))).
  { destruct Hs as [l Hl].
    replace (Z.to_nat len) with (Z.to_nat at_ + (Z.to_nat n + Z.to_nat (len - at_ - n)))%nat in Hl by lia.
    apply read_split in Hl as [_ Hl]. apply read_split in Hl as [Hl _].
    rewrite Z2Nat.id in Hl by lia. eauto. }
  pose proof (write_ok mem (a + at_) z) as Hok. rewrite Elen in Hok. specialize (Hok Hmap).
  pose proof (read_written mem (a + at_) z Hok) as Hz. rewrite Elen in Hz.
  specialize (Hz ltac:(apply Forall_replicate; by vm_compute)).
  pose proof (fun b k => read_mapped mem (a + at_) z b k) as Hmp.
  pose proof (fun b k => read_apart mem (a + at_) z b k) as Hap. rewrite Elen in Hap.
  destruct (write_slice mem (a + at_) z) as [m1 ok]. simpl in *. subst ok.
  destruct (IH m1 (at_ + n)) as (m2 & Ec & Er & Hfr & Hmp2);
    [lia|done|done|lia|by apply Hmp|].
  exists m2. split; [done|]. split; [|split].
  - destruct (proj2 (Hmp2 (a + at_) (Z.to_nat (len - at_)))) as [l Hl].
    { apply Hmp. destruct Hs as [l Hl].
      replace (Z.to_nat len) with (Z.to_nat at_ + Z.to_nat (len - at_))%nat in Hl by lia.
      apply read_split in Hl as [_ Hl]. rewrite Z2Nat.id in Hl by lia. eauto. }
    rewrite Hl. f_equal.
    replace (Z.to_nat (len - at_)) with (Z.to_nat n + Z.to_nat (len - (at_ + n)))%nat in * by lia.
    apply read_split in Hl as [Hl1 Hl2]. rewrite Z2Nat.id in Hl2 by lia.
    rewrite <- Z.add_assoc, Er in Hl2. rewrite Hfr, Hz in Hl1 by (unfold apart; lia).
    injection Hl1 as Hl1. injection Hl2 as Hl2. rewrite replicate_add.
    rewrite <- (take_drop (Z.to_nat n) l). unfold z in Hl1. congruence.
  - intros b k Hb. unfold apart in Hb. rewrite Hfr by (unfold apart; lia). apply Hap. unfold apart. lia.
  - intros b k. by rewrite Hmp2, Hmp.
Qed.

Lemma zero_segments_spec mem skip segs l :
  segs_apart segs -> segs_mapped mem segs -> 0 <= skip <= seg_total segs ->
  gather mem segs = Some l ->
  gather (zero_segments mem skip segs) segs =
    Some (take (Z.to_nat skip) l ++ replicate (Z.to_nat (seg_total segs - skip)) 0) /\
  (forall b k, Forall (fun s => apart s.1 s.2 b (Z.of_nat k)) segs ->
     read_slice (zero_segments mem skip segs) b k = read_slice mem b k).
Proof.
  revert mem skip l. induction segs as [|[a n] segs IH]; intros mem skip l Ha Hm Hsk Hg; simpl in *.
  { injection Hg as <-. split; [|done]. replace (Z.to_nat (0 - skip)) with 0%nat by lia.
    by rewrite take_nil. }
  destruct Ha as [Ha0 Ha]. apply Forall_cons in Hm as [(H1 & H2 & H3 & H4) Hm]. simpl in *.
  apply bind_Some in Hg as (l1 & El1 & Hg). apply bind_Some in Hg as (l2 & El2 & [= <-]).
  pose proof (read_length _ _ _ _ El1) as Len1.
  assert (Htot : 0 <= seg_total segs).
  { clear -Hm. induction Hm as [|s l (_ & ? & _)]; simpl; lia. }
  assert (Hother : Forall (fun s => apart s.1 s.2 a (Z.of_nat (Z.to_nat n))) segs).
  { eapply Forall_impl; [exact Ha0|]. intros s Hs. apply apart_sym. by rewrite Z2Nat.id. }
  destruct (Z.leb_spec n skip).
  - destruct (IH mem (skip - n) l2) as [Eg Hfr]; [done|done|lia|done|]. split.
    + rewrite (Hfr a _ Hother), El1. simpl. rewrite Eg. simpl.
      rewrite take_app_ge, Len1, <- (assoc_L (++)) by lia. do 3 f_equal; [f_equal; lia|f_equal; lia].
    + intros b k Hf. apply Forall_cons in Hf as [_ Hf]. by apply Hfr.
  - destruct (zero_chunks_spec (Z.to_nat (n - skip)) mem a skip n) as (m1 & Ec & Er & Hfr1 & Hmp);
      [lia|done|done|lia|done|]. rewrite Ec.
    assert (Hm1 : segs_mapped m1 segs).
    { eapply Forall_impl; [exact Hm|]. intros s (? & ? & ? & ?). repeat split; try done. by apply Hmp. }
    assert (Hg1 : gather m1 segs = Some l2).
    { rewrite <- El2. apply gather_same. unfold same_over. rewrite Forall_forall in Ha0, Hm |- *.
      intros s Hs. apply Hfr1. specialize (Ha0 s Hs). destruct (Hm s Hs) as (_ & ? & _).
      unfold apart in *. rewrite Z2Nat.id by lia. lia. }
    destruct (IH m1 0 l2 Ha Hm1 ltac:(lia) Hg1) as [Eg Hfr]. split.
    + rewrite (Hfr a _ Hother), Eg.
      destruct (proj2 (Hmp a (Z.to_nat n)) H4) as [l3 Hl3]. rewrite Hl3. simpl. f_equal.
      pose proof Hl3 as Hsp.
      replace (Z.to_nat n) with (Z.to_nat skip + Z.to_nat (n - skip))%nat in Hsp by lia.
      apply read_split in Hsp as [Hs1 Hs2]. rewrite Z2Nat.id, Er in Hs2 by lia. injection Hs2 as Hs2.
      rewrite Hfr1 in Hs1 by (unfold apart; lia).
      replace (Z.to_nat n) with (Z.to_nat skip + Z.to_nat (n - skip))%nat in El1 by lia.
      apply read_split in El1 as [Ho1 _]. rewrite Hs1 in Ho1. injection Ho1 as Ho1.
      rewrite <- (take_drop (Z.to_nat skip) l3), Ho1, <- Hs2.
      rewrite take_app_le by lia. rewrite <- !(assoc_L (++)). f_equal.
      rewrite <- replicate_add. f_equal. lia.
    + intros b k Hf. apply Forall_cons in Hf as [Hf0 Hf]. simpl in Hf0. rewrite (Hfr b k Hf).
      apply Hfr1. unfold apart in *. lia.
Qed.

(** A read that hits the end of the file hands the guest zeroes, never
    stale memory: with [done] bytes read, [zero_fill] leaves the first [done]
    bytes of the segments as they are and every later byte zero, to the end of
    the last segment, however the segments and the 4 KiB chunks divide it, and
    touches nothing outside them. *)
Theorem zero_fill_rest mem (s : Slot) (l : list Z)
    (Ha : segs_apart (s_segments s)) (Hm : segs_mapped mem (s_segments s))
    (Hd : 0 <= s_done s <= seg_total (s_segments s)) (Hg : gather mem (s_segments s) = Some l) :
  gather (zero_fill mem s) (s_segments s) =
    Some (take (Z.to_nat (s_done s)) l ++
          replicate (Z.to_nat (seg_total (s_segments s) - s_done s)) 0) /\
  (forall b k, Forall (fun g => apart g.1 g.2 b (Z.of_nat k)) (s_segments s) ->
     read_slice (zero_fill mem s) b k = read_slice mem b k).
Proof. by apply zero_segments_spec. Qed.

End Pages.
