(* ===== verification/BlkDrain.v ===== *)
(** When the worker may sleep: draining ends either full, with the drain still
    wanted, or with the ring empty and the next notification asked for.  Then the
    block theorems on a small concrete disk.

    When draining the ring ends.  For a driver whose requests do not write over
    its own rings it ends after at most one pass over what was published; for a
    queue the guest sized to zero it never does. *)

From S2P Require Import Prelude GuestMem Virtqueue VirtqueueFacts VirtqueueRings VirtqueueRun Msix MsixFacts BlkDisk.
From S2P Require Import BlkDiskFacts BlkWorker BlkWorkerFacts BlkTransfer.

Section Drain.
Context {M : Type} {HM : GuestMemory M} {HL : GuestMemoryLaws M}.
Context {E : Type} {HE : Engine E}.
Variable host_addr : Z -> Z.
Variable alloc : Z -> Z -> option (list Z).
Implicit Types (w : Worker M E) (q : QState).

(** The flags only the drain loop itself changes. *)
Definition keeps w w' : Prop :=
  want_drain w' = want_drain w /\ notify_suppressed w' = notify_suppressed w.

Lemma keeps_trans w1 w2 w3 : keeps w1 w2 -> keeps w2 w3 -> keeps w1 w3.
Proof. intros [] []. split; congruence. Qed.

Lemma push_keeps w q h len : keeps w (push w q h len).
Proof. unfold push. by destruct (push_used _ _ _ _). Qed.

Lemma reply_keeps w q h sa st len : keeps w (reply w q h sa st len).
Proof. exact (push_keeps (set_mem w _) q h len). Qed.

Lemma prepare_keeps w r : keeps w (prepare host_addr alloc w r).1.
Proof.
  unfold prepare. repeat (case_match; [done|]). unfold stage.
  destruct (bounce_shape _ _ _) as [[align hp] io]. case_match; [done|].
  destruct (alloc _ _); [|done]. by repeat case_match.
Qed.

Lemma submit_keeps w t s : keeps w (submit w t s).1.
Proof. unfold submit. case_match; [|done]. by destruct (submit_job _ _ _). Qed.

Lemma issue_keeps w q r : keeps w (issue host_addr alloc w q r).1.
Proof.
  unfold issue. destruct (free w) as [|t rest]; [apply reply_keeps|].
  pose proof (prepare_keeps (set_slab w (slots w) rest) r) as Hp.
  destruct (prepare _ _ _ _) as [w1 [st|s]].
  - eapply keeps_trans; [exact Hp|]. apply (reply_keeps (free_token w1 t)).
  - pose proof (submit_keeps w1 t s) as Hs. destruct (submit w1 t s) as [w2 []].
    + eapply keeps_trans; [exact Hp|exact Hs].
    + eapply keeps_trans; [exact Hp|]. eapply keeps_trans; [exact Hs|].
      apply (reply_keeps (free_token w2 t)).
Qed.

Lemma start_keeps w q h descs : keeps w (start host_addr alloc w q h descs).1.
Proof.
  unfold start. destruct (parse _ _ _ _) as [[|sa st]|r];
    [apply push_keeps|apply reply_keeps|]. destruct (op r); try apply issue_keeps.
  destruct (write_id _ _ _ _) as [m n]. apply (reply_keeps (set_mem w m)).
Qed.

Lemma take_offered_keeps fuel w q n w' q' n' :
  take_offered host_addr alloc fuel w q n = Some (w', q', n') ->
  keeps w w' /\ exists k, q' = with_last q k /\ (is_word 16 (last q) -> is_word 16 k).
Proof.
  revert w q n. induction fuel as [|fuel IH]; intros w q n Ht; simpl in Ht; [done|].
  assert (Hid : q = with_last q (last q)) by (by destruct q).
  destruct (can_accept w); [|injection Ht as <- <- <-; split; [done|by exists (last q)]].
  destruct (pop_avail_last (mem w) q) as (k & Ek & Hk).
  destruct (pop_avail (mem w) q) as [q1 [[h descs]|]]; simpl in Ek; subst q1;
    [|injection Ht as <- <- <-; split; [done|by exists k]].
  pose proof (start_keeps (count_request w h) (with_last q k) h descs) as Hs.
  destruct (start host_addr alloc _ _ h descs) as [w1 m].
  destruct (IH _ _ _ Ht) as (Hk1 & k2 & -> & Hk2). split.
  - eapply keeps_trans; [exact Hs|exact Hk1].
  - exists k2. split; [done|]. auto.
Qed.

(** Suppressing marks the worker; re-enabling after that writes the mark. *)
Lemma suppress_on w q : notify_suppressed (suppress_notify w q true) = true.
Proof.
  unfold suppress_notify. destruct (event_idx q); [done|].
  destruct (notify_suppressed w) eqn:Es; [done|]. done.
Qed.

Definition notify_addr q : Z := if event_idx q then avail_event_addr q else used q.
Definition notify_value q : Z := if event_idx q then last q else 0.

Lemma suppress_off w q :
  notify_suppressed w = true -> used q <> 0 -> qsize q <> 0 -> is_word 16 (last q) ->
  is_Some (read_le (mem (suppress_notify w q false)) (notify_addr q) 2) ->
  read_le (mem (suppress_notify w q false)) (notify_addr q) 2 = Some (notify_value q).
Proof.
  unfold suppress_notify, notify_addr, notify_value. intros Hs Hu Hz Hl.
  destruct (event_idx q); simpl.
  - unfold set_avail_event. rewrite !(proj2 (Z.eqb_neq _ _)) by done. simpl.
    rewrite write_le_mapped. intros Hm. by apply write_le_read.
  - rewrite Hs. simpl. unfold set_used_no_notify. rewrite (proj2 (Z.eqb_neq _ _)) by done.
    rewrite write_le_mapped. intros Hm. by apply write_le_read.
Qed.

(** C36: A worker never sleeps on a request it could have taken.  When draining
    returns, either there is no room left, and the worker still wants to drain
    once completions free some; or the avail ring holds nothing new after the
    notification request was put in guest memory: the event index naming the
    very next entry when that feature is negotiated, the no-notify flag cleared
    when it is not. *)
Theorem drain_arms_notification (fuel : nat) (w w' : Worker M E) (q q' : QState) (n n' : nat)
    (Hd : drain host_addr alloc fuel w q n = Some (w', q', n'))
    (Hu : used q <> 0) (Hz : qsize q <> 0) (Hl : is_word 16 (last q))
    (Hmap : is_Some (read_le (mem w') (notify_addr q) 2)) :
  (can_accept w' = false /\ want_drain w' = want_drain w) \/
  (want_drain w' = false /\ has_avail (mem w') q' = false /\
   read_le (mem w') (notify_addr q') 2 = Some (notify_value q')).
Proof.
  revert w q n Hd Hu Hz Hl Hmap. induction fuel as [|fuel IH]; intros w q n Hd Hu Hz Hl Hmap; [done|].
  cbn [drain] in Hd. set (w0 := suppress_notify w q true) in *.
  apply bind_Some in Hd as ([[w1 q1] n1] & Ht & Hd).
  destruct (take_offered_keeps _ _ _ _ _ _ _ Ht) as ([Hw1 Hn1] & k & -> & Hk).
  assert (Hsup : want_drain w0 = want_drain w).
  { unfold w0, suppress_notify. by repeat case_match. }
  destruct (can_accept w1) eqn:Ec; simpl in Hd.
  2: { injection Hd as <- <- <-. left. split; [done|congruence]. }
  assert (Hs1 : notify_suppressed w1 = true) by (rewrite Hn1; apply suppress_on).
  set (w2 := suppress_notify w1 (with_last q k) false) in *.
  assert (Hw2 : want_drain w2 = want_drain w1).
  { unfold w2, suppress_notify. by repeat case_match. }
  destruct (has_avail (mem w2) (with_last q k)) eqn:Eh; simpl in Hd.
  - destruct (IH w2 (with_last q k) n1 Hd Hu Hz (Hk Hl) Hmap) as [[H1 H2]|H]; [left|by right].
    split; [done|]. congruence.
  - injection Hd as <- <- <-. right. simpl in *. split; [done|]. split; [done|].
    apply (suppress_off w1 (with_last q k)); auto.
Qed.

End Drain.

(** * On a concrete disk *)

(** An engine that takes everything. *)
Record LogEngine := { log : list (Z * Job) }.
#[export] Instance LogEngine_engine : Engine LogEngine := {
  submit_job e t j := ({| log := log e ++ [(t, j)] |}, true);
  room _ := 8
}.

Definition test_alloc (n _ : Z) : option (list Z) := Some (replicate (Z.to_nat n) 0).

(** A queue of four in a 128 KiB RAM, one read of 4 KiB offered. *)
Definition blk_queue : QState :=
  {| desc := 0x8000; avail := 0x9000; used := 0xA000; qsize := 4; enabled := true; last := 0;
     vec := 0xFFFF; indirect := false; event_idx := false |}.

Definition blk_ram : FlatRam :=
  let m := read_ram in
  let d m i a len f n :=
    write_le (write_le (write_le (write_le m (0x8000 + 16 * i) 8 a) (0x8008 + 16 * i) 4 len)
      (0x800C + 16 * i) 2 f) (0x800E + 16 * i) 2 n in
  let m := d m 0 0x1000 16 1 1 in
  let m := d m 1 0x2000 4096 3 2 in
  let m := d m 2 0x3000 1 2 0 in
  write_le (write_le m 0x9004 2 0) 0x9002 2 1.

Definition worker0 : Worker FlatRam LogEngine := Worker_new blk_ram test_disk {| log := [] |} 4.
Definition irq0 : Irq RouteLog := {| isr := 0; msix := table4 |}.

Definition after_pass (w : Worker FlatRam LogEngine) (q : QState) (ds : list Done)
    : Worker FlatRam LogEngine * QState :=
  match run_pass id test_alloc 8 w q irq0 true ds with
  | Some (w', q', _, _) => (w', q')
  | None => (w, q)
  end.

Definition pass1 := after_pass worker0 blk_queue [].
Definition pass2 := after_pass pass1.1 pass1.2 [{| token := 0; result := 1024 |}].
Definition pass3 := after_pass pass2.1 pass2.2 [{| token := 0; result := 3072 |}].

(** The request goes out, comes back short, goes out again from where it
    stopped, and is completed with its whole length. *)
Example blk_passes :
  log (engine pass2.1) =
    [(0, Readv [{| iv_at := InGuest 0x2000; iv_len := 4096 |}] 4096);
     (0, Readv [{| iv_at := InGuest 0x2400; iv_len := 3072 |}] 5120)] /\
  pushed pass3.1 = [(0, 4097)] /\ taken pass3.1 = [0] /\ free pass3.1 = [0; 1; 2; 3].
Proof. vm_compute. repeat split. Qed.

Lemma after_pass_reach w q ds :
  exists irq', rtc (worker_step (R := RouteLog) id test_alloc) (w, q, irq0)
    ((after_pass w q ds).1, (after_pass w q ds).2, irq').
Proof.
  unfold after_pass.
  destruct (run_pass id test_alloc 8 w q irq0 true ds) as [[[[w' q'] irq'] fds]|] eqn:Er.
  - exists irq'. apply rtc_once. by eapply step_pass.
  - exists irq0. apply rtc_refl.
Qed.

Lemma worker_accounts_witness :
  let w := (after_pass worker0 blk_queue []).1 in
  taken w ≡ₚ live w ++ (pushed w).*1 ++ dropped w.
Proof.
  destruct (after_pass_reach worker0 blk_queue []) as [irq' Hr].
  destruct (worker_accounts id test_alloc blk_ram test_disk {| log := [] |} 4 blk_queue irq0
    (after_pass worker0 blk_queue []).1 (after_pass worker0 blk_queue []).2 irq' Hr) as (_ & _ & H).
  exact H.
Defined.

Definition slot1 : Slot :=
  {| s_generation := 0; s_head := 0; s_op := Read; s_status := 0x3000; s_segments := [(0x2000, 4096)];
     s_iovs := [{| iv_at := InGuest 0x2000; iv_len := 4096 |}]; s_bounce := None; s_offset := 4096;
     s_done := 0; s_total := 4096; s_io_len := 4096; s_bounced := false |}.

Lemma slot1_resumable : resumable slot1 (s_iovs slot1) 4096.
Proof.
  split.
  - change (Z.to_nat (s_done slot1)) with 0%nat. rewrite drop_0. reflexivity.
  - repeat constructor; simpl; lia.
  - reflexivity.
  - simpl. lia.
  - simpl. lia.
Qed.

Lemma short_transfer_resumes_witness :
  exists s', s_done s' = 1024 /\
    complete test_alloc pass1.1 blk_queue {| token := 0; result := 1024 |} =
      resubmit (take_slot pass1.1 0) blk_queue 0 s'.
Proof.
  assert (Hs : slot_at pass1.1 0 = Some slot1) by (by vm_compute).
  destruct (short_transfer_resumes test_alloc pass1.1 blk_queue 0 1024 4096 slot1 (s_iovs slot1))
    as (s' & _ & Hd & _ & _ & Hc).
  - unfold is_word. lia.
  - exact Hs.
  - by vm_compute.
  - done.
  - exact slot1_resumable.
  - lia.
  - simpl. lia.
  - exists s'. split; [exact Hd|exact Hc].
Defined.

(** Eight bytes read through a buffer with two bytes of padding, over two segments. *)
Definition bounced_slot : Slot :=
  {| s_generation := 0; s_head := 0; s_op := Read; s_status := 0x3000;
     s_segments := [(0x2000, 5); (0x4000, 3)]; s_iovs := [];
     s_bounce := Some {| b_data := [9; 9; 1; 2; 3; 4; 5; 6; 7; 8]; b_skip := 2 |}; s_offset := 0;
     s_done := 10; s_total := 8; s_io_len := 10; s_bounced := true |}.

Lemma ram_seg_mapped a n : 0 <= a -> 0 <= n -> a + n <= 0x10000 ->
  0 <= a /\ 0 <= n /\ a + n < 2 ^ 64 /\ is_Some (read_slice (ram_zero 0x10000) a (Z.to_nat n)).
Proof.
  intros. repeat split; try lia. simpl. unfold ram_read, ram_has. simpl.
  rewrite (proj2 (andb_true_iff _ _)) by (rewrite !Z.leb_le; lia). eauto.
Qed.

Lemma copy_out_delivers_witness :
  exists mem', copy_out (ram_zero 0x10000) bounced_slot = (mem', true) /\
    gather mem' (s_segments bounced_slot) = Some [1; 2; 3; 4; 5; 6; 7; 8].
Proof.
  destruct (copy_out_delivers (ram_zero 0x10000) bounced_slot
    {| b_data := [9; 9; 1; 2; 3; 4; 5; 6; 7; 8]; b_skip := 2 |}) as (m & Hc & Hg & _).
  - done.
  - simpl. split; [|split; [constructor|done]]. constructor; [|constructor]. unfold apart. simpl. lia.
  - repeat constructor; simpl; try lia; apply ram_seg_mapped; lia.
  - repeat constructor; vm_compute; congruence.
  - unfold bounce_len. simpl. lia.
  - done.
  - exists m. split; [exact Hc|exact Hg].
Defined.

Definition short_slot : Slot :=
  {| s_generation := 0; s_head := 0; s_op := Read; s_status := 0x3000;
     s_segments := [(0x2000, 5); (0x4000, 3)]; s_iovs := []; s_bounce := None; s_offset := 0;
     s_done := 4; s_total := 8; s_io_len := 8; s_bounced := false |}.

Lemma zero_fill_rest_witness :
  gather (zero_fill (ram_zero 0x10000) short_slot) [(0x2000, 5); (0x4000, 3)] =
    Some (take 4 (replicate 8 0) ++ replicate 4 0).
Proof.
  apply (zero_fill_rest (ram_zero 0x10000) short_slot (replicate 8 0)).
  - simpl. split; [|split; [constructor|done]]. constructor; [|constructor]. unfold apart. simpl. lia.
  - repeat constructor; simpl; try lia; apply ram_seg_mapped; lia.
  - simpl. lia.
  - by vm_compute.
Defined.

Lemma blk_queue_ok : used blk_queue <> 0 /\ qsize blk_queue <> 0 /\ is_word 16 (last blk_queue).
Proof. repeat split; done. Qed.

Lemma drained_mapped :
  match drain id test_alloc 8 worker0 blk_queue 0 with
  | Some (w', _, _) => bool_decide (is_Some (read_le (mem w') (notify_addr blk_queue) 2))
  | None => false
  end = true.
Proof. by vm_compute. Qed.

Lemma drain_arms_notification_witness :
  exists w' q' n', drain id test_alloc 8 worker0 blk_queue 0 = Some (w', q', n') /\
    ((can_accept w' = false /\ want_drain w' = want_drain worker0) \/
     (want_drain w' = false /\ has_avail (mem w') q' = false /\
      read_le (mem w') (notify_addr q') 2 = Some (notify_value q'))).
Proof.
  pose proof drained_mapped as Hm.
  destruct (drain id test_alloc 8 worker0 blk_queue 0) as [[[w' q'] n']|] eqn:Ed; [|discriminate Hm].
  apply bool_decide_eq_true in Hm. destruct blk_queue_ok as (Hu & Hz & Hl).
  exists w', q', n'. refine (conj eq_refl _).
  exact (drain_arms_notification id test_alloc 8 worker0 w' blk_queue q' 0 n' Ed Hu Hz Hl Hm).
Defined.

Section Ends.
Context {M : Type} {HM : GuestMemory M} {HL : GuestMemoryLaws M}.
Context {E : Type} {HE : Engine E}.
Variable host_addr : Z -> Z.
Variable alloc : Z -> Z -> option (list Z).
Implicit Types (w : Worker M E) (q : QState).

Lemma rejected_status (m : M) d h descs sa st :
  parse m d h descs = inl (Rejected sa st) ->
  exists hd data sl sf, descs = hd :: data ++ [(sa, sl, sf)] /\ 1 <= sl.
Proof.
  unfold parse. destruct descs as [|[[ha hl] hf] rest]; [done|].
  destruct (list.last rest) as [[[sa' sl] sf]|] eqn:El; [|done]. apply last_Some in El as [data ->].
  destruct ((sl <? 1) || (Z.land sf VRING_DESC_F_WRITE =? 0)) eqn:Es; bool_prop; [done|]. intros Hp.
  assert (sa' = sa) as -> by (repeat case_match; congruence).
  by exists (ha, hl, hf), data, sl, sf.
Qed.

(** * What one request writes *)

(** Every buffer of a chain after its header is outside [own]. *)
Definition chain_safe (own : list (Z * Z)) (descs : list Desc) : Prop :=
  Forall (fun d : Desc => 0 <= d.1.2 /\ apart_from own d.1.1 d.1.2) (tail descs).

Lemma suppress_same own w q on :
  own_ok own -> used_apart own q -> same_on own (mem w) (mem (suppress_notify w q on)).
Proof.
  intros Ho (Hu & Hq & Hw & Ha). unfold suppress_notify. destruct (event_idx q); simpl.
  - unfold set_avail_event. case_match; [apply same_on_refl|]. apply same_on_write_le; [done|].
    unfold avail_event_addr. rewrite wrap_small by (unfold is_word; lia).
    eapply apart_from_sub; [exact Ha|lia..].
  - case_match; [apply same_on_refl|]. simpl. unfold set_used_no_notify.
    case_match; [apply same_on_refl|]. apply same_on_write_le; [done|].
    eapply apart_from_sub; [exact Ha|lia..].
Qed.

Lemma push_same own w q h len :
  own_ok own -> used_apart own q -> same_on own (mem w) (mem (push w q h len)).
Proof.
  intros Ho Hu. pose proof (push_used_same own (mem w) q h len Ho Hu) as H.
  unfold push. by destruct (push_used _ _ _ _).
Qed.

Lemma reply_same own w q h sa st len :
  own_ok own -> used_apart own q -> apart_from own sa 1 ->
  same_on own (mem w) (mem (reply w q h sa st len)).
Proof.
  intros Ho Hu Hs. eapply same_on_trans; [|by apply push_same]. by apply same_on_write_le.
Qed.

Lemma prepare_mem w r : mem (prepare host_addr alloc w r).1 = mem w.
Proof.
  unfold prepare. repeat (case_match; [done|]). unfold stage.
  destruct (bounce_shape _ _ _) as [[align hp] io]. case_match; [done|].
  destruct (alloc _ _); [|done]. by repeat case_match.
Qed.

Lemma prepare_status w r s :
  (prepare host_addr alloc w r).2 = inr s -> s_status s = status_addr r.
Proof.
  unfold prepare. case_match; [by intros [= <-]|]. case_match; [done|].
  case_match; [by intros [= <-]|]. unfold stage.
  destruct (bounce_shape _ _ _) as [[align hp] io]. case_match; [done|].
  destruct (alloc _ _); [|done]. simpl. case_match; [by intros [= <-]|done].
Qed.

Lemma submit_mem w t s : mem (submit w t s).1 = mem w.
Proof. unfold submit. case_match; [|done]. by destruct (submit_job _ _ _). Qed.

Lemma issue_same own w q r :
  own_ok own -> used_apart own q -> apart_from own (status_addr r) 1 ->
  same_on own (mem w) (mem (issue host_addr alloc w q r).1).
Proof.
  intros Ho Hu Hs. unfold issue. destruct (free w) as [|t rest]; [by apply reply_same|].
  pose proof (prepare_mem (set_slab w (slots w) rest) r) as Hp.
  destruct (prepare host_addr alloc (set_slab w (slots w) rest) r) as [w1 [st|s]] eqn:Ep; simpl in Hp.
  - simpl. rewrite <- Hp. by apply (reply_same own (free_token w1 t)).
  - pose proof (submit_mem w1 t s) as Hm.
    assert (Hst : s_status s = status_addr r) by (eapply prepare_status; by rewrite Ep).
    destruct (submit w1 t s) as [w2 []]; simpl in *.
    + rewrite Hm, Hp. apply same_on_refl.
    + rewrite <- Hp, <- Hm. rewrite Hst. by apply (reply_same own (free_token w2 t)).
Qed.

Lemma write_id_same own (m : M) id segs n :
  own_ok own -> Forall (fun g => 0 <= g.2 /\ apart_from own g.1 g.2) segs ->
  same_on own m (write_id m id segs n).1.
Proof.
  intros Ho Hs. revert m id n. induction Hs as [|[a len] segs [Hl Ha] _ IH]; intros m id n; simpl.
  { apply same_on_refl. }
  case_match; [apply same_on_refl|]. eapply same_on_trans; [|apply IH].
  apply same_on_write; [done|]. simpl in *. eapply apart_from_sub; [exact Ha|lia|].
  rewrite length_take. lia.
Qed.

Lemma take_segments_elem (m : M) data segs tot segs' tot' g :
  take_segments m data segs tot = Some (segs', tot') -> g ∈ segs' ->
  g ∈ segs \/ exists f, (g.1, g.2, f) ∈ data.
Proof.
  revert segs tot. induction data as [|[[a len] f] data IH]; intros segs tot Ht Hg; simpl in Ht.
  { injection Ht as <- <-. by left. }
  destruct (len =? 0).
  { destruct (IH _ _ Ht Hg) as [?|[f' Hf]]; [by left|right; exists f'; by right]. }
  destruct (negb _); [done|]. destruct (_ <? _); [done|].
  destruct (IH _ _ Ht Hg) as [Hin|[f' Hf]]; [|right; exists f'; by right].
  apply elem_of_app in Hin as [?|Hin]; [by left|]. apply list_elem_of_singleton in Hin as ->.
  right. exists f. by left.
Qed.

Lemma start_same own w q h descs :
  own_ok own -> used_apart own q -> chain_safe own descs ->
  same_on own (mem w) (mem (start host_addr alloc w q h descs).1).
Proof.
  intros Ho Hu Hc. unfold start, chain_safe in *. rewrite Forall_forall in Hc.
  destruct (parse (mem w) (disk w) h descs) as [[|sa st]|r] eqn:Ep; [by apply push_same| |].
  - apply reply_same; [done..|].
    destruct (rejected_status _ _ _ _ _ _ Ep) as (hd & data & sl & sf & -> & Hsl).
    destruct (Hc (sa, sl, sf)) as [_ Ha]; [apply elem_of_app; right; by left|].
    eapply apart_from_sub; [exact Ha|simpl; lia..].
  - destruct (parse_inv _ _ _ _ _ Ep) as (hd & data & sa & sl & sf & kd & sec & -> & Hsl & _ & _ & _ & Ht & _ & _ & Esa).
    assert (Hs : apart_from own (status_addr r) 1).
    { destruct (Hc (sa, sl, sf)) as [_ Ha]; [apply elem_of_app; right; by left|].
      rewrite Esa. eapply apart_from_sub; [exact Ha|simpl; lia..]. }
    destruct (op r); try by apply issue_same.
    destruct (write_id (mem w) DISK_ID (segments r) 0) as [m n] eqn:Ew.
    eapply same_on_trans; [|by apply (reply_same own (set_mem w m))].
    simpl. replace m with (write_id (mem w) DISK_ID (segments r) 0).1 by (by rewrite Ew).
    apply write_id_same; [done|]. apply Forall_forall. intros g Hg.
    destruct (take_segments_elem _ _ _ _ _ _ _ Ht Hg) as [Hnil|[f Hf]]; [by apply elem_of_nil in Hnil|].
    apply (Hc (g.1, g.2, f)). simpl. apply elem_of_app. by left.
Qed.

(** * The loop *)

Section Driver.
Variables (own : list (Z * Z)) (m0 : M) (q0 : QState) (k idx : Z).

(** What is asked of the driver, besides a quiet ring: as long as [own] holds what
    it held, the chains the ring names have no buffer in [own] but the header. *)
Record quiet : Prop := {
  qt_quiet : ring_quiet own m0 q0 k idx;
  qt_chains : forall m i h, same_on own m0 m -> 0 <= i < qsize q0 ->
    read_le m0 (avail q0 + (4 + i * 2)) 2 = Some h ->
    chain_safe own (collect_descs_with m (desc q0) h (qsize q0) (indirect q0))
}.

Context (HQ : quiet).

(** A pop sees the ring the driver left. *)
Lemma quiet_pop m l :
  same_on own m0 m -> is_word 16 l ->
  let q := with_last q0 l in
  (l = idx /\ pop_avail m q = (q, None) /\ has_avail m q = false) \/
  (l <> idx /\ exists h descs, pop_avail m q = (with_last q0 (u16 (l + 1)), Some (h, descs)) /\
     chain_safe own descs).
Proof.
  intros Hs Hl q. destruct (ring_quiet_pop _ _ _ _ _ (qt_quiet HQ) m l Hs Hl) as [H|(Hne & h & Hh & Hp)]; [by left|].
  right. split; [done|]. eexists h, _. split; [exact Hp|].
  pose proof (qt_quiet HQ) as Hq. pose proof (rq_avail _ _ _ _ _ Hq) as Ha. pose proof (ao_k _ _ _ Ha).
  pose proof (ao_size _ _ _ Ha). pose proof (Z.pow_pos_nonneg 2 k).
  eapply (qt_chains HQ); [done| |exact Hh]. apply Z.mod_pos_bound. lia.
Qed.

Lemma take_offered_returns fuel w l n :
  same_on own m0 (mem w) -> is_word 16 l -> u16 (idx - l) < Z.of_nat fuel ->
  exists w' l' n', take_offered host_addr alloc fuel w (with_last q0 l) n = Some (w', with_last q0 l', n') /\
    same_on own m0 (mem w') /\ is_word 16 l' /\ (can_accept w' = true -> l' = idx).
Proof.
  assert (Hi : is_word 16 idx) by exact (read_le_range _ _ _ _ (rq_idx _ _ _ _ _ (qt_quiet HQ))).
  revert w l n. induction fuel as [|fuel IH]; intros w l n Hs Hl Hf.
  { pose proof (wrap_range 16 (idx - l)). unfold is_word in *. lia. }
  cbn [take_offered]. destruct (can_accept w) eqn:Ec.
  2: { exists w, l, n. split; [done|]. split; [done|]. split; [done|]. congruence. }
  destruct (quiet_pop (mem w) l Hs Hl) as [(-> & -> & _)|(Hne & h & descs & -> & Hc)].
  { exists w, idx, n. eauto. }
  pose proof (start_same own (count_request w h) (with_last q0 (u16 (l + 1))) h descs
    (rq_ok _ _ _ _ _ (qt_quiet HQ)) (rq_used _ _ _ _ _ (qt_quiet HQ)) Hc) as Hst.
  destruct (start host_addr alloc _ _ h descs) as [w1 m]. simpl in Hst.
  apply IH; [by eapply same_on_trans|by apply wrap_range|]. rewrite dist_step by done. lia.
Qed.

End Driver.

(** C37: Draining the ring ends for a driver that set its queue up and leaves it
    alone ([quiet]): the size is a power of two up to 2^15, the table and the avail
    ring are mapped and hold still, the used ring is apart from them, and no chain
    offered has the device write over them.  Then one pass over the entries
    published, at most 65536 of them, is enough: the loop returns, either full or
    having taken everything up to the driver's index.  The engine may refuse or take
    what it likes, requests may be malformed, and indirect tables are allowed.  (None
    of it holds without the conditions: a queue of size 0 with an entry published is
    looked at for ever.) *)
Theorem drain_returns own w q (k idx : Z) (fuel n : nat)
    (Hq : quiet own (mem w) q k idx) (Hl : is_word 16 (last q))
    (Hfuel : u16 (idx - last q) < Z.of_nat fuel) :
  exists w' q' n', drain host_addr alloc fuel w q n = Some (w', q', n') /\
    (can_accept w' = false \/ last q' = idx).
Proof.
  destruct fuel as [|fuel]; [pose proof (wrap_range 16 (idx - last q)); unfold is_word in *; lia|].
  assert (Eq : q = with_last q (last q)) by (by destruct q). cbn [drain].
  assert (Hs0 : same_on own (mem w) (mem (suppress_notify w q true)))
    by (apply suppress_same; apply (qt_quiet _ _ _ _ _ Hq)).
  destruct (take_offered_returns own (mem w) q k idx Hq (S fuel) (suppress_notify w q true)
    (last q) n Hs0 Hl Hfuel) as (w1 & l1 & n1 & Ht & Hs1 & Hl1 & Hend).
  rewrite <- Eq in Ht. rewrite Ht. simpl. destruct (can_accept w1) eqn:Ec; simpl.
  2: { eexists _, _, _. split; [reflexivity|]. by left. }
  rewrite (Hend eq_refl) in *.
  assert (Hs2 : same_on own (mem w) (mem (suppress_notify w1 (with_last q idx) false))).
  { eapply same_on_trans; [exact Hs1|]. apply suppress_same; apply (qt_quiet _ _ _ _ _ Hq). }
  destruct (quiet_pop own (mem w) q k idx Hq _ idx Hs2 Hl1) as [(_ & _ & Hh)|[? _]]; [|done].
  rewrite Hh. simpl. eexists _, _, _. split; [reflexivity|]. by right.
Qed.

(** * A queue that is refused *)

Lemma suppress_accept w q on : can_accept (suppress_notify w q on) = can_accept w.
Proof. unfold suppress_notify. by repeat case_match. Qed.

Lemma suppress_has_avail w q on :
  qsize q = 0 -> used q = 0 \/ apart (used q) 2 (avail q ⊕ 2) 2 ->
  has_avail (mem (suppress_notify w q on)) q = has_avail (mem w) q.
Proof.
  intros Hz Hap. unfold suppress_notify, set_avail_event, set_used_no_notify. rewrite Hz.
  destruct (event_idx q); simpl; [by rewrite orb_true_r|]. case_match; [done|]. simpl.
  destruct (Z.eqb_spec (used q) 0); [done|]. destruct Hap as [?|Hap]; [done|].
  unfold has_avail. by rewrite write_le_apart.
Qed.

(** A queue sized to zero is drained for ever.  [pop_avail] refuses a queue
    of size zero, but [has_avail] does not: a guest that enables such a queue
    over an avail index other than the device's position, and kicks it, sends
    the worker into [drain], which takes nothing, sees something on offer and
    starts over, whatever the fuel, holding the queue's lock. *)
Theorem zero_size_queue_never_drains (fuel n : nat) w q
    (Hz : qsize q = 0) (Hacc : can_accept w = true) (Hmore : has_avail (mem w) q = true)
    (Hap : used q = 0 \/ apart (used q) 2 (avail q ⊕ 2) 2) :
  drain host_addr alloc fuel w q n = None.
Proof.
  revert w Hacc Hmore. induction fuel as [|fuel IH]; intros w Hacc Hmore; [done|].
  cbn [drain take_offered]. rewrite suppress_accept, Hacc. unfold pop_avail. rewrite Hz. simpl.
  rewrite !suppress_accept, Hacc. simpl. rewrite !suppress_has_avail, Hmore by done. simpl.
  apply IH; [by rewrite !suppress_accept|by rewrite !suppress_has_avail].
Qed.

End Ends.

(** * The two theorems on a small ring *)

(** The driver's table and avail ring. *)
Definition blk_own : list (Z * Z) := [(0x8000, 64); (0x9000, 12)].

Definition blk_chain : list Desc := [(0x1000, 16, 1); (0x2000, 4096, 3); (0x3000, 1, 2)].

Lemma blk_table_mapped : is_Some (read_slice blk_ram 0x8000 (Z.to_nat 64)).
Proof. eexists. vm_compute. reflexivity. Qed.

Lemma blk_descs :
  read_desc blk_ram 0x8000 0 = Some (0x1000, 16, 1, 1) /\
  read_desc blk_ram 0x8000 1 = Some (0x2000, 4096, 3, 2) /\
  read_desc blk_ram 0x8000 2 = Some (0x3000, 1, 2, 0).
Proof. by vm_compute. Qed.

Lemma blk_chain_same (m : FlatRam) :
  same_on blk_own blk_ram m -> collect_descs_with m 0x8000 0 4 false = blk_chain.
Proof.
  intros Hs. destruct blk_descs as (D0 & D1 & D2).
  assert (Hd : forall i, 0 <= i <= 2 -> read_desc m 0x8000 i = read_desc blk_ram 0x8000 i).
  { intros i Hi. apply (read_desc_same blk_own _ _ _ 64); [exact Hs|by left|exact blk_table_mapped|lia..]. }
  unfold collect_descs_with, walk_chain, walk_direct.
  change (4 <=? 0) with false. change (Z.to_nat 4) with 4%nat. cbv iota. cbn [walk_loop].
  rewrite Hd, D0 by lia. cbn. rewrite Hd, D1 by lia. cbn. rewrite Hd, D2 by lia. reflexivity.
Qed.

Lemma blk_heads i h : 0 <= i < 4 -> read_le blk_ram (0x9000 + (4 + i * 2)) 2 = Some h -> h = 0.
Proof.
  intros Hi. assert (i = 0 \/ i = 1 \/ i = 2 \/ i = 3) as [->|[->|[->| ->]]] by lia;
    vm_compute; congruence.
Qed.

Lemma blk_avail_mapped n off : 0 <= off -> off + Z.of_nat n <= 12 ->
  is_Some (read_le blk_ram (0x9000 + off) n).
Proof.
  intros H1 H2. unfold read_le. apply fmap_is_Some. simpl. unfold ram_read.
  assert (ram_has blk_ram (0x9000 + off) (Z.of_nat n) = true) as ->; [|eauto].
  unfold ram_has. change (ram_len blk_ram) with 0x20000. apply andb_true_iff. rewrite !Z.leb_le. lia.
Qed.

Lemma blk_quiet : quiet blk_own blk_ram blk_queue 2 1.
Proof.
  split; [split|].
  - repeat constructor; simpl; lia.
  - split; [reflexivity|lia|simpl; lia|simpl; lia|done|]. intros off n H1 H2. by apply blk_avail_mapped.
  - right. left.
  - split; [simpl; lia|]. split; [simpl; lia|]. split; [simpl; lia|].
    repeat constructor; unfold apart; simpl; lia.
  - by vm_compute.
  - intros m i h Hs Hi Hh. apply blk_heads in Hh; [|exact Hi]. subst h.
    change (collect_descs_with m (desc blk_queue) 0 (qsize blk_queue) (indirect blk_queue))
      with (collect_descs_with m 0x8000 0 4 false). rewrite blk_chain_same by exact Hs.
    repeat constructor; unfold apart; simpl; lia.
Qed.

Lemma drain_returns_witness :
  exists w' q' n', drain id test_alloc 2 worker0 blk_queue 0 = Some (w', q', n') /\
    (can_accept w' = false \/ last q' = 1).
Proof.
  apply (drain_returns id test_alloc blk_own worker0 blk_queue 2 1 2 0 blk_quiet).
  - unfold is_word. simpl. lia.
  - by vm_compute.
Defined.

Definition zero_queue : QState := with_size blk_queue 0.

Lemma zero_size_queue_never_drains_witness :
  drain id test_alloc 100 worker0 zero_queue 0 = None.
Proof.
  apply (zero_size_queue_never_drains id test_alloc 100 0 worker0 zero_queue).
  - reflexivity.
  - by vm_compute.
  - by vm_compute.
  - right. unfold apart. vm_compute. right. congruence.
Defined.
