(* ===== verification/BlkEngine.v ===== *)
(** The two ways a worker reaches the disk, [virtio-devices/src/blk/engine.rs], and
    how it waits on them ([Worker::wait] and the loop of [Worker::run] of
    blk/worker.rs): the ring of [io_uring], with the queue's kick armed inside it,
    and the fallback that does each request where it is submitted.

    The ring is the kernel's and the io_uring crate's, the class [IoUring] with what
    they document ([IoUringLaws]); the calls of the fallback are the class
    [SyncHost].  Both engines keep the contract a worker needs, [EngineLaws], and
    against that contract alone the worker is shown to have with the kernel exactly
    the requests in its slab. *)

From S2P Require Import Prelude GuestMem Virtqueue BlkDisk BlkDiskFacts Msix MsixFacts BlkWorker.
From S2P Require Import BlkWorkerFacts BlkDrain.

(** * Engines *)

(** [Engine::run]: whether a kick arrived and what has finished, or an error.  [None]
    when [fuel] signals in a row were not enough to get through the wait. *)
Class EngineRun (E : Type) := { engine_run : nat -> E -> bool -> option (E * option (bool * list Done)) }.

(** [as i32]. *)
Definition to_i32 (x : Z) : Z := let u := u32 x in if u <? 2 ^ 31 then u else u - 2 ^ 32.

(** ** io_uring *)

Definition KICK_TOKEN : Z := 2 ^ 64 - 1.

(** A submission entry: the read of the kick, or a job on the registered file. *)
Inductive Sqe := KickRead | Io (tok : Z) (j : Job).

Definition user_data (s : Sqe) : Z := match s with KickRead => KICK_TOKEN | Io t _ => t end.

Record Cqe := { cqe_data : Z; cqe_result : Z }.

Inductive Entered := Submitted | Interrupted | Refused.

(** [enter] is [submit], or [submit_and_wait(1)]; [reap] syncs the completion queue
    and empties it; [kick_buf] is where the kernel puts the eventfd's counter. *)
Class IoUring (K : Type) := {
  sq_push : K -> Sqe -> K * bool;
  taskrun : K -> bool;
  enter : K -> bool -> K * Entered;
  reap : K -> K * list Cqe;
  kick_buf : K -> Z
}.

Record UringEngine (K : Type) := {
  ring : K;
  kick_armed : bool;
  depth : Z;
  u_in_flight : Z;
  unsubmitted : Z;
  u_notifies : Z
}.
Arguments ring {_}. Arguments kick_armed {_}. Arguments depth {_}.
Arguments u_in_flight {_}. Arguments unsubmitted {_}. Arguments u_notifies {_}.

(** [u32::next_power_of_two]. *)
Definition next_power_of_two (n : Z) : Z := if n <=? 1 then 1 else 2 ^ Z.log2_up n.

Section Uring.
Context {K : Type} {HK : IoUring K}.
Implicit Types e : UringEngine K.

(** [setup] builds a ring of a size: with the completion queue's size and the flags
    for one cooperative submitter, or plain. *)
Definition UringEngine_new (setup : Z -> option Z -> option K) (register_files : K -> option K) (d : Z) :
    option (UringEngine K) :=
  ring ← match setup (u32 d) (Some (next_power_of_two (u32 (u32 d * 2)))) with
         | Some r => Some r
         | None => setup (u32 d) None
         end;
  ring ← register_files ring;
  Some {| ring := ring; kick_armed := false; depth := d; u_in_flight := 0; unsubmitted := 0; u_notifies := 0 |}.

Definition with_ring e (k : K) : UringEngine K :=
  {| ring := k; kick_armed := kick_armed e; depth := depth e; u_in_flight := u_in_flight e;
     unsubmitted := unsubmitted e; u_notifies := u_notifies e |}.

Definition arm_kick e : UringEngine K :=
  if kick_armed e then e
  else
    let '(k, ok) := sq_push (ring e) KickRead in
    if ok : bool then
      {| ring := k; kick_armed := true; depth := depth e; u_in_flight := u_in_flight e;
         unsubmitted := unsubmitted e ⊕ 1; u_notifies := u_notifies e |}
    else with_ring e k.

Definition uring_push e (s : Sqe) : UringEngine K * bool :=
  let '(k, ok) := sq_push (ring e) s in
  if ok : bool then
    ({| ring := k; kick_armed := kick_armed e; depth := depth e; u_in_flight := u_in_flight e ⊕ 1;
        unsubmitted := unsubmitted e ⊕ 1; u_notifies := u_notifies e |}, true)
  else (with_ring e k, false).

#[export] Instance UringEngine_engine : Engine (UringEngine K) := {
  submit_job e t j := uring_push e (Io t j);
  room e := saturating_sub (saturating_sub (depth e) (u_in_flight e)) 1
}.

(** The wait, started again when a signal ends it. *)
Fixpoint submit_and_wait (fuel : nat) (k : K) : option (K * bool) :=
  match fuel with
  | O => None
  | S fuel =>
      match enter k true with
      | (k, Interrupted) => submit_and_wait fuel k
      | (k, r) => Some (k, match r with Submitted => true | _ => false end)
      end
  end.

Definition take_cqe e (kicked : bool) (out : list Done) (c : Cqe) : UringEngine K * bool * list Done :=
  if cqe_data c =? KICK_TOKEN then
    ({| ring := ring e; kick_armed := false; depth := depth e; u_in_flight := u_in_flight e; unsubmitted := unsubmitted e;
        u_notifies := if cqe_result c =? 8 then u_notifies e ⊕ kick_buf (ring e) else u_notifies e |}, true, out)
  else
    ({| ring := ring e; kick_armed := kick_armed e; depth := depth e; u_in_flight := u_in_flight e ⊖ 1;
        unsubmitted := unsubmitted e; u_notifies := u_notifies e |}, kicked,
     out ++ [{| token := cqe_data c; result := cqe_result c |}]).

Fixpoint take_cqes e (kicked : bool) (out : list Done) (cs : list Cqe) : UringEngine K * bool * list Done :=
  match cs with
  | [] => (e, kicked, out)
  | c :: cs => let '(e, kicked, out) := take_cqe e kicked out c in take_cqes e kicked out cs
  end.

Definition uring_run (fuel : nat) e (block : bool) : option (UringEngine K * option (bool * list Done)) :=
  let e := arm_kick e in
  '(k, ok) ← (if block then submit_and_wait fuel (ring e)
              else if (0 <? unsubmitted e) || taskrun (ring e) then
                let '(k, r) := enter (ring e) false in Some (k, match r with Submitted => true | _ => false end)
              else Some (ring e, true));
  if negb ok then Some (with_ring e k, None)
  else
    let '(k, cs) := reap k in
    let e := {| ring := k; kick_armed := kick_armed e; depth := depth e; u_in_flight := u_in_flight e;
                unsubmitted := 0; u_notifies := u_notifies e |} in
    let '(e, kicked, out) := take_cqes e false [] cs in
    Some (e, Some (kicked, out)).

#[export] Instance UringEngine_run : EngineRun (UringEngine K) := { engine_run := uring_run }.

End Uring.

(** ** The fallback *)

Inductive KickAnswer := KickCount (n : Z) | KickInterrupted | KickError.

(** A job done where it stands: what the system call returned, or a negative errno. *)
Class SyncHost (H : Type) := {
  do_job : H -> Job -> H * Z;
  kick_read : H -> H * KickAnswer
}.

Record SyncEngine (H : Type) := { host : H; done_ : list Done; s_notifies : Z }.
Arguments host {_}. Arguments done_ {_}. Arguments s_notifies {_}.

Definition SyncEngine_new {H} (h : H) : SyncEngine H := {| host := h; done_ := []; s_notifies := 0 |}.

Section Sync.
Context {H : Type} {HH : SyncHost H}.
Implicit Types e : SyncEngine H.

#[export] Instance SyncEngine_engine : Engine (SyncEngine H) := {
  submit_job e t j :=
    let '(h, rc) := do_job (host e) j in
    ({| host := h; done_ := done_ e ++ [{| token := t; result := to_i32 rc |}]; s_notifies := s_notifies e |}, true);
  room e := 2 ^ 64 - 1
}.

Fixpoint wait_kick (fuel : nat) e : option (SyncEngine H * option (bool * list Done)) :=
  match fuel with
  | O => None
  | S fuel =>
      let '(h, r) := kick_read (host e) in
      let e := {| host := h; done_ := done_ e; s_notifies := s_notifies e |} in
      match r with
      | KickCount n => Some ({| host := h; done_ := done_ e; s_notifies := s_notifies e ⊕ n |}, Some (true, []))
      | KickInterrupted => wait_kick fuel e
      | KickError => Some (e, None)
      end
  end.

Definition sync_run (fuel : nat) e (block : bool) : option (SyncEngine H * option (bool * list Done)) :=
  match done_ e with
  | (_ :: _) as out => Some ({| host := host e; done_ := []; s_notifies := s_notifies e |}, Some (false, out))
  | [] => if block then wait_kick fuel e else Some (e, Some (false, []))
  end.

#[export] Instance SyncEngine_run : EngineRun (SyncEngine H) := { engine_run := sync_run }.

End Sync.

(** ** The one a host gives *)

Inductive AnyEngine (K H : Type) := OnUring (e : UringEngine K) | OnSync (e : SyncEngine H).
Arguments OnUring {_ _}. Arguments OnSync {_ _}.

Section Build.
Context {K : Type} {HK : IoUring K} {H : Type} {HH : SyncHost H}.

(** [engine::build]. *)
Definition build_engine (setup : Z -> option Z -> option K) (register_files : K -> option K) (h : H) (d : Z) : AnyEngine K H :=
  match UringEngine_new setup register_files d with
  | Some e => OnUring e
  | None => OnSync (SyncEngine_new h)
  end.

#[export] Instance AnyEngine_engine : Engine (AnyEngine K H) := {
  submit_job e t j :=
    match e with
    | OnUring e => let '(e, ok) := submit_job e t j in (OnUring e, ok)
    | OnSync e => let '(e, ok) := submit_job e t j in (OnSync e, ok)
    end;
  room e := match e with OnUring e => room e | OnSync e => room e end
}.

#[export] Instance AnyEngine_run : EngineRun (AnyEngine K H) := {
  engine_run fuel e block :=
    match e with
    | OnUring e => '(e, r) ← engine_run fuel e block; Some (OnUring e, r)
    | OnSync e => '(e, r) ← engine_run fuel e block; Some (OnSync e, r)
    end
}.

End Build.

(** * The worker's wait *)

Section Wait.
Context {M : Type} {HM : GuestMemory M}.
Context {E : Type} {HE : Engine E} {HR : EngineRun E}.

Definition ring_has_work (m : M) (q : QState) : bool := enabled q && negb (desc q =? 0) && has_avail m q.

(** [Worker::wait].  [sights] is what each look before the deadline sees of memory
    and of the queue, at least one when the worker polls. *)
Fixpoint wait (fuel : nat) (e : E) (sights : list (M * QState)) : option (E * option (bool * list Done)) :=
  match sights with
  | [] => engine_run fuel e true
  | (m, q) :: sights =>
      '(e, r) ← engine_run fuel e false;
      match r with
      | None => Some (e, None)
      | Some (true, ds) => Some (e, Some (true, ds))
      | Some (false, (_ :: _) as ds) => Some (e, Some (false, ds))
      | Some (false, []) => if ring_has_work m q then Some (e, Some (true, [])) else wait fuel e sights
      end
  end.

End Wait.

(** * The contract *)

Definition below (c : option nat) (n : nat) : Prop := match c with Some c => (n < c)%nat | None => True end.

(** [outstanding]: the tokens of the jobs the engine has; [capacity]: how many it can
    have; [event]: what may happen to it while nobody calls it. *)
Class EngineLaws (E : Type) {HE : Engine E} {HR : EngineRun E} := {
  engine_ok : E -> Prop;
  outstanding : E -> list Z;
  capacity : E -> option nat;
  event : E -> E -> Prop;
  submit_law : forall e t j, engine_ok e -> is_word 32 t -> below (capacity e) (length (outstanding e)) ->
    exists e', submit_job e t j = (e', true) /\ engine_ok e' /\ capacity e' = capacity e /\
      outstanding e' ≡ₚ t :: outstanding e;
  room_law : forall e, engine_ok e -> 0 < room e -> below (capacity e) (length (outstanding e));
  run_law : forall fuel e b e' r, engine_ok e -> engine_run fuel e b = Some (e', r) ->
    engine_ok e' /\ capacity e' = capacity e /\
    outstanding e ≡ₚ match r with Some (_, ds) => token <$> ds | None => [] end ++ outstanding e';
  event_law : forall e e', event e e' -> engine_ok e ->
    engine_ok e' /\ capacity e' = capacity e /\ outstanding e' ≡ₚ outstanding e
}.

(** ** io_uring keeps it *)

(** The documented behaviour of the ring: [pending] is what was pushed and not yet
    reaped, and a push is accepted while there are fewer of those than entries in the
    submission queue; the kernel completes each entry once. *)
Class IoUringLaws (K : Type) {HK : IoUring K} := {
  pending : K -> list Z;
  entries : K -> nat;
  push_accepted : forall k s, (length (pending k) < entries k)%nat -> (sq_push k s).2 = true;
  push_pending : forall k s, let '(k', ok) := sq_push k s in
    pending k' ≡ₚ (if ok : bool then [user_data s] else []) ++ pending k /\ entries k' = entries k;
  enter_pending : forall k b, pending (enter k b).1 ≡ₚ pending k /\ entries (enter k b).1 = entries k;
  reap_pending : forall k, let '(k', cs) := reap k in
    pending k ≡ₚ (cqe_data <$> cs) ++ pending k' /\ entries k' = entries k
}.

Section UringLaws.
Context {K : Type} {HK : IoUring K} {HL : IoUringLaws K}.
Implicit Types e : UringEngine K.

Definition kick_tokens (armed : bool) : list Z := if armed then [KICK_TOKEN] else [].

(** The jobs in the ring: everything but the read of the kick. *)
Definition jobs (k : K) : list Z := filter (fun t => t <> KICK_TOKEN) (pending k).

(** The counter is the number of jobs, one entry is kept for the kick, and the kick's
    read is in the ring exactly when it is noted as armed. *)
Record uring_ok e : Prop := {
  uo_depth : 1 <= depth e <= 2 ^ 32;
  uo_entries : depth e <= Z.of_nat (entries (ring e));
  uo_count : u_in_flight e = Z.of_nat (length (jobs (ring e)));
  uo_reserve : u_in_flight e < depth e;
  uo_pending : pending (ring e) ≡ₚ kick_tokens (kick_armed e) ++ jobs (ring e)
}.

Lemma jobs_perm k k' : pending k' ≡ₚ pending k -> jobs k' ≡ₚ jobs k.
Proof. intros Hp. unfold jobs. by rewrite Hp. Qed.

Lemma jobs_no_kick k : KICK_TOKEN ∉ jobs k.
Proof. unfold jobs. rewrite list_elem_of_filter. tauto. Qed.

Lemma filter_kick (l : list Z) : KICK_TOKEN ∉ l -> filter (fun t => t <> KICK_TOKEN) l = l.
Proof.
  induction l as [|t l IH]; [done|]. intros Hn. rewrite not_elem_of_cons in Hn. destruct Hn as [H1 H2].
  rewrite filter_cons_True by congruence. f_equal. by apply IH.
Qed.

(** What was pushed beside the kick's read are the jobs. *)
Lemma jobs_of k b outs : KICK_TOKEN ∉ outs -> kick_tokens b ++ outs ≡ₚ pending k -> jobs k ≡ₚ outs.
Proof.
  intros Hn Hp. unfold jobs. rewrite <- Hp, filter_app, (filter_kick outs) by done. by destruct b.
Qed.

Lemma pending_below e : uring_ok e -> kick_armed e = false -> (length (pending (ring e)) < entries (ring e))%nat.
Proof.
  intros [D1 D2 D3 D4 D5] Ha. rewrite D5, Ha. simpl. lia.
Qed.

(** The kick's read goes into the ring whenever it is not there. *)
Lemma arm_kick_spec e : uring_ok e ->
  let e' := arm_kick e in
  uring_ok e' /\ kick_armed e' = true /\ depth e' = depth e /\ jobs (ring e') ≡ₚ jobs (ring e).
Proof.
  intros Ho. unfold arm_kick. destruct (kick_armed e) eqn:Ha; [done|].
  pose proof (push_accepted (ring e) KickRead (pending_below e Ho Ha)) as Hok.
  pose proof (push_pending (ring e) KickRead) as Hp. destruct (sq_push (ring e) KickRead) as [k ok].
  simpl in Hok. subst ok. destruct Hp as [Hp He]. destruct Ho as [D1 D2 D3 D4 D5].
  assert (jobs k ≡ₚ jobs (ring e)) as Hj.
  { apply (jobs_of k true); [apply jobs_no_kick|]. rewrite Hp, D5, Ha. done. }
  split; [|done]. split; simpl.
  - done.
  - lia.
  - by rewrite Hj.
  - done.
  - by rewrite Hj, Hp, D5, Ha.
Qed.

Lemma uring_submit e t j : uring_ok e -> is_word 32 t -> Z.of_nat (length (jobs (ring e))) < depth e - 1 ->
  exists e', uring_push e (Io t j) = (e', true) /\ uring_ok e' /\ depth e' = depth e /\
    jobs (ring e') ≡ₚ t :: jobs (ring e).
Proof.
  intros [D1 D2 D3 D4 D5] Ht Hl. unfold uring_push, is_word in *.
  assert ((length (pending (ring e)) < entries (ring e))%nat) as Hb.
  { rewrite D5. destruct (kick_armed e); simpl; lia. }
  pose proof (push_accepted (ring e) (Io t j) Hb) as Hok.
  pose proof (push_pending (ring e) (Io t j)) as Hp. destruct (sq_push (ring e) (Io t j)) as [k ok].
  simpl in Hok. subst ok. destruct Hp as [Hp He]. simpl in Hp.
  assert (t <> KICK_TOKEN) as Hk by (unfold KICK_TOKEN; lia).
  assert (jobs k ≡ₚ t :: jobs (ring e)) as Hj by (unfold jobs; by rewrite Hp, filter_cons_True).
  eexists. split; [done|]. split; [|done]. split; simpl.
  - done.
  - lia.
  - rewrite Hj. simpl. rewrite wrap_small by (unfold is_word; lia). lia.
  - rewrite wrap_small by (unfold is_word; lia). lia.
  - rewrite Hj, Hp, D5. apply Permutation_middle.
Qed.

(** ** What comes out of the completion queue *)

Lemma kicked_stays cs : forall e out, (take_cqes e true out cs).1.2 = true.
Proof.
  induction cs as [|c cs IH]; intros e out; simpl; [done|]. unfold take_cqe. destruct (cqe_data c =? KICK_TOKEN); apply IH.
Qed.

Lemma take_cqes_spec cs : forall e kicked out outs P,
  kick_tokens (kick_armed e) ++ outs ≡ₚ (cqe_data <$> cs) ++ P -> KICK_TOKEN ∉ outs ->
  u_in_flight e = Z.of_nat (length outs) -> Z.of_nat (length outs) < 2 ^ 64 ->
  let '(e', kicked', out') := take_cqes e kicked out cs in
  exists outs' ds, out' = out ++ ds /\ outs ≡ₚ (token <$> ds) ++ outs' /\ kick_tokens (kick_armed e') ++ outs' ≡ₚ P /\
    (KICK_TOKEN ∉ outs') /\ u_in_flight e' = Z.of_nat (length outs') /\ ring e' = ring e /\ depth e' = depth e /\
    (kick_armed e' = false -> kick_armed e = true -> kicked' = true).
Proof.
  induction cs as [|c cs IH]; intros e kicked out outs P Hp Hn Hc Hb; simpl.
  { exists outs, []. rewrite app_nil_r. split_and!; try done. intros; congruence. }
  rewrite fmap_cons in Hp. unfold take_cqe. destruct (cqe_data c =? KICK_TOKEN) eqn:Ek; bool_prop.
  - rewrite Ek in Hp. assert (kick_armed e = true) as Ha.
    { destruct (kick_armed e); [done|]. exfalso. apply Hn. simpl in Hp. rewrite Hp. by left. }
    rewrite Ha in Hp. simpl in Hp. apply Permutation_cons_inv in Hp.
    set (e1 := {| ring := ring e |}). specialize (IH e1 true out outs P Hp Hn Hc Hb).
    destruct (take_cqes e1 true out cs) as [[e' k'] out'] eqn:Et.
    destruct IH as (outs' & ds & E1 & E2 & E3 & E4 & E5 & E6 & E7 & E8).
    exists outs', ds. split_and!; try done. intros _ _.
    pose proof (kicked_stays cs e1 out) as Hk. by rewrite Et in Hk.
  - assert (cqe_data c ∈ outs) as Hin.
    { assert (cqe_data c ∈ kick_tokens (kick_armed e) ++ outs) as Hin by (rewrite Hp; by left).
      apply elem_of_app in Hin as [Hin|Hin]; [|done]. destruct (kick_armed e); [|by apply elem_of_nil in Hin].
      by apply list_elem_of_singleton in Hin. }
    apply elem_of_Permutation in Hin as [outs1 Ho]. rewrite Ho in Hp, Hc, Hb, Hn. simpl in Hc, Hb.
    rewrite <- Permutation_middle in Hp. apply Permutation_cons_inv in Hp.
    rewrite not_elem_of_cons in Hn. destruct Hn as [_ Hn].
    match goal with |- context [take_cqes ?x kicked ?o cs] => set (e1 := x); set (o1 := o) end.
    assert (u_in_flight e1 = Z.of_nat (length outs1)) as Hc1.
    { simpl. rewrite wrap_small by (unfold is_word; lia). lia. }
    specialize (IH e1 kicked o1 outs1 P Hp Hn Hc1 ltac:(lia)).
    destruct (take_cqes e1 kicked o1 cs) as [[e' k'] out'].
    destruct IH as (outs' & ds & E1 & E2 & E3 & E4 & E5 & E6 & E7 & E8).
    exists outs', ({| token := cqe_data c; result := cqe_result c |} :: ds). split_and!; try done.
    + subst out'. unfold o1. by rewrite <- app_assoc.
    + rewrite Ho, E2. done.
Qed.

Lemma submit_and_wait_pending fuel : forall k k' ok, submit_and_wait fuel k = Some (k', ok) ->
  pending k' ≡ₚ pending k /\ entries k' = entries k.
Proof.
  induction fuel as [|fuel IH]; intros k k' ok Hs; simpl in Hs; [done|].
  pose proof (enter_pending k true) as [H1 H2]. destruct (enter k true) as [k1 r]. simpl in *.
  destruct r; try (injection Hs as <- <-; by split). apply IH in Hs as [H3 H4]. split; [by rewrite H3|congruence].
Qed.

(** A run gives back jobs it had, once each, and afterwards either the kick arrived or
    its read is still in the ring. *)
Lemma uring_run_spec fuel e b e' r : uring_ok e -> uring_run fuel e b = Some (e', r) ->
  uring_ok e' /\ depth e' = depth e /\
  jobs (ring e) ≡ₚ match r with Some (_, ds) => token <$> ds | None => [] end ++ jobs (ring e') /\
  match r with Some (false, _) => kick_armed e' = true | _ => True end.
Proof.
  intros Ho Hr. apply arm_kick_spec in Ho as (Ho & Ha & Hd & Hj). unfold uring_run in Hr. cbv zeta in Hr.
  set (e1 := arm_kick e) in *. apply bind_Some in Hr as ([k ok] & Hk & Hr).
  assert (pending k ≡ₚ pending (ring e1) /\ entries k = entries (ring e1)) as [Hp He].
  { destruct b; [by eapply submit_and_wait_pending|]. destruct (_ || _); [|by injection Hk as <- <-].
    pose proof (enter_pending (ring e1) false) as H. destruct (enter (ring e1) false). by injection Hk as <- <-. }
  destruct Ho as [D1 D2 D3 D4 D5]. pose proof (jobs_perm _ _ Hp) as Hj1. destruct ok; simpl in Hr.
  - pose proof (reap_pending k) as Hre. destruct (reap k) as [k1 cs]. destruct Hre as [Hre He1].
    match type of Hr with context [take_cqes ?x false [] cs] => set (e2 := x) in * end.
    pose proof (take_cqes_spec cs e2 false [] (jobs k) (pending k1)) as H.
    destruct (take_cqes e2 false [] cs) as [[e3 kicked] out]. injection Hr as <- <-.
    destruct H as (outs & ds & E1 & E2 & E3 & E4 & E5 & E6 & E7 & E8).
    + simpl. by rewrite Hj1, <- D5, <- Hp.
    + apply jobs_no_kick.
    + simpl. by rewrite Hj1.
    + rewrite Hj1. lia.
    + simpl in E1, E6, E7. subst out. pose proof (jobs_of k1 _ _ E4 E3) as Hj3.
      assert (length (jobs k) = length ds + length outs)%nat as Hl by (by rewrite E2, length_app, length_fmap).
      split_and!.
      * split; rewrite ?E6, ?E7, ?E5; simpl in *.
        -- done.
        -- lia.
        -- by rewrite Hj3.
        -- rewrite Hj1 in Hl. lia.
        -- by rewrite Hj3, E3.
      * congruence.
      * by rewrite <- Hj, <- Hj1, E2, E6, <- Hj3.
      * destruct kicked; [done|]. simpl in E8. rewrite Ha in E8. destruct (kick_armed e3); [done|].
        exfalso. by specialize (E8 eq_refl eq_refl).
  - injection Hr as <- <-. split_and!; [|done| |done].
    + split; simpl; try done; [lia|by rewrite Hj1|by rewrite Hj1, Hp].
    + simpl. by rewrite Hj1, Hj.
Qed.

#[export, refine] Instance UringEngine_laws : EngineLaws (UringEngine K) := {
  engine_ok := uring_ok;
  outstanding e := jobs (ring e);
  capacity e := Some (Z.to_nat (depth e - 1));
  event e e' := exists k, e' = with_ring e k /\ pending k ≡ₚ pending (ring e) /\ entries k = entries (ring e)
}.
Proof.
  - intros e t j Ho Ht Hb. simpl in Hb. destruct (uring_submit e t j Ho Ht ltac:(lia)) as (e' & Hs & Ho' & Hd & Hj).
    exists e'. split_and!; try done. by rewrite Hd.
  - intros e [D1 D2 D3 D4 D5] Hr. simpl in Hr |- *. unfold saturating_sub in Hr. lia.
  - intros fuel e b e' r Ho Hr. destruct (uring_run_spec fuel e b e' r Ho Hr) as (H1 & H2 & H3 & _).
    split_and!; try done. by rewrite H2.
  - intros e e' (k & -> & Hp & He) [D1 D2 D3 D4 D5]. pose proof (jobs_perm _ _ Hp) as Hj.
    split_and!; [|done|done]. split; simpl; try done; [lia|by rewrite Hj|by rewrite Hj, Hp].
Defined.

(** A new engine has nothing in its ring but room. *)
Lemma UringEngine_new_ok setup register d e : 1 <= d < 2 ^ 32 ->
  (forall c k, setup d c = Some k -> pending k = [] /\ d <= Z.of_nat (entries k)) ->
  (forall k k', register k = Some k' -> pending k' = pending k /\ entries k' = entries k) ->
  UringEngine_new setup register d = Some e -> uring_ok e /\ jobs (ring e) = [] /\ depth e = d.
Proof.
  intros Hd Hs Hr. unfold UringEngine_new. rewrite wrap_small by (unfold is_word; lia). intros Hn.
  apply bind_Some in Hn as (k & Hk & Hn). apply bind_Some in Hn as (k' & Hk' & Hn). injection Hn as <-.
  assert (pending k = [] /\ d <= Z.of_nat (entries k)) as [Hp He].
  { destruct (setup d (Some _)) eqn:E1; [injection Hk as <-; by eapply Hs|by eapply Hs]. }
  apply Hr in Hk' as [Hp' He']. simpl. assert (jobs k' = []) as Hj by (unfold jobs; by rewrite Hp', Hp).
  split_and!; try done. split; simpl; rewrite ?Hj, ?Hp', ?Hp; simpl; try done; lia.
Qed.

End UringLaws.

(** ** The fallback keeps it *)

Section SyncLaws.
Context {H : Type} {HH : SyncHost H}.
Implicit Types e : SyncEngine H.

Lemma wait_kick_spec fuel : forall e e' r, wait_kick fuel e = Some (e', r) ->
  done_ e' = done_ e /\ match r with Some (_, ds) => ds = [] | None => True end.
Proof.
  induction fuel as [|fuel IH]; intros e e' r Hw; simpl in Hw; [done|]. destruct (kick_read (host e)) as [h a].
  destruct a; [by injection Hw as <- <-|by apply IH in Hw|by injection Hw as <- <-].
Qed.

#[export, refine] Instance SyncEngine_laws : EngineLaws (SyncEngine H) := {
  engine_ok _ := True;
  outstanding e := token <$> done_ e;
  capacity _ := None;
  event e e' := done_ e' = done_ e
}.
Proof.
  - intros e t j _ _ _. simpl. destruct (do_job (host e) j) as [h rc]. eexists. split_and!; try done.
    simpl. rewrite fmap_app. simpl. symmetry. apply Permutation_cons_append.
  - done.
  - intros fuel e b e' r _ Hr. split_and!; try done. simpl in Hr. unfold sync_run in Hr. destruct (done_ e) as [|d l] eqn:Ed.
    + destruct b; [|injection Hr as <- <-; by rewrite Ed]. apply wait_kick_spec in Hr as [E1 E2]. rewrite Ed in E1. rewrite E1.
      destruct r as [[k ds]|]; [by subst|done].
    + injection Hr as <- <-. cbn [done_ fmap list_fmap]. rewrite app_nil_r. done.
  - intros e e' He _. split_and!; try done. by rewrite He.
Defined.

End SyncLaws.

#[export, refine] Instance AnyEngine_laws {K : Type} {HK : IoUring K} {HL : IoUringLaws K} {H : Type} {HH : SyncHost H} :
    EngineLaws (AnyEngine K H) := {
  engine_ok e := match e with OnUring e => engine_ok e | OnSync e => engine_ok e end;
  outstanding e := match e with OnUring e => outstanding e | OnSync e => outstanding e end;
  capacity e := match e with OnUring e => capacity e | OnSync e => capacity e end;
  event e e' := match e, e' with OnUring e, OnUring e' => event e e' | OnSync e, OnSync e' => event e e' | _, _ => False end
}.
Proof.
  - intros [e|e] t j Ho Ht Hb; destruct (submit_law e t j Ho Ht Hb) as (e' & Hs & Hr); cbn [submit_job AnyEngine_engine]; rewrite Hs;
      eexists; (split; [reflexivity|exact Hr]).
  - intros [e|e]; exact (room_law e).
  - intros fuel [e|e] b e' r Ho Hr; simpl in Hr; apply bind_Some in Hr as ([e1 r1] & Hr & [= <- <-]); by eapply run_law.
  - intros [e|e] [e'|e'] He Ho; try done; by eapply event_law.
Defined.

(** * A reset's wait *)

Definition RESET_DEADLINE : Z := 2000000.
Definition RESET_LOOK : Z := 50.

(** [BlkDevice::wait_for_in_flight]: each look reads the queues' counts and, when one
    is not zero, the clock, in microseconds since it began; true when nothing is out
    there, false when it gave up.  [None] when there were not enough looks. *)
Fixpoint wait_for_in_flight (looks : list (list Z * Z)) : option bool :=
  match looks with
  | [] => None
  | (counts, now) :: looks =>
      if existsb (fun c => 0 <? c) counts then
        if RESET_DEADLINE <=? now then Some false else wait_for_in_flight looks
      else Some true
  end.

Lemma waited_out looks : wait_for_in_flight looks = Some true ->
  exists i counts now, looks !! i = Some (counts, now) /\ Forall (fun c => c <= 0) counts.
Proof.
  induction looks as [|[counts now] looks IH]; [done|]. simpl. destruct (existsb _ counts) eqn:E.
  - destruct (_ <=? _); [done|]. intros (i & c & t & Hi & Hc)%IH. by exists (S i), c, t.
  - intros _. exists 0%nat, counts, now. split; [done|]. apply Forall_forall. intros c Hc.
    destruct (Z.leb_spec c 0); [done|]. assert (existsb (fun c => 0 <? c) counts = true) as Hx; [|congruence].
    apply existsb_exists. exists c. split; [by apply list_elem_of_In|lia].
Qed.

(** A disk that never answers freezes nothing: looks come at least [RESET_LOOK] apart,
    so the wait is over after forty thousand of them at the latest. *)
Lemma reset_wait_ends_from looks t0 k :
  0 <= t0 -> 0 <= k <= 40000 -> 40000 < k + Z.of_nat (length looks) ->
  (forall i c t, looks !! i = Some (c, t) -> t0 + RESET_LOOK * (k + Z.of_nat i) <= t) ->
  is_Some (wait_for_in_flight looks).
Proof.
  unfold RESET_LOOK. revert k. induction looks as [|[c t] looks IH]; intros k H0 Hk Hl Ht; simpl in *; [lia|].
  destruct (existsb _ c); [|done]. unfold RESET_DEADLINE. case_tests; [done|]. specialize (Ht 0%nat c t eq_refl) as Hnow.
  apply (IH (k + 1)); [done|lia..|]. intros i c' t' Hi. specialize (Ht (S i) c' t' Hi). lia.
Qed.

(** A disk that never answers freezes nothing: looks come at least [RESET_LOOK] apart,
    so the wait is over after forty thousand of them at the latest. *)
Lemma reset_wait_ends looks t0 :
  0 <= t0 -> (forall i c t, looks !! i = Some (c, t) -> t0 + RESET_LOOK * Z.of_nat i <= t) ->
  40000 < Z.of_nat (length looks) -> is_Some (wait_for_in_flight looks).
Proof. intros H0 Ht Hl. by apply (reset_wait_ends_from looks t0 0); [|lia..|]. Qed.

(** * The worker on an engine *)

(** The tokens of the occupied slots. *)
Fixpoint busy_from (i : nat) (l : list (option Slot)) : list Z :=
  match l with
  | [] => []
  | Some _ :: l => Z.of_nat i :: busy_from (S i) l
  | None :: l => busy_from (S i) l
  end.

Definition busy (l : list (option Slot)) : list Z := busy_from 0 l.

Lemma busy_park_from k l i s : l !! i = Some None -> busy_from k (<[i := Some s]> l) ≡ₚ Z.of_nat (k + i) :: busy_from k l.
Proof.
  revert k i. induction l as [|o l IH]; intros k [|i] H; simplify_eq/=; [by rewrite Nat.add_0_r|].
  rewrite Nat.add_succ_r, <- Nat.add_succ_l. destruct o; rewrite (IH _ _ H); [apply perm_swap|done].
Qed.

Lemma busy_take_from k l i s : l !! i = Some (Some s) -> busy_from k l ≡ₚ Z.of_nat (k + i) :: busy_from k (<[i := None]> l).
Proof.
  revert k i. induction l as [|o l IH]; intros k [|i] H; simplify_eq/=; [by rewrite Nat.add_0_r|].
  rewrite Nat.add_succ_r, <- Nat.add_succ_l. destruct o; rewrite (IH _ _ H); [apply perm_swap|done].
Qed.

Lemma busy_park l t s : 0 <= t -> l !! Z.to_nat t = Some None -> busy (<[Z.to_nat t := Some s]> l) ≡ₚ t :: busy l.
Proof. intros Ht H. unfold busy. rewrite busy_park_from by done. simpl. by rewrite Z2Nat.id. Qed.

Lemma busy_take l t s : 0 <= t -> l !! Z.to_nat t = Some (Some s) -> busy l ≡ₚ t :: busy (<[Z.to_nat t := None]> l).
Proof. intros Ht H. unfold busy at 1. rewrite (busy_take_from _ _ _ _ H). simpl. by rewrite Z2Nat.id. Qed.

Lemma elem_of_busy_from k l t : t ∈ busy_from k l -> exists i s, t = Z.of_nat (k + i) /\ l !! i = Some (Some s).
Proof.
  revert k. induction l as [|o l IH]; intros k H; simpl in H; [by apply elem_of_nil in H|].
  assert (t ∈ busy_from (S k) l -> exists i s, t = Z.of_nat (k + i) /\ (o :: l) !! i = Some (Some s)) as Hr.
  { intros Hi. destruct (IH _ Hi) as (i & s & -> & Hl). exists (S i), s. split; [f_equal; lia|done]. }
  destruct o as [s|]; [|by apply Hr]. apply elem_of_cons in H as [->|H]; [|by apply Hr].
  exists 0%nat, s. split; [f_equal; lia|done].
Qed.

Lemma elem_of_busy l t : t ∈ busy l -> exists s, 0 <= t < Z.of_nat (length l) /\ l !! Z.to_nat t = Some (Some s).
Proof.
  intros H. apply elem_of_busy_from in H as (i & s & -> & Hl). exists s. pose proof (lookup_lt_Some _ _ _ Hl).
  simpl. rewrite Nat2Z.id. split; [lia|done].
Qed.

Lemma busy_none n : busy (replicate n None) = [].
Proof. unfold busy. generalize 0%nat. induction n; intros k; simpl; auto. Qed.

Section Contract.
Context {M : Type} {HM : GuestMemory M}.
Context {E : Type} {HE : Engine E} {HR : EngineRun E} {HL : EngineLaws E}.
Context {R : Type} {HRt : MsiRouter R}.
Variable host_addr : Z -> Z.
Variable alloc : Z -> Z -> option (list Z).
Implicit Types (w : Worker M E) (q : QState).

(** The engine has the occupied slots' jobs, less those in [back], which it has given
    back; and room for those and [spare] more. *)
Record tracks w (back : list Z) (spare : nat) : Prop := {
  tr_ok : engine_ok (engine w);
  tr_room : match capacity (engine w) with
            | Some c => (length (outstanding (engine w)) + length back + spare <= c)%nat
            | None => True
            end;
  tr_jobs : outstanding (engine w) ++ back ≡ₚ busy (slots w);
  tr_width : Z.of_nat (length (slots w)) <= 2 ^ 32
}.

Definition same_slab w w' : Prop := engine w' = engine w /\ slots w' = slots w.

Lemma tracks_same w w' back spare : same_slab w w' -> tracks w back spare -> tracks w' back spare.
Proof. intros [E1 E2] [H1 H2 H3 H4]. split; by rewrite ?E1, ?E2. Qed.

Lemma tracks_less w back spare spare' : (spare' <= spare)%nat -> tracks w back spare -> tracks w back spare'.
Proof. intros Hs [H1 H2 H3 H4]. split; try done. destruct (capacity (engine w)); [lia|done]. Qed.

Lemma tracks_below w back spare : tracks w back (S spare) -> below (capacity (engine w)) (length (outstanding (engine w))).
Proof. intros [_ H _ _]. unfold below. destruct (capacity (engine w)); [lia|done]. Qed.

(** What came back names an occupied slot. *)
Lemma tracks_back w t back spare : tracks w (t :: back) spare ->
  is_word 32 t /\ u32 t = t /\ exists s, slot_at w t = Some s.
Proof.
  intros [_ _ H3 H4]. assert (t ∈ busy (slots w)) as Hin by (rewrite <- H3; apply elem_of_app; right; by left).
  apply elem_of_busy in Hin as (s & Ht & Hs). assert (is_word 32 t) as Hw by (unfold is_word; lia).
  split_and!; [done|by apply wrap_small|]. exists s. unfold slot_at. by rewrite Hs.
Qed.

Lemma slot_at_lookup w t s : slot_at w t = Some s -> slots w !! Z.to_nat t = Some (Some s).
Proof. unfold slot_at. intros H. apply bind_Some in H as (o & Ho & Hs). simpl in Hs. by subst o. Qed.

Lemma tracks_take w t s back : slot_at w t = Some s -> tracks w (t :: back) 0 ->
  tracks (take_slot w t) back 1 /\ slots (take_slot w t) !! Z.to_nat t = Some None.
Proof.
  intros Hs H. destruct (tracks_back _ _ _ _ H) as ([Ht _] & _ & _). destruct H as [H1 H2 H3 H4].
  apply slot_at_lookup in Hs. pose proof (lookup_lt_Some _ _ _ Hs) as Hlt. split; [split; simpl|].
  - done.
  - simpl in H2. destruct (capacity (engine w)); [lia|done].
  - rewrite (busy_take _ _ _ Ht Hs), <- Permutation_middle in H3. by apply Permutation_cons_inv in H3.
  - by rewrite length_insert.
  - simpl. by apply list_lookup_insert_eq.
Qed.

(** A job is submitted for a slot about to be parked: the engine takes it. *)
Lemma submit_tracks w t s back : is_word 32 t -> slots w !! Z.to_nat t = Some None -> tracks w back 1 ->
  let '(w', ok) := submit w t s in
  slots w' = slots w /\ if ok : bool then tracks (park w' t s) back 0 else tracks w' back 0.
Proof.
  intros Ht Hn H. unfold submit. destruct (job_of s) as [j|]; [|split; [done|by eapply tracks_less; [|exact H]; lia]].
  pose proof (tracks_below _ _ _ H) as Hb. destruct H as [H1 H2 H3 H4].
  destruct (submit_law (engine w) t j H1 Ht Hb) as (e' & -> & Ho & Hc & Hj). split; [done|].
  destruct Ht as [Ht _]. split; simpl.
  - done.
  - rewrite Hc. destruct (capacity (engine w)); [rewrite Hj; simpl; lia|done].
  - rewrite (busy_park _ _ s Ht Hn), Hj, <- H3. done.
  - by rewrite length_insert.
Qed.

Lemma resubmit_tracks w q t s back : is_word 32 t -> slots w !! Z.to_nat t = Some None -> tracks w back 1 ->
  tracks (resubmit w q t s).1 back 0.
Proof.
  intros Ht Hn H. unfold resubmit. pose proof (submit_tracks w t s back Ht Hn H) as Hs.
  destruct (submit w t s) as [w1 ok]. destruct Hs as [_ Hs]. destruct ok; [exact Hs|].
  eapply tracks_same; [|exact Hs]. simpl. unfold reply, push. by case_match.
Qed.

Lemma reply_same_slab w q h sa st len : same_slab w (reply w q h sa st len).
Proof. unfold reply, push. by case_match. Qed.

Lemma push_same_slab w q h len : same_slab w (push w q h len).
Proof. unfold push. by case_match. Qed.

Lemma finish_tracks w q t s st back : tracks w back 1 -> tracks (finish w q t s st).1 back 0.
Proof.
  intros H. eapply tracks_less; [|eapply tracks_same; [|exact H]]; [lia|]. unfold finish. simpl.
  split; simpl; apply reply_same_slab.
Qed.

Lemma stage_same w s : same_slab w (stage alloc w s).1.
Proof.
  unfold stage. destruct (bounce_shape _ _ _) as [[align hp] io]. case_match; [done|].
  destruct (alloc _ _); [|done]. simpl. by repeat case_match.
Qed.

Lemma prepare_same w r : same_slab w (prepare host_addr alloc w r).1.
Proof. unfold prepare. repeat (case_match; [done|]). apply stage_same. Qed.

Lemma complete_moved_tracks w q t s moved back : is_word 32 t -> slots w !! Z.to_nat t = Some None -> tracks w back 1 ->
  tracks (complete_moved w q t s moved).1 back 0.
Proof.
  intros Ht Hn H. unfold complete_moved.
  assert (forall m, tracks (set_mem w m) back 1) as Hm by (intros m; by eapply tracks_same; [|exact H]).
  case_match; [case_match|case_match].
  - case_match; [|by apply finish_tracks]. destruct (s_bounce s) as [b|]; [|by apply finish_tracks].
    destruct (copy_out _ _). by apply finish_tracks.
  - by apply resubmit_tracks.
  - destruct (copy_out _ _). by apply finish_tracks.
  - by apply finish_tracks.
Qed.

Lemma complete_error_tracks w q t s err back : is_word 32 t -> slots w !! Z.to_nat t = Some None -> tracks w back 1 ->
  tracks (complete_error alloc w q t s err).1 back 0.
Proof.
  intros Ht Hn H. unfold complete_error. case_match; [by apply resubmit_tracks|]. case_match.
  - pose proof (stage_same w s) as Hs. destruct (stage alloc w s) as [w1 [st|s']]; simpl in Hs.
    + apply finish_tracks. by eapply tracks_same.
    + apply resubmit_tracks; [done| |by eapply tracks_same]. by destruct Hs as [_ ->].
  - case_match; by apply finish_tracks.
Qed.

Lemma complete_tracks w q d back : tracks w (token d :: back) 0 -> tracks (complete alloc w q d).1 back 0.
Proof.
  intros H. destruct (tracks_back _ _ _ _ H) as (Ht & Eu & s & Hs). unfold complete. rewrite Eu, Hs.
  destruct (tracks_take _ _ _ _ Hs H) as [Hk Hn].
  case_match; [by eapply tracks_less; [|eapply tracks_same; [|exact Hk]]; [lia|]|].
  case_match; [by apply complete_error_tracks|]. case_match; [by apply finish_tracks|]. by apply complete_moved_tracks.
Qed.

Lemma complete_all_tracks q ds : forall w n, tracks w (token <$> ds) 0 -> tracks (complete_all alloc w q ds n).1 [] 0.
Proof.
  induction ds as [|d ds IH]; intros w n H; simpl; [done|].
  pose proof (complete_tracks w q d _ H) as Hc. destruct (complete alloc w q d) as [w1 k]. by apply IH.
Qed.

Lemma release_tracks w d back : tracks w (token d :: back) 0 -> tracks (release w (u32 (token d))) back 0.
Proof.
  intros H. destruct (tracks_back _ _ _ _ H) as (Ht & Eu & s & Hs). unfold release. rewrite Eu, Hs.
  destruct (tracks_take _ _ _ _ Hs H) as [Hk Hn].
  by eapply tracks_less; [|eapply tracks_same; [|exact Hk]]; [lia|].
Qed.

Lemma release_all_tracks ds : forall w, tracks w (token <$> ds) 0 -> tracks (release_all w ds) [] 0.
Proof. induction ds as [|d ds IH]; intros w H; simpl; [done|]. by apply IH, release_tracks. Qed.

(** ** Taking requests *)

Lemma accepts_spare w back : can_accept w = true -> tracks w back 0 -> back = [] -> tracks w back 1.
Proof.
  intros Ha [H1 H2 H3 H4] ->. unfold can_accept in Ha. destruct (free w); [done|]. apply Z.ltb_lt in Ha.
  pose proof (room_law (engine w) H1 Ha) as Hr. unfold below in Hr. split; try done.
  destruct (capacity (engine w)); [simpl in *; lia|done].
Qed.

Lemma issue_tracks w q r hd : books w None hd -> tracks w [] 1 -> tracks (issue host_addr alloc w q r).1 [] 0.
Proof.
  intros Hb H. unfold issue. destruct (free w) as [|t rest] eqn:Ef.
  { eapply tracks_less; [|eapply tracks_same; [|exact H]]; [lia|apply reply_same_slab]. }
  assert (0 <= t /\ slots w !! Z.to_nat t = Some None) as [Ht Hn].
  { pose proof (proj1 (bk_free _ _ _ Hb t)) as Hf. rewrite Ef in Hf. destruct Hf as (? & ? & _); [by left|done]. }
  pose proof (lookup_lt_Some _ _ _ Hn) as Hlt. pose proof (tr_width _ _ _ H) as Hw.
  assert (is_word 32 t) as Ht32 by (unfold is_word; lia).
  pose proof (prepare_same (set_slab w (slots w) rest) r) as Hp.
  destruct (prepare host_addr alloc (set_slab w (slots w) rest) r) as [w2 [st|s]]; simpl in Hp.
  - eapply tracks_less; [|eapply tracks_same; [|exact H]]; [lia|]. destruct Hp as [E1 E2].
    pose proof (reply_same_slab (free_token w2 t) q (head r) (status_addr r) st 1) as [E3 E4]. split; simpl in *; congruence.
  - assert (tracks w2 [] 1) as H2 by (eapply tracks_same; [|exact H]; done).
    assert (slots w2 !! Z.to_nat t = Some None) as Hn2 by (by destruct Hp as [_ ->]).
    pose proof (submit_tracks w2 t s [] Ht32 Hn2 H2) as Hs. destruct (submit w2 t s) as [w3 ok]. destruct Hs as [_ Hs].
    destruct ok; [exact Hs|]. eapply tracks_same; [|exact Hs]. apply (reply_same_slab (free_token w3 t)).
Qed.

Lemma start_tracks w q h descs hd : books w None hd -> tracks w [] 1 -> tracks (start host_addr alloc w q h descs).1 [] 0.
Proof.
  intros Hb H. assert (forall w', same_slab w w' -> tracks w' [] 0) as Hs.
  { intros w' Hs. by eapply tracks_less; [|eapply tracks_same; [exact Hs|exact H]]; lia. }
  unfold start. destruct (parse (mem w) (disk w) h descs) as [[|sa st]|r]; [apply Hs, push_same_slab|apply Hs, reply_same_slab|].
  destruct (op r); try (by eapply issue_tracks). destruct (write_id _ _ _ _) as [m n].
  apply Hs. pose proof (reply_same_slab (set_mem w m) q h (status_addr r) BLK_S_OK (n + 1)) as H2. done.
Qed.

Lemma take_offered_tracks fuel : forall w q n w' q' n',
  take_offered host_addr alloc fuel w q n = Some (w', q', n') -> books w None None -> tracks w [] 0 -> tracks w' [] 0.
Proof.
  induction fuel as [|fuel IH]; intros w q n w' q' n' Ht Hb H; simpl in Ht; [done|].
  destruct (can_accept w) eqn:Ea; [|by injection Ht as <- <- <-].
  destruct (pop_avail (mem w) q) as [q1 [[h descs]|]]; [|by injection Ht as <- <- <-].
  pose proof (accepts_spare w [] Ea H eq_refl) as H1.
  pose proof (books_count w h Hb) as Hb1.
  pose proof (start_books host_addr alloc (count_request w h) q1 h descs Hb1) as Hb2.
  pose proof (start_tracks (count_request w h) q1 h descs _ Hb1 ltac:(by eapply tracks_same; [|exact H1])) as H2.
  destruct (start host_addr alloc _ q1 h descs) as [w1 k]. by eapply IH.
Qed.

Lemma suppress_same_slab w q on : same_slab w (suppress_notify w q on).
Proof. unfold suppress_notify. by repeat case_match. Qed.

Lemma drain_tracks fuel : forall w q n w' q' n',
  drain host_addr alloc fuel w q n = Some (w', q', n') -> books w None None -> tracks w [] 0 -> tracks w' [] 0.
Proof.
  induction fuel as [|fuel IH]; intros w q n w' q' n' Hd Hb H; [done|]. cbn [drain] in Hd.
  apply bind_Some in Hd as ([[w1 q1] n1] & Ht & Hd).
  pose proof (books_same _ _ _ _ (suppress_books w q true) Hb) as Hb1.
  pose proof (take_offered_books _ _ _ _ _ _ _ _ _ Ht Hb1) as Hb2.
  apply take_offered_tracks in Ht as H2; [|done|by eapply tracks_same; [apply suppress_same_slab|]].
  destruct (can_accept w1); simpl in Hd; [|by injection Hd as <- <- <-].
  pose proof (books_same _ _ _ _ (suppress_books w1 q1 false) Hb2) as Hb3.
  pose proof (tracks_same _ _ _ _ (suppress_same_slab w1 q1 false) H2) as H3.
  destruct (has_avail _ _); simpl in Hd; [by eapply IH|]. injection Hd as <- <- <-. by eapply tracks_same; [|exact H3].
Qed.

(** ** The published count *)

Fixpoint vacant_from (i : nat) (l : list (option Slot)) : list Z :=
  match l with
  | [] => []
  | None :: l => Z.of_nat i :: vacant_from (S i) l
  | Some _ :: l => vacant_from (S i) l
  end.

Lemma busy_vacant l : forall k, (length (busy_from k l) + length (vacant_from k l) = length l)%nat.
Proof. induction l as [|[s|] l IH]; intros k; simpl; [done| |]; specialize (IH (S k)); lia. Qed.

Lemma elem_of_vacant l t : forall k, t ∈ vacant_from k l <-> Z.of_nat k <= t /\ l !! (Z.to_nat t - k)%nat = Some None.
Proof.
  induction l as [|o l IH]; intros k; simpl.
  { split; [intros H; by apply elem_of_nil in H|intros [_ H]; by rewrite lookup_nil in H]. }
  assert (t ∈ vacant_from (S k) l <-> Z.of_nat k < t /\ (o :: l) !! (Z.to_nat t - k)%nat = Some None) as Hr.
  { rewrite IH. split; intros [H1 H2]; (split; [lia|]).
    - replace (Z.to_nat t - k)%nat with (S (Z.to_nat t - S k)) by lia. done.
    - replace (Z.to_nat t - k)%nat with (S (Z.to_nat t - S k)) in H2 by lia. done. }
  destruct o as [s|].
  - rewrite Hr. split; intros [H1 H2]; (split; [lia|done]) || idtac. split; [|done].
    destruct (decide (t = Z.of_nat k)) as [->|]; [|lia]. rewrite Nat2Z.id, Nat.sub_diag in H2. done.
  - rewrite elem_of_cons, Hr. split.
    + intros [->|[H1 H2]]; [|split; [lia|done]]. rewrite Nat2Z.id, Nat.sub_diag. split; [lia|done].
    + intros [H1 H2]. destruct (decide (t = Z.of_nat k)); [by left|]. right. split; [lia|done].
Qed.

Lemma NoDup_vacant l : forall k, NoDup (vacant_from k l).
Proof.
  induction l as [|[s|] l IH]; intros k; simpl; [constructor|done|]. constructor; [|done].
  rewrite elem_of_vacant. lia.
Qed.

Lemma busy_count w : books w None None -> length (busy (slots w)) = (length (slots w) - length (free w))%nat /\
  (length (free w) <= length (slots w))%nat.
Proof.
  intros [B1 B2 _ _]. assert (free w ≡ₚ vacant_from 0 (slots w)) as Hp.
  { apply NoDup_Permutation; [done|apply NoDup_vacant|]. intros t. rewrite B2, elem_of_vacant, Nat.sub_0_r. split; [tauto|].
    intros [? ?]. by split_and!. }
  pose proof (busy_vacant (slots w) 0) as Hl. rewrite <- Hp in Hl. unfold busy. lia.
Qed.

Lemma published w : books w None None -> in_flight (publish_in_flight w) = Z.of_nat (length (busy (slots w))).
Proof. intros Hb. apply busy_count in Hb as [E1 E2]. simpl. rewrite E1. lia. Qed.

Lemma run_pass_tracks fuel w q (irq irq' : Irq R) kicked ds w' q' fds :
  run_pass host_addr alloc fuel w q irq kicked ds = Some (w', q', irq', fds) ->
  books w None None -> tracks w (token <$> ds) 0 ->
  tracks w' [] 0 /\ in_flight w' = Z.of_nat (length (busy (slots w'))).
Proof.
  unfold run_pass. intros Hr Hb H. set (w0 := if kicked then set_want_drain w true else w) in *.
  assert (books w0 None None /\ tracks w0 (token <$> ds) 0) as [Hb0 H0].
  { unfold w0. destruct kicked; [|done]. split; [by eapply books_same; [|exact Hb]|by eapply tracks_same; [|exact H]]. }
  destruct (_ || _).
  { injection Hr as <- <- <- <-. assert (books (release_all w0 ds) None None) as Hb1 by (by eapply release_all_books). pose proof (release_all_tracks ds w0 H0) as H1.
    split; [by eapply tracks_same; [|exact H1]|]. apply (published (set_want_drain (release_all w0 ds) false)).
    by eapply books_same; [|exact Hb1]. }
  assert (books (complete_all alloc w0 q ds 0).1 None None) as Hb1 by (by eapply complete_all_books). pose proof (complete_all_tracks q ds w0 0 H0) as H1.
  destruct (complete_all alloc w0 q ds 0) as [w1 n1]. simpl in Hb1, H1.
  apply bind_Some in Hr as ([[w2 q2] n2] & Hd & Hr).
  assert (books w2 None None /\ tracks w2 [] 0) as [Hb2 H2].
  { destruct (want_drain w1); [|by injection Hd as <- <- <-]. split; [by eapply drain_books|by eapply drain_tracks]. }
  pose proof (published w2 Hb2) as Hp. destruct (_ && _).
  - destruct (trigger _ _) as [t f]. injection Hr as <- <- <- <-. split; [by eapply tracks_same; [|exact H2]|exact Hp].
  - injection Hr as <- <- <- <-. split; [by eapply tracks_same; [|exact H2]|exact Hp].
Qed.

(** ** The wait *)

Lemma wait_law fuel sights : forall e e' r, engine_ok e -> wait fuel e sights = Some (e', r) ->
  engine_ok e' /\ capacity e' = capacity e /\
  outstanding e ≡ₚ match r with Some (_, ds) => token <$> ds | None => [] end ++ outstanding e'.
Proof.
  induction sights as [|[m q] sights IH]; intros e e' r Ho Hw; simpl in Hw; [by eapply run_law|].
  apply bind_Some in Hw as ([e1 r1] & H1 & Hw). apply run_law in H1 as (Ho1 & Hc1 & Hj1); [|done].
  destruct r1 as [[[] [|d ds]]|]; try (by injection Hw as <- <-). destruct (ring_has_work m q); [by injection Hw as <- <-|].
  apply IH in Hw as (Ho2 & Hc2 & Hj2); [|done]. split_and!; [done|congruence|]. by rewrite Hj1, <- Hj2.
Qed.

(** ** Worker, engine, device and guest together *)

(** [hand]: what the wait brought back and the pass has not looked at yet. *)
Definition Hand : Type := option (bool * list Done).
Definition in_hand (h : Hand) : list Z := match h with Some (_, ds) => token <$> ds | None => [] end.

(** A turn of [run]'s loop is a wait and a pass; the engine, the device and the guest
    may move before either. *)
Inductive turn_step : Worker M E * QState * Irq R * Hand -> Worker M E * QState * Irq R * Hand -> Prop :=
  | turn_wait fuel sights w q irq e' r : wait fuel (engine w) sights = Some (e', Some r) ->
      turn_step (w, q, irq, None) (set_engine w e', q, irq, Some r)
  | turn_pass fuel w q irq kicked ds w' q' irq' fds :
      run_pass host_addr alloc fuel w q irq kicked ds = Some (w', q', irq', fds) ->
      turn_step (w, q, irq, Some (kicked, ds)) (w', q', irq', None)
  | turn_event w q irq h e' : event (engine w) e' -> turn_step (w, q, irq, h) (set_engine w e', q, irq, h)
  | turn_reset w q irq h q' :
      turn_step (w, q, irq, h)
        ({| mem := mem w; disk := disk w; generation := u64 (generation w + 1); engine := engine w;
            slots := slots w; free := free w; want_drain := want_drain w; used_idx := used_idx w;
            notify_suppressed := notify_suppressed w; requests := requests w;
            interrupts := interrupts w; staged := staged w; in_flight := in_flight w;
            taken := taken w; pushed := pushed w; dropped := dropped w |}, q', irq, h)
  | turn_guest w q irq h m q' irq' : turn_step (w, q, irq, h) (set_mem w m, q', irq', h).

Record turn_inv (w : Worker M E) (h : Hand) : Prop := {
  ti_books : books w None None;
  ti_tracks : tracks w (in_hand h) 0;
  ti_count : in_flight w = Z.of_nat (length (busy (slots w)))
}.

Lemma set_engine_tracks w e' back back' : engine_ok e' -> capacity e' = capacity (engine w) ->
  outstanding (engine w) ++ back ≡ₚ outstanding e' ++ back' -> tracks w back 0 -> tracks (set_engine w e') back' 0.
Proof.
  intros Ho Hc Hj [H1 H2 H3 H4]. split; simpl; try done.
  - rewrite Hc. destruct (capacity (engine w)); [|done]. apply Permutation_length in Hj. rewrite !length_app in Hj. lia.
  - by rewrite <- Hj.
Qed.

Lemma turn_step_inv s s' : turn_step s s' -> turn_inv s.1.1.1 s.2 -> turn_inv s'.1.1.1 s'.2.
Proof.
  intros Hs [Hb H Hc]. destruct Hs as [fuel sights w q irq e' [k ds] Hw|fuel w q irq kicked ds w' q' irq' fds Hr|w q irq h e' He|w q irq h q'|];
    simpl in *.
  - apply wait_law in Hw as (Ho & Hca & Hj); [|by destruct H]. split; simpl; [by eapply books_same; [|exact Hb]| |done].
    eapply set_engine_tracks; [done|done| |exact H]. rewrite app_nil_r, Hj. apply Permutation_app_comm.
  - destruct (run_pass_tracks _ _ _ _ _ _ _ _ _ _ Hr Hb H) as [H' Hc']. split; try done. by eapply run_pass_books.
  - apply event_law in He as (Ho & Hca & Hj); [|by destruct H]. split; simpl; [by eapply books_same; [|exact Hb]| |done].
    eapply set_engine_tracks; [done|done| |exact H]. by rewrite Hj.
  - split; simpl; [by eapply books_same; [|exact Hb]|by eapply tracks_same; [|exact H]|done].
  - split; simpl; [by eapply books_same; [|exact Hb]|by eapply tracks_same; [|exact H]|done].
Qed.

(** C6: The kernel works for exactly the slots of the slab.  Whichever engine a
    worker was given, and however its turns -- polling or asleep -- interleave with
    completions, resets and the guest: the jobs the engine has, with those whose
    completion is in the worker's hand, are the occupied slots, one each, so no buffer
    of a request is given up while the kernel may still write it and every completion
    finds its request; the count a reset waits on is how many there are, so at zero
    the kernel has none; and where the worker may submit, or has a completion to
    submit again for, the engine takes the job. *)
Theorem kernel_has_live_slots (m : M) (d : Disk) (e : E) (n : nat) (q0 : QState) (irq0 : Irq R)
    (w : Worker M E) (q : QState) (irq : Irq R) (h : Hand)
    (He : engine_ok e /\ outstanding e = []) (Hn : Z.of_nat n <= 2 ^ 32)
    (Hreach : rtc turn_step (Worker_new m d e n, q0, irq0, None) (w, q, irq, h)) :
  outstanding (engine w) ++ in_hand h ≡ₚ busy (slots w) /\
  in_flight w = Z.of_nat (length (busy (slots w))) /\
  (in_flight w = 0 -> outstanding (engine w) = []) /\
  (forall t j, is_word 32 t -> (h = None /\ can_accept w = true) \/ in_hand h <> [] ->
     (submit_job (engine w) t j).2 = true).
Proof.
  assert (turn_inv w h) as [Hb H Hc].
  { assert (forall s s', rtc turn_step s s' -> turn_inv s.1.1.1 s.2 -> turn_inv s'.1.1.1 s'.2) as Hg.
    { induction 1; eauto using turn_step_inv. }
    apply (Hg _ _ Hreach). destruct He as [Ho Hj]. split; simpl; [apply books_new| |by rewrite busy_none].
    split; simpl; rewrite ?Hj, ?busy_none, ?length_replicate; try done. destruct (capacity e); [simpl; apply Nat.le_0_l|done]. }
  split_and!; [by destruct H|done| |].
  - intros Hz. destruct H as [_ _ H3 _]. apply Permutation_length in H3. rewrite length_app in H3.
    destruct (outstanding (engine w)); [done|simpl in H3; lia].
  - intros t j Ht Hs. assert (below (capacity (engine w)) (length (outstanding (engine w)))) as Hl.
    { destruct Hs as [[-> Ha]|Hd]; [by eapply tracks_below, accepts_spare|]. destruct H as [_ H2 _ _]. unfold below.
      destruct (capacity (engine w)); [|done]. destruct (in_hand h); [done|]. simpl in H2. lia. }
    destruct H as [H1 _ _ _]. by destruct (submit_law (engine w) t j H1 Ht Hl) as (e' & -> & _).
Qed.

(** ** A reset's wait *)

(** Nothing is with the kernel for a worker whose published count is zero. *)
Lemma count_zero w h : turn_inv w h -> in_flight w <= 0 -> outstanding (engine w) = [].
Proof.
  intros [_ [_ _ H _] Hc] Hz. apply Permutation_length in H. rewrite length_app in H.
  destruct (outstanding (engine w)); [done|simpl in H; lia].
Qed.

(** A reset that did not give up: at its last look no worker had anything with the
    kernel, given that every look reads the counts of workers as they run. *)
Lemma reset_waited looks (ws : nat -> list (Worker M E * Hand)) :
  wait_for_in_flight looks = Some true ->
  (forall i counts now, looks !! i = Some (counts, now) ->
     Forall (fun x => turn_inv x.1 x.2) (ws i) /\ counts = (fun x => in_flight x.1) <$> ws i) ->
  exists i, (i < length looks)%nat /\ Forall (fun x => outstanding (engine x.1) = []) (ws i).
Proof.
  intros Hw Hl. apply waited_out in Hw as (i & counts & now & Hi & Hz). exists i.
  split; [by eapply lookup_lt_Some|]. destruct (Hl _ _ _ Hi) as [Hinv ->]. rewrite Forall_fmap in Hz.
  rewrite Forall_forall in Hinv, Hz. apply Forall_forall. intros x Hx.
  apply (count_zero x.1 x.2); [by apply Hinv|by apply Hz].
Qed.

End Contract.

(** The completion queue has room for everything in the ring, and a worker that was
    not told of a kick has its read still in the ring. *)
Lemma uring_reserves {K : Type} {HK : IoUring K} {HL : IoUringLaws K} fuel (e e' : UringEngine K) b ds :
  engine_ok e -> engine_run fuel e b = Some (e', Some (false, ds)) ->
  KICK_TOKEN ∈ pending (ring e') /\ Z.of_nat (length (pending (ring e'))) <= depth e' <= next_power_of_two (depth e' * 2).
Proof.
  intros Ho Hr. destruct (uring_run_spec fuel e b e' _ Ho Hr) as ([D1 D2 D3 D4 D5] & _ & _ & Ha). rewrite Ha in D5. split.
  - rewrite D5. by left.
  - rewrite D5. simpl. unfold next_power_of_two. destruct (depth e' * 2 <=? 1) eqn:El; bool_prop; [lia|].
    pose proof (Z.log2_up_spec (depth e' * 2) ltac:(lia)). lia.
Qed.

(** * A small ring *)

(** Entries wait until the kernel is entered; a read or write then moves all its
    bytes, and the kick is never rung. *)
Record ToyRing := { toy_queued : list Sqe; toy_finished : list Cqe; toy_size : nat }.

Definition toy_result (j : Job) : Z :=
  match j with
  | Readv iovs _ | Writev iovs _ => foldr (fun v n => iv_len v + n) 0 iovs
  | _ => 0
  end.

Definition toy_finish (s : Sqe) : option Cqe :=
  match s with KickRead => None | Io t j => Some {| cqe_data := t; cqe_result := toy_result j |} end.

#[export] Instance ToyRing_uring : IoUring ToyRing := {
  sq_push k s :=
    if (length (toy_queued k) + length (toy_finished k) <? toy_size k)%nat then
      ({| toy_queued := toy_queued k ++ [s]; toy_finished := toy_finished k; toy_size := toy_size k |}, true)
    else (k, false);
  taskrun _ := false;
  enter k _ :=
    ({| toy_queued := filter (fun s => toy_finish s = None) (toy_queued k);
        toy_finished := toy_finished k ++ omap toy_finish (toy_queued k); toy_size := toy_size k |}, Submitted);
  reap k := ({| toy_queued := toy_queued k; toy_finished := []; toy_size := toy_size k |}, toy_finished k);
  kick_buf _ := 1
}.

Lemma toy_split l : user_data <$> l ≡ₚ (user_data <$> filter (fun s => toy_finish s = None) l) ++ (cqe_data <$> omap toy_finish l).
Proof.
  induction l as [|[|t j] l IH]; [done| |].
  - rewrite filter_cons_True by done. simpl. by rewrite IH.
  - rewrite filter_cons_False by done. simpl. rewrite IH. apply Permutation_middle.
Qed.

#[export, refine] Instance ToyRing_laws : IoUringLaws ToyRing := {
  pending k := (user_data <$> toy_queued k) ++ (cqe_data <$> toy_finished k);
  entries k := toy_size k
}.
Proof.
  - intros k s Hl. rewrite length_app, !length_fmap in Hl. simpl. apply Nat.ltb_lt in Hl. by rewrite Hl.
  - intros k s. simpl. destruct (_ <? _)%nat; [|done]. simpl. split; [|done]. rewrite fmap_app. simpl.
    by rewrite <- Permutation_cons_append.
  - intros k b. simpl. split; [|done]. rewrite fmap_app, (toy_split (toy_queued k)), <- (assoc_L (++)).
    apply Permutation_app_head, Permutation_app_comm.
  - intros k. simpl. split; [|done]. rewrite app_nil_r. apply Permutation_app_comm.
Defined.

(** A host without system calls to make, never asked here. *)
#[export] Instance unit_sync : SyncHost unit := { do_job h _ := (h, 0); kick_read h := (h, KickCount 1) }.

Definition toy_ring (n : Z) (_ : option Z) : option ToyRing := Some {| toy_queued := []; toy_finished := []; toy_size := Z.to_nat n |}.

Definition toy_engine : AnyEngine ToyRing unit := build_engine toy_ring Some tt 4.

Definition toy_worker : Worker FlatRam (AnyEngine ToyRing unit) := Worker_new blk_ram test_disk toy_engine 4.

(** A wait, and a pass over what it brought. *)
Definition toy_turn (w : Worker FlatRam (AnyEngine ToyRing unit)) (q : QState) :
    option (Worker FlatRam (AnyEngine ToyRing unit) * QState) :=
  '(e, r) ← wait 1 (engine w) [];
  '(kicked, ds) ← r;
  '(w, q, _, _) ← run_pass id test_alloc 8 (set_engine w e) q irq0 kicked ds;
  Some (w, q).

Lemma toy_turn_reach w q w' q' : toy_turn w q = Some (w', q') ->
  exists irq', rtc (turn_step (R := RouteLog) id test_alloc) (w, q, irq0, None) (w', q', irq', None).
Proof.
  unfold toy_turn. intros Ht. apply bind_Some in Ht as ([e [[kicked ds]|]] & Hw & Ht); [|done].
  apply bind_Some in Ht as ([k ds'] & [= <- <-] & Ht). apply bind_Some in Ht as ([[[w1 q1] irq1] fds] & Hr & [= <- <-]).
  exists irq1. eapply rtc_l; [by eapply turn_wait|]. apply rtc_once. by eapply turn_pass.
Qed.

(** The read goes out on the first turn and is answered on the second. *)
Example toy_disk_serves :
  match toy_turn toy_worker blk_queue with
  | Some (w1, q1) =>
      outstanding (engine w1) = [0] /\
      match toy_turn w1 q1 with
      | Some (w2, _) => pushed w2 = [(0, 4097)] /\ outstanding (engine w2) = [] /\ free w2 = [0; 1; 2; 3]
      | None => False
      end
  | None => False
  end.
Proof. vm_compute. repeat split. Qed.

Lemma toy_first_turn :
  match toy_turn toy_worker blk_queue with Some (w, _) => busy (slots w) = [0] | None => False end.
Proof. by vm_compute. Qed.

Lemma toy_engine_ok : engine_ok toy_engine /\ outstanding toy_engine = [].
Proof. split; [|reflexivity]. split; vm_compute; try done; split; congruence. Qed.

Lemma kernel_has_live_slots_witness :
  match toy_turn toy_worker blk_queue with
  | Some (w, _) => outstanding (engine w) ≡ₚ [0] /\ in_flight w = 1
  | None => False
  end.
Proof.
  pose proof toy_first_turn as Hb. destruct (toy_turn toy_worker blk_queue) as [[w q]|] eqn:Et; [|exact Hb].
  destruct (toy_turn_reach _ _ _ _ Et) as [irq' Hr].
  destruct (kernel_has_live_slots id test_alloc blk_ram test_disk toy_engine 4 blk_queue irq0 w q irq' None toy_engine_ok
    ltac:(lia) Hr) as (H1 & H2 & _).
  rewrite Hb in H1, H2. simpl in H1. rewrite app_nil_r in H1. split; [exact H1|exact H2].
Defined.
