(* ===== verification/BlkDevice.v ===== *)
(** The block device as the guest programs it, [virtio-devices/src/blk/mod.rs]:
    features, the common configuration, the device configuration, notification
    and MSI-X registers of BAR 0, and its place on the PCI bus.

    What the worker threads and the kernel see of a register write is recorded:
    the eventfds signalled, in order.  A reset returns when the workers have
    nothing in flight or two seconds have passed; the wait itself changes no
    state of the device. *)

From S2P Require Import Prelude PciConfig PciBus GuestMem Virtqueue BlkDisk Msix.

(** * Constants *)

Definition QUEUE_SIZE : Z := 256.
Definition MAX_QUEUES : Z := 8.
Definition MSIX_VECTORS : Z := MAX_QUEUES + 1.

Definition F_SIZE_MAX : Z := Z.shiftl 1 1.
Definition F_SEG_MAX : Z := Z.shiftl 1 2.
Definition F_RO : Z := Z.shiftl 1 5.
Definition F_BLK_SIZE : Z := Z.shiftl 1 6.
Definition F_FLUSH : Z := Z.shiftl 1 9.
Definition F_MQ : Z := Z.shiftl 1 12.
Definition F_DISCARD : Z := Z.shiftl 1 13.
Definition F_WRITE_ZEROES : Z := Z.shiftl 1 14.

Definition SIZE_MAX : Z := Z.shiftl 1 20.
Definition MAX_DISCARD_SECTORS : Z := Z.shiftl 1 21.
Definition MAX_DISCARD_SEG : Z := 1.

(** * State *)

Record Queue := {
  index : Z;
  state : QState;
  kick : Z;
  q_generation : Z
}.

Definition fresh_qstate : QState :=
  {| desc := 0; avail := 0; used := 0; qsize := QUEUE_SIZE; enabled := false; last := 0;
     vec := VIRTQ_MSI_NO_VECTOR; indirect := false; event_idx := false |}.

Section Device.
Context {R : Type} {HR : MsiRouter R}.

Record BlkDevice := {
  com : ComCfg;
  qs : Z;
  cfg_vec : Z;
  cfg : list Z;
  msix_cap : Z;
  b_isr : Z;
  b_msix : MsixTable R;
  queues : list Queue;
  b_disk : Disk;
  features : Z;
  signalled : list Z
}.

Definition set_com (d : BlkDevice) (c : ComCfg) : BlkDevice :=
  {| com := c; qs := qs d; cfg_vec := cfg_vec d; cfg := cfg d; msix_cap := msix_cap d;
     b_isr := b_isr d; b_msix := b_msix d; queues := queues d; b_disk := b_disk d;
     features := features d; signalled := signalled d |}.
Definition set_qs (d : BlkDevice) (n : Z) : BlkDevice :=
  {| com := com d; qs := n; cfg_vec := cfg_vec d; cfg := cfg d; msix_cap := msix_cap d;
     b_isr := b_isr d; b_msix := b_msix d; queues := queues d; b_disk := b_disk d;
     features := features d; signalled := signalled d |}.
Definition set_cfg_vec (d : BlkDevice) (n : Z) : BlkDevice :=
  {| com := com d; qs := qs d; cfg_vec := n; cfg := cfg d; msix_cap := msix_cap d;
     b_isr := b_isr d; b_msix := b_msix d; queues := queues d; b_disk := b_disk d;
     features := features d; signalled := signalled d |}.
Definition set_queues (d : BlkDevice) (l : list Queue) : BlkDevice :=
  {| com := com d; qs := qs d; cfg_vec := cfg_vec d; cfg := cfg d; msix_cap := msix_cap d;
     b_isr := b_isr d; b_msix := b_msix d; queues := l; b_disk := b_disk d;
     features := features d; signalled := signalled d |}.
Definition set_irq (d : BlkDevice) (i : Z) (t : MsixTable R) (fds : list Z) : BlkDevice :=
  {| com := com d; qs := qs d; cfg_vec := cfg_vec d; cfg := cfg d; msix_cap := msix_cap d;
     b_isr := i; b_msix := t; queues := queues d; b_disk := b_disk d;
     features := features d; signalled := signalled d ++ fds |}.
Definition set_cfg (d : BlkDevice) (c : list Z) (t : MsixTable R) : BlkDevice :=
  {| com := com d; qs := qs d; cfg_vec := cfg_vec d; cfg := c; msix_cap := msix_cap d;
     b_isr := b_isr d; b_msix := t; queues := queues d; b_disk := b_disk d;
     features := features d; signalled := signalled d |}.
Definition set_state (q : Queue) (s : QState) : Queue :=
  {| index := index q; state := s; kick := kick q; q_generation := q_generation q |}.

(** * Construction *)

Definition build_pci_config : option (list Z * Z) :=
  let c := PciConfig.new 0x1AF4 0x1042 0x01 0x010000 0x1AF4 0x0002 in
  c ← set_bar_mem c 0 BAR0_SIZE;
  let c := set_irq_line (set_irq_pin c 1) 10 in
  '(c, _) ← add_virtio_cap c 1 0 OFF_COMMON 0x38;
  '(c, _) ← add_virtio_notify_cap c 0 OFF_NOTIFY 0x100 NOTIFY_MULT;
  '(c, _) ← add_virtio_cap c 3 0 OFF_ISR 1;
  '(c, _) ← add_virtio_cap c 4 0 OFF_DEVICE 0x3C;
  '(c, msix_cap) ← add_msix_cap c (MSIX_VECTORS - 1) OFF_MSIX_TABLE OFF_MSIX_PBA;
  '(c, _) ← add_pcie_cap c PCIE_TYPE_RC_INTEGRATED;
  Some (build c, msix_cap).

Definition blk_features (ro : bool) (num_queues : Z) : Z :=
  let f := Z.lor VIRTIO_F_VERSION_1 (Z.lor VIRTIO_F_RING_INDIRECT_DESC
    (Z.lor VIRTIO_F_RING_EVENT_IDX (Z.lor F_SIZE_MAX (Z.lor F_SEG_MAX F_BLK_SIZE)))) in
  let f := if ro then Z.lor f F_RO
           else Z.lor f (Z.lor F_FLUSH (Z.lor F_DISCARD F_WRITE_ZEROES)) in
  if 1 <? num_queues then Z.lor f F_MQ else f.

(** The device around an opened disk; [kicks] are the queues' eventfds, one per
    queue asked for.  [None] when the capabilities do not fit. *)
Definition BlkDevice_new (d : Disk) (num_queues : Z) (kicks : Z -> Z) : option BlkDevice :=
  let n := Z.max 1 (Z.min num_queues MAX_QUEUES) in
  '(c, cap) ← build_pci_config;
  Some {| com := ComCfg_default; qs := 0; cfg_vec := VIRTQ_MSI_NO_VECTOR; cfg := c; msix_cap := cap;
          b_isr := 0; b_msix := MsixTable_default (Z.to_nat MSIX_VECTORS);
          queues := (fun i => {| index := i; state := fresh_qstate; kick := kicks i;
                                 q_generation := 0 |}) <$> seqZ 0 n;
          b_disk := d; features := blk_features (read_only d) n; signalled := [] |}.

Definition msix_vectors (d : BlkDevice) : nat := length (queues d) + 1.

Definition bind_interrupts (d : BlkDevice) (vs : list MsiVector) (r : R) (fd : Z) : BlkDevice :=
  set_irq d (b_isr d) (bind (b_msix d) vs r fd) [].

(** [drop]: the workers are told to stop and every one is woken, then joined. *)
Definition blk_drop (d : BlkDevice) : BlkDevice := set_irq d (b_isr d) (b_msix d) (kick <$> queues d).

(** * Device configuration *)

Definition device_config (d : BlkDevice) : list Z :=
  let k := b_disk d in
  let c := replicate 60 0 in
  let c := splice c 0 (le_bytes 8 (sectors k)) in
  let c := splice c 8 (le_bytes 4 SIZE_MAX) in
  let c := splice c 12 (le_bytes 4 (QUEUE_SIZE - 2)) in
  let c := splice c 20 (le_bytes 4 (block_size k)) in
  let c := splice c 34 (le_bytes 2 (Z.of_nat (length (queues d)))) in
  if read_only k then c
  else
    let align_sectors := u32 (block_size k / SECTOR_SIZE) in
    let c := splice c 36 (le_bytes 4 MAX_DISCARD_SECTORS) in
    let c := splice c 40 (le_bytes 4 MAX_DISCARD_SEG) in
    let c := splice c 44 (le_bytes 4 align_sectors) in
    let c := splice c 48 (le_bytes 4 MAX_DISCARD_SECTORS) in
    let c := splice c 52 (le_bytes 4 MAX_DISCARD_SEG) in
    splice c 56 [1].

(** * Common configuration *)

Definition blk_com_read (d : BlkDevice) (off : Z) (len : nat) : list Z :=
  let '(q, notify_off) :=
    match queues d !! Z.to_nat (qs d) with
    | Some queue => (state queue, qs d)
    | None => (QState_default, 0)
    end in
  write_val len
    (com_read (com d) off (features d) (Z.of_nat (length (queues d))) (cfg_vec d) (qs d) (qsize q)
       (vec q) (if enabled q then 1 else 0) notify_off
       (Z.land (desc q) 0xFFFFFFFF) (Z.shiftr (desc q) 32)
       (Z.land (avail q) 0xFFFFFFFF) (Z.shiftr (avail q) 32)
       (Z.land (used q) 0xFFFFFFFF) (Z.shiftr (used q) 32)).

Definition reset_queue (q : Queue) : Queue :=
  {| index := index q; state := fresh_qstate; kick := kick q; q_generation := u64 (q_generation q + 1) |}.

Definition write_device_status (d : BlkDevice) (v1 : Z) : BlkDevice :=
  let c := com d in
  let d := set_com d {| dfs := dfs c; dff := dff c; df := df c; st := v1 |} in
  let negotiated := Z.land (df c) (features d) in
  let ind := has_bits negotiated VIRTIO_F_RING_INDIRECT_DESC in
  let ev := has_bits negotiated VIRTIO_F_RING_EVENT_IDX in
  let d := set_queues d ((fun q => set_state q (with_features (state q) ind ev)) <$> queues d) in
  if v1 =? 0 then set_queues d (reset_queue <$> queues d) else d.

(** A register of the selected queue. *)
Definition write_queue_reg (q : QState) (off v3 v2 : Z) : QState :=
  if off =? CFG_QUEUE_SIZE then set_queue_size q v2 QUEUE_SIZE
  else if off =? CFG_QUEUE_MSIX then with_vec q v2
  else if off =? CFG_QUEUE_ENABLE then with_enabled q (negb (v2 =? 0))
  else write_queue_addr q off v3.

Definition com_write (d : BlkDevice) (off : Z) (data : list Z) : BlkDevice :=
  let '(v3, v2, v1) := parse_write data in
  let c := com d in
  if off =? CFG_DEVICE_FEAT_SEL then
    set_com d {| dfs := v3; dff := dff c; df := df c; st := st c |}
  else if off =? CFG_DRIVER_FEAT_SEL then
    set_com d {| dfs := dfs c; dff := v3; df := df c; st := st c |}
  else if off =? CFG_DRIVER_FEAT then set_com d (write_driver_feature c v3)
  else if off =? CFG_MSIX_CONFIG then set_cfg_vec d v2
  else if off =? CFG_STATUS then write_device_status d v1
  else if off =? CFG_QUEUE_SEL then set_qs d v2
  else
    match queues d !! Z.to_nat (qs d) with
    | None => d
    | Some q =>
        set_queues d (<[Z.to_nat (qs d) := set_state q (write_queue_reg (state q) off v3 v2)]>
                        (queues d))
    end.

(** * BAR 0 *)

Definition bar0_read (d : BlkDevice) (o : Z) (data : list Z) : BlkDevice * list Z :=
  let len := length data in
  if o <? OFF_ISR then (d, blk_com_read d (o - OFF_COMMON) len)
  else if o <? OFF_DEVICE then
    match data with
    | [] => (d, data)
    | _ :: rest => (set_irq d 0 (b_msix d) [], b_isr d :: rest)
    end
  else if o <? OFF_NOTIFY then (d, read_window (device_config d) (Z.to_nat (o - OFF_DEVICE)) len 0)
  else if o <? OFF_MSIX_TABLE then (d, replicate len 0)
  else if o <? OFF_MSIX_PBA then (d, Msix.read (b_msix d) (o - OFF_MSIX_TABLE) len)
  else if o <? BAR0_SIZE then (d, read_pba (b_msix d) (o - OFF_MSIX_PBA) len)
  else (d, replicate len 0).

Definition bar0_write (d : BlkDevice) (o : Z) (data : list Z) : BlkDevice :=
  if o <? OFF_ISR then com_write d (o - OFF_COMMON) data
  else if o <? OFF_NOTIFY then d
  else if o <? OFF_MSIX_TABLE then
    let idx := (o - OFF_NOTIFY) / NOTIFY_MULT in
    match queues d !! Z.to_nat idx with
    | Some q => set_irq d (b_isr d) (b_msix d) [kick q]
    | None => d
    end
  else if o <? OFF_MSIX_PBA then
    let '(t, deliver) := Msix.write (b_msix d) (o - OFF_MSIX_TABLE) data in
    set_irq d (b_isr d) t
      (if deliver then trigger_unmasked t (Z.to_nat ((o - OFF_MSIX_TABLE) / 16)) else [])
  else d.

(** * On the bus *)

Definition blk_write_config (d : BlkDevice) (o : Z) (data : list Z) : BlkDevice :=
  let c := write_msix_control (cfg d) (msix_cap d) o data in
  set_cfg d c (set_msix_on (b_msix d) (msix_enabled c (msix_cap d))).

#[export] Instance BlkDevice_pci : PciDevice BlkDevice := {
  read_config d o data := (d, read_cfg_space (cfg d) o (length data));
  write_config d o data := blk_write_config d o data;
  read_bar d bi o data :=
    if (bi =? 0)%nat then let '(d', out) := bar0_read d o data in (d', out, true)
    else (d, data, false);
  write_bar d bi o data := if (bi =? 0)%nat then (bar0_write d o data, true) else (d, false);
  bar_size _ bi := if (bi =? 0)%nat then BAR0_SIZE else 0;
  bar_type_of _ _ := Mem32;
  doorbells d :=
    (fun q => {| door_bar_idx := 0; door_offset := OFF_NOTIFY + index q * NOTIFY_MULT;
                 door_fd := kick q |}) <$> queues d
}.

End Device.

Arguments BlkDevice : clear implicits.
