(* ===== verification/BlkDeviceFacts.v ===== *)
(** The block device under every access a guest and its workers can make:
    the invariant of its registers, what a reset leaves, the doorbells, the
    configuration the driver reads, and its contract with the bus. *)

From S2P Require Import Prelude PciConfig PciBus PciBusFacts PciBusPaths GuestMem Virtqueue.
From S2P Require Import VirtqueueRun BlkDisk Msix MsixFacts BlkDevice.

Section Facts.
Context {R : Type} {HR : MsiRouter R}.
Implicit Types (d : BlkDevice R).

(** * The invariant *)

(** What a queue's registers can hold. *)
Record regs_ok (q : QState) : Prop := {
  ro_size : 0 <= qsize q <= QUEUE_SIZE;
  ro_desc : is_word 64 (desc q);
  ro_avail : is_word 64 (avail q);
  ro_used : is_word 64 (used q);
  ro_vec : is_word 16 (vec q);
  ro_last : is_word 16 (last q)
}.

(** [d] is [d0] after some use. *)
Record dev_ok d0 d : Prop := {
  do_disk : b_disk d = b_disk d0;
  do_features : features d = features d0;
  do_cap : msix_cap d = msix_cap d0;
  do_queues : (fun q => (index q, kick q)) <$> queues d = (fun q => (index q, kick q)) <$> queues d0;
  do_regs : Forall (fun q => regs_ok (state q)) (queues d);
  do_cfg_len : length (cfg d) = 256%nat;
  do_cfg_bytes : Forall is_byte (cfg d);
  do_cfg : forall i, 0 <= i -> i <> msix_cap d0 + 3 -> cfg_byte (cfg d) i = cfg_byte (cfg d0) i;
  do_msix : msix_on (b_msix d) = msix_enabled (cfg d) (msix_cap d);
  do_entries : length (entries (b_msix d)) = Z.to_nat MSIX_VECTORS
}.

(** Everything that acts on a device: the guest's four kinds of access, a worker
    taking chains (it moves [last]) and a worker raising its interrupt. *)
Inductive dev_step : BlkDevice R -> BlkDevice R -> Prop :=
  | step_read_config d o data : dev_step d (read_config d o data).1
  | step_write_config d o data : 0 <= o -> dev_step d (write_config d o data)
  | step_read_bar d i o data : 0 <= o -> dev_step d (read_bar d i o data).1.1
  | step_write_bar d i o data : 0 <= o -> Forall is_byte data -> dev_step d (write_bar d i o data).1
  | step_taken d i q n : queues d !! i = Some q -> is_word 16 n ->
      dev_step d (set_queues d (<[i := set_state q (with_last (state q) n)]> (queues d)))
  | step_interrupt d q : q ∈ queues d ->
      dev_step d (let '(t, fds) := trigger (b_msix d) (vec (state q)) in
                  set_irq d (Z.lor (b_isr d) 1) t fds)
  | step_bind d vs r fd : dev_step d (bind_interrupts d vs r fd).

Lemma fresh_regs_ok : regs_ok fresh_qstate.
Proof. by split. Qed.

Lemma parse_write_words data v3 v2 v1 :
  parse_write data = (v3, v2, v1) -> is_word 32 v3 /\ is_word 16 v2 /\ is_word 8 v1.
Proof. intros [= <- <- <-]. split; [|split]; by apply wrap_range. Qed.

Lemma write_queue_addr_ok q off v : regs_ok q -> is_word 32 v -> regs_ok (write_queue_addr q off v).
Proof.
  intros [] Hv. unfold write_queue_addr.
  repeat (case_match; [split; simpl; try done;
    match goal with
    | |- is_word 64 (lo_half ?x _) => by apply (halves_word x v false)
    | |- is_word 64 (hi_half ?x _) => by apply (halves_word x v true)
    end|]).
  by split.
Qed.

Lemma write_queue_reg_ok q off v3 v2 :
  regs_ok q -> is_word 32 v3 -> is_word 16 v2 -> regs_ok (write_queue_reg q off v3 v2).
Proof.
  intros Hq H3 H2. unfold write_queue_reg, set_queue_size, with_size, with_vec, with_enabled.
  pose proof Hq as []. case_match; [case_match; bool_prop; split; simpl; (done || unfold is_word in *; lia)|].
  case_match; [by split|]. case_match; [by split|]. by apply write_queue_addr_ok.
Qed.

(** A change to the queues that keeps identities and registers in range. *)
Lemma dev_ok_queues d0 d l :
  dev_ok d0 d -> (fun q => (index q, kick q)) <$> l = (fun q => (index q, kick q)) <$> queues d ->
  Forall (fun q => regs_ok (state q)) l -> dev_ok d0 (set_queues d l).
Proof. intros [] Hl Hr. split; simpl; try done. congruence. Qed.

Lemma dev_ok_queue d0 d i q s :
  dev_ok d0 d -> queues d !! i = Some q -> regs_ok s ->
  dev_ok d0 (set_queues d (<[i := set_state q s]> (queues d))).
Proof.
  intros Hd Hi Hs. apply dev_ok_queues; [done| |].
  - rewrite list_fmap_insert. simpl. apply list_insert_id. by rewrite list_lookup_fmap, Hi.
  - apply Forall_insert; [apply Hd|done].
Qed.

Lemma dev_ok_regs d0 d i q : dev_ok d0 d -> queues d !! i = Some q -> regs_ok (state q).
Proof. intros Hd. apply (Forall_lookup_1 _ _ _ _ (do_regs _ _ Hd)). Qed.

Lemma write_status_ok d0 d v : dev_ok d0 d -> dev_ok d0 (write_device_status d v).
Proof.
  intros Hd. unfold write_device_status.
  set (d1 := set_com d _). assert (H1 : dev_ok d0 d1) by (by destruct Hd).
  set (d2 := set_queues d1 _).
  assert (H2 : dev_ok d0 d2).
  { apply dev_ok_queues; [done|by rewrite <- list_fmap_compose|].
    apply Forall_fmap. eapply Forall_impl; [apply (do_regs _ _ H1)|]. intros q []. by split. }
  case_match; [|done]. apply dev_ok_queues; [done|by rewrite <- list_fmap_compose|].
  apply Forall_fmap, Forall_true. intros q. apply fresh_regs_ok.
Qed.

Lemma com_write_ok d0 d off data : dev_ok d0 d -> dev_ok d0 (com_write d off data).
Proof.
  intros Hd. unfold com_write. destruct (parse_write data) as [[v3 v2] v1] eqn:E.
  destruct (parse_write_words _ _ _ _ E) as (H3 & H2 & H1).
  do 4 (case_match; [by destruct Hd|]). case_match; [by apply write_status_ok|].
  case_match; [by destruct Hd|]. destruct (queues d !! _) as [q|] eqn:Eq; [|done].
  apply dev_ok_queue; [done..|]. apply write_queue_reg_ok; [by eapply dev_ok_regs|done..].
Qed.

(** A change to the interrupt state that keeps the table's shape. *)
Lemma dev_ok_irq d0 d i t fds :
  dev_ok d0 d -> msix_on t = msix_on (b_msix d) -> length (entries t) = length (entries (b_msix d)) ->
  dev_ok d0 (set_irq d i t fds).
Proof. intros [] Ht Hl. split; simpl; try done; congruence. Qed.

Lemma write_shape (t : MsixTable R) off data :
  msix_on (Msix.write t off data).1 = msix_on t /\
  length (entries (Msix.write t off data).1) = length (entries t).
Proof.
  destruct (write_cases t off data) as [[_ ->]|(_ & t' & -> & He & Ho & _)]; [done|].
  simpl. by rewrite Ho, He, length_insert.
Qed.

Lemma bar0_write_ok d0 d o data : dev_ok d0 d -> dev_ok d0 (bar0_write d o data).
Proof.
  intros Hd. unfold bar0_write. case_match; [by apply com_write_ok|]. case_match; [done|].
  case_match; [case_match; [by apply dev_ok_irq|done]|]. case_match; [|done].
  destruct (write_shape (b_msix d) (o - OFF_MSIX_TABLE) data) as [Hon Hlen].
  destruct (Msix.write _ _ _) as [t deliver]. by apply dev_ok_irq.
Qed.

Lemma bar0_read_ok d0 d o data : dev_ok d0 d -> dev_ok d0 (bar0_read d o data).1.
Proof.
  intros Hd. unfold bar0_read. case_match; [done|].
  case_match; [destruct data; [done|by apply dev_ok_irq]|]. by repeat case_match.
Qed.

Lemma write_config_ok d0 d o data : 0 <= o -> 0 <= msix_cap d0 <= 250 ->
  dev_ok d0 d -> dev_ok d0 (blk_write_config d o data).
Proof.
  intros Ho Hc []. unfold blk_write_config, write_msix_control.
  split; simpl; try done.
  - by rewrite length_write_control.
  - by apply write_control_keeps_bytes.
  - intros i Hi Hne. unfold MSIX_MSG_CTL. rewrite write_control_spec by (done || lia).
    rewrite (proj2 (Z.eqb_neq i (msix_cap d + 2 + 1))) by lia. simpl. by apply do_cfg0.
Qed.

Lemma dev_step_ok d0 d d' : 0 <= msix_cap d0 <= 250 -> dev_step d d' -> dev_ok d0 d -> dev_ok d0 d'.
Proof.
  intros Hc [d1 o data|d1 o data Ho|d1 i o data Ho|d1 i o data Ho Hb|d1 i q n Hi Hn|d1 q Hq|d1 vs r fd] Hd;
    simpl.
  - done.
  - by apply write_config_ok.
  - destruct (i =? 0)%nat; [|done]. pose proof (bar0_read_ok d0 d1 o data Hd).
    by destruct (bar0_read d1 o data).
  - destruct (i =? 0)%nat; [by apply bar0_write_ok|done].
  - apply dev_ok_queue; [done..|]. pose proof (dev_ok_regs _ _ _ _ Hd Hi) as []. by split.
  - destruct (trigger_shape (b_msix d1) (vec (state q))) as [H1 H2].
    destruct (trigger _ _) as [t fds]. apply dev_ok_irq; [done..|]. simpl in H2. by rewrite H2.
  - by apply dev_ok_irq.
Qed.

(** * Construction *)

Definition blk_cfg : list Z * Z := default ([], 0) build_pci_config.

Lemma build_ok : build_pci_config = Some blk_cfg.
Proof. by vm_compute. Qed.

Lemma bytes_checked (l : list Z) : forallb (in_range 0 256) l = true -> Forall is_byte l.
Proof.
  intros H. rewrite forallb_forall in H. apply Forall_forall. intros x Hx.
  apply in_range_spec, H. by apply list_elem_of_In.
Qed.

Lemma blk_cfg_facts :
  length blk_cfg.1 = 256%nat /\ Forall is_byte blk_cfg.1 /\ 0 <= blk_cfg.2 <= 250 /\
  msix_enabled blk_cfg.1 blk_cfg.2 = false.
Proof.
  split; [by vm_compute|]. split; [|by vm_compute].
  apply bytes_checked. by vm_compute.
Qed.

#[local] Opaque blk_cfg.

(** The device [BlkDevice_new] builds. *)
Definition blk_new (k : Disk) (n : Z) (kicks : Z -> Z) : BlkDevice R :=
  {| com := ComCfg_default; qs := 0; cfg_vec := VIRTQ_MSI_NO_VECTOR; cfg := blk_cfg.1;
     msix_cap := blk_cfg.2; b_isr := 0; b_msix := MsixTable_default (Z.to_nat MSIX_VECTORS);
     queues := (fun i => {| index := i; state := fresh_qstate; kick := kicks i;
                            q_generation := 0 |}) <$> seqZ 0 (Z.max 1 (Z.min n MAX_QUEUES));
     b_disk := k; features := blk_features (read_only k) (Z.max 1 (Z.min n MAX_QUEUES));
     signalled := [] |}.

Lemma BlkDevice_new_eq k n kicks : BlkDevice_new k n kicks = Some (blk_new k n kicks).
Proof. unfold BlkDevice_new. rewrite build_ok. by destruct blk_cfg eqn:E; unfold blk_new; rewrite E. Qed.

Lemma blk_new_ok k n kicks : dev_ok (blk_new k n kicks) (blk_new k n kicks).
Proof.
  destruct blk_cfg_facts as (H1 & H2 & H3 & H4).
  split; [exact eq_refl|exact eq_refl|exact eq_refl|exact eq_refl| |exact H1|exact H2
         |exact (fun i _ _ => eq_refl)|exact (eq_sym H4)|exact eq_refl].
  apply Forall_fmap, Forall_true. intros i. apply fresh_regs_ok.
Qed.

Lemma dev_steps_ok d0 d d' :
  0 <= msix_cap d0 <= 250 -> rtc dev_step d d' -> dev_ok d0 d -> dev_ok d0 d'.
Proof. intros Hc Hr. induction Hr as [|d1 d2 d3 Hs _ IH]; [auto|]. eauto using dev_step_ok. Qed.

Lemma blk_reach k n kicks d : rtc dev_step (blk_new k n kicks) d -> dev_ok (blk_new k n kicks) d.
Proof.
  intros Hr. refine (dev_steps_ok _ _ _ _ Hr (blk_new_ok k n kicks)). apply blk_cfg_facts.
Qed.

(** The block device's registers stay sane whatever the guest does.  From a
    freshly built device, after any sequence of configuration and BAR accesses
    of any offset and data, worker passes and interrupts: the queues are the
    same ones with the same eventfds, the disk and offered features are as
    built, every queue size is at most 256 and every ring address, vector and
    position a word of its register's width, the only configuration-space byte
    that can differ from the built one is the high byte of MSI-X Message
    Control, and the interrupt table's enable flag agrees with it. *)
Theorem blk_device_invariant (k : Disk) (n : Z) (kicks : Z -> Z) d0 d
    (Hnew : BlkDevice_new k n kicks = Some d0) (Hreach : rtc dev_step d0 d) :
  dev_ok d0 d.
Proof. rewrite BlkDevice_new_eq in Hnew. injection Hnew as <-. by apply blk_reach. Qed.

(** * Reset *)

(** Writing zero to the status register puts every queue back to where it
    started: disabled, at its default size, no ring addresses, position 0 and no
    vector, with the features of the old driver forgotten, the generation moved
    on by exactly one and the same eventfd; the selected queue, the interrupt
    table, the configuration space and the disk are untouched and no interrupt
    is raised. *)
Theorem reset_clean d (data : list Z)
    (Hdata : (parse_write data).2 = 0) :
  let d' := (write_bar d 0 (OFF_COMMON + CFG_STATUS) data).1 in
  queues d' = reset_queue <$> queues d /\
  Forall (fun q => state q = fresh_qstate) (queues d') /\
  (kick <$> queues d') = (kick <$> queues d) /\
  (forall i q q', queues d !! i = Some q -> queues d' !! i = Some q' ->
     q_generation q' = u64 (q_generation q + 1)) /\
  st (com d') = 0 /\ qs d' = qs d /\ b_msix d' = b_msix d /\ b_isr d' = b_isr d /\
  cfg d' = cfg d /\ b_disk d' = b_disk d /\ signalled d' = signalled d.
Proof.
  intros d'. assert (Hd' : d' = write_device_status d 0).
  { unfold d', write_bar, BlkDevice_pci, bar0_write, com_write.
    destruct (parse_write data) as [[v3 v2] v1]. simpl in Hdata. by rewrite Hdata. }
  assert (Hq : queues d' = reset_queue <$> queues d).
  { rewrite Hd'. unfold write_device_status. simpl. by rewrite <- list_fmap_compose. }
  split; [done|]. rewrite Hq. split; [by apply Forall_fmap, Forall_true|].
  split; [by rewrite <- list_fmap_compose|]. split; [|by rewrite Hd'].
  intros i q q' Hi. rewrite list_lookup_fmap, Hi. by intros [= <-].
Qed.

(** * Doorbells *)

Lemma queues_named k n kicks d i q :
  dev_ok (blk_new k n kicks) d -> queues d !! i = Some q ->
  index q = Z.of_nat i /\ kick q = kicks (Z.of_nat i) /\ (i < 8)%nat.
Proof.
  intros Hd Hi. pose proof (do_queues _ _ Hd) as E.
  assert (El : (fun q => (index q, kick q)) <$> (queues d !! i) = Some (index q, kick q)) by (by rewrite Hi).
  rewrite <- list_lookup_fmap, E in El. unfold blk_new in El. simpl in El.
  rewrite <- list_fmap_compose, list_lookup_fmap in El.
  destruct (seqZ _ _ !! i) as [z|] eqn:Ez; [|done]. apply lookup_seqZ in Ez as [-> Hlt].
  rewrite Z.add_0_l in El. injection El as E1 E2. unfold MAX_QUEUES in Hlt. split; [done|]. split; [done|lia].
Qed.

(** The three descriptions of a doorbell agree.  On a device in use, for
    each queue: selecting it and reading [queue_notify_off] tells the driver its
    index; the register that index names, [OFF_NOTIFY + index * NOTIFY_MULT], is
    where the device asks the kernel to signal the queue's eventfd; and when a
    write to it reaches the device instead, the device signals that eventfd and
    does nothing else. *)
Theorem doorbell_matches_mmio (k : Disk) (n : Z) (kicks : Z -> Z) d0 d (i : nat) q data
    (Hnew : BlkDevice_new k n kicks = Some d0) (Hreach : rtc dev_step d0 d)
    (Hi : queues d !! i = Some q) :
  let idx := Z.of_nat i in
  let sel := (write_bar d 0 (OFF_COMMON + CFG_QUEUE_SEL) (le_bytes 2 idx)).1 in
  (read_bar sel 0 (OFF_COMMON + CFG_QUEUE_NOTIFY_OFF) [0; 0]).1.2 = le_bytes 2 idx /\
  doorbells d !! i = Some {| door_bar_idx := 0; door_offset := OFF_NOTIFY + idx * NOTIFY_MULT;
                             door_fd := kick q |} /\
  write_bar d 0 (OFF_NOTIFY + idx * NOTIFY_MULT) data =
    (set_irq d (b_isr d) (b_msix d) [kick q], true).
Proof.
  rewrite BlkDevice_new_eq in Hnew. injection Hnew as <-.
  destruct (queues_named _ _ _ _ _ _ (blk_reach _ _ _ _ Hreach) Hi) as (Eidx & _ & Hlt).
  intros idx sel. split; [|split].
  - assert (Hsel : sel = set_qs d idx).
    { unfold sel, bar0_write, com_write. do 8 (destruct i as [|i]; [reflexivity|]). lia. }
    rewrite Hsel. unfold read_bar, BlkDevice_pci, bar0_read. simpl. unfold blk_com_read. simpl.
    unfold idx. rewrite Nat2Z.id, Hi. do 8 (destruct i as [|i]; [reflexivity|]). lia.
  - simpl. rewrite list_lookup_fmap, Hi. simpl. by rewrite Eidx.
  - assert (Hq : (Z.of_nat i * 4) / 4 = Z.of_nat i) by (by apply Z.div_mul).
    unfold idx. simpl. f_equal. unfold bar0_write.
    rewrite !(proj2 (Z.ltb_ge _ _)) by (unfold OFF_ISR, OFF_NOTIFY, NOTIFY_MULT; lia).
    rewrite (proj2 (Z.ltb_lt _ _)) by (unfold OFF_MSIX_TABLE, OFF_NOTIFY, NOTIFY_MULT; lia).
    replace (OFF_NOTIFY + Z.of_nat i * NOTIFY_MULT - OFF_NOTIFY) with (Z.of_nat i * 4)
      by (unfold NOTIFY_MULT; lia).
    unfold NOTIFY_MULT. by rewrite Hq, Nat2Z.id, Hi.
Qed.

(** * On the bus *)

Lemma doors_of_queues d d' :
  (fun q => (index q, kick q)) <$> queues d' = (fun q => (index q, kick q)) <$> queues d ->
  doorbells d' = doorbells d.
Proof.
  intros E. simpl. set (f := fun p : Z * Z => {| door_bar_idx := 0; door_offset := OFF_NOTIFY + p.1 * NOTIFY_MULT; door_fd := p.2 |}).
  assert (Ef : forall l : list Queue, (fun q => {| door_bar_idx := 0; door_offset := OFF_NOTIFY + index q * NOTIFY_MULT;
    door_fd := kick q |}) <$> l = f <$> ((fun q => (index q, kick q)) <$> l)).
  { intros l. by rewrite <- list_fmap_compose. }
  by rewrite !Ef, E.
Qed.

Lemma com_write_named d off data :
  (fun q => (index q, kick q)) <$> queues (com_write d off data) =
  (fun q => (index q, kick q)) <$> queues d.
Proof.
  unfold com_write. destruct (parse_write data) as [[v3 v2] v1].
  do 4 (case_match; [done|]). case_match.
  { unfold write_device_status. case_match; simpl; by rewrite <- !list_fmap_compose. }
  case_match; [done|]. destruct (queues d !! _) as [q|] eqn:Eq; [|done]. simpl.
  rewrite list_fmap_insert. apply list_insert_id. by rewrite list_lookup_fmap, Eq.
Qed.

Lemma bar0_read_queues d o data : queues (bar0_read d o data).1 = queues d.
Proof. unfold bar0_read. repeat (case_match; [done|]). by repeat case_match. Qed.

#[export] Instance blk_doors_fixed : DoorbellsFixed (D := BlkDevice R).
Proof.
  split; [done|done|..]; intros d i o data; simpl; (destruct (i =? 0)%nat; [|done]).
  - pose proof (bar0_read_queues d o data) as Hq. destruct (bar0_read d o data) as [d' out].
    simpl in *. by rewrite Hq.
  - apply doors_of_queues. unfold bar0_write. case_match; [by apply com_write_named|].
    case_match; [done|]. case_match; [by case_match|]. case_match; [|done].
    by destruct (Msix.write _ _ _).
Qed.

(** The block device keeps its side of the bus's contract.  Every device
    built, for any disk and number of queues asked for, is accepted by the
    capability builder, has BARs the placement can handle, doorbells inside
    them at four-byte steps and no two alike, and no access of any kind changes
    the doorbells. *)
Theorem blk_fits_bus (k : Disk) (n : Z) (kicks : Z -> Z) :
  exists d, BlkDevice_new k n kicks = Some d /\ sizes_ok d /\ doors_in_bars d /\
    NoDup (door_offset <$> doorbells d) /\
    Z.of_nat (length (doorbells d)) = Z.max 1 (Z.min n MAX_QUEUES) /\
    forall d', rtc dev_step d d' -> doorbells d' = doorbells d.
Proof.
  exists (blk_new k n kicks). split; [apply BlkDevice_new_eq|]. split.
  { intros i. simpl. by case_match. }
  split.
  { apply Forall_fmap, Forall_fmap, Forall_seqZ. intros z Hz. simpl.
    unfold MAX_QUEUES, OFF_NOTIFY, NOTIFY_MULT, BAR0_SIZE in *. lia. }
  split.
  { simpl. rewrite <- !list_fmap_compose. apply NoDup_fmap_2_strong; [|apply NoDup_seqZ].
    intros x y _ _. simpl. unfold NOTIFY_MULT. lia. }
  split.
  { simpl. rewrite !length_fmap, length_seqZ. unfold MAX_QUEUES. lia. }
  intros d' Hr%blk_reach. apply doors_of_queues, Hr.
Qed.

End Facts.
