(* ===== verification/BlkDeviceRun.v ===== *)
(** Programming a queue through the registers, what the driver reads in the
    device configuration, and the end of a reset seen from the worker; with the
    theorems of [BlkDeviceFacts] on a two-queue device. *)

From S2P Require Import Prelude PciConfig PciBus PciBusFacts PciBusPaths GuestMem Virtqueue.
From S2P Require Import VirtqueueRun BlkDisk BlkDiskFacts Msix MsixFacts BlkWorker BlkDrain BlkDevice BlkDeviceFacts.

(** * Setting up a queue *)

Section Setup.
Context {R : Type} {HR : MsiRouter R}.
Implicit Types (d : BlkDevice R).

(** A driver's register writes, offset and bytes, in order. *)
Definition program d (ws : list (Z * list Z)) : BlkDevice R :=
  foldl (fun d w => (write_bar d 0 (OFF_COMMON + w.1) w.2).1) d ws.

(** How Linux sets up queue [i]: select, size, the three ring addresses in
    halves, enable. *)
Definition setup_writes (i n da aa ua : Z) : list (Z * list Z) :=
  [(CFG_QUEUE_SEL, le_bytes 2 i); (CFG_QUEUE_SIZE, le_bytes 2 n);
   (CFG_QUEUE_DESC_LO, le_bytes 4 da); (CFG_QUEUE_DESC_HI, le_bytes 4 (da / 2 ^ 32));
   (CFG_QUEUE_AVAIL_LO, le_bytes 4 aa); (CFG_QUEUE_AVAIL_HI, le_bytes 4 (aa / 2 ^ 32));
   (CFG_QUEUE_USED_LO, le_bytes 4 ua); (CFG_QUEUE_USED_HI, le_bytes 4 (ua / 2 ^ 32));
   (CFG_QUEUE_ENABLE, le_bytes 2 1)].

Lemma parse_write_le n v : (n <= 8)%nat ->
  parse_write (le_bytes n v) =
    let x := v mod 2 ^ (8 * Z.of_nat n) in (u32 x, u16 x, u8 x).
Proof.
  intros Hn. unfold parse_write.
  assert (of_le (resize 8 0 (le_bytes n v)) = v mod 2 ^ (8 * Z.of_nat n)) as ->; [|done].
  rewrite <- of_le_le_bytes. rewrite resize_ge by (by rewrite length_le_bytes).
  rewrite length_le_bytes. generalize (8 - n)%nat. generalize (le_bytes n v). clear.
  intros l m. induction l as [|b l IH]; simpl; [by induction m as [|m IH]; simpl; rewrite ?IH|].
  by rewrite IH.
Qed.

(** A write to a register of the selected queue. *)
Lemma queue_write d q off n v :
  queues d !! Z.to_nat (qs d) = Some q -> (n <= 8)%nat -> CFG_QUEUE_SIZE <= off < OFF_ISR ->
  let x := v mod 2 ^ (8 * Z.of_nat n) in
  (write_bar d 0 (OFF_COMMON + off) (le_bytes n v)).1 =
  set_queues d (<[Z.to_nat (qs d) := set_state q (write_queue_reg (state q) off (u32 x) (u16 x))]> (queues d)).
Proof.
  intros Hq Hn Hoff x. simpl. unfold bar0_write, com_write. unfold CFG_QUEUE_SIZE in Hoff.
  rewrite (proj2 (Z.ltb_lt (OFF_COMMON + off) OFF_ISR)) by (unfold OFF_COMMON; lia).
  rewrite parse_write_le by done. fold x. cbv zeta beta iota.
  replace (OFF_COMMON + off - OFF_COMMON) with off by lia.
  do 6 (rewrite (proj2 (Z.eqb_neq off _))
    by (unfold CFG_DEVICE_FEAT_SEL, CFG_DRIVER_FEAT_SEL, CFG_DRIVER_FEAT, CFG_MSIX_CONFIG,
          CFG_STATUS, CFG_QUEUE_SEL; lia)).
  by rewrite Hq.
Qed.

Lemma queue_write_again d i q s off n v :
  qs d = Z.of_nat i -> queues d !! i = Some q -> (n <= 8)%nat -> CFG_QUEUE_SIZE <= off < OFF_ISR ->
  let x := v mod 2 ^ (8 * Z.of_nat n) in
  (write_bar (set_queues d (<[i := set_state q s]> (queues d))) 0 (OFF_COMMON + off) (le_bytes n v)).1 =
  set_queues d (<[i := set_state q (write_queue_reg s off (u32 x) (u16 x))]> (queues d)).
Proof.
  intros Hqs Hq Hn Hoff x. rewrite (queue_write _ (set_state q s)); [|simpl|done|done].
  - simpl. rewrite Hqs, Nat2Z.id. unfold set_queues. simpl. by rewrite list_insert_insert_eq.
  - rewrite Hqs, Nat2Z.id. apply list_lookup_insert_eq. by eapply lookup_lt_Some.
Qed.

Lemma halves_join old a : is_word 64 old -> is_word 64 a ->
  hi_half (lo_half old (u32 (a mod 2 ^ 32))) (u32 ((a / 2 ^ 32) mod 2 ^ 32)) = a.
Proof.
  intros Ho Ha. unfold wrap. rewrite !Z.mod_mod by lia.
  assert (H1 : is_word 32 (a mod 2 ^ 32)) by (apply Z.mod_pos_bound; lia).
  assert (H2 : is_word 32 ((a / 2 ^ 32) mod 2 ^ 32)) by (apply Z.mod_pos_bound; lia).
  destruct (halves_word old _ false Ho H1) as (Hw & Hl & _).
  rewrite hi_half_value by done. rewrite Hl. unfold is_word in *.
  change (2 ^ 64) with 18446744073709551616 in *. change (2 ^ 32) with 4294967296 in *.
  Z.div_mod_to_equations. lia.
Qed.

(** Decide the comparisons of register offsets. *)
Ltac closed_tests :=
  repeat match goal with
  | |- context [?a =? ?b] =>
      let r := eval vm_compute in (a =? b) in
      match r with
      | true => change (a =? b) with true
      | false => change (a =? b) with false
      end; cbv iota
  end.

Definition set_up (q : QState) (n da aa ua : Z) : QState :=
  {| desc := da; avail := aa; used := ua; qsize := Z.min n QUEUE_SIZE; enabled := true;
     last := last q; vec := vec q; indirect := indirect q; event_idx := event_idx q |}.

(** Which field each register of a queue writes. *)
Lemma write_queue_reg_fields s x y :
  write_queue_reg s CFG_QUEUE_SIZE x y = set_queue_size s y QUEUE_SIZE /\
  write_queue_reg s CFG_QUEUE_ENABLE x y = with_enabled s (negb (y =? 0)) /\
  write_queue_reg s CFG_QUEUE_DESC_LO x y = set_addrs s (lo_half (desc s) x) (avail s) (used s) /\
  write_queue_reg s CFG_QUEUE_DESC_HI x y = set_addrs s (hi_half (desc s) x) (avail s) (used s) /\
  write_queue_reg s CFG_QUEUE_AVAIL_LO x y = set_addrs s (desc s) (lo_half (avail s) x) (used s) /\
  write_queue_reg s CFG_QUEUE_AVAIL_HI x y = set_addrs s (desc s) (hi_half (avail s) x) (used s) /\
  write_queue_reg s CFG_QUEUE_USED_LO x y = set_addrs s (desc s) (avail s) (lo_half (used s) x) /\
  write_queue_reg s CFG_QUEUE_USED_HI x y = set_addrs s (desc s) (avail s) (hi_half (used s) x).
Proof. repeat split. Qed.

Lemma setup_regs q n da aa ua :
  regs_ok q -> is_word 16 n -> is_word 64 da -> is_word 64 aa -> is_word 64 ua ->
  let wr s off k v :=
    let x := v mod 2 ^ (8 * Z.of_nat k) in write_queue_reg s off (u32 x) (u16 x) in
  let s := wr q CFG_QUEUE_SIZE 2%nat n in
  let s := wr (wr s CFG_QUEUE_DESC_LO 4%nat da) CFG_QUEUE_DESC_HI 4%nat (da / 2 ^ 32) in
  let s := wr (wr s CFG_QUEUE_AVAIL_LO 4%nat aa) CFG_QUEUE_AVAIL_HI 4%nat (aa / 2 ^ 32) in
  let s := wr (wr s CFG_QUEUE_USED_LO 4%nat ua) CFG_QUEUE_USED_HI 4%nat (ua / 2 ^ 32) in
  wr s CFG_QUEUE_ENABLE 2%nat 1 = set_up q n da aa ua.
Proof.
  intros [_ Hd Ha Hu _ _] Hn Hda Haa Hua. cbv zeta beta.
  rewrite (proj1 (proj2 (write_queue_reg_fields _ _ _))).
  do 7 (match goal with
  | |- context [write_queue_reg ?s ?off ?x ?y] =>
      destruct (write_queue_reg_fields s x y) as (E1 & _ & E3 & E4 & E5 & E6 & E7 & E8);
      first [rewrite E8|rewrite E7|rewrite E6|rewrite E5|rewrite E4|rewrite E3|rewrite E1];
      clear E1 E3 E4 E5 E6 E7 E8
  end). unfold set_queue_size.
  change (8 * Z.of_nat 2) with 16. change (8 * Z.of_nat 4) with 32.
  assert (En : u16 (n mod 2 ^ 16) = n) by (unfold wrap; rewrite Z.mod_mod by lia; by apply Z.mod_small).
  rewrite En. change (u16 (1 mod 2 ^ 16) =? 0) with false.
  unfold set_up. destruct (Z.ltb_spec QUEUE_SIZE n);
    lazy beta iota delta [set_addrs with_size with_enabled desc avail used qsize enabled last vec
      indirect event_idx negb]; rewrite !halves_join by done; f_equal; lia.
Qed.

Lemma setup_state d (i : nat) q (n da aa ua : Z) :
  queues d !! i = Some q -> Z.of_nat i < 2 ^ 16 -> regs_ok (state q) ->
  is_word 16 n -> is_word 64 da -> is_word 64 aa -> is_word 64 ua ->
  program d (setup_writes (Z.of_nat i) n da aa ua) =
  set_queues (set_qs d (Z.of_nat i)) (<[i := set_state q (set_up (state q) n da aa ua)]> (queues d)).
Proof.
  intros Hi Hi16 Hr Hn Hd Ha Hu. unfold program, setup_writes. cbn [foldl fst snd].
  assert (Hsel : (write_bar d 0 (OFF_COMMON + CFG_QUEUE_SEL) (le_bytes 2 (Z.of_nat i))).1 =
    set_qs d (Z.of_nat i)).
  { unfold write_bar, BlkDevice_pci, bar0_write, com_write. rewrite parse_write_le by lia.
    cbn -[Z.modulo Z.pow]. f_equal. unfold wrap. rewrite Z.mod_mod by lia. apply Z.mod_small. lia. }
  rewrite Hsel. set (d1 := set_qs d (Z.of_nat i)).
  assert (H1 : queues d1 !! Z.to_nat (qs d1) = Some q) by (simpl; by rewrite Nat2Z.id).
  rewrite (queue_write d1 q) by (done || lia). replace (Z.to_nat (qs d1)) with i by (simpl; lia).
  rewrite !(queue_write_again d1 i q) by (done || lia).
  change (queues d1) with (queues d). do 3 f_equal. by apply setup_regs.
Qed.

(** A queue set up through the registers is the queue the driver described.
    Selecting queue [i] and writing its size, its three 64-bit ring addresses
    half by half and its enable leaves exactly those values in queue [i] (a size
    above the maximum becomes the maximum), every other queue as it was, and
    reading any of the address registers back gives the word written. *)
Theorem queue_setup_roundtrip d (i : nat) q (n da aa ua : Z)
    (Hi : queues d !! i = Some q) (Hi16 : Z.of_nat i < 2 ^ 16) (Hr : regs_ok (state q))
    (Hn : is_word 16 n) (Hd : is_word 64 da) (Ha : is_word 64 aa) (Hu : is_word 64 ua) :
  let d' := program d (setup_writes (Z.of_nat i) n da aa ua) in
  queues d' = <[i := set_state q (set_up (state q) n da aa ua)]> (queues d) /\
  (forall off v, (off, v) ∈ [(CFG_QUEUE_DESC_LO, da mod 2 ^ 32); (CFG_QUEUE_DESC_HI, da / 2 ^ 32);
      (CFG_QUEUE_AVAIL_LO, aa mod 2 ^ 32); (CFG_QUEUE_AVAIL_HI, aa / 2 ^ 32);
      (CFG_QUEUE_USED_LO, ua mod 2 ^ 32); (CFG_QUEUE_USED_HI, ua / 2 ^ 32)] ->
    (read_bar d' 0 (OFF_COMMON + off) (replicate 4 0)).1.2 = le_bytes 4 v).
Proof.
  intros d'. assert (Hd' := setup_state d i q n da aa ua Hi Hi16 Hr Hn Hd Ha Hu). fold d' in Hd'.
  rewrite Hd'. split; [done|]. clear d' Hd'.
  set (d1 := set_queues _ _).
  assert (Hq : queues d1 !! Z.to_nat (qs d1) = Some (set_state q (set_up (state q) n da aa ua))).
  { simpl. rewrite Nat2Z.id. apply list_lookup_insert_eq. by eapply lookup_lt_Some. }
  assert (Hread : forall off, 0 <= off < OFF_ISR ->
    (read_bar d1 0 (OFF_COMMON + off) (replicate 4 0)).1.2 = blk_com_read d1 off 4).
  { intros off Hoff. simpl. unfold bar0_read.
    rewrite (proj2 (Z.ltb_lt (OFF_COMMON + off) OFF_ISR)) by (unfold OFF_COMMON; lia).
    simpl. f_equal. lia. }
  assert (Hlo : forall x, is_word 64 x -> Z.land x 0xFFFFFFFF = x mod 2 ^ 32).
  { intros x Hx. by apply half_split. }
  assert (Hhi : forall x, Z.shiftr x 32 = x / 2 ^ 32) by (intros x; by apply Z.shiftr_div_pow2).
  intros off v Hin.
  do 6 (apply elem_of_cons in Hin as [[= -> ->]|Hin];
    [rewrite Hread by done; unfold blk_com_read; rewrite Hq; unfold com_read; closed_tests;
     cbn [state set_state set_up desc avail used]; rewrite ?Hhi, ?Hlo by done; reflexivity|]).
  by apply elem_of_nil in Hin.
Qed.
(** * Device configuration *)

(** The [n]-byte field at [s]. *)
Definition field (c : list Z) (s n : nat) : Z := of_le (take n (drop s c)).

Lemma field_le c s n v :
  take n (drop s c) = le_bytes n v -> 0 <= v < 2 ^ (8 * Z.of_nat n) -> field c s n = v.
Proof. intros E Hv. unfold field. rewrite E. by apply of_le_le_bytes_small. Qed.

(** What a driver reads as the [n]-byte field at offset [s]. *)
Definition read_field d (s n : nat) : Z :=
  of_le (read_bar d 0 (OFF_DEVICE + Z.of_nat s) (replicate n 0)).1.2.

Lemma read_field_config d s n :
  (s + n <= 60)%nat -> length (device_config d) = 60%nat -> read_field d s n = field (device_config d) s n.
Proof.
  intros Hs Hl. unfold read_field. simpl. unfold bar0_read.
  rewrite !(proj2 (Z.ltb_ge _ _)) by (unfold OFF_DEVICE, OFF_ISR; lia).
  rewrite (proj2 (Z.ltb_lt _ _)) by (unfold OFF_DEVICE, OFF_NOTIFY; lia). simpl.
  replace (Z.to_nat (OFF_DEVICE + Z.of_nat s - OFF_DEVICE)) with s by lia.
  unfold read_window, field. rewrite length_replicate, resize_le; [done|]. rewrite length_drop. lia.
Qed.

(** What the driver reads about the disk is the disk.  Through BAR 0 it finds
    the capacity in sectors, a 1 MiB segment limit, a chain limit that leaves
    room for header and status, the block size and the number of queues; on a
    read-only disk every discard and write-zeroes field is zero, on a writable
    one ranges are limited to one of [2^21] sectors, aligned to a block, and
    unmapping is allowed. *)
Theorem driver_reads_disk d
    (Hs : is_word 64 (sectors (b_disk d))) (Hb : is_word 32 (block_size (b_disk d)))
    (Hq : Z.of_nat (length (queues d)) <= MAX_QUEUES) :
  read_field d 0 8 = sectors (b_disk d) /\ read_field d 8 4 = 2 ^ 20 /\ read_field d 12 4 = 254 /\
  read_field d 20 4 = block_size (b_disk d) /\ read_field d 34 2 = Z.of_nat (length (queues d)) /\
  if read_only (b_disk d) then
    forall s, (36 <= s < 60)%nat -> read_field d s 1 = 0
  else
    read_field d 36 4 = 2 ^ 21 /\ read_field d 40 4 = 1 /\
    read_field d 44 4 = block_size (b_disk d) / SECTOR_SIZE /\
    read_field d 48 4 = 2 ^ 21 /\ read_field d 52 4 = 1 /\ read_field d 56 1 = 1.
Proof.
  assert (Hl : length (device_config d) = 60%nat).
  { unfold device_config. by destruct (read_only (b_disk d)). }
  assert (Hd : 0 <= block_size (b_disk d) / SECTOR_SIZE < 2 ^ 32).
  { unfold is_word, SECTOR_SIZE in *. change (2 ^ 32) with 4294967296 in *.
    Z.div_mod_to_equations. lia. }
  assert (Ha : u32 (block_size (b_disk d) / SECTOR_SIZE) = block_size (b_disk d) / SECTOR_SIZE)
    by (by apply wrap_small).
  unfold MAX_QUEUES in Hq.
  do 5 (split; [rewrite read_field_config by (done || lia); apply field_le;
    [unfold device_config; by destruct (read_only (b_disk d))|simpl; unfold is_word in *; lia]|]).
  unfold device_config in Hl. destruct (read_only (b_disk d)) eqn:Er.
  - intros s Hs'. rewrite read_field_config; [|lia|by unfold device_config; rewrite Er].
    unfold device_config. rewrite Er. do 60 (destruct s as [|s]; [reflexivity || lia|]). lia.
  - assert (Hl' : length (device_config d) = 60%nat) by (unfold device_config; by rewrite Er).
    repeat (split || (rewrite read_field_config by (done || lia); apply field_le;
      [unfold device_config; rewrite Er, ?Ha; reflexivity|simpl; lia])).
Qed.

End Setup.

(** * The worker after a reset *)

Section Stale.
Context {M : Type} {HM : GuestMemory M} {E : Type} {HE : Engine E}.
Variable alloc : Z -> Z -> option (list Z).
Implicit Types (w : Worker M E).

Definition at_token (d : Done) : nat := Z.to_nat (u32 (token d)).

(** The request in a slot was taken some resets ago, of the queue whose generation
    [generation w] now is. *)
Definition taken_before w (s : Slot) : Prop :=
  exists (dq : Queue) (k : nat), is_word 64 (q_generation dq) /\ (0 < k)%nat /\ Z.of_nat k < 2 ^ 64 /\
    s_generation s = q_generation dq /\ generation w = q_generation (Nat.iter k reset_queue dq).

(** A completion of such a request. *)
Definition is_old w (d : Done) : bool :=
  match slot_at w (u32 (token d)) with Some s => negb (s_generation s =? generation w) | None => false end.

Lemma resets_generation (dq : Queue) k :
  is_word 64 (q_generation dq) -> q_generation (Nat.iter k reset_queue dq) = u64 (q_generation dq + Z.of_nat k).
Proof.
  intros Hd. induction k as [|k IH]; [by rewrite Z.add_0_r, wrap_small|]. cbn [Nat.iter nat_rect]. unfold reset_queue at 1. cbn [q_generation].
  fold (Nat.iter k reset_queue dq). rewrite IH. unfold wrap. rewrite Z.add_mod_idemp_l by lia. f_equal. lia.
Qed.

Lemma before_is_old w d s : slot_at w (u32 (token d)) = Some s -> taken_before w s -> is_old w d = true.
Proof.
  intros Hs (dq & k & Hd & H0 & Hk & Hg & Hw). unfold is_old. rewrite Hs. apply negb_true_iff, Z.eqb_neq.
  rewrite Hw, Hg, resets_generation by done. unfold wrap, is_word in *. intros Heq.
  destruct (decide (q_generation dq + Z.of_nat k < 2 ^ 64)); [rewrite Z.mod_small in Heq by lia; lia|].
  rewrite (Z.mod_eq _ (2 ^ 64)) in Heq by lia.
  assert ((q_generation dq + Z.of_nat k) / 2 ^ 64 = 1) as H1 by (symmetry; apply Z.div_unique with (q_generation dq + Z.of_nat k - 2 ^ 64); lia).
  lia.
Qed.

(** ** Old slots make no difference *)

(** Two workers with the same device, which agree on every slot but those of [D]. *)
Record alike (D : nat -> Prop) w v : Prop := {
  al_mem : mem w = mem v;
  al_disk : disk w = disk v;
  al_generation : generation w = generation v;
  al_engine : engine w = engine v;
  al_used : used_idx w = used_idx v;
  al_pushed : pushed w = pushed v;
  al_length : length (slots w) = length (slots v);
  al_slots : forall i, ~ D i -> slots w !! i = slots v !! i
}.

Lemma alike_insert (D : nat -> Prop) (l k : list (option Slot)) j x :
  length l = length k -> (forall i, ~ D i -> l !! i = k !! i) -> forall i, ~ D i -> <[j := x]> l !! i = <[j := x]> k !! i.
Proof.
  intros Hl H i Hi. destruct (decide (j = i)) as [->|Hj]; [|by rewrite !list_lookup_insert_ne by done; apply H].
  destruct (decide (i < length l)%nat); [by rewrite !list_lookup_insert_eq by lia|by rewrite !list_insert_ge by lia; apply H].
Qed.

Ltac alike := split; simpl; try done; try (by rewrite ?length_insert); by apply alike_insert.

(** The same step of both. *)
Definition in_step (D : nat -> Prop) (f : Worker M E -> Worker M E * nat) : Prop :=
  forall w v, alike D w v -> (f w).2 = (f v).2 /\ alike D (f w).1 (f v).1.

Ltac part w v := intros []; destruct w, v; simpl in *; subst.

Lemma reply_in_step D q h sa x len t : in_step D (fun w => (free_token (reply w q h sa x len) t, 1%nat)).
Proof.
  intros w v. part w v. unfold reply, push. simpl. destruct (push_used _ _ _ _) as [m' idx]. split; [done|alike].
Qed.

Lemma finish_in_step D q t s x : in_step D (fun w => finish w q t s x).
Proof. intros w v H. unfold finish. by apply reply_in_step. Qed.

Lemma resubmit_in_step D q t s : in_step D (fun w => resubmit w q t s).
Proof.
  intros w v. part w v. unfold resubmit, submit. destruct (job_of s) as [j|]; simpl.
  - destruct (submit_job _ t j) as [e' [|]]; [split; [done|alike]|]. apply reply_in_step. alike.
  - apply reply_in_step. alike.
Qed.

Lemma memory_in_step D f m' : in_step D f -> in_step D (fun w => f (set_mem w (m' (mem w)))).
Proof. intros Hf w v H. apply Hf. revert H. part w v. simpl. alike. Qed.

Lemma stage_alike D w v s :
  alike D w v -> (stage alloc w s).2 = (stage alloc v s).2 /\ alike D (stage alloc w s).1 (stage alloc v s).1.
Proof.
  part w v. unfold stage. simpl. destruct (bounce_shape _ _ _) as [[align pad] io].
  destruct (_ && _); [split; [done|alike]|]. destruct (alloc _ _); [|split; [done|alike]].
  destruct (if bool_decide _ then _ else _); (split; [done|alike]).
Qed.

Lemma error_in_step D q t s x : in_step D (fun w => complete_error alloc w q t s x).
Proof.
  intros w v H. unfold complete_error. destruct (_ || _); [by apply resubmit_in_step|]. destruct (_ && is_rw _).
  - destruct (stage_alike D w v s H) as [E1 H1]. destruct (stage alloc w s) as [w1 r1], (stage alloc v s) as [v1 r2].
    simpl in *. subst r2. destruct r1; [by apply finish_in_step|by apply resubmit_in_step].
  - destruct (_ && _); by apply finish_in_step.
Qed.

Lemma moved_in_step D q t s n : in_step D (fun w => complete_moved w q t s n).
Proof.
  intros w v H. unfold complete_moved. pose proof (al_mem _ _ _ H) as Em.
  assert (forall m : M, alike D (set_mem w m) (set_mem v m)) as Hm by (intros m; revert H; part w v; alike).
  destruct (_ <? _).
  - destruct (n =? 0); [|by apply resubmit_in_step]. destruct (bool_decide _); [|by apply finish_in_step].
    rewrite Em. destruct (s_bounce s); [|apply finish_in_step, Hm]. destruct (copy_out _ _) as [m ok].
    apply finish_in_step, Hm.
  - destruct (_ && _); [|by apply finish_in_step]. rewrite Em. destruct (copy_out _ _) as [m ok]. apply finish_in_step, Hm.
Qed.

(** A completion of a slot both have. *)
Lemma complete_in_step (D : nat -> Prop) q d : ~ D (at_token d) -> in_step D (fun w => complete alloc w q d).
Proof.
  intros Hd w v H. unfold complete. assert (slot_at w (u32 (token d)) = slot_at v (u32 (token d))) as ->
    by (unfold slot_at; by rewrite (al_slots _ _ _ H) by exact Hd).
  destruct (slot_at v _) as [s|]; [|split; [done|exact H]].
  assert (alike D (take_slot w (u32 (token d))) (take_slot v (u32 (token d)))) as Ht by (revert H; part w v; alike).
  pose proof (al_generation _ _ _ Ht) as Eg. rewrite Eg. destruct (negb (_ =? _)).
  { split; [done|]. revert Ht. part w v. simpl. alike. }
  destruct (_ <? _); [by apply error_in_step|]. destruct (negb _); [by apply finish_in_step|by apply moved_in_step].
Qed.

(** ** What a completion leaves *)

(** The slots but one, and the generation. *)
Record elsewhere (t : nat) w w' : Prop := {
  el_generation : generation w' = generation w;
  el_slots : forall i, i <> t -> slots w' !! i = slots w !! i;
  el_free : forall x, x ∈ free w -> x ∈ free w'
}.

Lemma elsewhere_trans t w1 w2 w3 : elsewhere t w1 w2 -> elsewhere t w2 w3 -> elsewhere t w1 w3.
Proof. intros [G1 S1 F1] [G2 S2 F2]. split; [congruence| |auto]. intros i Hi. by rewrite S2, S1. Qed.

Lemma finish_elsewhere t w q x s st : elsewhere t w (finish w q x s st).1.
Proof. unfold finish, reply, push. simpl. destruct (push_used _ _ _ _). split; try done. intros x0. by right. Qed.

Lemma resubmit_elsewhere w q x s : elsewhere (Z.to_nat x) w (resubmit w q x s).1.
Proof.
  unfold resubmit, submit, reply, push. destruct (job_of s); [destruct (submit_job _ _ _) as [e [|]]|]; simpl;
    try destruct (push_used _ _ _ _); split; simpl; try done; try (intros y; by right).
  intros i Hi. by rewrite list_lookup_insert_ne.
Qed.

Lemma stage_elsewhere t w s : elsewhere t w (stage alloc w s).1.
Proof. unfold stage. destruct (bounce_shape _ _ _) as [[a p] io]. by repeat case_match; split. Qed.

Lemma complete_elsewhere w q d : elsewhere (at_token d) w (complete alloc w q d).1.
Proof.
  unfold complete. destruct (slot_at w _) as [s|]; [|by split].
  assert (elsewhere (at_token d) w (take_slot w (u32 (token d)))) as Ht.
  { split; [done| |done]. intros i Hi. simpl. by rewrite list_lookup_insert_ne. }
  destruct (negb (_ =? _)); [split; simpl; [done|apply Ht|intros y; by right]|]. eapply elsewhere_trans; [exact Ht|]. clear Ht.
  assert (forall w s', elsewhere (at_token d) w (resubmit w q (u32 (token d)) s').1) as Hr by (intros; apply resubmit_elsewhere).
  assert (forall w m s' st, elsewhere (at_token d) w (finish (set_mem w m) q (u32 (token d)) s' st).1) as Hm.
  { intros w1 m s' st. apply (elsewhere_trans _ _ (set_mem w1 m)); [by split|apply finish_elsewhere]. }
  pose proof (finish_elsewhere (at_token d)) as Hf. pose proof (stage_elsewhere (at_token d)) as Hs.
  unfold complete_error, complete_moved.
  repeat first [ apply Hr | apply Hf | apply Hm | match goal with |- context [if ?b then _ else _] => destruct b end
    | match goal with |- context [stage alloc ?w ?s] =>
        specialize (Hs w s); destruct (stage alloc w s) as [w1 []]; (eapply elsewhere_trans; [exact Hs|]) end
    | case_match ].
Qed.

(** Where an old request was: it waits still, or its slot and token are free. *)
Definition gone w (i : nat) : Prop := slots w !! i = Some None /\ Z.of_nat i ∈ free w.
Definition parked_old w (i : nat) : Prop := exists s, slots w !! i = Some (Some s) /\ s_generation s <> generation w.

Lemma is_old_at w d : is_old w d = true <-> parked_old w (at_token d).
Proof.
  unfold is_old, parked_old, slot_at, at_token. destruct (slots w !! _) as [[s|]|]; simpl; [|naive_solver..].
  rewrite negb_true_iff, Z.eqb_neq. naive_solver.
Qed.

Lemma at_token_nat d : Z.of_nat (at_token d) = u32 (token d).
Proof. unfold at_token. pose proof (wrap_range 32 (token d) ltac:(lia)). unfold is_word in *. lia. Qed.

Lemma gone_elsewhere w w' t i : elsewhere t w w' -> i <> t -> gone w i -> gone w' i.
Proof. intros [_ Hs Hf] Hi [H1 H2]. split; [by rewrite Hs|by apply Hf]. Qed.

Lemma parked_elsewhere w w' t i : elsewhere t w w' -> i <> t -> parked_old w i -> parked_old w' i.
Proof. intros [Hg Hs _] Hi (s & H1 & H2). exists s. by rewrite Hs, Hg. Qed.

Lemma complete_old (D : nat -> Prop) w v q d :
  D (at_token d) -> alike D w v -> gone w (at_token d) \/ parked_old w (at_token d) ->
  (complete alloc w q d).2 = 0%nat /\ alike D (complete alloc w q d).1 v /\ gone (complete alloc w q d).1 (at_token d).
Proof.
  intros HD Ha [Hg|(s & Hs & Hn)]; unfold complete, slot_at; fold (at_token d).
  - by rewrite (proj1 Hg).
  - rewrite Hs. cbn [mbind option_bind id]. rewrite (proj2 (Z.eqb_neq (s_generation s) _)) by exact Hn. cbn [negb fst snd].
    split; [done|]. split.
    + destruct Ha. split; simpl; try done; [by rewrite length_insert|]. intros i Hi.
      rewrite list_lookup_insert_ne by (intros <-; by apply Hi). auto.
    + split; simpl; [apply list_lookup_insert_eq; by eapply lookup_lt_Some|]. rewrite at_token_nat. by left.
Qed.

Lemma complete_all_old (D : nat -> Prop) {HD : forall d, Decision (D (at_token d))} q ds : forall w v n,
  alike D w v -> (forall i, D i -> gone w i \/ parked_old w i) ->
  let r := complete_all alloc w q ds n in
  let r' := complete_all alloc v q (filter (fun d => ~ D (at_token d)) ds) n in
  r.2 = r'.2 /\ alike D r.1 r'.1 /\ (forall i, D i -> gone w i -> gone r.1 i) /\
  (forall d, d ∈ ds -> D (at_token d) -> gone r.1 (at_token d)).
Proof.
  induction ds as [|d ds IH]; intros w v n Ha Hp; cbv zeta.
  { split; [done|]. split; [done|]. split; [auto|]. intros d Hd. by apply elem_of_nil in Hd. }
  pose proof (complete_elsewhere w q d) as He. cbn [complete_all]. destruct (decide (D (at_token d))) as [Hd|Hd].
  - rewrite filter_cons_False by tauto. destruct (complete_old D w v q d Hd Ha (Hp _ Hd)) as (En & Ha' & Hg).
    destruct (complete alloc w q d) as [w1 m]. simpl in *. subst m. rewrite Nat.add_0_r.
    destruct (IH w1 v n Ha') as (Er & Hl & Hk & Hf).
    { intros i Hi. destruct (decide (i = at_token d)) as [->|Hne]; [by left|].
      destruct (Hp i Hi); [left; by eapply gone_elsewhere|right; by eapply parked_elsewhere]. }
    split; [exact Er|]. split; [exact Hl|]. split.
    + intros i Hi Hg'. apply Hk; [done|]. destruct (decide (i = at_token d)) as [->|]; [done|by eapply gone_elsewhere].
    + intros d' [->|Hin]%elem_of_cons Hd'; [by apply Hk|by apply Hf].
  - rewrite filter_cons_True by done. cbn [complete_all]. destruct (complete_in_step D q d Hd w v Ha) as [En Ha'].
    destruct (complete alloc w q d) as [w1 m], (complete alloc v q d) as [v1 m']. simpl in *. subst m'.
    destruct (IH w1 v1 (n + m)%nat Ha') as (Er & Hl & Hk & Hf).
    { intros i Hi. assert (i <> at_token d) by (intros ->; by apply Hd).
      destruct (Hp i Hi); [left; by eapply gone_elsewhere|right; by eapply parked_elsewhere]. }
    split; [exact Er|]. split; [exact Hl|]. split.
    + intros i Hi Hg'. apply Hk; [done|]. eapply gone_elsewhere; [exact He| |done]. intros ->. by apply Hd.
    + intros d' [->|Hin]%elem_of_cons Hd'; [done|by apply Hf].
Qed.

(** C38: After a reset the device does not touch the guest's memory for the old
    driver.  A request taken any number of resets ago (short of the 2^64 after
    which the generation is the same again) is told from the current
    ones, whatever else the worker holds; and whatever completions come, in any
    order and with any results, old and current mixed, guest memory, the used
    ring and what the engine was given end as if the old ones had not come, with
    as many used entries to interrupt for, and so do the slots of the current
    requests -- with old completions alone all of that is untouched; and each
    completed old request's slot and token are free again. *)
Theorem reset_silences_worker w q (ds : list Done) :
  (forall d s, slot_at w (u32 (token d)) = Some s -> taken_before w s -> is_old w d = true) /\
  let '(w1, n1) := complete_all alloc w q ds 0 in
  let '(w2, n2) := complete_all alloc w q (filter (fun d => is_old w d = false) ds) 0 in
  n1 = n2 /\ mem w1 = mem w2 /\ used_idx w1 = used_idx w2 /\ pushed w1 = pushed w2 /\ engine w1 = engine w2 /\
  (forall d, is_old w d = false -> slot_at w1 (u32 (token d)) = slot_at w2 (u32 (token d))) /\
  (forall d, d ∈ ds -> is_old w d = true -> slot_at w1 (u32 (token d)) = None /\ u32 (token d) ∈ free w1) /\
  (Forall (fun d => is_old w d = true) ds ->
     n1 = 0%nat /\ mem w1 = mem w /\ used_idx w1 = used_idx w /\ pushed w1 = pushed w /\ engine w1 = engine w).
Proof.
  split; [intros d s; apply before_is_old|]. set (D := parked_old w).
  assert (forall d, Decision (D (at_token d))) as HD.
  { intros d. destruct (is_old w d) eqn:Eo; [left|right; intros H%is_old_at; congruence]. by apply is_old_at. }
  assert (alike D w w) as Ha by (by split). destruct (complete_all_old D q ds w w 0 Ha) as (En & [] & _ & Hg); [by right|].
  assert (filter (fun d => ~ D (at_token d)) ds = filter (fun d => is_old w d = false) ds) as Ef.
  { apply list_filter_iff. intros d. unfold D. rewrite <- is_old_at. by destruct (is_old w d). }
  rewrite Ef in *. set (fresh := filter _ ds) in *.
  destruct (complete_all alloc w q ds 0) as [w1 n1] eqn:E1, (complete_all alloc w q fresh 0) as [w2 n2] eqn:E2. simpl in *.
  do 5 (split; [done|]). split.
  { intros d Hd. unfold slot_at. fold (at_token d). rewrite al_slots0; [done|]. unfold D. rewrite <- is_old_at. congruence. }
  split.
  { intros d Hd Ho%is_old_at. destruct (Hg d Hd Ho) as [H1 H2]. rewrite at_token_nat in H2. unfold slot_at.
    fold (at_token d). by rewrite H1. }
  intros Hall. assert (fresh = []) as Enil.
  { unfold fresh. clear -Hall. induction Hall as [|d ds Hd _ IH]; [done|]. by rewrite filter_cons_False by congruence. }
  rewrite Enil in E2. injection E2 as <- <-. done.
Qed.


End Stale.

(** * A device with two queues *)

Definition dev2 : BlkDevice RouteLog := blk_new test_disk 2 (fun i => 100 + i).

(** The driver sets up queue 1 and resets the device. *)
Definition dev2_setup : BlkDevice RouteLog := program dev2 (setup_writes 1 64 0x4000 0x5000 0x6000).

Lemma dev2_reach : rtc dev_step dev2 (write_bar dev2 0 CFG_QUEUE_SEL [1; 0]).1.
Proof. apply rtc_once, step_write_bar; [done|]. repeat constructor; done. Qed.

Lemma blk_device_invariant_witness : dev_ok dev2 (write_bar dev2 0 CFG_QUEUE_SEL [1; 0]).1.
Proof.
  exact (blk_device_invariant test_disk 2 (fun i => 100 + i) dev2 _ (BlkDevice_new_eq _ _ _) dev2_reach).
Defined.

Lemma reset_clean_witness :
  queues (write_bar dev2_setup 0 (OFF_COMMON + CFG_STATUS) [0]).1 = reset_queue <$> queues dev2_setup.
Proof. exact (proj1 (reset_clean dev2_setup [0] eq_refl)). Defined.

Lemma dev2_queue1 : exists q, queues dev2 !! 1%nat = Some q /\ kick q = 101 /\ regs_ok (state q).
Proof. eexists. split; [reflexivity|]. split; [done|apply fresh_regs_ok]. Qed.

Lemma doorbell_matches_mmio_witness :
  (write_bar dev2 0 (OFF_NOTIFY + 1 * NOTIFY_MULT) [1; 0]).2 = true.
Proof.
  destruct dev2_queue1 as (q & Hq & _).
  destruct (doorbell_matches_mmio test_disk 2 (fun i => 100 + i) dev2 dev2 1 q [1; 0]
    (BlkDevice_new_eq _ _ _) (rtc_refl _ _) Hq) as (_ & _ & Hw).
  exact (f_equal snd Hw).
Defined.

Lemma queue_setup_roundtrip_witness :
  (read_bar dev2_setup 0 (OFF_COMMON + CFG_QUEUE_AVAIL_LO) (replicate 4 0)).1.2 = le_bytes 4 0x5000.
Proof.
  destruct dev2_queue1 as (q & Hq & _ & Hr).
  destruct (queue_setup_roundtrip dev2 1 q 64 0x4000 0x5000 0x6000 Hq) as [_ Hread];
    [lia|exact Hr|unfold is_word; lia..|].
  apply (Hread CFG_QUEUE_AVAIL_LO (0x5000 mod 2 ^ 32)). right. right. left.
Defined.

Lemma driver_reads_disk_witness : read_field dev2 0 8 = sectors test_disk.
Proof.
  assert (Hs : is_word 64 (sectors test_disk)) by (unfold is_word; simpl; lia).
  assert (Hb : is_word 32 (block_size test_disk)) by (unfold is_word; simpl; lia).
  assert (Hq : Z.of_nat (length (queues dev2)) <= MAX_QUEUES) by (by vm_compute).
  exact (proj1 (driver_reads_disk dev2 Hs Hb Hq)).
Defined.

(** The worker holds a read taken under generation 0, two resets ago, and beside it
    one of the driver there is now. *)
Definition current_slot : Slot :=
  {| s_generation := 2; s_head := 3; s_op := s_op slot1; s_status := s_status slot1; s_segments := s_segments slot1;
     s_iovs := s_iovs slot1; s_bounce := s_bounce slot1; s_offset := s_offset slot1; s_done := s_done slot1;
     s_total := s_total slot1; s_io_len := s_io_len slot1; s_bounced := s_bounced slot1 |}.

Definition mixed_worker : Worker FlatRam LogEngine :=
  {| mem := ram_zero 0x10000; disk := test_disk; generation := 2; engine := {| log := [] |};
     slots := [Some slot1; Some current_slot]; free := []; want_drain := false; used_idx := 0;
     notify_suppressed := false; requests := 2; interrupts := 0; staged := 0; in_flight := 2;
     taken := [0; 3]; pushed := []; dropped := [] |}.

Definition queue_before : Queue :=
  {| index := 0; state := fresh_qstate; kick := 100; q_generation := 0 |}.

Definition old_done : Done := {| token := 0; result := 4096 |}.
Definition current_done : Done := {| token := 1; result := 4096 |}.

Lemma reset_silences_worker_witness :
  is_old mixed_worker old_done = true /\ is_old mixed_worker current_done = false /\
  mem (complete_all test_alloc mixed_worker fresh_qstate [old_done; current_done] 0).1 =
    mem (complete_all test_alloc mixed_worker fresh_qstate [current_done] 0).1.
Proof.
  destruct (reset_silences_worker test_alloc mixed_worker fresh_qstate [old_done; current_done]) as [Hold H].
  split; [|split; [reflexivity|]].
  - apply (Hold old_done slot1 eq_refl). exists queue_before, 2%nat. unfold is_word. simpl. split_and!; [lia..|reflexivity|reflexivity].
  - change (filter (fun d => is_old mixed_worker d = false) [old_done; current_done]) with [current_done] in H.
    destruct (complete_all test_alloc mixed_worker fresh_qstate [old_done; current_done] 0) as [w1 n1],
      (complete_all test_alloc mixed_worker fresh_qstate [current_done] 0) as [w2 n2]. exact (proj1 (proj2 H)).
Defined.
