(* ===== verification/HostMapper.v ===== *)
(** The interface through which a device backs guest addresses with host memory,
    the trait [HostMemoryMapper] of [virtio-devices/src/memmap.rs].  The flag is
    false on an error.  [MemSlots] implements it; the GPU is its client. *)

From S2P Require Import Prelude.

Class HostMemoryMapper (P : Type) := {
  hm_host_addr : P -> Z -> Z -> option Z;
  hm_withdraw : P -> Z -> Z -> P * bool;
  hm_map : P -> Z -> Z -> Z -> P * bool;
  hm_unmap : P -> Z -> Z -> P * bool
}.

(** What a client may rely on, in terms of the guest addresses that have a slot
    of their own: mapping adds exactly the address asked for, which had none;
    unmapping takes it away, and fails without a slot there; nothing else
    changes the set. *)
Class HostMemoryMapperLaws (P : Type) `{HostMemoryMapper P} (slots : P -> gset Z) : Prop := {
  map_adds p a h n p' : hm_map p a h n = (p', true) -> (a ∉ slots p) /\ slots p' = {[a]} ∪ slots p;
  map_fails p a h n p' : hm_map p a h n = (p', false) -> slots p' = slots p;
  unmap_removes p a n p' : hm_unmap p a n = (p', true) -> (a ∈ slots p) /\ slots p' = slots p ∖ {[a]};
  unmap_shrinks p a n p' : hm_unmap p a n = (p', false) -> (slots p' ⊆ slots p) /\ ((slots p ∖ {[a]}) ⊆ slots p');
  withdraw_keeps p a n p' ok : hm_withdraw p a n = (p', ok) -> slots p' = slots p
}.
