(* ===== verification/MemSlots.v ===== *)
(** KVM memory slots handed out while the guest runs, [vmm/src/memslot.rs], the
    implementation of [HostMemoryMapper] of [virtio-devices/src/memmap.rs]: the
    GPU's window as one slot, and a slot per resource that cannot be placed in
    it.

    The kernel (mmap and KVM_SET_USER_MEMORY_REGION) is the class [Host]; a
    call may fail whenever it likes. *)

From S2P Require Import Prelude HostMapper.

Class Host (H : Type) := {
  (** A fresh reservation of a size; [None] is MAP_FAILED. *)
  reserve : H -> Z -> H * option Z;
  unreserve : H -> Z -> Z -> H;
  (** Replace part of a reservation by PROT_NONE memory. *)
  overwrite : H -> Z -> Z -> H * bool;
  (** Slot, guest address, host address, size; size zero removes the slot. *)
  set_user_memory_region : H -> Z -> Z -> Z -> Z -> H * bool
}.

Section Slots.
Context {H : Type} {HH : Host H}.

Record Window := { guest_base : Z; host_base : Z; w_size : Z }.

(** [free_slots] is kept top of the stack first.  The last two fields are
    histories the code does not keep: the slot the window took, and slots whose
    removal the kernel refused. *)
Record MemorySlots := {
  vm_fd : H;
  next_slot : Z;
  window : option Window;
  mapped : gmap Z Z;
  free_slots : list Z;
  window_slot : list Z;
  lost : list Z
}.

Inductive SlotError := WindowOpen | ReserveFailed | RegionRefused | AlreadyMapped | NotMapped | OutsideWindow | OverwriteFailed.

Definition MemorySlots_new (vm : H) (first_free_slot : Z) : MemorySlots :=
  {| vm_fd := vm; next_slot := first_free_slot; window := None; mapped := ∅; free_slots := [];
     window_slot := []; lost := [] |}.

Definition set_region (s : MemorySlots) (slot guest_addr host_addr size : Z) : H * bool :=
  set_user_memory_region (vm_fd s) slot guest_addr host_addr size.

Definition open_window (s : MemorySlots) (base size : Z) : MemorySlots * (SlotError + unit) :=
  match window s with
  | Some _ => (s, inl WindowOpen)
  | None =>
      match reserve (vm_fd s) size with
      | (h, None) =>
          ({| vm_fd := h; next_slot := next_slot s; window := None; mapped := mapped s;
              free_slots := free_slots s; window_slot := window_slot s; lost := lost s |},
           inl ReserveFailed)
      | (h, Some host) =>
          let slot := next_slot s in
          let '(h, ok) := set_user_memory_region h slot base host size in
          if ok : bool then
            ({| vm_fd := h; next_slot := u32 (slot + 1);
                window := Some {| guest_base := base; host_base := host; w_size := size |};
                mapped := mapped s; free_slots := free_slots s; window_slot := slot :: window_slot s;
                lost := lost s |}, inr tt)
          else
            ({| vm_fd := unreserve h host size; next_slot := u32 (slot + 1); window := None;
                mapped := mapped s; free_slots := slot :: free_slots s;
                window_slot := window_slot s; lost := lost s |}, inl RegionRefused)
      end
  end.

Definition host_addr (s : MemorySlots) (guest_addr size : Z) : option Z :=
  w ← window s;
  offset ← checked_sub guest_addr (guest_base w);
  end_ ← checked_add 64 offset size;
  if w_size w <? end_ then None else Some (host_base w ⊕ offset).

Definition withdraw (s : MemorySlots) (guest_addr size : Z) : MemorySlots * (SlotError + unit) :=
  match host_addr s guest_addr size with
  | None => (s, inl OutsideWindow)
  | Some host =>
      let '(h, ok) := overwrite (vm_fd s) host size in
      ({| vm_fd := h; next_slot := next_slot s; window := window s; mapped := mapped s;
          free_slots := free_slots s; window_slot := window_slot s; lost := lost s |},
       if ok : bool then inr tt else inl OverwriteFailed)
  end.

Definition map (s : MemorySlots) (guest_addr host size : Z) : MemorySlots * (SlotError + unit) :=
  if bool_decide (is_Some (mapped s !! guest_addr)) then (s, inl AlreadyMapped)
  else
    let '(slot, rest, next) :=
      match free_slots s with
      | recycled :: rest => (recycled, rest, next_slot s)
      | [] => (next_slot s, [], u32 (next_slot s + 1))
      end in
    let '(h, ok) := set_region s slot guest_addr host size in
    if ok : bool then
      ({| vm_fd := h; next_slot := next; window := window s;
          mapped := <[guest_addr := slot]> (mapped s); free_slots := rest;
          window_slot := window_slot s; lost := lost s |}, inr tt)
    else
      ({| vm_fd := h; next_slot := next; window := window s; mapped := mapped s;
          free_slots := slot :: rest; window_slot := window_slot s; lost := lost s |},
       inl RegionRefused).

Definition unmap (s : MemorySlots) (guest_addr : Z) : MemorySlots * (SlotError + unit) :=
  match mapped s !! guest_addr with
  | None => (s, inl NotMapped)
  | Some slot =>
      let '(h, ok) := set_region s slot guest_addr 0 0 in
      let m := delete guest_addr (mapped s) in
      if ok : bool then
        ({| vm_fd := h; next_slot := next_slot s; window := window s; mapped := m;
            free_slots := slot :: free_slots s; window_slot := window_slot s; lost := lost s |}, inr tt)
      else
        ({| vm_fd := h; next_slot := next_slot s; window := window s; mapped := m;
            free_slots := free_slots s; window_slot := window_slot s; lost := slot :: lost s |},
         inl RegionRefused)
  end.

(** The methods as the trait has them. *)
Definition succeeded {S : Type} (c : S * (SlotError + unit)) : S * bool :=
  (c.1, match c.2 with inr _ => true | inl _ => false end).

#[export] Instance MemorySlots_mapper : HostMemoryMapper MemorySlots := {
  hm_host_addr := host_addr;
  hm_withdraw s a n := succeeded (withdraw s a n);
  hm_map s a h n := succeeded (map s a h n);
  hm_unmap s a _ := succeeded (unmap s a)
}.

End Slots.

Arguments MemorySlots : clear implicits.
