(* ===== verification/MemSlotsFacts.v ===== *)
(** Slot numbers are neither shared nor lost, are used again, and the window's
    addresses stay inside its reservation; then a run over a kernel that refuses
    on demand. *)

From S2P Require Import Prelude HostMapper MemSlots.

Section Facts.
Context {H : Type} {HH : Host H}.
Implicit Types (s : MemorySlots H).

Inductive slot_op :=
  | OpenWindow (base size : Z)
  | Map (guest_addr host size : Z)
  | Unmap (guest_addr : Z)
  | Withdraw (guest_addr size : Z).

Definition slot_step s (o : slot_op) : MemorySlots H :=
  match o with
  | OpenWindow base size => (open_window s base size).1
  | Map g h size => (map s g h size).1
  | Unmap g => (unmap s g).1
  | Withdraw g size => (withdraw s g size).1
  end.

Definition run_slots s (ops : list slot_op) : MemorySlots H := foldl slot_step s ops.

(** Every number handed out so far. *)
Definition numbers s : list Z :=
  (map_to_list (mapped s)).*2 ++ free_slots s ++ window_slot s ++ lost s.

(** [n] calls so far. *)
Record slots_inv (first : Z) (n : nat) s : Prop := {
  si_next : first <= next_slot s <= first + Z.of_nat n;
  si_numbers : numbers s ≡ₚ seqZ first (next_slot s - first);
  si_window : length (window_slot s) = match window s with Some _ => 1%nat | None => 0%nat end
}.

Lemma slots_inv_weaken first n s : slots_inv first n s -> slots_inv first (S n) s.
Proof. intros []. split; [lia|done..]. Qed.

(** Taking the next number. *)
Lemma seqZ_next first next : first <= next -> seqZ first (next + 1 - first) ≡ₚ next :: seqZ first (next - first).
Proof.
  intros Hle. replace (next + 1 - first) with ((next - first) + 1) by lia.
  rewrite seqZ_app by lia. replace (first + (next - first)) with next by lia.
  change (seqZ next 1) with [next]. by rewrite Permutation_app_comm.
Qed.

Lemma numbers_insert (m : gmap Z Z) g x : m !! g = None ->
  (map_to_list (<[g := x]> m)).*2 ≡ₚ x :: (map_to_list m).*2.
Proof. intros Hg. by rewrite map_to_list_insert. Qed.

Lemma numbers_delete (m : gmap Z Z) g x : m !! g = Some x ->
  x :: (map_to_list (delete g m)).*2 ≡ₚ (map_to_list m).*2.
Proof. intros Hg. by rewrite <- (map_to_list_delete m g x Hg). Qed.

Lemma fresh_next first n s :
  slots_inv first n s -> 0 <= first -> first + Z.of_nat (S n) < 2 ^ 32 ->
  u32 (next_slot s + 1) = next_slot s + 1.
Proof. intros [] H0 Hn. apply wrap_small. unfold is_word. lia. Qed.

Lemma open_window_inv first n s base size :
  slots_inv first n s -> 0 <= first -> first + Z.of_nat (S n) < 2 ^ 32 ->
  slots_inv first (S n) (open_window s base size).1.
Proof.
  intros Hi H0 Hn. pose proof (fresh_next _ _ _ Hi H0 Hn) as Hf. pose proof Hi as [Hnx Hnum Hw].
  unfold open_window. destruct (window s) as [w|] eqn:Ew; [by apply slots_inv_weaken|].
  destruct (reserve (vm_fd s) size) as [h [host|]].
  2: { split; simpl; [lia|done|by rewrite Hw]. }
  destruct (set_user_memory_region h _ _ _ _) as [h' []]; simpl; rewrite Hf;
    (split; simpl; [lia| |by rewrite ?Hw]); rewrite seqZ_next, <- Hnum by lia; unfold numbers; simpl;
    solve_Permutation.
Qed.

Lemma map_inv first n s g host size :
  slots_inv first n s -> 0 <= first -> first + Z.of_nat (S n) < 2 ^ 32 ->
  slots_inv first (S n) (map s g host size).1.
Proof.
  intros Hi H0 Hn. pose proof (fresh_next _ _ _ Hi H0 Hn) as Hf. pose proof Hi as [Hnx Hnum Hw].
  unfold map. case_bool_decide as Hg; [by apply slots_inv_weaken|].
  apply eq_None_not_Some in Hg. unfold numbers in Hnum.
  destruct (free_slots s) as [|x rest] eqn:Ef.
  - destruct (set_region _ _ _ _ _) as [h []]; simpl; rewrite Hf;
      (split; simpl; [lia| |done]); rewrite seqZ_next, <- Hnum by lia; unfold numbers; simpl;
      rewrite ?numbers_insert by done; solve_Permutation.
  - destruct (set_region _ _ _ _ _) as [h []]; simpl;
      (split; simpl; [lia| |done]); rewrite <- Hnum; unfold numbers; simpl;
      rewrite ?numbers_insert by done; solve_Permutation.
Qed.

Lemma unmap_inv first n s g : slots_inv first n s -> slots_inv first (S n) (unmap s g).1.
Proof.
  intros Hi. pose proof Hi as [Hnx Hnum Hw]. unfold unmap.
  destruct (mapped s !! g) as [x|] eqn:Eg; [|by apply slots_inv_weaken].
  destruct (set_region _ _ _ _ _) as [h []]; simpl; (split; simpl; [lia| |done]);
    rewrite <- Hnum; unfold numbers; simpl; rewrite <- (numbers_delete _ _ _ Eg); solve_Permutation.
Qed.

Lemma withdraw_inv first n s g size : slots_inv first n s -> slots_inv first (S n) (withdraw s g size).1.
Proof.
  intros Hi. unfold withdraw. destruct (host_addr s g size); [|by apply slots_inv_weaken].
  destruct (overwrite _ _ _) as [h ok]. destruct Hi. split; [simpl; lia|done..].
Qed.

Lemma slot_step_inv first n s o :
  slots_inv first n s -> 0 <= first -> first + Z.of_nat (S n) < 2 ^ 32 ->
  slots_inv first (S n) (slot_step s o).
Proof.
  destruct o; simpl; auto using open_window_inv, map_inv, unmap_inv, withdraw_inv.
Qed.

Lemma slots_inv_new (vm : H) first : slots_inv first 0 (MemorySlots_new vm first).
Proof. split; simpl; [lia| |done]. unfold numbers. simpl. rewrite map_to_list_empty. by rewrite Z.sub_diag. Qed.

Lemma run_slots_inv first n s ops :
  slots_inv first n s -> 0 <= first -> first + Z.of_nat (n + length ops) < 2 ^ 32 ->
  slots_inv first (n + length ops) (run_slots s ops).
Proof.
  revert n s. induction ops as [|o ops IH]; intros n s Hi H0 Hn; simpl in *.
  { by rewrite Nat.add_0_r. }
  rewrite <- Nat.add_succ_comm. apply IH; [|lia|lia]. apply slot_step_inv; [done|lia|lia].
Qed.

(** Slot numbers are neither shared nor leaked.  After any sequence of
    window openings, maps, unmaps and withdrawals, whatever the kernel refuses,
    every number handed out since the first free one is in exactly one place:
    backing one guest address, waiting to be reused, holding the window, or
    lost to an unmap the kernel refused; so two live mappings never share a
    slot, and no slot of guest RAM is ever handed out. *)
Theorem slots_partition (vm : H) (first : Z) (ops : list slot_op)
    (H0 : 0 <= first) (Hn : first + Z.of_nat (length ops) < 2 ^ 32) :
  let s := run_slots (MemorySlots_new vm first) ops in
  numbers s ≡ₚ seqZ first (next_slot s - first) /\ NoDup (numbers s) /\
  (forall g x, mapped s !! g = Some x -> first <= x /\ (x ∉ free_slots s) /\ (x ∉ window_slot s)) /\
  (forall g g' x, mapped s !! g = Some x -> mapped s !! g' = Some x -> g = g').
Proof.
  intros s. destruct (run_slots_inv first 0 _ ops (slots_inv_new vm first) H0 Hn) as [Hnx Hp _]. fold s in Hnx, Hp.
  assert (Hnd : NoDup (numbers s)) by (rewrite Hp; apply NoDup_seqZ).
  split; [done|]. split; [done|]. unfold numbers in Hnd. apply NoDup_app in Hnd as (Hm & Hd & _).
  assert (Hin : forall g x, mapped s !! g = Some x -> x ∈ (map_to_list (mapped s)).*2).
  { intros g x Hg. apply list_elem_of_fmap. exists (g, x). split; [done|]. by apply elem_of_map_to_list. }
  split.
  - intros g x Hg. apply Hin in Hg as Hx. split.
    + assert (Hall : x ∈ numbers s) by (apply elem_of_app; by left).
      rewrite Hp in Hall. apply elem_of_seqZ in Hall. lia.
    + specialize (Hd x Hx). rewrite !elem_of_app in Hd. tauto.
  - intros g g' x Hg Hg'. apply elem_of_map_to_list in Hg, Hg'.
    apply list_elem_of_lookup in Hg as [i Hi], Hg' as [j Hj].
    assert (i = j) as ->; [|congruence].
    eapply (NoDup_lookup _ i j x Hm); by rewrite list_lookup_fmap, ?Hi, ?Hj.
Qed.

(** * Reuse *)

(** Maps are only asked for while fewer than [n] addresses are mapped. *)
Fixpoint within (n : nat) s (ops : list slot_op) : Prop :=
  match ops with
  | [] => True
  | o :: ops =>
      match o with Map _ _ _ => (size (mapped s) < n)%nat | _ => True end /\ within n (slot_step s o) ops
  end.

Fixpoint openings (ops : list slot_op) : nat :=
  match ops with
  | [] => 0
  | OpenWindow _ _ :: ops => S (openings ops)
  | _ :: ops => openings ops
  end.

(** A number is taken fresh only when none is free. *)
Lemma step_bound first n s o N B :
  slots_inv first n s -> 0 <= first -> first + Z.of_nat (S n) < 2 ^ 32 ->
  match o with Map _ _ _ => (size (mapped s) < N)%nat | _ => True end ->
  Z.of_nat (length (window_slot s)) <= B ->
  next_slot s - first <= Z.of_nat N + B + Z.of_nat (length (lost s)) ->
  let B' := match o with OpenWindow _ _ => B + 1 | _ => B end in
  Z.of_nat (length (window_slot (slot_step s o))) <= B' /\
  next_slot (slot_step s o) - first <= Z.of_nat N + B' + Z.of_nat (length (lost (slot_step s o))).
Proof.
  intros Hi H0 Hn Hw HB Hb. pose proof (fresh_next _ _ _ Hi H0 Hn) as Hf.
  pose proof (Permutation_length (si_numbers _ _ _ Hi)) as Hlen. pose proof (si_next _ _ _ Hi).
  unfold numbers in Hlen. rewrite !length_app, length_fmap, length_map_to_list, length_seqZ in Hlen.
  destruct o as [base sz|g host sz|g|g sz]; simpl.
  - unfold open_window. destruct (window s); [simpl; lia|].
    destruct (reserve _ _) as [h [host|]]; [|simpl; lia].
    destruct (set_user_memory_region _ _ _ _ _) as [h' []]; simpl; rewrite Hf; lia.
  - unfold map. case_bool_decide; [simpl; lia|].
    destruct (free_slots s); destruct (set_region _ _ _ _ _) as [h []]; simpl in *; rewrite ?Hf; lia.
  - unfold unmap. destruct (mapped s !! g); [|simpl; lia].
    destruct (set_region _ _ _ _ _) as [h []]; simpl; lia.
  - unfold withdraw. destruct (host_addr s g sz); [|simpl; lia].
    destruct (overwrite _ _ _) as [h ok]. simpl. lia.
Qed.

(** Slot numbers are used again, so a long session does not run out.  However
    many maps and unmaps there are, if never more than [n] addresses are mapped
    at once then the numbers ever taken are at most [n], plus one per opening of
    the window, plus one per removal the kernel refused. *)
Theorem slots_recycled (vm : H) (first : Z) (ops : list slot_op) (n : nat)
    (H0 : 0 <= first) (Hn : first + Z.of_nat (length ops) < 2 ^ 32)
    (Hw : within n (MemorySlots_new vm first) ops) :
  let s := run_slots (MemorySlots_new vm first) ops in
  next_slot s <= first + Z.of_nat n + Z.of_nat (openings ops) + Z.of_nat (length (lost s)).
Proof.
  intros s.
  enough (Hg : forall ops k s0 B, slots_inv first k s0 -> first + Z.of_nat (k + length ops) < 2 ^ 32 ->
    within n s0 ops -> Z.of_nat (length (window_slot s0)) <= B ->
    next_slot s0 - first <= Z.of_nat n + B + Z.of_nat (length (lost s0)) ->
    next_slot (run_slots s0 ops) - first <=
      Z.of_nat n + (B + Z.of_nat (openings ops)) + Z.of_nat (length (lost (run_slots s0 ops)))).
  { specialize (Hg ops 0%nat _ 0 (slots_inv_new vm first) Hn Hw). simpl in Hg. fold s in Hg. lia. }
  clear Hn Hw s ops. intros ops. induction ops as [|o ops IH]; intros k s0 B Hi Hn Hw HB Hb; simpl in *; [lia|].
  destruct Hw as [Ho Hw].
  destruct (step_bound first k s0 o n B Hi H0 ltac:(lia) Ho HB Hb) as [HB' Hb'].
  specialize (IH (S k) (slot_step s0 o) _ (slot_step_inv first k s0 o Hi H0 ltac:(lia))
    ltac:(lia) Hw HB' Hb'). destruct o; simpl in *; lia.
Qed.

(** * The window *)

(** An address inside the window is an address inside the reservation.  When
    [host_addr] answers for a guest range, the whole range lies in the window
    and the answer is the same distance into the reservation, which holds the
    whole range; a range that starts before the window, runs past its end or
    wraps gets no answer. *)
Theorem window_placement s w (g size : Z)
    (Hw : window s = Some w) (Hg : is_word 64 g) (Hsz : is_word 64 size)
    (Hgb : 0 <= guest_base w) (Hhb : 0 <= host_base w) (Hws : 0 <= w_size w)
    (Hhost : host_base w + w_size w < 2 ^ 64) :
  (forall a, host_addr s g size = Some a ->
     guest_base w <= g /\ g + size <= guest_base w + w_size w /\
     a - host_base w = g - guest_base w /\ host_base w <= a /\ a + size <= host_base w + w_size w) /\
  (guest_base w <= g -> g + size <= guest_base w + w_size w -> is_Some (host_addr s g size)).
Proof.
  unfold host_addr. rewrite Hw. simpl. unfold checked_sub, checked_add, is_word in *. split.
  - intros a. destruct (Z.leb_spec (guest_base w) g); simpl; [|done].
    destruct (Z.ltb_spec (g - guest_base w + size) (2 ^ 64)); simpl; [|done].
    destruct (Z.ltb_spec (w_size w) (g - guest_base w + size)); [done|]. intros [= <-].
    rewrite wrap_small by (unfold is_word; lia). lia.
  - intros H1 H2. rewrite (proj2 (Z.leb_le _ _)) by done. simpl.
    rewrite (proj2 (Z.ltb_lt _ _)) by lia. simpl. rewrite (proj2 (Z.ltb_ge _ _)) by lia. eauto.
Qed.

(** ** The promise to the devices *)

Definition slot_addrs s : gset Z := dom (mapped s).

#[export] Instance MemorySlots_mapper_laws : HostMemoryMapperLaws (MemorySlots H) slot_addrs.
Proof.
  split; unfold slot_addrs; simpl; unfold succeeded.
  - intros p a h n p'. unfold map. case_bool_decide as Hm; [done|].
    destruct (match free_slots p with [] => _ | _ :: _ => _ end) as [[slot rest] next].
    destruct (set_region _ _ _ _ _) as [k []]; [|done]. intros [= <-]. simpl.
    split; [by rewrite elem_of_dom|apply dom_insert_L].
  - intros p a h n p'. unfold map. case_bool_decide as Hm; [by intros [= <-]|].
    destruct (match free_slots p with [] => _ | _ :: _ => _ end) as [[slot rest] next].
    destruct (set_region _ _ _ _ _) as [k []]; [done|]. by intros [= <-].
  - intros p a n p'. unfold unmap. destruct (mapped p !! a) as [slot|] eqn:Em; [|done].
    destruct (set_region _ _ _ _ _) as [k []]; [|done]. intros [= <-]. simpl.
    split; [by apply elem_of_dom_2 in Em|apply dom_delete_L].
  - intros p a n p'. unfold unmap. destruct (mapped p !! a) as [slot|] eqn:Em; [|intros [= <-]; set_solver].
    destruct (set_region _ _ _ _ _) as [k []]; [done|]. intros [= <-]. simpl. rewrite dom_delete_L. set_solver.
  - intros p a n p' ok. unfold withdraw. destruct (host_addr _ _ _); [|by intros [= <- <-]].
    destruct (overwrite _ _ _) as [k []]; by intros [= <- <-].
Qed.

(** A kernel that never refuses to remove a slot never refuses an unmap. *)
Lemma unmap_reliable :
  (forall h slot a, (set_user_memory_region h slot a 0 0).2 = true) ->
  forall s a n, a ∈ slot_addrs s -> (hm_unmap s a n).2 = true.
Proof.
  unfold slot_addrs. intros Hk s a n [slot Hs]%elem_of_dom. simpl. unfold succeeded, unmap. rewrite Hs. unfold set_region.
  pose proof (Hk (vm_fd s) slot a). by destruct (set_user_memory_region _ _ _ _ _) as [h []].
Qed.

End Facts.

(** * A kernel that answers from a script *)

(** The regions set so far, and the answers to come (accept when none is left). *)
Record TestHost := { regions : list (Z * Z * Z * Z); answers : list bool }.

#[export] Instance TestHost_host : Host TestHost := {
  reserve h _ := (h, Some 0x7f0000000000);
  unreserve h _ _ := h;
  overwrite h _ _ := (h, true);
  set_user_memory_region h slot g a size :=
    match answers h with
    | false :: rest => ({| regions := regions h; answers := rest |}, false)
    | rest => ({| regions := regions h ++ [(slot, g, a, size)]; answers := tail rest |}, true)
    end
}.

Definition vm0 : TestHost := {| regions := []; answers := [true; true; false] |}.

(** A window, a map, a refused map, an unmap and two more maps, slots from 2. *)
Definition session : list slot_op :=
  [OpenWindow 0x200000000 0x10000000; Map 0x300000000 0x1000 0x1000; Map 0x300001000 0x2000 0x1000;
   Unmap 0x300000000; Map 0x300002000 0x3000 0x1000; Map 0x300003000 0x4000 0x1000].

Definition session_end : MemorySlots TestHost := run_slots (MemorySlots_new vm0 2) session.

Example session_numbers :
  next_slot session_end = 5 /\ free_slots session_end = [] /\
  mapped session_end !! 0x300002000 = Some 3 /\ mapped session_end !! 0x300003000 = Some 4.
Proof. vm_compute. repeat split. Qed.

Lemma slots_partition_witness : NoDup (numbers session_end).
Proof.
  apply (slots_partition vm0 2 session); [lia|simpl; lia].
Defined.

Lemma session_within : within 2 (MemorySlots_new vm0 2) session.
Proof. vm_compute. repeat split; repeat constructor. Qed.

Lemma slots_recycled_witness : next_slot session_end <= 2 + 2 + 1 + 0.
Proof.
  exact (slots_recycled vm0 2 session 2 ltac:(lia) ltac:(simpl; lia) session_within).
Defined.

Definition session_window : Window :=
  {| guest_base := 0x200000000; host_base := 0x7f0000000000; w_size := 0x10000000 |}.

Lemma window_placement_witness :
  is_Some (host_addr session_end 0x200001000 0x1000).
Proof.
  apply (window_placement session_end session_window);
    [by vm_compute|unfold is_word; simpl; lia..].
Defined.

(** An unmap the kernel refuses: the address is forgotten while its region is
    still registered, so mapping the address again takes a second slot over the
    same guest range. *)
Example refused_unmap_forgets :
  let s0 := run_slots (MemorySlots_new {| regions := []; answers := [true; false] |} 2)
              [Map 0x300000000 0x1000 0x1000; Unmap 0x300000000; Map 0x300000000 0x1000 0x1000] in
  lost s0 = [2] /\
  regions (vm_fd s0) = [(2, 0x300000000, 0x1000, 0x1000); (3, 0x300000000, 0x1000, 0x1000)].
Proof. vm_compute. repeat split. Qed.
