(* ===== verification/GpuVram.v ===== *)
(** Per-guest VRAM accounting, [virtio-devices/src/gpu/vram.rs]: the walk over
    the native-context command streams a guest submits, and the charges it
    makes, from allocation to release; and the host-visible window's quota,
    [virtio-devices/src/gpu/window.rs].

    What the accountant publishes to [GpuMetrics] is part of its state; the quota
    publishes its own fields at the end of every operation. *)

From S2P Require Import Prelude.

(** * Command streams *)

Definition AMDGPU_CCMD_QUERY_INFO : Z := 1.
Definition QUERY_INFO_OFF_QUERY : nat := 28.
Definition AMDGPU_CCMD_GEM_NEW : Z := 2.
Definition CCMD_HDR_LEN : nat := 16.
Definition CCMD_ALIGN : Z := 8.
Definition GEM_NEW_OFF_BLOB_ID : nat := 16.
Definition GEM_NEW_OFF_ALLOC_SIZE : nat := 24.
Definition GEM_NEW_OFF_PREFERRED_HEAP : nat := 40.
Definition GEM_NEW_MIN_LEN : Z := 44.
Definition AMDGPU_GEM_DOMAIN_GTT : Z := 0x2.
Definition AMDGPU_GEM_DOMAIN_VRAM : Z := 0x4.
Definition CAPSET_DRM : Z := 6.
Definition CONTEXT_INIT_CAPSET_ID_MASK : Z := 0xff.

(** [b.get(off..off + n)], little-endian. *)
Definition rd (n : nat) (b : list Z) (off : nat) : option Z :=
  if (off + n <=? length b)%nat then Some (of_le (take n (drop off b))) else None.

Definition rd_u32 : list Z -> nat -> option Z := rd 4.
Definition rd_u64 : list Z -> nat -> option Z := rd 8.

(** The three checks on a record's length, [avail] bytes being left. *)
Definition bad_len (len avail : Z) : bool :=
  (len <? Z.of_nat CCMD_HDR_LEN) || (avail <? len) || negb (len mod CCMD_ALIGN =? 0).

(** ** Counting *)

Definition CCMD_BUCKETS : nat := 16.
Definition INFO_BUCKETS : nat := 64.

Record CcmdCounters := {
  ccmd : list Z;
  ccmd_high : Z;
  ccmd_records : Z;
  ccmd_malformed : Z;
  info_query : list Z;
  info_high : Z
}.

Definition CcmdCounters_default : CcmdCounters :=
  {| ccmd := replicate CCMD_BUCKETS 0; ccmd_high := 0; ccmd_records := 0; ccmd_malformed := 0;
     info_query := replicate INFO_BUCKETS 0; info_high := 0 |}.

Definition count_malformed (c : CcmdCounters) : CcmdCounters :=
  {| ccmd := ccmd c; ccmd_high := ccmd_high c; ccmd_records := ccmd_records c;
     ccmd_malformed := u64 (ccmd_malformed c + 1); info_query := info_query c; info_high := info_high c |}.

Definition bump (l : list Z) (i : nat) : option (list Z) :=
  match l !! i with Some n => Some (<[i := u64 (n + 1)]> l) | None => None end.

Definition count_opcode (c : CcmdCounters) (cmd : Z) : CcmdCounters :=
  let '(b, h) := match bump (ccmd c) (Z.to_nat cmd) with
                 | Some l => (l, ccmd_high c)
                 | None => (ccmd c, u64 (ccmd_high c + 1))
                 end in
  {| ccmd := b; ccmd_high := h; ccmd_records := ccmd_records c; ccmd_malformed := ccmd_malformed c;
     info_query := info_query c; info_high := info_high c |}.

Definition count_info_query (rec : list Z) (len : Z) (c : CcmdCounters) : CcmdCounters :=
  if len <? Z.of_nat QUERY_INFO_OFF_QUERY + 4 then c
  else
    match rd_u32 rec QUERY_INFO_OFF_QUERY with
    | None => c
    | Some query =>
        let '(b, h) := match bump (info_query c) (Z.to_nat query) with
                       | Some l => (l, info_high c)
                       | None => (info_query c, u64 (info_high c + 1))
                       end in
        {| ccmd := ccmd c; ccmd_high := ccmd_high c; ccmd_records := ccmd_records c;
           ccmd_malformed := ccmd_malformed c; info_query := b; info_high := h |}
    end.

Definition count_record (c : CcmdCounters) : CcmdCounters :=
  {| ccmd := ccmd c; ccmd_high := ccmd_high c; ccmd_records := u64 (ccmd_records c + 1);
     ccmd_malformed := ccmd_malformed c; info_query := info_query c; info_high := info_high c |}.

(** The loop of [count_ccmds] on the bytes from [off] on; a record takes at
    least a header, so the stream's length is fuel enough. *)
Fixpoint count_from (fuel : nat) (rec : list Z) (c : CcmdCounters) : CcmdCounters :=
  match fuel with
  | O => c
  | S fuel =>
      if (length rec <? CCMD_HDR_LEN)%nat then c
      else
        match rd_u32 rec 0, rd_u32 rec 4 with
        | Some cmd, Some len =>
            if bad_len len (Z.of_nat (length rec)) then count_malformed c
            else
              let c := count_opcode c cmd in
              let c := if cmd =? AMDGPU_CCMD_QUERY_INFO then count_info_query rec len c else c in
              count_from fuel (drop (Z.to_nat len) rec) (count_record c)
        | _, _ => count_malformed c
        end
  end.

Definition count_ccmds (commands : list Z) (c : CcmdCounters) : CcmdCounters :=
  count_from (length commands) commands c.

(** * The accountant *)

Record Charge := { bytes : Z; ctx_id : Z }.

Inductive MalformedWhy := TruncatedCmd | TruncatedLen | BadRecordLength | GemNewTooShort | GemNewField | TrailingBytes.

Inductive Notice :=
  | OverLimit (requested charged limit : Z)
  | MalformedStream (why : MalformedWhy).

(** [published]: what was last put in the metrics (bytes, peak, allocations past
    the budget, GTT). *)
Record VramAccountant := {
  limit : Z;
  charged : Z;
  pending : gmap (Z * Z) Charge;
  live : gmap Z Charge;
  drm_contexts : gset Z;
  gtt_charged : Z;
  peak : Z;
  over_budget : Z;
  reported_peak : Z;
  published : Z * Z * Z * Z
}.

Definition watermark_step (limit : Z) : Z :=
  Z.max (Z.shiftl 4 20) (Z.min (limit / 8) (Z.shiftl 64 20)).

Definition VramAccountant_new (limit_bytes : Z) : VramAccountant :=
  {| limit := limit_bytes; charged := 0; pending := ∅; live := ∅; drm_contexts := ∅;
     gtt_charged := 0; peak := 0; over_budget := 0; reported_peak := 0; published := (0, 0, 0, 0) |}.

Definition publish (a : VramAccountant) : VramAccountant :=
  {| limit := limit a; charged := charged a; pending := pending a; live := live a;
     drm_contexts := drm_contexts a; gtt_charged := gtt_charged a; peak := peak a;
     over_budget := over_budget a; reported_peak := reported_peak a;
     published := (charged a, peak a, over_budget a, gtt_charged a) |}.

Definition with_books (a : VramAccountant) (c : Z) (p : gmap (Z * Z) Charge) (l : gmap Z Charge)
    : VramAccountant :=
  {| limit := limit a; charged := c; pending := p; live := l; drm_contexts := drm_contexts a;
     gtt_charged := gtt_charged a; peak := peak a; over_budget := over_budget a;
     reported_peak := reported_peak a; published := published a |}.

Definition with_contexts (a : VramAccountant) (s : gset Z) : VramAccountant :=
  {| limit := limit a; charged := charged a; pending := pending a; live := live a;
     drm_contexts := s; gtt_charged := gtt_charged a; peak := peak a;
     over_budget := over_budget a; reported_peak := reported_peak a; published := published a |}.

Definition note_context (a : VramAccountant) (ctx context_init : Z) : VramAccountant :=
  if Z.land context_init CONTEXT_INIT_CAPSET_ID_MASK =? CAPSET_DRM then
    with_contexts a ({[ctx]} ∪ drm_contexts a)
  else a.

(** The bytes of all the charges of a table. *)
Definition total_bytes {K} `{Countable K} (m : gmap K Charge) : Z :=
  map_fold (fun _ c acc => bytes c + acc) 0 m.

Definition forget_context (a : VramAccountant) (ctx : Z) : VramAccountant :=
  let freed := u64 (total_bytes (filter (fun kc => kc.1.1 = ctx) (pending a)) +
                    total_bytes (filter (fun kc => ctx_id kc.2 = ctx) (live a))) in
  let a := with_books a (if 0 <? freed then saturating_sub (charged a) freed else charged a)
             (filter (fun kc => kc.1.1 <> ctx) (pending a))
             (filter (fun kc => ctx_id kc.2 <> ctx) (live a)) in
  let a := publish a in
  with_contexts a (drm_contexts a ∖ {[ctx]}).

(** What the walk over a stream proposes. *)
Record Proposal := {
  proposed : list ((Z * Z) * Z);
  proposed_gtt : Z;
  tentative : Z;
  over : option Notice;
  over_count : Z
}.

(** The effect of one GEM_NEW record. *)
Definition propose (lim ctx blob_id size heap : Z) (p : Proposal) : Proposal :=
  if has_bits heap AMDGPU_GEM_DOMAIN_VRAM then
    let before := tentative p in
    let after := saturating_add 64 before size in
    {| proposed := proposed p ++ [((ctx, blob_id), size)]; proposed_gtt := proposed_gtt p;
       tentative := after;
       over := if lim <? after then
                 match over p with Some n => Some n | None => Some (OverLimit size before lim) end
               else over p;
       over_count := if lim <? after then over_count p + 1 else over_count p |}
  else if has_bits heap AMDGPU_GEM_DOMAIN_GTT then
    {| proposed := proposed p; proposed_gtt := saturating_add 64 (proposed_gtt p) size;
       tentative := tentative p; over := over p; over_count := over_count p |}
  else p.

(** One record, once its length is known to be good. *)
Definition scan_record (lim ctx cmd len : Z) (rec : list Z) (p : Proposal) : Notice + Proposal :=
  if cmd =? AMDGPU_CCMD_GEM_NEW then
    if len <? GEM_NEW_MIN_LEN then inl (MalformedStream GemNewTooShort)
    else
      match rd_u64 rec GEM_NEW_OFF_BLOB_ID, rd_u64 rec GEM_NEW_OFF_ALLOC_SIZE,
            rd_u32 rec GEM_NEW_OFF_PREFERRED_HEAP with
      | Some blob_id, Some size, Some heap => inr (propose lim ctx blob_id size heap p)
      | _, _, _ => inl (MalformedStream GemNewField)
      end
  else inr p.

(** The loop of [observe_submit] on the bytes from [off] on, and what is left. *)
Fixpoint scan (fuel : nat) (lim ctx : Z) (rec : list Z) (p : Proposal) : Notice + (Proposal * list Z) :=
  match fuel with
  | O => inr (p, rec)
  | S fuel =>
      if (length rec <? CCMD_HDR_LEN)%nat then inr (p, rec)
      else
        match rd_u32 rec 0 with
        | None => inl (MalformedStream TruncatedCmd)
        | Some cmd =>
            match rd_u32 rec 4 with
            | None => inl (MalformedStream TruncatedLen)
            | Some len =>
                if bad_len len (Z.of_nat (length rec)) then inl (MalformedStream BadRecordLength)
                else
                  match scan_record lim ctx cmd len rec p with
                  | inl n => inl n
                  | inr p => scan fuel lim ctx (drop (Z.to_nat len) rec) p
                  end
            end
        end
  end.

Definition charge_one (ctx : Z) (st : Z * gmap (Z * Z) Charge) (kb : (Z * Z) * Z)
    : Z * gmap (Z * Z) Charge :=
  let '(key, b) := kb in
  let entry := default {| bytes := 0; ctx_id := ctx |} (st.2 !! key) in
  (saturating_add 64 st.1 b, <[key := {| bytes := Z.max (bytes entry) b; ctx_id := ctx_id entry |}]> st.2).

Definition settle (a : VramAccountant) (ctx : Z) (p : Proposal) : VramAccountant :=
  let '(c, pend) := foldl (charge_one ctx) (charged a, pending a) (proposed p) in
  let pk := Z.max (peak a) c in
  let a := publish {| limit := limit a; charged := c; pending := pend; live := live a;
                      drm_contexts := drm_contexts a;
                      gtt_charged := saturating_add 64 (gtt_charged a) (proposed_gtt p);
                      peak := pk; over_budget := u64 (over_budget a + over_count p);
                      reported_peak := reported_peak a; published := published a |} in
  let step := watermark_step (limit a) in
  if saturating_add 64 (reported_peak a) step <=? peak a then
    {| limit := limit a; charged := charged a; pending := pending a; live := live a;
       drm_contexts := drm_contexts a; gtt_charged := gtt_charged a; peak := peak a;
       over_budget := over_budget a; reported_peak := peak a - peak a mod step;
       published := published a |}
  else a.

Definition observe_submit (a : VramAccountant) (ctx : Z) (commands : list Z)
    : VramAccountant * option Notice :=
  if negb (bool_decide (ctx ∈ drm_contexts a)) then (a, None)
  else
    match scan (length commands) (limit a) ctx commands
            {| proposed := []; proposed_gtt := 0; tentative := charged a; over := None; over_count := 0 |} with
    | inl n => (a, Some n)
    | inr (p, rest) =>
        if negb (length rest =? 0)%nat then (a, Some (MalformedStream TrailingBytes))
        else (settle a ctx p, over p)
    end.

Definition claim_blob (a : VramAccountant) (ctx blob_id resource_id : Z) : VramAccountant :=
  match pending a !! (ctx, blob_id) with
  | Some c => with_books a (charged a) (delete (ctx, blob_id) (pending a)) (<[resource_id := c]> (live a))
  | None => a
  end.

Definition release_resource (a : VramAccountant) (resource_id : Z) : VramAccountant :=
  match live a !! resource_id with
  | Some c => publish (with_books a (saturating_sub (charged a) (bytes c)) (pending a)
                        (delete resource_id (live a)))
  | None => a
  end.

(** * The window quota *)

Inductive Refused :=
  | RefusedBytes (requested used limit : Z)
  | RefusedCount (used limit : Z).

Record WindowQuota := {
  limit_bytes : Z;
  max_mappings : Z;
  q_used : Z;
  mappings : Z;
  q_peak : Z;
  refusals : Z
}.

Definition WindowQuota_new (limit_bytes max_mappings : Z) : WindowQuota :=
  {| limit_bytes := limit_bytes; max_mappings := max_mappings; q_used := 0; mappings := 0; q_peak := 0;
     refusals := 0 |}.

Definition refuse (w : WindowQuota) : WindowQuota :=
  {| limit_bytes := limit_bytes w; max_mappings := max_mappings w; q_used := q_used w;
     mappings := mappings w; q_peak := q_peak w; refusals := u64 (refusals w + 1) |}.

Definition try_map (w : WindowQuota) (size : Z) : WindowQuota * option Refused :=
  if negb (limit_bytes w =? 0) && (limit_bytes w <? saturating_add 64 (q_used w) size) then
    (refuse w, Some (RefusedBytes size (q_used w) (limit_bytes w)))
  else if negb (max_mappings w =? 0) && (max_mappings w <=? mappings w) then
    (refuse w, Some (RefusedCount (mappings w) (max_mappings w)))
  else
    let u := saturating_add 64 (q_used w) size in
    ({| limit_bytes := limit_bytes w; max_mappings := max_mappings w; q_used := u;
        mappings := u32 (mappings w + 1); q_peak := Z.max (q_peak w) u; refusals := refusals w |}, None).

Definition quota_release (w : WindowQuota) (size : Z) : WindowQuota :=
  {| limit_bytes := limit_bytes w; max_mappings := max_mappings w;
     q_used := saturating_sub (q_used w) size; mappings := saturating_sub (mappings w) 1;
     q_peak := q_peak w; refusals := refusals w |}.
