(* ===== verification/GpuVramFacts.v ===== *)
(** The VRAM books balance, streams are read as the renderer reads them, and the
    window's quota is kept. *)

From S2P Require Import Prelude GpuVram.

(** * Tables of charges *)

Section Tables.
Context {K : Type} `{Countable K}.
Implicit Types (m : gmap K Charge).

Definition charges_ok m : Prop := map_Forall (fun _ c => 0 <= bytes c) m.

Lemma total_empty : total_bytes (∅ : gmap K Charge) = 0.
Proof. apply map_fold_empty. Qed.

Lemma total_insert m k c : m !! k = None -> total_bytes (<[k := c]> m) = bytes c + total_bytes m.
Proof.
  intros Hk. unfold total_bytes. apply (map_fold_insert_L (fun _ c acc => bytes c + acc)); [|done].
  intros. lia.
Qed.

Lemma total_delete m k c : m !! k = Some c -> total_bytes m = bytes c + total_bytes (delete k m).
Proof.
  intros Hk. unfold total_bytes. apply (map_fold_delete_L (fun _ c acc => bytes c + acc)); [|done].
  intros. lia.
Qed.

Lemma total_replace m k c :
  total_bytes (<[k := c]> m) = bytes c + total_bytes m - match m !! k with Some c' => bytes c' | None => 0 end.
Proof.
  destruct (m !! k) as [c'|] eqn:Ek.
  - rewrite <- insert_delete_eq. rewrite total_insert by apply lookup_delete_eq.
    rewrite (total_delete m k c' Ek). lia.
  - rewrite total_insert by done. lia.
Qed.

Lemma total_nonneg m : charges_ok m -> 0 <= total_bytes m.
Proof.
  intros Hm. induction m as [|k c m Hk IH] using map_ind; [by rewrite total_empty|].
  rewrite total_insert by done. apply map_Forall_insert in Hm as [Hc Hm]; [|done]. specialize (IH Hm). lia.
Qed.

Lemma total_split m (P : K * Charge -> Prop) `{!forall x, Decision (P x)} :
  total_bytes m = total_bytes (filter P m) + total_bytes (filter (fun x => ~ P x) m).
Proof.
  induction m as [|k c m Hk IH] using map_ind.
  { by rewrite !map_filter_empty, !total_empty. }
  rewrite total_insert by done. destruct (decide (P (k, c))) as [Hp|Hp].
  - rewrite map_filter_insert_True by done. rewrite (map_filter_insert_False (fun x => ~ P x)) by tauto.
    rewrite (delete_id m) by done. rewrite total_insert by (apply map_lookup_filter_None; by left). lia.
  - rewrite map_filter_insert_False by done. rewrite (map_filter_insert_True (fun x => ~ P x)) by done.
    rewrite (delete_id m) by done. rewrite total_insert by (apply map_lookup_filter_None; by left). lia.
Qed.

Lemma charges_ok_insert m k c : charges_ok m -> 0 <= bytes c -> charges_ok (<[k := c]> m).
Proof. intros Hm Hc. by apply map_Forall_insert_2. Qed.

Lemma charges_ok_delete m k : charges_ok m -> charges_ok (delete k m).
Proof. intros Hm. by apply map_Forall_delete. Qed.

Lemma charges_ok_filter m (P : K * Charge -> Prop) `{!forall x, Decision (P x)} :
  charges_ok m -> charges_ok (filter P m).
Proof. intros Hm k c [Hc _]%map_lookup_filter_Some. by eapply Hm. Qed.

End Tables.

(** * The books *)

Definition held (a : VramAccountant) : Z := total_bytes (pending a) + total_bytes (live a).

Definition in_sync (a : VramAccountant) : Prop :=
  published a = (charged a, peak a, over_budget a, gtt_charged a).

(** [asked]: VRAM bytes asked for so far. *)
Record books (asked : Z) (a : VramAccountant) : Prop := {
  bk_pending : charges_ok (pending a);
  bk_live : charges_ok (live a);
  bk_held : held a <= charged a;
  bk_asked : charged a <= asked;
  bk_sync : in_sync a
}.

Inductive vram_op :=
  | NoteContext (ctx init : Z)
  | ForgetContext (ctx : Z)
  | Submit (ctx : Z) (commands : list Z)
  | Claim (ctx blob_id resource_id : Z)
  | Release (resource_id : Z).

Definition vram_step (a : VramAccountant) (o : vram_op) : VramAccountant :=
  match o with
  | NoteContext ctx init => note_context a ctx init
  | ForgetContext ctx => forget_context a ctx
  | Submit ctx commands => (observe_submit a ctx commands).1
  | Claim ctx blob res => claim_blob a ctx blob res
  | Release res => release_resource a res
  end.

Definition empty_proposal (a : VramAccountant) : Proposal :=
  {| proposed := []; proposed_gtt := 0; tentative := charged a; over := None; over_count := 0 |}.

(** The charges a submit makes. *)
Definition charges_of (a : VramAccountant) (o : vram_op) : list ((Z * Z) * Z) :=
  match o with
  | Submit ctx commands =>
      if bool_decide (ctx ∈ drm_contexts a) then
        match scan (length commands) (limit a) ctx commands (empty_proposal a) with
        | inr (p, []) => proposed p
        | _ => []
        end
      else []
  | _ => []
  end.

Fixpoint sum_sizes (l : list ((Z * Z) * Z)) : Z :=
  match l with [] => 0 | kb :: l => kb.2 + sum_sizes l end.

(** The guest never reuses a blob id that is still unclaimed, nor a resource id
    that is still live. *)
Definition orderly (a : VramAccountant) (o : vram_op) : Prop :=
  match o with
  | Submit _ _ => NoDup (charges_of a o).*1 /\ Forall (fun k => pending a !! k = None) (charges_of a o).*1
  | Claim ctx blob res => pending a !! (ctx, blob) = None \/ live a !! res = None
  | _ => True
  end.

Lemma sum_sizes_nonneg l : Forall (fun kb : (Z * Z) * Z => 0 <= kb.2) l -> 0 <= sum_sizes l.
Proof. induction 1 as [|kb l Hk _ IH]; simpl; lia. Qed.

Lemma charge_all_spec ctx l c p :
  Forall (fun kb : (Z * Z) * Z => 0 <= kb.2) l -> charges_ok p -> 0 <= c -> c + sum_sizes l < 2 ^ 64 ->
  let '(c', p') := foldl (charge_one ctx) (c, p) l in
  c' = c + sum_sizes l /\ charges_ok p' /\ total_bytes p' <= total_bytes p + sum_sizes l /\
  (NoDup l.*1 -> Forall (fun k => p !! k = None) l.*1 -> total_bytes p' = total_bytes p + sum_sizes l).
Proof.
  intros Hl. revert c p. induction Hl as [|[key b] l Hb Hl IH]; intros c p Hp Hc Hs; simpl in *.
  { split; [lia|]. split; [done|]. split; [lia|]. intros; lia. }
  pose proof (sum_sizes_nonneg l Hl). unfold saturating_add. rewrite Z.min_l by lia.
  set (e := default {| bytes := 0; ctx_id := ctx |} (p !! key)).
  set (c1 := {| bytes := Z.max (bytes e) b; ctx_id := ctx_id e |}).
  assert (He : match p !! key with Some c' => bytes c' | None => 0 end = bytes e /\ 0 <= bytes e).
  { unfold e. destruct (p !! key) as [c'|] eqn:Ek; simpl; [|done]. split; [done|]. by eapply Hp. }
  destruct He as [He He0].
  assert (Hp1 : charges_ok (<[key := c1]> p)) by (apply charges_ok_insert; simpl; [done|lia]).
  specialize (IH (c + b) (<[key := c1]> p) Hp1 ltac:(lia) ltac:(lia)).
  destruct (foldl (charge_one ctx) _ l) as [c' p']. destruct IH as (-> & Hok & Hle & Heq).
  pose proof (total_replace p key c1) as Ht. rewrite He in Ht. simpl in Ht.
  split; [lia|]. split; [done|]. split; [lia|]. intros [Hnin Hnd]%NoDup_cons [Hk Hf]%Forall_cons.
  rewrite Heq; [|done|].
  - unfold e in Ht. rewrite Hk in Ht. simpl in Ht. unfold e in *. rewrite Hk in *. simpl in *. lia.
  - rewrite Forall_forall in *. intros k Hin. rewrite lookup_insert_ne; [by apply Hf|]. by intros ->.
Qed.

(** ** What a stream proposes *)

Definition sizes_ok (p : Proposal) : Prop := Forall (fun kb : (Z * Z) * Z => 0 <= kb.2) (proposed p).

Lemma rd_nonneg n b off v : Forall is_byte b -> rd n b off = Some v -> 0 <= v.
Proof.
  unfold rd. case_match; [|done]. intros Hb [= <-].
  apply of_le_range. by apply Forall_take, Forall_drop.
Qed.

Lemma scan_record_sizes lim ctx cmd len rec p p' :
  Forall is_byte rec -> sizes_ok p -> scan_record lim ctx cmd len rec p = inr p' -> sizes_ok p'.
Proof.
  intros Hb Hp. unfold scan_record. case_match; [|by intros [= <-]]. case_match; [done|].
  destruct (rd_u64 rec GEM_NEW_OFF_BLOB_ID) as [blob|]; [|done].
  destruct (rd_u64 rec GEM_NEW_OFF_ALLOC_SIZE) as [sz|] eqn:Es; [|done].
  destruct (rd_u32 rec GEM_NEW_OFF_PREFERRED_HEAP) as [heap|]; [|done]. intros [= <-].
  unfold propose, sizes_ok. case_match; [|by case_match]. simpl.
  apply Forall_app_2; [done|]. apply Forall_singleton. simpl. by eapply rd_nonneg.
Qed.

Lemma scan_sizes fuel lim ctx rec p p' rest :
  Forall is_byte rec -> sizes_ok p -> scan fuel lim ctx rec p = inr (p', rest) -> sizes_ok p'.
Proof.
  revert rec p. induction fuel as [|fuel IH]; intros rec p Hb Hp; simpl; [by intros [= <- _]|].
  case_match; [by intros [= <- _]|]. destruct (rd_u32 rec 0) as [cmd|]; [|done].
  destruct (rd_u32 rec 4) as [len|]; [|done]. case_match; [done|].
  destruct (scan_record lim ctx cmd len rec p) as [|p1] eqn:E1; [done|].
  apply IH; [by apply Forall_drop|]. by eapply scan_record_sizes.
Qed.

(** ** Each operation *)

Lemma settle_sync a ctx p : in_sync (settle a ctx p).
Proof.
  unfold settle. destruct (foldl (charge_one ctx) _ _) as [c pend]. case_match; done.
Qed.

Lemma settle_fields a ctx p :
  let '(c, pend) := foldl (charge_one ctx) (charged a, pending a) (proposed p) in
  charged (settle a ctx p) = c /\ pending (settle a ctx p) = pend /\ live (settle a ctx p) = live a.
Proof.
  unfold settle. destruct (foldl (charge_one ctx) _ _) as [c pend]. by case_match.
Qed.

Lemma stream_submit_books asked a ctx commands :
  let o := Submit ctx commands in
  books asked a -> Forall is_byte commands -> asked + sum_sizes (charges_of a o) < 2 ^ 64 ->
  books (asked + sum_sizes (charges_of a o)) (vram_step a o) /\
  (orderly a o -> held a = charged a -> held (vram_step a o) = charged (vram_step a o)).
Proof.
  intros o [Hp Hl Hh Ha Hs] Hb Hlt. pose proof (total_nonneg _ Hp). pose proof (total_nonneg _ Hl).
  unfold held in *. cbn [vram_step orderly charges_of o] in *. unfold observe_submit.
  change {| proposed := []; proposed_gtt := 0; tentative := charged a; over := None; over_count := 0 |}
    with (empty_proposal a).
  case_bool_decide as Hc; cbn [negb].
  2: { split; [|done]. simpl. split; try done. simpl. lia. }
  destruct (scan (length commands) (limit a) ctx commands (empty_proposal a)) as [n|[p rest]] eqn:E.
  { split; [|done]. simpl. split; try done. simpl. lia. }
  destruct rest as [|x rest].
  2: { split; [|done]. simpl. split; try done. simpl. lia. }
  assert (Hsz : sizes_ok p) by (eapply scan_sizes; [exact Hb| |exact E]; constructor).
  simpl. pose proof (settle_fields a ctx p) as Hf.
  pose proof (charge_all_spec ctx (proposed p) (charged a) (pending a) Hsz Hp ltac:(lia) ltac:(lia)) as Hspec.
  destruct (foldl (charge_one ctx) (charged a, pending a) (proposed p)) as [c pend].
  destruct Hf as (Ec & Epd & El). destruct Hspec as (-> & Hok & Hle & Heq). split.
  - split; rewrite ?Ec, ?Epd, ?El; try done.
    + unfold held. rewrite Epd, El. lia.
    + lia.
    + apply settle_sync.
  - intros [Hnd Hfr] He. rewrite Ec, Epd, El. rewrite Heq by done. lia.
Qed.

Lemma forget_books asked a ctx :
  books asked a -> asked < 2 ^ 64 ->
  books asked (forget_context a ctx) /\
  (held a = charged a -> held (forget_context a ctx) = charged (forget_context a ctx)).
Proof.
  intros [Hp Hl Hh Ha Hs] Hlt. unfold held in *.
  pose proof (total_split (pending a) (fun kc => kc.1.1 = ctx)) as Sp.
  pose proof (total_split (live a) (fun kc => ctx_id kc.2 = ctx)) as Sl.
  set (f1 := filter (fun kc : Z * Z * Charge => kc.1.1 = ctx) (pending a)) in *.
  set (f2 := filter (fun kc : Z * Charge => ctx_id kc.2 = ctx) (live a)) in *.
  assert (N1 : 0 <= total_bytes f1) by (by apply total_nonneg, charges_ok_filter).
  assert (N2 : 0 <= total_bytes f2) by (by apply total_nonneg, charges_ok_filter).
  set (g1 := filter (fun kc : Z * Z * Charge => ~ kc.1.1 = ctx) (pending a)) in *.
  set (g2 := filter (fun kc : Z * Charge => ~ ctx_id kc.2 = ctx) (live a)) in *.
  assert (N3 : 0 <= total_bytes g1) by (by apply total_nonneg, charges_ok_filter).
  assert (N4 : 0 <= total_bytes g2) by (by apply total_nonneg, charges_ok_filter).
  assert (Hc : (if 0 <? u64 (total_bytes f1 + total_bytes f2)
                then saturating_sub (charged a) (u64 (total_bytes f1 + total_bytes f2))
                else charged a) = charged a - (total_bytes f1 + total_bytes f2)).
  { rewrite wrap_small by (unfold is_word; lia). unfold saturating_sub.
    destruct (Z.ltb_spec 0 (total_bytes f1 + total_bytes f2)); lia. }
  unfold forget_context. fold f1 f2 g1 g2. rewrite Hc. split.
  - split; simpl; [by apply charges_ok_filter|by apply charges_ok_filter| |lia|done].
    unfold held. simpl. lia.
  - simpl. intros. lia.
Qed.

Lemma claim_books asked a ctx blob res :
  books asked a ->
  books asked (claim_blob a ctx blob res) /\
  (orderly a (Claim ctx blob res) -> held a = charged a ->
   held (claim_blob a ctx blob res) = charged (claim_blob a ctx blob res)).
Proof.
  intros [Hp Hl Hh Ha Hs]. unfold claim_blob, held in *.
  destruct (pending a !! (ctx, blob)) as [c|] eqn:Ec; [|split; [split; done|done]].
  pose proof (total_delete _ _ _ Ec) as Hd. pose proof (total_replace (live a) res c) as Hr.
  assert (Hc : 0 <= bytes c) by (by eapply Hp).
  assert (Ho : 0 <= match live a !! res with Some c' => bytes c' | None => 0 end).
  { destruct (live a !! res) as [c'|] eqn:El; [by eapply Hl|done]. }
  split.
  - split; simpl; [by apply charges_ok_delete|by apply charges_ok_insert| |done|done].
    unfold held. simpl. lia.
  - simpl. intros [Hn|Hn] He; [congruence|]. rewrite Hn in Hr. lia.
Qed.

Lemma resource_release_books asked a res :
  books asked a ->
  books asked (release_resource a res) /\
  (held a = charged a -> held (release_resource a res) = charged (release_resource a res)).
Proof.
  intros [Hp Hl Hh Ha Hs]. unfold release_resource, held in *.
  destruct (live a !! res) as [c|] eqn:Ec; [|split; [split; done|done]].
  pose proof (total_delete _ _ _ Ec) as Hd. assert (Hc : 0 <= bytes c) by (by eapply Hl).
  pose proof (total_nonneg _ Hp). pose proof (total_nonneg _ (charges_ok_delete _ res Hl)).
  unfold saturating_sub. rewrite Z.max_r by lia. split.
  - split; simpl; [done|by apply charges_ok_delete| |lia|done]. unfold held. simpl. lia.
  - simpl. intros. lia.
Qed.

(** ** A guest's whole life *)

Definition op_bytes (o : vram_op) : Prop :=
  match o with Submit _ commands => Forall is_byte commands | _ => True end.

Fixpoint asked_by (a : VramAccountant) (ops : list vram_op) : Z :=
  match ops with
  | [] => 0
  | o :: ops => sum_sizes (charges_of a o) + asked_by (vram_step a o) ops
  end.

Fixpoint orderly_run (a : VramAccountant) (ops : list vram_op) : Prop :=
  match ops with
  | [] => True
  | o :: ops => orderly a o /\ orderly_run (vram_step a o) ops
  end.

Definition run_vram (a : VramAccountant) (ops : list vram_op) : VramAccountant := foldl vram_step a ops.

Lemma charges_nonneg a o : op_bytes o -> 0 <= sum_sizes (charges_of a o).
Proof.
  intros Hb. unfold charges_of. destruct o as [| |ctx commands| |]; simpl; try done.
  case_bool_decide; [|done]. destruct (scan _ _ _ _ _) as [|[p [|]]] eqn:E; simpl; try done.
  apply sum_sizes_nonneg. eapply scan_sizes; [exact Hb| |exact E]. constructor.
Qed.

Lemma asked_nonneg a ops : Forall op_bytes ops -> 0 <= asked_by a ops.
Proof.
  intros Hb. revert a. induction Hb as [|o ops Ho _ IH]; intros a; simpl; [done|].
  pose proof (charges_nonneg a o Ho). specialize (IH (vram_step a o)). lia.
Qed.

Lemma vram_step_books asked a o :
  books asked a -> op_bytes o -> 0 <= asked -> asked + sum_sizes (charges_of a o) < 2 ^ 64 ->
  books (asked + sum_sizes (charges_of a o)) (vram_step a o) /\
  (orderly a o -> held a = charged a -> held (vram_step a o) = charged (vram_step a o)).
Proof.
  intros Hk Hb H0 Hlt. destruct o as [ctx init|ctx|ctx commands|ctx blob res|res]; simpl in *;
    rewrite ?Z.add_0_r in *.
  - unfold note_context. case_match; [|by split]. destruct Hk. by split; [split|].
  - destruct (forget_books asked a ctx Hk Hlt). by split.
  - by apply stream_submit_books.
  - by apply claim_books.
  - destruct (resource_release_books asked a res Hk). by split.
Qed.

(** C39: The VRAM books never lose an allocation of a guest that has asked for less
    than [2^64] bytes in all.  For any order of submits (of any bytes), blob creates,
    unrefs and context tear-downs up to there (beyond, the charge saturates and can
    be less than what is held, [saturated_charge_falls_short]): what is charged
    covers every allocation still held and never exceeds what was asked for, and
    the published totals are the books'; and if the guest reuses no blob id
    still unclaimed and no resource id still live, the charge is exactly what
    is held, so everything is given back. *)
Theorem vram_books_balance (lim : Z) (ops : list vram_op)
    (Hb : Forall op_bytes ops) (Hlt : asked_by (VramAccountant_new lim) ops < 2 ^ 64) :
  let a := run_vram (VramAccountant_new lim) ops in
  held a <= charged a <= asked_by (VramAccountant_new lim) ops /\ in_sync a /\
  (orderly_run (VramAccountant_new lim) ops -> charged a = held a).
Proof.
  enough (Hg : forall a asked, books asked a -> 0 <= asked -> asked + asked_by a ops < 2 ^ 64 ->
    books (asked + asked_by a ops) (run_vram a ops) /\
    (held a = charged a -> orderly_run a ops -> held (run_vram a ops) = charged (run_vram a ops))).
  { assert (H0 : books 0 (VramAccountant_new lim)).
    { split; [by intros ? ? ?|by intros ? ? ?|..]; unfold held, in_sync; simpl; rewrite ?total_empty; done. }
    destruct (Hg _ 0 H0 ltac:(lia) Hlt) as [[_ _ Hh Ha Hs] He]. split; [lia|]. split; [done|].
    intros Ho. symmetry. by apply He. }
  clear Hlt. induction Hb as [|o ops Ho Hb IH]; intros a asked Hk H0 Hlt; simpl in *.
  { rewrite Z.add_0_r. done. }
  pose proof (charges_nonneg a o Ho). pose proof (asked_nonneg (vram_step a o) ops Hb).
  destruct (vram_step_books asked a o Hk Ho H0 ltac:(lia)) as [Hk1 He1].
  destruct (IH (vram_step a o) _ Hk1 ltac:(lia) ltac:(lia)) as [Hk2 He2].
  rewrite Z.add_assoc. split; [done|]. intros Heq [Ho1 Ho2]. auto.
Qed.

(** * The window's quota *)

Inductive quota_op := TryMap (size : Z) | Give (size : Z).

Fixpoint remove1 (x : Z) (l : list Z) : list Z :=
  match l with
  | [] => []
  | y :: l => if x =? y then l else y :: remove1 x l
  end.

(** The quota with the sizes of the mappings that exist. *)
Definition quota_step (st : WindowQuota * list Z) (o : quota_op) : WindowQuota * list Z :=
  let '(w, l) := st in
  match o with
  | TryMap size =>
      match try_map w size with (w, None) => (w, size :: l) | (w, Some _) => (w, l) end
  | Give size => (quota_release w size, remove1 size l)
  end.

(** Only mappings that exist are given back. *)
Fixpoint gives_ok (st : WindowQuota * list Z) (ops : list quota_op) : Prop :=
  match ops with
  | [] => True
  | o :: ops =>
      match o with Give size => size ∈ st.2 | TryMap size => 0 <= size end /\ gives_ok (quota_step st o) ops
  end.

Fixpoint sum_list_Z (l : list Z) : Z :=
  match l with [] => 0 | x :: l => x + sum_list_Z l end.

Lemma remove1_spec x l : x ∈ l -> l ≡ₚ x :: remove1 x l.
Proof.
  induction l as [|y l IH]; intros Hx; [by apply elem_of_nil in Hx|]. simpl.
  destruct (Z.eqb_spec x y) as [->|Hne]; [done|]. apply elem_of_cons in Hx as [?|Hx]; [done|].
  rewrite (IH Hx) at 1. apply Permutation_swap.
Qed.

Lemma sum_list_perm l l' : l ≡ₚ l' -> sum_list_Z l = sum_list_Z l'.
Proof. induction 1; simpl; lia. Qed.

(** [n] operations so far. *)
Record quota_ok (lim max : Z) (n : nat) (st : WindowQuota * list Z) : Prop := {
  qo_lim : limit_bytes st.1 = lim;
  qo_max : max_mappings st.1 = max;
  qo_used : q_used st.1 = sum_list_Z st.2;
  qo_count : mappings st.1 = Z.of_nat (length st.2);
  qo_n : (length st.2 <= n)%nat;
  qo_pos : Forall (fun x => 0 <= x) st.2;
  qo_bound : q_used st.1 <= lim;
  qo_peak : q_used st.1 <= q_peak st.1 <= lim;
  qo_maps : max <> 0 -> mappings st.1 <= max
}.

Lemma sum_list_nonneg l : Forall (fun x => 0 <= x) l -> 0 <= sum_list_Z l.
Proof. induction 1; simpl; lia. Qed.

Lemma try_map_ok lim max n w l size :
  quota_ok lim max n (w, l) -> 0 < lim < 2 ^ 64 - 1 -> 0 <= max -> Z.of_nat (S n) < 2 ^ 32 -> 0 <= size ->
  quota_ok lim max (S n) (quota_step (w, l) (TryMap size)).
Proof.
  intros [H1 H2 H3 H4 H5 H6 H7 H8 H9] Hl Hmx Hn Hs. simpl in *. unfold try_map. rewrite H1, H2.
  pose proof (sum_list_nonneg l H6).
  rewrite (proj2 (Z.eqb_neq lim 0)) by lia. cbn [negb andb].
  destruct (Z.ltb_spec lim (saturating_add 64 (q_used w) size)) as [Hr|Hr].
  { split; simpl; try done; try lia. }
  assert (Esat : saturating_add 64 (q_used w) size = q_used w + size) by (unfold saturating_add in *; lia).
  destruct (negb (max =? 0) && (max <=? mappings w)) eqn:Em.
  { split; simpl; try done; try lia. }
  rewrite Esat in *. split; simpl; try done.
  - rewrite H3. simpl. lia.
  - rewrite H4. rewrite wrap_small by (unfold is_word; lia). lia.
  - lia.
  - by constructor.
  - lia.
  - intros Hne. rewrite (proj2 (Z.eqb_neq max 0)) in Em by done. simpl in Em. bool_prop.
    rewrite wrap_small by (unfold is_word; lia). lia.
Qed.

Lemma give_ok lim max n w l size :
  quota_ok lim max n (w, l) -> size ∈ l -> quota_ok lim max (S n) (quota_step (w, l) (Give size)).
Proof.
  intros [H1 H2 H3 H4 H5 H6 H7 H8 H9] Hin. simpl in *. unfold saturating_sub.
  pose proof (remove1_spec size l Hin) as Hp. pose proof (sum_list_perm _ _ Hp) as Hsum. simpl in Hsum.
  pose proof (Permutation_length Hp) as Hlen. simpl in Hlen. rewrite Hp in H6.
  apply Forall_cons in H6 as [Hs0 H6]. pose proof (sum_list_nonneg _ H6).
  split; simpl; unfold saturating_sub; (done || lia).
Qed.

(** The host-visible window's quota is kept and given back.  For any
    sequence of map requests of any sizes and releases of mappings that exist:
    the bytes counted are exactly those of the mappings that exist, never above
    the limit (nor is the recorded peak), the count is their number, never above
    its own limit, and a refused request changes neither. *)
Theorem window_quota_kept (lim max : Z) (ops : list quota_op)
    (Hl : 0 < lim < 2 ^ 64 - 1) (Hm : 0 <= max) (Hn : Z.of_nat (length ops) < 2 ^ 32)
    (Hg : gives_ok (WindowQuota_new lim max, []) ops) :
  let '(w, l) := foldl quota_step (WindowQuota_new lim max, []) ops in
  q_used w = sum_list_Z l /\ q_used w <= q_peak w <= lim /\
  mappings w = Z.of_nat (length l) /\ (max <> 0 -> mappings w <= max).
Proof.
  assert (H0 : quota_ok lim max 0 (WindowQuota_new lim max, [])) by (split; simpl; try done; lia).
  assert (Hgen : forall ops n st, quota_ok lim max n st -> Z.of_nat (n + length ops) < 2 ^ 32 ->
    gives_ok st ops -> quota_ok lim max (n + length ops) (foldl quota_step st ops)).
  { clear H0 Hn Hg ops. intros ops. induction ops as [|o ops IH]; intros n [w l] Hk Hn Hg; simpl in *.
    { by rewrite Nat.add_0_r. }
    destruct Hg as [Ho Hg]. rewrite <- Nat.add_succ_comm. apply IH; [|lia|done].
    destruct o; [apply try_map_ok; (done || lia)|by apply give_ok]. }
  pose proof (Hgen ops 0%nat _ H0 Hn Hg) as Hk.
  destruct (foldl quota_step _ ops) as [w l]. destruct Hk. simpl in *. auto.
Qed.

(** * Streams *)

(** The records Mesa sends: an allocation, laid out as [amdgpu_ccmd_gem_new_req],
    or any other command with a body of whole 8-byte words. *)
Inductive ccmd_rec :=
  | GemNew (blob_id size heap : Z)
  | OtherCmd (cmd : Z) (body : list Z).

Definition encode (r : ccmd_rec) : list Z :=
  match r with
  | GemNew blob_id size heap =>
      le_bytes 4 AMDGPU_CCMD_GEM_NEW ++ le_bytes 4 56 ++ le_bytes 4 1 ++ le_bytes 4 0 ++
      le_bytes 8 blob_id ++ le_bytes 8 size ++ le_bytes 8 4096 ++ le_bytes 4 heap ++
      le_bytes 4 0 ++ le_bytes 8 0
  | OtherCmd cmd body =>
      le_bytes 4 cmd ++ le_bytes 4 (16 + Z.of_nat (length body)) ++ le_bytes 4 1 ++ le_bytes 4 0 ++ body
  end.

Definition rec_ok (r : ccmd_rec) : Prop :=
  match r with
  | GemNew blob_id size heap => is_word 64 blob_id /\ is_word 64 size /\ is_word 32 heap
  | OtherCmd cmd body =>
      is_word 32 cmd /\ cmd <> AMDGPU_CCMD_GEM_NEW /\ Z.of_nat (length body) mod 8 = 0 /\
      16 + Z.of_nat (length body) < 2 ^ 32
  end.

(** The charges of a stream: the allocations that ask for VRAM, in order. *)
Definition stream_charges (ctx : Z) (rs : list ccmd_rec) : list ((Z * Z) * Z) :=
  rs ≫= fun r => match r with
                 | GemNew blob_id size heap =>
                     if has_bits heap AMDGPU_GEM_DOMAIN_VRAM then [((ctx, blob_id), size)] else []
                 | OtherCmd _ _ => []
                 end.

Definition rec_step (lim ctx : Z) (p : Proposal) (r : ccmd_rec) : Proposal :=
  match r with GemNew b s h => propose lim ctx b s h p | OtherCmd _ _ => p end.

Lemma rd_le n b off v : take n (drop off b) = le_bytes n v -> (off + n <= length b)%nat ->
  0 <= v < 2 ^ (8 * Z.of_nat n) -> rd n b off = Some v.
Proof.
  intros Ht Hl Hv. unfold rd. rewrite (proj2 (Nat.leb_le _ _)) by done.
  by rewrite Ht, of_le_le_bytes_small.
Qed.

Lemma bad_len_good len avail : 16 <= len <= avail -> len mod 8 = 0 -> bad_len len avail = false.
Proof.
  intros Hl Hm. unfold bad_len, CCMD_ALIGN, CCMD_HDR_LEN. rewrite Hm.
  rewrite !(proj2 (Z.ltb_ge _ _)) by lia. done.
Qed.

(** One record at the front of a stream. *)
Lemma scan_encode fuel lim ctx r rest p :
  rec_ok r ->
  scan (S fuel) lim ctx (encode r ++ rest) p = scan fuel lim ctx rest (rec_step lim ctx p r).
Proof.
  intros Hr. cbn [scan]. destruct r as [b s h|cmd body]; destruct Hr as (H1 & H2 & H3).
  - change (length (encode (GemNew b s h) ++ rest)) with (56 + length rest)%nat.
    rewrite (proj2 (Nat.ltb_ge _ _)) by (unfold CCMD_HDR_LEN; lia).
    unfold rd_u32 at 1 2. rewrite (rd_le 4 _ 0 AMDGPU_CCMD_GEM_NEW), (rd_le 4 _ 4 56);
      [|reflexivity|simpl; lia|done|reflexivity|simpl; lia|done].
    rewrite bad_len_good by (lia || done). unfold scan_record, rd_u64, rd_u32.
    rewrite (rd_le 8 _ GEM_NEW_OFF_BLOB_ID b), (rd_le 8 _ GEM_NEW_OFF_ALLOC_SIZE s),
      (rd_le 4 _ GEM_NEW_OFF_PREFERRED_HEAP h);
      [|reflexivity|simpl; lia|exact H3|reflexivity|simpl; lia|exact H2|reflexivity|simpl; lia|exact H1].
    reflexivity.
  - destruct H3 as [H3 H4]. set (n := length body) in *.
    assert (Hlen : length (encode (OtherCmd cmd body) ++ rest) = (16 + n + length rest)%nat).
    { rewrite length_app. simpl. unfold n. lia. }
    rewrite Hlen. rewrite (proj2 (Nat.ltb_ge _ _)) by (unfold CCMD_HDR_LEN; lia).
    unfold rd_u32. rewrite (rd_le 4 _ 0 cmd), (rd_le 4 _ 4 (16 + Z.of_nat n));
      [|reflexivity|rewrite Hlen; lia|simpl; lia|reflexivity|rewrite Hlen; lia|exact H1].
    rewrite bad_len_good; [|lia|rewrite Z.add_mod by lia; rewrite H3; done].
    unfold scan_record. rewrite (proj2 (Z.eqb_neq _ _)) by done.
    f_equal. replace (Z.to_nat (16 + Z.of_nat n)) with (16 + n)%nat by lia. cbn. unfold n.
    by rewrite drop_app_length.
Qed.

Lemma encode_length r : (16 <= length (encode r))%nat.
Proof. destruct r; simpl; lia. Qed.

Lemma scan_stream fuel lim ctx rs p :
  Forall rec_ok rs -> (length (rs ≫= encode) <= fuel)%nat ->
  scan fuel lim ctx (rs ≫= encode) p = inr (foldl (rec_step lim ctx) p rs, []).
Proof.
  intros Hr. revert fuel p. induction Hr as [|r rs Hr _ IH]; intros fuel p Hf; cbn in Hf |- *.
  { by destruct fuel. }
  rewrite length_app in Hf. pose proof (encode_length r). destruct fuel as [|fuel]; [lia|].
  rewrite scan_encode by done. apply IH. lia.
Qed.

Lemma rec_steps_proposed lim ctx rs p :
  proposed (foldl (rec_step lim ctx) p rs) = proposed p ++ stream_charges ctx rs.
Proof.
  revert p. induction rs as [|r rs IH]; intros p; simpl; [by rewrite app_nil_r|]. rewrite IH.
  destruct r as [b s h|]; simpl; [|done]. unfold propose.
  destruct (has_bits h AMDGPU_GEM_DOMAIN_VRAM); simpl; [by rewrite <- app_assoc|].
  by destruct (has_bits h AMDGPU_GEM_DOMAIN_GTT).
Qed.

(** With the stream's length as fuel the walk always ends where the source's
    loop does: fewer bytes left than a header. *)
Lemma scan_ends fuel lim ctx rec p p' rest :
  (length rec <= fuel)%nat -> scan fuel lim ctx rec p = inr (p', rest) -> (length rest < CCMD_HDR_LEN)%nat.
Proof.
  revert rec p. induction fuel as [|fuel IH]; intros rec p Hf; simpl.
  { intros [= <- <-]. unfold CCMD_HDR_LEN. lia. }
  destruct (Nat.ltb_spec (length rec) CCMD_HDR_LEN) as [Hl|Hl]; [by intros [= <- <-]|].
  destruct (rd_u32 rec 0) as [cmd|]; [|done]. destruct (rd_u32 rec 4) as [len|]; [|done].
  destruct (bad_len len _) eqn:Eb; [done|]. unfold bad_len, CCMD_HDR_LEN in Eb. bool_prop.
  destruct (scan_record _ _ _ _ _ _); [done|]. apply IH. rewrite length_drop. lia.
Qed.

Lemma stream_sizes ctx rs :
  Forall rec_ok rs -> Forall (fun kb : (Z * Z) * Z => 0 <= kb.2) (stream_charges ctx rs).
Proof.
  intros Hr. unfold stream_charges. apply Forall_bind. eapply Forall_impl; [exact Hr|].
  intros [b s h|c l]; simpl; [|constructor]. intros (_ & Hs & _).
  destruct (has_bits h AMDGPU_GEM_DOMAIN_VRAM); [|constructor].
  apply Forall_singleton. simpl. unfold is_word in Hs. lia.
Qed.

Lemma stream_charges_new ctx b s h rs :
  stream_charges ctx (GemNew b s h :: rs) =
  (if has_bits h AMDGPU_GEM_DOMAIN_VRAM then [((ctx, b), s)] else []) ++ stream_charges ctx rs.
Proof. done. Qed.

(** The running total, and when the budget is reported passed. *)
Lemma rec_steps_over lim ctx rs p :
  Forall rec_ok rs -> 0 <= tentative p -> tentative p + sum_sizes (stream_charges ctx rs) < 2 ^ 64 ->
  let p' := foldl (rec_step lim ctx) p rs in
  tentative p' = tentative p + sum_sizes (stream_charges ctx rs) /\
  (over p' <> None <-> over p <> None \/ (stream_charges ctx rs <> [] /\ lim < tentative p')) /\
  (forall w, over p' = Some (MalformedStream w) -> over p = Some (MalformedStream w)).
Proof.
  intros Hr. revert p. induction Hr as [|r rs Hr Hrs IH]; intros p Hp Hlt.
  { simpl. split; [lia|]. split; [|done]. split; [by left|]. intros [?|[? _]]; done. }
  pose proof (sum_sizes_nonneg _ (stream_sizes ctx rs Hrs)) as H0.
  destruct r as [b s h|cmd body]; cbn [foldl rec_step]; [|by apply IH].
  destruct Hr as (_ & Hs & _). unfold is_word in Hs. rewrite stream_charges_new in *.
  unfold propose. destruct (has_bits h AMDGPU_GEM_DOMAIN_VRAM);
    cbn [app sum_sizes snd tentative] in Hlt |- *.
  2: { destruct (has_bits h AMDGPU_GEM_DOMAIN_GTT);
         match goal with |- context [foldl _ ?x rs] => exact (IH x Hp Hlt) end. }
  unfold saturating_add. rewrite Z.min_l by lia.
  match goal with |- context [foldl _ ?x rs] => set (p1 := x) end.
  destruct (IH p1) as (Et & Eo & Em); [simpl; lia|simpl; lia|]. simpl in Et. rewrite Et.
  split; [lia|]. split.
  - rewrite Eo, Et. simpl. destruct (Z.ltb_spec lim (tentative p + s)) as [Hl|Hl].
    + split; [|by left; destruct (over p)]. intros _. destruct (over p); [by left|right]. split; [done|lia].
    + split; [intros [?|[_ ?]]; [by left|by right]|]. intros [?|[_ Hl']]; [by left|right]. split; [|done].
      intros Hnil. rewrite Hnil in Hl'. simpl in Hl'. lia.
  - intros w Hw. apply Em in Hw. simpl in Hw. destruct (lim <? tentative p + s); [|done].
    by destruct (over p).
Qed.

(** A well-formed command stream is charged for exactly its VRAM
    allocations.  Whatever other commands surround them, every allocation that
    asks for VRAM adds its size to the charge under its own blob id, in order,
    and nothing else does; the stream is never called malformed; and the guest
    is reported over its budget exactly when the stream allocates VRAM and
    leaves the charge above the limit. *)
Theorem stream_charged_exactly (a : VramAccountant) (ctx : Z) (rs : list ccmd_rec)
    (Hctx : ctx ∈ drm_contexts a) (Hr : Forall rec_ok rs)
    (Hlt : 0 <= charged a /\ charged a + sum_sizes (stream_charges ctx rs) < 2 ^ 64)
    (Hpend : charges_ok (pending a)) :
  let '(a', n) := observe_submit a ctx (rs ≫= encode) in
  charged a' = charged a + sum_sizes (stream_charges ctx rs) /\ live a' = live a /\
  pending a' = (foldl (charge_one ctx) (charged a, pending a) (stream_charges ctx rs)).2 /\
  (forall w, n <> Some (MalformedStream w)) /\
  (n <> None <-> stream_charges ctx rs <> [] /\ limit a < charged a').
Proof.
  unfold observe_submit. rewrite bool_decide_true by done. cbn [negb].
  change {| proposed := []; proposed_gtt := 0; tentative := charged a; over := None; over_count := 0 |}
    with (empty_proposal a). rewrite scan_stream by (done || lia). cbn [length Nat.eqb negb].
  destruct (rec_steps_over (limit a) ctx rs (empty_proposal a) Hr (proj1 Hlt) (proj2 Hlt)) as (Et & Eo & Em).
  pose proof (rec_steps_proposed (limit a) ctx rs (empty_proposal a)) as Ep.
  set (p := foldl _ _ _) in *. simpl in Ep, Et.
  pose proof (settle_fields a ctx p) as Hf. rewrite Ep in Hf.
  pose proof (charge_all_spec ctx _ (charged a) (pending a) (stream_sizes ctx rs Hr) Hpend
    (proj1 Hlt) (proj2 Hlt)) as Hspec.
  destruct (foldl (charge_one ctx) (charged a, pending a) (stream_charges ctx rs)) as [c pend].
  destruct Hf as (Ec & Epd & El). destruct Hspec as (-> & _). rewrite Ec, Epd, El, <- Et.
  do 3 (split; [done|]). split; [by intros w Hw%Em|]. rewrite Eo. simpl. tauto.
Qed.

(** * A guest with one context *)

Definition MIB : Z := Z.shiftl 1 20.

(** Allocate 256 MiB of VRAM as blob 1, look something up, allocate GTT; claim
    the blob as resource 7 and free it. *)
Definition guest_ops : list vram_op :=
  [NoteContext 1 CAPSET_DRM;
   Submit 1 ([GemNew 1 (256 * MIB) AMDGPU_GEM_DOMAIN_VRAM; OtherCmd 1 (replicate 32 0);
              GemNew 2 MIB AMDGPU_GEM_DOMAIN_GTT] ≫= encode);
   Claim 1 1 7; Release 7].

Lemma guest_ops_bytes : Forall op_bytes guest_ops.
Proof.
  repeat constructor; simpl; try done; vm_compute; try split; congruence.
Qed.

Lemma vram_books_balance_witness :
  let a := run_vram (VramAccountant_new (512 * MIB)) guest_ops in
  held a <= charged a.
Proof.
  assert (Hlt : asked_by (VramAccountant_new (512 * MIB)) guest_ops < 2 ^ 64) by (by vm_compute).
  exact (proj1 (proj1 (vram_books_balance (512 * MIB) guest_ops guest_ops_bytes Hlt))).
Defined.

Definition drm_guest : VramAccountant := note_context (VramAccountant_new (512 * MIB)) 1 CAPSET_DRM.

Lemma stream_charged_exactly_witness :
  charged (observe_submit drm_guest 1 ([GemNew 1 (600 * MIB) AMDGPU_GEM_DOMAIN_VRAM] ≫= encode)).1
    = 600 * MIB.
Proof.
  pose proof (stream_charged_exactly drm_guest 1 [GemNew 1 (600 * MIB) AMDGPU_GEM_DOMAIN_VRAM]) as H.
  destruct (observe_submit drm_guest 1 _) as [a' n]. destruct H as [Hc _].
  - apply (bool_decide_unpack (1 ∈ drm_contexts drm_guest)). by vm_compute.
  - repeat constructor; vm_compute; congruence.
  - split; [vm_compute; congruence|by vm_compute].
  - by intros k c Hk.
  - exact Hc.
Defined.

Lemma window_quota_kept_witness :
  let '(w, l) := foldl quota_step (WindowQuota_new (16 * MIB) 0, [])
    [TryMap (8 * MIB); TryMap (2 ^ 64 - 1); TryMap (8 * MIB); Give (8 * MIB)] in
  q_used w = sum_list_Z l.
Proof.
  pose proof (window_quota_kept (16 * MIB) 0
    [TryMap (8 * MIB); TryMap (2 ^ 64 - 1); TryMap (8 * MIB); Give (8 * MIB)]) as H.
  destruct (foldl quota_step _ _) as [w l]. destruct H as [Hu _].
  - vm_compute. split; congruence.
  - lia.
  - simpl. lia.
  - vm_compute. repeat split; try congruence. left.
  - exact Hu.
Defined.

(** Sizes are the guest's: two buffers of 2^63 bytes are charged as 2^64 - 1, one less
    than is then held. *)
Example saturated_charge_falls_short :
  let s := [GemNew 1 (2 ^ 63) AMDGPU_GEM_DOMAIN_VRAM; GemNew 2 (2 ^ 63) AMDGPU_GEM_DOMAIN_VRAM] ≫= encode in
  let a := run_vram drm_guest [Submit 1 s] in
  charged a = 2 ^ 64 - 1 /\ held a = 2 ^ 64.
Proof. vm_compute. split; reflexivity. Qed.

(** A blob id sent twice is charged twice and given back once: with every
    buffer freed, 256 MiB stay charged. *)
Example repeated_blob_stays_charged :
  let s := [GemNew 1 (256 * MIB) AMDGPU_GEM_DOMAIN_VRAM] ≫= encode in
  let a := run_vram drm_guest [Submit 1 s; Submit 1 s; Claim 1 1 7; Release 7; ForgetContext 1] in
  held a = 0 /\ charged a = 256 * MIB.
Proof. vm_compute. split; reflexivity. Qed.
