(* ===== verification/GpuChain.v ===== *)
(** Descriptor chains as the GPU reads and writes them,
    [virtio-devices/src/gpu/descriptor_utils.rs]: the readable half is copied
    into a buffer that is read object by object, the writable half is written
    segment by segment.

    [ByteValued] stands for the trait of the vm-memory crate: a struct that is
    its bytes.  [read_exact] and [write_all] are the provided methods of
    [std::io::Read] and [std::io::Write]. *)

From S2P Require Import Prelude GuestMem Virtqueue.

(** * Plain structs *)

(** The widths of a struct's fields in bytes, in memory order and with the
    padding the sources spell out as fields; its field values; and the struct
    of given field values. *)
Class ByteValued (T : Type) := {
  layout : list nat;
  vals : T -> list Z;
  build : list Z -> T
}.
Arguments layout T {_}.

(** Field [i], and the fields of a nested struct or array. *)
Definition at_ (i : nat) (l : list Z) : Z := default 0 (l !! i).
Definition slice_ (i n : nat) (l : list Z) : list Z := take n (drop i l).

(** Little-endian fields of the given widths, at the front of [b]. *)
Fixpoint parse_fields (ws : list nat) (b : list Z) : list Z :=
  match ws with
  | [] => []
  | n :: ws => of_le (take n b) :: parse_fields ws (drop n b)
  end.

Fixpoint emit_fields (ws : list nat) (vs : list Z) : list Z :=
  match ws, vs with
  | n :: ws, v :: vs => le_bytes n v ++ emit_fields ws vs
  | _, _ => []
  end.

Definition size_of (T : Type) `{ByteValued T} : nat := sum_list (layout T).
Definition from_bytes {T : Type} `{ByteValued T} (b : list Z) : T := build (parse_fields (layout T) b).
Definition as_slice {T : Type} `{ByteValued T} (v : T) : list Z := emit_fields (layout T) (vals v).

(** [shape v]: the arrays of [v] have their declared lengths. *)
Class ByteValuedLaws (T : Type) `{ByteValued T} (shape : T -> Prop) : Prop := {
  build_vals v : shape v -> build (vals v) = v;
  length_vals v : shape v -> length (vals v) = length (layout T);
  vals_build l : length l = length (layout T) -> vals (build l) = l;
  shape_build l : length l = length (layout T) -> shape (build l)
}.

(** The fields of [v] are in the range of their types. *)
Definition in_width (T : Type) `{ByteValued T} (v : T) : Prop :=
  Forall2 (fun n x => is_word (8 * Z.of_nat n) x) (layout T) (vals v).

#[export] Instance u64_bytes : ByteValued Z := {
  layout := [8%nat]; vals v := [v]; build l := at_ 0 l
}.

(** * Reader *)

Definition is_write_only (d : Desc) : bool := has_bits d.2 VRING_DESC_F_WRITE.

Definition MAX_READABLE_BYTES : Z := Z.shiftl 64 20.

Inductive DescError :=
  | DescriptorChainOverflow
  | DescriptorChainTooLong (len : Z)
  | GuestMemoryError.

Record Reader := { r_buf : list Z; r_pos : nat }.

Section Chain.
Context {M : Type} {HM : GuestMemory M}.

(** The loop of [Reader::new]: [data] is what was copied so far. *)
Fixpoint copy_readable (mem : M) (chain : list Desc) (total_len : Z) (data : list Z)
    : DescError + list Z :=
  match chain with
  | [] => inr data
  | d :: chain =>
      if is_write_only d then inr data
      else
        let len := d.1.2 in
        match checked_add 64 total_len len with
        | None => inl DescriptorChainOverflow
        | Some total_len =>
            if MAX_READABLE_BYTES <? total_len then inl (DescriptorChainTooLong total_len)
            else
              match read_slice mem d.1.1 (Z.to_nat len) with
              | None => inl GuestMemoryError
              | Some b => copy_readable mem chain total_len (data ++ b)
              end
        end
  end.

Definition Reader_new (mem : M) (chain : list Desc) : DescError + Reader :=
  match copy_readable mem chain 0 [] with
  | inl e => inl e
  | inr data => inr {| r_buf := data; r_pos := 0 |}
  end.

(** What the reader has not consumed yet. *)
Definition unread (r : Reader) : list Z := drop (r_pos r) (r_buf r).

(** [read_exact] of [n] bytes; a short read consumes what there was. *)
Definition read_exact (r : Reader) (n : nat) : Reader * option (list Z) :=
  if (n <=? length (unread r))%nat then
    ({| r_buf := r_buf r; r_pos := r_pos r + n |}, Some (take n (unread r)))
  else ({| r_buf := r_buf r; r_pos := length (r_buf r) |}, None).

Definition read_obj (T : Type) `{ByteValued T} (r : Reader) : Reader * option T :=
  let '(r, b) := read_exact r (size_of T) in (r, from_bytes <$> b).

(** The position is put back, whatever the outcome. *)
Definition peek_obj (T : Type) `{ByteValued T} (r : Reader) : Reader * option T :=
  let at_ := r_pos r in
  let '(r, obj) := read_obj T r in
  ({| r_buf := r_buf r; r_pos := at_ |}, obj).

Definition r_available_bytes (r : Reader) : Z := Z.of_nat (length (r_buf r)) - Z.of_nat (r_pos r).

(** * Writer *)

Record Writer := {
  segments : list (Z * Z);
  write_pos : Z;
  bytes_written : Z;
  total_len : Z
}.

Fixpoint take_writable (chain : list Desc) (total : Z) (segs : list (Z * Z))
    : DescError + (list (Z * Z) * Z) :=
  match chain with
  | [] => inr (segs, total)
  | d :: chain =>
      match checked_add 64 total d.1.2 with
      | None => inl DescriptorChainOverflow
      | Some total => take_writable chain total (segs ++ [d.1])
      end
  end.

Fixpoint skip_readable (chain : list Desc) : list Desc :=
  match chain with
  | [] => []
  | d :: rest => if is_write_only d then chain else skip_readable rest
  end.

Definition Writer_new (chain : list Desc) : DescError + Writer :=
  match take_writable (skip_readable chain) 0 [] with
  | inl e => inl e
  | inr (segs, total) =>
      inr {| segments := segs; write_pos := 0; bytes_written := 0; total_len := total |}
  end.

Definition w_available_bytes (w : Writer) : Z := saturating_sub (total_len w) (write_pos w).

(** The loop of [Writer::write] over the segments left, with what is left of
    the buffer and the bytes still to skip; the count is [None] on an error. *)
Fixpoint write_segs (mem : M) (segs : list (Z * Z)) (buf : list Z) (skip : Z) : M * option nat :=
  match segs with
  | [] => (mem, Some 0%nat)
  | (addr, len) :: segs =>
      match buf with
      | [] => (mem, Some 0%nat)
      | _ :: _ =>
          if len <=? skip then write_segs mem segs buf (skip - len)
          else
            let to_write := Z.to_nat (Z.min (len - skip) (Z.of_nat (length buf))) in
            let '(mem, ok) := write_slice mem (addr ⊕ skip) (take to_write buf) in
            if ok : bool then
              let '(mem, n) := write_segs mem segs (drop to_write buf) 0 in
              (mem, Nat.add to_write <$> n)
            else (mem, None)
      end
  end.

Definition write (mem : M) (w : Writer) (buf : list Z) : M * Writer * option nat :=
  let '(mem, n) := write_segs mem (segments w) buf (write_pos w) in
  (mem,
   match n with
   | Some n => {| segments := segments w; write_pos := write_pos w + Z.of_nat n;
                  bytes_written := bytes_written w + Z.of_nat n; total_len := total_len w |}
   | None => w
   end, n).

(** [write_all]: every round writes at least a byte or ends the loop. *)
Fixpoint write_all_loop (fuel : nat) (mem : M) (w : Writer) (buf : list Z) : M * Writer * bool :=
  match fuel, buf with
  | _, [] => (mem, w, true)
  | O, _ => (mem, w, false)
  | S fuel, _ =>
      match write mem w buf with
      | (mem, w, None) => (mem, w, false)
      | (mem, w, Some O) => (mem, w, false)
      | (mem, w, Some n) => write_all_loop fuel mem w (drop n buf)
      end
  end.

Definition write_all (mem : M) (w : Writer) (buf : list Z) : M * Writer * bool :=
  write_all_loop (length buf) mem w buf.

Definition write_obj {T : Type} `{ByteValued T} (mem : M) (w : Writer) (v : T) : M * Writer * bool :=
  write_all mem w (as_slice v).

End Chain.
