(* ===== verification/GpuChainFacts.v ===== *)
(** What the GPU's reader and writer do with a chain: the reader holds the
    readable bytes in order and never more than its ceiling; the writer fills
    the segments in order and touches nothing else; a struct written and read
    back is the struct. *)

From S2P Require Import Prelude GuestMem Virtqueue GpuChain.

(** * Structs *)

Lemma length_parse_fields ws b : length (parse_fields ws b) = length ws.
Proof. revert b. induction ws; intros; simpl; auto. Qed.

Lemma length_emit_fields ws vs : length vs = length ws -> length (emit_fields ws vs) = sum_list ws.
Proof.
  revert vs. induction ws as [|n ws IH]; intros [|v vs] Hl; simplify_eq/=; [done|].
  by rewrite length_app, length_le_bytes, IH.
Qed.

Lemma emit_fields_bytes ws vs : Forall is_byte (emit_fields ws vs).
Proof.
  revert vs. induction ws as [|n ws IH]; intros [|v vs]; simpl; try constructor.
  apply Forall_app_2; auto with buffers.
Qed.

Lemma parse_emit ws vs rest :
  Forall2 (fun n x => is_word (8 * Z.of_nat n) x) ws vs ->
  parse_fields ws (emit_fields ws vs ++ rest) = vs.
Proof.
  intros H. induction H as [|n v ws vs Hv _ IH]; simpl; [done|].
  rewrite <- app_assoc, take_app_length', drop_app_length' by (by rewrite length_le_bytes).
  by rewrite of_le_le_bytes_small, IH.
Qed.

Lemma emit_parse ws b :
  Forall is_byte b -> length b = sum_list ws -> emit_fields ws (parse_fields ws b) = b.
Proof.
  revert b. induction ws as [|n ws IH]; intros b Hb Hl; simpl in *.
  - by destruct b.
  - rewrite IH by (try apply Forall_drop; rewrite ?length_drop; auto; lia).
    assert (length (take n b) = n) as Ht by (rewrite length_take; lia).
    rewrite <- Ht at 1. rewrite le_bytes_of_le by (by apply Forall_take). apply take_drop.
Qed.

Lemma parse_fields_width ws b :
  Forall is_byte b -> (sum_list ws <= length b)%nat ->
  Forall2 (fun n x => is_word (8 * Z.of_nat n) x) ws (parse_fields ws b).
Proof.
  revert b. induction ws as [|n ws IH]; intros b Hb Hl; simpl in *; constructor.
  - assert (length (take n b) = n) as Ht by (rewrite length_take; lia).
    rewrite <- Ht at 1. apply of_le_range. by apply Forall_take.
  - apply IH; [by apply Forall_drop|rewrite length_drop; lia].
Qed.

(** The reader [n] bytes on. *)
Definition skip_bytes (r : Reader) (n : nat) : Reader := {| r_buf := r_buf r; r_pos := r_pos r + n |}.

Lemma unread_skip r n b rest : unread r = b ++ rest -> length b = n -> unread (skip_bytes r n) = rest.
Proof. intros Hu <-. unfold unread in *. simpl. rewrite <- drop_drop, Hu. apply drop_app_length. Qed.

Section Structs.
Context {T : Type} {BT : ByteValued T} {shape : T -> Prop} {HL : ByteValuedLaws T shape}.

Lemma length_as_slice (v : T) : shape v -> length (as_slice v) = size_of T.
Proof. intros. by apply length_emit_fields, length_vals. Qed.

Lemma from_as_slice (v : T) rest : shape v -> in_width T v -> from_bytes (as_slice v ++ rest) = v.
Proof. intros. unfold from_bytes, as_slice. rewrite parse_emit by done. by apply build_vals. Qed.

Lemma as_slice_from (b : list Z) :
  Forall is_byte b -> length b = size_of T -> as_slice (from_bytes b : T) = b.
Proof.
  intros. unfold as_slice, from_bytes. rewrite vals_build by apply length_parse_fields.
  by apply emit_parse.
Qed.

Lemma from_bytes_valid (b : list Z) :
  Forall is_byte b -> length b = size_of T -> shape (from_bytes b : T) /\ in_width T (from_bytes b).
Proof.
  intros Hb Hl. unfold in_width, from_bytes.
  split; [apply shape_build, length_parse_fields|].
  rewrite vals_build by apply length_parse_fields. apply parse_fields_width; [done|].
  unfold size_of in Hl. lia.
Qed.

(** * Reading objects *)

(** The object at the front of a reader is the one whose bytes are there. *)
Lemma read_obj_iff r r' (v : T) :
  Forall is_byte (unread r) ->
  read_obj T r = (r', Some v) <->
  shape v /\ in_width T v /\ r' = skip_bytes r (size_of T) /\
  exists rest, unread r = as_slice v ++ rest.
Proof.
  intros Hb. unfold read_obj, read_exact. split.
  - destruct (Nat.leb _ _) eqn:E; [|done]. apply Nat.leb_le in E. simpl. intros [= <- <-].
    assert (length (take (size_of T) (unread r)) = size_of T) as Ht by (rewrite length_take; lia).
    assert (Forall is_byte (take (size_of T) (unread r))) as Hbt by (by apply Forall_take).
    destruct (from_bytes_valid _ Hbt Ht) as [Hs Hw]. split_and!; [done..|].
    exists (drop (size_of T) (unread r)). rewrite as_slice_from by done. symmetry. apply take_drop.
  - intros (Hs & Hw & -> & rest & Hu). pose proof (length_as_slice v Hs) as Hl.
    rewrite Hu, length_app, Hl, (proj2 (Nat.leb_le _ _)) by lia. simpl.
    pose proof (from_as_slice v [] Hs Hw) as Hf. rewrite app_nil_r in Hf.
    by rewrite take_app_length', Hf by done.
Qed.

Lemma read_obj_short r : (length (unread r) < size_of T)%nat -> (read_obj T r).2 = None.
Proof.
  intros. unfold read_obj, read_exact. by rewrite (proj2 (Nat.leb_gt _ _)).
Qed.

Lemma peek_same r : (peek_obj T r).1 = r.
Proof.
  unfold peek_obj, read_obj, read_exact. destruct r as [buf pos]. by destruct (_ <=? _)%nat.
Qed.

End Structs.

(** * Splices of a concatenation *)

Lemma splice_nil (l : list Z) s : splice l s [] = l.
Proof. unfold splice. simpl. rewrite Nat.add_0_r. apply take_drop. Qed.

Lemma splice_app_r (b c x : list Z) s :
  (length b <= s)%nat -> splice (b ++ c) s x = b ++ splice c (s - length b) x.
Proof.
  intros Hs. unfold splice. rewrite take_app_ge, drop_app_ge by lia.
  rewrite <- app_assoc. repeat f_equal. lia.
Qed.

Lemma splice_app_l (b c x : list Z) s :
  (s + length x <= length b)%nat -> splice (b ++ c) s x = splice b s x ++ c.
Proof.
  intros Hs. unfold splice. rewrite take_app_le, drop_app_le by lia. by rewrite <- !app_assoc.
Qed.

(** Two adjacent splices are one. *)
Lemma splice_splice (l x y : list Z) s :
  (s + length x + length y <= length l)%nat ->
  splice (splice l s x) (s + length x) y = splice l s (x ++ y).
Proof.
  intros H. unfold splice at 1.
  assert (length (take s l ++ x) = (s + length x)%nat) as Hl by (rewrite length_app, length_take; lia).
  unfold splice. rewrite (app_assoc (take s l) x), take_app_length' by lia.
  rewrite drop_app_ge, drop_drop by lia. rewrite <- !app_assoc, length_app.
  do 3 f_equal. rewrite length_app, length_take. f_equal. lia.
Qed.

(** A splice that runs from the end of [b] into [c]. *)
Lemma splice_app_across (b c x y : list Z) s :
  (s + length x = length b)%nat -> splice (b ++ c) s (x ++ y) = splice b s x ++ splice c 0 y.
Proof.
  intros Hs. unfold splice. rewrite take_app_le by lia. rewrite Hs, drop_all, app_nil_r.
  rewrite length_app, drop_app_ge by lia. simpl. rewrite <- !app_assoc. repeat f_equal. lia.
Qed.

(** * The reader *)

Section ReaderFacts.
Context {M : Type} {HM : GuestMemory M} {HL : GuestMemoryLaws M}.

(** The readable descriptors of a chain, and the bytes of a list of ranges. *)
Fixpoint readable (chain : list Desc) : list Desc :=
  match chain with
  | [] => []
  | d :: chain => if is_write_only d then [] else d :: readable chain
  end.

Fixpoint gather (mem : M) (segs : list (Z * Z)) : option (list Z) :=
  match segs with
  | [] => Some []
  | (a, n) :: segs =>
      b ← read_slice mem a (Z.to_nat n);
      rest ← gather mem segs;
      Some (b ++ rest)
  end.

Fixpoint segs_len (segs : list (Z * Z)) : Z :=
  match segs with
  | [] => 0
  | s :: segs => s.2 + segs_len segs
  end.

Lemma segs_len_nonneg segs : Forall (fun t => 0 <= t.2) segs -> 0 <= segs_len segs.
Proof. induction 1; simpl; lia. Qed.

Lemma copy_readable_ok mem chain total data :
  0 <= total <= MAX_READABLE_BYTES -> Forall (fun d => 0 <= d.1.2) (readable chain) ->
  total + segs_len (fst <$> readable chain) <= MAX_READABLE_BYTES ->
  copy_readable mem chain total data =
    match gather mem (fst <$> readable chain) with
    | Some b => inr (data ++ b)
    | None => inl GuestMemoryError
    end.
Proof.
  revert total data. induction chain as [|[[a n] f] chain IH]; intros total data Ht Hn Hs; simpl.
  { by rewrite app_nil_r. }
  simpl in *. destruct (is_write_only _) eqn:Ew; simpl; [by rewrite app_nil_r|]. csimpl in *.
  inversion_clear Hn as [|?? Hn0 Hn1]. simpl in *.
  assert (0 <= segs_len (fst <$> readable chain)) as Hp by (by apply segs_len_nonneg, Forall_fmap).
  unfold MAX_READABLE_BYTES in *. change (Z.shiftl 64 20) with 67108864 in *.
  unfold checked_add. change (2 ^ 64) with 18446744073709551616.
  rewrite (proj2 (Z.ltb_lt _ _)) by lia.
  rewrite (proj2 (Z.ltb_ge _ _)) by lia.
  destruct (read_slice mem a (Z.to_nat n)) as [b|]; [|done]. simpl.
  rewrite IH by (auto; lia). destruct (gather _ _); simpl; [by rewrite app_assoc|done].
Qed.

Lemma readable_nonneg chain :
  Forall (fun d : Desc => 0 <= d.1.2) chain -> Forall (fun d => 0 <= d.1.2) (readable chain).
Proof. induction 1 as [|d chain]; simpl; [done|]. case_match; [done|]. by constructor. Qed.

Lemma copy_readable_total mem chain total data out :
  Forall (fun d => 0 <= d.1.2) chain -> 0 <= total -> total <= MAX_READABLE_BYTES ->
  copy_readable mem chain total data = inr out ->
  total + segs_len (fst <$> readable chain) <= MAX_READABLE_BYTES.
Proof.
  intros Hn. revert total data. induction Hn as [|[[a n] f] chain Hn0 _ IH]; intros total data Ht Hm; simpl.
  { lia. }
  destruct (is_write_only _); [simpl; lia|]. csimpl in *.
  unfold checked_add. destruct (_ <? 2 ^ 64); [|done].
  destruct (MAX_READABLE_BYTES <? _) eqn:Em; [done|]. bool_prop.
  destruct (read_slice mem a (Z.to_nat n)) as [b|] eqn:Eb; [|done].
  intros Hc%IH; lia.
Qed.

(** * The writer *)

(** Every byte of a segment has an address, and no two segments share one. *)
Definition seg_ok (s : Z * Z) : Prop := 0 <= s.1 /\ 0 <= s.2 /\ s.1 + s.2 <= 2 ^ 64.

Inductive segs_apart : list (Z * Z) -> Prop :=
  | apart_nil : segs_apart []
  | apart_cons s segs :
      seg_ok s -> Forall (fun t => apart s.1 s.2 t.1 t.2) segs -> segs_apart segs ->
      segs_apart (s :: segs).

Lemma gather_apart mem segs a l :
  Forall (fun t => apart a (Z.of_nat (length l)) t.1 t.2) segs -> Forall (fun t => 0 <= t.2) segs ->
  gather (write_slice mem a l).1 segs = gather mem segs.
Proof.
  intros H Hn. induction H as [|[b n] segs Ha _ IH]; simpl; [done|].
  inversion_clear Hn as [|?? Hn0 Hn1]. simpl in *.
  by rewrite read_apart, IH by (rewrite ?Z2Nat.id by lia; done).
Qed.

Lemma segs_apart_ok segs : segs_apart segs -> Forall seg_ok segs.
Proof. induction 1; by constructor. Qed.

Lemma segs_apart_nonneg segs : segs_apart segs -> Forall (fun t => 0 <= t.2) segs.
Proof. induction 1 as [|s segs Hs _ _ IH]; constructor; [apply Hs|done]. Qed.

Lemma length_gather mem segs l :
  segs_apart segs -> gather mem segs = Some l -> Z.of_nat (length l) = segs_len segs.
Proof.
  intros Ha. revert l. induction Ha as [|[a n] segs Hs _ _ IH]; simpl; intros l; [by intros [= <-]|].
  destruct (read_slice _ _ _) as [b|] eqn:E; simpl; [|done].
  destruct (gather mem segs) as [c|]; simpl; [|done]. intros [= <-].
  rewrite length_app, (read_length _ _ _ _ E). unfold seg_ok in Hs. simpl in Hs.
  rewrite Nat2Z.inj_add, (IH c) by done. lia.
Qed.

(** Writing inside a readable range splices its bytes. *)
Lemma read_spliced mem a n b s l :
  read_slice mem a n = Some b -> (s + length l <= n)%nat -> Forall is_byte l ->
  exists m', write_slice mem (a + Z.of_nat s) l = (m', true) /\ read_slice m' a n = Some (splice b s l).
Proof.
  intros Hb Hn Hl. pose proof (read_length _ _ _ _ Hb) as Hlen.
  replace n with (s + (n - s))%nat in Hb by lia.
  destruct (read_split _ _ _ _ _ Hb) as [H1 H2].
  replace (n - s)%nat with (length l + (n - s - length l))%nat in H2 by lia.
  destruct (read_split _ _ _ _ _ H2) as [H3 H4].
  destruct (write_slice mem (a + Z.of_nat s) l) as [m' ok] eqn:Ew.
  assert (ok = true) as -> by (change ok with (m', ok).2; rewrite <- Ew; apply write_ok; eauto).
  exists m'. split; [done|].
  assert (m' = (write_slice mem (a + Z.of_nat s) l).1) as Em by (by rewrite Ew).
  assert (is_Some (read_slice m' a n)) as [b' Hb'].
  { rewrite Em. apply read_mapped. replace n with (s + (n - s))%nat by lia. eauto. }
  rewrite Hb'. f_equal.
  replace n with (s + (length l + (n - s - length l)))%nat in Hb' by lia.
  destruct (read_split _ _ _ _ _ Hb') as [G1 G2].
  destruct (read_split _ _ _ _ _ G2) as [G3 G4].
  rewrite Em, read_apart in G1, G4 by (unfold apart; lia).
  rewrite Em, read_written in G3 by (rewrite ?Ew; done).
  rewrite H1 in G1. rewrite H4 in G4. simplify_eq.
  rewrite <- (take_drop s b'), <- (take_drop (length l) (drop s b')).
  unfold splice. rewrite <- G1, <- G4. rewrite drop_drop. congruence.
Qed.

(** Whatever the outcome, only the segments are written. *)
Lemma write_segs_confined mem segs buf skip a n :
  Forall seg_ok segs -> Forall (fun t => apart t.1 t.2 a (Z.of_nat n)) segs -> 0 <= skip ->
  read_slice (write_segs mem segs buf skip).1 a n = read_slice mem a n.
Proof.
  intros Hs. revert mem buf skip.
  induction Hs as [|[b k] segs Hb _ IH]; intros mem buf skip Ha Hk; simpl; [done|].
  inversion_clear Ha as [|?? Ha0 Ha1]. destruct buf as [|x buf]; [done|].
  destruct (k <=? skip) eqn:E; bool_prop; [apply IH; auto; lia|]. unfold seg_ok in Hb. simpl in *.
  remember (Z.to_nat (Z.min (k - skip) (Z.of_nat (S (length buf))))) as tw eqn:Htw.
  destruct (write_slice _ _ _) as [m ok] eqn:Ew.
  assert (read_slice m a n = read_slice mem a n) as Hm.
  { assert (m = (write_slice mem (b ⊕ skip) (take tw (x :: buf))).1) as -> by (by rewrite Ew).
    apply read_apart. rewrite wrap_small by (unfold is_word; lia).
    unfold apart in *. rewrite length_take. simpl. lia. }
  destruct ok; [|done]. specialize (IH m (drop tw (x :: buf)) 0 Ha1 ltac:(lia)).
  destruct (write_segs m _ _ _) as [m2 c]. simpl in *. congruence.
Qed.

Lemma segs_apart_sym a n segs :
  Forall (fun t => apart a n t.1 t.2) segs -> Forall (fun t => apart t.1 t.2 a n) segs.
Proof. intros H. eapply Forall_impl; [exact H|]. unfold apart. intros. simpl in *. lia. Qed.

#[local] Opaque Nat.min.

(** The first segment a write reaches takes what fits, the rest follows. *)
Lemma splice_first (b c bf : list Z) s k n :
  length b = k -> (s < k)%nat -> n = Nat.min (length bf) (k + length c - s) ->
  let tw := Nat.min (k - s) (length bf) in
  (tw + Nat.min (length bf - tw) (length c) = n)%nat /\
  splice b s (take tw bf) ++ splice c 0 (take (Nat.min (length bf - tw) (length c)) (drop tw bf)) =
  splice (b ++ c) s (take n bf).
Proof.
  intros Hb Hs -> tw. split; [lia|].
  assert (length (take tw bf) = tw) as Ht by (rewrite length_take; lia).
  destruct (decide (tw = length bf)) as [Hall|Hpart].
  - rewrite (drop_ge bf), take_nil, splice_nil by lia.
    rewrite Nat.min_l, <- Hall by lia. by rewrite splice_app_l by lia.
  - replace (Nat.min (length bf) (k + length c - s))
      with (tw + Nat.min (length bf - tw) (length c))%nat by lia.
    by rewrite <- take_take_drop, splice_app_across by lia.
Qed.

Lemma write_first mem a k segs x skip b c :
  segs_apart ((a, k) :: segs) -> 0 <= skip < k -> Z.of_nat (length x) <= k - skip -> Forall is_byte x ->
  read_slice mem a (Z.to_nat k) = Some b -> gather mem segs = Some c ->
  exists m, write_slice mem (a ⊕ skip) x = (m, true) /\
    read_slice m a (Z.to_nat k) = Some (splice b (Z.to_nat skip) x) /\ gather m segs = Some c.
Proof.
  intros Hs Hk Hx Hb Er Eg. inversion_clear Hs as [|?? Hok Hap Hrest]. unfold seg_ok in Hok. simpl in *.
  destruct (read_spliced mem a (Z.to_nat k) b (Z.to_nat skip) x Er) as (m & Ew & Er1); [lia|done|].
  rewrite Z2Nat.id in Ew by lia. rewrite wrap_small by (unfold is_word; lia).
  exists m. split_and!; [done..|].
  assert (m = (write_slice mem (a + skip) x).1) as -> by (by rewrite Ew).
  rewrite gather_apart; [done| |by apply segs_apart_nonneg].
  eapply Forall_impl; [exact Hap|]. unfold apart. simpl. intros t. lia.
Qed.

(** Bytes land in the segments in order, as many as there is room for. *)
Lemma write_segs_ok mem segs buf skip l :
  segs_apart segs -> gather mem segs = Some l -> 0 <= skip -> Forall is_byte buf ->
  let n := Nat.min (length buf) (length l - Z.to_nat skip) in
  exists mem', write_segs mem segs buf skip = (mem', Some n) /\
    gather mem' segs = Some (splice l (Z.to_nat skip) (take n buf)).
Proof.
  intros Hs. revert mem buf skip l.
  induction Hs as [|[a k] segs Hok Hap Hrest IH]; intros mem buf skip l Hg Hk Hb n; simpl in *.
  { simplify_eq. exists mem. subst n. simpl. rewrite Nat.min_0_r. simpl. by rewrite splice_nil. }
  destruct (read_slice mem a (Z.to_nat k)) as [b|] eqn:Eb; [|done]. simpl in Hg.
  destruct (gather mem segs) as [c|] eqn:Ec; [|done]. simpl in Hg. simplify_eq.
  pose proof (read_length _ _ _ _ Eb) as Hlb. unfold seg_ok in Hok. simpl in Hok.
  destruct buf as [|x buf].
  { exists mem. subst n. simpl. by rewrite Eb, Ec, splice_nil. }
  set (bf := x :: buf) in *.
  assert (n = Nat.min (length bf) (Z.to_nat k + length c - Z.to_nat skip)) as Hn
    by (subst n; rewrite length_app; lia).
  clearbody n. assert (Z.of_nat (length bf) = Z.of_nat (S (length buf))) as Hlbf by done.
  clearbody bf. destruct (k <=? skip) eqn:E; bool_prop.
  - destruct (IH mem bf (skip - k) c Ec ltac:(lia) Hb) as (m' & Ew & Eg).
    pose proof (write_segs_confined mem segs bf (skip - k) a (Z.to_nat k) (segs_apart_ok _ Hrest)) as Hf.
    rewrite Ew, Z2Nat.id in Hf by lia. simpl in Hf.
    exists m'. rewrite Ew, Hf, Eb, Eg by (auto using segs_apart_sym; lia). simpl.
    rewrite splice_app_r by lia. rewrite Hlb, Hn.
    replace (Z.to_nat (skip - k)) with (Z.to_nat skip - Z.to_nat k)%nat by lia.
    by replace (length c - (Z.to_nat skip - Z.to_nat k))%nat
      with (Z.to_nat k + length c - Z.to_nat skip)%nat by lia.
  - assert (Z.to_nat (Z.min (k - skip) (Z.of_nat (length bf))) =
            Nat.min (Z.to_nat k - Z.to_nat skip) (length bf)) as -> by lia.
    destruct (splice_first b c bf (Z.to_nat skip) (Z.to_nat k) n Hlb ltac:(lia) Hn) as [Hc Hsp].
    set (tw := Nat.min _ (length bf)) in *.
    destruct (write_first mem a k segs (take tw bf) skip b c) as (m1 & -> & Er1 & Hg1);
      [by constructor|lia|rewrite length_take; lia|by apply Forall_take|done..|].
    destruct (IH m1 (drop tw bf) 0 c Hg1 ltac:(lia) ltac:(by apply Forall_drop)) as (m2 & Ew2 & Eg2).
    pose proof (write_segs_confined m1 segs (drop tw bf) 0 a (Z.to_nat k) (segs_apart_ok _ Hrest)) as Hf.
    rewrite Ew2, Z2Nat.id in Hf by lia. simpl in Hf. rewrite Ew2. simpl. exists m2.
    rewrite Hf, Er1, Eg2 by (auto using segs_apart_sym; lia). simpl.
    rewrite length_drop, Nat.sub_0_r. rewrite Hc. by rewrite <- Hsp.
Qed.

(** ** Whole buffers *)

(** The writer [w] over memory whose segments hold [l]. *)
Definition writer_ok (mem : M) (w : Writer) (l : list Z) : Prop :=
  segs_apart (segments w) /\ gather mem (segments w) = Some l /\
  0 <= write_pos w <= Z.of_nat (length l) /\ total_len w = Z.of_nat (length l).

Lemma w_available_ok mem w l :
  writer_ok mem w l -> w_available_bytes w = Z.of_nat (length l) - write_pos w.
Proof. intros (_ & _ & Hp & Ht). unfold w_available_bytes, saturating_sub. lia. Qed.

Lemma write_ok_writer mem w buf l :
  writer_ok mem w l -> Forall is_byte buf ->
  let n := Nat.min (length buf) (Z.to_nat (w_available_bytes w)) in
  exists mem' w', write mem w buf = (mem', w', Some n) /\
    writer_ok mem' w' (splice l (Z.to_nat (write_pos w)) (take n buf)) /\
    segments w' = segments w /\ write_pos w' = write_pos w + Z.of_nat n.
Proof.
  intros Hw Hb n. pose proof (w_available_ok _ _ _ Hw) as Hav. destruct Hw as (Hs & Hg & Hp & Ht).
  destruct (write_segs_ok mem (segments w) buf (write_pos w) l Hs Hg) as (m & Ew & Eg); [lia|done|].
  replace (Nat.min (length buf) _) with n in Ew, Eg by (subst n; lia).
  unfold write. rewrite Ew. eexists _, _. split; [reflexivity|]. split; [|done].
  assert (length (take n buf) = n) as Hl by (subst n; rewrite length_take; lia).
  unfold writer_ok. simpl. rewrite length_splice by lia. split_and!; [done..|lia|lia|done].
Qed.

Lemma write_all_fits mem w buf l :
  writer_ok mem w l -> Forall is_byte buf -> Z.of_nat (length buf) <= w_available_bytes w ->
  exists mem' w', write_all mem w buf = (mem', w', true) /\
    writer_ok mem' w' (splice l (Z.to_nat (write_pos w)) buf) /\
    segments w' = segments w /\ write_pos w' = write_pos w + Z.of_nat (length buf).
Proof.
  intros Hw Hb Hl. unfold write_all. destruct buf as [|x buf].
  { exists mem, w. simpl. rewrite splice_nil, Z.add_0_r. done. }
  destruct (write_ok_writer mem w (x :: buf) l Hw Hb) as (m & w' & Ew & Hw' & Hs & Hp).
  rewrite Nat.min_l in Ew, Hw', Hp by lia. rewrite take_ge in Hw' by done.
  exists m, w'. cbn [write_all_loop length]. cbn [length] in Ew. rewrite Ew, drop_ge by done.
  split; [by destruct (length buf)|done].
Qed.

Lemma write_all_full mem w buf l :
  writer_ok mem w l -> Forall is_byte buf -> w_available_bytes w < Z.of_nat (length buf) ->
  (write_all mem w buf).2 = false.
Proof.
  unfold write_all. generalize (length buf) at 2 as fuel. intros fuel.
  revert mem w buf l. induction fuel as [|fuel IH]; intros mem w buf l Hw Hb Hl;
    pose proof (w_available_ok _ _ _ Hw) as Hav; pose proof Hw as (_ & _ & Hp & _);
    (destruct buf as [|x buf]; [simpl in Hl; lia|]); [done|].
  destruct (write_ok_writer mem w (x :: buf) l Hw Hb) as (m & w' & Ew & Hw' & _ & Hp').
  cbn [write_all_loop]. rewrite Ew. clear Ew.
  rewrite Nat.min_r in * by lia.
  destruct (Z.to_nat (w_available_bytes w)) as [|k] eqn:Ek; [done|].
  eapply IH; [exact Hw'|by apply Forall_drop|].
  rewrite (w_available_ok _ _ _ Hw'), Hp', length_drop.
  rewrite length_splice by (rewrite length_take; lia). lia.
Qed.

Lemma write_all_confined mem w buf a n :
  Forall seg_ok (segments w) -> 0 <= write_pos w ->
  Forall (fun t => apart t.1 t.2 a (Z.of_nat n)) (segments w) ->
  read_slice (write_all mem w buf).1.1 a n = read_slice mem a n.
Proof.
  unfold write_all. generalize (length buf) as fuel. intros fuel. revert mem w buf.
  induction fuel as [|fuel IH]; intros mem w buf Hs Hp Ha; destruct buf as [|x buf]; [done..|].
  cbn [write_all_loop]. unfold write.
  pose proof (write_segs_confined mem (segments w) (x :: buf) (write_pos w) a n Hs Ha Hp) as Hc.
  destruct (write_segs _ _ _ _) as [m [k|]]; [|done]. simpl in Hc.
  destruct k as [|k]; [done|]. rewrite IH by (simpl; auto; lia). done.
Qed.

(** ** From a chain *)

Lemma take_writable_ok chain total segs :
  total + segs_len (fst <$> chain) < 2 ^ 64 -> Forall (fun d => 0 <= d.1.2) chain ->
  take_writable chain total segs = inr (segs ++ (fst <$> chain), total + segs_len (fst <$> chain)).
Proof.
  intros Ht Hn. revert total segs Ht. induction Hn as [|[[a n] f] chain Hn Hns IH]; intros total segs Ht.
  { simpl. by rewrite app_nil_r, Z.add_0_r. }
  csimpl in *. pose proof (segs_len_nonneg (fst <$> chain)) as Hp.
  unfold checked_add. rewrite (proj2 (Z.ltb_lt _ _)) by (rewrite Forall_fmap in Hp; specialize (Hp Hns); lia).
  rewrite IH by lia. rewrite <- app_assoc. do 2 f_equal. lia.
Qed.

(** The reader of a chain holds exactly the bytes of its readable descriptors,
    in order and from the start, when they are mapped and total at most 64 MiB;
    otherwise it is refused, and no chain makes it hold more. *)
Theorem reader_holds_chain mem chain :
  Forall (fun d => 0 <= d.1.2) chain ->
  let ranges := fst <$> readable chain in
  if segs_len ranges <=? MAX_READABLE_BYTES then
    Reader_new mem chain =
      match gather mem ranges with
      | Some b => inr {| r_buf := b; r_pos := 0 |}
      | None => inl GuestMemoryError
      end
  else exists e, Reader_new mem chain = inl e.
Proof.
  intros Hn ranges. unfold Reader_new. destruct (_ <=? _) eqn:E; bool_prop.
  - rewrite copy_readable_ok; [by destruct (gather _ _)|done| |subst ranges; lia].
    by apply readable_nonneg.
  - destruct (copy_readable mem chain 0 []) as [e|out] eqn:Ec; [by exists e|]. exfalso.
    apply copy_readable_total in Ec; [subst ranges; lia|done..].
Qed.

End ReaderFacts.
