(* ===== verification/GpuWire.v ===== *)
(** The virtio-gpu wire format, [virtio-devices/src/gpu/protocol.rs]: command and
    response numbers, and the structs of requests and responses, each an
    instance of [ByteValued].  A field is the Rust field with the struct's
    prefix, since Rocq's projections share one name space. *)

From S2P Require Import Prelude GuestMem GpuChain.

(** * Constants *)

Definition VIRTIO_GPU_CMD_GET_DISPLAY_INFO : Z := 0x100.
Definition VIRTIO_GPU_CMD_RESOURCE_CREATE_2D : Z := 0x101.
Definition VIRTIO_GPU_CMD_RESOURCE_UNREF : Z := 0x102.
Definition VIRTIO_GPU_CMD_SET_SCANOUT : Z := 0x103.
Definition VIRTIO_GPU_CMD_RESOURCE_FLUSH : Z := 0x104.
Definition VIRTIO_GPU_CMD_TRANSFER_TO_HOST_2D : Z := 0x105.
Definition VIRTIO_GPU_CMD_RESOURCE_ATTACH_BACKING : Z := 0x106.
Definition VIRTIO_GPU_CMD_RESOURCE_DETACH_BACKING : Z := 0x107.
Definition VIRTIO_GPU_CMD_GET_CAPSET_INFO : Z := 0x108.
Definition VIRTIO_GPU_CMD_GET_CAPSET : Z := 0x109.
Definition VIRTIO_GPU_CMD_GET_EDID : Z := 0x10a.
Definition VIRTIO_GPU_CMD_RESOURCE_ASSIGN_UUID : Z := 0x10b.
Definition VIRTIO_GPU_CMD_RESOURCE_CREATE_BLOB : Z := 0x10c.
Definition VIRTIO_GPU_CMD_SET_SCANOUT_BLOB : Z := 0x10d.
Definition VIRTIO_GPU_CMD_CTX_CREATE : Z := 0x200.
Definition VIRTIO_GPU_CMD_CTX_DESTROY : Z := 0x201.
Definition VIRTIO_GPU_CMD_CTX_ATTACH_RESOURCE : Z := 0x202.
Definition VIRTIO_GPU_CMD_CTX_DETACH_RESOURCE : Z := 0x203.
Definition VIRTIO_GPU_CMD_RESOURCE_CREATE_3D : Z := 0x204.
Definition VIRTIO_GPU_CMD_TRANSFER_TO_HOST_3D : Z := 0x205.
Definition VIRTIO_GPU_CMD_TRANSFER_FROM_HOST_3D : Z := 0x206.
Definition VIRTIO_GPU_CMD_SUBMIT_3D : Z := 0x207.
Definition VIRTIO_GPU_CMD_RESOURCE_MAP_BLOB : Z := 0x208.
Definition VIRTIO_GPU_CMD_RESOURCE_UNMAP_BLOB : Z := 0x209.
Definition VIRTIO_GPU_CMD_UPDATE_CURSOR : Z := 0x300.
Definition VIRTIO_GPU_CMD_MOVE_CURSOR : Z := 0x301.
Definition VIRTIO_GPU_RESP_OK_NODATA : Z := 0x1100.
Definition VIRTIO_GPU_RESP_OK_DISPLAY_INFO : Z := 0x1101.
Definition VIRTIO_GPU_RESP_OK_CAPSET_INFO : Z := 0x1102.
Definition VIRTIO_GPU_RESP_OK_CAPSET : Z := 0x1103.
Definition VIRTIO_GPU_RESP_OK_EDID : Z := 0x1104.
Definition VIRTIO_GPU_RESP_OK_RESOURCE_UUID : Z := 0x1105.
Definition VIRTIO_GPU_RESP_OK_MAP_INFO : Z := 0x1106.
Definition VIRTIO_GPU_RESP_OK_RESOURCE_PLANE_INFO : Z := 0x11FF.
Definition VIRTIO_GPU_RESP_ERR_UNSPEC : Z := 0x1200.
Definition VIRTIO_GPU_RESP_ERR_OUT_OF_MEMORY : Z := 0x1201.
Definition VIRTIO_GPU_RESP_ERR_INVALID_SCANOUT_ID : Z := 0x1202.
Definition VIRTIO_GPU_RESP_ERR_INVALID_RESOURCE_ID : Z := 0x1203.
Definition VIRTIO_GPU_RESP_ERR_INVALID_CONTEXT_ID : Z := 0x1204.
Definition VIRTIO_GPU_RESP_ERR_INVALID_PARAMETER : Z := 0x1205.
Definition VIRTIO_GPU_BLOB_MEM_HOST3D : Z := 0x0002.
Definition VIRTIO_GPU_BLOB_FLAG_CREATE_GUEST_HANDLE : Z := 0x0008.
Definition VIRTIO_GPU_FLAG_FENCE : Z := Z.shiftl 1 0.
Definition VIRTIO_GPU_FLAG_INFO_RING_IDX : Z := Z.shiftl 1 1.
Definition VIRTIO_GPU_MAX_SCANOUTS : Z := 16.
Definition EDID_BLOB_MAX_SIZE : nat := 1024.
Definition PLANE_INFO_MAX_COUNT : nat := 4.

(** * Structs *)

Record virtio_gpu_ctrl_hdr := { h_type : Z; h_flags : Z; h_fence_id : Z; h_ctx_id : Z;
  h_ring_idx : Z; h_padding : list Z }.
#[export] Instance virtio_gpu_ctrl_hdr_bytes : ByteValued virtio_gpu_ctrl_hdr := {
  layout := ([4; 4; 8; 4; 1] ++ replicate 3 1%nat)%nat;
  vals v := [h_type v; h_flags v; h_fence_id v; h_ctx_id v; h_ring_idx v] ++ h_padding v;
  build l := {| h_type := at_ 0 l; h_flags := at_ 1 l; h_fence_id := at_ 2 l;
    h_ctx_id := at_ 3 l; h_ring_idx := at_ 4 l; h_padding := slice_ 5 3 l |}
}.

Record virtio_gpu_cursor_pos := { cp_scanout_id : Z; cp_x : Z; cp_y : Z; cp_padding : Z }.
#[export] Instance virtio_gpu_cursor_pos_bytes : ByteValued virtio_gpu_cursor_pos := {
  layout := ([4; 4; 4; 4])%nat;
  vals v := [cp_scanout_id v; cp_x v; cp_y v; cp_padding v];
  build l := {| cp_scanout_id := at_ 0 l; cp_x := at_ 1 l; cp_y := at_ 2 l;
    cp_padding := at_ 3 l |}
}.

Record virtio_gpu_update_cursor := { uc_pos : virtio_gpu_cursor_pos; uc_resource_id : Z;
  uc_hot_x : Z; uc_hot_y : Z; uc_padding : Z }.
#[export] Instance virtio_gpu_update_cursor_bytes : ByteValued virtio_gpu_update_cursor := {
  layout := (layout virtio_gpu_cursor_pos ++ [4; 4; 4; 4])%nat;
  vals v := vals (uc_pos v) ++ [uc_resource_id v; uc_hot_x v; uc_hot_y v; uc_padding v];
  build l := {| uc_pos := build (slice_ 0 4 l); uc_resource_id := at_ 4 l; uc_hot_x := at_ 5 l;
    uc_hot_y := at_ 6 l; uc_padding := at_ 7 l |}
}.

Record virtio_gpu_rect := { rect_x : Z; rect_y : Z; rect_width : Z; rect_height : Z }.
#[export] Instance virtio_gpu_rect_bytes : ByteValued virtio_gpu_rect := {
  layout := ([4; 4; 4; 4])%nat;
  vals v := [rect_x v; rect_y v; rect_width v; rect_height v];
  build l := {| rect_x := at_ 0 l; rect_y := at_ 1 l; rect_width := at_ 2 l;
    rect_height := at_ 3 l |}
}.

Record virtio_gpu_get_edid := { ge_scanout : Z; ge_padding : Z }.
#[export] Instance virtio_gpu_get_edid_bytes : ByteValued virtio_gpu_get_edid := {
  layout := ([4; 4])%nat;
  vals v := [ge_scanout v; ge_padding v];
  build l := {| ge_scanout := at_ 0 l; ge_padding := at_ 1 l |}
}.

Record virtio_gpu_resource_unref := { ru_resource_id : Z; ru_padding : Z }.
#[export] Instance virtio_gpu_resource_unref_bytes : ByteValued virtio_gpu_resource_unref := {
  layout := ([4; 4])%nat;
  vals v := [ru_resource_id v; ru_padding v];
  build l := {| ru_resource_id := at_ 0 l; ru_padding := at_ 1 l |}
}.

Record virtio_gpu_resource_create_2d := { c2_resource_id : Z; c2_format : Z; c2_width : Z;
  c2_height : Z }.
#[export] Instance virtio_gpu_resource_create_2d_bytes
    : ByteValued virtio_gpu_resource_create_2d := {
  layout := ([4; 4; 4; 4])%nat;
  vals v := [c2_resource_id v; c2_format v; c2_width v; c2_height v];
  build l := {| c2_resource_id := at_ 0 l; c2_format := at_ 1 l; c2_width := at_ 2 l;
    c2_height := at_ 3 l |}
}.

Record virtio_gpu_set_scanout := { ss_r : virtio_gpu_rect; ss_scanout_id : Z;
  ss_resource_id : Z }.
#[export] Instance virtio_gpu_set_scanout_bytes : ByteValued virtio_gpu_set_scanout := {
  layout := (layout virtio_gpu_rect ++ [4; 4])%nat;
  vals v := vals (ss_r v) ++ [ss_scanout_id v; ss_resource_id v];
  build l := {| ss_r := build (slice_ 0 4 l); ss_scanout_id := at_ 4 l;
    ss_resource_id := at_ 5 l |}
}.

Record virtio_gpu_resource_flush := { rf_r : virtio_gpu_rect; rf_resource_id : Z;
  rf_padding : Z }.
#[export] Instance virtio_gpu_resource_flush_bytes : ByteValued virtio_gpu_resource_flush := {
  layout := (layout virtio_gpu_rect ++ [4; 4])%nat;
  vals v := vals (rf_r v) ++ [rf_resource_id v; rf_padding v];
  build l := {| rf_r := build (slice_ 0 4 l); rf_resource_id := at_ 4 l; rf_padding := at_ 5 l |}
}.

Record virtio_gpu_transfer_to_host_2d := { t2_r : virtio_gpu_rect; t2_offset : Z;
  t2_resource_id : Z; t2_padding : Z }.
#[export] Instance virtio_gpu_transfer_to_host_2d_bytes
    : ByteValued virtio_gpu_transfer_to_host_2d := {
  layout := (layout virtio_gpu_rect ++ [8; 4; 4])%nat;
  vals v := vals (t2_r v) ++ [t2_offset v; t2_resource_id v; t2_padding v];
  build l := {| t2_r := build (slice_ 0 4 l); t2_offset := at_ 4 l; t2_resource_id := at_ 5 l;
    t2_padding := at_ 6 l |}
}.

Record virtio_gpu_mem_entry := { me_addr : Z; me_length : Z; me_padding : Z }.
#[export] Instance virtio_gpu_mem_entry_bytes : ByteValued virtio_gpu_mem_entry := {
  layout := ([8; 4; 4])%nat;
  vals v := [me_addr v; me_length v; me_padding v];
  build l := {| me_addr := at_ 0 l; me_length := at_ 1 l; me_padding := at_ 2 l |}
}.

Record virtio_gpu_resource_attach_backing := { ab_resource_id : Z; ab_nr_entries : Z }.
#[export] Instance virtio_gpu_resource_attach_backing_bytes
    : ByteValued virtio_gpu_resource_attach_backing := {
  layout := ([4; 4])%nat;
  vals v := [ab_resource_id v; ab_nr_entries v];
  build l := {| ab_resource_id := at_ 0 l; ab_nr_entries := at_ 1 l |}
}.

Record virtio_gpu_resource_detach_backing := { db_resource_id : Z; db_padding : Z }.
#[export] Instance virtio_gpu_resource_detach_backing_bytes
    : ByteValued virtio_gpu_resource_detach_backing := {
  layout := ([4; 4])%nat;
  vals v := [db_resource_id v; db_padding v];
  build l := {| db_resource_id := at_ 0 l; db_padding := at_ 1 l |}
}.

Record virtio_gpu_display_one := { d1_r : virtio_gpu_rect; d1_enabled : Z; d1_flags : Z }.
#[export] Instance virtio_gpu_display_one_bytes : ByteValued virtio_gpu_display_one := {
  layout := (layout virtio_gpu_rect ++ [4; 4])%nat;
  vals v := vals (d1_r v) ++ [d1_enabled v; d1_flags v];
  build l := {| d1_r := build (slice_ 0 4 l); d1_enabled := at_ 4 l; d1_flags := at_ 5 l |}
}.

Record virtio_gpu_resp_display_info := { di_hdr : virtio_gpu_ctrl_hdr;
  di_pmodes : list virtio_gpu_display_one }.
#[export] Instance virtio_gpu_resp_display_info_bytes : ByteValued virtio_gpu_resp_display_info := {
  layout := (layout virtio_gpu_ctrl_hdr ++ (seq 0 16 ≫= fun _ => layout virtio_gpu_display_one))%nat;
  vals v := vals (di_hdr v) ++ (di_pmodes v ≫= vals);
  build l := {| di_hdr := build (slice_ 0 8 l);
    di_pmodes := (fun i => build (slice_ (8 + i * 6) 6 l)) <$> seq 0 16 |}
}.

Record virtio_gpu_resp_edid := { re_hdr : virtio_gpu_ctrl_hdr; re_size : Z; re_padding : Z;
  re_edid : list Z }.
#[export] Instance virtio_gpu_resp_edid_bytes : ByteValued virtio_gpu_resp_edid := {
  layout := (layout virtio_gpu_ctrl_hdr ++ [4; 4] ++ replicate 1024 1%nat)%nat;
  vals v := vals (re_hdr v) ++ [re_size v; re_padding v] ++ re_edid v;
  build l := {| re_hdr := build (slice_ 0 8 l); re_size := at_ 8 l; re_padding := at_ 9 l;
    re_edid := slice_ 10 1024 l |}
}.

Record virtio_gpu_box := { box_x : Z; box_y : Z; box_z : Z; box_w : Z; box_h : Z; box_d : Z }.
#[export] Instance virtio_gpu_box_bytes : ByteValued virtio_gpu_box := {
  layout := ([4; 4; 4; 4; 4; 4])%nat;
  vals v := [box_x v; box_y v; box_z v; box_w v; box_h v; box_d v];
  build l := {| box_x := at_ 0 l; box_y := at_ 1 l; box_z := at_ 2 l; box_w := at_ 3 l;
    box_h := at_ 4 l; box_d := at_ 5 l |}
}.

Record virtio_gpu_transfer_host_3d := { t3_box : virtio_gpu_box; t3_offset : Z;
  t3_resource_id : Z; t3_level : Z; t3_stride : Z; t3_layer_stride : Z }.
#[export] Instance virtio_gpu_transfer_host_3d_bytes : ByteValued virtio_gpu_transfer_host_3d := {
  layout := (layout virtio_gpu_box ++ [8; 4; 4; 4; 4])%nat;
  vals v := vals (t3_box v) ++ [t3_offset v; t3_resource_id v; t3_level v; t3_stride v;
    t3_layer_stride v];
  build l := {| t3_box := build (slice_ 0 6 l); t3_offset := at_ 6 l; t3_resource_id := at_ 7 l;
    t3_level := at_ 8 l; t3_stride := at_ 9 l; t3_layer_stride := at_ 10 l |}
}.

Record virtio_gpu_resource_create_3d := { c3_resource_id : Z; c3_target : Z; c3_format : Z;
  c3_bind : Z; c3_width : Z; c3_height : Z; c3_depth : Z; c3_array_size : Z; c3_last_level : Z;
  c3_nr_samples : Z; c3_flags : Z; c3_padding : Z }.
#[export] Instance virtio_gpu_resource_create_3d_bytes
    : ByteValued virtio_gpu_resource_create_3d := {
  layout := ([4; 4; 4; 4; 4; 4; 4; 4; 4; 4; 4; 4])%nat;
  vals v := [c3_resource_id v; c3_target v; c3_format v; c3_bind v; c3_width v; c3_height v;
    c3_depth v; c3_array_size v; c3_last_level v; c3_nr_samples v; c3_flags v; c3_padding v];
  build l := {| c3_resource_id := at_ 0 l; c3_target := at_ 1 l; c3_format := at_ 2 l;
    c3_bind := at_ 3 l; c3_width := at_ 4 l; c3_height := at_ 5 l; c3_depth := at_ 6 l;
    c3_array_size := at_ 7 l; c3_last_level := at_ 8 l; c3_nr_samples := at_ 9 l;
    c3_flags := at_ 10 l; c3_padding := at_ 11 l |}
}.

Record virtio_gpu_ctx_create := { cc_nlen : Z; cc_context_init : Z; cc_debug_name : list Z }.
#[export] Instance virtio_gpu_ctx_create_bytes : ByteValued virtio_gpu_ctx_create := {
  layout := ([4; 4] ++ replicate 64 1%nat)%nat;
  vals v := [cc_nlen v; cc_context_init v] ++ cc_debug_name v;
  build l := {| cc_nlen := at_ 0 l; cc_context_init := at_ 1 l; cc_debug_name := slice_ 2 64 l |}
}.

Record virtio_gpu_ctx_resource := { cr_resource_id : Z; cr_padding : Z }.
#[export] Instance virtio_gpu_ctx_resource_bytes : ByteValued virtio_gpu_ctx_resource := {
  layout := ([4; 4])%nat;
  vals v := [cr_resource_id v; cr_padding v];
  build l := {| cr_resource_id := at_ 0 l; cr_padding := at_ 1 l |}
}.

Record virtio_gpu_cmd_submit := { cs_size : Z; cs_num_in_fences : Z }.
#[export] Instance virtio_gpu_cmd_submit_bytes : ByteValued virtio_gpu_cmd_submit := {
  layout := ([4; 4])%nat;
  vals v := [cs_size v; cs_num_in_fences v];
  build l := {| cs_size := at_ 0 l; cs_num_in_fences := at_ 1 l |}
}.

Record virtio_gpu_get_capset_info := { gi_capset_index : Z; gi_padding : Z }.
#[export] Instance virtio_gpu_get_capset_info_bytes : ByteValued virtio_gpu_get_capset_info := {
  layout := ([4; 4])%nat;
  vals v := [gi_capset_index v; gi_padding v];
  build l := {| gi_capset_index := at_ 0 l; gi_padding := at_ 1 l |}
}.

Record virtio_gpu_resp_capset_info := { rci_hdr : virtio_gpu_ctrl_hdr; rci_capset_id : Z;
  rci_capset_max_version : Z; rci_capset_max_size : Z; rci_padding : Z }.
#[export] Instance virtio_gpu_resp_capset_info_bytes : ByteValued virtio_gpu_resp_capset_info := {
  layout := (layout virtio_gpu_ctrl_hdr ++ [4; 4; 4; 4])%nat;
  vals v := vals (rci_hdr v) ++ [rci_capset_id v; rci_capset_max_version v;
    rci_capset_max_size v; rci_padding v];
  build l := {| rci_hdr := build (slice_ 0 8 l); rci_capset_id := at_ 8 l;
    rci_capset_max_version := at_ 9 l; rci_capset_max_size := at_ 10 l;
    rci_padding := at_ 11 l |}
}.

Record virtio_gpu_get_capset := { gc_capset_id : Z; gc_capset_version : Z }.
#[export] Instance virtio_gpu_get_capset_bytes : ByteValued virtio_gpu_get_capset := {
  layout := ([4; 4])%nat;
  vals v := [gc_capset_id v; gc_capset_version v];
  build l := {| gc_capset_id := at_ 0 l; gc_capset_version := at_ 1 l |}
}.

Record virtio_gpu_resp_resource_plane_info := { pi_hdr : virtio_gpu_ctrl_hdr; pi_count : Z;
  pi_padding : Z; pi_format_modifier : Z; pi_strides : list Z; pi_offsets : list Z }.
#[export] Instance virtio_gpu_resp_resource_plane_info_bytes
    : ByteValued virtio_gpu_resp_resource_plane_info := {
  layout := (layout virtio_gpu_ctrl_hdr ++ [4; 4; 8] ++ replicate 4 4%nat ++ replicate 4 4%nat)%nat;
  vals v := vals (pi_hdr v) ++ [pi_count v; pi_padding v;
    pi_format_modifier v] ++ pi_strides v ++ pi_offsets v;
  build l := {| pi_hdr := build (slice_ 0 8 l); pi_count := at_ 8 l; pi_padding := at_ 9 l;
    pi_format_modifier := at_ 10 l; pi_strides := slice_ 11 4 l; pi_offsets := slice_ 15 4 l |}
}.

Record virtio_gpu_resource_create_blob := { cb_resource_id : Z; cb_blob_mem : Z;
  cb_blob_flags : Z; cb_nr_entries : Z; cb_blob_id : Z; cb_size : Z }.
#[export] Instance virtio_gpu_resource_create_blob_bytes
    : ByteValued virtio_gpu_resource_create_blob := {
  layout := ([4; 4; 4; 4; 8; 8])%nat;
  vals v := [cb_resource_id v; cb_blob_mem v; cb_blob_flags v; cb_nr_entries v; cb_blob_id v;
    cb_size v];
  build l := {| cb_resource_id := at_ 0 l; cb_blob_mem := at_ 1 l; cb_blob_flags := at_ 2 l;
    cb_nr_entries := at_ 3 l; cb_blob_id := at_ 4 l; cb_size := at_ 5 l |}
}.

Record virtio_gpu_resource_map_blob := { mb_resource_id : Z; mb_padding : Z; mb_offset : Z }.
#[export] Instance virtio_gpu_resource_map_blob_bytes : ByteValued virtio_gpu_resource_map_blob := {
  layout := ([4; 4; 8])%nat;
  vals v := [mb_resource_id v; mb_padding v; mb_offset v];
  build l := {| mb_resource_id := at_ 0 l; mb_padding := at_ 1 l; mb_offset := at_ 2 l |}
}.

Record virtio_gpu_resource_unmap_blob := { ub_resource_id : Z; ub_padding : Z }.
#[export] Instance virtio_gpu_resource_unmap_blob_bytes
    : ByteValued virtio_gpu_resource_unmap_blob := {
  layout := ([4; 4])%nat;
  vals v := [ub_resource_id v; ub_padding v];
  build l := {| ub_resource_id := at_ 0 l; ub_padding := at_ 1 l |}
}.

Record virtio_gpu_resp_map_info := { rm_hdr : virtio_gpu_ctrl_hdr; rm_map_info : Z;
  rm_padding : Z }.
#[export] Instance virtio_gpu_resp_map_info_bytes : ByteValued virtio_gpu_resp_map_info := {
  layout := (layout virtio_gpu_ctrl_hdr ++ [4; 4])%nat;
  vals v := vals (rm_hdr v) ++ [rm_map_info v; rm_padding v];
  build l := {| rm_hdr := build (slice_ 0 8 l); rm_map_info := at_ 8 l; rm_padding := at_ 9 l |}
}.

Record virtio_gpu_resource_assign_uuid := { au_resource_id : Z; au_padding : Z }.
#[export] Instance virtio_gpu_resource_assign_uuid_bytes
    : ByteValued virtio_gpu_resource_assign_uuid := {
  layout := ([4; 4])%nat;
  vals v := [au_resource_id v; au_padding v];
  build l := {| au_resource_id := at_ 0 l; au_padding := at_ 1 l |}
}.

Record virtio_gpu_resp_resource_uuid := { rr_hdr : virtio_gpu_ctrl_hdr; rr_uuid : list Z }.
#[export] Instance virtio_gpu_resp_resource_uuid_bytes
    : ByteValued virtio_gpu_resp_resource_uuid := {
  layout := (layout virtio_gpu_ctrl_hdr ++ replicate 16 1%nat)%nat;
  vals v := vals (rr_hdr v) ++ rr_uuid v;
  build l := {| rr_hdr := build (slice_ 0 8 l); rr_uuid := slice_ 8 16 l |}
}.

Record virtio_gpu_set_scanout_blob := { sb_r : virtio_gpu_rect; sb_scanout_id : Z;
  sb_resource_id : Z; sb_width : Z; sb_height : Z; sb_format : Z; sb_padding : Z;
  sb_strides : list Z; sb_offsets : list Z }.
#[export] Instance virtio_gpu_set_scanout_blob_bytes : ByteValued virtio_gpu_set_scanout_blob := {
  layout := (layout virtio_gpu_rect ++ [4; 4; 4; 4; 4; 4] ++ replicate 4 4%nat ++ replicate 4 4%nat)%nat;
  vals v := vals (sb_r v) ++ [sb_scanout_id v; sb_resource_id v; sb_width v; sb_height v;
    sb_format v; sb_padding v] ++ sb_strides v ++ sb_offsets v;
  build l := {| sb_r := build (slice_ 0 4 l); sb_scanout_id := at_ 4 l;
    sb_resource_id := at_ 5 l; sb_width := at_ 6 l; sb_height := at_ 7 l; sb_format := at_ 8 l;
    sb_padding := at_ 9 l; sb_strides := slice_ 10 4 l; sb_offsets := slice_ 14 4 l |}
}.
(** [virtio_gpu_ctx_destroy] has no fields and takes no bytes. *)
Inductive virtio_gpu_ctx_destroy := virtio_gpu_ctx_destroy_value.
#[export] Instance virtio_gpu_ctx_destroy_bytes : ByteValued virtio_gpu_ctx_destroy := {
  layout := []; vals _ := []; build _ := virtio_gpu_ctx_destroy_value
}.
