(* ===== verification/GpuProtocol.v ===== *)
(** GPU commands and responses, [virtio-devices/src/gpu/protocol.rs]: what a
    command buffer decodes to and what a response writes back. *)

From stdpp Require Import strings.
From S2P Require Import Prelude GuestMem Virtqueue GpuChain GpuWire.

(** * Commands *)

Inductive GpuCommand :=
  | GetDisplayInfo
  | GetEdid (c : virtio_gpu_get_edid)
  | ResourceCreate2d (c : virtio_gpu_resource_create_2d)
  | ResourceUnref (c : virtio_gpu_resource_unref)
  | SetScanout (c : virtio_gpu_set_scanout)
  | SetScanoutBlob (c : virtio_gpu_set_scanout_blob)
  | ResourceFlush (c : virtio_gpu_resource_flush)
  | TransferToHost2d (c : virtio_gpu_transfer_to_host_2d)
  | ResourceAttachBacking (c : virtio_gpu_resource_attach_backing)
  | ResourceDetachBacking (c : virtio_gpu_resource_detach_backing)
  | GetCapsetInfo (c : virtio_gpu_get_capset_info)
  | GetCapset (c : virtio_gpu_get_capset)
  | CtxCreate (c : virtio_gpu_ctx_create)
  | CtxDestroy (c : virtio_gpu_ctx_destroy)
  | CtxAttachResource (c : virtio_gpu_ctx_resource)
  | CtxDetachResource (c : virtio_gpu_ctx_resource)
  | ResourceCreate3d (c : virtio_gpu_resource_create_3d)
  | TransferToHost3d (c : virtio_gpu_transfer_host_3d)
  | TransferFromHost3d (c : virtio_gpu_transfer_host_3d)
  | CmdSubmit3d (c : virtio_gpu_cmd_submit)
  | ResourceCreateBlob (c : virtio_gpu_resource_create_blob)
  | ResourceMapBlob (c : virtio_gpu_resource_map_blob)
  | ResourceUnmapBlob (c : virtio_gpu_resource_unmap_blob)
  | UpdateCursor (c : virtio_gpu_update_cursor)
  | MoveCursor (c : virtio_gpu_update_cursor)
  | ResourceAssignUuid (c : virtio_gpu_resource_assign_uuid).

Definition GPU_COMMAND_KINDS : nat := 26.

Definition GPU_COMMAND_NAMES : list string :=
  ["get_display_info"; "get_edid"; "resource_create_2d"; "resource_unref"; "set_scanout";
   "set_scanout_blob"; "resource_flush"; "transfer_to_host_2d"; "resource_attach_backing";
   "resource_detach_backing"; "get_capset_info"; "get_capset"; "ctx_create"; "ctx_destroy";
   "ctx_attach_resource"; "ctx_detach_resource"; "resource_create_3d"; "transfer_to_host_3d";
   "transfer_from_host_3d"; "cmd_submit_3d"; "resource_create_blob"; "resource_map_blob";
   "resource_unmap_blob"; "update_cursor"; "move_cursor"; "resource_assign_uuid"]%string.

Definition kind (c : GpuCommand) : nat :=
  match c with
  | GetDisplayInfo => 0
  | GetEdid _ => 1
  | ResourceCreate2d _ => 2
  | ResourceUnref _ => 3
  | SetScanout _ => 4
  | SetScanoutBlob _ => 5
  | ResourceFlush _ => 6
  | TransferToHost2d _ => 7
  | ResourceAttachBacking _ => 8
  | ResourceDetachBacking _ => 9
  | GetCapsetInfo _ => 10
  | GetCapset _ => 11
  | CtxCreate _ => 12
  | CtxDestroy _ => 13
  | CtxAttachResource _ => 14
  | CtxDetachResource _ => 15
  | ResourceCreate3d _ => 16
  | TransferToHost3d _ => 17
  | TransferFromHost3d _ => 18
  | CmdSubmit3d _ => 19
  | ResourceCreateBlob _ => 20
  | ResourceMapBlob _ => 21
  | ResourceUnmapBlob _ => 22
  | UpdateCursor _ => 23
  | MoveCursor _ => 24
  | ResourceAssignUuid _ => 25
  end.

Inductive GpuCommandDecodeError := InvalidType (t : Z) | DecodeIO.

Abbreviation Decoded := (GpuCommandDecodeError + (virtio_gpu_ctrl_hdr * GpuCommand))%type.

(** [C(cmd.read_obj()?)]. *)
Definition decode_as (T : Type) `{ByteValued T} (hdr : virtio_gpu_ctrl_hdr) (r : Reader)
    (c : T -> GpuCommand) : Reader * Decoded :=
  match read_obj T r with
  | (r, Some v) => (r, inr (hdr, c v))
  | (r, None) => (r, inl DecodeIO)
  end.

Definition decode (r : Reader) : Reader * Decoded :=
  match read_obj virtio_gpu_ctrl_hdr r with
  | (r, None) => (r, inl DecodeIO)
  | (r, Some hdr) =>
      let t := h_type hdr in
      if t =? VIRTIO_GPU_CMD_GET_DISPLAY_INFO then (r, inr (hdr, GetDisplayInfo))
      else if t =? VIRTIO_GPU_CMD_GET_EDID then decode_as _ hdr r GetEdid
      else if t =? VIRTIO_GPU_CMD_RESOURCE_CREATE_2D then decode_as _ hdr r ResourceCreate2d
      else if t =? VIRTIO_GPU_CMD_RESOURCE_UNREF then decode_as _ hdr r ResourceUnref
      else if t =? VIRTIO_GPU_CMD_SET_SCANOUT then decode_as _ hdr r SetScanout
      else if t =? VIRTIO_GPU_CMD_SET_SCANOUT_BLOB then decode_as _ hdr r SetScanoutBlob
      else if t =? VIRTIO_GPU_CMD_RESOURCE_FLUSH then decode_as _ hdr r ResourceFlush
      else if t =? VIRTIO_GPU_CMD_TRANSFER_TO_HOST_2D then decode_as _ hdr r TransferToHost2d
      else if t =? VIRTIO_GPU_CMD_RESOURCE_ATTACH_BACKING then decode_as _ hdr r ResourceAttachBacking
      else if t =? VIRTIO_GPU_CMD_RESOURCE_DETACH_BACKING then decode_as _ hdr r ResourceDetachBacking
      else if t =? VIRTIO_GPU_CMD_GET_CAPSET_INFO then decode_as _ hdr r GetCapsetInfo
      else if t =? VIRTIO_GPU_CMD_GET_CAPSET then decode_as _ hdr r GetCapset
      else if t =? VIRTIO_GPU_CMD_CTX_CREATE then decode_as _ hdr r CtxCreate
      else if t =? VIRTIO_GPU_CMD_CTX_DESTROY then decode_as _ hdr r CtxDestroy
      else if t =? VIRTIO_GPU_CMD_CTX_ATTACH_RESOURCE then decode_as _ hdr r CtxAttachResource
      else if t =? VIRTIO_GPU_CMD_CTX_DETACH_RESOURCE then decode_as _ hdr r CtxDetachResource
      else if t =? VIRTIO_GPU_CMD_RESOURCE_CREATE_3D then decode_as _ hdr r ResourceCreate3d
      else if t =? VIRTIO_GPU_CMD_TRANSFER_TO_HOST_3D then decode_as _ hdr r TransferToHost3d
      else if t =? VIRTIO_GPU_CMD_TRANSFER_FROM_HOST_3D then decode_as _ hdr r TransferFromHost3d
      else if t =? VIRTIO_GPU_CMD_SUBMIT_3D then decode_as _ hdr r CmdSubmit3d
      else if t =? VIRTIO_GPU_CMD_RESOURCE_CREATE_BLOB then decode_as _ hdr r ResourceCreateBlob
      else if t =? VIRTIO_GPU_CMD_RESOURCE_MAP_BLOB then decode_as _ hdr r ResourceMapBlob
      else if t =? VIRTIO_GPU_CMD_RESOURCE_UNMAP_BLOB then decode_as _ hdr r ResourceUnmapBlob
      else if t =? VIRTIO_GPU_CMD_UPDATE_CURSOR then decode_as _ hdr r UpdateCursor
      else if t =? VIRTIO_GPU_CMD_MOVE_CURSOR then decode_as _ hdr r MoveCursor
      else if t =? VIRTIO_GPU_CMD_RESOURCE_ASSIGN_UUID then decode_as _ hdr r ResourceAssignUuid
      else (r, inl (InvalidType t))
  end.

(** * Responses *)

Record GpuResponsePlaneInfo := { p_stride : Z; p_offset : Z }.

(** The renderer's error carries a message only; it is left out. *)
Inductive GpuResponse :=
  | OkNoData
  | OkDisplayInfo (info : list (Z * Z * bool))
  | OkEdid (blob : list Z)
  | OkCapsetInfo (capset_id version size : Z)
  | OkCapset (data : list Z)
  | OkResourcePlaneInfo (format_modifier : Z) (plane_info : list GpuResponsePlaneInfo)
  | OkResourceUuid (uuid : list Z)
  | OkMapInfo (map_info : Z)
  | ErrUnspec
  | ErrRutabaga
  | ErrOutOfMemory
  | ErrInvalidScanoutId
  | ErrInvalidResourceId
  | ErrInvalidContextId
  | ErrInvalidParameter.

Inductive GpuResponseEncodeError :=
  | EncodeIO
  | EdidTooBig (n : nat)
  | TooManyDisplays (n : nat)
  | TooManyPlanes (n : nat).

(** [Result<GpuResponse, GpuResponse>]. *)
Abbreviation VirtioGpuResult := (GpuResponse + GpuResponse)%type.

Definition get_type (r : GpuResponse) : Z :=
  match r with
  | OkNoData => VIRTIO_GPU_RESP_OK_NODATA
  | OkDisplayInfo _ => VIRTIO_GPU_RESP_OK_DISPLAY_INFO
  | OkEdid _ => VIRTIO_GPU_RESP_OK_EDID
  | OkCapsetInfo _ _ _ => VIRTIO_GPU_RESP_OK_CAPSET_INFO
  | OkCapset _ => VIRTIO_GPU_RESP_OK_CAPSET
  | OkResourcePlaneInfo _ _ => VIRTIO_GPU_RESP_OK_RESOURCE_PLANE_INFO
  | OkResourceUuid _ => VIRTIO_GPU_RESP_OK_RESOURCE_UUID
  | OkMapInfo _ => VIRTIO_GPU_RESP_OK_MAP_INFO
  | ErrUnspec => VIRTIO_GPU_RESP_ERR_UNSPEC
  | ErrRutabaga => VIRTIO_GPU_RESP_ERR_UNSPEC
  | ErrOutOfMemory => VIRTIO_GPU_RESP_ERR_OUT_OF_MEMORY
  | ErrInvalidScanoutId => VIRTIO_GPU_RESP_ERR_INVALID_SCANOUT_ID
  | ErrInvalidResourceId => VIRTIO_GPU_RESP_ERR_INVALID_RESOURCE_ID
  | ErrInvalidContextId => VIRTIO_GPU_RESP_ERR_INVALID_CONTEXT_ID
  | ErrInvalidParameter => VIRTIO_GPU_RESP_ERR_INVALID_PARAMETER
  end.

Definition display_one_default : virtio_gpu_display_one :=
  {| d1_r := {| rect_x := 0; rect_y := 0; rect_width := 0; rect_height := 0 |};
     d1_enabled := 0; d1_flags := 0 |}.

Definition display_one (d : Z * Z * bool) : virtio_gpu_display_one :=
  {| d1_r := {| rect_x := 0; rect_y := 0; rect_width := d.1.1; rect_height := d.1.2 |};
     d1_enabled := if d.2 then 1 else 0; d1_flags := 0 |}.

Section Encode.
Context {M : Type} {HM : GuestMemory M}.

(** [resp.write_obj(v)?; size_of_val(&v)]. *)
Definition encode_obj {T : Type} `{ByteValued T} (mem : M) (w : Writer) (v : T)
    : M * Writer * (GpuResponseEncodeError + Z) :=
  let '(mem, w, ok) := write_obj mem w v in
  (mem, w, if ok : bool then inr (Z.of_nat (size_of T)) else inl EncodeIO).

(** [resp.write_obj(hdr)?; resp.write_all(data)?; size_of_val(&hdr) + data.len()], as a u32. *)
Definition encode_capset (mem : M) (w : Writer) (hdr : virtio_gpu_ctrl_hdr) (data : list Z)
    : M * Writer * (GpuResponseEncodeError + Z) :=
  let '(mem, w, ok) := write_obj mem w hdr in
  if negb ok then (mem, w, inl EncodeIO)
  else
    let '(mem, w, ok) := write_all mem w data in
    (mem, w, if ok : bool then inr (u32 (Z.of_nat (size_of virtio_gpu_ctrl_hdr + length data)))
             else inl EncodeIO).

Definition encode (resp : GpuResponse) (flags fence_id ctx_id ring_idx : Z) (mem : M) (w : Writer)
    : M * Writer * (GpuResponseEncodeError + Z) :=
  let hdr_of t := {| h_type := t; h_flags := flags; h_fence_id := fence_id; h_ctx_id := ctx_id;
                     h_ring_idx := ring_idx; h_padding := [0; 0; 0] |} in
  let hdr := hdr_of (get_type resp) in
  match resp with
  | OkDisplayInfo info =>
      if (Z.to_nat VIRTIO_GPU_MAX_SCANOUTS <? length info)%nat then (mem, w, inl (TooManyDisplays (length info)))
      else encode_obj mem w {| di_hdr := hdr; di_pmodes := resize 16 display_one_default (display_one <$> info) |}
  | OkEdid blob =>
      if (EDID_BLOB_MAX_SIZE <? length blob)%nat then (mem, w, inl (EdidTooBig (length blob)))
      else encode_obj mem w {| re_hdr := hdr; re_size := u32 (Z.of_nat (length blob)); re_padding := 0;
                               re_edid := resize EDID_BLOB_MAX_SIZE 0 blob |}
  | OkCapsetInfo capset_id version size =>
      encode_obj mem w {| rci_hdr := hdr; rci_capset_id := capset_id; rci_capset_max_version := version;
                          rci_capset_max_size := size; rci_padding := 0 |}
  | OkCapset data => encode_capset mem w hdr data
  | OkResourcePlaneInfo format_modifier plane_info =>
      if (PLANE_INFO_MAX_COUNT <? length plane_info)%nat then (mem, w, inl (TooManyPlanes (length plane_info)))
      else
        if Z.of_nat (size_of virtio_gpu_resp_resource_plane_info) <=? w_available_bytes w then
          encode_obj mem w {| pi_hdr := hdr; pi_count := u32 (Z.of_nat (length plane_info)); pi_padding := 0;
                              pi_format_modifier := format_modifier;
                              pi_strides := resize PLANE_INFO_MAX_COUNT 0 (p_stride <$> plane_info);
                              pi_offsets := resize PLANE_INFO_MAX_COUNT 0 (p_offset <$> plane_info) |}
        else encode_obj mem w (hdr_of VIRTIO_GPU_RESP_OK_NODATA)
  | OkResourceUuid uuid => encode_obj mem w {| rr_hdr := hdr; rr_uuid := uuid |}
  | OkMapInfo map_info => encode_obj mem w {| rm_hdr := hdr; rm_map_info := map_info; rm_padding := 0 |}
  | _ => encode_obj mem w hdr
  end.

End Encode.
