(* ===== verification/GpuProtocolFacts.v ===== *)
(** The wire format is a bijection: decoding is the exact inverse of laying a
    command out in memory, and a response reaches the segments of the chain as
    the bytes of its struct. *)

From S2P Require Import Prelude GuestMem Virtqueue GpuChain GpuWire GpuProtocol GpuChainFacts.

(** * The structs are their bytes *)

(** A list of known length is its elements. *)
Ltac explode l H :=
  simpl in H; repeat (destruct l as [|? l]; [discriminate H|]; simpl in H; apply Nat.succ_inj in H);
  apply nil_length_inv in H; subst l.

(** Structs of plain words, nested ones included. *)
Ltac plain_laws :=
  split; [intros v _; destruct v|intros v _|intros l Hl; explode l Hl|done];
  repeat match goal with
  | r : virtio_gpu_rect |- _ => destruct r
  | r : virtio_gpu_box |- _ => destruct r
  | r : virtio_gpu_cursor_pos |- _ => destruct r
  end; reflexivity.

Section Laws.
Abbreviation any := (fun _ => True).

#[export] Instance u64_laws : ByteValuedLaws Z any.
Proof. plain_laws. Qed.
#[export] Instance get_edid_laws : ByteValuedLaws virtio_gpu_get_edid any.
Proof. plain_laws. Qed.
#[export] Instance create_2d_laws : ByteValuedLaws virtio_gpu_resource_create_2d any.
Proof. plain_laws. Qed.
#[export] Instance unref_laws : ByteValuedLaws virtio_gpu_resource_unref any.
Proof. plain_laws. Qed.
#[export] Instance set_scanout_laws : ByteValuedLaws virtio_gpu_set_scanout any.
Proof. plain_laws. Qed.
#[export] Instance flush_laws : ByteValuedLaws virtio_gpu_resource_flush any.
Proof. plain_laws. Qed.
#[export] Instance transfer_2d_laws : ByteValuedLaws virtio_gpu_transfer_to_host_2d any.
Proof. plain_laws. Qed.
#[export] Instance mem_entry_laws : ByteValuedLaws virtio_gpu_mem_entry any.
Proof. plain_laws. Qed.
#[export] Instance attach_backing_laws : ByteValuedLaws virtio_gpu_resource_attach_backing any.
Proof. plain_laws. Qed.
#[export] Instance detach_backing_laws : ByteValuedLaws virtio_gpu_resource_detach_backing any.
Proof. plain_laws. Qed.
#[export] Instance capset_info_laws : ByteValuedLaws virtio_gpu_get_capset_info any.
Proof. plain_laws. Qed.
#[export] Instance get_capset_laws : ByteValuedLaws virtio_gpu_get_capset any.
Proof. plain_laws. Qed.
#[export] Instance ctx_destroy_laws : ByteValuedLaws virtio_gpu_ctx_destroy any.
Proof. plain_laws. Qed.
#[export] Instance ctx_resource_laws : ByteValuedLaws virtio_gpu_ctx_resource any.
Proof. plain_laws. Qed.
#[export] Instance create_3d_laws : ByteValuedLaws virtio_gpu_resource_create_3d any.
Proof. plain_laws. Qed.
#[export] Instance transfer_3d_laws : ByteValuedLaws virtio_gpu_transfer_host_3d any.
Proof. plain_laws. Qed.
#[export] Instance submit_laws : ByteValuedLaws virtio_gpu_cmd_submit any.
Proof. plain_laws. Qed.
#[export] Instance create_blob_laws : ByteValuedLaws virtio_gpu_resource_create_blob any.
Proof. plain_laws. Qed.
#[export] Instance map_blob_laws : ByteValuedLaws virtio_gpu_resource_map_blob any.
Proof. plain_laws. Qed.
#[export] Instance unmap_blob_laws : ByteValuedLaws virtio_gpu_resource_unmap_blob any.
Proof. plain_laws. Qed.
#[export] Instance cursor_laws : ByteValuedLaws virtio_gpu_update_cursor any.
Proof. plain_laws. Qed.
#[export] Instance uuid_laws : ByteValuedLaws virtio_gpu_resource_assign_uuid any.
Proof. plain_laws. Qed.

End Laws.

(** ** Structs with arrays *)

Definition hdr_shape (h : virtio_gpu_ctrl_hdr) : Prop := length (h_padding h) = 3%nat.

#[export] Instance hdr_laws : ByteValuedLaws virtio_gpu_ctrl_hdr hdr_shape.
Proof.
  split.
  - intros [? ? ? ? ? p] H. unfold hdr_shape in H. simpl in H. explode p H. done.
  - intros v H. unfold hdr_shape in H. simpl. by rewrite H.
  - intros l H. explode l H. done.
  - intros l H. explode l H. done.
Qed.

#[export] Instance ctx_create_laws :
  ByteValuedLaws virtio_gpu_ctx_create (fun c => length (cc_debug_name c) = 64%nat).
Proof.
  split.
  - intros [? ? n] H. simpl in H. cbn -[take]. unfold slice_. cbn -[take].
    by rewrite drop_0, take_ge by lia.
  - intros v H. cbn. by rewrite H.
  - intros l H. destruct l as [|a [|b l]]; [done..|]. change (S (S (length l)) = 66%nat) in H.
    change ([a; b] ++ take 64 (drop 0 l) = a :: b :: l). by rewrite drop_0, take_ge by lia.
  - intros l H. change (length l = 66%nat) in H.
    change (length (take 64 (drop 2 l)) = 64%nat). rewrite length_take, length_drop. lia.
Qed.

#[export] Instance scanout_blob_laws :
  ByteValuedLaws virtio_gpu_set_scanout_blob
    (fun c => length (sb_strides c) = 4%nat /\ length (sb_offsets c) = 4%nat).
Proof.
  split.
  - intros [r ? ? ? ? ? ? s o] [Hs Ho]. simpl in *. explode s Hs. explode o Ho. by destruct r.
  - intros v [Hs Ho]. cbn. rewrite length_app. by rewrite Hs, Ho.
  - intros l H. explode l H. done.
  - intros l H. explode l H. done.
Qed.

(** * Commands *)

(** A command as a driver lays it out: the header's type and the bytes after
    the header. *)
Definition command_type (c : GpuCommand) : Z :=
  match c with
  | GetDisplayInfo => VIRTIO_GPU_CMD_GET_DISPLAY_INFO
  | GetEdid _ => VIRTIO_GPU_CMD_GET_EDID
  | ResourceCreate2d _ => VIRTIO_GPU_CMD_RESOURCE_CREATE_2D
  | ResourceUnref _ => VIRTIO_GPU_CMD_RESOURCE_UNREF
  | SetScanout _ => VIRTIO_GPU_CMD_SET_SCANOUT
  | SetScanoutBlob _ => VIRTIO_GPU_CMD_SET_SCANOUT_BLOB
  | ResourceFlush _ => VIRTIO_GPU_CMD_RESOURCE_FLUSH
  | TransferToHost2d _ => VIRTIO_GPU_CMD_TRANSFER_TO_HOST_2D
  | ResourceAttachBacking _ => VIRTIO_GPU_CMD_RESOURCE_ATTACH_BACKING
  | ResourceDetachBacking _ => VIRTIO_GPU_CMD_RESOURCE_DETACH_BACKING
  | GetCapsetInfo _ => VIRTIO_GPU_CMD_GET_CAPSET_INFO
  | GetCapset _ => VIRTIO_GPU_CMD_GET_CAPSET
  | CtxCreate _ => VIRTIO_GPU_CMD_CTX_CREATE
  | CtxDestroy _ => VIRTIO_GPU_CMD_CTX_DESTROY
  | CtxAttachResource _ => VIRTIO_GPU_CMD_CTX_ATTACH_RESOURCE
  | CtxDetachResource _ => VIRTIO_GPU_CMD_CTX_DETACH_RESOURCE
  | ResourceCreate3d _ => VIRTIO_GPU_CMD_RESOURCE_CREATE_3D
  | TransferToHost3d _ => VIRTIO_GPU_CMD_TRANSFER_TO_HOST_3D
  | TransferFromHost3d _ => VIRTIO_GPU_CMD_TRANSFER_FROM_HOST_3D
  | CmdSubmit3d _ => VIRTIO_GPU_CMD_SUBMIT_3D
  | ResourceCreateBlob _ => VIRTIO_GPU_CMD_RESOURCE_CREATE_BLOB
  | ResourceMapBlob _ => VIRTIO_GPU_CMD_RESOURCE_MAP_BLOB
  | ResourceUnmapBlob _ => VIRTIO_GPU_CMD_RESOURCE_UNMAP_BLOB
  | UpdateCursor _ => VIRTIO_GPU_CMD_UPDATE_CURSOR
  | MoveCursor _ => VIRTIO_GPU_CMD_MOVE_CURSOR
  | ResourceAssignUuid _ => VIRTIO_GPU_CMD_RESOURCE_ASSIGN_UUID
  end.

Definition command_bytes (c : GpuCommand) : list Z :=
  match c with
  | GetDisplayInfo => []
  | GetEdid c => as_slice c
  | ResourceCreate2d c => as_slice c
  | ResourceUnref c => as_slice c
  | SetScanout c => as_slice c
  | SetScanoutBlob c => as_slice c
  | ResourceFlush c => as_slice c
  | TransferToHost2d c => as_slice c
  | ResourceAttachBacking c => as_slice c
  | ResourceDetachBacking c => as_slice c
  | GetCapsetInfo c => as_slice c
  | GetCapset c => as_slice c
  | CtxCreate c => as_slice c
  | CtxDestroy c => as_slice c
  | CtxAttachResource c | CtxDetachResource c => as_slice c
  | ResourceCreate3d c => as_slice c
  | TransferToHost3d c | TransferFromHost3d c => as_slice c
  | CmdSubmit3d c => as_slice c
  | ResourceCreateBlob c => as_slice c
  | ResourceMapBlob c => as_slice c
  | ResourceUnmapBlob c => as_slice c
  | UpdateCursor c | MoveCursor c => as_slice c
  | ResourceAssignUuid c => as_slice c
  end.

(** The fields are in range and the arrays have their lengths. *)
Definition fits (T : Type) `{ByteValuedLaws T shape} (v : T) : Prop := shape v /\ in_width T v.

Definition command_valid (c : GpuCommand) : Prop :=
  match c with
  | GetDisplayInfo => True
  | GetEdid c => fits _ c
  | ResourceCreate2d c => fits _ c
  | ResourceUnref c => fits _ c
  | SetScanout c => fits _ c
  | SetScanoutBlob c => fits _ c
  | ResourceFlush c => fits _ c
  | TransferToHost2d c => fits _ c
  | ResourceAttachBacking c => fits _ c
  | ResourceDetachBacking c => fits _ c
  | GetCapsetInfo c => fits _ c
  | GetCapset c => fits _ c
  | CtxCreate c => fits _ c
  | CtxDestroy c => fits _ c
  | CtxAttachResource c | CtxDetachResource c => fits _ c
  | ResourceCreate3d c => fits _ c
  | TransferToHost3d c | TransferFromHost3d c => fits _ c
  | CmdSubmit3d c => fits _ c
  | ResourceCreateBlob c => fits _ c
  | ResourceMapBlob c => fits _ c
  | ResourceUnmapBlob c => fits _ c
  | UpdateCursor c | MoveCursor c => fits _ c
  | ResourceAssignUuid c => fits _ c
  end.

Lemma decode_as_inv {T} `{HL : ByteValuedLaws T shape} hdr r r' h c (C : T -> GpuCommand) :
  Forall is_byte (unread r) -> decode_as T hdr r C = (r', inr (h, c)) ->
  exists v, h = hdr /\ c = C v /\ fits T v /\ (exists rest, unread r = as_slice v ++ rest) /\
    r' = skip_bytes r (length (as_slice v)).
Proof.
  unfold decode_as. destruct (read_obj T r) as [r1 [v|]] eqn:E; [|done]. intros Hb [= <- <- <-].
  apply read_obj_iff in E as (Hs & Hw & -> & Hr); [|done].
  exists v. rewrite length_as_slice by done. by unfold fits.
Qed.

Lemma decode_as_some {T} `{HL : ByteValuedLaws T shape} hdr r (C : T -> GpuCommand) v rest :
  Forall is_byte (unread r) -> fits T v -> unread r = as_slice v ++ rest ->
  decode_as T hdr r C = (skip_bytes r (length (as_slice v)), inr (hdr, C v)).
Proof.
  intros Hb [Hs Hw] Hu. unfold decode_as.
  rewrite (proj2 (read_obj_iff r (skip_bytes r (size_of T)) v Hb)) by eauto.
  by rewrite length_as_slice.
Qed.

Lemma unread_suffix r b rest : Forall is_byte (unread r) -> unread r = b ++ rest -> Forall is_byte rest.
Proof. intros Hb Hu. rewrite Hu in Hb. by apply Forall_app in Hb as [_ ?]. Qed.

Lemma skip_skip r n m : skip_bytes (skip_bytes r n) m = skip_bytes r (n + m).
Proof. unfold skip_bytes. simpl. f_equal. lia. Qed.

(** What decodes is valid and was on the wire. *)
Lemma decode_inv r r' hdr c :
  Forall is_byte (unread r) ->
  decode r = (r', inr (hdr, c)) ->
  fits _ hdr /\ h_type hdr = command_type c /\ command_valid c /\
  (exists rest, unread r = as_slice hdr ++ command_bytes c ++ rest) /\
  r' = skip_bytes r (24 + length (command_bytes c)).
Proof.
  intros Hb. unfold decode.
  destruct (read_obj _ r) as [r1 [h|]] eqn:E; [|done].
  apply read_obj_iff in E as (Hs & Hw & -> & rest & Hu); [|done].
  assert (unread (skip_bytes r (size_of virtio_gpu_ctrl_hdr)) = rest) as Hr
    by (eapply unread_skip; [exact Hu|by apply length_as_slice]).
  assert (Forall is_byte (unread (skip_bytes r (size_of virtio_gpu_ctrl_hdr)))) as Hb1
    by (rewrite Hr; by eapply unread_suffix).
  destruct (_ =? VIRTIO_GPU_CMD_GET_DISPLAY_INFO) eqn:Et.
  { bool_prop. intros [= <- <- <-]. exact (conj (conj Hs Hw) (conj Et (conj I (conj (ex_intro _ rest Hu) eq_refl)))). }
  clear Et. do 25 (destruct (_ =? _) eqn:Et;
    [bool_prop; intros Hd; apply (decode_as_inv _ _ _ _ _ _ Hb1) in Hd as (v & -> & -> & Hf & [rest' Hv] & ->);
     rewrite Hr in Hv; rewrite Hv in Hu; rewrite skip_skip;
     exact (conj (conj Hs Hw) (conj Et (conj Hf (conj (ex_intro _ rest' Hu) eq_refl))))
    |clear Et]). done.
Qed.

(** C22: Decoding is the exact inverse of the wire format: a buffer decodes to a
    header and a command, leaving the reader just after them, exactly when it
    starts with the bytes of a header of that command's type followed by the
    bytes of the command, for each of the 26 commands. *)
Theorem decode_exact r r' hdr c :
  Forall is_byte (unread r) ->
  decode r = (r', inr (hdr, c)) <->
  fits _ hdr /\ h_type hdr = command_type c /\ command_valid c /\
  (exists rest, unread r = as_slice hdr ++ command_bytes c ++ rest) /\
  r' = skip_bytes r (24 + length (command_bytes c)).
Proof.
  intros Hb. split; [by apply decode_inv|]. unfold decode.
  intros ([Hs Hw] & Ht & Hv & [rest Hu] & ->).
  assert (unread (skip_bytes r (size_of virtio_gpu_ctrl_hdr)) = command_bytes c ++ rest) as Hr
    by (eapply unread_skip; [exact Hu|by apply length_as_slice]).
  assert (Forall is_byte (unread (skip_bytes r (size_of virtio_gpu_ctrl_hdr)))) as Hb1
    by (rewrite Hr; by eapply unread_suffix).
  rewrite (proj2 (read_obj_iff r (skip_bytes r (size_of virtio_gpu_ctrl_hdr)) hdr Hb)) by eauto.
  rewrite Ht. destruct c; cbn [command_type command_bytes command_valid] in *;
    repeat (rewrite (proj2 (Z.eqb_neq _ _)) by done);
    rewrite Z.eqb_refl; try (erewrite decode_as_some by eauto; by rewrite skip_skip). done.
Qed.

(** * Responses *)

(** The header a response starts with, and the bytes after it. *)
Definition response_hdr (t flags fence_id ctx_id ring_idx : Z) : virtio_gpu_ctrl_hdr :=
  {| h_type := t; h_flags := flags; h_fence_id := fence_id; h_ctx_id := ctx_id;
     h_ring_idx := ring_idx; h_padding := [0; 0; 0] |}.

Definition response_body (r : GpuResponse) : list Z :=
  match r with
  | OkDisplayInfo info => resize 16 display_one_default (display_one <$> info) ≫= as_slice
  | OkEdid blob => le_bytes 4 (Z.of_nat (length blob)) ++ le_bytes 4 0 ++ resize EDID_BLOB_MAX_SIZE 0 blob
  | OkCapsetInfo id version size => le_bytes 4 id ++ le_bytes 4 version ++ le_bytes 4 size ++ le_bytes 4 0
  | OkCapset data => data
  | OkResourcePlaneInfo modifier planes =>
      le_bytes 4 (Z.of_nat (length planes)) ++ le_bytes 4 0 ++ le_bytes 8 modifier ++
      (resize 4 0 (p_stride <$> planes) ≫= le_bytes 4) ++ (resize 4 0 (p_offset <$> planes) ≫= le_bytes 4)
  | OkResourceUuid uuid => uuid
  | OkMapInfo info => le_bytes 4 info ++ le_bytes 4 0
  | _ => []
  end.

(** Within the limits of the format, with byte strings that are bytes. *)
Definition response_ok (r : GpuResponse) : Prop :=
  match r with
  | OkDisplayInfo info => (length info <= 16)%nat
  | OkEdid blob => (length blob <= EDID_BLOB_MAX_SIZE)%nat /\ Forall is_byte blob
  | OkCapset data => Z.of_nat (24 + length data) < 2 ^ 32 /\ Forall is_byte data
  | OkResourcePlaneInfo _ planes => (length planes <= 4)%nat
  | OkResourceUuid uuid => length uuid = 16%nat /\ Forall is_byte uuid
  | _ => True
  end.

Lemma emit_fields_app ws1 ws2 vs1 vs2 :
  length vs1 = length ws1 ->
  emit_fields (ws1 ++ ws2) (vs1 ++ vs2) = emit_fields ws1 vs1 ++ emit_fields ws2 vs2.
Proof.
  revert vs1. induction ws1 as [|n ws IH]; intros [|v vs] Hl; simplify_eq/=; [done|].
  by rewrite IH, app_assoc.
Qed.

Lemma emit_fields_same n vs : emit_fields (replicate (length vs) n) vs = vs ≫= le_bytes n.
Proof. induction vs as [|v vs IH]; [done|]. rewrite bind_cons, <- IH. done. Qed.

Lemma bind_bytes b : Forall is_byte b -> b ≫= le_bytes 1 = b.
Proof.
  induction 1 as [|x b Hx _ IH]; [done|]. rewrite bind_cons, IH. simpl. f_equal.
  apply Z.mod_small. exact Hx.
Qed.

Lemma length_bind_const {A} (f : A -> list Z) n l :
  (forall x, length (f x) = n) -> length (l ≫= f) = (n * length l)%nat.
Proof. intros Hf. induction l as [|x l IH]; [simpl; lia|]. rewrite bind_cons, length_app, Hf, IH. simpl. lia. Qed.

Section Respond.
Context {M : Type} {HM : GuestMemory M} {HL : GuestMemoryLaws M}.
Implicit Types (mem : M) (w : Writer) (l : list Z).

Lemma encode_obj_fits {T} `{ByteValued T} mem w l (v : T) hdr body :
  writer_ok mem w l -> as_slice v = as_slice (T := virtio_gpu_ctrl_hdr) hdr ++ body ->
  size_of T = (24 + length body)%nat -> hdr_shape hdr ->
  Z.of_nat (24 + length body) <= w_available_bytes w ->
  exists mem' w', encode_obj mem w v = (mem', w', inr (Z.of_nat (24 + length body))) /\
    gather mem' (segments w) = Some (splice l (Z.to_nat (write_pos w)) (as_slice hdr ++ body)).
Proof.
  intros Hw Hv Hsz Hh Hav. unfold encode_obj, write_obj.
  assert (length (as_slice v) = (24 + length body)%nat) as Hl.
  { rewrite Hv, length_app. by rewrite (length_as_slice hdr Hh). }
  destruct (write_all_fits mem w (as_slice v) l Hw) as (m & w' & Ew & (_ & Hg & _) & Hs & _);
    [apply emit_fields_bytes|lia|].
  rewrite Ew, Hsz. exists m, w'. split; [done|]. by rewrite <- Hv, <- Hs.
Qed.

(** The structs behind the header, as bytes. *)
Lemma hdr_prefix ws vs (h : virtio_gpu_ctrl_hdr) :
  hdr_shape h -> emit_fields (layout virtio_gpu_ctrl_hdr ++ ws) (vals h ++ vs) = as_slice h ++ emit_fields ws vs.
Proof. intros Hh. apply emit_fields_app. by apply length_vals. Qed.

Lemma emit_array ws n k vs1 vs2 :
  length vs1 = k -> emit_fields (replicate k n ++ ws) (vs1 ++ vs2) = (vs1 ≫= le_bytes n) ++ emit_fields ws vs2.
Proof. intros <-. rewrite emit_fields_app by (by rewrite length_replicate). by rewrite emit_fields_same. Qed.

Lemma emit_displays k (ds : list virtio_gpu_display_one) :
  length ds = k ->
  emit_fields (seq 0 k ≫= fun _ => layout virtio_gpu_display_one) (ds ≫= vals) = ds ≫= as_slice.
Proof.
  generalize 0%nat as s. revert k. induction ds as [|d ds IH]; intros k s Hk; destruct k; try done.
  cbn [seq]. rewrite !bind_cons, emit_fields_app by done. f_equal. apply IH. simpl in Hk. lia.
Qed.

Lemma edid_bytes_of hdr blob :
  hdr_shape hdr -> (length blob <= EDID_BLOB_MAX_SIZE)%nat -> Forall is_byte blob ->
  as_slice {| re_hdr := hdr; re_size := u32 (Z.of_nat (length blob)); re_padding := 0;
              re_edid := resize EDID_BLOB_MAX_SIZE 0 blob |} = as_slice hdr ++ response_body (OkEdid blob).
Proof.
  intros Hh Hl Hb. unfold as_slice at 1. cbn [vals virtio_gpu_resp_edid_bytes layout re_hdr re_size re_padding re_edid].
  rewrite hdr_prefix by done. f_equal. cbn [app emit_fields response_body].
  rewrite <- (app_nil_r (replicate _ _)), <- (app_nil_r (resize _ _ _)).
  rewrite emit_array by apply length_resize. rewrite app_nil_r, bind_bytes.
  - rewrite wrap_small; [by rewrite app_nil_r|]. unfold is_word, EDID_BLOB_MAX_SIZE in *. lia.
  - by apply Forall_resize.
Qed.

Lemma display_bytes_of hdr info :
  hdr_shape hdr ->
  as_slice {| di_hdr := hdr; di_pmodes := resize 16 display_one_default (display_one <$> info) |} =
  as_slice hdr ++ response_body (OkDisplayInfo info).
Proof.
  intros Hh. unfold as_slice at 1.
  cbn [vals virtio_gpu_resp_display_info_bytes layout di_hdr di_pmodes].
  rewrite hdr_prefix by done. f_equal. apply emit_displays, length_resize.
Qed.

Lemma plane_bytes_of hdr modifier planes :
  hdr_shape hdr -> (length planes <= 4)%nat ->
  as_slice {| pi_hdr := hdr; pi_count := u32 (Z.of_nat (length planes)); pi_padding := 0;
              pi_format_modifier := modifier; pi_strides := resize 4 0 (p_stride <$> planes);
              pi_offsets := resize 4 0 (p_offset <$> planes) |} =
  as_slice hdr ++ response_body (OkResourcePlaneInfo modifier planes).
Proof.
  intros Hh Hl. unfold as_slice at 1.
  cbn [vals virtio_gpu_resp_resource_plane_info_bytes layout pi_hdr pi_count pi_padding
       pi_format_modifier pi_strides pi_offsets].
  rewrite hdr_prefix by done. f_equal. rewrite emit_fields_app by done. cbn [emit_fields response_body].
  rewrite emit_array by apply length_resize.
  rewrite wrap_small by (unfold is_word; lia). rewrite <- !app_assoc. rewrite app_nil_l. do 4 f_equal.
  rewrite <- (length_resize (p_offset <$> planes) 4 0) at 1. apply emit_fields_same.
Qed.

Lemma uuid_bytes_of hdr uuid :
  hdr_shape hdr -> length uuid = 16%nat -> Forall is_byte uuid ->
  as_slice {| rr_hdr := hdr; rr_uuid := uuid |} = as_slice hdr ++ uuid.
Proof.
  intros Hh Hl Hb. unfold as_slice at 1. cbn [vals virtio_gpu_resp_resource_uuid_bytes layout rr_hdr rr_uuid].
  rewrite hdr_prefix by done. f_equal. rewrite <- Hl, emit_fields_same. by apply bind_bytes.
Qed.

(** The capset's data follows its header in a second write. *)
Lemma encode_capset_fits mem w l hdr data :
  writer_ok mem w l -> hdr_shape hdr -> Forall is_byte data -> Z.of_nat (24 + length data) < 2 ^ 32 ->
  Z.of_nat (24 + length data) <= w_available_bytes w ->
  exists mem' w', encode_capset mem w hdr data = (mem', w', inr (Z.of_nat (24 + length data))) /\
    gather mem' (segments w) = Some (splice l (Z.to_nat (write_pos w)) (as_slice hdr ++ data)).
Proof.
  intros Hw Hh Hb Hd Hav. pose proof (length_as_slice hdr Hh) as Hl.
  change (size_of virtio_gpu_ctrl_hdr) with 24%nat in Hl. unfold encode_capset, write_obj.
  destruct (write_all_fits mem w (as_slice hdr) l Hw) as (m & w1 & Ew & Hw1 & Hs & Hp);
    [apply emit_fields_bytes|lia|].
  rewrite Ew. cbn [negb]. pose proof (w_available_ok _ _ _ Hw) as Ha. pose proof Hw as (_ & _ & Hwp & _).
  destruct (write_all_fits m w1 data _ Hw1 Hb) as (m2 & w2 & Ew2 & (_ & Hg & _) & Hs2 & _).
  { rewrite (w_available_ok _ _ _ Hw1), length_splice by lia. lia. }
  rewrite Ew2. exists m2, w2. change (size_of virtio_gpu_ctrl_hdr) with 24%nat.
  split; [by rewrite wrap_small by (unfold is_word; lia)|].
  rewrite <- Hs, <- Hs2, Hg, Hp, Hl. f_equal.
  replace (Z.to_nat (write_pos w + Z.of_nat 24)) with (Z.to_nat (write_pos w) + length (as_slice hdr))%nat by lia.
  apply splice_splice; lia.
Qed.

(** A response that fits the chain reaches it whole: the writable segments
    hold, from the writer's position on, a header with the response's type and
    the fence fields given, then the response's body, and the length reported
    is the length of both.  Plane information that does not fit is answered
    with a plain header. *)
Theorem response_delivered resp flags fence_id ctx_id ring_idx mem w l :
  writer_ok mem w l -> response_ok resp ->
  let hdr t := as_slice (response_hdr t flags fence_id ctx_id ring_idx) in
  let body := response_body resp in
  let delivered bytes := exists mem' w',
    encode resp flags fence_id ctx_id ring_idx mem w = (mem', w', inr (Z.of_nat (length bytes))) /\
    gather mem' (segments w) = Some (splice l (Z.to_nat (write_pos w)) bytes) in
  (Z.of_nat (24 + length body) <= w_available_bytes w -> delivered (hdr (get_type resp) ++ body)) /\
  (forall modifier planes, resp = OkResourcePlaneInfo modifier planes ->
     24 <= w_available_bytes w < 72 -> delivered (hdr VIRTIO_GPU_RESP_OK_NODATA)).
Proof.
  intros Hw Hok hdr body delivered.
  assert (forall t bytes, length (hdr t ++ bytes) = (24 + length bytes)%nat) as Hlen.
  { intros. by rewrite length_app. }
  split.
  - intros Hav. unfold delivered. rewrite Hlen. subst hdr body.
    destruct resp; cbn [response_ok] in Hok; cbn [encode get_type] in *; try match type of Hok with _ /\ _ => destruct Hok as [Hok Hby] end.
    all: try by (eapply encode_obj_fits; [done|by rewrite app_nil_r|done..]).
    + rewrite (proj2 (Nat.ltb_ge _ _)) by done.
      eapply encode_obj_fits; [done|by apply display_bytes_of| |done..].
      cbn [response_body]. rewrite (length_bind_const _ 24), length_resize by done. done.
    + rewrite (proj2 (Nat.ltb_ge _ _)) by done.
      eapply encode_obj_fits; [done|by apply edid_bytes_of| |done..].
      cbn [response_body]. rewrite !length_app, length_resize. done.
    + eapply encode_obj_fits; [done|by apply hdr_prefix|done..].
    + by apply encode_capset_fits.
    + rewrite (proj2 (Nat.ltb_ge _ _)) by done.
      assert (length (response_body (OkResourcePlaneInfo format_modifier plane_info)) = 48%nat) as H48.
      { cbn [response_body]. rewrite !length_app, !length_le_bytes.
        by rewrite !(length_bind_const _ 4), !length_resize by apply length_le_bytes. }
      rewrite H48 in *. rewrite (proj2 (Z.leb_le _ _)) by exact Hav. rewrite <- H48 in *.
      eapply encode_obj_fits; [done|by apply plane_bytes_of|by rewrite H48|done..].
    + eapply encode_obj_fits; [done|by apply uuid_bytes_of|cbn [response_body]; by rewrite Hok|done..].
    + eapply encode_obj_fits; [done|by apply hdr_prefix|done..].
  - intros modifier planes -> Hav. cbn [response_ok] in Hok. unfold delivered. cbn [encode].
    rewrite (proj2 (Nat.ltb_ge _ _)), (proj2 (Z.leb_gt _ _)) by first [done|apply Hav].
    rewrite <- (app_nil_r (hdr _)), Hlen.
    eapply encode_obj_fits; [done|by rewrite app_nil_r|done|done|simpl; lia].
Qed.

End Respond.
