(* ===== verification/GpuEdid.v ===== *)
(** The monitor a guest sees, [virtio-devices/src/gpu/edid.rs] and
    [virtio-devices/src/gpu/display.rs]: the 128-byte EDID block made from a
    resolution and a refresh rate.

    The only floating-point code, the physical size from a resolution and a
    density, is the standard library's model of IEEE binary32.

    The EDID is one a driver accepts and decodes to the display it was made
    from; its list of standard timings is not what the source means by it. *)

From Stdlib Require Import SpecFloat.
From S2P Require Import Prelude.

(** * binary32 *)

Definition f32_of_u32 (x : Z) : spec_float := binary_normalize 24 128 x 0 false.
Definition f32_div : spec_float -> spec_float -> spec_float := SFdiv 24 128.
Definition f32_mul : spec_float -> spec_float -> spec_float := SFmul 24 128.

(** [x as u16]: towards zero, saturating, and zero for a NaN. *)
Definition f32_as_u16 (x : spec_float) : Z :=
  match x with
  | S754_zero _ => 0
  | S754_nan => 0
  | S754_infinity neg => if neg then 0 else 65535
  | S754_finite neg m e =>
      if neg then 0 else Z.min 65535 (if 0 <=? e then Z.pos m * 2 ^ e else Z.pos m / 2 ^ (- e))
  end.

(** The literal [25.4]: 13316915 * 2^-19 is the binary32 number nearest to it. *)
Definition MILLIMETERS_PER_INCH : spec_float := S754_finite false 13316915 (-19).

(** * Displays *)

Inductive PhysicalSize :=
  | Dpi (dpi : Z)
  | DimensionsMillimeters (w h : Z).

Record EdidParams := { refresh_rate : Z; physical_size : PhysicalSize }.

Definition EdidParams_default : EdidParams := {| refresh_rate := 60; physical_size := Dpi 96 |}.

Definition EDID_DATA_LENGTH : nat := 128.
Definition DEFAULT_HORIZONTAL_BLANKING : Z := 560.
Definition DEFAULT_VERTICAL_BLANKING : Z := 50.
Definition DEFAULT_HORIZONTAL_FRONT_PORCH : Z := 64.
Definition DEFAULT_VERTICAL_FRONT_PORCH : Z := 1.
Definition DEFAULT_HORIZONTAL_SYNC_PULSE : Z := 192.
Definition DEFAULT_VERTICAL_SYNC_PULSE : Z := 3.

Record EdidInfo := {
  e_width : Z; e_height : Z; e_refresh_rate : Z;
  horizontal_blanking : Z; vertical_blanking : Z;
  horizontal_front : Z; vertical_front : Z;
  horizontal_sync : Z; vertical_sync : Z;
  width_millimeters : Z; height_millimeters : Z
}.

Definition millimeters (pixels dpi : Z) : Z :=
  f32_as_u16 (f32_mul (f32_div (f32_of_u32 pixels) (f32_of_u32 dpi)) MILLIMETERS_PER_INCH).

Definition EdidInfo_new (width height : Z) (params : EdidParams) : EdidInfo :=
  let '(w, h) := match physical_size params with
                 | Dpi dpi => (millimeters width dpi, millimeters height dpi)
                 | DimensionsMillimeters w h => (w, h)
                 end in
  {| e_width := width; e_height := height; e_refresh_rate := refresh_rate params;
     horizontal_blanking := DEFAULT_HORIZONTAL_BLANKING; vertical_blanking := DEFAULT_VERTICAL_BLANKING;
     horizontal_front := DEFAULT_HORIZONTAL_FRONT_PORCH; vertical_front := DEFAULT_VERTICAL_FRONT_PORCH;
     horizontal_sync := DEFAULT_HORIZONTAL_SYNC_PULSE; vertical_sync := DEFAULT_VERTICAL_SYNC_PULSE;
     width_millimeters := w; height_millimeters := h |}.

(** * The block *)

Definition width_centimeters (i : EdidInfo) : Z := u8 (width_millimeters i / 10).
Definition height_centimeters (i : EdidInfo) : Z := u8 (height_millimeters i / 10).

(** "krun-display" and a newline. *)
Definition product_name : list Z := [107; 114; 117; 110; 45; 100; 105; 115; 112; 108; 97; 121; 10].

Definition populate_display_name (block : list Z) : list Z :=
  splice (splice block 0 [0x00; 0x00; 0x00; 0xFC; 0x00]) 5 product_name.

(** [(x & 0xFF) as u8], and the bits above them that a mask keeps. *)
Definition lsb (x : Z) : Z := Z.land x 0xFF.
Definition msb (x mask : Z) : Z := Z.land (Z.shiftr x 8) mask.

Definition pixel_clock (i : EdidInfo) : Z :=
  let htotal := u32 (e_width i + horizontal_blanking i) in
  let vtotal := u32 (e_height i + vertical_blanking i) in
  let clock := u16 (u32 (u32 (e_refresh_rate i * htotal) * vtotal) / 10000) in
  u16 (u16 (clock + 5) / 10 * 10).

Definition populate_detailed_timing (block : list Z) (i : EdidInfo) : list Z :=
  let block := splice block 0 (le_bytes 2 (pixel_clock i)) in
  let block := <[2%nat := lsb (e_width i)]> block in
  let block := <[3%nat := lsb (horizontal_blanking i)]> block in
  let block := <[4%nat := Z.lor (msb (horizontal_blanking i) 0x0F) (u8 (Z.shiftl (msb (e_width i) 0x0F) 4))]> block in
  let block := <[5%nat := lsb (e_height i)]> block in
  let block := <[6%nat := lsb (vertical_blanking i)]> block in
  let block := <[7%nat := Z.lor (msb (vertical_blanking i) 0x0F) (u8 (Z.shiftl (msb (e_height i) 0x0F) 4))]> block in
  let block := <[8%nat := lsb (horizontal_front i)]> block in
  let block := <[9%nat := lsb (horizontal_sync i)]> block in
  let block := <[10%nat := Z.lor (lsb (vertical_sync i)) (u8 (Z.shiftl (Z.land (vertical_front i) 0x0F) 4))]> block in
  let block := <[11%nat := Z.lor (Z.lor (Z.lor (msb (vertical_sync i) 0x0F)
                             (u8 (Z.shiftl (msb (vertical_front i) 0x0F) 2)))
                             (u8 (Z.shiftl (msb (horizontal_sync i) 0x03) 4)))
                             (u8 (Z.shiftl (msb (horizontal_front i) 0x03) 6))]> block in
  let block := <[12%nat := lsb (width_millimeters i)]> block in
  let block := <[13%nat := lsb (height_millimeters i)]> block in
  <[14%nat := Z.lor (msb (height_millimeters i) 0xF) (u8 (Z.shiftl (msb (width_millimeters i) 0xF) 4))]> block.

(** "RHT", five bits a letter. *)
Definition manufacturer_id : Z :=
  foldl (fun res c => Z.lor (u16 (Z.shiftl res 5)) (Z.land (c - 65 + 1) 0x1F)) 0 [82; 72; 84].

Definition populate_header (edid : list Z) : list Z :=
  let edid := splice edid 0 [0x00; 0xFF; 0xFF; 0xFF; 0xFF; 0xFF; 0xFF; 0x00] in
  let edid := splice edid 8 (rev (le_bytes 2 manufacturer_id)) in
  let edid := splice edid 10 (le_bytes 2 1) in
  let edid := splice edid 12 (le_bytes 4 1) in
  let edid := <[16%nat := 30]> edid in
  <[17%nat := u8 (2025 - 1990)]> edid.

(** Evaluated at compile time in the source, where another ratio is an error. *)
Definition aspect_ratio (width height : Z) : Z * Z :=
  let divisor := Z.gcd width height in (width / divisor, height / divisor).

Definition aspect_ratio_bits (width height : Z) : option Z :=
  let r := aspect_ratio width height in
  if bool_decide (r = (8, 5)) then Some 0x0
  else if bool_decide (r = (4, 3)) then Some 0x1
  else if bool_decide (r = (5, 4)) then Some 0x2
  else if bool_decide (r = (16, 9)) then Some 0x3
  else None.

Definition RESOLUTIONS : list (Z * Z) :=
  [(1440, 900); (1600, 900); (800, 600); (1680, 1050); (1856, 1392); (1280, 1024); (1400, 1050); (1920, 1200)].

Definition populate_standard_timings (edid : list Z) : list Z :=
  foldl (fun edid '(index, (width, height)) =>
           <[(0x27 + index * 2)%nat := default 0 (aspect_ratio_bits width height)]>
             (<[(0x26 + index * 2)%nat := u8 (width / 8 - 31)]> edid))
    edid (imap pair RESOLUTIONS).

Definition populate_edid_version (edid : list Z) : list Z := <[19%nat := 4]> (<[18%nat := 1]> edid).

Definition populate_size (edid : list Z) (i : EdidInfo) : list Z :=
  <[22%nat := height_centimeters i]> (<[21%nat := width_centimeters i]> edid).

Definition calculate_checksum (edid : list Z) : list Z :=
  let checksum := foldl (fun acc b => u8 (acc + b)) 0 (take (EDID_DATA_LENGTH - 1) edid) in
  let checksum := if negb (checksum =? 0) then 255 - checksum + 1 else checksum in
  <[127%nat := checksum]> edid.

(** A block of the EDID rewritten in place. *)
Definition on_block (edid : list Z) (from upto : nat) (f : list Z -> list Z) : list Z :=
  splice edid from (f (take (upto - from) (drop from edid))).

Definition edid_of (i : EdidInfo) : list Z :=
  let edid := replicate EDID_DATA_LENGTH 0 in
  let edid := populate_header edid in
  let edid := populate_edid_version edid in
  let edid := populate_size edid i in
  let edid := populate_standard_timings edid in
  let edid := on_block edid 54 72 (fun b => populate_detailed_timing b i) in
  let edid := on_block edid 72 90 populate_display_name in
  calculate_checksum edid.

(** * Scanouts *)

Inductive DisplayInfoEdid :=
  | Generated (p : EdidParams)
  | Provided (b : list Z).

Record DisplayInfo := { d_width : Z; d_height : Z; d_edid : DisplayInfoEdid }.

Definition DisplayInfo_new (width height : Z) : DisplayInfo :=
  {| d_width := width; d_height := height; d_edid := Generated EdidParams_default |}.

Definition edid_bytes (d : DisplayInfo) : list Z :=
  match d_edid d with
  | Provided b => b
  | Generated p => edid_of (EdidInfo_new (d_width d) (d_height d) p)
  end.

(** * Decoding, as a driver does it *)

Definition byte_at (b : list Z) (i : nat) : Z := default 0 (b !! i).

Definition sum_mod (b : list Z) : Z := foldl (fun acc x => u8 (acc + x)) 0 b.

(** Twelve bits: eight at [lo], four in the upper or lower half of [hi]. *)
Definition active_at (b : list Z) (lo hi : nat) : Z := byte_at b lo + 256 * (byte_at b hi / 16).
Definition blanking_at (b : list Z) (lo hi : nat) : Z := byte_at b lo + 256 * (byte_at b hi mod 16).

(** The refresh rate of the first detailed timing, as the kernel computes it:
    the clock is in units of 10 kHz. *)
Definition refresh_of (b : list Z) : Z :=
  let clock := (byte_at b 54 + 256 * byte_at b 55) * 10 in
  let htotal := active_at b 56 58 + blanking_at b 57 58 in
  let vtotal := active_at b 59 61 + blanking_at b 60 61 in
  ((clock * 1000) / htotal + vtotal / 2) / vtotal.

(** * The checksum *)

Lemma sum_mod_app b c : sum_mod (b ++ c) = foldl (fun acc x => u8 (acc + x)) (sum_mod b) c.
Proof. unfold sum_mod. by rewrite foldl_app. Qed.

Lemma sum_mod_byte b : is_byte (sum_mod b).
Proof.
  destruct b as [|x b _] using rev_ind; [done|]. rewrite sum_mod_app. simpl. by apply wrap_range.
Qed.

(** The block before its checksum. *)
Definition unsummed (i : EdidInfo) : list Z :=
  on_block (on_block (populate_standard_timings (populate_size (populate_edid_version
    (populate_header (replicate EDID_DATA_LENGTH 0))) i)) 54 72 (fun b => populate_detailed_timing b i))
    72 90 populate_display_name.

Lemma edid_of_unsummed i : edid_of i = calculate_checksum (unsummed i).
Proof. done. Qed.

Lemma checksum_ok b :
  length b = EDID_DATA_LENGTH -> Forall is_byte b ->
  let c := calculate_checksum b in
  length c = EDID_DATA_LENGTH /\ Forall is_byte c /\ sum_mod c = 0 /\
  take 127 c = take 127 b.
Proof.
  intros Hl Hb c. subst c. unfold calculate_checksum.
  change (foldl _ 0 (take (EDID_DATA_LENGTH - 1) b)) with (sum_mod (take 127 b)).
  set (s := sum_mod (take 127 b)). set (k := if negb (s =? 0) then 255 - s + 1 else s).
  pose proof (sum_mod_byte (take 127 b)) as Hs. fold s in Hs. unfold is_word in Hs. change (2 ^ 8) with 256 in Hs.
  assert (is_byte k /\ u8 (s + k) = 0) as [Hk Hz].
  { subst k. unfold is_word, wrap. change (2 ^ 8) with 256. destruct (s =? 0) eqn:E; simpl; bool_prop.
    - rewrite E. done.
    - replace (s + (255 - s + 1)) with 256 by lia. split; [lia|done]. }
  unfold EDID_DATA_LENGTH in *.
  assert (<[127%nat := k]> b = take 127 b ++ [k]) as Happ.
  { rewrite <- (take_drop 127 b) at 1. rewrite insert_app_r_alt by (rewrite length_take; lia).
    rewrite length_take, Hl. simpl. f_equal.
    assert (length (drop 127 b) = 1%nat) as H1 by (rewrite length_drop; lia).
    destruct (drop 127 b) as [|x [|y r]]; done. }
  split_and!.
  - by rewrite length_insert.
  - by apply Forall_insert.
  - rewrite Happ, sum_mod_app. simpl. fold s. done.
  - rewrite Happ. apply take_app_length'. rewrite length_take. lia.
Qed.

(** * The bytes *)

Lemma lsb_byte x : is_byte (lsb x).
Proof.
  unfold lsb. change 0xFF with (2 ^ 8 - 1). rewrite land_ones_mod by lia. by apply Z.mod_pos_bound.
Qed.

Lemma land_range x k : 0 <= k -> 0 <= Z.land x (2 ^ k - 1) < 2 ^ k.
Proof. intros. rewrite land_ones_mod by done. apply Z.mod_pos_bound. lia. Qed.

Lemma lor_of_bytes a b : is_byte a -> is_byte b -> is_byte (Z.lor a b).
Proof. apply lor_range. lia. Qed.

Lemma msb_byte x m : m = 0x0F \/ m = 0x03 -> is_byte (msb x m).
Proof.
  unfold msb, is_word. change (2 ^ 8) with 256. intros [-> | ->].
  - pose proof (land_range (Z.shiftr x 8) 4 ltac:(lia)) as H.
    change (2 ^ 4 - 1) with 0x0F in H. change (2 ^ 4) with 16 in H. lia.
  - pose proof (land_range (Z.shiftr x 8) 2 ltac:(lia)) as H.
    change (2 ^ 2 - 1) with 0x03 in H. change (2 ^ 2) with 4 in H. lia.
Qed.

Create HintDb edid.
#[local] Hint Resolve lor_of_bytes lsb_byte msb_byte Forall_insert splice_bytes Forall_take Forall_drop
  le_bytes_bytes : edid.
#[local] Hint Extern 1 (is_word 8 (wrap 8 _)) => (by apply wrap_range) : edid.

Lemma header_bytes b : Forall is_byte b -> Forall is_byte (populate_header b).
Proof.
  intros. unfold populate_header. repeat apply Forall_insert; repeat apply splice_bytes; try done.
  - repeat constructor; done.
  - apply Forall_rev. auto with edid.
  - auto with edid.
  - auto with edid.
Qed.

Lemma aspect_ratio_byte w h : is_byte (default 0 (aspect_ratio_bits w h)).
Proof. unfold aspect_ratio_bits. repeat case_bool_decide; done. Qed.

Lemma standard_timings_bytes b : Forall is_byte b -> Forall is_byte (populate_standard_timings b).
Proof.
  unfold populate_standard_timings. generalize (imap pair RESOLUTIONS) as l. intros l. revert b.
  induction l as [|[i [w h]] l IH]; intros b Hb; simpl; [done|].
  apply IH. apply Forall_insert; [apply Forall_insert; [done|by apply wrap_range]|apply aspect_ratio_byte].
Qed.

Lemma detailed_timing_bytes b i : Forall is_byte b -> Forall is_byte (populate_detailed_timing b i).
Proof.
  intros Hb. unfold populate_detailed_timing.
  repeat apply Forall_insert; [apply splice_bytes; auto with edid|..].
  all: try apply lsb_byte. all: auto 8 with edid.
Qed.

Lemma on_block_bytes b from upto f :
  Forall is_byte b -> (forall c, Forall is_byte c -> Forall is_byte (f c)) ->
  Forall is_byte (on_block b from upto f).
Proof. intros Hb Hf. apply splice_bytes; [done|]. by apply Hf, Forall_take, Forall_drop. Qed.

Lemma unsummed_bytes i : Forall is_byte (unsummed i).
Proof.
  unfold unsummed. apply on_block_bytes; [apply on_block_bytes|].
  - apply standard_timings_bytes. unfold populate_size, populate_edid_version.
    do 4 (apply Forall_insert; [|first [by apply wrap_range|done]]).
    apply header_bytes. by apply Forall_replicate.
  - intros c. apply detailed_timing_bytes.
  - intros c Hc. unfold populate_display_name.
    repeat apply splice_bytes; [done|by repeat constructor..].
Qed.

(** * What a driver makes of it *)

(** Twelve-bit numbers are split over two bytes. *)
Lemma twelve_bits x other :
  0 <= x < 4096 -> 0 <= other < 16 ->
  lsb x + 256 * (Z.lor other (u8 (Z.shiftl (msb x 0x0F) 4)) / 16) = x /\
  Z.lor other (u8 (Z.shiftl (msb x 0x0F) 4)) mod 16 = other.
Proof.
  intros Hx Ho. unfold lsb, msb.
  change 0xFF with (2 ^ 8 - 1). change 0x0F with (2 ^ 4 - 1).
  rewrite !land_ones_mod, Z.shiftr_div_pow2 by lia.
  rewrite (Z.mod_small (x / 2 ^ 8)) by (split; [apply Z.div_pos; lia|apply Z.div_lt_upper_bound; lia]).
  set (y := x / 2 ^ 8). assert (0 <= y < 16) as Hy
    by (subst y; split; [apply Z.div_pos; lia|apply Z.div_lt_upper_bound; lia]).
  rewrite wrap_small by (unfold is_word; rewrite Z.shiftl_mul_pow2 by lia; lia).
  rewrite lor_shiftl_add by lia. change (2 ^ 4) with 16.
  rewrite Z.div_add, (Z.div_small other), (Z.mod_add other), (Z.mod_small other) by lia. split; [|lia].
  subst y. pose proof (Z.div_mod x (2 ^ 8)). lia.
Qed.

Lemma pixel_clock_near i :
  0 <= e_width i < 2 ^ 16 -> 0 <= e_height i < 2 ^ 16 -> 0 <= e_refresh_rate i ->
  horizontal_blanking i = 560 -> vertical_blanking i = 50 ->
  let total := e_refresh_rate i * (e_width i + 560) * (e_height i + 50) in
  total < 655250000 ->
  is_word 16 (pixel_clock i) /\ total - 60000 < pixel_clock i * 10000 <= total + 50000.
Proof.
  intros Hw Hh Hr Hb Hv total Ht. unfold pixel_clock. rewrite Hb, Hv.
  assert (0 <= e_refresh_rate i * (e_width i + 560) <= total) as Hm by (subst total; nia).
  rewrite (wrap_small 32 (e_width i + 560)), (wrap_small 32 (e_height i + 50)) by (unfold is_word; lia).
  rewrite (wrap_small 32 (e_refresh_rate i * _)) by (unfold is_word; lia). fold total.
  rewrite (wrap_small 32 total) by (unfold is_word; lia).
  pose proof (Z.div_mod total 10000). pose proof (Z.mod_pos_bound total 10000).
  set (c := total / 10000) in *. rewrite !(wrap_small 16 c) by (unfold is_word; lia).
  rewrite !(wrap_small 16 (c + 5)) by (unfold is_word; lia).
  pose proof (Z.div_mod (c + 5) 10). pose proof (Z.mod_pos_bound (c + 5) 10).
  rewrite wrap_small by (unfold is_word; lia). split; [unfold is_word; lia|lia].
Qed.

Lemma two_bytes c : is_word 16 c -> c mod 256 + 256 * (c / 256 mod 256) = c.
Proof.
  unfold is_word. change (2 ^ 16) with 65536. intros Hc.
  pose proof (Z.div_mod c 256 ltac:(lia)). pose proof (Z.mod_pos_bound c 256 ltac:(lia)).
  rewrite (Z.mod_small (c / 256)) by lia. lia.
Qed.

(** The kernel's rounding gives back the rate for a clock this close. *)
Lemma refresh_recovered r h v clk :
  0 < r -> 1200 <= h -> 530 <= v -> r * h * v - 60000 < clk * 10000 <= r * h * v + 50000 ->
  ((clk * 10 * 1000) / h + v / 2) / v = r.
Proof.
  intros Hr Hh Hv Hc. replace (clk * 10 * 1000) with (clk * 10000) by lia.
  pose proof (Z.div_mod (clk * 10000) h ltac:(lia)) as Hd. pose proof (Z.mod_pos_bound (clk * 10000) h ltac:(lia)).
  set (q := clk * 10000 / h) in *.
  assert (r * v - 51 <= q <= r * v + 42) as Hq by nia.
  pose proof (Z.div_mod v 2 ltac:(lia)). pose proof (Z.mod_pos_bound v 2 ltac:(lia)).
  symmetry. apply Z.div_unique with (q + v / 2 - r * v); [left; lia|lia].
Qed.

(** The EDID made for a resolution is one a driver accepts and reads back:
    128 bytes that sum to zero, the fixed header, a detailed timing whose active
    size is the resolution and whose blanking is the default, and whose refresh
    rate, computed as the kernel does from the rounded pixel clock, is the rate
    asked for; as long as the size fits twelve bits and the clock sixteen. *)
Theorem edid_describes_display w h p :
  640 <= w < 4096 -> 480 <= h < 4096 -> 0 < refresh_rate p ->
  refresh_rate p * (w + 560) * (h + 50) < 655250000 ->
  let b := edid_of (EdidInfo_new w h p) in
  length b = 128%nat /\ Forall is_byte b /\ sum_mod b = 0 /\
  take 8 b = [0x00; 0xFF; 0xFF; 0xFF; 0xFF; 0xFF; 0xFF; 0x00] /\
  active_at b 56 58 = w /\ blanking_at b 57 58 = 560 /\
  active_at b 59 61 = h /\ blanking_at b 60 61 = 50 /\
  refresh_of b = refresh_rate p.
Proof.
  intros Hw Hh Hr Ht b. set (i := EdidInfo_new w h p) in *.
  assert (e_width i = w /\ e_height i = h /\ e_refresh_rate i = refresh_rate p /\
          horizontal_blanking i = 560 /\ vertical_blanking i = 50) as (Ew & Eh & Er & Ehb & Evb)
    by (subst i; unfold EdidInfo_new; by destruct (physical_size p)).
  clearbody i.
  destruct (checksum_ok (unsummed i)) as (Hl & Hb & Hs & Hsame); [done|apply unsummed_bytes|].
  rewrite <- edid_of_unsummed in *. fold b in Hl, Hb, Hs, Hsame.
  assert (forall k, (k < 127)%nat -> byte_at b k = byte_at (unsummed i) k) as Hat
    by (intros k Hk; unfold byte_at; by rewrite <- (lookup_take_lt b 127), Hsame, lookup_take_lt).
  destruct (twelve_bits w 2 ltac:(lia) ltac:(lia)) as [Hw1 Hw2].
  destruct (twelve_bits h 0 ltac:(lia) ltac:(lia)) as [Hh1 Hh2].
  assert (active_at b 56 58 = w) as H1
    by (unfold active_at; rewrite !Hat by lia; cbn; rewrite Ew, Ehb; exact Hw1).
  assert (blanking_at b 57 58 = 560) as H2
    by (unfold blanking_at; rewrite !Hat by lia; cbn; rewrite Ew, Ehb; change (msb 560 15) with 2; by rewrite Hw2).
  assert (active_at b 59 61 = h) as H3
    by (unfold active_at; rewrite !Hat by lia; cbn; rewrite Eh, Evb; exact Hh1).
  assert (blanking_at b 60 61 = 50) as H4
    by (unfold blanking_at; rewrite !Hat by lia; cbn; rewrite Eh, Evb; change (msb 50 15) with 0; by rewrite Hh2).
  split_and!; [done..| |done|done|done|done|].
  - change (take 8 b) with (take (8 `min` 127) b). by rewrite <- take_take, Hsame.
  - unfold refresh_of. rewrite H1, H2, H3, H4.
    destruct (pixel_clock_near i) as [Hc16 Hc]; [rewrite ?Ew, ?Eh, ?Er; lia..|].
    rewrite Ew, Eh, Er in Hc.
    replace (byte_at b 54 + 256 * byte_at b 55) with (pixel_clock i).
    + apply refresh_recovered; lia.
    + rewrite !Hat by lia. change (byte_at (unsummed i) 54) with (pixel_clock i mod 256).
      change (byte_at (unsummed i) 55) with (pixel_clock i / 256 mod 256).
      symmetry. by apply two_bytes.
Qed.

Lemma edid_describes_display_witness :
  refresh_of (edid_of (EdidInfo_new 1920 1080 EdidParams_default)) = 60.
Proof.
  destruct (edid_describes_display 1920 1080 EdidParams_default) as (_ & _ & _ & _ & _ & _ & _ & _ & H);
    [lia|lia|done|done|exact H].
Defined.

(** A standard timing as EDID defines it: the width, and the aspect ratio in the
    top two bits of the second byte, over the refresh rate less 60. *)
Definition standard_timing (b : list Z) (k : nat) : Z * Z * Z :=
  let w := (byte_at b (0x26 + k * 2) + 31) * 8 in
  let aspect := byte_at b (0x27 + k * 2) / 64 in
  let h := if aspect =? 0 then w * 5 / 8 else if aspect =? 1 then w * 3 / 4
           else if aspect =? 2 then w * 4 / 5 else w * 9 / 16 in
  (w, h, byte_at b (0x27 + k * 2) mod 64 + 60).

(** The aspect ratio is written to the low bits, where the refresh rate is: of
    the eight resolutions listed, a driver reads only the three of ratio 8:5. *)
Example standard_timings_misread :
  (standard_timing (edid_of (EdidInfo_new 1920 1080 EdidParams_default)) <$> seq 0 8) =
  [(1440, 900, 60); (1600, 1000, 63); (800, 500, 61); (1680, 1050, 60); (1856, 1160, 61);
   (1280, 800, 62); (1400, 875, 61); (1920, 1200, 60)].
Proof. vm_compute. reflexivity. Qed.

(** Past 16 bits the clock wraps: the rate read back is not the one asked for. *)
Example large_display_clock_wraps :
  refresh_of (edid_of (EdidInfo_new 3840 2160 {| refresh_rate := 120; physical_size := Dpi 96 |})) = 53.
Proof. vm_compute. reflexivity. Qed.
