(* ===== verification/GpuBackend.v ===== *)
(** The GPU's resources, contexts, blob mappings and fences,
    [virtio-devices/src/gpu/virtio_gpu.rs].

    The renderer (rutabaga and virglrenderer) is the class [Rutabaga]: its calls
    may fail whenever they like, and what they report is theirs.  The control
    queue the fence handler completes descriptors on is the class [GpuQueues],
    the host memory mapper the class [HostMemoryMapper].  Renderer errors are
    messages, timers and log lines are left out; of the counters, the record
    counts of command streams are kept. *)

From S2P Require Import Prelude GuestMem Virtqueue GpuVram HostMapper GpuEdid GpuChain GpuWire GpuProtocol.

(** * The renderer *)

Record RutabagaFence := { f_flags : Z; f_fence_id : Z; f_ctx_id : Z; f_ring_idx : Z }.

Record Create3D := {
  rc_target : Z; rc_format : Z; rc_bind : Z; rc_width : Z; rc_height : Z; rc_depth : Z;
  rc_array_size : Z; rc_last_level : Z; rc_nr_samples : Z; rc_flags : Z
}.

Record CreateBlob := { blob_mem : Z; blob_flags : Z; blob_id : Z; blob_size : Z }.

Record Transfer3D := {
  tr_x : Z; tr_y : Z; tr_z : Z; tr_w : Z; tr_h : Z; tr_d : Z;
  tr_level : Z; tr_stride : Z; tr_layer_stride : Z; tr_offset : Z
}.

(** [resource3d_info]: modifier, strides, offsets. *)
Abbreviation Resource3DInfo := (Z * list Z * list Z)%type.

Class Rutabaga (R : Type) := {
  rb_force_ctx_0 : R -> R;
  rb_create_3d : R -> Z -> Create3D -> R * bool;
  rb_create_blob : R -> Z -> Z -> CreateBlob -> option (list (Z * Z)) -> R * bool;
  rb_unref : R -> Z -> R * bool;
  rb_info : R -> Z -> option Resource3DInfo;
  rb_transfer_write : R -> Z -> Z -> Transfer3D -> R * bool;
  rb_attach_backing : R -> Z -> list (Z * Z) -> R * bool;
  rb_detach_backing : R -> Z -> R * bool;
  rb_capset_info : R -> Z -> option (Z * Z * Z);
  rb_capset : R -> Z -> Z -> option (list Z);
  rb_create_context : R -> Z -> Z -> option (list Z) -> R * bool;
  rb_destroy_context : R -> Z -> R * bool;
  rb_context_attach : R -> Z -> Z -> R * bool;
  rb_context_detach : R -> Z -> Z -> R * bool;
  rb_submit : R -> Z -> list Z -> list Z -> R * bool;
  rb_create_fence : R -> RutabagaFence -> R * bool;
  rb_map_info : R -> Z -> option Z;
  (** Host pointer and size. *)
  rb_map : R -> Z -> R * option (Z * Z);
  rb_unmap : R -> Z -> R * bool;
  (** [virgl_renderer_resource_map_fixed]: zero, or a negative error. *)
  rb_map_fixed : R -> Z -> Z -> R * Z
}.

(** The constants and the constructor of the crate the sources use. *)
Class RutabagaConsts := {
  RUTABAGA_MAP_CACHE_MASK : Z;
  RUTABAGA_PIPE_TEXTURE_2D : Z;
  RUTABAGA_PIPE_BIND_RENDER_TARGET : Z;
  Transfer3D_new_2d : Z -> Z -> Z -> Z -> Z -> Transfer3D
}.

(** * The control queue *)

(** Guest memory is shared with the queue, which reads and writes the rings in
    it: [queue_mem] is that memory. *)
Class GpuQueues (M Q : Type) := {
  queue_mem : Q -> M;
  with_queue_mem : Q -> M -> Q;
  pop_ctl : Q -> Q * option (Z * list Desc);
  complete_ctl : Q -> list (Z * Z) -> Q;
  ctl_has_work : Q -> bool
}.

(** * Fences *)

Inductive VirtioGpuRing :=
  | Global
  | ContextSpecific (ctx_id ring_idx : Z).

#[export] Instance VirtioGpuRing_eq_dec : EqDecision VirtioGpuRing.
Proof. solve_decision. Defined.

#[export] Instance VirtioGpuRing_countable : Countable VirtioGpuRing.
Proof.
  refine (inj_countable' (fun r => match r with Global => None | ContextSpecific c i => Some (c, i) end)
    (fun o => match o with None => Global | Some (c, i) => ContextSpecific c i end) _).
  by intros [].
Defined.

Record FenceDescriptor := { fd_ring : VirtioGpuRing; fd_fence_id : Z; fd_desc_index : Z; fd_len : Z }.

Record FenceState := {
  descs : list FenceDescriptor;
  completed_fences : gmap VirtioGpuRing Z
}.

Definition FenceState_default : FenceState := {| descs := []; completed_fences := ∅ |}.

(** The timeline a fence is on. *)
Definition ring_of (flags ctx_id ring_idx : Z) : VirtioGpuRing :=
  if Z.land flags VIRTIO_GPU_FLAG_INFO_RING_IDX =? 0 then Global else ContextSpecific ctx_id ring_idx.

(** What the fence handler does under the lock: the descriptors to retire. *)
Definition signal_fence (fs : FenceState) (f : RutabagaFence) : FenceState * list FenceDescriptor :=
  let ring := ring_of (f_flags f) (f_ctx_id f) (f_ring_idx f) in
  let ready d := bool_decide (fd_ring d = ring) && (fd_fence_id d <=? f_fence_id f) in
  let done := default 0 (completed_fences fs !! ring) in
  ({| descs := filter (fun d => negb (ready d) = true) (descs fs);
      completed_fences := <[ring := Z.max done (f_fence_id f)]> (completed_fences fs) |},
   filter (fun d => ready d = true) (descs fs)).

Definition on_context (ctx : Z) (r : VirtioGpuRing) : bool :=
  match r with ContextSpecific c _ => c =? ctx | Global => false end.

(** What [retire_context_fences] does under the lock. *)
Definition drop_context_fences (fs : FenceState) (ctx : Z) : FenceState * list FenceDescriptor :=
  ({| descs := filter (fun d => negb (on_context ctx (fd_ring d)) = true) (descs fs);
      completed_fences := filter (fun rv => negb (on_context ctx rv.1) = true) (completed_fences fs) |},
   filter (fun d => on_context ctx (fd_ring d) = true) (descs fs)).

Definition used_of (d : FenceDescriptor) : Z * Z := (fd_desc_index d, fd_len d).

(** * Resources *)

(** [AssociatedScanouts]: a bit per scanout. *)
Definition scanouts_enable (s scanout_id : Z) : Z := Z.lor s (Z.shiftl 1 scanout_id).
Definition scanouts_disable (s scanout_id : Z) : Z := Z.land s (lnotw 32 (Z.shiftl 1 scanout_id)).
Definition has_any_enabled (s : Z) : bool := negb (s =? 0).

Record VirtioGpuResource := {
  r_scanouts : Z;
  r_size : Z;
  shmem_offset : option Z;
  rutabaga_external_mapping : bool;
  placed : bool
}.

Definition VirtioGpuResource_new (size : Z) : VirtioGpuResource :=
  {| r_scanouts := 0; r_size := size; shmem_offset := None; rutabaga_external_mapping := false; placed := false |}.

Definition with_scanouts (r : VirtioGpuResource) (s : Z) : VirtioGpuResource :=
  {| r_scanouts := s; r_size := r_size r; shmem_offset := shmem_offset r;
     rutabaga_external_mapping := rutabaga_external_mapping r; placed := placed r |}.
Definition with_mapping (r : VirtioGpuResource) (o : option Z) (external is_placed : bool) : VirtioGpuResource :=
  {| r_scanouts := r_scanouts r; r_size := r_size r; shmem_offset := o;
     rutabaga_external_mapping := external; placed := is_placed |}.

Record VirtioShmRegion := { shm_guest_addr : Z; shm_size : Z }.

Definition mapped_at (r : VirtioGpuResource) (shm : VirtioShmRegion) : option Z :=
  (fun offset => shm_guest_addr shm ⊕ offset) <$> shmem_offset r.

(** * The device *)

Section Gpu.
Context {M R P Q : Type} {HM : GuestMemory M} {HR : Rutabaga R} {HC : RutabagaConsts}
  {HP : HostMemoryMapper P} {HQ : GpuQueues M Q}.

(** [scanouts] has the resource of each of the [VIRTIO_GPU_MAX_SCANOUTS]. *)
Record VirtioGpu := {
  rutabaga : R;
  mapper : P;
  resources : gmap Z VirtioGpuResource;
  fence_state : FenceState;
  signal : Q;
  scanouts : list (option Z);
  displays : list DisplayInfo;
  num_capsets : Z;
  vram : option VramAccountant;
  window : WindowQuota;
  ccmds : CcmdCounters
}.

Definition set_rutabaga (g : VirtioGpu) (r : R) : VirtioGpu :=
  {| rutabaga := r; mapper := mapper g; resources := resources g; fence_state := fence_state g;
     signal := signal g; scanouts := scanouts g; displays := displays g; num_capsets := num_capsets g;
     vram := vram g; window := window g; ccmds := ccmds g |}.
Definition set_mapper (g : VirtioGpu) (p : P) : VirtioGpu :=
  {| rutabaga := rutabaga g; mapper := p; resources := resources g; fence_state := fence_state g;
     signal := signal g; scanouts := scanouts g; displays := displays g; num_capsets := num_capsets g;
     vram := vram g; window := window g; ccmds := ccmds g |}.
Definition set_resources (g : VirtioGpu) (m : gmap Z VirtioGpuResource) : VirtioGpu :=
  {| rutabaga := rutabaga g; mapper := mapper g; resources := m; fence_state := fence_state g;
     signal := signal g; scanouts := scanouts g; displays := displays g; num_capsets := num_capsets g;
     vram := vram g; window := window g; ccmds := ccmds g |}.
Definition set_fences (g : VirtioGpu) (fs : FenceState) (q : Q) : VirtioGpu :=
  {| rutabaga := rutabaga g; mapper := mapper g; resources := resources g; fence_state := fs;
     signal := q; scanouts := scanouts g; displays := displays g; num_capsets := num_capsets g;
     vram := vram g; window := window g; ccmds := ccmds g |}.
Definition set_scanouts (g : VirtioGpu) (l : list (option Z)) : VirtioGpu :=
  {| rutabaga := rutabaga g; mapper := mapper g; resources := resources g; fence_state := fence_state g;
     signal := signal g; scanouts := l; displays := displays g; num_capsets := num_capsets g;
     vram := vram g; window := window g; ccmds := ccmds g |}.
Definition set_vram (g : VirtioGpu) (f : VramAccountant -> VramAccountant) : VirtioGpu :=
  {| rutabaga := rutabaga g; mapper := mapper g; resources := resources g; fence_state := fence_state g;
     signal := signal g; scanouts := scanouts g; displays := displays g; num_capsets := num_capsets g;
     vram := f <$> vram g; window := window g; ccmds := ccmds g |}.
Definition set_window (g : VirtioGpu) (w : WindowQuota) : VirtioGpu :=
  {| rutabaga := rutabaga g; mapper := mapper g; resources := resources g; fence_state := fence_state g;
     signal := signal g; scanouts := scanouts g; displays := displays g; num_capsets := num_capsets g;
     vram := vram g; window := w; ccmds := ccmds g |}.
Definition set_ccmds (g : VirtioGpu) (c : CcmdCounters) : VirtioGpu :=
  {| rutabaga := rutabaga g; mapper := mapper g; resources := resources g; fence_state := fence_state g;
     signal := signal g; scanouts := scanouts g; displays := displays g; num_capsets := num_capsets g;
     vram := vram g; window := window g; ccmds := c |}.

(** The capset count: indices are asked for until one is refused; [fuel] bounds
    what a renderer may have, and counting stops there. *)
Fixpoint count_capsets (r : R) (fuel : nat) (i : Z) : Z :=
  match fuel with
  | O => 0
  | S fuel => match rb_capset_info r i with Some _ => 1 + count_capsets r fuel (i + 1) | None => 0 end
  end.

Definition VirtioGpu_new (r : R) (p : P) (q : Q) (ds : list DisplayInfo) (capsets : nat)
    (vram_limit_bytes : option Z) (window_limit_bytes window_max_mappings : Z) : VirtioGpu :=
  {| rutabaga := r; mapper := p; resources := ∅; fence_state := FenceState_default; signal := q;
     scanouts := replicate (Z.to_nat VIRTIO_GPU_MAX_SCANOUTS) None; displays := ds;
     num_capsets := count_capsets r capsets 0; vram := VramAccountant_new <$> vram_limit_bytes;
     window := WindowQuota_new window_limit_bytes window_max_mappings; ccmds := CcmdCounters_default |}.

(** ** Fences *)

(** The callback, run by the renderer when a fence completes. *)
Definition fence_handler (g : VirtioGpu) (f : RutabagaFence) : VirtioGpu :=
  let '(fs, completed) := signal_fence (fence_state g) f in
  match completed with
  | [] => set_fences g fs (signal g)
  | _ => set_fences g fs (complete_ctl (signal g) (used_of <$> completed))
  end.

Definition retire_context_fences (g : VirtioGpu) (ctx : Z) : VirtioGpu :=
  let '(fs, orphaned) := drop_context_fences (fence_state g) ctx in
  match orphaned with
  | [] => set_fences g fs (signal g)
  | _ => set_fences g fs (complete_ctl (signal g) (used_of <$> orphaned))
  end.

Definition create_fence (g : VirtioGpu) (f : RutabagaFence) : VirtioGpu * VirtioGpuResult :=
  let '(r, ok) := rb_create_fence (rutabaga g) f in
  (set_rutabaga g r, if ok : bool then inr OkNoData else inl ErrRutabaga).

(** True when the fence has completed already. *)
Definition process_fence (g : VirtioGpu) (ring : VirtioGpuRing) (fence_id desc_index len : Z)
    : VirtioGpu * bool :=
  let fs := fence_state g in
  let already_done := fence_id <=? default 0 (completed_fences fs !! ring) in
  if already_done then (g, true)
  else
    (set_fences g {| descs := descs fs ++ [{| fd_ring := ring; fd_fence_id := fence_id;
                                              fd_desc_index := desc_index; fd_len := len |}];
                     completed_fences := completed_fences fs |} (signal g), false).

(** ** Queries *)

Definition result_from_query (g : VirtioGpu) (resource_id : Z) : GpuResponse :=
  match rb_info (rutabaga g) resource_id with
  | Some (modifier, strides, offsets) =>
      OkResourcePlaneInfo modifier
        ((fun i => {| p_stride := default 0 (strides !! i); p_offset := default 0 (offsets !! i) |}) <$> seq 0 4)
  | None => OkNoData
  end.

Definition display_info (g : VirtioGpu) : VirtioGpuResult :=
  inr (OkDisplayInfo ((fun d => (d_width d, d_height d, true)) <$> displays g)).

Definition get_edid (g : VirtioGpu) (scanout_id : Z) : VirtioGpuResult :=
  match displays g !! Z.to_nat scanout_id with
  | Some d => inr (OkEdid (edid_bytes d))
  | None => inl ErrInvalidScanoutId
  end.

Definition get_capset_info (g : VirtioGpu) (index : Z) : VirtioGpuResult :=
  match rb_capset_info (rutabaga g) index with
  | Some (capset_id, version, size) => inr (OkCapsetInfo capset_id version size)
  | None => inl ErrRutabaga
  end.

Definition get_capset (g : VirtioGpu) (capset_id version : Z) : VirtioGpuResult :=
  match rb_capset (rutabaga g) capset_id version with
  | Some capset => inr (OkCapset capset)
  | None => inl ErrRutabaga
  end.

Definition resource_assign_uuid (g : VirtioGpu) (resource_id : Z) : VirtioGpuResult :=
  match resources g !! resource_id with
  | None => inl ErrInvalidResourceId
  | Some _ => inr (OkResourceUuid (replicate 12 0 ++ rev (le_bytes 4 resource_id)))
  end.

Definition flush_resource (g : VirtioGpu) (resource_id : Z) : VirtioGpuResult :=
  if resource_id =? 0 then inr OkNoData
  else match resources g !! resource_id with
       | Some _ => inr OkNoData
       | None => inl ErrInvalidResourceId
       end.

(** ** Scanouts *)

(** Detach the scanout from the resource it showed. *)
Definition detach_scanout (g : VirtioGpu) (scanout : option Z) (scanout_id : Z) : VirtioGpu :=
  match scanout with
  | Some old_id =>
      match resources g !! old_id with
      | Some res => set_resources g
          (<[old_id := with_scanouts res (scanouts_disable (r_scanouts res) scanout_id)]> (resources g))
      | None => g
      end
  | None => g
  end.

Definition set_scanout (g : VirtioGpu) (scanout_id resource_id : Z) : VirtioGpu * VirtioGpuResult :=
  match scanouts g !! Z.to_nat scanout_id with
  | None => (g, inl ErrInvalidScanoutId)
  | Some scanout =>
      let g := detach_scanout g scanout scanout_id in
      if resource_id =? 0 then (set_scanouts g (<[Z.to_nat scanout_id := None]> (scanouts g)), inr OkNoData)
      else
        match resources g !! resource_id with
        | None => (g, inl ErrInvalidResourceId)
        | Some res =>
            let g := set_resources g
              (<[resource_id := with_scanouts res (scanouts_enable (r_scanouts res) scanout_id)]> (resources g)) in
            (set_scanouts g (<[Z.to_nat scanout_id := Some resource_id]> (scanouts g)), inr OkNoData)
        end
  end.

(** ** Contexts and command streams *)

(** A renderer call whose error is passed on. *)
Definition rendered (g : VirtioGpu) (c : R * bool) : VirtioGpu * VirtioGpuResult :=
  (set_rutabaga g c.1, if c.2 then inr OkNoData else inl ErrRutabaga).

Definition transfer_write (g : VirtioGpu) (ctx resource_id : Z) (t : Transfer3D) : VirtioGpu * VirtioGpuResult :=
  rendered g (rb_transfer_write (rutabaga g) ctx resource_id t).

Definition transfer_read (g : VirtioGpu) : VirtioGpu * VirtioGpuResult := (g, inl ErrUnspec).

Definition detach_backing (g : VirtioGpu) (resource_id : Z) : VirtioGpu * VirtioGpuResult :=
  rendered g (rb_detach_backing (rutabaga g) resource_id).

Definition context_attach_resource (g : VirtioGpu) (ctx resource_id : Z) : VirtioGpu * VirtioGpuResult :=
  rendered g (rb_context_attach (rutabaga g) ctx resource_id).

Definition context_detach_resource (g : VirtioGpu) (ctx resource_id : Z) : VirtioGpu * VirtioGpuResult :=
  rendered g (rb_context_detach (rutabaga g) ctx resource_id).

Definition create_context (g : VirtioGpu) (ctx context_init : Z) (name : option (list Z))
    : VirtioGpu * VirtioGpuResult :=
  let '(r, ok) := rb_create_context (rutabaga g) ctx context_init name in
  let g := set_rutabaga g r in
  if ok : bool then (set_vram g (fun a => note_context a ctx context_init), inr OkNoData)
  else (g, inl ErrUnspec).

Definition destroy_context (g : VirtioGpu) (ctx : Z) : VirtioGpu * VirtioGpuResult :=
  let '(r, ok) := rb_destroy_context (rutabaga g) ctx in
  let g := set_rutabaga g r in
  if ok : bool then
    let g := retire_context_fences g ctx in
    (set_vram g (fun a => forget_context a ctx), inr OkNoData)
  else (g, inl ErrRutabaga).

Definition submit_command (g : VirtioGpu) (ctx : Z) (commands fence_ids : list Z)
    : VirtioGpu * VirtioGpuResult :=
  let g := set_ccmds g (count_ccmds commands (ccmds g)) in
  let g := set_vram g (fun a => (observe_submit a ctx commands).1) in
  let '(r, ok) := rb_submit (rutabaga g) ctx commands fence_ids in
  (set_rutabaga g r, if ok : bool then inr OkNoData else inl ErrUnspec).

(** ** Resources *)

(** [sglist_to_rutabaga_iovecs]: every range must be inside guest memory.  A host
    pointer into a guest range is kept as the guest range. *)
Definition sglist_to_rutabaga_iovecs (mem : M) (vecs : list (Z * Z)) : option (list (Z * Z)) :=
  if existsb (fun v => negb (get_slice mem v.1 v.2)) vecs then None else Some vecs.

Definition attach_backing (g : VirtioGpu) (resource_id : Z) (vecs : list (Z * Z))
    : VirtioGpu * VirtioGpuResult :=
  match sglist_to_rutabaga_iovecs (queue_mem (signal g)) vecs with
  | None => (g, inl ErrUnspec)
  | Some iovecs => rendered g (rb_attach_backing (rutabaga g) resource_id iovecs)
  end.

Definition add_resource (g : VirtioGpu) (resource_id size : Z) : VirtioGpu :=
  set_resources g (<[resource_id := VirtioGpuResource_new size]> (resources g)).

Definition resource_create_3d (g : VirtioGpu) (resource_id : Z) (c : Create3D)
    : VirtioGpu * VirtioGpuResult :=
  let '(r, ok) := rb_create_3d (rutabaga g) resource_id c in
  let g := set_rutabaga g r in
  if ok : bool then
    let g := add_resource g resource_id 0 in
    (g, inr (result_from_query g resource_id))
  else (g, inl ErrRutabaga).

Definition resource_create_blob (g : VirtioGpu) (ctx resource_id : Z) (c : CreateBlob) (vecs : list (Z * Z))
    : VirtioGpu * VirtioGpuResult :=
  if has_bits (blob_flags c) VIRTIO_GPU_BLOB_FLAG_CREATE_GUEST_HANDLE then (g, inl ErrUnspec)
  else
    let iovecs :=
      if negb (blob_mem c =? VIRTIO_GPU_BLOB_MEM_HOST3D) then
        match sglist_to_rutabaga_iovecs (queue_mem (signal g)) vecs with
        | Some v => inr (Some v)
        | None => inl ErrUnspec
        end
      else inr None in
    match iovecs with
    | inl e => (g, inl e)
    | inr iovecs =>
        let '(r, ok) := rb_create_blob (rutabaga g) ctx resource_id c iovecs in
        let g := set_rutabaga g r in
        if ok : bool then
          let g := set_vram g (fun a => claim_blob a ctx (blob_id c) resource_id) in
          let g := add_resource g resource_id (blob_size c) in
          (g, inr (result_from_query g resource_id))
        else (g, inl ErrRutabaga)
    end.

(** ** Mappings *)

Definition withdraw_mapping (g : VirtioGpu) (res : VirtioGpuResource) (guest_addr : Z) : VirtioGpu * bool :=
  let '(p, ok) :=
    if placed res then hm_withdraw (mapper g) guest_addr (r_size res)
    else hm_unmap (mapper g) guest_addr (r_size res) in
  (set_mapper g p, ok).

(** Try to place the resource inside the window. *)
Definition place (g : VirtioGpu) (resource_id guest_addr size : Z) : VirtioGpu * bool :=
  match hm_host_addr (mapper g) guest_addr size with
  | None => (g, false)
  | Some host =>
      let '(r, ret) := rb_map_fixed (rutabaga g) resource_id host in
      (set_rutabaga g r, ret =? 0)
  end.

(** The slow path: the renderer's own mapping, published as a memory slot. *)
Definition publish_slot (g : VirtioGpu) (resource_id guest_addr size : Z) : VirtioGpu * bool :=
  match rb_map (rutabaga g) resource_id with
  | (r, None) => (set_window (set_rutabaga g r) (quota_release (window g) size), false)
  | (r, Some (ptr, map_size)) =>
      let g := set_rutabaga g r in
      let undo g := set_window (set_rutabaga g (rb_unmap (rutabaga g) resource_id).1)
                      (quota_release (window g) size) in
      if map_size <? size then (undo g, false)
      else
        let '(p, ok) := hm_map (mapper g) guest_addr ptr map_size in
        let g := set_mapper g p in
        if ok : bool then (g, true) else (undo g, false)
  end.

Definition resource_map_blob (g : VirtioGpu) (resource_id : Z) (shm : VirtioShmRegion) (offset : Z)
    : VirtioGpu * VirtioGpuResult :=
  match resources g !! resource_id with
  | None => (g, inl ErrInvalidResourceId)
  | Some resource =>
      let size := r_size resource in
      match shmem_offset resource with
      | Some _ => (g, inl ErrUnspec)
      | None =>
          match try_map (window g) size with
          | (w, Some _) => (set_window g w, inl ErrUnspec)
          | (w, None) =>
              let g := set_window g w in
              let refuse_ g := (set_window g (quota_release (window g) size), inl ErrUnspec) in
              match rb_map_info (rutabaga g) resource_id with
              | None => refuse_ g
              | Some map_info =>
                  if shm_size shm <? saturating_add 64 offset size then refuse_ g
                  else
                    let guest_addr := shm_guest_addr shm ⊕ offset in
                    let '(g, is_placed) := place g resource_id guest_addr size in
                    let '(g, ok) := if is_placed : bool then (g, true)
                                    else publish_slot g resource_id guest_addr size in
                    if negb ok then (g, inl ErrUnspec)
                    else
                      (set_resources g (<[resource_id := with_mapping resource (Some offset) (negb is_placed) is_placed]>
                                          (resources g)),
                       inr (OkMapInfo (Z.land map_info RUTABAGA_MAP_CACHE_MASK)))
              end
          end
      end
  end.

(** [if external { rutabaga.unmap(id) }], its error only logged. *)
Definition release_external (g : VirtioGpu) (res : VirtioGpuResource) (resource_id : Z) : VirtioGpu :=
  if rutabaga_external_mapping res then set_rutabaga g (rb_unmap (rutabaga g) resource_id).1 else g.

Definition resource_unmap_blob (g : VirtioGpu) (resource_id : Z) (shm : VirtioShmRegion)
    : VirtioGpu * VirtioGpuResult :=
  match resources g !! resource_id with
  | None => (g, inl ErrInvalidResourceId)
  | Some resource =>
      match mapped_at resource shm with
      | None => (g, inl ErrUnspec)
      | Some guest_addr =>
          let '(g, ok) := withdraw_mapping g resource guest_addr in
          if negb ok then (g, inl ErrUnspec)
          else
            let g := release_external g resource resource_id in
            let g := set_resources g (<[resource_id := with_mapping resource None false false]> (resources g)) in
            (set_window g (quota_release (window g) (r_size resource)), inr OkNoData)
      end
  end.

Definition unref_resource (g : VirtioGpu) (resource_id : Z) (shm : VirtioShmRegion)
    : VirtioGpu * VirtioGpuResult :=
  match resources g !! resource_id with
  | None => (g, inl ErrInvalidResourceId)
  | Some resource =>
      if has_any_enabled (r_scanouts resource) then (g, inl ErrUnspec)
      else
        let '(g, ok) :=
          match mapped_at resource shm with
          | None => (g, true)
          | Some guest_addr =>
              let '(g, ok) := withdraw_mapping g resource guest_addr in
              if negb ok then (g, false)
              else
                let g := release_external g resource resource_id in
                (set_window g (quota_release (window g) (r_size resource)), true)
          end in
        if negb ok then (g, inl ErrUnspec)
        else
          let g := set_resources g (delete resource_id (resources g)) in
          let '(r, ok) := rb_unref (rutabaga g) resource_id in
          let g := set_rutabaga g r in
          if ok : bool then (set_vram g (fun a => release_resource a resource_id), inr OkNoData)
          else (g, inl ErrRutabaga)
  end.

End Gpu.

Arguments VirtioGpu : clear implicits.
