(* ===== verification/GpuBackendFacts.v ===== *)
(** What the GPU keeps for a guest stays in step: the window quota counts
    exactly the mapped resources, every memory slot belongs to a resource that
    knows it, and a scanout bit means the scanout shows that resource.  The
    renderer and the mapper may refuse any call at any time. *)

From S2P Require Import Prelude GuestMem Virtqueue GpuVram HostMapper GpuEdid GpuChain GpuWire.
From S2P Require Import GpuProtocol GpuBackend.

(** * Sums over a map *)

Section MapSum.
Context {V : Type} (f : V -> Z).

Definition sum_map (m : gmap Z V) : Z := map_fold (fun _ v acc => f v + acc) 0 m.

Lemma sum_map_empty : sum_map ∅ = 0.
Proof. apply map_fold_empty. Qed.

Lemma sum_map_insert m k v : m !! k = None -> sum_map (<[k := v]> m) = f v + sum_map m.
Proof. intros H. unfold sum_map. rewrite map_fold_insert_L; [done|intros; lia|done]. Qed.

Lemma sum_map_delete m k v : m !! k = Some v -> sum_map (delete k m) = sum_map m - f v.
Proof.
  intros H. rewrite <- (insert_delete_id m k v) at 2 by done.
  rewrite sum_map_insert by apply lookup_delete_eq. lia.
Qed.

Lemma sum_map_update m k v w : m !! k = Some v -> sum_map (<[k := w]> m) = sum_map m - f v + f w.
Proof.
  intros H. rewrite <- insert_delete_eq, sum_map_insert by apply lookup_delete_eq.
  rewrite (sum_map_delete m k v) by done. lia.
Qed.

Lemma sum_map_nonneg m : map_Forall (fun _ v => 0 <= f v) m -> 0 <= sum_map m.
Proof.
  induction m as [|k v m Hk IH] using map_ind; intros H; [by rewrite sum_map_empty|].
  apply map_Forall_insert in H as [Hv Hm]; [|done]. rewrite sum_map_insert by done. specialize (IH Hm). lia.
Qed.

(** One entry is no more than all of them. *)
Lemma sum_map_le m k v : m !! k = Some v -> map_Forall (fun _ v => 0 <= f v) m -> f v <= sum_map m.
Proof.
  intros H Hm. pose proof (sum_map_delete m k v H) as Hd.
  pose proof (sum_map_nonneg (delete k m) (map_Forall_delete _ _ _ Hm)). lia.
Qed.

End MapSum.

(** * What is relied on *)

(** [live r] is the set of resource ids the renderer holds: it refuses to create
    one it has, and only releasing a resource takes its id away. *)
Class RutabagaLaws (R : Type) `{Rutabaga R} (live : R -> gset Z) : Prop := {
  create_3d_fresh r i c r' : rb_create_3d r i c = (r', true) -> i ∉ live r;
  create_3d_live r i c r' ok :
    rb_create_3d r i c = (r', ok) -> live r ⊆ live r' /\ (ok = true -> i ∈ live r');
  create_blob_fresh r x i c v r' : rb_create_blob r x i c v = (r', true) -> i ∉ live r;
  create_blob_live r x i c v r' ok :
    rb_create_blob r x i c v = (r', ok) -> live r ⊆ live r' /\ (ok = true -> i ∈ live r');
  unref_live r i : live r ∖ {[i]} ⊆ live (rb_unref r i).1;
  force_live r : live r ⊆ live (rb_force_ctx_0 r);
  transfer_live r x i t : live r ⊆ live (rb_transfer_write r x i t).1;
  attach_backing_live r i v : live r ⊆ live (rb_attach_backing r i v).1;
  detach_backing_live r i : live r ⊆ live (rb_detach_backing r i).1;
  create_context_live r x i n : live r ⊆ live (rb_create_context r x i n).1;
  destroy_context_live r x : live r ⊆ live (rb_destroy_context r x).1;
  context_attach_live r x i : live r ⊆ live (rb_context_attach r x i).1;
  context_detach_live r x i : live r ⊆ live (rb_context_detach r x i).1;
  submit_live r x c f : live r ⊆ live (rb_submit r x c f).1;
  create_fence_live r f : live r ⊆ live (rb_create_fence r f).1;
  map_live r i : live r ⊆ live (rb_map r i).1;
  unmap_live r i : live r ⊆ live (rb_unmap r i).1;
  map_fixed_live r i h : live r ⊆ live (rb_map_fixed r i h).1
}.

(** * One resource *)

(** Bytes and mappings a resource takes of the window. *)
Definition window_bytes (r : VirtioGpuResource) : Z :=
  match shmem_offset r with Some _ => r_size r | None => 0 end.
Definition window_count (r : VirtioGpuResource) : Z :=
  match shmem_offset r with Some _ => 1 | None => 0 end.

(** A mapped resource is either placed or has a slot; an unmapped one neither. *)
Definition res_ok (r : VirtioGpuResource) : Prop :=
  0 <= r_size r /\
  match shmem_offset r with
  | Some _ => rutabaga_external_mapping r = negb (placed r)
  | None => rutabaga_external_mapping r = false /\ placed r = false
  end.

Lemma window_bytes_nonneg r : res_ok r -> 0 <= window_bytes r.
Proof. intros [H _]. unfold window_bytes. by destruct (shmem_offset r). Qed.

Lemma window_count_nonneg r : 0 <= window_count r.
Proof. unfold window_count. by destruct (shmem_offset r). Qed.

(** * The quota *)

Lemma try_map_granted lim max w size w' :
  0 < lim < 2 ^ 64 - 1 -> 0 < max < 2 ^ 32 -> limit_bytes w = lim -> max_mappings w = max ->
  0 <= q_used w -> 0 <= mappings w -> 0 <= size -> try_map w size = (w', None) ->
  limit_bytes w' = lim /\ max_mappings w' = max /\
  q_used w' = q_used w + size /\ q_used w' <= lim /\ mappings w' = mappings w + 1 /\ mappings w' <= max.
Proof.
  intros Hl Hm El Em Hu Hc Hs. unfold try_map, saturating_add. rewrite El, Em.
  destruct (negb (lim =? 0) && _) eqn:E1; [done|]. destruct (negb (max =? 0) && _) eqn:E2; [done|].
  intros Hw. injection Hw as Hw. subst w'. simpl.
  apply andb_false_iff in E1, E2. destruct E1, E2; bool_prop; try lia.
  rewrite wrap_small by (unfold is_word; lia). lia.
Qed.

Lemma try_map_limits w size w' r :
  try_map w size = (w', r) -> limit_bytes w' = limit_bytes w /\ max_mappings w' = max_mappings w.
Proof. unfold try_map. intros H. case_tests; simplify_eq; done. Qed.

Lemma try_map_refused w size w' e :
  try_map w size = (w', Some e) ->
  limit_bytes w' = limit_bytes w /\ max_mappings w' = max_mappings w /\
  q_used w' = q_used w /\ mappings w' = mappings w.
Proof. unfold try_map. intros H. case_tests; simplify_eq; done. Qed.

(** * The invariant *)

Section Inv.
Context {M R P Q : Type} {HM : GuestMemory M} {HR : Rutabaga R} {HC : RutabagaConsts}
  {HP : HostMemoryMapper P} {HQ : GpuQueues M Q}.
Context {live : R -> gset Z} {HRL : RutabagaLaws R live}.
Context {slots : P -> gset Z} {HPL : HostMemoryMapperLaws P slots}.
Context (shm : VirtioShmRegion) (lim max : Z).
(** Whether the kernel always takes a slot back. *)
Context (reliable : Prop)
  (Hrel : reliable -> forall p a n, a ∈ slots p -> (hm_unmap p a n).2 = true).
Implicit Types (g : VirtioGpu R P Q).

(** Resource [i] is mapped at [a] through a slot of its own. *)
Definition owns (m : gmap Z VirtioGpuResource) (i a : Z) : Prop :=
  exists r, m !! i = Some r /\ rutabaga_external_mapping r = true /\ mapped_at r shm = Some a.

(** Zero is no limit, and then the books do not matter. *)
Definition bounded : Prop := 0 < lim < 2 ^ 64 - 1 /\ 0 < max < 2 ^ 32.

Definition quota_exact (m : gmap Z VirtioGpuResource) (w : WindowQuota) : Prop :=
  q_used w = sum_map window_bytes m /\ q_used w <= lim /\
  mappings w = sum_map window_count m /\ mappings w <= max.

Definition res_inv (m : gmap Z VirtioGpuResource) (w : WindowQuota) : Prop :=
  map_Forall (fun _ => res_ok) m /\
  limit_bytes w = lim /\ max_mappings w = max /\ (bounded -> quota_exact m w).

Definition slot_inv (m : gmap Z VirtioGpuResource) (p : P) : Prop :=
  (forall a, a ∈ slots p -> exists i, owns m i a) /\
  (reliable -> (forall i a, owns m i a -> a ∈ slots p) /\
               (forall i j a, owns m i a -> owns m j a -> i = j)).

Definition gpu_inv g : Prop :=
  dom (resources g) ⊆ live (rutabaga g) /\ res_inv (resources g) (window g) /\
  slot_inv (resources g) (mapper g).

Lemma gpu_inv_frame g g' :
  gpu_inv g -> resources g' = resources g -> window g' = window g -> mapper g' = mapper g ->
  live (rutabaga g) ⊆ live (rutabaga g') -> gpu_inv g'.
Proof. intros (Hl & Hr & Hs) E1 E2 E3 Hlv. unfold gpu_inv. rewrite E1, E2, E3. by split; [etrans|]. Qed.

(** ** The books under one change of the table *)

Lemma quota_nonneg m w : map_Forall (fun _ => res_ok) m -> quota_exact m w -> 0 <= q_used w /\ 0 <= mappings w.
Proof.
  intros Hf (Hu & _ & Hc & _). rewrite Hu, Hc. split; apply sum_map_nonneg.
  - intros i r Hi. apply window_bytes_nonneg. by apply (Hf i).
  - intros i r Hi. apply window_count_nonneg.
Qed.

Lemma res_inv_add m w i size :
  res_inv m w -> m !! i = None -> 0 <= size -> res_inv (<[i := VirtioGpuResource_new size]> m) w.
Proof.
  intros (Hf & H1 & H2 & Hq) Hi Hs. split_and!; [by apply map_Forall_insert|done..|]. intros (Hu & Hul & Hc & Hcl)%Hq.
  unfold quota_exact. by rewrite !sum_map_insert.
Qed.

(** A change that maps nothing and unmaps nothing. *)
Lemma res_inv_same m w i r r' :
  res_inv m w -> m !! i = Some r -> res_ok r' -> window_bytes r' = window_bytes r ->
  window_count r' = window_count r -> res_inv (<[i := r']> m) w.
Proof.
  intros (Hf & H1 & H2 & Hq) Hi Hok Hb Hn. split_and!; [by apply map_Forall_insert_2|done..|]. intros (Hu & Hul & Hc & Hcl)%Hq.
  unfold quota_exact. rewrite !(sum_map_update _ _ _ _ _ Hi). lia.
Qed.

Lemma res_inv_map m w w' i r o e p :
  res_inv m w -> m !! i = Some r -> shmem_offset r = None -> e = negb p ->
  try_map w (r_size r) = (w', None) -> res_inv (<[i := with_mapping r (Some o) e p]> m) w'.
Proof.
  intros (Hf & H1 & H2 & Hq) Hr Hn -> Ht. pose proof (Hf i r Hr) as [Hs _]. destruct (try_map_limits _ _ _ _ Ht).
  split_and!; [by apply map_Forall_insert_2|congruence..|]. intros Hb. pose proof (quota_nonneg _ _ Hf (Hq Hb)).
  destruct (Hq Hb) as (Hu & Hul & Hc & Hcl).
  destruct (try_map_granted lim max w (r_size r) w') as (? & ? & E1 & ? & E2 & ?); try done; try apply Hb; try lia.
  unfold quota_exact. rewrite !(sum_map_update _ _ _ _ _ Hr).
  unfold window_bytes at 2 3, window_count at 2 3. rewrite Hn. simpl. lia.
Qed.

Lemma res_inv_unmap m w i r :
  res_inv m w -> m !! i = Some r -> is_Some (shmem_offset r) ->
  res_inv (<[i := with_mapping r None false false]> m) (quota_release w (r_size r)) /\
  res_inv (delete i m) (quota_release w (r_size r)).
Proof.
  intros (Hf & H1 & H2 & Hq) Hr [o Ho]. pose proof (Hf i r Hr) as [Hs _].
  pose proof (sum_map_le window_bytes m i r Hr) as Hb. pose proof (sum_map_le window_count m i r Hr) as Hn.
  assert (window_bytes r = r_size r /\ window_count r = 1) as [E1 E2]
    by (unfold window_bytes, window_count; by rewrite Ho).
  specialize (Hb ltac:(intros j s Hj; apply window_bytes_nonneg, (Hf j s Hj))).
  specialize (Hn ltac:(intros j s Hj; apply window_count_nonneg)).
  rewrite E1 in Hb. rewrite E2 in Hn.
  split; (split_and!; [by apply map_Forall_insert_2 || by apply map_Forall_delete|done..|]);
    intros (Hu & Hul & Hc & Hcl)%Hq; unfold quota_exact, quota_release, saturating_sub;
    rewrite ?(sum_map_update _ _ _ _ _ Hr), ?(sum_map_delete _ _ _ _ Hr), ?E1, ?E2;
    unfold window_bytes at 2, window_count at 2 || idtac; simpl; lia.
Qed.

(** ** The slots under one change of the table *)

Lemma owns_insert m i r j a :
  owns (<[i := r]> m) j a <->
  (j = i /\ rutabaga_external_mapping r = true /\ mapped_at r shm = Some a) \/ (j <> i /\ owns m j a).
Proof.
  unfold owns. destruct (decide (j = i)) as [->|Hne].
  - rewrite lookup_insert_eq. naive_solver.
  - rewrite lookup_insert_ne by done. naive_solver.
Qed.

Lemma owns_delete m i j a : owns (delete i m) j a <-> j <> i /\ owns m j a.
Proof.
  unfold owns. destruct (decide (j = i)) as [->|Hne].
  - rewrite lookup_delete_eq. naive_solver.
  - rewrite lookup_delete_ne by done. naive_solver.
Qed.

(** Resource [i] changes but owns no slot, before or after. *)
Lemma slot_inv_same m p i r :
  slot_inv m p -> (forall a, ~ owns m i a) -> rutabaga_external_mapping r = false ->
  slot_inv (<[i := r]> m) p.
Proof.
  intros [Hs He] Hn Hr.
  assert (forall j a, owns (<[i := r]> m) j a <-> owns m j a) as Heq.
  { intros j a. rewrite owns_insert. split; [naive_solver congruence|].
    intros Ho. right. split; [|done]. intros ->. by apply (Hn a). }
  split; [|intros Hrl; destruct (He Hrl)]; repeat setoid_rewrite Heq; done.
Qed.

Lemma slot_inv_map m p p' i r a h n :
  slot_inv m p -> (forall b, ~ owns m i b) -> rutabaga_external_mapping r = true ->
  mapped_at r shm = Some a -> hm_map p a h n = (p', true) -> slot_inv (<[i := r]> m) p'.
Proof.
  intros [Hs He] Hn Hx Ha Hm. apply map_adds in Hm as [Hf Hp']. unfold slot_inv. rewrite Hp'.
  repeat setoid_rewrite owns_insert. split.
  - intros b [->%elem_of_singleton|Hb]%elem_of_union; [by exists i; left|].
    destruct (Hs b Hb) as [j Hj]. exists j. right. split; [|done]. intros ->. by apply (Hn b).
  - intros Hrl. destruct (He Hrl) as [He1 He2]. split.
    + intros j b [(-> & _ & Hb)|[_ Hb]]; [|by apply elem_of_union_r, (He1 j)].
      rewrite Ha in Hb. simplify_eq. set_solver.
    + intros j k b Hj Hk.
      assert (forall j, owns m j b -> mapped_at r shm = Some b -> False) as Hno.
      { intros l Hl Hb. rewrite Ha in Hb. simplify_eq. by apply Hf, (He1 l). }
      naive_solver.
Qed.

(** Resource [i] gives up its slot at [a]; [m'] is the table without its claim. *)
Lemma slot_inv_unmap m m' p p' i a n :
  slot_inv m p -> owns m i a -> hm_unmap p a n = (p', true) ->
  (forall j b, owns m' j b <-> j <> i /\ owns m j b) -> slot_inv m' p'.
Proof.
  intros [Hs He] Ho Hu Hm'. apply unmap_removes in Hu as [Hin Hp'].
  assert (forall b, owns m i b -> b = a) as Hone by (unfold owns in *; naive_solver).
  unfold slot_inv. rewrite Hp'. repeat setoid_rewrite Hm'. split.
  - intros b [Hb Hne]%elem_of_difference. destruct (Hs b Hb) as [j Hj]. exists j. split; [|done].
    intros ->. apply Hne. by rewrite (Hone b Hj), elem_of_singleton.
  - intros Hrl. destruct (He Hrl) as [He1 He2]. split; [|naive_solver].
    intros j b [Hne Hj]. apply elem_of_difference. split; [by apply (He1 j)|].
    intros ->%elem_of_singleton. by apply Hne, (He2 j i a).
Qed.

(** Without a slot of its own, a resource can go away. *)
Lemma slot_inv_unowned m m' p i :
  slot_inv m p -> (forall a, ~ owns m i a) -> (forall j b, owns m' j b <-> j <> i /\ owns m j b) ->
  slot_inv m' p.
Proof.
  intros [Hs He] Hn Hm'.
  assert (forall j b, owns m' j b <-> owns m j b) as Heq by (intros j b; rewrite Hm'; naive_solver).
  split; [|intros Hrl; destruct (He Hrl)]; repeat setoid_rewrite Heq; done.
Qed.

Lemma slot_inv_mapper m p p' : slot_inv m p -> slots p' = slots p -> slot_inv m p'.
Proof. unfold slot_inv. by intros ? ->. Qed.

(** A refused removal may lose the slot, but registers none. *)
Lemma slot_inv_refused m p p' i a n :
  slot_inv m p -> owns m i a -> hm_unmap p a n = (p', false) -> slot_inv m p'.
Proof.
  intros [Hs He] Ho Hu. pose proof (unmap_shrinks _ _ _ _ Hu) as [Hsub _]. split; [set_solver|].
  intros Hrl. destruct (He Hrl) as [He1 _]. specialize (Hrel Hrl p a n (He1 _ _ Ho)).
  by rewrite Hu in Hrel.
Qed.

Lemma unmapped_owns m i r a : m !! i = Some r -> res_ok r -> shmem_offset r = None -> ~ owns m i a.
Proof.
  intros Hi Hok Hn (r' & Hr' & Hx & _). simplify_eq. unfold res_ok in Hok. rewrite Hn in Hok.
  destruct Hok as [_ [Hf _]]. congruence.
Qed.

(** ** The operations *)

Lemma withdraw_frame g r a g' ok :
  withdraw_mapping g r a = (g', ok) ->
  resources g' = resources g /\ window g' = window g /\ rutabaga g' = rutabaga g /\
  scanouts g' = scanouts g /\ fence_state g' = fence_state g /\ signal g' = signal g.
Proof. unfold withdraw_mapping. destruct (if placed r then _ else _). by intros [= <- <-]. Qed.

Lemma withdraw_slots g i r a g' ok :
  gpu_inv g -> resources g !! i = Some r -> mapped_at r shm = Some a ->
  withdraw_mapping g r a = (g', ok) ->
  if ok then forall m', (forall j b, owns m' j b <-> j <> i /\ owns (resources g) j b) -> slot_inv m' (mapper g')
  else slot_inv (resources g) (mapper g').
Proof.
  intros (_ & (Hf & _) & Hs) Hi Ha. pose proof (Hf i r Hi) as [_ Hok].
  assert (is_Some (shmem_offset r)) as [o Ho]
    by (unfold mapped_at in Ha; destruct (shmem_offset r); [by eexists|done]).
  rewrite Ho in Hok. unfold withdraw_mapping. destruct (placed r) eqn:Ep.
  - destruct (hm_withdraw _ _ _) as [p k] eqn:Ew. intros [= <- <-]. simpl. apply withdraw_keeps in Ew.
    assert (forall b, ~ owns (resources g) i b) as Hno.
    { intros b (r' & Hr' & Hx & _). simplify_eq. by rewrite Hok in Hx. }
    destruct k; [intros m' Hm'; eapply slot_inv_mapper; [by eapply slot_inv_unowned|done]|].
    by eapply slot_inv_mapper.
  - assert (owns (resources g) i a) as Hown by (by exists r).
    destruct (hm_unmap _ _ _) as [p k] eqn:Eu. intros [= <- <-]. simpl.
    destruct k; [intros m' Hm'; by eapply slot_inv_unmap|by eapply slot_inv_refused].
Qed.

Lemma release_external_frame g r i :
  resources (release_external g r i) = resources g /\ window (release_external g r i) = window g /\
  mapper (release_external g r i) = mapper g /\
  live (rutabaga g) ⊆ live (rutabaga (release_external g r i)).
Proof. unfold release_external. case_match; split_and!; try done. apply unmap_live. Qed.

Lemma owns_unmapped m i r j b :
  owns (<[i := with_mapping r None false false]> m) j b <-> j <> i /\ owns m j b.
Proof. rewrite owns_insert. simpl. naive_solver. Qed.

Lemma resource_unmap_blob_inv g i : gpu_inv g -> gpu_inv (resource_unmap_blob g i shm).1.
Proof.
  intros Hinv. unfold resource_unmap_blob. destruct (resources g !! i) as [r|] eqn:Hi; [|done].
  destruct (mapped_at r shm) as [a|] eqn:Ha; [|done].
  destruct (withdraw_mapping g r a) as [g1 ok] eqn:Ew.
  pose proof (withdraw_slots _ _ _ _ _ _ Hinv Hi Ha Ew) as Hs.
  apply withdraw_frame in Ew as (E1 & E2 & E3 & _). destruct Hinv as (Hl & Hr & Hsl).
  destruct ok; simpl.
  - destruct (release_external_frame g1 r i) as (F1 & F2 & F3 & F4). unfold gpu_inv. simpl.
    rewrite F1, F2, F3, E1, E2. rewrite E3 in F4.
    assert (is_Some (shmem_offset r)) by (unfold mapped_at in Ha; by destruct (shmem_offset r)).
    split_and!.
    + rewrite dom_insert_lookup_L by done. by etrans.
    + by apply (res_inv_unmap _ _ _ _ Hr Hi).
    + apply Hs. intros. apply owns_unmapped.
  - unfold gpu_inv. by rewrite E1, E2, E3.
Qed.

(** The end of an unref, once nothing maps the resource. *)
Lemma unref_last g g1 i :
  dom (resources g) ⊆ live (rutabaga g1) -> resources g1 = resources g ->
  res_inv (delete i (resources g)) (window g1) -> slot_inv (delete i (resources g)) (mapper g1) ->
  gpu_inv (let g := set_resources g1 (delete i (resources g1)) in
           let '(r, ok) := rb_unref (rutabaga g) i in
           let g := set_rutabaga g r in
           if ok : bool then (set_vram g (fun a => release_resource a i), inr OkNoData)
           else (g, inl ErrRutabaga)).1.
Proof.
  intros Hl E1 Hr1 Hs1. pose proof (unref_live (rutabaga g1) i) as Hu. simpl.
  destruct (rb_unref (rutabaga g1) i) as [r1 ok]. simpl in Hu.
  assert (dom (delete i (resources g)) ⊆ live r1) as Hd by (rewrite dom_delete_L; set_solver).
  destruct ok; unfold gpu_inv; simpl; by rewrite E1.
Qed.

Lemma res_inv_drop m w i r :
  res_inv m w -> m !! i = Some r -> shmem_offset r = None -> res_inv (delete i m) w.
Proof.
  intros (Hf & ? & ? & Hq) Hi Hn. split_and!; [by apply map_Forall_delete|done..|]. intros (Hu & ? & Hc & ?)%Hq. unfold quota_exact.
  assert (window_bytes r = 0 /\ window_count r = 0) as [E1 E2]
    by (unfold window_bytes, window_count; by rewrite Hn).
  rewrite !(sum_map_delete _ _ _ _ Hi), E1, E2, !Z.sub_0_r. by split_and!.
Qed.

Lemma unref_resource_inv g i : gpu_inv g -> gpu_inv (unref_resource g i shm).1.
Proof.
  intros Hinv. unfold unref_resource. destruct (resources g !! i) as [r|] eqn:Hi; [|done].
  destruct (has_any_enabled _); [done|]. destruct (mapped_at r shm) as [a|] eqn:Ha.
  - destruct (withdraw_mapping g r a) as [g1 ok] eqn:Ew.
    pose proof (withdraw_slots _ _ _ _ _ _ Hinv Hi Ha Ew) as Hs.
    apply withdraw_frame in Ew as (E1 & E2 & E3 & _). destruct Hinv as (Hl & Hr & Hsl).
    destruct ok; [|unfold gpu_inv; simpl; by rewrite E1, E2, E3].
    destruct (release_external_frame g1 r i) as (F1 & F2 & F3 & F4). rewrite E3 in F4.
    assert (is_Some (shmem_offset r)) by (unfold mapped_at in Ha; by destruct (shmem_offset r)).
    apply (unref_last g (set_window (release_external g1 r i)
      (quota_release (window (release_external g1 r i)) (r_size r)))); simpl; rewrite ?F1, ?F2, ?F3, ?E1, ?E2; [by etrans|done| |].
    + by apply (res_inv_unmap _ _ _ _ Hr Hi).
    + apply Hs. intros. apply owns_delete.
  - destruct Hinv as (Hl & Hr & Hsl). assert (shmem_offset r = None) as Hn
      by (unfold mapped_at in Ha; by destruct (shmem_offset r)).
    apply (unref_last g g); [done..|by eapply res_inv_drop|].
    eapply slot_inv_unowned; [done| |intros; apply owns_delete].
    intros b. eapply unmapped_owns; [done| |done]. by apply (proj1 Hr i).
Qed.

Lemma resource_added_inv g g1 i size :
  gpu_inv g -> resources g1 = resources g -> window g1 = window g -> mapper g1 = mapper g ->
  live (rutabaga g) ⊆ live (rutabaga g1) -> i ∉ live (rutabaga g) -> i ∈ live (rutabaga g1) -> 0 <= size ->
  gpu_inv (add_resource g1 i size).
Proof.
  intros (Hl & Hr & Hs) E1 E2 E3 Hlv Hf Hin Hsz.
  assert (resources g !! i = None) as Hi by (apply not_elem_of_dom; set_solver).
  unfold gpu_inv, add_resource. simpl. rewrite E1, E2, E3. split_and!.
  - rewrite dom_insert_L. set_solver.
  - by apply res_inv_add.
  - apply slot_inv_same; [done| |done]. intros a (r & Hr' & _). congruence.
Qed.

Lemma resource_create_3d_inv g i c : gpu_inv g -> gpu_inv (resource_create_3d g i c).1.
Proof.
  intros Hinv. unfold resource_create_3d. destruct (rb_create_3d _ _ _) as [r ok] eqn:E.
  pose proof (create_3d_live _ _ _ _ _ E) as [Hl Hin].
  destruct ok; [|by eapply gpu_inv_frame]. apply create_3d_fresh in E.
  eapply resource_added_inv; [exact Hinv|done..|by apply Hin|done].
Qed.

Lemma resource_create_blob_inv g x i c v :
  0 <= blob_size c -> gpu_inv g -> gpu_inv (resource_create_blob g x i c v).1.
Proof.
  intros Hsz Hinv. unfold resource_create_blob. destruct (has_bits _ _); [done|].
  destruct (if negb (blob_mem c =? _) then _ else _) as [e|iv]; [done|].
  destruct (rb_create_blob _ _ _ _ _) as [r ok] eqn:E.
  pose proof (create_blob_live _ _ _ _ _ _ _ E) as [Hl Hin].
  destruct ok; [|by eapply gpu_inv_frame]. apply create_blob_fresh in E.
  eapply resource_added_inv; [exact Hinv|done..|by apply Hin|done].
Qed.

(** A mapping refused after its bytes were charged gives them back. *)
Lemma res_inv_refund m w w' i r :
  res_inv m w -> m !! i = Some r -> try_map w (r_size r) = (w', None) ->
  res_inv m (quota_release w' (r_size r)).
Proof.
  intros (Hf & H1 & H2 & Hq) Hr Ht. pose proof (Hf i r Hr) as [Hs _]. destruct (try_map_limits _ _ _ _ Ht).
  split_and!; [done|simpl; congruence..|]. intros Hb. pose proof (quota_nonneg _ _ Hf (Hq Hb)).
  destruct (Hq Hb) as (Hu & Hul & Hc & Hcl).
  destruct (try_map_granted lim max w (r_size r) w') as (? & ? & E1 & ? & E2 & ?); try done; try apply Hb; try lia.
  unfold quota_exact, quota_release, saturating_sub. simpl. lia.
Qed.

Lemma place_frame g i a n :
  let g' := (place g i a n).1 in
  resources g' = resources g /\ window g' = window g /\ mapper g' = mapper g /\
  live (rutabaga g) ⊆ live (rutabaga g').
Proof.
  unfold place. destruct (hm_host_addr _ _ _) as [h|]; [|done].
  pose proof (map_fixed_live (rutabaga g) i h). by destruct (rb_map_fixed _ _ _).
Qed.

(** A slot is published, or everything is undone. *)
Lemma publish_slot_spec g i a n g' ok :
  publish_slot g i a n = (g', ok) ->
  resources g' = resources g /\ live (rutabaga g) ⊆ live (rutabaga g') /\
  (if ok then window g' = window g /\ exists h k, hm_map (mapper g) a h k = (mapper g', true)
   else window g' = quota_release (window g) n /\
        (mapper g' = mapper g \/ exists h k, hm_map (mapper g) a h k = (mapper g', false))).
Proof.
  unfold publish_slot. pose proof (map_live (rutabaga g) i) as Hl.
  destruct (rb_map (rutabaga g) i) as [r [[h k]|]]; simpl in Hl.
  - pose proof (unmap_live r i) as Hu. destruct (k <? n).
    { intros [= <- <-]. simpl. split_and!; [done|by etrans|done|by left]. }
    simpl. destruct (hm_map _ _ _ _) as [p b] eqn:Em. destruct b; intros [= <- <-]; simpl.
    + split_and!; [done..|]. by exists h, k.
    + split_and!; [done|by etrans|done|]. right. by exists h, k.
  - intros [= <- <-]. simpl. split_and!; [done..|by left].
Qed.

Lemma resource_map_blob_inv g i o : gpu_inv g -> gpu_inv (resource_map_blob g i shm o).1.
Proof.
  intros (Hl & Hr & Hs). unfold resource_map_blob.
  destruct (resources g !! i) as [r|] eqn:Hi; [|done]. destruct (shmem_offset r) eqn:Ho; [done|].
  destruct (try_map (window g) (r_size r)) as [w [e|]] eqn:Et.
  { apply try_map_refused in Et as (T1 & T2 & T3 & T4).
    unfold gpu_inv, res_inv, quota_exact in *. simpl. by rewrite T1, T2, T3, T4. }
  assert (forall g1 w1, dom (resources g) ⊆ live (rutabaga g1) -> resources g1 = resources g ->
    slot_inv (resources g) (mapper g1) -> w1 = quota_release w (r_size r) -> gpu_inv (set_window g1 w1)) as Hback.
  { intros g1 w1 Hl1 E1 Hs1 ->. unfold gpu_inv. simpl. rewrite E1. split_and!; [done| |done].
    by eapply res_inv_refund. }
  pose proof (proj1 Hr i r Hi) as Hrok. pose proof (fun b => unmapped_owns _ _ _ b Hi Hrok Ho) as Hno.
  destruct (rb_map_info _ _) as [info|]; [|by apply Hback].
  destruct (_ <? saturating_add _ _ _); [by apply Hback|].
  set (g0 := set_window g w). set (a := shm_guest_addr shm ⊕ o).
  destruct (place_frame g0 i a (r_size r)) as (F1 & F2 & F3 & F4).
  destruct (place g0 i a (r_size r)) as [g1 pl]. simpl in *.
  destruct pl.
  - unfold gpu_inv. simpl. rewrite F1, F2, F3. split_and!.
    + rewrite dom_insert_lookup_L by done. by etrans.
    + by eapply res_inv_map.
    + by apply slot_inv_same.
  - destruct (publish_slot g1 i a (r_size r)) as [g2 ok] eqn:Ep.
    apply publish_slot_spec in Ep as (P1 & P2 & P3). rewrite F1, F2, F3 in *.
    destruct ok; simpl.
    + destruct P3 as (P3 & h & k & Hm). unfold gpu_inv. simpl. rewrite P1, P3. split_and!.
      * rewrite dom_insert_lookup_L by done. etrans; [exact Hl|]. by etrans.
      * by eapply res_inv_map.
      * by eapply slot_inv_map.
    + destruct P3 as (P3 & Hm). unfold gpu_inv. rewrite P1, P3. split_and!.
      * etrans; [exact Hl|]. by etrans.
      * by eapply res_inv_refund.
      * destruct Hm as [->|(h & k & Hm)]; [done|]. eapply slot_inv_mapper; [done|by eapply map_fails].
Qed.

Lemma owns_relabel m i r s j a :
  m !! i = Some r -> owns (<[i := with_scanouts r s]> m) j a <-> owns m j a.
Proof.
  intros Hi. rewrite owns_insert. unfold owns. split.
  - intros [(-> & Hx & Ha)|[_ H]]; [|done]. by exists r.
  - intros (r' & Hr' & Hx & Ha). destruct (decide (j = i)) as [->|Hne]; [|right; by eauto].
    simplify_eq. by left.
Qed.

Lemma relabel_inv g i r s :
  gpu_inv g -> resources g !! i = Some r ->
  gpu_inv (set_resources g (<[i := with_scanouts r s]> (resources g))).
Proof.
  intros (Hl & Hr & Hs) Hi. unfold gpu_inv. simpl. split_and!.
  - by rewrite dom_insert_lookup_L.
  - eapply res_inv_same; [done..| |done|done]. by apply (proj1 Hr i r).
  - destruct Hs as [H1 H2].
    split; [|intros Hrl; destruct (H2 Hrl)]; repeat setoid_rewrite (fun j a => owns_relabel _ i r s j a Hi); done.
Qed.

Lemma set_scanout_inv g s i : gpu_inv g -> gpu_inv (set_scanout g s i).1.
Proof.
  intros Hinv. unfold set_scanout. destruct (scanouts g !! _) as [old|]; [|done].
  set (g1 := detach_scanout g old s).
  assert (gpu_inv g1) as H1.
  { subst g1. destruct old as [o|]; [|done]. simpl. destruct (resources g !! o) as [r|] eqn:Hr; [|done].
    by apply relabel_inv. }
  clearbody g1. destruct (i =? 0); [by eapply gpu_inv_frame|].
  destruct (resources g1 !! i) as [r|] eqn:Hr; [|done]. simpl.
  eapply gpu_inv_frame; [by eapply relabel_inv|done..].
Qed.

Lemma rendered_inv g c : gpu_inv g -> live (rutabaga g) ⊆ live c.1 -> gpu_inv (rendered g c).1.
Proof. intros. by eapply gpu_inv_frame. Qed.

Lemma fence_handler_frame g f :
  let g' := fence_handler g f in
  resources g' = resources g /\ window g' = window g /\ mapper g' = mapper g /\ rutabaga g' = rutabaga g /\
  scanouts g' = scanouts g.
Proof. unfold fence_handler. destruct (signal_fence _ _) as [fs [|d l]]; done. Qed.

Lemma retire_frame g x :
  let g' := retire_context_fences g x in
  resources g' = resources g /\ window g' = window g /\ mapper g' = mapper g /\ rutabaga g' = rutabaga g /\
  scanouts g' = scanouts g.
Proof. unfold retire_context_fences. destruct (drop_context_fences _ _) as [fs [|d l]]; done. Qed.

Lemma fence_handler_inv g f : gpu_inv g -> gpu_inv (fence_handler g f).
Proof.
  intros H. destruct (fence_handler_frame g f) as (E1 & E2 & E3 & E4 & _).
  eapply gpu_inv_frame; [exact H|done..|]. by rewrite E4.
Qed.

Lemma create_context_inv g x i n : gpu_inv g -> gpu_inv (create_context g x i n).1.
Proof.
  intros H. unfold create_context. pose proof (create_context_live (rutabaga g) x i n).
  destruct (rb_create_context _ _ _ _) as [r []]; by eapply gpu_inv_frame.
Qed.

Lemma destroy_context_inv g x : gpu_inv g -> gpu_inv (destroy_context g x).1.
Proof.
  intros H. unfold destroy_context. pose proof (destroy_context_live (rutabaga g) x) as Hl.
  destruct (rb_destroy_context _ _) as [r []]; [|by eapply gpu_inv_frame]. simpl.
  destruct (retire_frame (set_rutabaga g r) x) as (E1 & E2 & E3 & E4 & _).
  eapply gpu_inv_frame; [exact H|done..|]. simpl. by rewrite E4.
Qed.

Lemma submit_command_inv g x c f : gpu_inv g -> gpu_inv (submit_command g x c f).1.
Proof.
  intros H. unfold submit_command. simpl. pose proof (submit_live (rutabaga g) x c f).
  destruct (rb_submit _ _ _ _) as [r ok]. by eapply gpu_inv_frame.
Qed.

Lemma create_fence_inv g f : gpu_inv g -> gpu_inv (create_fence g f).1.
Proof.
  intros H. unfold create_fence. pose proof (create_fence_live (rutabaga g) f).
  destruct (rb_create_fence _ _) as [r ok]. by eapply gpu_inv_frame.
Qed.

Lemma process_fence_inv g ring id idx len : gpu_inv g -> gpu_inv (process_fence g ring id idx len).1.
Proof. intros H. unfold process_fence. case_match; [done|]. by eapply gpu_inv_frame. Qed.

Lemma attach_backing_inv g i v : gpu_inv g -> gpu_inv (attach_backing g i v).1.
Proof.
  intros H. unfold attach_backing. destruct (sglist_to_rutabaga_iovecs _ _); [|done].
  apply rendered_inv; [done|apply attach_backing_live].
Qed.

Lemma VirtioGpu_new_inv r p q ds n v :
  slots p = ∅ -> gpu_inv (VirtioGpu_new r p q ds n v lim max).
Proof.
  intros Hp. unfold gpu_inv, res_inv, slot_inv. simpl. rewrite Hp, dom_empty_L.
  assert (forall i a, ~ owns ∅ i a) as Hno by (intros i a (r' & Hr' & _); by rewrite lookup_empty in Hr').
  split_and!; try done; try apply map_Forall_empty; try set_solver.
  { intros [? ?]. unfold quota_exact. simpl. rewrite !sum_map_empty. lia. }
  all: try (intros _; split; intros; exfalso; by eapply Hno).
Qed.

End Inv.

(** * Scanouts *)

Lemma enable_bit s k j : 0 <= k -> 0 <= j -> Z.testbit (scanouts_enable s k) j = Z.testbit s j || (j =? k).
Proof.
  intros Hk Hj. unfold scanouts_enable. rewrite Z.lor_spec, Z.shiftl_1_l, Z.pow2_bits_eqb by done.
  by rewrite (Z.eqb_sym k).
Qed.

Lemma disable_bit s k j :
  0 <= k < 32 -> 0 <= j -> is_word 32 s -> Z.testbit (scanouts_disable s k) j = Z.testbit s j && negb (j =? k).
Proof.
  intros Hk Hj Hs. unfold scanouts_disable. rewrite Z.shiftl_1_l.
  rewrite lnotw_ldiff; [|lia|done|].
  - by rewrite Z.ldiff_spec, Z.pow2_bits_eqb, (Z.eqb_sym k) by lia.
  - unfold is_word. split; [apply Z.pow_nonneg; lia|apply Z.pow_lt_mono_r; lia].
Qed.

Lemma disable_word s k : is_word 32 s -> is_word 32 (scanouts_disable s k).
Proof. by apply land_word. Qed.

Lemma enable_word s k : 0 <= k < 32 -> is_word 32 s -> is_word 32 (scanouts_enable s k).
Proof.
  intros Hk Hs. unfold scanouts_enable. apply lor_range; [lia|done|].
  unfold is_word. rewrite Z.shiftl_1_l. split; [apply Z.pow_nonneg; lia|apply Z.pow_lt_mono_r; lia].
Qed.

Section Scan.
Context {M R P Q : Type} {HM : GuestMemory M} {HR : Rutabaga R} {HC : RutabagaConsts}
  {HP : HostMemoryMapper P} {HQ : GpuQueues M Q}.
Implicit Types (g : VirtioGpu R P Q).

(** A resource's bit for a scanout is set only while the scanout shows it. *)
Definition shown g (i : Z) (r : VirtioGpuResource) : Prop :=
  is_word 32 (r_scanouts r) /\
  forall s, 0 <= s -> Z.testbit (r_scanouts r) s = true ->
    s < VIRTIO_GPU_MAX_SCANOUTS /\ scanouts g !! Z.to_nat s = Some (Some i).

Definition scan_inv g : Prop :=
  length (scanouts g) = Z.to_nat VIRTIO_GPU_MAX_SCANOUTS /\ map_Forall (shown g) (resources g).

Lemma shown_none g i r : r_scanouts r = 0 -> shown g i r.
Proof. intros H0. unfold shown. rewrite H0. split; [done|]. intros s _ H. by rewrite Z.bits_0 in H. Qed.

(** An operation that leaves the scanouts and every bit as they were. *)
Lemma scan_inv_frame g g' :
  scan_inv g -> scanouts g' = scanouts g ->
  (forall i r', resources g' !! i = Some r' ->
     r_scanouts r' = 0 \/ exists r, resources g !! i = Some r /\ r_scanouts r = r_scanouts r') ->
  scan_inv g'.
Proof.
  intros [Hl Hf] Es Hr. split; [by rewrite Es|]. intros i r' Hi.
  destruct (Hr i r' Hi) as [H0|(r & Hr0 & Heq)]; [by apply shown_none|].
  destruct (Hf i r Hr0) as [Hw Hb]. unfold shown. rewrite <- Heq, Es. done.
Qed.

Lemma scan_inv_same g g' :
  scan_inv g -> scanouts g' = scanouts g -> resources g' = resources g -> scan_inv g'.
Proof. intros H Es Er. eapply scan_inv_frame; [done..|]. rewrite Er. intros i r' Hi. right. eauto. Qed.

(** One entry added or replaced by one with the same bits, or with none. *)
Lemma scan_inv_insert g g' i r :
  scan_inv g -> scanouts g' = scanouts g -> resources g' = <[i := r]> (resources g) ->
  (r_scanouts r = 0 \/ exists r0, resources g !! i = Some r0 /\ r_scanouts r0 = r_scanouts r) -> scan_inv g'.
Proof.
  intros H Es Er Hr. eapply scan_inv_frame; [done..|]. rewrite Er. intros j r' Hj.
  destruct (decide (j = i)) as [->|Hne]; [rewrite lookup_insert_eq in Hj; by simplify_eq|].
  rewrite lookup_insert_ne in Hj by done. right. eauto.
Qed.

(** Detached, no resource has the scanout's bit. *)
Lemma detach_shown g old s :
  0 <= s < 16 -> scan_inv g -> scanouts g !! Z.to_nat s = Some old ->
  let g1 := detach_scanout g old s in
  scanouts g1 = scanouts g /\
  forall j r, resources g1 !! j = Some r -> shown g j r /\ Z.testbit (r_scanouts r) s = false.
Proof.
  intros Hs [Hl Hf] Eo g1.
  assert (forall j r, resources g !! j = Some r -> old <> Some j ->
    shown g j r /\ Z.testbit (r_scanouts r) s = false) as Hother.
  { intros j r Hj Hne. split; [by apply Hf|]. apply not_true_is_false. intros Ht.
    destruct (Hf j r Hj) as [_ Hb]. apply Hb in Ht as [_ Ht]; [congruence|lia]. }
  subst g1. unfold detach_scanout. destruct old as [o|]; [destruct (resources g !! o) as [ro|] eqn:Ero|].
  - split; [done|]. simpl. intros j r Hj. destruct (decide (j = o)) as [->|Hne].
    + rewrite lookup_insert_eq in Hj. simplify_eq/=. destruct (Hf _ _ Ero) as [Hw Hb].
      unfold shown. simpl. split; [split; [by apply disable_word|]|].
      * intros k Hk. rewrite disable_bit by (lia || done). intros [? _]%andb_true_iff. by apply Hb.
      * rewrite disable_bit, Z.eqb_refl by (lia || done). apply andb_false_r.
    + rewrite lookup_insert_ne in Hj by done. apply Hother; [done|congruence].
  - split; [done|]. intros j r Hj. apply Hother; congruence.
  - split; [done|]. intros j r Hj. by apply Hother.
Qed.

Lemma set_scanout_shows g s i : 0 <= s -> scan_inv g -> scan_inv (set_scanout g s i).1.
Proof.
  intros Hs Hinv. pose proof Hinv as [Hl Hf]. unfold set_scanout.
  destruct (scanouts g !! Z.to_nat s) as [old|] eqn:Eo; [|done].
  assert (s < 16) as Hs16 by (apply lookup_lt_Some in Eo; rewrite Hl in Eo; unfold VIRTIO_GPU_MAX_SCANOUTS in Eo; lia).
  destruct (detach_shown g old s) as [Es1 H1]; [lia|done..|].
  set (g1 := detach_scanout g old s) in *. clearbody g1.
  assert (forall v j r, resources g1 !! j = Some r -> shown (set_scanouts g1 (<[Z.to_nat s := v]> (scanouts g1))) j r)
    as Hkeep.
  { intros v j r Hj. destruct (H1 j r Hj) as [[Hw Hb] Hoff]. split; [done|]. intros k Hk Ht.
    destruct (Hb k Hk Ht) as [Hk16 Hsc]. split; [done|]. simpl. rewrite Es1.
    rewrite list_lookup_insert_ne; [done|]. intros Heq. assert (s = k) by lia. congruence. }
  destruct (i =? 0); [split; [simpl; by rewrite length_insert, Es1|by intros j r Hj; apply Hkeep]|].
  destruct (resources g1 !! i) as [r|] eqn:Er.
  - split; [simpl; by rewrite length_insert, Es1|]. simpl. intros j r' Hj.
    destruct (decide (j = i)) as [->|Hne]; [|rewrite lookup_insert_ne in Hj by done; by apply Hkeep].
    rewrite lookup_insert_eq in Hj. simplify_eq/=. destruct (Hkeep (Some i) i r Er) as [Hw Hb].
    split; [apply enable_word; [lia|done]|]. simpl. intros k Hk. rewrite enable_bit by done.
    intros [Ht|Ht]%orb_true_iff; [by apply Hb|]. bool_prop. subst k. split; [done|].
    rewrite list_lookup_insert_eq; [done|]. rewrite Es1. by eapply lookup_lt_Some.
  - split; [simpl; by rewrite Es1|]. intros j r' Hj. destruct (H1 j r' Hj) as [[Hw Hb] _].
    split; [done|]. simpl. by rewrite Es1.
Qed.

End Scan.
