(* ===== verification/GpuWorker.v ===== *)
(** The GPU's command dispatcher, [virtio-devices/src/gpu/worker.rs]: one command
    from its descriptors to its response, and the drain of the control queue;
    and the device's view of that queue, [Queues] of
    [virtio-devices/src/gpu/device.rs].

    Waiting for a kick and pacing a submission are [GpuLoop]'s; placing the thread
    and the timers change no state and are left out. *)

From S2P Require Import Prelude Shared GuestMem Virtqueue Msix GpuVram HostMapper GpuEdid GpuChain GpuWire.
From S2P Require Import GpuProtocol GpuBackend.

(** * One command *)

Section Worker.
Context {M R P Q : Type} {HM : GuestMemory M} {HR : Rutabaga R} {HC : RutabagaConsts}
  {HP : HostMemoryMapper P} {HQ : GpuQueues M Q}.
Context (shm : VirtioShmRegion).

(** [n] memory entries; [None] when the chain ends before. *)
Fixpoint read_entries (n : nat) (r : Reader) : Reader * option (list (Z * Z)) :=
  match n with
  | O => (r, Some [])
  | S n =>
      match read_obj virtio_gpu_mem_entry r with
      | (r, None) => (r, None)
      | (r, Some e) =>
          let '(r, es) := read_entries n r in
          (r, cons (me_addr e, me_length e) <$> es)
      end
  end.

Fixpoint read_fence_ids (n : nat) (r : Reader) : Reader * option (list Z) :=
  match n with
  | O => (r, Some [])
  | S n =>
      match read_obj Z r with
      | (r, None) => (r, None)
      | (r, Some id) =>
          let '(r, ids) := read_fence_ids n r in
          (r, cons id <$> ids)
      end
  end.

Definition do_attach_backing (g : VirtioGpu R P Q) (c : virtio_gpu_resource_attach_backing) (r : Reader)
    : VirtioGpu R P Q * VirtioGpuResult :=
  if r_available_bytes r =? 0 then (g, inl ErrUnspec)
  else if r_available_bytes r / Z.of_nat (size_of virtio_gpu_mem_entry) <? ab_nr_entries c then (g, inl ErrUnspec)
  else
    match (read_entries (Z.to_nat (ab_nr_entries c)) r).2 with
    | None => (g, inl ErrUnspec)
    | Some vecs => attach_backing g (ab_resource_id c) vecs
    end.

Definition do_create_blob (g : VirtioGpu R P Q) (hdr : virtio_gpu_ctrl_hdr)
    (c : virtio_gpu_resource_create_blob) (r : Reader) : VirtioGpu R P Q * VirtioGpuResult :=
  let rc_blob := {| blob_mem := cb_blob_mem c; blob_flags := cb_blob_flags c; blob_id := cb_blob_id c;
                    blob_size := cb_size c |} in
  if (r_available_bytes r =? 0) && (0 <? cb_nr_entries c) then (g, inl ErrUnspec)
  else
    match (read_entries (Z.to_nat (cb_nr_entries c)) r).2 with
    | None => (g, inl ErrUnspec)
    | Some vecs => resource_create_blob g (h_ctx_id hdr) (cb_resource_id c) rc_blob vecs
    end.

(** What a submission carries, its commands and the fences it waits for, or the
    answer it gets without one. *)
Definition read_submission (c : virtio_gpu_cmd_submit) (r : Reader) : VirtioGpuResult + (list Z * list Z) :=
  if r_available_bytes r =? 0 then inl (inr OkNoData)
  else
    let claimed := fences ← checked_mul 64 (cs_num_in_fences c) 8; checked_add 64 fences (cs_size c) in
    if match claimed with None => true | Some n => r_available_bytes r <? n end then inl (inl ErrInvalidParameter)
    else
      match read_fence_ids (Z.to_nat (cs_num_in_fences c)) r with
      | (_, None) => inl (inl ErrUnspec)
      | (r, Some fence_ids) =>
          match (read_exact r (Z.to_nat (cs_size c))).2 with
          | Some cmd_buf => inr (cmd_buf, fence_ids)
          | None => inl (inl ErrInvalidParameter)
          end
      end.

(** Before it submits, [pace_submit] may hold the thread: [submits], and [GpuLoop]. *)
Definition do_submit (g : VirtioGpu R P Q) (hdr : virtio_gpu_ctrl_hdr) (c : virtio_gpu_cmd_submit)
    (r : Reader) : VirtioGpu R P Q * VirtioGpuResult :=
  match read_submission c r with
  | inl answer => (g, answer)
  | inr (cmd_buf, fence_ids) => submit_command g (h_ctx_id hdr) cmd_buf fence_ids
  end.

Definition box_transfer (c : virtio_gpu_transfer_host_3d) : Transfer3D :=
  {| tr_x := box_x (t3_box c); tr_y := box_y (t3_box c); tr_z := box_z (t3_box c);
     tr_w := box_w (t3_box c); tr_h := box_h (t3_box c); tr_d := box_d (t3_box c);
     tr_level := t3_level c; tr_stride := t3_stride c; tr_layer_stride := t3_layer_stride c;
     tr_offset := t3_offset c |}.

Definition process_gpu_command (g : VirtioGpu R P Q) (hdr : virtio_gpu_ctrl_hdr) (cmd : GpuCommand)
    (r : Reader) : VirtioGpu R P Q * VirtioGpuResult :=
  let g := set_rutabaga g (rb_force_ctx_0 (rutabaga g)) in
  match cmd with
  | GetDisplayInfo => (g, display_info g)
  | GetEdid c => (g, get_edid g (ge_scanout c))
  | ResourceCreate2d c =>
      resource_create_3d g (c2_resource_id c)
        {| rc_target := RUTABAGA_PIPE_TEXTURE_2D; rc_format := c2_format c;
           rc_bind := RUTABAGA_PIPE_BIND_RENDER_TARGET; rc_width := c2_width c; rc_height := c2_height c;
           rc_depth := 1; rc_array_size := 1; rc_last_level := 0; rc_nr_samples := 0; rc_flags := 0 |}
  | ResourceUnref c => unref_resource g (ru_resource_id c) shm
  | SetScanout c => set_scanout g (ss_scanout_id c) (ss_resource_id c)
  | SetScanoutBlob _ => (g, inl ErrUnspec)
  | ResourceFlush c => (g, flush_resource g (rf_resource_id c))
  | TransferToHost2d c =>
      transfer_write g 0 (t2_resource_id c)
        (Transfer3D_new_2d (rect_x (t2_r c)) (rect_y (t2_r c)) (rect_width (t2_r c)) (rect_height (t2_r c))
           (t2_offset c))
  | ResourceAttachBacking c => do_attach_backing g c r
  | ResourceDetachBacking c => detach_backing g (db_resource_id c)
  | UpdateCursor _ | MoveCursor _ => (g, inr OkNoData)
  | ResourceAssignUuid c => (g, resource_assign_uuid g (au_resource_id c))
  | GetCapsetInfo c => (g, get_capset_info g (gi_capset_index c))
  | GetCapset c => (g, get_capset g (gc_capset_id c) (gc_capset_version c))
  | CtxCreate c => create_context g (h_ctx_id hdr) (cc_context_init c) (from_utf8 (cc_debug_name c))
  | CtxDestroy _ => destroy_context g (h_ctx_id hdr)
  | CtxAttachResource c => context_attach_resource g (h_ctx_id hdr) (cr_resource_id c)
  | CtxDetachResource c => context_detach_resource g (h_ctx_id hdr) (cr_resource_id c)
  | ResourceCreate3d c =>
      resource_create_3d g (c3_resource_id c)
        {| rc_target := c3_target c; rc_format := c3_format c; rc_bind := c3_bind c; rc_width := c3_width c;
           rc_height := c3_height c; rc_depth := c3_depth c; rc_array_size := c3_array_size c;
           rc_last_level := c3_last_level c; rc_nr_samples := c3_nr_samples c; rc_flags := c3_flags c |}
  | TransferToHost3d c => transfer_write g (h_ctx_id hdr) (t3_resource_id c) (box_transfer c)
  | TransferFromHost3d _ => transfer_read g
  | CmdSubmit3d c => do_submit g hdr c r
  | ResourceCreateBlob c => do_create_blob g hdr c r
  | ResourceMapBlob c => resource_map_blob g (mb_resource_id c) shm (mb_offset c)
  | ResourceUnmapBlob c => resource_unmap_blob g (ub_resource_id c) shm
  end.

(** * One chain *)

(** What is to be done with a chain once its response is written: retire it now
    with a length, or hand it to the fence it waits for. *)
Inductive Retire :=
  | RetireNow (len : Z)
  | RetireOnFence (ring : VirtioGpuRing) (fence_id len : Z).

(** The fence fields of a response, and whether the fence could not be created,
    in which case its error is the response. *)
Definition fence_command (g : VirtioGpu R P Q) (hdr : option virtio_gpu_ctrl_hdr) (resp : GpuResponse)
    : VirtioGpu R P Q * GpuResponse * bool * (Z * Z * Z * Z) :=
  match hdr with
  | Some h =>
      if has_bits (h_flags h) VIRTIO_GPU_FLAG_FENCE then
        let '(g, made) := create_fence g {| f_flags := h_flags h; f_fence_id := h_fence_id h;
                                            f_ctx_id := h_ctx_id h; f_ring_idx := h_ring_idx h |} in
        let fields := (h_flags h, h_fence_id h, h_ctx_id h, h_ring_idx h) in
        match made with
        | inr _ => (g, resp, false, fields)
        | inl fence_resp => (g, fence_resp, true, fields)
        end
      else (g, resp, false, (0, 0, 0, 0))
  | None => (g, resp, false, (0, 0, 0, 0))
  end.

(** Decode, execute and answer one chain, up to where the fence table is
    consulted. *)
Definition process_chain (g : VirtioGpu R P Q) (chain : list Desc) : VirtioGpu R P Q * Retire :=
  match Reader_new (queue_mem (signal g)) chain with
  | inl _ => (g, RetireNow 0)
  | inr reader =>
      match Writer_new chain with
      | inl _ => (g, RetireNow 0)
      | inr writer =>
          let '(reader, peeked) := peek_obj virtio_gpu_ctrl_hdr reader in
          let '(reader, decoded) := decode reader in
          let '(g, hdr, resp) :=
            match decoded with
            | inr (hdr, cmd) =>
                let '(g, resp) := process_gpu_command g hdr cmd reader in (g, Some hdr, resp)
            | inl _ => (g, peeked, inl ErrUnspec)
            end in
          let gpu_response := match resp with inr r => r | inl r => r end in
          if w_available_bytes writer =? 0 then (g, RetireNow 0)
          else
            let '(g, gpu_response, fence_failed, (flags, fence_id, ctx_id, ring_idx)) :=
              fence_command g hdr gpu_response in
            let '(mem, _, encoded) :=
              encode gpu_response flags fence_id ctx_id ring_idx (queue_mem (signal g)) writer in
            let g := set_fences g (fence_state g) (with_queue_mem (signal g) mem) in
            let len := match encoded with inr l => l | inl _ => 0 end in
            if has_bits flags VIRTIO_GPU_FLAG_FENCE && negb fence_failed then
              (g, RetireOnFence (ring_of flags ctx_id ring_idx) fence_id len)
            else (g, RetireNow len)
      end
  end.

(** Does the chain carry a submission that gets as far as [pace_submit]? *)
Definition submits (mem : M) (chain : list Desc) : bool :=
  match Reader_new mem chain, Writer_new chain with
  | inr reader, inr _ =>
      match decode (peek_obj virtio_gpu_ctrl_hdr reader).1 with
      | (reader, inr (_, CmdSubmit3d c)) => match read_submission c reader with inr _ => true | inl _ => false end
      | _ => false
      end
  | _, _ => false
  end.

(** Retire a chain, now or when its fence signals. *)
Definition retire_chain (g : VirtioGpu R P Q) (desc_index : Z) (how : Retire)
    : VirtioGpu R P Q * list (Z * Z) :=
  match how with
  | RetireNow len => (g, [(desc_index, len)])
  | RetireOnFence ring fence_id len =>
      let '(g, add_to_queue) := process_fence g ring fence_id desc_index len in
      (g, if add_to_queue : bool then [(desc_index, len)] else [])
  end.

(** * The drain *)

Definition set_signal (g : VirtioGpu R P Q) (q : Q) : VirtioGpu R P Q := set_fences g (fence_state g) q.

(** The loop of [process_ctl_queue]; [None] when the fuel is used up. *)
Fixpoint drain_ctl (fuel : nat) (g : VirtioGpu R P Q) (completed : list (Z * Z))
    : option (VirtioGpu R P Q * list (Z * Z)) :=
  match fuel with
  | O => None
  | S fuel =>
      match pop_ctl (signal g) with
      | (q, None) => Some (set_signal g q, completed)
      | (q, Some (desc_index, chain)) =>
          let '(g, how) := process_chain (set_signal g q) chain in
          let '(g, used) := retire_chain g desc_index how in
          drain_ctl fuel g (completed ++ used)
      end
  end.

(** The flag: was anything retired? *)
Definition process_ctl_queue (fuel : nat) (g : VirtioGpu R P Q) : option (VirtioGpu R P Q * bool) :=
  '(g, completed) ← drain_ctl fuel g [];
  match completed with
  | [] => Some (g, false)
  | _ => Some (set_signal g (complete_ctl (signal g) completed), true)
  end.

End Worker.

(** * The device's queue *)

Section Queues.
Context {M Rt : Type} {HM : GuestMemory M} {HRt : MsiRouter Rt}.

(** [Queues]: memory, the control queue, the interrupt table, and the eventfds
    signalled so far. *)
Record Queues := { qu_mem : M; ctl : QState; qu_msix : MsixTable Rt; qu_signalled : list Z }.

Definition queues_pop_ctl (q : Queues) : Queues * option (Z * list Desc) :=
  if negb (enabled (ctl q)) || (desc (ctl q) =? 0) then (q, None)
  else
    let '(c, popped) := pop_avail (qu_mem q) (ctl q) in
    ({| qu_mem := qu_mem q; ctl := c; qu_msix := qu_msix q; qu_signalled := qu_signalled q |}, popped).

Definition queues_complete_ctl (q : Queues) (completed : list (Z * Z)) : Queues :=
  match completed with
  | [] => q
  | _ =>
      let mem := foldl (fun mem hl => (push_used mem (ctl q) hl.1 hl.2).1) (qu_mem q) completed in
      let '(t, fds) := trigger (qu_msix q) (vec (ctl q)) in
      {| qu_mem := mem; ctl := ctl q; qu_msix := t; qu_signalled := qu_signalled q ++ fds |}
  end.

Definition queues_ctl_has_work (q : Queues) : bool :=
  enabled (ctl q) && negb (desc (ctl q) =? 0) && has_avail (qu_mem q) (ctl q).

#[export] Instance Queues_gpu : GpuQueues M Queues := {
  queue_mem := qu_mem;
  with_queue_mem q m := {| qu_mem := m; ctl := ctl q; qu_msix := qu_msix q; qu_signalled := qu_signalled q |};
  pop_ctl := queues_pop_ctl;
  complete_ctl := queues_complete_ctl;
  ctl_has_work := queues_ctl_has_work
}.

End Queues.

Arguments Queues : clear implicits.
