(* ===== verification/GpuWorkerFacts.v ===== *)
(** The dispatcher over whole runs, with the renderer's fence callbacks coming
    in between any two of its steps: what the GPU keeps for the guest stays
    consistent, whatever commands the guest sends. *)

From S2P Require Import Prelude GuestMem Virtqueue Msix GpuVram HostMapper GpuEdid GpuChain GpuWire.
From S2P Require Import GpuProtocol GpuBackend GpuWorker GpuChainFacts GpuProtocolFacts GpuBackendFacts.

(** * Runs *)

Section Runs.
Context {M R P Q : Type} {HM : GuestMemory M} {HR : Rutabaga R} {HC : RutabagaConsts}
  {HP : HostMemoryMapper P} {HQ : GpuQueues M Q}.
Context (shm : VirtioShmRegion).

(** The worker in the middle of a drain: what it has collected to retire, and
    the chain it has answered but not retired yet. *)
Record Run := {
  gpu : VirtioGpu R P Q;
  batch : list (Z * Z);
  current : option (Z * Retire)
}.

(** The context a chain's command asks to destroy. *)
Definition destroyed_by (g : VirtioGpu R P Q) (chain : list Desc) : option Z :=
  match Reader_new (queue_mem (signal g)) chain with
  | inr reader =>
      match (decode reader).2 with
      | inr (hdr, CtxDestroy _) => Some (h_ctx_id hdr)
      | _ => None
      end
  | inl _ => None
  end.

Inductive event :=
  | Answered (destroyed : option Z)
  | Recorded
  | Flushed
  | Signalled (f : RutabagaFence).

Inductive run_step : Run -> event -> Run -> Prop :=
  | step_answer g b q i chain g' how :
      pop_ctl (signal g) = (q, Some (i, chain)) ->
      process_chain shm (set_signal g q) chain = (g', how) ->
      run_step {| gpu := g; batch := b; current := None |}
        (Answered (destroyed_by (set_signal g q) chain))
        {| gpu := g'; batch := b; current := Some (i, how) |}
  | step_record g b i how g' used :
      retire_chain g i how = (g', used) ->
      run_step {| gpu := g; batch := b; current := Some (i, how) |} Recorded
        {| gpu := g'; batch := b ++ used; current := None |}
  | step_flush g b q :
      pop_ctl (signal g) = (q, None) ->
      run_step {| gpu := g; batch := b; current := None |} Flushed
        {| gpu := match b with
                  | [] => set_signal g q
                  | _ => set_signal (set_signal g q) (complete_ctl q b)
                  end;
           batch := []; current := None |}
  | step_signal st f :
      run_step st (Signalled f)
        {| gpu := fence_handler (gpu st) f; batch := batch st; current := current st |}.

Inductive run_trace : Run -> list event -> Run -> Prop :=
  | trace_nil st : run_trace st [] st
  | trace_cons st e st' es st'' : run_step st e st' -> run_trace st' es st'' -> run_trace st (e :: es) st''.

Lemma run_trace_app st es st' es' st'' :
  run_trace st es st' -> run_trace st' es' st'' -> run_trace st (es ++ es') st''.
Proof. induction 1; simpl; [done|]. intros. econstructor; eauto. Qed.

Lemma run_trace_split st es es' st'' :
  run_trace st (es ++ es') st'' -> exists st', run_trace st es st' /\ run_trace st' es' st''.
Proof.
  revert st. induction es as [|e es IH]; intros st H; [exists st; by split; [constructor|]|].
  inversion H as [|? ? st1 ? ? Hs Ht]; subst. destruct (IH _ Ht) as (st' & H1 & H2).
  exists st'. split; [by econstructor|done].
Qed.

(** The loop of the source is a run with no callback in it. *)
Lemma drain_is_run fuel g b g' b' :
  drain_ctl shm fuel g b = Some (g', b') ->
  exists es g0 q, run_trace {| gpu := g; batch := b; current := None |} es
                    {| gpu := g0; batch := b'; current := None |} /\
    pop_ctl (signal g0) = (q, None) /\ g' = set_signal g0 q.
Proof.
  revert g b. induction fuel as [|fuel IH]; intros g b; simpl; [done|].
  destruct (pop_ctl (signal g)) as [q [[i chain]|]] eqn:Ep.
  - destruct (process_chain shm (set_signal g q) chain) as [g1 how] eqn:Ec.
    destruct (retire_chain g1 i how) as [g2 used] eqn:Er. intros H.
    destruct (IH _ _ H) as (es & g0 & q0 & Ht & Hp & Hg).
    exists (Answered (destroyed_by (set_signal g q) chain) :: Recorded :: es), g0, q0.
    split; [|done]. econstructor; [by econstructor|]. econstructor; [by econstructor|done].
  - intros [= <- <-]. exists [], g, q. split; [constructor|done].
Qed.

Lemma process_ctl_queue_is_run fuel g g' any :
  process_ctl_queue shm fuel g = Some (g', any) ->
  exists es, run_trace {| gpu := g; batch := []; current := None |} (es ++ [Flushed])
               {| gpu := g'; batch := []; current := None |}.
Proof.
  unfold process_ctl_queue. destruct (drain_ctl shm fuel g []) as [[g1 b]|] eqn:Ed; simpl; [|done].
  apply drain_is_run in Ed as (es & g0 & q & Ht & Hp & ->). intros H. exists es.
  eapply run_trace_app; [exact Ht|]. econstructor; [by apply step_flush|].
  destruct b; simplify_eq; constructor.
Qed.

(** * What one command may change *)

Lemma reader_bytes `{HL : !GuestMemoryLaws M} mem chain r :
  Reader_new mem chain = inr r -> Forall is_byte (unread r).
Proof.
  unfold Reader_new. destruct (copy_readable mem chain 0 []) as [e|d] eqn:E; [done|]. intros [= <-].
  unfold unread. simpl. rewrite drop_0.
  assert (forall chain total data out, Forall is_byte data ->
    copy_readable mem chain total data = inr out -> Forall is_byte out) as Hgen.
  { clear - HL. induction chain as [|[[a n] f] chain IH]; intros total data out Hd; simpl; [by intros [= <-]|].
    destruct (is_write_only _); [by intros [= <-]|]. destruct (checked_add _ _ _); [|done].
    destruct (_ <? _); [done|]. destruct (read_slice mem a _) as [b|] eqn:Eb; [|done].
    apply IH, Forall_app_2; [done|]. by eapply read_bytes. }
  by eapply Hgen; [constructor|].
Qed.

(** An operation that leaves the fences and the queue alone. *)
Definition quiet (g g' : VirtioGpu R P Q) : Prop := fence_state g' = fence_state g /\ signal g' = signal g.

Ltac quiet_op := repeat (simpl; case_match; simplify_eq/=); done.

Lemma withdraw_quiet g r a : quiet g (withdraw_mapping g r a).1.
Proof. unfold withdraw_mapping. by destruct (if placed r then _ else _). Qed.

Lemma release_quiet g r i : quiet g (release_external g r i).
Proof. unfold release_external. by destruct (rutabaga_external_mapping r). Qed.

Lemma detach_quiet g o s : quiet g (detach_scanout g o s).
Proof. unfold detach_scanout. quiet_op. Qed.

Lemma place_quiet g i a n : quiet g (place g i a n).1.
Proof. unfold place. quiet_op. Qed.

Lemma publish_quiet g i a n : quiet g (publish_slot g i a n).1.
Proof. unfold publish_slot. quiet_op. Qed.

Lemma scanout_quiet g s i : quiet g (set_scanout g s i).1.
Proof.
  unfold set_scanout. destruct (scanouts g !! _) as [o|]; [|done].
  pose proof (detach_quiet g o s) as Hd. destruct (i =? 0); [done|]. simpl. by destruct (_ !! i).
Qed.

Lemma map_quiet g i o : quiet g (resource_map_blob g i shm o).1.
Proof.
  unfold resource_map_blob. destruct (resources g !! i) as [r|]; [|done]. destruct (shmem_offset r); [done|].
  destruct (try_map _ _) as [w [e|]]; [done|]. simpl. destruct (rb_map_info _ _); [|done].
  destruct (_ <? _); [done|].
  pose proof (place_quiet (set_window g w) i (shm_guest_addr shm ⊕ o) (r_size r)) as [H1 H2].
  destruct (place _ _ _ _) as [g1 []]; [done|].
  pose proof (publish_quiet g1 i (shm_guest_addr shm ⊕ o) (r_size r)) as [H3 H4].
  destruct (publish_slot _ _ _ _) as [g2 []]; simpl in *; split; simpl; congruence.
Qed.

Lemma unmap_quiet g i : quiet g (resource_unmap_blob g i shm).1.
Proof.
  unfold resource_unmap_blob. destruct (resources g !! i) as [r|]; [|done]. destruct (mapped_at r shm) as [a|]; [|done].
  pose proof (withdraw_quiet g r a) as [H1 H2]. destruct (withdraw_mapping _ _ _) as [g1 []]; [|done].
  pose proof (release_quiet g1 r i) as [H3 H4]. simpl in *. split; simpl; congruence.
Qed.

Lemma unref_quiet g i : quiet g (unref_resource g i shm).1.
Proof.
  unfold unref_resource. destruct (resources g !! i) as [r|]; [|done]. destruct (has_any_enabled _); [done|].
  assert (forall g1, quiet g g1 -> quiet g (let g := set_resources g1 (delete i (resources g1)) in
    let '(r, ok) := rb_unref (rutabaga g) i in
    let g := set_rutabaga g r in
    if ok : bool then (set_vram g (fun a => release_resource a i), inr OkNoData)
    else (g, inl ErrRutabaga) : VirtioGpu R P Q * VirtioGpuResult).1) as Hlast.
  { intros g1 H1. simpl. by destruct (rb_unref _ _) as [r' []]. }
  destruct (mapped_at r shm) as [a|]; [|by apply Hlast].
  pose proof (withdraw_quiet g r a) as [H1 H2]. destruct (withdraw_mapping _ _ _) as [g1 []]; [|done].
  pose proof (release_quiet g1 r i) as [H3 H4]. apply Hlast. simpl in *. split; simpl; congruence.
Qed.

(** Commands leave fences and queue alone, but for destroying a context. *)
Lemma command_quiet g hdr cmd r :
  (forall c, cmd <> CtxDestroy c) -> quiet g (process_gpu_command shm g hdr cmd r).1.
Proof.
  intros Hd. destruct cmd; try done; cbn [process_gpu_command]; try (exfalso; by eapply Hd).
  all: try apply (scanout_quiet (set_rutabaga g _)); try apply (map_quiet (set_rutabaga g _));
    try apply (unmap_quiet (set_rutabaga g _)); try apply (unref_quiet (set_rutabaga g _)).
  all: unfold resource_create_3d, do_create_blob, resource_create_blob, do_attach_backing, attach_backing,
    create_context, do_submit, read_submission, submit_command; quiet_op.
Qed.

(** ** What a run keeps *)

Section Keep.
Context {HL : GuestMemoryLaws M}.
Context (I : VirtioGpu R P Q -> Prop).
Context (I_fences : forall g fs q, I g -> I (set_fences g fs q)).
Context (I_create_fence : forall g f, I g -> I (create_fence g f).1).
Context (I_command : forall g hdr cmd r,
  command_valid cmd -> I g -> I (process_gpu_command shm g hdr cmd r).1).

Lemma fence_command_keeps g hdr resp : I g -> I (fence_command g hdr resp).1.1.1.
Proof.
  intros H. unfold fence_command. destruct hdr as [h|]; [|done]. destruct (has_bits _ _); [|done].
  set (f := {| f_flags := _ |}). pose proof (I_create_fence g f H).
  by destruct (create_fence g f) as [g1 []].
Qed.

Lemma process_chain_keeps g chain : I g -> I (process_chain shm g chain).1.
Proof.
  intros H. unfold process_chain. destruct (Reader_new _ _) as [|reader] eqn:Er; [done|].
  destruct (Writer_new chain) as [|writer]; [done|]. apply reader_bytes in Er.
  pose proof (peek_same (T := virtio_gpu_ctrl_hdr) reader) as Hp.
  destruct (peek_obj _ reader) as [reader' peeked]. simpl in Hp. subst reader'.
  destruct (decode reader) as [reader1 decoded] eqn:Ed.
  assert (I (match decoded with
             | inr (hdr, cmd) => let '(g, resp) := process_gpu_command shm g hdr cmd reader1 in (g, Some hdr, resp)
             | inl _ => (g, peeked, inl ErrUnspec)
             end).1.1) as H1.
  { destruct decoded as [|[hdr cmd]]; [done|]. apply decode_inv in Ed as (_ & _ & Hv & _); [|done].
    pose proof (I_command g hdr cmd reader1 Hv H). by destruct (process_gpu_command _ _ _ _ _). }
  destruct (match decoded with inl _ => _ | inr _ => _ end) as [[g1 hdr] resp].
  destruct (_ =? 0); [done|].
  pose proof (fence_command_keeps g1 hdr (match resp with inr r => r | inl r => r end) H1) as H2.
  destruct (fence_command _ _ _) as [[[g2 resp'] failed] [[[flags fence_id] ctx_id] ring_idx]].
  destruct (encode _ _ _ _ _ _ _) as [[mem w] out].
  destruct (has_bits _ _ && _); by apply I_fences.
Qed.

Lemma retire_chain_keeps g i how : I g -> I (retire_chain g i how).1.
Proof.
  intros H. destruct how as [len|ring id len]; [done|]. simpl. unfold process_fence.
  destruct (_ <=? _); [done|]. by apply I_fences.
Qed.

Lemma run_step_keeps st e st' : run_step st e st' -> I (gpu st) -> I (gpu st').
Proof.
  intros [g b q i chain g' how Hp Hc|g b i how g' used Hr|g b q Hp|st0 f] H; simpl in *.
  - pose proof (process_chain_keeps (set_signal g q) chain (I_fences _ _ _ H)). by rewrite Hc in *.
  - pose proof (retire_chain_keeps g i how H). by rewrite Hr in *.
  - destruct b; by repeat apply I_fences.
  - unfold fence_handler. destruct (signal_fence _ _) as [fs [|d l]]; by apply I_fences.
Qed.

Lemma run_keeps st es st' : run_trace st es st' -> I (gpu st) -> I (gpu st').
Proof. induction 1; eauto using run_step_keeps. Qed.

End Keep.

End Runs.

(** * The books *)

Section Books.
Context {M R P Q : Type} {HM : GuestMemory M} {HL : GuestMemoryLaws M} {HR : Rutabaga R}
  {HC : RutabagaConsts} {HP : HostMemoryMapper P} {HQ : GpuQueues M Q}.
Context {live : R -> gset Z} {HRL : RutabagaLaws R live}.
Context {slots : P -> gset Z} {HPL : HostMemoryMapperLaws P slots}.
Context (shm : VirtioShmRegion) (lim max : Z).
Context (reliable : Prop) (Hrel : reliable -> forall p a n, a ∈ slots p -> (hm_unmap p a n).2 = true).
Implicit Types (g : VirtioGpu R P Q).

Abbreviation inv := (gpu_inv (live := live) (slots := slots) shm lim max reliable).

Lemma set_fences_inv g fs q : inv g -> inv (set_fences g fs q).
Proof. intros H. by eapply gpu_inv_frame. Qed.

Lemma command_inv g hdr cmd r : command_valid cmd -> inv g -> inv (process_gpu_command shm g hdr cmd r).1.
Proof.
  intros Hv H0. unfold process_gpu_command.
  pose proof (gpu_inv_frame (live := live) (slots := slots) shm lim max reliable g
    (set_rutabaga g (rb_force_ctx_0 (rutabaga g))) H0 eq_refl eq_refl eq_refl (force_live _)) as H.
  set (g1 := set_rutabaga g _) in *. clearbody g1. clear H0 g.
  destruct cmd; try done.
  - by apply resource_create_3d_inv.
  - by apply unref_resource_inv.
  - by apply set_scanout_inv.
  - apply rendered_inv; [done|apply transfer_live].
  - unfold do_attach_backing. repeat case_match; try done. by apply attach_backing_inv.
  - apply rendered_inv; [done|apply detach_backing_live].
  - by apply create_context_inv.
  - by apply destroy_context_inv.
  - apply rendered_inv; [done|apply context_attach_live].
  - apply rendered_inv; [done|apply context_detach_live].
  - by apply resource_create_3d_inv.
  - apply rendered_inv; [done|apply transfer_live].
  - unfold do_submit. repeat case_match; try done; by apply submit_command_inv.
  - unfold do_create_blob. repeat case_match; try done. apply resource_create_blob_inv; try done.
    destruct Hv as [_ Hw]. by destruct (Forall2_lookup_lr _ _ _ 5 _ _ Hw eq_refl eq_refl).
  - by apply resource_map_blob_inv.
  - by apply resource_unmap_blob_inv.
Qed.

(** Every run from a new device keeps the books. *)
Lemma run_inv r p q ds n v es st :
  slots p = ∅ ->
  run_trace shm {| gpu := VirtioGpu_new r p q ds n v lim max; batch := []; current := None |} es st ->
  inv (gpu st).
Proof.
  intros Hp Hrun. eapply (run_keeps shm inv); [..|exact Hrun|].
  - apply set_fences_inv.
  - apply create_fence_inv.
  - apply command_inv.
  - by apply VirtioGpu_new_inv.
Qed.

(** Whatever commands a guest sends, and whatever the renderer and the kernel
    refuse, the window's books are exact: the bytes charged are the sizes of the
    resources that are mapped, the mappings counted are those resources, and both
    stay within the limits the device was built with. *)
Theorem window_books_exact r p q ds n v es st :
  0 < lim < 2 ^ 64 - 1 -> 0 < max < 2 ^ 32 -> slots p = ∅ ->
  run_trace shm {| gpu := VirtioGpu_new r p q ds n v lim max; batch := []; current := None |} es st ->
  let g := gpu st in
  q_used (window g) = sum_map window_bytes (resources g) /\ q_used (window g) <= lim /\
  mappings (window g) = sum_map window_count (resources g) /\ mappings (window g) <= max.
Proof. intros Hl Hm Hp Hrun. apply run_inv in Hrun as (_ & (_ & _ & _ & Hq) & _); [|done]. by apply Hq. Qed.

(** C14: No memory slot outlives its resource: over any run of a device with any
    limits on its window or none, every guest address
    with a slot belongs to a resource the device still has, which records that
    mapping, and releasing or unmapping a resource goes through removing the
    slot.  When the kernel takes back every slot it is asked to, the slots are
    exactly the mappings the resources record, one resource each. *)
Theorem slots_have_owners r p q ds n v es st :
  slots p = ∅ ->
  run_trace shm {| gpu := VirtioGpu_new r p q ds n v lim max; batch := []; current := None |} es st ->
  let g := gpu st in
  (forall a, a ∈ slots (mapper g) -> exists i, owns shm (resources g) i a) /\
  (reliable ->
   (forall i a, owns shm (resources g) i a -> a ∈ slots (mapper g)) /\
   (forall i j a, owns shm (resources g) i a -> owns shm (resources g) j a -> i = j)).
Proof. intros Hp Hrun. by apply run_inv in Hrun as (_ & _ & ?). Qed.

End Books.

(** * Scanouts *)

Section Scanouts.
Context {M R P Q : Type} {HM : GuestMemory M} {HL : GuestMemoryLaws M} {HR : Rutabaga R}
  {HC : RutabagaConsts} {HP : HostMemoryMapper P} {HQ : GpuQueues M Q}.
Context (shm : VirtioShmRegion).
Implicit Types (g : VirtioGpu R P Q).

Lemma scan_added g g1 i n :
  scan_inv g -> scanouts g1 = scanouts g -> resources g1 = resources g -> scan_inv (add_resource g1 i n).
Proof.
  intros H E1 E2. eapply (scan_inv_insert g _ i (VirtioGpuResource_new n)); [done|done| |by left].
  simpl. by rewrite E2.
Qed.

Lemma create_blob_scan g x i c v : scan_inv g -> scan_inv (resource_create_blob g x i c v).1.
Proof.
  intros H. unfold resource_create_blob. destruct (has_bits _ _); [done|].
  destruct (if negb _ then _ else _); [done|]. destruct (rb_create_blob _ _ _ _ _) as [r []]; simpl; [|by eapply scan_inv_same].
  by eapply scan_added.
Qed.

Lemma place_scan g i a n :
  scanouts (place g i a n).1 = scanouts g /\ resources (place g i a n).1 = resources g.
Proof. unfold place. destruct (hm_host_addr _ _ _); [|done]. by destruct (rb_map_fixed _ _ _). Qed.

Lemma publish_scan g i a n :
  scanouts (publish_slot g i a n).1 = scanouts g /\ resources (publish_slot g i a n).1 = resources g.
Proof.
  unfold publish_slot. destruct (rb_map _ _) as [r [[h k]|]]; [|done]. destruct (k <? n); [done|]. simpl.
  by destruct (hm_map _ _ _ _) as [p []].
Qed.

Lemma map_blob_scan g i o : scan_inv g -> scan_inv (resource_map_blob g i shm o).1.
Proof.
  intros H. unfold resource_map_blob. destruct (resources g !! i) as [r|] eqn:Er; [|done].
  destruct (shmem_offset r); [done|]. destruct (try_map _ _) as [w [e|]]; [by eapply scan_inv_same|]. simpl.
  destruct (rb_map_info _ _); [|by eapply scan_inv_same]. destruct (_ <? _); [by eapply scan_inv_same|].
  pose proof (place_scan (set_window g w) i (shm_guest_addr shm ⊕ o) (r_size r)) as [H1 H2].
  destruct (place _ _ _ _) as [g1 pl]. simpl in *.
  assert (forall g2 b, scanouts g2 = scanouts g -> resources g2 = resources g ->
    scan_inv (set_resources g2 (<[i := with_mapping r (Some o) (negb b) b]> (resources g2)))) as Hset.
  { intros g2 b E1 E2. eapply (scan_inv_insert g); [done|done|simpl; by rewrite E2|]. right. by exists r. }
  destruct pl; [by apply (Hset g1 true)|].
  pose proof (publish_scan g1 i (shm_guest_addr shm ⊕ o) (r_size r)) as [H3 H4].
  destruct (publish_slot _ _ _ _) as [g2 []]; simpl in *; [apply (Hset g2 false); congruence|].
  eapply scan_inv_same; [done|congruence..].
Qed.

Lemma release_scan g r i :
  scanouts (release_external g r i) = scanouts g /\ resources (release_external g r i) = resources g.
Proof. unfold release_external. by destruct (rutabaga_external_mapping r). Qed.

Lemma unmap_blob_scan g i : scan_inv g -> scan_inv (resource_unmap_blob g i shm).1.
Proof.
  intros H. unfold resource_unmap_blob. destruct (resources g !! i) as [r|] eqn:Er; [|done].
  destruct (mapped_at r shm) as [a|]; [|done]. destruct (withdraw_mapping _ _ _) as [g1 ok] eqn:Ew.
  apply withdraw_frame in Ew as (E1 & _ & _ & E2 & _). destruct ok; [|by eapply scan_inv_same].
  simpl. destruct (release_scan g1 r i) as [H1 H2].
  eapply (scan_inv_insert g _ i (with_mapping r None false false)); simpl; [done|congruence|congruence|].
  right. by exists r.
Qed.

Lemma deleted_scan g g1 i :
  scan_inv g -> scanouts g1 = scanouts g -> resources g1 = delete i (resources g) -> scan_inv g1.
Proof.
  intros H E1 E2. eapply scan_inv_frame; [done..|]. rewrite E2. intros j r [_ Hj]%lookup_delete_Some. right. eauto.
Qed.

Lemma unref_scan g i : scan_inv g -> scan_inv (unref_resource g i shm).1.
Proof.
  intros H. unfold unref_resource. destruct (resources g !! i) as [r|] eqn:Er; [|done].
  destruct (has_any_enabled _); [done|].
  set (mid := match mapped_at r shm with Some a => _ | None => _ end).
  assert (scanouts mid.1 = scanouts g /\ resources mid.1 = resources g) as [H1 H2].
  { subst mid. destruct (mapped_at r shm) as [a|]; [|done]. destruct (withdraw_mapping _ _ _) as [g1 ok] eqn:Ew.
    apply withdraw_frame in Ew as (E1 & _ & _ & E2 & _). destruct ok; simpl; [|done].
    destruct (release_scan g1 r i). split; congruence. }
  clearbody mid. destruct mid as [g1 ok]. simpl in *. destruct ok; simpl; [|by eapply scan_inv_same].
  destruct (rb_unref _ _) as [r' []]; (eapply deleted_scan; [done|done|by rewrite H2]).
Qed.

Lemma command_scan g hdr cmd r :
  command_valid cmd -> scan_inv g -> scan_inv (process_gpu_command shm g hdr cmd r).1.
Proof.
  intros Hv H0. unfold process_gpu_command.
  pose proof (scan_inv_same g (set_rutabaga g (rb_force_ctx_0 (rutabaga g))) H0 eq_refl eq_refl) as H.
  set (g1 := set_rutabaga g _) in *. clearbody g1. clear H0 g.
  destruct cmd; try done; try by eapply scan_inv_same.
  - unfold resource_create_3d. destruct (rb_create_3d _ _ _) as [r' []]; simpl; [by eapply scan_added|by eapply scan_inv_same].
  - by apply unref_scan.
  - apply set_scanout_shows; [|done]. destruct Hv as [_ Hw].
    by destruct (Forall2_lookup_lr _ _ _ 4 _ _ Hw eq_refl eq_refl).
  - unfold do_attach_backing, attach_backing. repeat case_match; done || by eapply scan_inv_same.
  - unfold create_context. destruct (rb_create_context _ _ _ _) as [r' []]; by eapply scan_inv_same.
  - unfold destroy_context. destruct (rb_destroy_context _ _) as [r' []]; [|by eapply scan_inv_same]. simpl.
    destruct (retire_frame (set_rutabaga g1 r') (h_ctx_id hdr)) as (E1 & _ & _ & _ & E2). by eapply scan_inv_same.
  - unfold resource_create_3d. destruct (rb_create_3d _ _ _) as [r' []]; simpl; [by eapply scan_added|by eapply scan_inv_same].
  - unfold do_submit. repeat case_match; try done. unfold submit_command. destruct (rb_submit _ _ _ _).
    by eapply scan_inv_same.
  - unfold do_create_blob. repeat case_match; try done. by apply create_blob_scan.
  - by apply map_blob_scan.
  - by apply unmap_blob_scan.
Qed.

(** A scanout shows what the resources say: over any run, a resource has the
    bit of a scanout set only while that scanout shows it, so at most one
    resource has it, and a resource with any bit set is refused to be
    released. *)
Theorem scanout_bits_agree r p q ds n v lim max es st :
  run_trace shm {| gpu := VirtioGpu_new r p q ds n v lim max; batch := []; current := None |} es st ->
  let g := gpu st in
  forall i res, resources g !! i = Some res ->
  (forall s, 0 <= s -> Z.testbit (r_scanouts res) s = true ->
     s < VIRTIO_GPU_MAX_SCANOUTS /\ scanouts g !! Z.to_nat s = Some (Some i)) /\
  (r_scanouts res <> 0 -> unref_resource g i shm = (g, inl ErrUnspec)).
Proof.
  intros Hrun g i res Hi.
  assert (scan_inv g) as [_ Hf].
  { eapply (run_keeps shm scan_inv); [..|exact Hrun|].
    - intros. by eapply scan_inv_same.
    - intros g0 f ?. unfold create_fence. destruct (rb_create_fence _ _). by eapply scan_inv_same.
    - apply command_scan.
    - split; [done|apply map_Forall_empty]. }
  split; [by apply (Hf i res)|]. intros Hne. unfold unref_resource. rewrite Hi. unfold has_any_enabled.
  by rewrite (proj2 (Z.eqb_neq _ _)).
Qed.

End Scanouts.
