(* ===== verification/GpuFences.v ===== *)
(** Fences and the chains that wait for them.  The control queue is wrapped so
    that it remembers what was taken from it and what was handed back
    ([Logged]); over any run of the dispatcher, with the renderer's callbacks in
    between, no chain is lost or handed back twice, and one whose fence has
    signalled is handed back. *)

From S2P Require Import Prelude GuestMem Virtqueue Msix GpuVram HostMapper GpuEdid GpuChain GpuWire.
From S2P Require Import GpuProtocol GpuBackend GpuWorker GpuChainFacts GpuProtocolFacts GpuBackendFacts.
From S2P Require Import GpuWorkerFacts.

(** * A queue that remembers *)

Record Logged (Q : Type) := { inner : Q; popped : list Z; retired : list (Z * Z) }.
Arguments Build_Logged {Q} _ _ _.
Arguments inner {Q} _.
Arguments popped {Q} _.
Arguments retired {Q} _.

#[export] Instance Logged_queues {M Q : Type} {HQ : GpuQueues M Q} : GpuQueues M (Logged Q) := {
  queue_mem l := queue_mem (inner l);
  with_queue_mem l m := {| inner := with_queue_mem (inner l) m; popped := popped l; retired := retired l |};
  pop_ctl l :=
    let '(q, c) := pop_ctl (inner l) in
    ({| inner := q; popped := popped l ++ from_option (fun x => [x.1]) [] c; retired := retired l |}, c);
  complete_ctl l c :=
    {| inner := complete_ctl (inner l) c; popped := popped l; retired := retired l ++ c |};
  ctl_has_work l := ctl_has_work (inner l)
}.

Lemma filter_negb_perm {A} (f : A -> bool) (l : list A) :
  filter (fun x => f x = true) l ++ filter (fun x => negb (f x) = true) l ≡ₚ l.
Proof.
  induction l as [|x l IH]; [done|]. rewrite !filter_cons. destruct (f x); repeat case_decide; try done; simpl.
  - by rewrite IH.
  - by rewrite <- Permutation_middle, IH.
Qed.

Section Fences.
Context {M R P : Type} {HM : GuestMemory M} {HL : GuestMemoryLaws M} {HR : Rutabaga R}
  {HC : RutabagaConsts} {HP : HostMemoryMapper P}.
Context (shm : VirtioShmRegion).

(** * What one chain does to the fences *)

Section Effect.
Context {Q : Type} {HQ : GpuQueues M Q}.
Implicit Types (g : VirtioGpu R P Q).

#[global] Instance quiet_preorder : PreOrder (@quiet R P Q).
Proof. split; [by intros g|]. intros g1 g2 g3 [H1 H2] [H3 H4]. split; congruence. Qed.

Lemma retire_quiet g h x : quiet g h -> quiet (retire_context_fences g x) (retire_context_fences h x).
Proof.
  intros [H1 H2]. unfold retire_context_fences. rewrite H1, H2.
  by destruct (drop_context_fences _ _) as [fs [|d l]].
Qed.

Lemma destroy_effect g x :
  quiet g (destroy_context g x).1 \/ quiet (retire_context_fences g x) (destroy_context g x).1.
Proof.
  unfold destroy_context. destruct (rb_destroy_context _ _) as [r []]; [right|by left]. simpl.
  by apply (retire_quiet g (set_rutabaga g r)).
Qed.

Lemma fence_command_quiet g hdr resp : quiet g (fence_command g hdr resp).1.1.1.
Proof.
  unfold fence_command, create_fence. destruct hdr as [h|]; [|done]. destruct (has_bits _ _); [|done].
  destruct (rb_create_fence _ _) as [r []]; done.
Qed.

(** Memory once some response was written to a chain. *)
Definition answered_in (chain : list Desc) (m mem : M) : Prop :=
  exists writer resp flags fence_id ctx_id ring_idx, Writer_new chain = inr writer /\
    mem = (encode resp flags fence_id ctx_id ring_idx m writer).1.1.

(** A chain leaves the fences alone, or drops those of the context it destroys;
    then the response is written. *)
Lemma process_chain_effect g chain :
  exists g1,
    (quiet g g1 \/ exists x, destroyed_by g chain = Some x /\ quiet (retire_context_fences g x) g1) /\
    (quiet g1 (process_chain shm g chain).1 \/
     exists mem, answered_in chain (queue_mem (signal g1)) mem /\
       quiet (set_signal g1 (with_queue_mem (signal g1) mem)) (process_chain shm g chain).1).
Proof.
  unfold process_chain, destroyed_by. destruct (Reader_new _ _) as [|reader] eqn:Er; [by exists g; split; left|].
  destruct (Writer_new chain) as [|writer] eqn:Ew; [by exists g; split; left|].
  pose proof (peek_same (T := virtio_gpu_ctrl_hdr) reader) as Hp.
  destruct (peek_obj _ reader) as [reader' peeked]. simpl in Hp. subst reader'.
  destruct (decode reader) as [reader1 decoded] eqn:Ed.
  set (answer := match decoded with
             | inr (hdr, cmd) => let '(g, resp) := process_gpu_command shm g hdr cmd reader1 in (g, Some hdr, resp)
             | inl _ => (g, peeked, inl ErrUnspec)
             end).
  exists answer.1.1. split.
  - subst answer. destruct decoded as [|[hdr cmd]]; [by left|].
    assert ((exists c, cmd = CtxDestroy c) \/ forall c, cmd <> CtxDestroy c) as [[c ->]|Hne]
      by (destruct cmd; first [by left; eexists|by right]).
    + cbn [process_gpu_command]. set (g0 := set_rutabaga g _).
      destruct (destroy_effect g0 (h_ctx_id hdr)) as [Hq|Hq]; destruct (destroy_context _ _) as [g1 resp];
        [by left|right]. exists (h_ctx_id hdr). split; [done|]. etrans; [by apply (retire_quiet g g0)|done].
    + left. pose proof (command_quiet shm g hdr cmd reader1 Hne). by destruct (process_gpu_command _ _ _ _ _).
  - destruct answer as [[g1 hdr] resp]. destruct (_ =? 0); [by left|].
    pose proof (fence_command_quiet g1 hdr (match resp with inr r => r | inl r => r end)) as Hq.
    destruct (fence_command _ _ _) as [[[g2 resp'] failed] [[[flags fence_id] ctx_id] ring_idx]].
    destruct (encode resp' flags fence_id ctx_id ring_idx _ writer) as [[mem w] out] eqn:Ee.
    destruct Hq as [H1 H2]. simpl in *. right. exists mem. split.
    + exists writer, resp', flags, fence_id, ctx_id, ring_idx. split; [done|]. by rewrite <- H2, Ee.
    + destruct (has_bits _ _ && _); split; simpl; congruence.
Qed.

End Effect.

(** * No chain is lost *)

Section Account.
Context {Q : Type} {HQ : GpuQueues M Q}.
Implicit Types (g : VirtioGpu R P (Logged Q)) (st : Run (R := R) (P := P) (Q := Logged Q)).

Definition handed g : list (Z * Z) := retired (signal g).
Definition waiting g : list FenceDescriptor := descs (fence_state g).

(** Chains move from waiting to handed back, and none is taken. *)
Definition moved g g' : Prop :=
  popped (signal g') = popped (signal g) /\
  handed g' ++ (used_of <$> waiting g') ≡ₚ handed g ++ (used_of <$> waiting g) /\
  handed g ⊆ handed g' /\
  (forall d, d ∈ waiting g -> d ∈ waiting g' \/ used_of d ∈ handed g').

#[global] Instance moved_preorder : PreOrder moved.
Proof.
  split; [by intros g; split_and!; eauto|]. intros g1 g2 g3 (H1 & H2 & H3 & H4) (H5 & H6 & H7 & H8).
  split_and!; [congruence|by rewrite H6|set_solver|]. intros d [?|?]%H4; [by apply H8|right; by apply H7].
Qed.

Lemma quiet_moved g g' : quiet g g' -> moved g g'.
Proof. intros [H1 H2]. unfold moved, handed, waiting. rewrite H1, H2. split_and!; eauto. Qed.

Lemma memory_moved g mem : moved g (set_signal g (with_queue_mem (signal g) mem)).
Proof. split_and!; eauto. Qed.

(** [out] are handed back and [fs] are the fences left. *)
Definition hand_back g (fs : FenceState) (out : list FenceDescriptor) : VirtioGpu R P (Logged Q) :=
  match out with
  | [] => set_fences g fs (signal g)
  | _ => set_fences g fs (complete_ctl (signal g) (used_of <$> out))
  end.

Lemma fence_handler_hands g f :
  fence_handler g f = hand_back g (signal_fence (fence_state g) f).1 (signal_fence (fence_state g) f).2.
Proof. done. Qed.

Lemma retire_hands g x :
  retire_context_fences g x =
    hand_back g (drop_context_fences (fence_state g) x).1 (drop_context_fences (fence_state g) x).2.
Proof. done. Qed.

(** Some of the waiting chains are completed, the rest keep waiting. *)
Lemma complete_moved g fs out :
  out ++ descs fs ≡ₚ waiting g ->
  moved g (hand_back g fs out).
Proof.
  intros Hp.
  assert ((handed g ++ (used_of <$> out)) ++ (used_of <$> descs fs) ≡ₚ handed g ++ (used_of <$> waiting g)) as H
    by (by rewrite <- app_assoc, <- fmap_app, Hp).
  assert (forall d, d ∈ waiting g -> d ∈ descs fs \/ used_of d ∈ handed g ++ (used_of <$> out)) as Hd.
  { intros d Hd. rewrite <- Hp in Hd. apply elem_of_app in Hd as [Hd|Hd]; [right|by left].
    by apply elem_of_app; right; apply list_elem_of_fmap_2. }
  destruct out as [|d out]; [rewrite app_nil_r in H, Hd|]; split_and!; try done. set_solver.
Qed.

Lemma retire_moved g x : moved g (retire_context_fences g x).
Proof.
  rewrite retire_hands. apply complete_moved, (filter_negb_perm (fun d => on_context x (fd_ring d))).
Qed.

Lemma signal_moved g f : moved g (fence_handler g f).
Proof.
  rewrite fence_handler_hands. apply complete_moved. simpl. apply filter_negb_perm.
Qed.

Lemma process_chain_moved g chain : moved g (process_chain shm g chain).1.
Proof.
  destruct (process_chain_effect g chain) as (g1 & H1 & H2). transitivity g1.
  - destruct H1 as [?%quiet_moved|(x & _ & ?%quiet_moved)]; [done|]. etrans; [apply retire_moved|done].
  - destruct H2 as [?%quiet_moved|(mem & _ & ?%quiet_moved)]; [done|]. etrans; [apply memory_moved|done].
Qed.

(** Every chain the worker has, somewhere. *)
Definition held st : list Z :=
  (handed (gpu st)).*1 ++ (batch st).*1 ++ from_option (fun c => [c.1]) [] (current st) ++
  (fd_desc_index <$> waiting (gpu st)).

Definition accounted st : Prop := popped (signal (gpu st)) ≡ₚ held st.

Lemma moved_index g g' :
  moved g g' -> (handed g').*1 ++ (fd_desc_index <$> waiting g') ≡ₚ (handed g).*1 ++ (fd_desc_index <$> waiting g).
Proof.
  intros (_ & H & _). apply (fmap_Permutation fst) in H. rewrite !fmap_app, <- !list_fmap_compose in H. exact H.
Qed.

Lemma held_split st :
  held st ≡ₚ ((handed (gpu st)).*1 ++ (fd_desc_index <$> waiting (gpu st))) ++ (batch st).*1 ++
             from_option (fun c => [c.1]) [] (current st).
Proof. unfold held. rewrite <- !app_assoc. apply Permutation_app_head. by rewrite (app_assoc (batch st).*1), Permutation_app_comm. Qed.

Lemma accounted_moved st st' :
  accounted st -> moved (gpu st) (gpu st') -> batch st' = batch st -> current st' = current st -> accounted st'.
Proof.
  intros Ha Hm Hb Hc. unfold accounted in *. rewrite held_split in *. rewrite (proj1 Hm), Hb, Hc.
  by rewrite (moved_index _ _ Hm).
Qed.

Lemma pop_logged g q c :
  pop_ctl (signal g) = (q, c) ->
  popped q = popped (signal g) ++ from_option (fun x => [x.1]) [] c /\ retired q = retired (signal g).
Proof. simpl. destruct (pop_ctl (inner (signal g))). by intros [= <- <-]. Qed.

Lemma record_held g i how g' used :
  retire_chain g i how = (g', used) ->
  popped (signal g') = popped (signal g) /\ handed g' = handed g /\
  used.*1 ++ (fd_desc_index <$> waiting g') ≡ₚ i :: (fd_desc_index <$> waiting g).
Proof.
  destruct how as [len|ring id len]; simpl; [by intros [= <- <-]|]. unfold process_fence.
  destruct (_ <=? _); intros [= <- <-]; [done|]. simpl. split_and!; [done..|].
  unfold waiting. simpl. rewrite fmap_app. simpl. by rewrite Permutation_app_comm.
Qed.

Lemma step_accounted st e st' : run_step shm st e st' -> accounted st -> accounted st'.
Proof.
  intros [g b q i chain g' how Hp Hc|g b i how g' used Hr|g b q Hp|st0 f] H.
  - assert (moved (set_signal g q) g') as Hm 
      by (pose proof (process_chain_moved (set_signal g q) chain) as Hm; by rewrite Hc in Hm).
    apply (accounted_moved {| gpu := set_signal g q; batch := b; current := Some (i, how) |}); [|done..].
    apply pop_logged in Hp as [Hp1 Hp2]. unfold accounted, held, handed, waiting in *. simpl in *.
    rewrite Hp1, Hp2, H. rewrite <- !app_assoc. do 2 apply Permutation_app_head.
    apply Permutation_app_comm.
  - apply record_held in Hr as (E1 & E2 & E3). unfold accounted, held in *. simpl in *.
    rewrite E1, E2, H. apply Permutation_app_head. rewrite fmap_app, <- app_assoc. apply Permutation_app_head.
    simpl. by rewrite E3.
  - apply pop_logged in Hp as [Hp1 Hp2]. simpl in Hp1. rewrite app_nil_r in Hp1.
    unfold accounted, held, handed, waiting in *. simpl in *.
    destruct b as [|u b]; simpl in *; rewrite Hp1, Hp2; [done|]. rewrite H, fmap_app. simpl. by rewrite <- app_assoc.
  - apply (accounted_moved st0); [done| |done..]. apply signal_moved.
Qed.

(** C5: No chain the worker takes from the control queue is lost or handed back
    twice: over any run, with the renderer's callbacks in between, what was
    taken is what was handed back, what is about to be, the chain in hand and
    the chains waiting for a fence, each counted once; at rest nothing is in
    hand. *)
Theorem ctl_chains_accounted r p q ds n v lim max es st :
  let st0 := {| gpu := VirtioGpu_new r p {| inner := q; popped := []; retired := [] |} ds n v lim max;
                batch := []; current := None |} in
  run_trace shm st0 es st ->
  popped (signal (gpu st)) ≡ₚ
    (handed (gpu st)).*1 ++ (batch st).*1 ++ from_option (fun c => [c.1]) [] (current st) ++
    (fd_desc_index <$> waiting (gpu st)) /\
  (forall es', es = es' ++ [Flushed] -> batch st = [] /\ current st = None).
Proof.
  intros st0 Hrun. split.
  - assert (accounted st0) as H by (by apply perm_nil). clearbody st0.
    induction Hrun; [done|]. eauto using step_accounted.
  - intros es' ->. apply run_trace_split in Hrun as (st1 & _ & Hf).
    inversion Hf as [|? ? st2 ? ? Hs Hn]; subst. inversion Hn; subst. by inversion Hs; subst.
Qed.

(** * A signalled fence releases its chains *)

Definition done_up_to g (ring : VirtioGpuRing) : Z := default 0 (completed_fences (fence_state g) !! ring).

(** Where a chain that waits for fence [id] of [ring] is, [signalled] saying
    whether that fence has completed since and [flushed] whether the worker has
    finished a pass since. *)
Definition whereabouts (ring : VirtioGpuRing) (id i len : Z) (signalled flushed : Prop) st : Prop :=
  (i, len) ∈ handed (gpu st) \/
  (current st = Some (i, RetireOnFence ring id len) /\ (signalled -> id <= done_up_to (gpu st) ring) /\ ~ flushed) \/
  ({| fd_ring := ring; fd_fence_id := id; fd_desc_index := i; fd_len := len |} ∈ waiting (gpu st) /\ ~ signalled) \/
  ((i, len) ∈ batch st /\ ~ flushed).

Definition covers (ring : VirtioGpuRing) (id : Z) (e : event) : Prop :=
  exists f, e = Signalled f /\ ring_of (f_flags f) (f_ctx_id f) (f_ring_idx f) = ring /\ id <= f_fence_id f.

Lemma hand_back_handed g fs out d : d ∈ out -> used_of d ∈ handed (hand_back g fs out).
Proof.
  intros Hd. destruct out as [|d' out]; [by apply not_elem_of_nil in Hd|].
  apply elem_of_app. right. by apply list_elem_of_fmap_2.
Qed.

(** The callback hands back every chain whose fence it covers. *)
Lemma signal_releases g f d :
  d ∈ waiting g -> fd_ring d = ring_of (f_flags f) (f_ctx_id f) (f_ring_idx f) -> fd_fence_id d <= f_fence_id f ->
  used_of d ∈ handed (fence_handler g f).
Proof.
  intros Hd Hr Hle. rewrite fence_handler_hands. apply hand_back_handed, list_elem_of_filter.
  split; [|done]. rewrite bool_decide_true by done. simpl. by apply Z.leb_le.
Qed.

(** ... and remembers how far the ring has come. *)
Lemma signal_done g f ring :
  done_up_to (fence_handler g f) ring =
    if decide (ring = ring_of (f_flags f) (f_ctx_id f) (f_ring_idx f))
    then Z.max (done_up_to g ring) (f_fence_id f) else done_up_to g ring.
Proof.
  rewrite fence_handler_hands. unfold done_up_to, hand_back. destruct (signal_fence _ _).2; simpl.
  all: case_decide as H; [subst ring; by rewrite lookup_insert_eq|by rewrite lookup_insert_ne].
Qed.

(** Recording a chain: its fence is done, or it waits. *)
Lemma record_whereabouts g ring id i len g' used :
  retire_chain g i (RetireOnFence ring id len) = (g', used) ->
  (used = [(i, len)] /\ g' = g) \/
  (used = [] /\ done_up_to g ring < id /\
   {| fd_ring := ring; fd_fence_id := id; fd_desc_index := i; fd_len := len |} ∈ waiting g').
Proof.
  simpl. unfold process_fence. fold (done_up_to g ring). destruct (_ <=? _) eqn:E; intros [= <- <-]; [by left|].
  right. bool_prop. split_and!; [done|done|]. unfold waiting. simpl. set_solver.
Qed.

Lemma record_keeps g i how g' used :
  retire_chain g i how = (g', used) -> handed g' = handed g /\ waiting g ⊆ waiting g'.
Proof.
  destruct how as [len|ring id len]; simpl; [by intros [= <- <-]|]. unfold process_fence.
  destruct (_ <=? _); intros [= <- <-]; [done|]. split; [done|]. unfold waiting. simpl. set_solver.
Qed.

Lemma step_whereabouts ring id i len signalled flushed st e st' :
  run_step shm st e st' -> whereabouts ring id i len signalled flushed st ->
  whereabouts ring id i len (signalled \/ covers ring id e) (flushed \/ e = Flushed) st'.
Proof.
  intros [g b q j chain g' how Hp Hc|g b j how g' used Hr|g b q Hp|st0 f] H; unfold whereabouts in *; simpl in *.
  - pose proof (process_chain_moved (set_signal g q) chain) as Hm. rewrite Hc in Hm.
    destruct Hm as (_ & _ & Hh & Hw). apply pop_logged in Hp as [_ Hp].
    assert (handed (set_signal g q) = handed g) as Eh by done. rewrite Eh in Hh.
    destruct H as [H|[[[=] _]|[[H Hns]|[H Hnf]]]].
    + left. by apply Hh.
    + destruct (Hw _ H) as [?|?]; [|by left]. right; right; left. split; [done|].
      intros [?|(f & [=] & _)]; done.
    + right; right; right. split; [done|]. intros [?|[=]]; done.
  - destruct H as [H|[(H & Hd & Hnf)|[[H Hns]|[H Hnf]]]].
    + left. by rewrite (proj1 (record_keeps _ _ _ _ _ Hr)).
    + simplify_eq. apply record_whereabouts in Hr as [[-> ->]|(-> & Hlt & Hin)].
      * right; right; right. split; [set_solver|]. intros [?|[=]]; done.
      * right; right; left. split; [done|]. intros [Hs|(f & [=] & _)]. specialize (Hd Hs). lia.
    + right; right; left. split; [by apply (proj2 (record_keeps _ _ _ _ _ Hr))|].
      intros [?|(f & [=] & _)]; done.
    + right; right; right. split; [set_solver|]. intros [?|[=]]; done.
  - apply pop_logged in Hp as [_ Hp]. assert (retired q = handed g) as Eh by done.
    assert (handed g ⊆ handed (match b with [] => set_signal g q
      | _ => set_signal (set_signal g q) (complete_ctl q b) end) /\
      b ⊆ handed (match b with [] => set_signal g q
      | _ => set_signal (set_signal g q) (complete_ctl q b) end)) as [Hh Hb].
    { unfold handed in *. destruct b; simpl in *; rewrite Eh; set_solver. }
    destruct H as [H|[[[=] _]|[[H Hns]|[H Hnf]]]].
    + left. by apply Hh.
    + right; right; left. split; [by destruct b|]. intros [?|(f & [=] & _)]; done.
    + left. by apply Hb.
  - pose proof (signal_moved (gpu st0) f) as (_ & _ & Hh & Hw).
    destruct H as [H|[(H & Hd & Hnf)|[[H Hns]|[H Hnf]]]].
    + left. by apply Hh.
    + right; left. split_and!; [done| |intros [?|[=]]; done]. rewrite signal_done.
      intros [Hs|(f' & [= <-] & <- & Hle)]; [specialize (Hd Hs); case_decide; lia|]. rewrite decide_True by done. lia.
    + destruct (decide (ring = ring_of (f_flags f) (f_ctx_id f) (f_ring_idx f) /\ id <= f_fence_id f)) as [[Hr Hle]|Hn].
      * left. by apply (signal_releases _ _ _ H).
      * destruct (Hw _ H) as [?|?]; [|by left]. right; right; left. split; [done|].
        intros [?|(f' & [= <-] & ? & ?)]; [done|]. by apply Hn.
    + right; right; right. split; [done|]. intros [?|[=]]; done.
Qed.

Lemma whereabouts_iff ring id i len s s' f f' st :
  (s' <-> s) -> (f' <-> f) -> whereabouts ring id i len s f st -> whereabouts ring id i len s' f' st.
Proof. unfold whereabouts. tauto. Qed.

Lemma run_whereabouts ring id i len signalled flushed st es st' :
  run_trace shm st es st' -> whereabouts ring id i len signalled flushed st ->
  whereabouts ring id i len (signalled \/ Exists (covers ring id) es) (flushed \/ Flushed ∈ es) st'.
Proof.
  intros Hrun. revert signalled flushed. induction Hrun as [st|st e st1 es st2 Hs Hrun IH]; intros s f H.
  - eapply whereabouts_iff; [..|exact H]; [rewrite Exists_nil|rewrite elem_of_nil]; tauto.
  - apply (step_whereabouts _ _ _ _ _ _ _ _ _ Hs), IH in H.
    eapply whereabouts_iff; [..|exact H]; [rewrite Exists_cons|rewrite elem_of_cons]; naive_solver.
Qed.

(** C13: A fenced command is answered: once the renderer has signalled its fence,
    or a later one of the same ring, and the worker has finished the pass it was
    in, the chain has been handed back to the driver with the length of its
    response, in whatever order the two happen, also when the fence signals
    before the chain is recorded as waiting for it. *)
Theorem fenced_chain_returns st es st' i ring id len :
  current st = Some (i, RetireOnFence ring id len) ->
  run_trace shm st es st' ->
  Exists (covers ring id) es -> Flushed ∈ es ->
  (i, len) ∈ handed (gpu st').
Proof.
  intros Hc Hrun Hs Hf.
  assert (whereabouts ring id i len False False st) as H by (right; left; tauto).
  apply (run_whereabouts _ _ _ _ _ _ _ _ _ Hrun) in H. unfold whereabouts in H. tauto.
Qed.

End Account.
End Fences.
