(* ===== verification/GpuRun.v ===== *)
(** Runs of the GPU's dispatcher that can be executed, over a small renderer, a
    queue that is a list of chains, and the real memory slots over a kernel that
    grants every call; and the theorems about the GPU at work on them. *)

From S2P Require Import Prelude GuestMem Virtqueue MemSlots MemSlotsFacts Msix GpuVram HostMapper.
From S2P Require Import GpuEdid GpuChain GpuWire GpuProtocol GpuBackend GpuWorker GpuChainFacts.
From S2P Require Import GpuProtocolFacts GpuBackendFacts GpuWorkerFacts GpuFences.

(** * Runs by execution *)

Section Exec.
Context {M R P Q : Type} {HM : GuestMemory M} {HR : Rutabaga R} {HC : RutabagaConsts}
  {HP : HostMemoryMapper P} {HQ : GpuQueues M Q}.
Context (shm : VirtioShmRegion).

Inductive move := DoAnswer | DoRecord | DoFlush | DoSignal (f : RutabagaFence).

(** One step, when the state allows it. *)
Definition exec1 (st : Run) (m : move) : option (event * Run (R := R) (P := P) (Q := Q)) :=
  match m, current st with
  | DoSignal f, c => Some (Signalled f, {| gpu := fence_handler (gpu st) f; batch := batch st; current := c |})
  | DoRecord, Some (i, how) =>
      Some (Recorded, {| gpu := (retire_chain (gpu st) i how).1;
                         batch := batch st ++ (retire_chain (gpu st) i how).2; current := None |})
  | DoAnswer, None =>
      match pop_ctl (signal (gpu st)) with
      | (q, Some (i, chain)) =>
          let g := set_signal (gpu st) q in
          Some (Answered (destroyed_by g chain),
                {| gpu := (process_chain shm g chain).1; batch := batch st;
                   current := Some (i, (process_chain shm g chain).2) |})
      | (_, None) => None
      end
  | DoFlush, None =>
      match pop_ctl (signal (gpu st)) with
      | (q, None) =>
          Some (Flushed, {| gpu := match batch st with
                                   | [] => set_signal (gpu st) q
                                   | b => set_signal (set_signal (gpu st) q) (complete_ctl q b)
                                   end;
                            batch := []; current := None |})
      | (_, Some _) => None
      end
  | _, _ => None
  end.

(** The moves that are possible, up to the first that is not. *)
Fixpoint exec (st : Run) (ms : list move) : list event * Run (R := R) (P := P) (Q := Q) :=
  match ms with
  | [] => ([], st)
  | m :: ms =>
      match exec1 st m with
      | Some (e, st) => let '(es, st) := exec st ms in (e :: es, st)
      | None => ([], st)
      end
  end.

Lemma exec1_step st m e st' : exec1 st m = Some (e, st') -> run_step shm st e st'.
Proof.
  destruct st as [g b c]. unfold exec1. simpl. destruct m, c as [[i how]|]; intros H; simplify_eq/=;
    try by apply (step_signal shm {| gpu := g; batch := b; current := _ |}).
  - destruct (pop_ctl (signal g)) as [q [[i chain]|]] eqn:E; simplify_eq.
    eapply step_answer; [done|]. by destruct (process_chain _ _ _).
  - apply step_record. by destruct (retire_chain _ _ _).
  - destruct (pop_ctl (signal g)) as [q [c|]] eqn:E; simplify_eq.
    pose proof (step_flush shm g b q E) as Hf. by destruct b.
Qed.

Lemma exec_trace st ms : run_trace shm st (exec st ms).1 (exec st ms).2.
Proof.
  revert st. induction ms as [|m ms IH]; intros st; simpl; [constructor|].
  destruct (exec1 st m) as [[e st1]|] eqn:E; [|constructor]. specialize (IH st1).
  destruct (exec st1 ms) as [es st2]. simpl in *. econstructor; [by apply exec1_step in E|done].
Qed.

End Exec.

(** * A renderer, a kernel and a queue *)

(** The ids it holds; it maps nothing in the window and everything at one
    address. *)
Definition Ids : Type := gset Z.

#[export] Instance Ids_renderer : Rutabaga Ids := {
  rb_force_ctx_0 r := r;
  rb_create_3d r i _ := if decide (i ∈ r) then (r, false) else ({[i]} ∪ r, true);
  rb_create_blob r _ i _ _ := if decide (i ∈ r) then (r, false) else ({[i]} ∪ r, true);
  rb_unref r i := (r ∖ {[i]}, true);
  rb_info r i := None;
  rb_transfer_write r _ _ _ := (r, true);
  rb_attach_backing r _ _ := (r, true);
  rb_detach_backing r _ := (r, true);
  rb_capset_info r i := if i =? 0 then Some (1, 1, 308) else None;
  rb_capset r _ _ := None;
  rb_create_context r _ _ _ := (r, true);
  rb_destroy_context r _ := (r, true);
  rb_context_attach r _ _ := (r, true);
  rb_context_detach r _ _ := (r, true);
  rb_submit r _ _ _ := (r, true);
  rb_create_fence r _ := (r, true);
  rb_map_info r _ := Some 1;
  rb_map r _ := (r, Some (0x7f1000000000, 0x1000));
  rb_unmap r _ := (r, true);
  rb_map_fixed r _ _ := (r, -1)
}.

#[export] Instance Ids_laws : RutabagaLaws Ids (fun r => r).
Proof.
  split; simpl; intros; try done; try (case_decide; simplify_eq); set_solver.
Qed.

#[export] Instance Ids_consts : RutabagaConsts := {
  RUTABAGA_MAP_CACHE_MASK := 0x0f; RUTABAGA_PIPE_TEXTURE_2D := 2; RUTABAGA_PIPE_BIND_RENDER_TARGET := 2;
  Transfer3D_new_2d x y w h o := {| tr_x := x; tr_y := y; tr_z := 0; tr_w := w; tr_h := h; tr_d := 1;
    tr_level := 0; tr_stride := 0; tr_layer_stride := 0; tr_offset := o |}
}.

(** A kernel that grants every call. *)
#[export] Instance grants : Host unit := {
  reserve h _ := (h, Some 0x7f0000000000);
  unreserve h _ _ := h;
  overwrite h _ _ := (h, true);
  set_user_memory_region h _ _ _ _ := (h, true)
}.

Record ChainList := { cl_mem : FlatRam; chains : list (Z * list Desc); cl_done : list (Z * Z) }.

#[export] Instance ChainList_queues : GpuQueues FlatRam ChainList := {
  queue_mem := cl_mem;
  with_queue_mem q m := {| cl_mem := m; chains := chains q; cl_done := cl_done q |};
  pop_ctl q :=
    match chains q with
    | [] => (q, None)
    | c :: cs => ({| cl_mem := cl_mem q; chains := cs; cl_done := cl_done q |}, Some c)
    end;
  complete_ctl q c := {| cl_mem := cl_mem q; chains := chains q; cl_done := cl_done q ++ c |};
  ctl_has_work q := negb (bool_decide (chains q = []))
}.

(** * Three commands *)

Definition window_region : VirtioShmRegion := {| shm_guest_addr := 0x800000000; shm_size := 0x100000 |}.

Definition hdr_of (c : GpuCommand) (flags fence_id : Z) : virtio_gpu_ctrl_hdr :=
  {| h_type := command_type c; h_flags := flags; h_fence_id := fence_id; h_ctx_id := 0; h_ring_idx := 0;
     h_padding := [0; 0; 0] |}.

Definition wire (c : GpuCommand) (flags fence_id : Z) : list Z :=
  as_slice (hdr_of c flags fence_id) ++ command_bytes c.

Definition create7 : GpuCommand :=
  ResourceCreateBlob {| cb_resource_id := 7; cb_blob_mem := 2; cb_blob_flags := 1; cb_nr_entries := 0;
                        cb_blob_id := 0; cb_size := 0x1000 |}.
Definition map7 : GpuCommand := ResourceMapBlob {| mb_resource_id := 7; mb_padding := 0; mb_offset := 0x2000 |}.
Definition show7 : GpuCommand :=
  SetScanout {| ss_r := {| rect_x := 0; rect_y := 0; rect_width := 64; rect_height := 64 |};
                ss_scanout_id := 1; ss_resource_id := 7 |}.

(** The request of each at its own page, the response half a page on. *)
Definition gpu_chain (page : Z) (c : GpuCommand) : list Desc :=
  [(page, Z.of_nat (length (wire c 0 0)), 0); (page + 0x800, 0x200, 2)].

Definition gpu_ram : FlatRam :=
  let put m a c flags id := (ram_write m a (wire c flags id)).1 in
  put (put (put (ram_zero 0x10000) 0x1000 create7 0 0) 0x2000 map7 1 5) 0x3000 show7 0 0.

Definition ctl_queue : ChainList :=
  {| cl_mem := gpu_ram; cl_done := [];
     chains := [(3, gpu_chain 0x1000 create7); (4, gpu_chain 0x2000 map7); (6, gpu_chain 0x3000 show7)] |}.

Definition gpu0 : VirtioGpu Ids (MemorySlots unit) (Logged ChainList) :=
  VirtioGpu_new ∅ (MemorySlots_new tt 2) {| inner := ctl_queue; popped := []; retired := [] |} [] 8 None 0x10000 16.

Definition run0 : Run := {| gpu := gpu0; batch := []; current := None |}.

Definition fence5 : RutabagaFence := {| f_flags := 1; f_fence_id := 5; f_ctx_id := 0; f_ring_idx := 0 |}.

(** Everything, the fence of the second command signalling before it is
    recorded. *)
Definition all_moves : list move :=
  [DoAnswer; DoRecord; DoAnswer; DoSignal fence5; DoRecord; DoAnswer; DoRecord; DoFlush].

Definition run_end : Run := (exec window_region run0 all_moves).2.

Example run_end_state :
  let g := gpu run_end in
  handed g = [(3, 24); (4, 32); (6, 24)] /\ waiting g = [] /\
  q_used (window g) = 0x1000 /\ mappings (window g) = 1 /\
  slot_addrs (mapper g) = {[0x800002000]} /\ scanouts g !! 1%nat = Some (Some 7).
Proof. vm_compute. repeat split. Qed.

(** * The theorems at work *)

Lemma run_end_trace : run_trace window_region run0 (exec window_region run0 all_moves).1 run_end.
Proof. apply exec_trace. Qed.

Lemma granted : forall (s : MemorySlots unit) a n, a ∈ slot_addrs s -> (hm_unmap s a n).2 = true.
Proof. by apply unmap_reliable. Qed.

Lemma window_books_exact_witness :
  sum_map window_bytes (resources (gpu run_end)) = 0x1000 /\ q_used (window (gpu run_end)) <= 0x10000.
Proof.
  destruct (window_books_exact (slots := slot_addrs) (live := fun r : Ids => r) window_region 0x10000 16
    True (fun _ => granted) ∅ (MemorySlots_new tt 2) _ [] 8%nat None _ _ ltac:(lia) ltac:(lia) eq_refl run_end_trace)
    as (H1 & H2 & _).
  split; [rewrite <- H1; by vm_compute|exact H2].
Defined.

Lemma slots_have_owners_witness : owns window_region (resources (gpu run_end)) 7 0x800002000.
Proof.
  destruct (slots_have_owners (slots := slot_addrs) (live := fun r : Ids => r) window_region 0x10000 16
    True (fun _ => granted) ∅ (MemorySlots_new tt 2) _ [] 8%nat None _ _ eq_refl run_end_trace)
    as [H1 _].
  assert (slot_addrs (mapper (gpu run_end)) = {[0x800002000]}) as Hs by (vm_compute; reflexivity).
  destruct (H1 0x800002000) as (i & r & Hi & Hx & Ha); [rewrite Hs; by apply elem_of_singleton|].
  destruct (decide (i = 7)) as [->|Hne]; [exact (ex_intro _ r (conj Hi (conj Hx Ha)))|]. exfalso.
  assert (dom (resources (gpu run_end)) = {[7]}) as Hd by (vm_compute; reflexivity).
  apply elem_of_dom_2 in Hi. rewrite Hd in Hi. apply elem_of_singleton in Hi. exact (Hne Hi).
Defined.

Lemma scanout_bits_agree_witness :
  unref_resource (gpu run_end) 7 window_region = (gpu run_end, inl ErrUnspec).
Proof.
  assert (exists r, resources (gpu run_end) !! 7 = Some r /\ r_scanouts r = 2) as (r & Hr & Hs)
    by (eexists; split; [vm_compute; reflexivity|reflexivity]).
  refine (proj2 (scanout_bits_agree window_region _ _ _ _ _ _ _ _ _ _ run_end_trace 7 r Hr) _).
  rewrite Hs. discriminate.
Defined.

Lemma ctl_chains_accounted_witness : popped (signal (gpu run_end)) ≡ₚ [3; 4; 6].
Proof.
  destruct (ctl_chains_accounted window_region _ _ _ _ _ _ _ _ _ _ run_end_trace) as [H _].
  etrans; [exact H|]. vm_compute. reflexivity.
Defined.

(** The second command in hand, its fence not signalled yet. *)
Definition run_fenced : Run := (exec window_region run0 [DoAnswer; DoRecord; DoAnswer]).2.
Definition later_moves : list move := [DoRecord; DoAnswer; DoRecord; DoFlush; DoSignal fence5].

Lemma fenced_chain_returns_witness :
  (4, 32) ∈ handed (gpu (exec window_region run_fenced later_moves).2).
Proof.
  assert ((exec window_region run_fenced later_moves).1 =
    [Recorded; Answered None; Recorded; Flushed; Signalled fence5]) as He by (vm_compute; reflexivity).
  apply (fenced_chain_returns window_region run_fenced (exec window_region run_fenced later_moves).1 _ 4 Global 5 32).
  - vm_compute. reflexivity.
  - apply exec_trace.
  - rewrite He. clear He. do 4 right. left. by exists fence5.
  - rewrite He. clear He. set_solver.
Defined.

(** ** The wire *)

Lemma reader_holds_chain_witness :
  Reader_new gpu_ram (gpu_chain 0x2000 map7) = inr {| r_buf := wire map7 1 5; r_pos := 0 |}.
Proof.
  pose proof (reader_holds_chain gpu_ram (gpu_chain 0x2000 map7)) as H.
  assert (Forall (fun d : Desc => 0 <= d.1.2) (gpu_chain 0x2000 map7)) as Hn by (repeat constructor; done).
  specialize (H Hn). vm_compute in H. exact H.
Defined.

Lemma decode_exact_witness :
  decode {| r_buf := wire map7 1 5; r_pos := 0 |} =
    ({| r_buf := wire map7 1 5; r_pos := 40 |}, inr (hdr_of map7 1 5, map7)).
Proof.
  apply (decode_exact {| r_buf := wire map7 1 5; r_pos := 0 |} {| r_buf := wire map7 1 5; r_pos := 40 |}
    (hdr_of map7 1 5) map7).
  - vm_compute. repeat constructor; done.
  - split_and!; [by vm_compute; repeat constructor|done|by vm_compute; repeat constructor| |done].
    exists []. by vm_compute.
Defined.

Definition gpu_writer : Writer :=
  {| segments := [(0x2800, 0x20); (0x2900, 0x100)]; total_len := 0x120; write_pos := 0;
     bytes_written := 0 |}.

Lemma response_delivered_witness :
  exists mem' w', encode (OkMapInfo 1) 1 5 0 0 gpu_ram gpu_writer = (mem', w', inr 32) /\
    gather mem' (segments gpu_writer) =
      Some (splice (replicate 0x120 0) 0
              (as_slice (response_hdr VIRTIO_GPU_RESP_OK_MAP_INFO 1 5 0 0) ++ [1; 0; 0; 0; 0; 0; 0; 0])).
Proof.
  refine (proj1 (response_delivered (OkMapInfo 1) 1 5 0 0 gpu_ram gpu_writer (replicate 0x120 0) _ _) _).
  - split_and!; [|by vm_compute|done..].
    constructor; [split_and!; done| |constructor; [split_and!; done|done|constructor]].
    repeat constructor. simpl. unfold apart. lia.
  - done.
  - by vm_compute.
Defined.

(** ** A refused SET_SCANOUT *)

(** The scanout still names resource 7 while the resource no longer counts as
    shown, so it can be released from under it. *)
Example refused_scanout_detaches :
  let '(g, resp) := set_scanout (gpu run_end) 1 99 in
  resp = inl ErrInvalidResourceId /\ scanouts g !! 1%nat = Some (Some 7) /\
  (unref_resource g 7 window_region).2 = inr OkNoData.
Proof. vm_compute. repeat split. Qed.
