(* ===== verification/VirtioPci.v ===== *)
(** The registers of a virtio device on the PCI bus, as [net.rs], [vsock.rs],
    [fs.rs], [console.rs] and [gpu/device.rs] of [virtio-devices/src] each write
    them out: the common configuration with its queue registers, the interrupt
    status, the device configuration, the notification area and the MSI-X
    tables of BAR 0.  The class [VirtioModel] is what a device adds: its
    features, queues and configuration bytes, and what starting it, stopping it
    and kicking a queue do.

    [back] is the device's own state behind the registers, [rung] the eventfds
    signalled so far. *)

From S2P Require Import Prelude PciConfig PciBus GuestMem Virtqueue Msix.

Section Registers.
Context {R B : Type} {HR : MsiRouter R}.

(** [Inner] of each device. *)
Record Inner := {
  com : ComCfg;
  qs : Z;
  queues : list QState;
  isr : Z;
  cfg_vec : Z;
  msix : MsixTable R;
  cfg : list Z;
  msix_cap : Z;
  back : B;
  rung : list Z
}.

Definition set_com (i : Inner) (c : ComCfg) : Inner :=
  {| com := c; qs := qs i; queues := queues i; isr := isr i; cfg_vec := cfg_vec i; msix := msix i;
     cfg := cfg i; msix_cap := msix_cap i; back := back i; rung := rung i |}.
Definition set_qs (i : Inner) (n : Z) : Inner :=
  {| com := com i; qs := n; queues := queues i; isr := isr i; cfg_vec := cfg_vec i; msix := msix i;
     cfg := cfg i; msix_cap := msix_cap i; back := back i; rung := rung i |}.
Definition set_queues (i : Inner) (l : list QState) : Inner :=
  {| com := com i; qs := qs i; queues := l; isr := isr i; cfg_vec := cfg_vec i; msix := msix i;
     cfg := cfg i; msix_cap := msix_cap i; back := back i; rung := rung i |}.
Definition set_cfg_vec (i : Inner) (n : Z) : Inner :=
  {| com := com i; qs := qs i; queues := queues i; isr := isr i; cfg_vec := n; msix := msix i;
     cfg := cfg i; msix_cap := msix_cap i; back := back i; rung := rung i |}.
Definition set_irq (i : Inner) (status : Z) (t : MsixTable R) (fds : list Z) : Inner :=
  {| com := com i; qs := qs i; queues := queues i; isr := status; cfg_vec := cfg_vec i; msix := t;
     cfg := cfg i; msix_cap := msix_cap i; back := back i; rung := rung i ++ fds |}.
Definition set_cfg (i : Inner) (c : list Z) (t : MsixTable R) : Inner :=
  {| com := com i; qs := qs i; queues := queues i; isr := isr i; cfg_vec := cfg_vec i; msix := t;
     cfg := c; msix_cap := msix_cap i; back := back i; rung := rung i |}.
Definition set_back (i : Inner) (b : B) : Inner :=
  {| com := com i; qs := qs i; queues := queues i; isr := isr i; cfg_vec := cfg_vec i; msix := msix i;
     cfg := cfg i; msix_cap := msix_cap i; back := b; rung := rung i |}.

(** Signal eventfds. *)
Definition ring (i : Inner) (fds : list Z) : Inner := set_irq i (isr i) (msix i) fds.

Definition bind_interrupts (i : Inner) (vs : list MsiVector) (r : R) (fd : Z) : Inner :=
  set_irq i (isr i) (bind (msix i) vs r fd) [].

End Registers.

Arguments Inner : clear implicits.

(** * What a device adds *)

Class VirtioModel (R B : Type) := {
  features : B -> Z;
  (** As a reset leaves them; their number and the largest size. *)
  new_queues : list QState;
  QUEUE_SIZE : Z;
  (** The queue a selector value names. *)
  selects : Z -> nat;
  config_bytes : B -> list Z;
  (** On DRIVER_OK; an error is only logged. *)
  activate : Inner R B -> Inner R B;
  (** What a reset does to the device, before its registers. *)
  stop : Inner R B -> Inner R B;
  (** A write to a queue's notification register that the kernel did not answer. *)
  notify : Inner R B -> Z -> Inner R B
}.

(** [queues[(qs as usize).min(NUM_QUEUES - 1)]]. *)
Definition clamped (num_queues : nat) (sel : Z) : nat := Nat.min (Z.to_nat sel) (num_queues - 1).

(** [from_fn(|i| QState { size, vec: i, ..Default::default() })]. *)
Definition numbered_queues (num_queues : nat) (max : Z) : list QState :=
  (fun i => with_vec (with_size QState_default max) (Z.of_nat i)) <$> seq 0 num_queues.

Section Access.
Context {R B : Type} {HR : MsiRouter R} {HM : VirtioModel R B}.
Implicit Types (i : Inner R B).

Definition NUM_QUEUES : nat := length new_queues.

(** * Common configuration *)

(** The selected queue; a selector always names one of the queues. *)
Definition sq i : QState := default QState_default (queues i !! selects (qs i)).

Definition on_sq i (f : QState -> QState) : Inner R B :=
  match queues i !! selects (qs i) with
  | Some q => set_queues i (<[selects (qs i) := f q]> (queues i))
  | None => i
  end.

Definition vp_com_read i (off : Z) (len : nat) : list Z :=
  let q := sq i in
  write_val len
    (com_read (com i) off (features (back i)) (Z.of_nat NUM_QUEUES) (cfg_vec i) (qs i) (qsize q) (vec q)
       (if enabled q then 1 else 0) (qs i)
       (Z.land (desc q) 0xFFFFFFFF) (Z.shiftr (desc q) 32)
       (Z.land (avail q) 0xFFFFFFFF) (Z.shiftr (avail q) 32)
       (Z.land (used q) 0xFFFFFFFF) (Z.shiftr (used q) 32)).

Definition vp_reset i : Inner R B := set_qs (set_queues (stop i) new_queues) 0.

Definition vp_write_status i (v1 : Z) : Inner R B :=
  let c := com i in
  let i := set_com i {| dfs := dfs c; dff := dff c; df := df c; st := v1 |} in
  if v1 =? 0 then vp_reset i
  else if has_bits v1 STATUS_DRIVER_OK then activate i
  else i.

Definition vp_com_write i (off : Z) (data : list Z) : Inner R B :=
  let '(v3, v2, v1) := parse_write data in
  let c := com i in
  if off =? CFG_DEVICE_FEAT_SEL then set_com i {| dfs := v3; dff := dff c; df := df c; st := st c |}
  else if off =? CFG_DRIVER_FEAT_SEL then set_com i {| dfs := dfs c; dff := v3; df := df c; st := st c |}
  else if off =? CFG_DRIVER_FEAT then set_com i (write_driver_feature c v3)
  else if off =? CFG_MSIX_CONFIG then set_cfg_vec i v2
  else if off =? CFG_STATUS then vp_write_status i v1
  else if off =? CFG_QUEUE_SEL then set_qs i v2
  else if off =? CFG_QUEUE_SIZE then on_sq i (fun q => set_queue_size q v2 QUEUE_SIZE)
  else if off =? CFG_QUEUE_MSIX then on_sq i (fun q => with_vec q v2)
  else if off =? CFG_QUEUE_ENABLE then on_sq i (fun q => with_enabled q (negb (v2 =? 0)))
  else on_sq i (fun q => write_queue_addr q off v3).

(** * BAR 0 *)

Definition vp_bar0_read i (o : Z) (data : list Z) : Inner R B * list Z :=
  let len := length data in
  if o <? OFF_ISR then (i, vp_com_read i (o - OFF_COMMON) len)
  else if o <? OFF_DEVICE then
    match data with
    | [] => (i, data)
    | _ :: rest => (set_irq i 0 (msix i) [], isr i :: rest)
    end
  else if o <? OFF_NOTIFY then (i, read_window (config_bytes (back i)) (Z.to_nat (o - OFF_DEVICE)) len 0)
  else if o <? OFF_MSIX_TABLE then (i, replicate len 0)
  else if o <? OFF_MSIX_PBA then (i, Msix.read (msix i) (o - OFF_MSIX_TABLE) len)
  else if o <? BAR0_SIZE then (i, read_pba (msix i) (o - OFF_MSIX_PBA) len)
  else (i, replicate len 0).

(** A write to the MSI-X table, and the interrupt it may let through. *)
Definition vp_msix_write i (off : Z) (data : list Z) : Inner R B :=
  let '(t, deliver) := Msix.write (msix i) off data in
  set_irq i (isr i) t (if deliver then trigger_unmasked t (Z.to_nat (off / 16)) else []).

Definition vp_bar0_write i (o : Z) (data : list Z) : Inner R B :=
  if o <? OFF_ISR then vp_com_write i (o - OFF_COMMON) data
  else if o <? OFF_NOTIFY then i
  else if o <? OFF_MSIX_TABLE then notify i ((o - OFF_NOTIFY) / NOTIFY_MULT)
  else if o <? OFF_MSIX_PBA then vp_msix_write i (o - OFF_MSIX_TABLE) data
  else i.

Definition vp_write_config i (o : Z) (data : list Z) : Inner R B :=
  let c := write_msix_control (cfg i) (msix_cap i) o data in
  set_cfg i c (set_msix_on (msix i) (msix_enabled c (msix_cap i))).

(** * On the bus *)

(** One BAR of registers, and a doorbell per kick eventfd. *)
Definition kick_doorbells (fds : list Z) : list Doorbell :=
  imap (fun idx fd => {| door_bar_idx := 0; door_offset := OFF_NOTIFY + Z.of_nat idx * NOTIFY_MULT; door_fd := fd |}) fds.

Definition registers_pci (doors : B -> list Doorbell) : PciDevice (Inner R B) := {|
  read_config i o data := (i, read_cfg_space (cfg i) o (length data));
  write_config := vp_write_config;
  read_bar i bi o data :=
    if (bi =? 0)%nat then let '(i, out) := vp_bar0_read i o data in (i, out, true)
    else (i, data, false);
  write_bar i bi o data := if (bi =? 0)%nat then (vp_bar0_write i o data, true) else (i, false);
  bar_size _ bi := if (bi =? 0)%nat then BAR0_SIZE else 0;
  bar_type_of _ _ := Mem32;
  doorbells i := doors (back i)
|}.

(** Built: fresh registers around the device's state. *)
Definition vp_new (c : list Z) (cap : Z) (vectors : nat) (b : B) : Inner R B :=
  {| com := ComCfg_default; qs := 0; queues := new_queues; isr := 0; cfg_vec := VIRTQ_MSI_NO_VECTOR;
     msix := MsixTable_default vectors; cfg := c; msix_cap := cap; back := b; rung := [] |}.

End Access.

(** The notification area of a device that hands its queues to a kernel or to
    another process: the kick eventfd of the queue, if there is one. *)
Definition ring_kick {R B : Type} (kicks : B -> list Z) (i : Inner R B) (idx : Z) : Inner R B :=
  match kicks (back i) !! Z.to_nat idx with
  | Some fd => ring i [fd]
  | None => i
  end.
