(* ===== verification/VirtioPciFacts.v ===== *)
(** The virtio registers under every access a guest can make, for any device
    whose own operations keep to their part ([VirtioModelLaws]): the invariant,
    what a reset leaves, and the device's contract with the bus. *)

From S2P Require Import Prelude PciConfig PciBus PciBusFacts PciBusPaths GuestMem Virtqueue VirtqueueRun.
From S2P Require Import Msix MsixFacts VirtioPci.

(** * Queue registers *)

(** What a queue's registers can hold, [max] being the largest size. *)
Record qregs_ok (max : Z) (q : QState) : Prop := {
  qr_size : 0 <= qsize q <= max;
  qr_desc : is_word 64 (desc q);
  qr_avail : is_word 64 (avail q);
  qr_used : is_word 64 (used q);
  qr_vec : is_word 16 (vec q);
  qr_last : is_word 16 (last q)
}.

Lemma numbered_queues_ok n max : Z.of_nat n < 2 ^ 16 -> 0 <= max -> Forall (qregs_ok max) (numbered_queues n max).
Proof.
  intros Hn Hm. apply Forall_fmap, Forall_seq. intros j Hj. split; simpl; try done. unfold is_word. lia.
Qed.

Lemma addr_regs_ok max q off v : qregs_ok max q -> is_word 32 v -> qregs_ok max (write_queue_addr q off v).
Proof.
  intros [] Hv. unfold write_queue_addr.
  repeat (case_match; [split; simpl; try done;
    match goal with
    | |- is_word 64 (lo_half ?x _) => by apply (halves_word x v false)
    | |- is_word 64 (hi_half ?x _) => by apply (halves_word x v true)
    end|]).
  by split.
Qed.

Lemma size_regs_ok max q v : qregs_ok max q -> is_word 16 v -> qregs_ok max (set_queue_size q v max).
Proof.
  intros [] Hv. unfold set_queue_size. case_match; bool_prop; split; simpl; try done; unfold is_word in *; lia.
Qed.

(** * Devices that keep to their part *)

(** A queue the device has taken chains from. *)
Definition taken (q q' : QState) : Prop := q' = q \/ exists n, is_word 16 n /\ q' = with_last q n.

#[export] Instance taken_refl : Reflexive taken.
Proof. by left. Qed.

#[export] Instance taken_trans : Transitive taken.
Proof.
  intros q1 q2 q3 [->|(n & Hn & ->)] [->|(n' & Hn' & ->)]; [by left|right; by eexists|right; by eexists|].
  right. by exists n'.
Qed.

Lemma pop_avail_taken {M : Type} {HM : GuestMemory M} (m : M) q : taken q (pop_avail m q).1.
Proof.
  unfold pop_avail. repeat (case_match; try by left). right. eexists. split; [by apply wrap_range|done].
Qed.

Section Laws.
Context {R B : Type} {HR : MsiRouter R}.

(** What a device's own operations may change of the registers: the interrupt
    status, pending interrupts and how far queues are consumed. *)
Record keeps_regs (doors : B -> list Doorbell) (stat : B -> Prop) (i i' : Inner R B) : Prop := {
  kr_com : com i' = com i;
  kr_qs : qs i' = qs i;
  kr_queues : Forall2 taken (queues i) (queues i');
  kr_cfg_vec : cfg_vec i' = cfg_vec i;
  kr_cfg : cfg i' = cfg i;
  kr_cap : msix_cap i' = msix_cap i;
  kr_on : msix_on (msix i') = msix_on (msix i);
  kr_entries : length (entries (msix i')) = length (entries (msix i));
  kr_doors : doors (back i') = doors (back i);
  kr_stat : stat (back i) -> stat (back i')
}.

#[global] Instance keeps_regs_refl doors stat : Reflexive (keeps_regs doors stat).
Proof. intros i. by split. Qed.

End Laws.

(** [stat] is what the device keeps of its own state, for ever. *)
Class VirtioModelLaws (R B : Type) `{MsiRouter R} `{VirtioModel R B} (doors : B -> list Doorbell)
    (stat : B -> Prop) : Prop := {
  queue_size_word : 0 <= QUEUE_SIZE (R := R) (B := B) < 2 ^ 16;
  new_queues_ok : Forall (qregs_ok (QUEUE_SIZE (R := R) (B := B))) (new_queues (R := R) (B := B));
  activate_keeps (i : Inner R B) : keeps_regs doors stat i (activate i);
  stop_keeps (i : Inner R B) : keeps_regs doors stat i (stop i);
  notify_keeps (i : Inner R B) n : keeps_regs doors stat i (notify i n)
}.

Section Facts.
Context {R B : Type} {HR : MsiRouter R} {HM : VirtioModel R B}.
Context {doors : B -> list Doorbell} {stat : B -> Prop} {HL : VirtioModelLaws R B doors stat}.
Implicit Types (i : Inner R B).

Abbreviation max := (QUEUE_SIZE (R := R) (B := B)).

(** [i] is [i0] after some use. *)
Record vp_ok i0 i : Prop := {
  vo_queues : length (queues i) = length (queues i0);
  vo_regs : Forall (qregs_ok max) (queues i);
  vo_cfg_len : length (cfg i) = 256%nat;
  vo_cfg_bytes : Forall is_byte (cfg i);
  vo_cap : msix_cap i = msix_cap i0;
  vo_cfg : forall k, 0 <= k -> k <> msix_cap i0 + 3 -> cfg_byte (cfg i) k = cfg_byte (cfg i0) k;
  vo_msix : msix_on (msix i) = msix_enabled (cfg i) (msix_cap i);
  vo_entries : length (entries (msix i)) = length (entries (msix i0));
  vo_doors : doors (back i) = doors (back i0);
  vo_stat : stat (back i)
}.

(** Everything that acts on a device: the guest's accesses to its configuration
    space and to BAR 0, the wiring of its interrupts, and the device at work. *)
Inductive vp_step : Inner R B -> Inner R B -> Prop :=
  | vp_config i o data : 0 <= o -> vp_step i (vp_write_config i o data)
  | vp_read i o data : 0 <= o -> vp_step i (vp_bar0_read i o data).1
  | vp_write i o data : 0 <= o -> vp_step i (vp_bar0_write i o data)
  | vp_bind i vs r fd : vp_step i (bind_interrupts i vs r fd)
  | vp_work i i' : keeps_regs doors stat i i' -> vp_step i i'.

Lemma taken_all l l' :
  Forall (qregs_ok max) l -> Forall2 taken l l' -> Forall (qregs_ok max) l'.
Proof.
  intros H. induction 1 as [|q q' l l' Hq Hl IH]; [done|]. apply Forall_cons in H as [H1 H2].
  constructor; [|auto]. destruct Hq as [->|(n & Hn & ->)]; [done|]. destruct H1. by split.
Qed.

Lemma keeps_ok i0 i i' : vp_ok i0 i -> keeps_regs doors stat i i' -> vp_ok i0 i'.
Proof.
  intros [] []. split; try congruence.
  - erewrite <- Forall2_length by done. congruence.
  - by eapply taken_all.
  - intros k Hk Hne. rewrite kr_cfg0. by apply vo_cfg0.
  - auto.
Qed.

Lemma vp_ok_queues i0 i l :
  vp_ok i0 i -> length l = length (queues i) -> Forall (qregs_ok max) l -> vp_ok i0 (set_queues i l).
Proof. intros [] Hl Hr. split; simpl; try done. congruence. Qed.

Lemma on_sq_ok i0 i f :
  vp_ok i0 i -> (forall q, qregs_ok max q -> qregs_ok max (f q)) -> vp_ok i0 (on_sq i f).
Proof.
  intros Hi Hf. unfold on_sq. destruct (queues i !! _) as [q|] eqn:Eq; [|done].
  apply vp_ok_queues; [done|by rewrite length_insert|].
  apply Forall_insert; [apply Hi|]. apply Hf. by apply (Forall_lookup_1 _ _ _ _ (vo_regs _ _ Hi) Eq).
Qed.

(** A change to registers that nothing else depends on. *)
Lemma vp_ok_com i0 i c : vp_ok i0 i -> vp_ok i0 (set_com i c).
Proof. by intros []. Qed.

Lemma vp_ok_qs i0 i n : vp_ok i0 i -> vp_ok i0 (set_qs i n).
Proof. by intros []. Qed.

Lemma reset_ok i0 i : length (queues i0) = length (new_queues (R := R) (B := B)) -> vp_ok i0 i -> vp_ok i0 (vp_reset i).
Proof.
  intros H0 Hi. apply vp_ok_qs. pose proof (keeps_ok _ _ _ Hi (stop_keeps i)) as Hs.
  apply vp_ok_queues; [done| |apply new_queues_ok]. by rewrite (vo_queues _ _ Hs), H0.
Qed.

Lemma vp_com_write_ok i0 i off data :
  length (queues i0) = length (new_queues (R := R) (B := B)) -> vp_ok i0 i -> vp_ok i0 (vp_com_write i off data).
Proof.
  intros H0 Hi. unfold vp_com_write. destruct (parse_write data) as [[v3 v2] v1] eqn:E.
  assert (is_word 32 v3 /\ is_word 16 v2) as [H3 H2]
    by (unfold parse_write in E; simplify_eq; split; by apply wrap_range).
  do 3 (case_match; [by apply vp_ok_com|]). case_match; [by destruct Hi|].
  case_match.
  { unfold vp_write_status. set (i1 := set_com i _).
    assert (vp_ok i0 i1) as Hi1 by (by apply vp_ok_com). case_match; [by apply reset_ok|].
    case_match; [|done]. eapply keeps_ok; [done|]. apply activate_keeps. }
  case_match; [by apply vp_ok_qs|].
  case_match; [apply on_sq_ok; [done|]; intros; by apply size_regs_ok|].
  case_match; [apply on_sq_ok; [done|]; intros q []; by split|].
  case_match; [apply on_sq_ok; [done|]; intros q []; by split|].
  apply on_sq_ok; [done|]. intros. by apply addr_regs_ok.
Qed.

Lemma vp_ok_irq i0 i s t fds :
  vp_ok i0 i -> msix_on t = msix_on (msix i) -> length (entries t) = length (entries (msix i)) ->
  vp_ok i0 (set_irq i s t fds).
Proof. intros [] Ht Hl. split; simpl; try done; congruence. Qed.

Lemma msix_write_shape (t : MsixTable R) off data :
  msix_on (Msix.write t off data).1 = msix_on t /\
  length (entries (Msix.write t off data).1) = length (entries t).
Proof.
  destruct (write_cases t off data) as [[_ ->]|(_ & t' & -> & He & Ho & _)]; [done|].
  simpl. by rewrite Ho, He, length_insert.
Qed.

Lemma vp_bar0_write_ok i0 i o data :
  length (queues i0) = length (new_queues (R := R) (B := B)) -> vp_ok i0 i -> vp_ok i0 (vp_bar0_write i o data).
Proof.
  intros H0 Hi. unfold vp_bar0_write. case_match; [by apply vp_com_write_ok|]. case_match; [done|].
  case_match; [eapply keeps_ok; [done|]; apply notify_keeps|]. case_match; [|done].
  unfold vp_msix_write. destruct (msix_write_shape (msix i) (o - OFF_MSIX_TABLE) data) as [Hon Hlen].
  destruct (Msix.write _ _ _) as [t deliver]. by apply vp_ok_irq.
Qed.

Lemma vp_bar0_read_ok i0 i o data : vp_ok i0 i -> vp_ok i0 (vp_bar0_read i o data).1.
Proof.
  intros Hi. unfold vp_bar0_read. case_match; [done|].
  case_match; [destruct data; [done|by apply vp_ok_irq]|]. by repeat case_match.
Qed.

Lemma vp_write_config_ok i0 i o data :
  0 <= o -> 0 <= msix_cap i0 <= 250 -> vp_ok i0 i -> vp_ok i0 (vp_write_config i o data).
Proof.
  intros Ho Hc []. unfold vp_write_config, write_msix_control. split; simpl; try done.
  - by rewrite length_write_control.
  - by apply write_control_keeps_bytes.
  - intros k Hk Hne. unfold MSIX_MSG_CTL. rewrite write_control_spec by (done || lia).
    rewrite (proj2 (Z.eqb_neq k (msix_cap i + 2 + 1))) by lia. simpl. by apply vo_cfg0.
Qed.

Lemma vp_step_ok i0 i i' :
  0 <= msix_cap i0 <= 250 -> length (queues i0) = length (new_queues (R := R) (B := B)) ->
  vp_step i i' -> vp_ok i0 i -> vp_ok i0 i'.
Proof.
  intros Hc Hq [i1 o data Ho|i1 o data Ho|i1 o data Ho|i1 vs r fd|i1 i2 Hk] Hi.
  - by apply vp_write_config_ok.
  - by apply vp_bar0_read_ok.
  - by apply vp_bar0_write_ok.
  - by apply vp_ok_irq.
  - by eapply keeps_ok.
Qed.

Lemma vp_steps_ok i0 i i' :
  0 <= msix_cap i0 <= 250 -> length (queues i0) = length (new_queues (R := R) (B := B)) ->
  rtc vp_step i i' -> vp_ok i0 i -> vp_ok i0 i'.
Proof. intros Hc Hq Hr. induction Hr as [|i1 i2 i3 Hs _ IH]; [auto|]. eauto using vp_step_ok. Qed.

Lemma vp_new_ok c cap vectors b :
  length c = 256%nat -> Forall is_byte c -> msix_enabled c cap = false -> stat b ->
  vp_ok (vp_new c cap vectors b) (vp_new c cap vectors b).
Proof. intros. split; simpl; try done. apply new_queues_ok. Qed.

(** C15: The registers of a virtio device stay sane whatever the guest does.  From
    a freshly built device, after any sequence of configuration and BAR 0
    accesses of any offset and data and of the device's own work: there are as
    many queues as built, each with a size within the device's limit and
    addresses, vector and position of their registers' widths; the only
    configuration byte that can differ from the built one is the high byte of
    MSI-X Message Control, with which the interrupt table's enable flag agrees;
    the doorbells are as declared.  Writing zero to the status register at any
    point puts the queues and the selector back as built. *)
Theorem virtio_registers_invariant c cap vectors b i :
  length c = 256%nat -> Forall is_byte c -> 0 <= cap <= 250 -> msix_enabled c cap = false -> stat b ->
  let i0 := vp_new c cap vectors b in
  rtc vp_step i0 i ->
  vp_ok i0 i /\ (forall data, let i' := vp_com_write i CFG_STATUS data in
    (parse_write data).2 = 0 -> queues i' = queues i0 /\ qs i' = qs i0 /\ vp_ok i0 i').
Proof.
  intros Hc Hb Hcap Hoff Hst i0 Hr.
  assert (vp_ok i0 i) as Hi.
  { refine (vp_steps_ok i0 i0 i Hcap eq_refl Hr _). by apply vp_new_ok. }
  split; [done|]. intros data i' Hz. unfold i'.
  assert (vp_ok i0 (vp_com_write i CFG_STATUS data)) as Hi' by (by apply vp_com_write_ok).
  unfold vp_com_write in *. destruct (parse_write data) as [[v3 v2] v1]. simpl in Hz. subst v1. by split_and!.
Qed.

(** ** The contract with the bus *)

Lemma vp_com_write_doors i off data : doors (back (vp_com_write i off data)) = doors (back i).
Proof.
  unfold vp_com_write. destruct (parse_write data) as [[v3 v2] v1].
  assert (forall f, doors (back (on_sq i f)) = doors (back i)) as Hsq
    by (intros f; unfold on_sq; by destruct (queues i !! _)).
  do 4 (case_match; [done|]). case_match.
  { unfold vp_write_status, vp_reset. set (i1 := set_com i _). case_match; [|case_match; [|done]].
    - simpl. by rewrite (kr_doors _ _ _ _ (stop_keeps i1)).
    - by rewrite (kr_doors _ _ _ _ (activate_keeps i1)). }
  case_match; [done|]. do 3 (case_match; [apply Hsq|]). apply Hsq.
Qed.

Lemma vp_bar0_write_doors i o data : doors (back (vp_bar0_write i o data)) = doors (back i).
Proof.
  unfold vp_bar0_write. case_match; [apply vp_com_write_doors|]. case_match; [done|].
  case_match; [apply (kr_doors _ _ _ _ (notify_keeps i _))|]. case_match; [|done].
  unfold vp_msix_write. by destruct (Msix.write _ _ _).
Qed.

Lemma vp_bar0_read_back i o data : back (vp_bar0_read i o data).1 = back i.
Proof. unfold vp_bar0_read. repeat (case_match; [done|]). by repeat case_match. Qed.

Lemma registers_doors_fixed : DoorbellsFixed (HD := registers_pci doors).
Proof.
  split; [done|done|..]; intros i n o data; simpl; (destruct (n =? 0)%nat; [|done]).
  - pose proof (vp_bar0_read_back i o data) as Hb. destruct (vp_bar0_read i o data). simpl in *. by rewrite Hb.
  - apply vp_bar0_write_doors.
Qed.

End Facts.

(** * Kick eventfds as doorbells *)

Lemma kick_doorbells_ok fds :
  (length fds <= 64)%nat ->
  Forall (fun d => door_bar_idx d = 0%nat /\ OFF_NOTIFY <= door_offset d < OFF_MSIX_TABLE) (kick_doorbells fds) /\
  NoDup (door_offset <$> kick_doorbells fds).
Proof.
  intros Hl. unfold kick_doorbells. split.
  - apply Forall_lookup_2. intros k d. rewrite list_lookup_imap. intros (fd & Hk & ->)%fmap_Some.
    apply lookup_lt_Some in Hk. simpl. unfold OFF_NOTIFY, OFF_MSIX_TABLE, NOTIFY_MULT. lia.
  - apply NoDup_alt. intros j k x. rewrite !list_lookup_fmap, !list_lookup_imap.
    destruct (fds !! j), (fds !! k); simpl; try done. intros [= <-] [= H]. unfold NOTIFY_MULT in H. lia.
Qed.

(** The register a doorbell stands for names the queue whose eventfd it signals:
    what the kernel does for a registered doorbell is what the device does when
    the write reaches it. *)
Lemma kick_doorbell_same {R B : Type} {HR : MsiRouter R} {HM : VirtioModel R B} (kicks : B -> list Z)
    (i : Inner R B) d data :
  (forall n, notify i n = ring_kick kicks i n) ->
  (length (kicks (back i)) <= 64)%nat -> d ∈ kick_doorbells (kicks (back i)) ->
  vp_bar0_write i (door_offset d) data = ring i [door_fd d].
Proof.
  intros Hn Hl Hd. apply list_elem_of_lookup in Hd as [k Hk]. unfold kick_doorbells in Hk.
  rewrite list_lookup_imap in Hk. apply fmap_Some in Hk as (fd & Hk & ->). simpl.
  pose proof (lookup_lt_Some _ _ _ Hk) as Hlt. unfold vp_bar0_write, OFF_NOTIFY, OFF_ISR, OFF_MSIX_TABLE, NOTIFY_MULT.
  rewrite (proj2 (Z.ltb_ge _ _)), (proj2 (Z.ltb_ge _ _)), (proj2 (Z.ltb_lt _ _)) by lia.
  rewrite Hn. unfold ring_kick. rewrite Z.add_simpl_l, Z.div_mul by lia. by rewrite Nat2Z.id, Hk.
Qed.

(** * Drivers *)

(** What a driver writes to BAR 0 to set up queue [k], rings from [base] on. *)
Definition queue_writes (k base : Z) : list (Z * list Z) :=
  [(CFG_QUEUE_SEL, le_bytes 2 k); (CFG_QUEUE_DESC_LO, le_bytes 4 base); (CFG_QUEUE_AVAIL_LO, le_bytes 4 (base + 0x1000));
   (CFG_QUEUE_USED_LO, le_bytes 4 (base + 0x2000)); (CFG_QUEUE_ENABLE, [1; 0])].

Definition drive {R B : Type} `{MsiRouter R} `{VirtioModel R B} (i : Inner R B) (l : list (Z * list Z)) : Inner R B :=
  foldl (fun i '(o, data) => vp_bar0_write i o data) i l.

Lemma drive_steps {R B : Type} {HR : MsiRouter R} {HM : VirtioModel R B} {doors : B -> list Doorbell} {stat : B -> Prop}
    (i : Inner R B) l :
  Forall (fun w => 0 <= w.1) l -> rtc (vp_step (doors := doors) (stat := stat)) i (drive i l).
Proof.
  intros Hl. revert i. induction Hl as [|[o data] l Ho Hl IH]; intros i; [done|].
  eapply rtc_l; [by apply vp_write|]. apply IH.
Qed.

(** Its interrupts wired, and MSI-X switched on by the driver. *)
Definition wired {B : Type} (i : Inner RouteLog B) : Inner RouteLog B :=
  bind_interrupts i ((fun k => {| gsi := 24 + k; irq_fd := 10 + k |}) <$> [0; 1; 2; 3]) [] 9.
Definition msix_ready {B : Type} (i : Inner RouteLog B) : Inner RouteLog B :=
  vp_write_config (wired i) (msix_cap i + 2) [0; 0x80].
