(* ===== verification/Vhost.v ===== *)
(** What the devices whose queues are served elsewhere, by the kernel
    ([net.rs], [vsock.rs]) or by another process ([fs.rs]), say to whoever
    serves them.  The other side is the class [Vhost]: it is sent one
    [vhost_call] at a time, and answers with a number or an error.

    Starting a device that is served elsewhere is following a plan: the calls to
    be made can be read off the registers, they are made in order, and the first
    one refused ends it. *)

From S2P Require Import Prelude PciBus GuestMem Virtqueue Msix VirtioPci.

Record MemRegion := {
  guest_phys_addr : Z;
  memory_size : Z;
  userspace_addr : Z;
  mmap_offset : Z;
  mmap_handle : Z
}.

Record VringConfigData := {
  queue_max_size : Z;
  queue_size : Z;
  vring_flags : Z;
  desc_table_addr : Z;
  used_ring_addr : Z;
  avail_ring_addr : Z;
  log_addr : option Z
}.

Inductive vhost_call :=
  | SetOwner
  | GetFeatures
  | SetFeatures (f : Z)
  | SetMemTable (regions : list MemRegion)
  | SetVringNum (idx : nat) (n : Z)
  | SetVringAddr (idx : nat) (c : VringConfigData)
  | SetVringBase (idx : nat) (base : Z)
  | SetVringKick (idx : nat) (fd : Z)
  | SetVringCall (idx : nat) (fd : Z)
  (** [VHOST_NET_SET_BACKEND], and the tap it is given. *)
  | SetBackend (idx : nat) (fd : option Z)
  | TapSetVnetHdrSize (n : Z)
  | TapSetOffload (flags : Z)
  | SetGuestCid (cid : Z)
  | Start
  | Stop
  | GetProtocolFeatures
  | SetProtocolFeatures (f : Z)
  | SetVringEnable (idx : nat) (on : bool)
  | GetVringBase (idx : nat)
  (** A channel for the other side's own requests, served from here on. *)
  | SetBackendReqFd.

Class Vhost (H : Type) := { vhost : H -> vhost_call -> H * option Z }.

(** Guest memory as it is described to the other side: where each region starts,
    how long it is and the file behind it, and the host address of a guest
    one. *)
Class HostMemory (N : Type) := {
  mem_regions : N -> list (Z * Z * option (Z * Z));
  get_host_address : N -> Z -> option Z
}.

(** * Steps that may fail *)

Definition Act (S A : Type) : Type := S -> S * option A.

#[export] Instance Act_ret {S} : MRet (Act S) := fun A x s => (s, Some x).
#[export] Instance Act_bind {S} : MBind (Act S) := fun A B f m s =>
  match m s with
  | (s, Some x) => f x s
  | (s, None) => (s, None)
  end.

Definition get {S : Type} : Act S S := fun s => (s, Some s).
Definition modify {S : Type} (f : S -> S) : Act S unit := fun s => (f s, Some tt).
(** [context(..)?] on an option, and [ensure!]. *)
Definition required {S A : Type} (x : option A) : Act S A := fun s => (s, x).
Definition ensure {S : Type} (b : bool) : Act S unit := fun s => (s, if b then Some tt else None).

Fixpoint each {S A : Type} (f : A -> Act S unit) (l : list A) : Act S unit :=
  match l with
  | [] => mret tt
  | x :: l => f x ;; each f l
  end.

(** * Calls *)

Class HasVhost (B H : Type) := { vh_of : B -> H; with_vh : B -> H -> B }.

Section Calls.
Context {R B H N : Type} {HR : MsiRouter R} {HV : HasVhost B H} {HH : Vhost H} {HN : HostMemory N}.

Definition vcall (c : vhost_call) : Act (Inner R B) Z := fun i =>
  let '(h, answer) := vhost (vh_of (back i)) c in (set_back i (with_vh (back i) h), answer).

(** Without an answer to look at. *)
Definition tell (c : vhost_call) : Act (Inner R B) unit := vcall c ;; mret tt.

(** The memory table of the in-kernel backends: no file, host addresses only. *)
Definition ram_table (m : N) : option (list MemRegion) :=
  mapM (fun '(start, len, _) =>
    host ← get_host_address m start;
    Some {| guest_phys_addr := start; memory_size := len; userspace_addr := host; mmap_offset := 0;
            mmap_handle := -1 |}) (mem_regions m).

Definition vring_config (max : Z) (q : QState) (d a u : Z) : VringConfigData :=
  {| queue_max_size := max; queue_size := qsize q; vring_flags := 0; desc_table_addr := d;
     used_ring_addr := u; avail_ring_addr := a; log_addr := None |}.

Definition programmed (q : QState) : bool :=
  negb (desc q =? 0) && negb (avail q =? 0) && negb (used q =? 0).

(** One queue of the loop of [activate]: [translate] is what the other side is
    told of a ring address. *)
Definition start_queue (max : Z) (translate : Z -> option Z) (kicks : list Z) (x : nat * QState)
    : Act (Inner R B) unit :=
  let '(idx, q) := x in
  ensure (programmed q) ;;
  d ← required (translate (desc q));
  a ← required (translate (avail q));
  u ← required (translate (used q));
  tell (SetVringNum idx (qsize q)) ;;
  tell (SetVringAddr idx (vring_config max q d a u)) ;;
  tell (SetVringBase idx (last q)) ;;
  kick ← required (kicks !! idx);
  tell (SetVringKick idx kick) ;;
  i ← get;
  fd ← required (call_fd (msix i) (vec q));
  tell (SetVringCall idx fd).

(** The loop, over the first [n] queues. *)
Definition start_queues (max : Z) (translate : Z -> option Z) (kicks : list Z) (n : nat) : Act (Inner R B) unit :=
  i ← get;
  each (start_queue max translate kicks) (imap pair (take n (queues i))).

End Calls.

#[export] Instance MemRegion_eq_dec : EqDecision MemRegion.
Proof. solve_decision. Defined.
#[export] Instance VringConfigData_eq_dec : EqDecision VringConfigData.
Proof. solve_decision. Defined.
#[export] Instance vhost_call_eq_dec : EqDecision vhost_call.
Proof. solve_decision. Defined.

(** * Steps *)

Lemma bind_assoc {S A B C : Type} (m : Act S A) (f : A -> Act S B) (g : B -> Act S C) s :
  ((m ≫= f) ≫= g) s = (m ≫= fun x => f x ≫= g) s.
Proof. unfold mbind, Act_bind. by destruct (m s) as [s1 [x|]]. Qed.

Lemma bind_run {S A B : Type} (m : Act S A) (f : A -> Act S B) s :
  (m ≫= f) s = match m s with (s, Some x) => f x s | (s, None) => (s, None) end.
Proof. done. Qed.

(** * Plans *)

(** A call to make, or [None] where the device gives up by itself. *)
Abbreviation plan := (list (option vhost_call)).

(** The calls accepted, and whether the plan was followed to its end. *)
Fixpoint run_plan {H : Type} `{Vhost H} (h : H) (p : plan) : H * list vhost_call * bool :=
  match p with
  | [] => (h, [], true)
  | None :: _ => (h, [], false)
  | Some c :: p =>
      match vhost h c with
      | (h, None) => (h, [], false)
      | (h, Some _) => let '(h, accepted, ok) := run_plan h p in (h, c :: accepted, ok)
      end
  end.

Section Plans.
Context {H : Type} {HH : Vhost H}.

Lemma run_plan_app (h : H) p q :
  run_plan h (p ++ q) =
    let '(h, a, ok) := run_plan h p in
    if ok : bool then let '(h, b, ok) := run_plan h q in (h, a ++ b, ok) else (h, a, false).
Proof.
  revert h. induction p as [|[c|] p IH]; intros h; simpl; [by destruct (run_plan h q) as [[? ?] ?]| |done].
  destruct (vhost h c) as [h1 [r|]]; [|done]. rewrite IH. destruct (run_plan h1 p) as [[h2 a] []]; [|done].
  by destruct (run_plan h2 q) as [[h3 b] ok].
Qed.

(** Only calls of the plan are made, in its order. *)
Lemma run_plan_prefix (h : H) p :
  let '(_, accepted, ok) := run_plan h p in
  (Some <$> accepted) `prefix_of` p /\ (ok = true -> Some <$> accepted = p).
Proof.
  revert h. induction p as [|[c|] p IH]; intros h; simpl; [done| |split; [apply prefix_nil|done]].
  destruct (vhost h c) as [h1 [r|]]; [|split; [apply prefix_nil|done]]. specialize (IH h1).
  destruct (run_plan h1 p) as [[h2 a] ok]. destruct IH as [IH1 IH2].
  split; [by apply prefix_cons|]. intros Hok. rewrite fmap_cons. by rewrite IH2.
Qed.

End Plans.

(** Having come to a call of the second part, the first was followed whole. *)
Lemma prefix_past (accepted : list vhost_call) (p1 p2 : plan) c :
  (Some <$> accepted) `prefix_of` (p1 ++ p2) -> c ∈ accepted -> Some c ∉ p1 ->
  (None ∉ p1) /\ (forall d, Some d ∈ p1 -> d ∈ accepted).
Proof.
  intros Hp Hc Hn. destruct (prefix_weak_total (Some <$> accepted) p1 (p1 ++ p2)) as [[r Hr]|[r Hr]].
  - done.
  - by apply prefix_app_r.
  - destruct Hn. rewrite Hr. apply elem_of_app. left. by apply list_elem_of_fmap_2.
  - assert (forall x, x ∈ p1 -> x ∈ Some <$> accepted) as Hsub by (intros x Hx; rewrite Hr; set_solver).
    split; [intros (? & [=] & _)%Hsub%list_elem_of_fmap|].
    by intros d (d' & [= ->] & Hd)%Hsub%list_elem_of_fmap.
Qed.

(** ** Calls on record *)

(** The other side, with the calls it has accepted. *)
Record Logged (H : Type) := { other : H; said : list vhost_call }.
Arguments other {H}.
Arguments said {H}.

#[export] Instance Logged_vhost {H : Type} `{Vhost H} : Vhost (Logged H) := { vhost l c :=
  let '(h, answer) := vhost (other l) c in
  ({| other := h; said := said l ++ from_option (fun _ => [c]) [] answer |}, answer) }.

(** How often an owner has been asked for. *)
Definition owners (l : list vhost_call) : nat := length (filter (fun c => c = SetOwner) l).

(** An owner has been asked for at most once, and the device knows. *)
Definition owner_once {H : Type} (is_owned : bool) (l : Logged H) : Prop :=
  owners (said l) = if is_owned then 1%nat else 0%nat.

Definition plan_owners (p : plan) : nat := length (filter (fun c => c = Some SetOwner) p).

Lemma plan_owners_app p q : plan_owners (p ++ q) = (plan_owners p + plan_owners q)%nat.
Proof. unfold plan_owners. by rewrite filter_app, length_app. Qed.

Lemma plan_owners_none p : Some SetOwner ∉ p -> plan_owners p = 0%nat.
Proof.
  intros Hp. unfold plan_owners. destruct (filter (fun c => c = Some SetOwner) p) as [|c k] eqn:E; [done|].
  assert (c ∈ filter (fun c => c = Some SetOwner) p) as [-> Hc]%list_elem_of_filter by (rewrite E; set_solver). done.
Qed.

Lemma run_plan_said {H : Type} {HH : Vhost H} (l : Logged H) p :
  let '(l', accepted, _) := run_plan l p in said l' = said l ++ accepted.
Proof.
  revert l. induction p as [|[c|] p IH]; intros l; simpl; [by rewrite app_nil_r| |by rewrite app_nil_r].
  destruct (vhost (other l) c) as [h [x|]]; [|done].
  specialize (IH {| other := h; said := said l ++ [c] |}). simpl in IH.
  destruct (run_plan _ p) as [[l' acc] ok]. by rewrite IH, <- app_assoc.
Qed.

Lemma owners_fmap l : owners l = plan_owners (Some <$> l).
Proof.
  unfold owners, plan_owners. induction l as [|c l IH]; [done|]. rewrite fmap_cons, !filter_cons.
  destruct (decide (c = SetOwner)) as [->|Hc]; [rewrite decide_True by done; simpl; by rewrite IH|].
  rewrite decide_False by congruence. done.
Qed.

Lemma owners_elem l : SetOwner ∈ l <-> (0 < owners l)%nat.
Proof.
  unfold owners. split.
  - intros Hl. assert (SetOwner ∈ filter (fun c => c = SetOwner) l) as H by (by apply list_elem_of_filter).
    destruct (filter (fun c => c = SetOwner) l); [by apply not_elem_of_nil in H|simpl; lia].
  - destruct (filter (fun c => c = SetOwner) l) as [|c k] eqn:E; simpl; [lia|]. intros _.
    assert (c ∈ filter (fun c => c = SetOwner) l) as [-> Hl]%list_elem_of_filter by (rewrite E; set_solver). done.
Qed.

(** A plan that asks for an owner only when there is none leaves the record and
    the flag in step. *)
Lemma run_plan_owner {H : Type} {HH : Vhost H} (l : Logged H) p (is_owned : bool) :
  (plan_owners p <= if is_owned then 0 else 1)%nat -> owner_once is_owned l ->
  let '(l', accepted, _) := run_plan l p in owner_once (is_owned || bool_decide (SetOwner ∈ accepted)) l'.
Proof.
  intros Hp Ho. pose proof (run_plan_said l p) as Hs. pose proof (run_plan_prefix l p) as Hpre.
  destruct (run_plan l p) as [[l' acc] ok]. destruct Hpre as [[r Hr] _]. unfold owner_once in *.
  assert (owners acc <= plan_owners p)%nat as Hle by (rewrite Hr, plan_owners_app, <- owners_fmap; lia).
  rewrite Hs. unfold owners at 1. rewrite filter_app, length_app. fold (owners (said l)) (owners acc).
  rewrite Ho. case_bool_decide as Hin; rewrite owners_elem in Hin; destruct is_owned; simpl in *; lia.
Qed.

(** * Calls as plans *)

Class HasVhostLaws (B H : Type) `{HasVhost B H} : Prop := {
  with_same b : with_vh b (vh_of b) = b;
  with_of b h : vh_of (with_vh b h) = h;
  with_with b h h' : with_vh (with_vh b h) h' = with_vh b h'
}.

Section Calls.
Context {R B H : Type} {HR : MsiRouter R} {HV : HasVhost B H} {HH : Vhost H}.
Context {HVL : HasVhostLaws B H}.
Implicit Types (i : Inner R B).

Definition with_vhost i (h : H) : Inner R B := set_back i (with_vh (back i) h).

Lemma with_vhost_with i h h' : with_vhost (with_vhost i h) h' = with_vhost i h'.
Proof. unfold with_vhost, set_back. simpl. by rewrite with_with. Qed.

Lemma with_vhost_same i : with_vhost i (vh_of (back i)) = i.
Proof. unfold with_vhost, set_back. rewrite with_same. by destruct i. Qed.

(** [m] at [i] is the plan [p], and [f] once it has been followed. *)
Definition ends (f : Inner R B -> Inner R B) (m : Act (Inner R B) unit) (p : plan) i : Prop :=
  forall h, m (with_vhost i h) =
    let '(h', _, ok) := run_plan h p in
    if ok : bool then (f (with_vhost i h'), Some tt) else (with_vhost i h', None).

Abbreviation follows := (ends (fun i => i)).

Lemma follows_nil i : follows (mret tt) [] i.
Proof. by intros h. Qed.

Lemma ends_modify f i : ends f (modify f) [] i.
Proof. by intros h. Qed.

Lemma follows_tell c i : follows (tell c) [Some c] i.
Proof.
  intros h. unfold tell, vcall, mbind, Act_bind. simpl. rewrite with_of.
  destruct (vhost h c) as [h1 [r|]]; simpl; by rewrite <- (with_vhost_with i h h1).
Qed.

Lemma ends_seq f m1 m2 p1 p2 i : follows m1 p1 i -> ends f m2 p2 i -> ends f (m1 ;; m2) (p1 ++ p2) i.
Proof.
  intros F1 F2 h. unfold mbind, Act_bind. rewrite F1, run_plan_app.
  destruct (run_plan h p1) as [[h1 a] []]; [|done]. rewrite F2. by destruct (run_plan h1 p2) as [[h2 b] ok].
Qed.

Lemma ends_ensure f b m p i : ends f m p i -> ends f (ensure b ;; m) (if b then p else [None]) i.
Proof. intros F h. unfold mbind, Act_bind, ensure. by destruct b; [apply F|]. Qed.

Lemma ends_required f {A} (x : option A) (m : A -> Act (Inner R B) unit) (p : A -> plan) i :
  (forall y, x = Some y -> ends f (m y) (p y) i) ->
  ends f (required x ≫= m) (from_option p [None] x) i.
Proof. intros F h. unfold mbind, Act_bind, required. by destruct x as [y|]; [apply F|]. Qed.

(** What is read of the state is not what a plan changes. *)
Lemma ends_get f (m : Inner R B -> Act (Inner R B) unit) p i :
  (forall h, ends f (m (with_vhost i h)) p i) -> ends f (get ≫= m) p i.
Proof. intros F h. unfold mbind, Act_bind, get. apply F. Qed.

Lemma follows_each {A} (f : A -> Act (Inner R B) unit) (g : A -> plan) l i :
  (forall x, x ∈ l -> follows (f x) (g x) i) -> follows (each f l) (l ≫= g) i.
Proof.
  induction l as [|x l IH]; intros F; simpl; [apply follows_nil|].
  apply ends_seq; [apply F|apply IH; intros; apply F]; set_solver.
Qed.

(** A call whose answer is used. *)
Lemma vcall_run {A} c (k : Z -> Act (Inner R B) A) i h :
  (vcall c ≫= k) (with_vhost i h) =
    match vhost h c with
    | (h, Some answer) => k answer (with_vhost i h)
    | (h, None) => (with_vhost i h, None)
    end.
Proof.
  rewrite bind_run. unfold vcall. simpl. rewrite with_of.
  by destruct (vhost h c) as [h1 [a|]]; simpl; rewrite <- (with_vhost_with i h h1).
Qed.

(** Taking the backend, at the start of an activation. *)
Lemma own_run {A} (is_owned : bool) (own : Inner R B -> Inner R B) (m : Act (Inner R B) A) i h :
  (forall h, own (with_vhost i h) = with_vhost (own i) h) ->
  ((if is_owned then mret tt else tell SetOwner ;; modify own) ;; m) (with_vhost i h) =
    if is_owned then m (with_vhost i h)
    else match vhost h SetOwner with
         | (h, Some _) => m (with_vhost (own i) h)
         | (h, None) => (with_vhost i h, None)
         end.
Proof.
  intros Hown. destruct is_owned; [done|]. rewrite bind_run. rewrite (bind_run (tell SetOwner)).
  rewrite (follows_tell SetOwner i h). cbn [run_plan]. destruct (vhost h SetOwner) as [h1 [a|]]; [|done].
  unfold modify. by rewrite Hown.
Qed.

(** ** The queues *)

(** What is said of one queue: its size, where its rings are, where it stands,
    the eventfd that kicks it and the one it signals. *)
Definition queue_plan (t : MsixTable R) (max : Z) (translate : Z -> option Z) (kicks : list Z)
    (x : nat * QState) : plan :=
  let '(idx, q) := x in
  if programmed q then
    from_option (fun d => from_option (fun a => from_option (fun u =>
      [Some (SetVringNum idx (qsize q)); Some (SetVringAddr idx (vring_config max q d a u));
       Some (SetVringBase idx (last q))] ++
      from_option (fun kick =>
        [Some (SetVringKick idx kick)] ++
        from_option (fun fd => [Some (SetVringCall idx fd)]) [None] (call_fd t (vec q)))
        [None] (kicks !! idx))
      [None] (translate (used q))) [None] (translate (avail q))) [None] (translate (desc q))
  else [None].

Lemma start_queue_follows max translate kicks x i :
  follows (start_queue max translate kicks x) (queue_plan (msix i) max translate kicks x) i.
Proof.
  destruct x as [idx q]. unfold start_queue, queue_plan. apply ends_ensure.
  do 3 (apply ends_required; intros ? _).
  apply (ends_seq _ _ _ [_] (_ :: _)); [apply follows_tell|].
  apply (ends_seq _ _ _ [_] (_ :: _)); [apply follows_tell|].
  apply (ends_seq _ _ _ [_]); [apply follows_tell|].
  apply ends_required. intros kick _. apply (ends_seq _ _ _ [_]); [apply follows_tell|].
  apply ends_get. intros h. apply ends_required. intros fd _. apply follows_tell.
Qed.

Definition queues_plan i (max : Z) (translate : Z -> option Z) (kicks : list Z) (n : nat) : plan :=
  imap pair (take n (queues i)) ≫= queue_plan (msix i) max translate kicks.

(** The queue a call is about. *)
Definition call_queue (c : vhost_call) : option nat :=
  match c with
  | SetVringNum idx _ | SetVringAddr idx _ | SetVringBase idx _ | SetVringKick idx _ | SetVringCall idx _
  | SetBackend idx _ | SetVringEnable idx _ | GetVringBase idx => Some idx
  | _ => None
  end.

(** A queue's plan is about that queue. *)
Lemma queue_plan_about t max translate kicks idx q c :
  Some c ∈ queue_plan t max translate kicks (idx, q) -> call_queue c = Some idx.
Proof.
  unfold queue_plan. destruct (programmed q); [|set_solver].
  destruct (translate (desc q)), (translate (avail q)), (translate (used q)); simpl; try set_solver.
  destruct (kicks !! idx); simpl; [destruct (call_fd _ _); simpl|]; set_solver.
Qed.

Lemma queues_plan_about i max translate kicks n c :
  Some c ∈ queues_plan i max translate kicks n -> exists idx, call_queue c = Some idx /\ (idx < n)%nat.
Proof.
  unfold queues_plan. intros ([idx q] & Hp & Hx)%list_elem_of_bind. exists idx.
  split; [by eapply queue_plan_about|]. apply list_elem_of_lookup in Hx as [k Hk].
  rewrite list_lookup_imap in Hk. apply fmap_Some in Hk as (x & Hk & [= -> ->]).
  apply lookup_lt_Some in Hk. rewrite length_take in Hk. lia.
Qed.

(** A queue's plan without a reason to give up says where its rings are. *)
Lemma queue_plan_whole t max translate kicks idx q :
  None ∉ queue_plan t max translate kicks (idx, q) ->
  exists d a u, translate (desc q) = Some d /\ translate (avail q) = Some a /\ translate (used q) = Some u /\
    Some (SetVringAddr idx (vring_config max q d a u)) ∈ queue_plan t max translate kicks (idx, q).
Proof.
  unfold queue_plan. destruct (programmed q); [|set_solver].
  destruct (translate (desc q)) as [d|], (translate (avail q)) as [a|], (translate (used q)) as [u|];
    simpl; set_solver.
Qed.

Lemma queues_plan_whole i max translate kicks n idx q :
  None ∉ queues_plan i max translate kicks n -> queues i !! idx = Some q -> (idx < n)%nat ->
  exists d a u, translate (desc q) = Some d /\ translate (avail q) = Some a /\ translate (used q) = Some u /\
    Some (SetVringAddr idx (vring_config max q d a u)) ∈ queues_plan i max translate kicks n.
Proof.
  intros Hn Hq Hlt. assert ((idx, q) ∈ imap pair (take n (queues i))) as Hx.
  { apply (list_elem_of_lookup_2 _ idx). by rewrite list_lookup_imap, lookup_take_lt, Hq. }
  destruct (queue_plan_whole (msix i) max translate kicks idx q) as (d & a & u & Hd & Ha & Hu & Hin).
  - intros Hc. apply Hn. unfold queues_plan. apply list_elem_of_bind. by exists (idx, q).
  - exists d, a, u. split_and!; [done..|]. apply list_elem_of_bind. by exists (idx, q).
Qed.

(** What a plan says of where rings are is what the registers have, translated. *)
Lemma queues_plan_addr i max translate kicks n idx c :
  Some (SetVringAddr idx c) ∈ queues_plan i max translate kicks n ->
  exists q d a u, queues i !! idx = Some q /\ translate (desc q) = Some d /\ translate (avail q) = Some a /\
    translate (used q) = Some u /\ c = vring_config max q d a u.
Proof.
  unfold queues_plan. intros ([k q] & Hp & Hx)%list_elem_of_bind.
  assert (k = idx) as -> by (apply queue_plan_about in Hp; by simplify_eq/=).
  assert (queues i !! idx = Some q) as Hq.
  { apply list_elem_of_lookup in Hx as [k Hk]. rewrite list_lookup_imap in Hk.
    apply fmap_Some in Hk as (x & Hk & [= <- <-]). by apply lookup_take_Some in Hk as [Hk _]. }
  exists q. revert Hp. unfold queue_plan. destruct (programmed q); [|set_solver].
  destruct (translate (desc q)) as [d|], (translate (avail q)) as [a|], (translate (used q)) as [u|];
    simpl; try set_solver.
  intros Hp. exists d, a, u. split_and!; try done.
  destruct (kicks !! idx); simpl in Hp; [destruct (call_fd _ _); simpl in Hp|]; set_solver.
Qed.

Lemma queues_plan_enable i max translate kicks n k on :
  Some (SetVringEnable k on) ∉ queues_plan i max translate kicks n.
Proof.
  unfold queues_plan. intros ([idx q] & Hp & _)%list_elem_of_bind. revert Hp. unfold queue_plan.
  destruct (programmed q); [|set_solver].
  destruct (translate (desc q)), (translate (avail q)), (translate (used q)); simpl; try set_solver.
  destruct (kicks !! idx); simpl; [destruct (call_fd _ _); simpl|]; set_solver.
Qed.

Lemma queues_plan_owners i max translate kicks n : plan_owners (queues_plan i max translate kicks n) = 0%nat.
Proof.
  apply plan_owners_none. by intros (idx & [=] & _)%queues_plan_about.
Qed.

Lemma start_queues_follows max translate kicks n i :
  follows (start_queues max translate kicks n) (queues_plan i max translate kicks n) i.
Proof.
  unfold start_queues, queues_plan. apply ends_get. intros h. apply follows_each. intros x _.
  apply start_queue_follows.
Qed.

End Calls.

Abbreviation follows := (ends (fun i => i)).

(** A call that is not about the owner leaves the record of owners. *)
Lemma vcall_quiet {R B H : Type} {HR : MsiRouter R} {HH : Vhost H} {HV : HasVhost B (Logged H)} c (i : Inner R B) :
  c <> SetOwner ->
  exists l, (vcall c i).1 = with_vhost i l /\ owners (said l) = owners (said (vh_of (back i))).
Proof.
  intros Hc. unfold vcall. simpl. destruct (vhost _ _) as [h [a|]]; simpl; eexists; (split; [done|]); simpl.
  - unfold owners. rewrite filter_app, length_app. rewrite filter_cons_False, filter_nil by done. simpl. lia.
  - by rewrite app_nil_r.
Qed.

(** States that differ in nothing but the other side: the devices' own updates
    are unfolded, and what is known of their flags rewritten. *)
Create HintDb vhost_state.
#[export] Hint Unfold with_vhost set_back : vhost_state.

Ltac vhost_state :=
  repeat (progress autounfold with vhost_state; simpl);
  repeat match goal with
    | H : ?f (back ?i) = true |- _ => rewrite H
    | H : ?f (back ?i) = false |- _ => rewrite H
  end; done.

(** * For the examples *)

(** An other side that accepts a number of calls, answering each with the bits it
    has, and refuses the rest. *)
Record Patient := { patience : nat; bits : Z }.

#[export] Instance Patient_vhost : Vhost Patient := { vhost h _ :=
  match patience h with
  | O => (h, None)
  | S n => ({| patience := n; bits := bits h |}, Some (bits h))
  end }.

(** Guest memory of one region at zero, [fd] its file. *)
Record OneRegion := { region_len : Z; host_base : Z; fd : Z }.

#[export] Instance OneRegion_memory : HostMemory OneRegion := {
  mem_regions m := [(0, region_len m, Some (fd m, 0))];
  get_host_address m a := if (0 <=? a) && (a <? region_len m) then Some (host_base m + a) else None
}.
