(* ===== verification/NetDevice.v ===== *)
(** The network device, [virtio-devices/src/net.rs] and the tap it is given,
    [virtio-devices/src/tap.rs]: what the guest is offered, what the tap and the
    kernel are told when the driver is ready, and the device on the bus.  The
    data path is the kernel's.

    The network device: what it says to the kernel when the driver is ready is a
    plan read off the registers, the kernel is asked for an owner once, and the
    device keeps its registers and its contract with the bus. *)

From S2P Require Import Prelude PciConfig PciBus PciBusFacts PciBusPaths GuestMem Virtqueue VirtqueueRun Msix.
From S2P Require Import MsixFacts VirtioPci VirtioPciFacts Vhost.

(** * The tap *)

Definition TUN_F_CSUM : Z := 0x01.
Definition TUN_F_TSO4 : Z := 0x02.
Definition TUN_F_TSO6 : Z := 0x04.
Definition TUN_F_TSO_ECN : Z := 0x08.
Definition TUN_F_UFO : Z := 0x10.

Definition IFNAMSIZ : nat := 16.

(** The kernel's [ifreq]: a name field and 24 bytes of union, as three words. *)
Record IfReq := { ifr_name : list Z; payload : list Z }.

Definition IfReq_new (name : list Z) : option IfReq :=
  if (IFNAMSIZ <=? length name)%nat then None
  else Some {| ifr_name := splice (replicate IFNAMSIZ 0) 0 name; payload := [0; 0; 0] |}.

Definition set_flags (r : IfReq) (flags : Z) : IfReq :=
  {| ifr_name := ifr_name r;
     payload := alter (fun w => Z.lor (Z.land w (lnotw 64 0xffff)) (u16 flags)) 0%nat (payload r) |}.

(** * Features *)

Definition NET_QUEUE_SIZE : Z := 256.
Definition NET_NUM_QUEUES : nat := 2.
Definition NET_MSIX_VECTORS : Z := 4.
Definition VIRTIO_ID_NET : Z := 1.
Definition NET_PCI_DEVICE_ID : Z := 0x1040 + VIRTIO_ID_NET.
Definition NET_CONFIG_SIZE : Z := 6.

Definition VIRTIO_NET_F_CSUM : Z := Z.shiftl 1 0.
Definition VIRTIO_NET_F_GUEST_CSUM : Z := Z.shiftl 1 1.
Definition VIRTIO_NET_F_MAC : Z := Z.shiftl 1 5.
Definition VIRTIO_NET_F_GUEST_TSO4 : Z := Z.shiftl 1 7.
Definition VIRTIO_NET_F_GUEST_TSO6 : Z := Z.shiftl 1 8.
Definition VIRTIO_NET_F_GUEST_ECN : Z := Z.shiftl 1 9.
Definition VIRTIO_NET_F_GUEST_UFO : Z := Z.shiftl 1 10.
Definition VIRTIO_NET_F_HOST_TSO4 : Z := Z.shiftl 1 11.
Definition VIRTIO_NET_F_HOST_TSO6 : Z := Z.shiftl 1 12.
Definition VIRTIO_NET_F_HOST_ECN : Z := Z.shiftl 1 13.
Definition VIRTIO_NET_F_HOST_UFO : Z := Z.shiftl 1 14.
Definition VIRTIO_NET_F_MRG_RXBUF : Z := Z.shiftl 1 15.

Definition VNET_HDR_SIZE_MRG : Z := 12.
Definition VNET_HDR_SIZE_PLAIN : Z := 10.

Definition ring_features (backend_features : Z) : Z :=
  Z.land backend_features (Z.lor VIRTIO_F_RING_EVENT_IDX VIRTIO_F_RING_INDIRECT_DESC).

Definition net_features (backend_features : Z) : Z :=
  foldl Z.lor VIRTIO_F_VERSION_1
    [VIRTIO_NET_F_MAC; VIRTIO_NET_F_MRG_RXBUF; VIRTIO_NET_F_CSUM; VIRTIO_NET_F_GUEST_CSUM;
     VIRTIO_NET_F_GUEST_TSO4; VIRTIO_NET_F_GUEST_TSO6; VIRTIO_NET_F_GUEST_ECN; VIRTIO_NET_F_GUEST_UFO;
     VIRTIO_NET_F_HOST_TSO4; VIRTIO_NET_F_HOST_TSO6; VIRTIO_NET_F_HOST_ECN; VIRTIO_NET_F_HOST_UFO;
     ring_features backend_features].

Definition tap_offload_flags (acked : Z) : Z :=
  let add guest tun flags := if has_bits acked guest then Z.lor flags tun else flags in
  let flags := add VIRTIO_NET_F_GUEST_CSUM TUN_F_CSUM 0 in
  if has_bits flags TUN_F_CSUM then
    add VIRTIO_NET_F_GUEST_UFO TUN_F_UFO
      (add VIRTIO_NET_F_GUEST_ECN TUN_F_TSO_ECN
        (add VIRTIO_NET_F_GUEST_TSO6 TUN_F_TSO6 (add VIRTIO_NET_F_GUEST_TSO4 TUN_F_TSO4 flags)))
  else flags.

Definition vnet_hdr_size (acked : Z) : Z :=
  if has_bits acked (Z.lor VIRTIO_NET_F_MRG_RXBUF VIRTIO_F_VERSION_1) then VNET_HDR_SIZE_MRG
  else VNET_HDR_SIZE_PLAIN.

(** FNV-1a over the tap's name. *)
Definition default_mac (tap_name : list Z) : list Z :=
  let h := foldl (fun h b => u64 (Z.lxor h b * 0x100000001b3)) 0xcbf29ce484222325 tap_name in
  0x02 :: drop 3 (rev (le_bytes 8 h)).

(** * State *)

Section Net.
Context {R H N : Type} {HR : MsiRouter R} {HH : Vhost H} {HN : HostMemory N}.

(** [n_backend] is the kernel's side, the tap included. *)
Record NetBack := {
  mac : list Z;
  n_mem : option N;
  n_backend : H;
  tap_fd : Z;
  backend_features : Z;
  kick_fds : list Z;
  running : bool;
  owned : bool
}.

Definition net_with_backend (b : NetBack) (h : H) : NetBack :=
  {| mac := mac b; n_mem := n_mem b; n_backend := h; tap_fd := tap_fd b; backend_features := backend_features b;
     kick_fds := kick_fds b; running := running b; owned := owned b |}.
Definition net_set_running (b : NetBack) (r : bool) : NetBack :=
  {| mac := mac b; n_mem := n_mem b; n_backend := n_backend b; tap_fd := tap_fd b;
     backend_features := backend_features b; kick_fds := kick_fds b; running := r; owned := owned b |}.
Definition net_set_owned (b : NetBack) : NetBack :=
  {| mac := mac b; n_mem := n_mem b; n_backend := n_backend b; tap_fd := tap_fd b;
     backend_features := backend_features b; kick_fds := kick_fds b; running := running b; owned := true |}.

#[export] Instance NetBack_vhost : HasVhost NetBack H := { vh_of := n_backend; with_vh := net_with_backend }.

Abbreviation Net := (Inner R NetBack).

(** * Starting and stopping *)

Definition net_start : Act Net unit :=
  i ← get;
  mem ← required (n_mem (back i));
  let acked := Z.land (df (com i)) (net_features (backend_features (back i))) in
  tell (TapSetVnetHdrSize (vnet_hdr_size acked)) ;;
  tell (TapSetOffload (tap_offload_flags acked)) ;;
  (if owned (back i) then mret tt
   else tell SetOwner ;; modify (fun i => set_back i (net_set_owned (back i)))) ;;
  tell (SetFeatures (Z.land acked (backend_features (back i)))) ;;
  regions ← required (ram_table mem);
  tell (SetMemTable regions) ;;
  start_queues NET_QUEUE_SIZE Some (kick_fds (back i)) NET_NUM_QUEUES ;;
  each (fun idx => tell (SetBackend idx (Some (tap_fd (back i))))) (seq 0 NET_NUM_QUEUES) ;;
  modify (fun i => set_back i (net_set_running (back i) true)).

Definition net_activate (i : Net) : Net := if running (back i) then i else (net_start i).1.

(** A refused detach is only logged. *)
Definition net_detach (i : Net) (idx : nat) : Net := (vcall (SetBackend idx None) i).1.

Definition net_stop (i : Net) : Net :=
  if running (back i) then
    let i := foldl net_detach i (seq 0 NET_NUM_QUEUES) in
    set_back i (net_set_running (back i) false)
  else i.

#[export] Instance Net_virtio : VirtioModel R NetBack := {
  features b := net_features (backend_features b);
  new_queues := numbered_queues NET_NUM_QUEUES NET_QUEUE_SIZE;
  QUEUE_SIZE := NET_QUEUE_SIZE;
  selects := clamped NET_NUM_QUEUES;
  config_bytes := mac;
  activate := net_activate;
  stop := net_stop;
  notify := ring_kick kick_fds
}.

(** * Construction *)

Definition net_pci_config : option (list Z * Z) :=
  let c := PciConfig.new 0x1AF4 NET_PCI_DEVICE_ID 0x01 0x020000 0x1AF4 VIRTIO_ID_NET in
  c ← set_bar_mem c 0 BAR0_SIZE;
  let c := set_irq_pin c 1 in
  '(c, _) ← add_virtio_cap c 1 0 OFF_COMMON 0x38;
  '(c, _) ← add_virtio_notify_cap c 0 OFF_NOTIFY 0x100 NOTIFY_MULT;
  '(c, _) ← add_virtio_cap c 3 0 OFF_ISR 1;
  '(c, _) ← add_virtio_cap c 4 0 OFF_DEVICE NET_CONFIG_SIZE;
  '(c, msix_cap) ← add_msix_cap c (NET_MSIX_VECTORS - 1) OFF_MSIX_TABLE OFF_MSIX_PBA;
  '(c, _) ← add_pcie_cap c PCIE_TYPE_RC_INTEGRATED;
  Some (build c, msix_cap).

(** Around a tap that opened and a backend [h] of the features [feats]; [kicks]
    are the eventfds made for the queues. *)
Definition NetDevice_new (tap_name : list Z) (config_mac : option (list Z)) (mem : N) (h : H) (tap feats : Z)
    (kicks : nat -> Z) : option Net :=
  '(c, cap) ← net_pci_config;
  Some (vp_new c cap (Z.to_nat NET_MSIX_VECTORS)
    {| mac := default (default_mac tap_name) config_mac; n_mem := Some mem; n_backend := h; tap_fd := tap;
       backend_features := feats; kick_fds := kicks <$> seq 0 NET_NUM_QUEUES; running := false; owned := false |}).

(** * The registers of this device *)

Definition net_com_read : Net -> Z -> nat -> list Z := vp_com_read.
Definition net_com_write : Net -> Z -> list Z -> Net := vp_com_write.
Definition net_bar0_read : Net -> Z -> list Z -> Net * list Z := vp_bar0_read.
Definition net_bar0_write : Net -> Z -> list Z -> Net := vp_bar0_write.

Definition net_doorbells (b : NetBack) : list Doorbell := kick_doorbells (kick_fds b).

#[export] Instance Net_pci : PciDevice Net := registers_pci net_doorbells.

End Net.

Arguments NetBack : clear implicits.

Section Facts.
Context {R H N : Type} {HR : MsiRouter R} {HH : Vhost H} {HN : HostMemory N}.
Implicit Types (i : Inner R (NetBack H N)).

(** * Activation *)

Definition net_acked i : Z := Z.land (df (com i)) (net_features (backend_features (back i))).

(** The part of the plan after the owner is set. *)
Definition net_plan_rest i (mem : N) : plan :=
  [Some (SetFeatures (Z.land (net_acked i) (backend_features (back i))))] ++
  from_option (fun regions =>
    [Some (SetMemTable regions)] ++
    queues_plan i NET_QUEUE_SIZE Some (kick_fds (back i)) NET_NUM_QUEUES ++
    (seq 0 NET_NUM_QUEUES ≫= fun idx => [Some (SetBackend idx (Some (tap_fd (back i))))]))
    [None] (ram_table mem).

Definition net_plan_first i : plan :=
  [Some (TapSetVnetHdrSize (vnet_hdr_size (net_acked i)));
   Some (TapSetOffload (tap_offload_flags (net_acked i)))].

(** Everything that is said, and in which order. *)
Definition net_plan i : plan :=
  from_option (fun mem =>
    net_plan_first i ++ (if owned (back i) then [] else [Some SetOwner]) ++ net_plan_rest i mem)
    [None] (n_mem (back i)).

Definition net_after i (h : H) (is_owned is_running : bool) : Inner R (NetBack H N) :=
  set_back i {| mac := mac (back i); n_mem := n_mem (back i); n_backend := h; tap_fd := tap_fd (back i);
                backend_features := backend_features (back i); kick_fds := kick_fds (back i);
                running := is_running; owned := is_owned |}.

#[global] Instance net_vhost_laws : HasVhostLaws (NetBack H N) H.
Proof. split; [by intros []|done..]. Qed.

#[local] Hint Unfold net_after net_with_backend net_set_running net_set_owned : vhost_state.

Abbreviation set_running_true := (fun i : Inner R (NetBack H N) => set_back i (net_set_running (back i) true)).

(** The rest of [net_start], at a state whose owner is settled. *)
Lemma net_rest_ends i mem :
  ends set_running_true
    (tell (SetFeatures (Z.land (net_acked i) (backend_features (back i)))) ;;
     regions ← required (ram_table mem);
     tell (SetMemTable regions) ;;
     start_queues NET_QUEUE_SIZE Some (kick_fds (back i)) NET_NUM_QUEUES ;;
     each (fun idx => tell (SetBackend idx (Some (tap_fd (back i))))) (seq 0 NET_NUM_QUEUES) ;;
     modify set_running_true) (net_plan_rest i mem) i.
Proof.
  unfold net_plan_rest. apply ends_seq; [apply follows_tell|].
  apply ends_required. intros regions _. apply ends_seq; [apply follows_tell|].
  rewrite <- (app_nil_r (_ ++ (_ ≫= _))), <- app_assoc.
  apply ends_seq; [apply start_queues_follows|].
  apply ends_seq; [|apply ends_modify]. apply follows_each. intros. apply follows_tell.
Qed.

Lemma net_first_follows i :
  follows (tell (TapSetVnetHdrSize (vnet_hdr_size (net_acked i))) ;;
           tell (TapSetOffload (tap_offload_flags (net_acked i)))) (net_plan_first i) i.
Proof. apply (ends_seq _ _ _ [_] [_]); apply follows_tell. Qed.

(** The parts of a start, put together. *)
Lemma net_start_eq i mem :
  n_mem (back i) = Some mem ->
  net_start i =
    ((tell (TapSetVnetHdrSize (vnet_hdr_size (net_acked i))) ;;
      tell (TapSetOffload (tap_offload_flags (net_acked i)))) ;;
     (if owned (back i) then mret tt
      else tell SetOwner ;; modify (fun i => set_back i (net_set_owned (back i)))) ;;
     tell (SetFeatures (Z.land (net_acked i) (backend_features (back i)))) ;;
     regions ← required (ram_table mem);
     tell (SetMemTable regions) ;;
     start_queues NET_QUEUE_SIZE Some (kick_fds (back i)) NET_NUM_QUEUES ;;
     each (fun idx => tell (SetBackend idx (Some (tap_fd (back i))))) (seq 0 NET_NUM_QUEUES) ;;
     modify set_running_true) i.
Proof.
  intros Hm. unfold net_start. unfold mbind at 1, Act_bind at 1, get. rewrite Hm.
  unfold mbind at 1, Act_bind at 1, required at 1. fold (net_acked i). by rewrite bind_assoc.
Qed.

Lemma net_rest_owner i mem : plan_owners (net_plan_rest i mem) = 0%nat.
Proof.
  unfold net_plan_rest. rewrite plan_owners_app. destruct (ram_table mem) as [rs|]; [|done].
  cbn [from_option]. by rewrite !plan_owners_app, queues_plan_owners.
Qed.

Lemma net_activate_runs i :
  running (back i) = false ->
  let '(h, accepted, ok) := run_plan (n_backend (back i)) (net_plan i) in
  net_activate i = net_after i h (owned (back i) || bool_decide (SetOwner ∈ accepted)) ok /\
  (Some <$> accepted) `prefix_of` net_plan i.
Proof.
  intros Hrun. pose proof (run_plan_prefix (n_backend (back i)) (net_plan i)) as Hpre.
  destruct (run_plan _ (net_plan i)) as [[h accepted] ok] eqn:Er. split; [|apply Hpre].
  unfold net_activate. rewrite Hrun. unfold net_plan in Er.
  destruct (n_mem (back i)) as [mem|] eqn:Hm; cbn [from_option] in Er.
  2: { simpl in Er. simplify_eq. unfold net_start, net_after, mbind, Act_bind, get, required. rewrite Hm. simpl.
       rewrite orb_false_r, <- Hrun, <- Hm. by destruct i as [? ? ? ? ? ? ? ? [] ?]. }
  rewrite (net_start_eq i mem Hm). rewrite run_plan_app in Er. unfold mbind at 1, Act_bind at 1.
  pose proof (net_first_follows i (vh_of (back i))) as F. rewrite with_vhost_same in F. rewrite F. clear F.
  change (vh_of (back i)) with (n_backend (back i)).
  destruct (run_plan _ (net_plan_first i)) as [[h1 a1] ok1] eqn:E1.
  assert (SetOwner ∉ a1) as Hno.
  { pose proof (run_plan_prefix (n_backend (back i)) (net_plan_first i)) as Hp. rewrite E1 in Hp.
    destruct Hp as [[r Hp] _]. intros Hin%(list_elem_of_fmap_2 Some).
    assert (Some SetOwner ∈ net_plan_first i) as Hf by (rewrite Hp; set_solver). set_solver. }
  destruct ok1; [|simplify_eq; rewrite bool_decide_false, orb_false_r by done; vhost_state].
  destruct (owned (back i)) eqn:Eo.
  - rewrite app_nil_l in Er. unfold mbind at 1, Act_bind at 1, mret, Act_ret. rewrite (net_rest_ends i mem).
    destruct (run_plan h1 (net_plan_rest i mem)) as [[h2 a2] []]; simplify_eq/=; vhost_state.
  - rewrite run_plan_app in Er. cbn [run_plan] in Er. rewrite bind_run, (bind_run (tell SetOwner)).
    rewrite (follows_tell SetOwner i h1). cbn [run_plan]. destruct (vhost h1 SetOwner) as [h2 [x|]].
    + set (j := set_back i (net_set_owned (back i))).
      pose proof (net_rest_ends j mem h2) as F. unfold modify at 1.
      change (set_back (with_vhost i h2) (net_set_owned (back (with_vhost i h2)))) with (with_vhost j h2).
      change (net_plan_rest j mem) with (net_plan_rest i mem) in F.
      destruct (run_plan h2 (net_plan_rest i mem)) as [[h3 a3] ok3]. simplify_eq/=.
      rewrite bool_decide_true by set_solver. etrans; [exact (f_equal fst F)|].
      destruct ok; vhost_state.
    + simplify_eq/=. rewrite bool_decide_false by set_solver. vhost_state.
Qed.

Lemma net_plan_owners i : (plan_owners (net_plan i) <= if owned (back i) then 0 else 1)%nat.
Proof.
  unfold net_plan. destruct (n_mem (back i)) as [mem|]; [|destruct (owned (back i)); vm_compute; lia]. cbn [from_option].
  rewrite !plan_owners_app, net_rest_owner. destruct (owned (back i)); vm_compute; lia.
Qed.

(** C35: Starting the network device says to the kernel exactly what the driver
    programmed.  The calls are a plan read off the registers: header size and
    offloads of the features both sides agreed on, the owner if there is none
    yet, the features the backend has, the memory table, then for each queue its
    size, ring addresses, position, kick and interrupt eventfds, and last the
    tap.  They are made in that order until one is refused; the device runs
    exactly when all were accepted, owns the backend once the owner call was,
    and nothing else of it changes. *)
Theorem net_activation_plan i :
  running (back i) = false ->
  let '(h, accepted, ok) := run_plan (n_backend (back i)) (net_plan i) in
  net_activate i = net_after i h (owned (back i) || bool_decide (SetOwner ∈ accepted)) ok /\
  (Some <$> accepted) `prefix_of` net_plan i.
Proof. apply net_activate_runs. Qed.

(** ** Offloads *)

(** Segmentation offloads are only asked of the tap together with checksums, and
    only those the driver accepted. *)
Lemma tap_offload_checksum acked :
  has_bits (tap_offload_flags acked) (foldl Z.lor 0 [TUN_F_TSO4; TUN_F_TSO6; TUN_F_TSO_ECN; TUN_F_UFO]) = true ->
  has_bits acked VIRTIO_NET_F_GUEST_CSUM = true /\ has_bits (tap_offload_flags acked) TUN_F_CSUM = true.
Proof. unfold tap_offload_flags. by repeat (case_match; try done). Qed.

End Facts.

(** * On the bus *)

Section Bus.
Context {R H N : Type} {HR : MsiRouter R} {HH : Vhost H} {HN : HostMemory N}.
Implicit Types (i : Inner R (NetBack (Logged H) N)).

(** What the device keeps of its own for ever. *)
Definition net_stat (b : NetBack (Logged H) N) : Prop := owner_once (owned b) (n_backend b).

#[export] Instance net_laws : VirtioModelLaws R (NetBack (Logged H) N) net_doorbells net_stat.
Proof.
  split.
  - done.
  - by apply numbered_queues_ok.
  - intros i. simpl. destruct (running (back i)) eqn:Er; [unfold net_activate; by rewrite Er|].
    pose proof (net_activate_runs i Er) as Ha.
    pose proof (run_plan_owner (n_backend (back i)) (net_plan i) (owned (back i)) (net_plan_owners i)) as Ho.
    destruct (run_plan _ _) as [[h acc] ok]. destruct Ha as [-> _]. by split.
  - intros i. simpl. unfold net_stop. destruct (running (back i)); [|done]. simpl.
    unfold net_detach. destruct (vcall_quiet (SetBackend 0 None) i) as (h1 & -> & H1); [done|].
    destruct (vcall_quiet (SetBackend 1 None) (with_vhost i h1)) as (h2 & -> & H2); [done|].
    split; try done. unfold net_stat, owner_once. simpl in *. congruence.
  - intros i n. simpl. unfold ring_kick. case_match; [|done]. by split.
Qed.

End Bus.

(** * A driver at work *)

Definition net_config : list Z * Z := default ([], 0) net_pci_config.

(** A device whose kernel accepts [n] calls. *)
Definition net_dev (n : nat) : Inner RouteLog (NetBack (Logged Patient) OneRegion) :=
  let h := {| other := {| patience := n; bits := 0 |}; said := [] |} in
  vp_new net_config.1 net_config.2 4
    {| mac := default_mac [116; 97; 112; 48]; n_mem := Some {| region_len := 0x100000; host_base := 0x7f0000000000; fd := 3 |};
       n_backend := h; tap_fd := 7; backend_features := VIRTIO_F_RING_EVENT_IDX; kick_fds := [20; 21];
       running := false; owned := false |}.

(** Both queues set up, every feature of the low word and VERSION_1 accepted. *)
Definition net_setup : list (Z * list Z) :=
  [(CFG_DRIVER_FEAT, le_bytes 4 0xFFFFFFFF); (CFG_DRIVER_FEAT_SEL, le_bytes 4 1); (CFG_DRIVER_FEAT, le_bytes 4 1)] ++
  queue_writes 0 0x10000 ++ queue_writes 1 0x20000.

Definition net_ready (n : nat) : Inner RouteLog (NetBack (Logged Patient) OneRegion) :=
  drive (msix_ready (net_dev n)) net_setup.

Definition net_driver_ok (n : nat) : Inner RouteLog (NetBack (Logged Patient) OneRegion) :=
  drive (net_ready n) [(CFG_STATUS, [0xF])].

Abbreviation net_said i := (said (n_backend (back i))).

Example net_runs :
  running (back (net_driver_ok 100)) = true /\
  net_said (net_driver_ok 100) =
    [TapSetVnetHdrSize 12; TapSetOffload 0x1F; SetOwner; SetFeatures VIRTIO_F_RING_EVENT_IDX;
     SetMemTable [{| guest_phys_addr := 0; memory_size := 0x100000; userspace_addr := 0x7f0000000000;
                     mmap_offset := 0; mmap_handle := -1 |}];
     SetVringNum 0 256; SetVringAddr 0 (vring_config 256 (with_size QState_default 256) 0x10000 0x11000 0x12000);
     SetVringBase 0 0; SetVringKick 0 20; SetVringCall 0 10;
     SetVringNum 1 256; SetVringAddr 1 (vring_config 256 (with_size QState_default 256) 0x20000 0x21000 0x22000);
     SetVringBase 1 0; SetVringKick 1 21; SetVringCall 1 11;
     SetBackend 0 (Some 7); SetBackend 1 (Some 7)].
Proof. split; vm_compute; reflexivity. Qed.

(** When the second queue's tap is refused the device is not running, and a
    reset then leaves the first queue attached. *)
Example half_attached_survives_reset :
  let i := drive (net_driver_ok 16) [(CFG_STATUS, [0])] in
  running (back (net_driver_ok 16)) = false /\
  SetBackend 0 (Some 7) ∈ net_said i /\ SetBackend 0 None ∉ net_said i.
Proof. split_and!; first [vm_compute; reflexivity|apply (bool_decide_unpack _); vm_compute; exact I]. Qed.

(** A started device, reset and started again, asks for an owner once. *)
Lemma virtio_registers_invariant_witness :
  let i := drive (msix_ready (net_dev 100)) (net_setup ++ [(CFG_STATUS, [0xF]); (CFG_STATUS, [0]); (CFG_STATUS, [0xF])]) in
  vp_ok (doors := net_doorbells) (stat := net_stat) (net_dev 100) i.
Proof.
  intros i. refine (proj1 (virtio_registers_invariant net_config.1 net_config.2 4 (back (net_dev 100)) i _ _ _ _ _ _)).
  - vm_compute. reflexivity.
  - apply (bool_decide_unpack _). vm_compute. exact I.
  - vm_compute. split; discriminate.
  - vm_compute. reflexivity.
  - reflexivity.
  - apply (rtc_l _ _ (wired (net_dev 100))); [apply vp_bind|].
    apply (rtc_l _ _ (msix_ready (net_dev 100))); [apply vp_config; vm_compute; discriminate|].
    apply drive_steps. apply (bool_decide_unpack _). vm_compute. exact I.
Defined.

Lemma net_activation_plan_witness :
  exists h accepted ok,
    run_plan (n_backend (back (net_ready 100))) (net_plan (net_ready 100)) = (h, accepted, ok) /\
    net_activate (net_ready 100) =
      net_after (net_ready 100) h (owned (back (net_ready 100)) || bool_decide (SetOwner ∈ accepted)) ok /\
    (Some <$> accepted) `prefix_of` net_plan (net_ready 100).
Proof.
  assert (running (back (net_ready 100)) = false) as H by (vm_compute; reflexivity).
  pose proof (net_activation_plan (net_ready 100) H) as P. clear H.
  destruct (run_plan _ _) as [[h acc] ok]. exists h, acc, ok. exact (conj eq_refl P).
Defined.
