(* ===== verification/VsockDevice.v ===== *)
(** The vsock device, [virtio-devices/src/vsock.rs]: the transport of a device
    whose packets the kernel moves.  The kernel is given the first two queues
    only; the event queue stays here and is never posted to.

    The vsock device: what it says to the kernel is a plan read off its
    registers, and the kernel's owner is asked for once. *)

From S2P Require Import Prelude PciConfig PciBus PciBusFacts PciBusPaths GuestMem Virtqueue VirtqueueRun Msix.
From S2P Require Import MsixFacts VirtioPci VirtioPciFacts Vhost.

Definition VSOCK_QUEUE_SIZE : Z := 256.
Definition VSOCK_NUM_QUEUES : nat := 3.
Definition VHOST_QUEUES : nat := 2.
Definition VSOCK_MSIX_VECTORS : Z := 4.
Definition VIRTIO_ID_VSOCK : Z := 19.
Definition VSOCK_PCI_DEVICE_ID : Z := 0x1040 + VIRTIO_ID_VSOCK.
Definition VMADDR_CID_HOST : Z := 2.

Section Vsock.
Context {R H N : Type} {HR : MsiRouter R} {HH : Vhost H} {HN : HostMemory N}.

Record VsockBack := {
  cid : Z;
  v_mem : option N;
  v_backend : H;
  v_backend_features : Z;
  v_kick_fds : list Z;
  v_running : bool;
  v_owned : bool
}.

Definition vsock_with_backend (b : VsockBack) (h : H) : VsockBack :=
  {| cid := cid b; v_mem := v_mem b; v_backend := h; v_backend_features := v_backend_features b;
     v_kick_fds := v_kick_fds b; v_running := v_running b; v_owned := v_owned b |}.
Definition vsock_set_running (b : VsockBack) (r : bool) : VsockBack :=
  {| cid := cid b; v_mem := v_mem b; v_backend := v_backend b; v_backend_features := v_backend_features b;
     v_kick_fds := v_kick_fds b; v_running := r; v_owned := v_owned b |}.
Definition vsock_set_owned (b : VsockBack) : VsockBack :=
  {| cid := cid b; v_mem := v_mem b; v_backend := v_backend b; v_backend_features := v_backend_features b;
     v_kick_fds := v_kick_fds b; v_running := v_running b; v_owned := true |}.

#[export] Instance VsockBack_vhost : HasVhost VsockBack H := { vh_of := v_backend; with_vh := vsock_with_backend }.

Abbreviation Vsock := (Inner R VsockBack).

Definition vsock_features (b : VsockBack) : Z :=
  Z.lor VIRTIO_F_VERSION_1
    (Z.land (v_backend_features b) (Z.lor VIRTIO_F_RING_EVENT_IDX VIRTIO_F_RING_INDIRECT_DESC)).

(** * Starting and stopping *)

Definition vsock_start : Act Vsock unit :=
  i ← get;
  mem ← required (v_mem (back i));
  (if v_owned (back i) then mret tt
   else tell SetOwner ;; modify (fun i => set_back i (vsock_set_owned (back i)))) ;;
  tell (SetFeatures (Z.land (df (com i)) (vsock_features (back i)))) ;;
  regions ← required (ram_table mem);
  tell (SetMemTable regions) ;;
  start_queues VSOCK_QUEUE_SIZE Some (v_kick_fds (back i)) VHOST_QUEUES ;;
  tell (SetGuestCid (cid (back i))) ;;
  tell Start ;;
  modify (fun i => set_back i (vsock_set_running (back i) true)).

Definition vsock_activate (i : Vsock) : Vsock := if v_running (back i) then i else (vsock_start i).1.

(** A refused stop is only logged. *)
Definition vsock_stop (i : Vsock) : Vsock :=
  if v_running (back i) then
    let i := (vcall Stop i).1 in set_back i (vsock_set_running (back i) false)
  else i.

#[export] Instance Vsock_virtio : VirtioModel R VsockBack := {
  features := vsock_features;
  new_queues := numbered_queues VSOCK_NUM_QUEUES VSOCK_QUEUE_SIZE;
  QUEUE_SIZE := VSOCK_QUEUE_SIZE;
  selects := clamped VSOCK_NUM_QUEUES;
  config_bytes b := le_bytes 8 (cid b);
  activate := vsock_activate;
  stop := vsock_stop;
  notify := ring_kick v_kick_fds
}.

(** * Construction *)

Definition vsock_pci_config : option (list Z * Z) :=
  let c := PciConfig.new 0x1AF4 VSOCK_PCI_DEVICE_ID 0x01 0x078000 0x1AF4 VIRTIO_ID_VSOCK in
  c ← set_bar_mem c 0 BAR0_SIZE;
  let c := set_irq_pin c 1 in
  '(c, _) ← add_virtio_cap c 1 0 OFF_COMMON 0x38;
  '(c, _) ← add_virtio_notify_cap c 0 OFF_NOTIFY 0x100 NOTIFY_MULT;
  '(c, _) ← add_virtio_cap c 3 0 OFF_ISR 1;
  '(c, _) ← add_virtio_cap c 4 0 OFF_DEVICE 8;
  '(c, msix_cap) ← add_msix_cap c (VSOCK_MSIX_VECTORS - 1) OFF_MSIX_TABLE OFF_MSIX_PBA;
  '(c, _) ← add_pcie_cap c PCIE_TYPE_RC_INTEGRATED;
  Some (build c, msix_cap).

(** Around an opened backend [h]: its features are asked for at once. *)
Definition VsockDevice_new (guest_cid : Z) (mem : N) (h : H) (kicks : nat -> Z) : option Vsock :=
  if guest_cid <=? VMADDR_CID_HOST then None
  else
    let '(h, answer) := vhost h GetFeatures in
    feats ← answer;
    '(c, cap) ← vsock_pci_config;
    Some (vp_new c cap (Z.to_nat VSOCK_MSIX_VECTORS)
      {| cid := guest_cid; v_mem := Some mem; v_backend := h; v_backend_features := feats;
         v_kick_fds := kicks <$> seq 0 VSOCK_NUM_QUEUES; v_running := false; v_owned := false |}).

(** * The registers of this device *)

Definition vsock_com_read : Vsock -> Z -> nat -> list Z := vp_com_read.
Definition vsock_com_write : Vsock -> Z -> list Z -> Vsock := vp_com_write.
Definition vsock_bar0_read : Vsock -> Z -> list Z -> Vsock * list Z := vp_bar0_read.
Definition vsock_bar0_write : Vsock -> Z -> list Z -> Vsock := vp_bar0_write.

Definition vsock_doorbells (b : VsockBack) : list Doorbell := kick_doorbells (v_kick_fds b).

#[export] Instance Vsock_pci : PciDevice Vsock := registers_pci vsock_doorbells.

End Vsock.

Arguments VsockBack : clear implicits.

Section Facts.
Context {R H N : Type} {HR : MsiRouter R} {HH : Vhost H} {HN : HostMemory N}.
Implicit Types (i : Inner R (VsockBack H N)).

#[global] Instance vsock_vhost_laws : HasVhostLaws (VsockBack H N) H.
Proof. split; [by intros []|done..]. Qed.

(** What follows the owner: two queues, whatever there are. *)
Definition vsock_plan_rest i (mem : N) : plan :=
  [Some (SetFeatures (Z.land (df (com i)) (vsock_features (back i))))] ++
  from_option (fun regions =>
    [Some (SetMemTable regions)] ++
    queues_plan i VSOCK_QUEUE_SIZE Some (v_kick_fds (back i)) VHOST_QUEUES ++
    [Some (SetGuestCid (cid (back i))); Some Start])
    [None] (ram_table mem).

Definition vsock_plan i : plan :=
  from_option (fun mem => (if v_owned (back i) then [] else [Some SetOwner]) ++ vsock_plan_rest i mem)
    [None] (v_mem (back i)).

Definition vsock_after i (h : H) (is_owned is_running : bool) : Inner R (VsockBack H N) :=
  set_back i {| cid := cid (back i); v_mem := v_mem (back i); v_backend := h;
                v_backend_features := v_backend_features (back i); v_kick_fds := v_kick_fds (back i);
                v_running := is_running; v_owned := is_owned |}.

#[local] Hint Unfold vsock_after vsock_with_backend vsock_set_running vsock_set_owned : vhost_state.

Abbreviation vsock_running := (fun i : Inner R (VsockBack H N) => set_back i (vsock_set_running (back i) true)).
Abbreviation vsock_own := (fun i : Inner R (VsockBack H N) => set_back i (vsock_set_owned (back i))).

Lemma vsock_rest_ends i mem :
  ends vsock_running
    (tell (SetFeatures (Z.land (df (com i)) (vsock_features (back i)))) ;;
     regions ← required (ram_table mem);
     tell (SetMemTable regions) ;;
     start_queues VSOCK_QUEUE_SIZE Some (v_kick_fds (back i)) VHOST_QUEUES ;;
     tell (SetGuestCid (cid (back i))) ;;
     tell Start ;;
     modify vsock_running) (vsock_plan_rest i mem) i.
Proof.
  unfold vsock_plan_rest. apply ends_seq; [apply follows_tell|].
  apply ends_required. intros regions _. apply ends_seq; [apply follows_tell|].
  apply ends_seq; [apply start_queues_follows|].
  apply (ends_seq _ _ _ [_] [_]); [apply follows_tell|].
  rewrite <- (app_nil_r [Some Start]). apply ends_seq; [apply follows_tell|apply ends_modify].
Qed.

Lemma vsock_rest_owner i mem : plan_owners (vsock_plan_rest i mem) = 0%nat.
Proof.
  unfold vsock_plan_rest. rewrite plan_owners_app. destruct (ram_table mem) as [rs|]; [|done].
  cbn [from_option]. by rewrite !plan_owners_app, queues_plan_owners.
Qed.

Lemma vsock_plan_owners i : (plan_owners (vsock_plan i) <= if v_owned (back i) then 0 else 1)%nat.
Proof.
  unfold vsock_plan. destruct (v_mem (back i)) as [mem|]; [|destruct (v_owned (back i)); vm_compute; lia].
  cbn [from_option]. rewrite plan_owners_app, vsock_rest_owner. destruct (v_owned (back i)); vm_compute; lia.
Qed.

Lemma vsock_activate_runs i :
  v_running (back i) = false ->
  let '(h, accepted, ok) := run_plan (v_backend (back i)) (vsock_plan i) in
  vsock_activate i = vsock_after i h (v_owned (back i) || bool_decide (SetOwner ∈ accepted)) ok.
Proof.
  intros Hrun. unfold vsock_activate. rewrite Hrun. unfold vsock_plan, vsock_start.
  rewrite bind_run. unfold get. rewrite bind_run. unfold required at 1.
  destruct (v_mem (back i)) as [mem|] eqn:Hm; cbn [from_option].
  2: { simpl. rewrite orb_false_r, <- Hrun. unfold vsock_after. by destruct i as [? ? ? ? ? ? ? ? [] ?]. }
  pose proof (own_run (v_owned (back i)) vsock_own
    (tell (SetFeatures (Z.land (df (com i)) (vsock_features (back i)))) ;;
     regions ← required (ram_table mem);
     tell (SetMemTable regions) ;;
     start_queues VSOCK_QUEUE_SIZE Some (v_kick_fds (back i)) VHOST_QUEUES ;;
     tell (SetGuestCid (cid (back i))) ;;
     tell Start ;;
     modify vsock_running) i (v_backend (back i)) ltac:(done)) as F.
  change (v_backend (back i)) with (vh_of (back i)) in F at 1. rewrite with_vhost_same in F. rewrite F. clear F.
  destruct (v_owned (back i)) eqn:Eo.
  - rewrite app_nil_l. rewrite (vsock_rest_ends i mem).
    by destruct (run_plan _ _) as [[h acc] []]; vhost_state.
  - rewrite run_plan_app. cbn [run_plan]. destruct (vhost _ SetOwner) as [h1 [a|]].
    + set (j := set_back i (vsock_set_owned (back i))). pose proof (vsock_rest_ends j mem h1) as F.
      change (vsock_plan_rest j mem) with (vsock_plan_rest i mem) in F.
      destruct (run_plan h1 (vsock_plan_rest i mem)) as [[h acc] ok]. cbn -[bool_decide].
      rewrite bool_decide_true by set_solver. etrans; [exact (f_equal fst F)|]. by destruct ok; vhost_state.
    + cbn -[bool_decide]. rewrite bool_decide_false by set_solver. vhost_state.
Qed.

Lemma vsock_rest_queues i mem c idx :
  Some c ∈ vsock_plan_rest i mem -> call_queue c = Some idx -> (idx < VHOST_QUEUES)%nat.
Proof.
  unfold vsock_plan_rest. intros [Hc|Hc]%elem_of_app Hq; [set_solver|].
  destruct (ram_table mem) as [rs|]; cbn [from_option] in Hc; [|set_solver].
  apply elem_of_app in Hc as [Hc|[Hc|Hc]%elem_of_app]; [set_solver| |set_solver].
  apply queues_plan_about in Hc as (n & Hn & Hlt). by simplify_eq.
Qed.

(** Starting the vsock device hands the kernel two of its three queues.  The
    calls are the plan read off the registers: the owner if there is none yet,
    the accepted features, the memory table, the rx and tx queues as programmed,
    the guest's id, and last the start.  They are made in order until one is
    refused; the device runs exactly when all were accepted; and no call is ever
    about the event queue. *)
Theorem vsock_activation_plan i :
  v_running (back i) = false ->
  let '(h, accepted, ok) := run_plan (v_backend (back i)) (vsock_plan i) in
  vsock_activate i = vsock_after i h (v_owned (back i) || bool_decide (SetOwner ∈ accepted)) ok /\
  (ok = true -> exists before, accepted = before ++ [SetGuestCid (cid (back i)); Start]) /\
  Forall (fun c => forall idx, call_queue c = Some idx -> (idx < VHOST_QUEUES)%nat) accepted.
Proof.
  intros Hrun. pose proof (vsock_activate_runs i Hrun) as Ha. pose proof (run_plan_prefix (v_backend (back i)) (vsock_plan i)) as Hp.
  destruct (run_plan _ _) as [[h acc] ok]. split; [done|]. destruct Hp as [[r Hr] Hok]. split.
  - intros ->. specialize (Hok eq_refl). clear Hr Ha. revert Hok. unfold vsock_plan, vsock_plan_rest.
    destruct (v_mem (back i)) as [mem|]; cbn [from_option]; [|by destruct acc].
    destruct (ram_table mem) as [rs|]; cbn [from_option].
    + rewrite !app_assoc. intros (a & z & _ & Hz & ->)%fmap_app_inv. exists a. f_equal.
      destruct z as [|? [|? []]]; by simplify_eq/=.
    + intros (a & z & _ & Hz & ->)%fmap_app_inv. by destruct z as [|? []].
  - apply Forall_forall. intros c Hc idx Hq. assert (Some c ∈ vsock_plan i) as Hin
      by (rewrite Hr; apply elem_of_app; left; by apply list_elem_of_fmap_2).
    unfold vsock_plan in Hin. destruct (v_mem (back i)) as [mem|]; cbn [from_option] in Hin; [|set_solver].
    apply elem_of_app in Hin as [Hin|Hin]; [|by eapply vsock_rest_queues].
    destruct (v_owned (back i)); set_solver.
Qed.

End Facts.

(** * On the bus *)

Section Bus.
Context {R H N : Type} {HR : MsiRouter R} {HH : Vhost H} {HN : HostMemory N}.
Implicit Types (i : Inner R (VsockBack (Logged H) N)).

Definition vsock_stat (b : VsockBack (Logged H) N) : Prop := owner_once (v_owned b) (v_backend b).

#[export] Instance vsock_laws : VirtioModelLaws R (VsockBack (Logged H) N) vsock_doorbells vsock_stat.
Proof.
  split.
  - done.
  - by apply numbered_queues_ok.
  - intros i. simpl. destruct (v_running (back i)) eqn:Er; [unfold vsock_activate; by rewrite Er|].
    pose proof (vsock_activate_runs i Er) as Ha.
    pose proof (run_plan_owner (v_backend (back i)) (vsock_plan i) (v_owned (back i)) (vsock_plan_owners i)) as Ho.
    destruct (run_plan _ _) as [[h acc] ok]. rewrite Ha. by split.
  - intros i. simpl. unfold vsock_stop. destruct (v_running (back i)); [|done].
    destruct (vcall_quiet Stop i) as (h & -> & Hh); [done|].
    split; try done. unfold vsock_stat, owner_once. simpl in *. congruence.
  - intros i n. simpl. unfold ring_kick. case_match; [|done]. by split.
Qed.

End Bus.

(** * A driver at work *)

Definition vsock_dev (n : nat) : option (Inner RouteLog (VsockBack (Logged Patient) OneRegion)) :=
  VsockDevice_new 7 {| region_len := 0x100000; host_base := 0x7f0000000000; fd := 3 |}
    {| other := {| patience := n; bits := VIRTIO_F_RING_EVENT_IDX |}; said := [] |} (fun k => 20 + Z.of_nat k).

Definition vsock_setup : list (Z * list Z) :=
  [(CFG_DRIVER_FEAT, le_bytes 4 0xFFFFFFFF); (CFG_DRIVER_FEAT_SEL, le_bytes 4 1); (CFG_DRIVER_FEAT, le_bytes 4 1)] ++
  queue_writes 0 0x10000 ++ queue_writes 1 0x20000 ++ queue_writes 2 0x30000.

(** The features negotiated, what the guest reads as its id, and a reset and
    second start: one owner, the queues programmed again. *)
Example vsock_runs :
  (i ← vsock_dev 100;
   let i := drive (msix_ready i) (vsock_setup ++ [(CFG_STATUS, [0xF])]) in
   let i' := drive i ([(CFG_STATUS, [0])] ++ vsock_setup ++ [(CFG_STATUS, [0xF])]) in
   Some (v_running (back i'), owners (said (v_backend (back i'))), length (said (v_backend (back i))),
         length (said (v_backend (back i'))), (vsock_bar0_read i' OFF_DEVICE (replicate 8 0)).2)) =
  Some (true, 1%nat, 16%nat, 31%nat, [7; 0; 0; 0; 0; 0; 0; 0]).
Proof. vm_compute. reflexivity. Qed.

Example vsock_reserved_cid n : VsockDevice_new (R := RouteLog) (H := Patient) (N := OneRegion) 2
  {| region_len := 0x100000; host_base := 0; fd := 3 |} {| patience := n; bits := 0 |} Z.of_nat = None.
Proof. reflexivity. Qed.

Definition vsock_ready : Inner RouteLog (VsockBack (Logged Patient) OneRegion) :=
  drive (msix_ready (vp_new (default ([], 0) vsock_pci_config).1 (default ([], 0) vsock_pci_config).2 4
    {| cid := 7; v_mem := Some {| region_len := 0x100000; host_base := 0x7f0000000000; fd := 3 |};
       v_backend := {| other := {| patience := 100; bits := VIRTIO_F_RING_EVENT_IDX |}; said := [] |};
       v_backend_features := VIRTIO_F_RING_EVENT_IDX; v_kick_fds := [20; 21; 22]; v_running := false;
       v_owned := false |})) vsock_setup.

Lemma vsock_activation_plan_witness :
  exists h accepted,
    run_plan (v_backend (back vsock_ready)) (vsock_plan vsock_ready) = (h, accepted, true) /\
    vsock_activate vsock_ready =
      vsock_after vsock_ready h (v_owned (back vsock_ready) || bool_decide (SetOwner ∈ accepted)) true.
Proof.
  assert (v_running (back vsock_ready) = false) as H by (vm_compute; reflexivity).
  assert ((run_plan (v_backend (back vsock_ready)) (vsock_plan vsock_ready)).2 = true) as Hok by (vm_compute; reflexivity).
  pose proof (vsock_activation_plan vsock_ready H) as P. clear H.
  destruct (run_plan _ _) as [[h acc] ok]. cbn in Hok. subst ok. exists h, acc. exact (conj eq_refl (proj1 P)).
Defined.
