(* ===== verification/FsDevice.v ===== *)
(** The filesystem device, [virtio-devices/src/fs.rs]: the transport of a device
    served by another process over vhost-user.  That process is told ring
    addresses of this process's address space, and maps them back with the
    memory table.

    The filesystem device: the handshake and what is said after it, rings enabled
    only once everything was accepted; and ring addresses that the other process
    can map back to the guest's. *)

From S2P Require Import Prelude PciConfig PciBus PciBusFacts PciBusPaths GuestMem Virtqueue VirtqueueRun Msix.
From S2P Require Import MsixFacts VirtioPci VirtioPciFacts Vhost.

Definition FS_QUEUE_SIZE : Z := 1024.
Definition FS_NUM_QUEUES : nat := 2.
Definition NUM_REQUEST_QUEUES : Z := 1.
Definition FS_MSIX_VECTORS : Z := 4.
Definition VIRTIO_ID_FS : Z := 26.
Definition FS_PCI_DEVICE_ID : Z := 0x1040 + VIRTIO_ID_FS.
Definition TAG_LEN : nat := 36.
Definition CONFIG_LEN : nat := TAG_LEN + 4.

(** Bits of the vhost-user protocol, as the library names them: the virtio
    feature that there are protocol features, and the three of those this device
    implements. *)
Class VhostUserBits := {
  PROTOCOL_FEATURES : Z;
  PROTOCOL_MQ : Z;
  PROTOCOL_REPLY_ACK : Z;
  PROTOCOL_CONFIG : Z
}.

Section Fs.
Context {R H N : Type} {HR : MsiRouter R} {HH : Vhost H} {HN : HostMemory N} {HU : VhostUserBits}.

Record FsBack := {
  tag : list Z;
  f_mem : N;
  frontend : H;
  f_kick_fds : list Z;
  f_running : bool;
  f_owned : bool
}.

Definition fs_with_frontend (b : FsBack) (h : H) : FsBack :=
  {| tag := tag b; f_mem := f_mem b; frontend := h; f_kick_fds := f_kick_fds b; f_running := f_running b;
     f_owned := f_owned b |}.
Definition fs_set_running (b : FsBack) (r : bool) : FsBack :=
  {| tag := tag b; f_mem := f_mem b; frontend := frontend b; f_kick_fds := f_kick_fds b; f_running := r;
     f_owned := f_owned b |}.
Definition fs_set_owned (b : FsBack) : FsBack :=
  {| tag := tag b; f_mem := f_mem b; frontend := frontend b; f_kick_fds := f_kick_fds b;
     f_running := f_running b; f_owned := true |}.

#[export] Instance FsBack_vhost : HasVhost FsBack H := { vh_of := frontend; with_vh := fs_with_frontend }.

Abbreviation Fs := (Inner R FsBack).

Definition fs_features (b : FsBack) : Z := VIRTIO_F_VERSION_1.

(** * Starting and stopping *)

(** Guest memory with the file behind each region. *)
Definition memory_regions (m : N) : option (list MemRegion) :=
  mapM (fun '(start, len, file) =>
    '(handle, offset) ← file;
    host ← get_host_address m start;
    Some {| guest_phys_addr := start; memory_size := len; userspace_addr := host; mmap_offset := offset;
            mmap_handle := handle |}) (mem_regions m).

Definition host_addr (b : FsBack) (gpa : Z) : option Z := get_host_address (f_mem b) gpa.

Definition wanted : Z := Z.lor (Z.lor PROTOCOL_MQ PROTOCOL_REPLY_ACK) PROTOCOL_CONFIG.

Definition fs_acked (i : Fs) (backend_features : Z) : Z :=
  Z.lor (Z.land (df (com i)) (fs_features (back i))) (Z.land backend_features PROTOCOL_FEATURES).

Definition fs_start : Act Fs unit :=
  i ← get;
  (if f_owned (back i) then mret tt
   else tell SetOwner ;; modify (fun i => set_back i (fs_set_owned (back i)))) ;;
  backend_features ← vcall GetFeatures;
  tell (SetFeatures (fs_acked i backend_features)) ;;
  (if has_bits backend_features PROTOCOL_FEATURES then
     offered ← vcall GetProtocolFeatures;
     tell (SetProtocolFeatures (Z.land offered wanted))
   else mret tt) ;;
  regions ← required (memory_regions (f_mem (back i)));
  tell (SetMemTable regions) ;;
  start_queues FS_QUEUE_SIZE (host_addr (back i)) (f_kick_fds (back i)) FS_NUM_QUEUES ;;
  each (fun idx => tell (SetVringEnable idx true)) (seq 0 FS_NUM_QUEUES) ;;
  modify (fun i => set_back i (fs_set_running (back i) true)).

Definition fs_activate (i : Fs) : Fs := if f_running (back i) then i else (fs_start i).1.

(** Stop one ring; the answers are not looked at. *)
Definition fs_disable (i : Fs) (idx : nat) : Fs :=
  (vcall (GetVringBase idx) (vcall (SetVringEnable idx false) i).1).1.

Definition fs_stop (i : Fs) : Fs :=
  if f_running (back i) then
    let i := foldl fs_disable i (seq 0 FS_NUM_QUEUES) in set_back i (fs_set_running (back i) false)
  else i.

#[export] Instance Fs_virtio : VirtioModel R FsBack := {
  features := fs_features;
  new_queues := numbered_queues FS_NUM_QUEUES FS_QUEUE_SIZE;
  QUEUE_SIZE := FS_QUEUE_SIZE;
  selects := clamped FS_NUM_QUEUES;
  config_bytes b := tag b ++ le_bytes 4 NUM_REQUEST_QUEUES;
  activate := fs_activate;
  stop := fs_stop;
  notify := ring_kick f_kick_fds
}.

(** * Construction *)

Definition fs_pci_config : option (list Z * Z) :=
  let c := PciConfig.new 0x1AF4 FS_PCI_DEVICE_ID 0x01 0x018000 0x1AF4 VIRTIO_ID_FS in
  c ← set_bar_mem c 0 BAR0_SIZE;
  let c := set_irq_pin c 1 in
  '(c, _) ← add_virtio_cap c 1 0 OFF_COMMON 0x38;
  '(c, _) ← add_virtio_notify_cap c 0 OFF_NOTIFY 0x100 NOTIFY_MULT;
  '(c, _) ← add_virtio_cap c 3 0 OFF_ISR 1;
  '(c, _) ← add_virtio_cap c 4 0 OFF_DEVICE (Z.of_nat CONFIG_LEN);
  '(c, msix_cap) ← add_msix_cap c (FS_MSIX_VECTORS - 1) OFF_MSIX_TABLE OFF_MSIX_PBA;
  '(c, _) ← add_pcie_cap c PCIE_TYPE_RC_INTEGRATED;
  Some (build c, msix_cap).

(** Around a connected frontend. *)
Definition FsDevice_new (name : list Z) (mem : N) (h : H) (kicks : nat -> Z) : option Fs :=
  if (TAG_LEN <=? length name)%nat then None
  else
    '(c, cap) ← fs_pci_config;
    Some (vp_new c cap (Z.to_nat FS_MSIX_VECTORS)
      {| tag := splice (replicate TAG_LEN 0) 0 name; f_mem := mem; frontend := h;
         f_kick_fds := kicks <$> seq 0 FS_NUM_QUEUES; f_running := false; f_owned := false |}).

(** * The registers of this device *)

Definition fs_com_read : Fs -> Z -> nat -> list Z := vp_com_read.
Definition fs_com_write : Fs -> Z -> list Z -> Fs := vp_com_write.
Definition fs_bar0_read : Fs -> Z -> list Z -> Fs * list Z := vp_bar0_read.
Definition fs_bar0_write : Fs -> Z -> list Z -> Fs := vp_bar0_write.

Definition fs_doorbells (b : FsBack) : list Doorbell := kick_doorbells (f_kick_fds b).

#[export] Instance Fs_pci : PciDevice Fs := registers_pci fs_doorbells.

End Fs.

Arguments FsBack : clear implicits.

Section Facts.
Context {R H N : Type} {HR : MsiRouter R} {HH : Vhost H} {HN : HostMemory N} {HU : VhostUserBits}.
Implicit Types (i : Inner R (FsBack H N)).

#[global] Instance fs_vhost_laws : HasVhostLaws (FsBack H N) H.
Proof. split; [by intros []|done..]. Qed.

(** * The plan *)

(** After the handshake: memory, queues at host addresses, and only then the
    rings switched on. *)
Definition fs_plan_rest i : plan :=
  from_option (fun regions =>
    [Some (SetMemTable regions)] ++
    queues_plan i FS_QUEUE_SIZE (host_addr (back i)) (f_kick_fds (back i)) FS_NUM_QUEUES ++
    [Some (SetVringEnable 0 true); Some (SetVringEnable 1 true)])
    [None] (memory_regions (f_mem (back i))).

(** With [features] and [offered] what the other side answers. *)
Definition fs_plan i (features offered : Z) : plan :=
  (if f_owned (back i) then [] else [Some SetOwner]) ++
  [Some GetFeatures; Some (SetFeatures (fs_acked i features))] ++
  (if has_bits features PROTOCOL_FEATURES then
     [Some GetProtocolFeatures; Some (SetProtocolFeatures (Z.land offered wanted))]
   else []) ++
  fs_plan_rest i.

(** The two answers, from the other side as it is when asked. *)
Definition fs_answers i : Z * Z :=
  let h := frontend (back i) in
  let h := if f_owned (back i) then h else (vhost h SetOwner).1 in
  let '(h, features) := vhost h GetFeatures in
  let features := default 0 features in
  let h := (vhost h (SetFeatures (fs_acked i features))).1 in
  (features, default 0 (vhost h GetProtocolFeatures).2).

Definition fs_after i (h : H) (is_owned is_running : bool) : Inner R (FsBack H N) :=
  set_back i {| tag := tag (back i); f_mem := f_mem (back i); frontend := h; f_kick_fds := f_kick_fds (back i);
                f_running := is_running; f_owned := is_owned |}.

#[local] Hint Unfold fs_after fs_with_frontend fs_set_running fs_set_owned : vhost_state.

Abbreviation fs_running := (fun i : Inner R (FsBack H N) => set_back i (fs_set_running (back i) true)).

Definition fs_rest i : Act (Inner R (FsBack H N)) unit :=
  regions ← required (memory_regions (f_mem (back i)));
  tell (SetMemTable regions) ;;
  start_queues FS_QUEUE_SIZE (host_addr (back i)) (f_kick_fds (back i)) FS_NUM_QUEUES ;;
  each (fun idx => tell (SetVringEnable idx true)) (seq 0 FS_NUM_QUEUES) ;;
  modify fs_running.

Lemma fs_rest_ends i : ends fs_running (fs_rest i) (fs_plan_rest i) i.
Proof.
  unfold fs_plan_rest, fs_rest. apply ends_required. intros regions _. apply ends_seq; [apply follows_tell|].
  apply ends_seq; [apply start_queues_follows|].
  rewrite <- (app_nil_r [_; _]). apply ends_seq; [|apply ends_modify].
  apply (follows_each _ (fun idx => [Some (SetVringEnable idx true)]) (seq 0 FS_NUM_QUEUES)).
  intros. apply follows_tell.
Qed.

(** The handshake after the owner. *)
Definition fs_shake i : Act (Inner R (FsBack H N)) unit :=
  backend_features ← vcall GetFeatures;
  tell (SetFeatures (fs_acked i backend_features)) ;;
  (if has_bits backend_features PROTOCOL_FEATURES then
     offered ← vcall GetProtocolFeatures;
     tell (SetProtocolFeatures (Z.land offered wanted))
   else mret tt) ;;
  fs_rest i.

Definition fs_shake_plan i (features offered : Z) : plan :=
  [Some GetFeatures; Some (SetFeatures (fs_acked i features))] ++
  (if has_bits features PROTOCOL_FEATURES then
     [Some GetProtocolFeatures; Some (SetProtocolFeatures (Z.land offered wanted))]
   else []) ++ fs_plan_rest i.

Definition fs_shake_answers i (h : H) : Z * Z :=
  let '(h, features) := vhost h GetFeatures in
  let features := default 0 features in
  let h := (vhost h (SetFeatures (fs_acked i features))).1 in
  (features, default 0 (vhost h GetProtocolFeatures).2).

Lemma fs_shake_run i h :
  fs_shake i (with_vhost i h) =
    let '(h', _, ok) := run_plan h (fs_shake_plan i (fs_shake_answers i h).1 (fs_shake_answers i h).2) in
    if ok : bool then (fs_running (with_vhost i h'), Some tt) else (with_vhost i h', None).
Proof.
  unfold fs_shake, fs_shake_plan, fs_shake_answers. rewrite vcall_run. rewrite run_plan_app. cbn [run_plan].
  destruct (vhost h GetFeatures) as [h1 [bf|]]; [|done]. cbn [from_option id].
  rewrite bind_run, (follows_tell _ i h1). cbn [run_plan fst snd from_option id].
  destruct (vhost h1 (SetFeatures _)) as [h2 [a|]]; [|done]. cbn [fst snd from_option id].
  destruct (has_bits bf PROTOCOL_FEATURES).
  - rewrite bind_assoc, vcall_run, run_plan_app. cbn [run_plan].
    destruct (vhost h2 GetProtocolFeatures) as [h3 [offered|]]; [|done]. cbn [snd from_option id].
    rewrite bind_run, (follows_tell _ i h3). cbn [run_plan].
    destruct (vhost h3 (SetProtocolFeatures _)) as [h4 [b|]]; [|done].
    rewrite (fs_rest_ends i h4). by destruct (run_plan h4 _) as [[h5 acc] []].
  - rewrite app_nil_l, bind_run. unfold mret, Act_ret. rewrite (fs_rest_ends i h2).
    by destruct (run_plan h2 _) as [[h5 acc] []].
Qed.

Lemma fs_rest_owner i : plan_owners (fs_plan_rest i) = 0%nat.
Proof.
  unfold fs_plan_rest. destruct (memory_regions _) as [rs|]; [|done]. cbn [from_option].
  by rewrite !plan_owners_app, queues_plan_owners.
Qed.

Lemma fs_shake_owner i features offered : plan_owners (fs_shake_plan i features offered) = 0%nat.
Proof.
  unfold fs_shake_plan. rewrite !plan_owners_app, fs_rest_owner. by destruct (has_bits features PROTOCOL_FEATURES).
Qed.

Lemma fs_plan_owners i features offered :
  (plan_owners (fs_plan i features offered) <= if f_owned (back i) then 0 else 1)%nat.
Proof.
  unfold fs_plan. fold (fs_shake_plan i features offered). rewrite plan_owners_app, fs_shake_owner.
  destruct (f_owned (back i)); vm_compute; lia.
Qed.

Lemma fs_activate_runs i :
  f_running (back i) = false ->
  let '(features, offered) := fs_answers i in
  let '(h, accepted, ok) := run_plan (frontend (back i)) (fs_plan i features offered) in
  fs_activate i = fs_after i h (f_owned (back i) || bool_decide (SetOwner ∈ accepted)) ok.
Proof.
  intros Hrun. unfold fs_activate, fs_answers. rewrite Hrun.
  change (fs_start i) with (((if f_owned (back i) then mret tt
    else tell SetOwner ;; modify (fun i => set_back i (fs_set_owned (back i)))) ;; fs_shake i) i).
  pose proof (own_run (f_owned (back i)) (fun i => set_back i (fs_set_owned (back i))) (fs_shake i) i (frontend (back i))
    ltac:(done)) as F.
  change (frontend (back i)) with (vh_of (back i)) in F at 1. rewrite with_vhost_same in F. rewrite F. clear F.
  fold (fs_shake_answers i (if f_owned (back i) then frontend (back i) else (vhost (frontend (back i)) SetOwner).1)).
  destruct (fs_shake_answers i _) as [features offered] eqn:Ea. unfold fs_plan. fold (fs_shake_plan i features offered).
  destruct (f_owned (back i)) eqn:Eo.
  - rewrite app_nil_l, fs_shake_run, Ea. cbn [fst snd from_option id].
    destruct (run_plan _ _) as [[h acc] []]; vhost_state.
  - rewrite run_plan_app. cbn [run_plan]. destruct (vhost _ SetOwner) as [h1 [a|]]; cbn [fst] in Ea.
    + set (j := set_back i (fs_set_owned (back i))). pose proof (fs_shake_run j h1) as F.
      change (fs_shake_answers j h1) with (fs_shake_answers i h1) in F. rewrite Ea in F. cbn [fst snd] in F.
      change (fs_shake_plan j features offered) with (fs_shake_plan i features offered) in F.
      destruct (run_plan h1 (fs_shake_plan i features offered)) as [[h acc] ok]. cbn -[bool_decide].
      rewrite bool_decide_true by set_solver. etrans; [exact (f_equal fst F)|]. destruct ok; vhost_state.
    + cbn -[bool_decide]. rewrite bool_decide_false by set_solver. vhost_state.
Qed.

(** Before any ring is enabled both were described. *)
Lemma fs_enable_last i features offered accepted k on :
  (Some <$> accepted) `prefix_of` fs_plan i features offered -> SetVringEnable k on ∈ accepted ->
  forall idx q, queues i !! idx = Some q -> (idx < FS_NUM_QUEUES)%nat ->
  exists d a u, host_addr (back i) (desc q) = Some d /\ host_addr (back i) (avail q) = Some a /\
    host_addr (back i) (used q) = Some u /\ SetVringAddr idx (vring_config FS_QUEUE_SIZE q d a u) ∈ accepted.
Proof.
  intros Hp Hk idx q Hq Hlt. unfold fs_plan, fs_plan_rest in Hp.
  assert (Some (SetVringEnable k on) ∉ (if f_owned (back i) then [] else [Some SetOwner])) as H1 by (destruct (f_owned (back i)); set_solver).
  assert (Some (SetVringEnable k on) ∉ (if has_bits features PROTOCOL_FEATURES then
     [Some GetProtocolFeatures; Some (SetProtocolFeatures (Z.land offered wanted))] else [])) as H2
    by (destruct (has_bits features PROTOCOL_FEATURES); set_solver).
  destruct (memory_regions _) as [rs|]; cbn [from_option] in Hp; rewrite !app_assoc in Hp.
  - destruct (prefix_past _ _ _ _ Hp Hk) as [Hno Hin].
    { rewrite !not_elem_of_app. split_and!; [done|set_solver|done|set_solver|apply queues_plan_enable]. }
    destruct (queues_plan_whole i FS_QUEUE_SIZE (host_addr (back i)) (f_kick_fds (back i)) FS_NUM_QUEUES idx q)
      as (d & a & u & Hd & Ha & Hu & Hc); [set_solver|done..|].
    exists d, a, u. split_and!; [done..|]. apply Hin. set_solver.
  - exfalso. destruct Hp as [r Hr]. apply (list_elem_of_fmap_2 Some) in Hk.
    assert (Some (SetVringEnable k on) ∈ (Some <$> accepted) ++ r) as Hk2 by set_solver. rewrite <- Hr in Hk2. set_solver.
Qed.

(** Starting the filesystem device completes the vhost-user handshake in
    order.  The calls are a plan of the registers and of the two answers of the
    other process: the owner if there is none yet, its features, the accepted
    ones with the protocol bit it has, the protocol features both sides have if
    that bit is set, the memory table with its files, and each queue at the host
    addresses of its rings; enabling the rings comes last.  They are made in
    order until one is refused or an address has no mapping, and the device runs
    exactly when the plan was followed to its end. *)
Theorem fs_activation_plan i :
  f_running (back i) = false ->
  let '(features, offered) := fs_answers i in
  let '(h, accepted, ok) := run_plan (frontend (back i)) (fs_plan i features offered) in
  fs_activate i = fs_after i h (f_owned (back i) || bool_decide (SetOwner ∈ accepted)) ok /\
  (Some <$> accepted) `prefix_of` fs_plan i features offered /\
  (forall k on, SetVringEnable k on ∈ accepted ->
     forall idx q, queues i !! idx = Some q -> (idx < FS_NUM_QUEUES)%nat ->
     exists d a u, host_addr (back i) (desc q) = Some d /\ host_addr (back i) (avail q) = Some a /\
       host_addr (back i) (used q) = Some u /\
       SetVringAddr idx (vring_config FS_QUEUE_SIZE q d a u) ∈ accepted).
Proof.
  intros Hrun. pose proof (fs_activate_runs i Hrun) as Ha. destruct (fs_answers i) as [features offered].
  pose proof (run_plan_prefix (frontend (back i)) (fs_plan i features offered)) as Hp.
  destruct (run_plan _ _) as [[h acc] ok]. destruct Hp as [Hp _]. split_and!; [done..|].
  intros k on Hk. by apply (fs_enable_last i features offered acc k on).
Qed.

End Facts.

(** * Addresses the other process can map back *)

(** What this process's memory map promises: a guest address that has a host
    address lies in a region, mapped in one piece. *)
Class HostMemoryLaws (N : Type) `{HostMemory N} : Prop := {
  host_in_region (m : N) gpa host :
    get_host_address m gpa = Some host ->
    exists start len file base, (start, len, file) ∈ mem_regions m /\ start <= gpa < start + len /\
      get_host_address m start = Some base /\ host = base + (gpa - start)
}.

Section Translate.
Context {R H N : Type} {HR : MsiRouter R} {HH : Vhost H} {HN : HostMemory N} {HU : VhostUserBits} {HL : HostMemoryLaws N}.
Implicit Types (i : Inner R (FsBack H N)).

(** The other process's view: the guest address of one of its peer's. *)
Definition mapped_back (regions : list MemRegion) (host gpa : Z) : Prop :=
  exists r, r ∈ regions /\ userspace_addr r <= host < userspace_addr r + memory_size r /\
    guest_phys_addr r + (host - userspace_addr r) = gpa.

Lemma memory_regions_cover (m : N) regions start len file :
  memory_regions m = Some regions -> (start, len, file) ∈ mem_regions m ->
  exists r, r ∈ regions /\ guest_phys_addr r = start /\ memory_size r = len /\
    get_host_address m start = Some (userspace_addr r).
Proof.
  unfold memory_regions. intros Hm%mapM_Some Hin. apply list_elem_of_lookup in Hin as [k Hk].
  destruct (Forall2_lookup_l _ _ _ _ _ Hm Hk) as (r & Hr & Heq). exists r.
  destruct file as [[handle offset]|]; [|done]. simpl in Heq.
  destruct (get_host_address m start) as [base|] eqn:Eb; simplify_eq/=.
  split_and!; [by eapply list_elem_of_lookup_2|done..].
Qed.

Lemma host_addr_maps_back i regions gpa host :
  memory_regions (f_mem (back i)) = Some regions -> host_addr (back i) gpa = Some host ->
  mapped_back regions host gpa.
Proof.
  intros Hm Hh. destruct (host_in_region _ _ _ Hh) as (start & len & file & base & Hin & Hr & Hb & ->).
  destruct (memory_regions_cover _ _ _ _ _ Hm Hin) as (r & Hr' & Hs & Hl & Hu).
  rewrite Hb in Hu. simplify_eq. exists r. split; [done|]. lia.
Qed.

(** Every ring address the filesystem device tells the other process can be
    mapped back: with the memory table of the same plan, by the region of the
    table that holds it, it is the guest address the driver programmed for that
    ring. *)
Theorem vring_addresses_map_back i features offered regions idx c :
  Some (SetMemTable regions) ∈ fs_plan i features offered ->
  Some (SetVringAddr idx c) ∈ fs_plan i features offered ->
  exists q, queues i !! idx = Some q /\
    mapped_back regions (desc_table_addr c) (desc q) /\
    mapped_back regions (avail_ring_addr c) (avail q) /\
    mapped_back regions (used_ring_addr c) (used q).
Proof.
  intros Ht Hc. unfold fs_plan, fs_plan_rest in Ht, Hc. destruct (memory_regions _) as [rs|] eqn:Em;
    cbn [from_option] in Ht, Hc; rewrite !elem_of_app in Ht, Hc.
  - assert (rs = regions) as ->.
    { destruct Ht as [Ht|[Ht|[Ht|[Ht|[Ht|Ht]]]]]; try (by repeat case_match; set_solver).
      by apply queues_plan_about in Ht as (? & [=] & _). }
    assert (Some (SetVringAddr idx c) ∈ queues_plan i FS_QUEUE_SIZE (host_addr (back i)) (f_kick_fds (back i)) FS_NUM_QUEUES)
      as Hq by (destruct Hc as [Hc|[Hc|[Hc|[Hc|[Hc|Hc]]]]]; try done; by repeat case_match; set_solver).
    destruct (queues_plan_addr _ _ _ _ _ _ _ Hq) as (q & d & a & u & Hi & Hd & Ha & Hu & ->).
    exists q. split; [done|]. simpl. split_and!; by eapply host_addr_maps_back.
  - exfalso. destruct Ht as [Ht|[Ht|[Ht|Ht]]]; by repeat case_match; set_solver.
Qed.

End Translate.

(** * On the bus *)

Section Bus.
Context {R H N : Type} {HR : MsiRouter R} {HH : Vhost H} {HN : HostMemory N} {HU : VhostUserBits}.
Implicit Types (i : Inner R (FsBack (Logged H) N)).

Definition fs_stat (b : FsBack (Logged H) N) : Prop := owner_once (f_owned b) (frontend b).

Lemma fs_disable_quiet i idx :
  exists l, fs_disable i idx = with_vhost i l /\ owners (said l) = owners (said (frontend (back i))).
Proof.
  unfold fs_disable. destruct (vcall_quiet (SetVringEnable idx false) i) as (l1 & -> & H1); [done|].
  destruct (vcall_quiet (GetVringBase idx) (with_vhost i l1)) as (l2 & -> & H2); [done|].
  exists l2. split; [apply with_vhost_with|]. simpl in *. congruence.
Qed.

#[export] Instance fs_laws : VirtioModelLaws R (FsBack (Logged H) N) fs_doorbells fs_stat.
Proof.
  split.
  - done.
  - by apply numbered_queues_ok.
  - intros i. simpl. destruct (f_running (back i)) eqn:Er; [unfold fs_activate; by rewrite Er|].
    pose proof (fs_activate_runs i Er) as Ha. destruct (fs_answers i) as [features offered].
    pose proof (run_plan_owner (frontend (back i)) (fs_plan i features offered) (f_owned (back i))
      (fs_plan_owners i features offered)) as Ho.
    destruct (run_plan _ _) as [[h acc] ok]. rewrite Ha. by split.
  - intros i. simpl. unfold fs_stop. destruct (f_running (back i)); [|done]. simpl.
    destruct (fs_disable_quiet i 0) as (h1 & -> & H1). destruct (fs_disable_quiet (with_vhost i h1) 1) as (h2 & -> & H2).
    split; try done. unfold fs_stat, owner_once. simpl in *. congruence.
  - intros i n. simpl. unfold ring_kick. case_match; [|done]. by split.
Qed.

End Bus.

(** * A driver at work *)

#[local] Instance protocol_bits : VhostUserBits :=
  {| PROTOCOL_FEATURES := 2 ^ 30; PROTOCOL_MQ := 2 ^ 0; PROTOCOL_REPLY_ACK := 2 ^ 3; PROTOCOL_CONFIG := 2 ^ 9 |}.

#[export] Instance OneRegion_laws : HostMemoryLaws OneRegion.
Proof.
  split. intros m gpa host. simpl. case_match; [|done]. bool_prop. intros [= <-].
  exists 0, (region_len m), (Some (fd m, 0)), (host_base m). split_and!; [set_solver|lia..| |lia].
  rewrite (proj2 (Z.ltb_lt _ _)) by lia. simpl. f_equal. lia.
Qed.

(** A device tagged ab, served by a process that answers every question with the
    protocol bit and MQ, and accepts [n] calls. *)
Definition fs_ready (n : nat) : Inner RouteLog (FsBack (Logged Patient) OneRegion) :=
  drive (msix_ready (vp_new (default ([], 0) fs_pci_config).1 (default ([], 0) fs_pci_config).2 4
    {| tag := splice (replicate TAG_LEN 0) 0 [97; 98]; f_mem := {| region_len := 0x100000; host_base := 0x7f0000000000; fd := 3 |};
       frontend := {| other := {| patience := n; bits := 2 ^ 30 + 1 |}; said := [] |}; f_kick_fds := [20; 21];
       f_running := false; f_owned := false |}))
    (queue_writes 0 0x10000 ++ queue_writes 1 0x20000).

Example fs_runs :
  said (frontend (back (fs_activate (fs_ready 100)))) =
    [SetOwner; GetFeatures; SetFeatures (2 ^ 30); GetProtocolFeatures; SetProtocolFeatures 1;
     SetMemTable [{| guest_phys_addr := 0; memory_size := 0x100000; userspace_addr := 0x7f0000000000;
                     mmap_offset := 0; mmap_handle := 3 |}];
     SetVringNum 0 1024;
     SetVringAddr 0 (vring_config 1024 (with_size QState_default 1024) 0x7f0000010000 0x7f0000011000 0x7f0000012000);
     SetVringBase 0 0; SetVringKick 0 20; SetVringCall 0 10;
     SetVringNum 1 1024;
     SetVringAddr 1 (vring_config 1024 (with_size QState_default 1024) 0x7f0000020000 0x7f0000021000 0x7f0000022000);
     SetVringBase 1 0; SetVringKick 1 21; SetVringCall 1 11;
     SetVringEnable 0 true; SetVringEnable 1 true].
Proof. vm_compute. reflexivity. Qed.

Lemma fs_activation_plan_witness :
  exists features offered h accepted,
    run_plan (frontend (back (fs_ready 100))) (fs_plan (fs_ready 100) features offered) = (h, accepted, true) /\
    fs_activate (fs_ready 100) =
      fs_after (fs_ready 100) h (f_owned (back (fs_ready 100)) || bool_decide (SetOwner ∈ accepted)) true.
Proof.
  assert (f_running (back (fs_ready 100)) = false) as H by (vm_compute; reflexivity).
  assert (fs_answers (fs_ready 100) = (2 ^ 30 + 1, 2 ^ 30 + 1)) as Ha by (vm_compute; reflexivity).
  assert ((run_plan (frontend (back (fs_ready 100))) (fs_plan (fs_ready 100) (2 ^ 30 + 1) (2 ^ 30 + 1))).2 = true)
    as Hok by (vm_compute; reflexivity).
  pose proof (fs_activation_plan (fs_ready 100) H) as P. clear H. rewrite Ha in P.
  exists (2 ^ 30 + 1), (2 ^ 30 + 1).
  destruct (run_plan _ _) as [[h acc] ok]. cbn in Hok. subst ok. exists h, acc. exact (conj eq_refl (proj1 P)).
Defined.

Lemma vring_addresses_map_back_witness :
  exists q, queues (fs_ready 100) !! 1%nat = Some q /\
    mapped_back [{| guest_phys_addr := 0; memory_size := 0x100000; userspace_addr := 0x7f0000000000;
                    mmap_offset := 0; mmap_handle := 3 |}] 0x7f0000020000 (desc q).
Proof.
  destruct (vring_addresses_map_back (fs_ready 100) 0 0
    [{| guest_phys_addr := 0; memory_size := 0x100000; userspace_addr := 0x7f0000000000; mmap_offset := 0; mmap_handle := 3 |}]
    1 (vring_config 1024 (with_size QState_default 1024) 0x7f0000020000 0x7f0000021000 0x7f0000022000)) as (q & Hq & Hd & _).
  - apply (bool_decide_unpack _). vm_compute. exact I.
  - apply (bool_decide_unpack _). vm_compute. exact I.
  - exists q. exact (conj Hq Hd).
Defined.
