(* ===== verification/ConsoleDevice.v ===== *)
(** The console device, [virtio-devices/src/console.rs]: guest output copied to
    the host's standard output, host input copied into the guest's receive
    buffers.  The reader thread is [console_input], one read of standard input
    at a time.

    Standard output is the bytes written so far and how many of them have been
    flushed; errors of the stream are ignored by the code.  A pass over a ring
    has a fuel; without it the pass is still going on. *)

From S2P Require Import Prelude PciConfig PciBus GuestMem Virtqueue Msix VirtioPci.

Definition CONSOLE_QUEUE_SIZE : Z := 256.
Definition CONSOLE_MSIX_VECTORS : Z := 4.
Definition CHUNK : Z := 4096.

Section Console.
Context {R M : Type} {HR : MsiRouter R} {HM : GuestMemory M}.

Record Stdout := { written_out : list Z; flushed : nat }.

Record ConsoleBack := {
  c_mem : option M;
  stdin_buf : list Z;
  cols : Z;
  rows : Z;
  stdout : Stdout
}.

Abbreviation Console := (Inner R ConsoleBack).

(** * Output *)

(** The inner loop of [process_tx]: a buffer in chunks, until one cannot be
    read.  [total] is a 32-bit counter. *)
Fixpoint emit_chunks (fuel : nat) (mem : M) (a len off : Z) (out : list Z) (total : Z) (wrote : bool)
    : list Z * Z * bool :=
  match fuel with
  | O => (out, total, wrote)
  | S fuel =>
      if off <? len then
        let n := Z.min (len - off) CHUNK in
        match read_slice mem (a ⊕ off) (Z.to_nat n) with
        | None => (out, total, wrote)
        | Some bytes => emit_chunks fuel mem a len (off + n) (out ++ bytes) (u32 (total + n)) true
        end
      else (out, total, wrote)
  end.

(** Enough chunks for a buffer. *)
Definition chunks_of (len : Z) : nat := Z.to_nat (len / CHUNK + 1).

Definition emit_desc (mem : M) (acc : list Z * Z * bool) (d : Desc) : list Z * Z * bool :=
  let '(out, total, wrote) := acc in
  let '(a, len, flags) := d in
  if Z.land flags VRING_DESC_F_WRITE =? 0 then emit_chunks (chunks_of len) mem a len 0 out total wrote
  else (out, total, wrote).

Definition emit_chain (mem : M) (descs : list Desc) (out : list Z) (wrote : bool) : list Z * Z * bool :=
  foldl (emit_desc mem) (out, 0, wrote) descs.

Fixpoint tx_loop (fuel : nat) (mem : M) (tx : QState) (out : list Z) (wrote : bool)
    : option (M * QState * list Z * bool) :=
  match fuel with
  | O => None
  | S fuel =>
      match pop_avail mem tx with
      | (tx, None) => Some (mem, tx, out, wrote)
      | (tx, Some (head, descs)) =>
          let '(out, total, wrote) := emit_chain mem descs out wrote in
          tx_loop fuel (push_used mem tx head total).1 tx out wrote
      end
  end.

Definition rx (i : Console) : QState := default QState_default (queues i !! 0%nat).
Definition tx (i : Console) : QState := default QState_default (queues i !! 1%nat).

(** Mark and raise the interrupt of a queue. *)
Definition interrupt (i : Console) (vector : Z) : Console :=
  let '(t, fds) := trigger (msix i) vector in set_irq i (Z.lor (isr i) 1) t fds.

Definition idle (q : QState) : bool := negb (enabled q) || (desc q =? 0).

Definition process_tx (fuel : nat) (i : Console) : option Console :=
  let b := back i in
  match c_mem b with
  | None => Some i
  | Some mem =>
      if idle (tx i) then Some i
      else
        '(mem, q, out, wrote) ← tx_loop fuel mem (tx i) (written_out (stdout b)) false;
        let i := set_queues i (<[1%nat := q]> (queues i)) in
        let i := set_back i {| c_mem := Some mem; stdin_buf := stdin_buf b; cols := cols b; rows := rows b;
          stdout := {| written_out := out; flushed := if wrote : bool then length out else flushed (stdout b) |} |} in
        Some (interrupt i (vec q))
  end.

(** * Input *)

(** The buffers of one chain, filled from the front of [buf]. *)
Fixpoint fill_chain (mem : M) (descs : list Desc) (buf : list Z) (written : Z) : M * list Z * Z :=
  match descs with
  | [] => (mem, buf, written)
  | (a, len, flags) :: descs =>
      if Z.land flags VRING_DESC_F_WRITE =? 0 then fill_chain mem descs buf written
      else
        match buf with
        | [] => (mem, buf, written)
        | _ =>
            let n := Nat.min (Z.to_nat len) (length buf) in
            let data := take n buf in
            let '(mem, ok) := write_slice mem a data in
            fill_chain mem descs (drop n buf) (if ok : bool then u32 (written + Z.of_nat n) else written)
        end
  end.

Fixpoint rx_loop (fuel : nat) (mem : M) (rx : QState) (buf : list Z) (delivered : Z)
    : option (M * QState * list Z * Z) :=
  match fuel with
  | O => None
  | S fuel =>
      match buf with
      | [] => Some (mem, rx, buf, delivered)
      | _ =>
          match pop_avail mem rx with
          | (rx, None) => Some (mem, rx, buf, delivered)
          | (rx, Some (head, descs)) =>
              let '(mem, buf, written) := fill_chain mem descs buf 0 in
              rx_loop fuel (push_used mem rx head written).1 rx buf (u32 (delivered + written))
          end
      end
  end.

Definition process_rx (fuel : nat) (i : Console) : option Console :=
  let b := back i in
  match c_mem b with
  | None => Some i
  | Some mem =>
      if idle (rx i) then Some i
      else
        '(mem, q, buf, delivered) ← rx_loop fuel mem (rx i) (stdin_buf b) 0;
        let i := set_queues i (<[0%nat := q]> (queues i)) in
        let i := set_back i {| c_mem := Some mem; stdin_buf := buf; cols := cols b; rows := rows b; stdout := stdout b |} in
        Some (if 0 <? delivered then interrupt i (vec q) else i)
  end.

(** One turn of the reader thread, having read [bytes]. *)
Definition console_input (fuel : nat) (i : Console) (bytes : list Z) : option Console :=
  let b := back i in
  process_rx fuel (set_back i {| c_mem := c_mem b; stdin_buf := stdin_buf b ++ bytes; cols := cols b; rows := rows b;
                                 stdout := stdout b |}).

(** * Registers *)

Definition console_notify (fuel : nat) (i : Console) (idx : Z) : option Console :=
  if idx =? 0 then process_rx fuel i
  else if idx =? 1 then process_tx fuel i
  else Some i.

(** A pass that does not end leaves nothing for the guest to observe: the vCPU
    that asked for it is in it. *)
Definition PASS : nat := Z.to_nat 65536.

#[export] Instance Console_virtio : VirtioModel R ConsoleBack := {
  features _ := Z.lor VIRTIO_F_VERSION_1 1;
  new_queues := [with_size QState_default CONSOLE_QUEUE_SIZE; with_vec (with_size QState_default CONSOLE_QUEUE_SIZE) 1];
  QUEUE_SIZE := CONSOLE_QUEUE_SIZE;
  selects sel := if sel =? 1 then 1%nat else 0%nat;
  config_bytes b := le_bytes 2 (cols b) ++ le_bytes 2 (rows b) ++ le_bytes 4 1 ++ replicate 4 0;
  activate i := i;
  stop i := i;
  notify i idx := default i (console_notify PASS i idx)
}.

Definition console_pci_config : option (list Z * Z) :=
  let c := PciConfig.new 0x1AF4 0x1043 0x01 0x078000 0x1AF4 0x0003 in
  c ← set_bar_mem c 0 BAR0_SIZE;
  let c := set_irq_pin c 1 in
  let c := set_irq_line c 11 in
  '(c, _) ← add_virtio_cap c 1 0 OFF_COMMON 0x38;
  '(c, _) ← add_virtio_notify_cap c 0 OFF_NOTIFY 0x100 NOTIFY_MULT;
  '(c, _) ← add_virtio_cap c 3 0 OFF_ISR 1;
  '(c, _) ← add_virtio_cap c 4 0 OFF_DEVICE 12;
  '(c, msix_cap) ← add_msix_cap c (CONSOLE_MSIX_VECTORS - 1) OFF_MSIX_TABLE OFF_MSIX_PBA;
  '(c, _) ← add_pcie_cap c PCIE_TYPE_RC_INTEGRATED;
  Some (build c, msix_cap).

Definition ConsoleDevice_new : option Console :=
  '(c, cap) ← console_pci_config;
  Some (vp_new c cap (Z.to_nat CONSOLE_MSIX_VECTORS)
    {| c_mem := None; stdin_buf := []; cols := 80; rows := 25; stdout := {| written_out := []; flushed := 0 |} |}).

Definition set_mem (i : Console) (m : M) : Console :=
  let b := back i in
  set_back i {| c_mem := Some m; stdin_buf := stdin_buf b; cols := cols b; rows := rows b; stdout := stdout b |}.

Definition console_com_read : Console -> Z -> nat -> list Z := vp_com_read.
Definition console_com_write : Console -> Z -> list Z -> Console := vp_com_write.
Definition console_bar0_read : Console -> Z -> list Z -> Console * list Z := vp_bar0_read.
Definition console_bar0_write : Console -> Z -> list Z -> Console := vp_bar0_write.

(** No doorbells. *)
#[export] Instance Console_pci : PciDevice Console := registers_pci (fun _ => []).

End Console.

Arguments ConsoleBack : clear implicits.
