(* ===== verification/ConsoleFacts.v ===== *)
(** The console: what a guest prints is what the host shows, in order and
    flushed; what is typed lands in the guest's buffers in order. *)

From S2P Require Import Prelude PciConfig PciBus PciBusFacts PciBusPaths GuestMem Virtqueue VirtqueueRings VirtqueueRun.
From S2P Require Import VirtqueueRun Msix MsixFacts VirtioPci VirtioPciFacts ConsoleDevice.

Section Facts.
Context {R M : Type} {HR : MsiRouter R} {HM : GuestMemory M} {HL : GuestMemoryLaws M}.
Implicit Types (i : Inner R (ConsoleBack M)) (mem : M) (q : QState).

(** * Output *)

(** The text of a chain: its device-readable buffers, one after the other. *)
Definition desc_text mem (d : Desc) : list Z :=
  if Z.land d.2 VRING_DESC_F_WRITE =? 0 then default [] (read_slice mem d.1.1 (Z.to_nat d.1.2)) else [].

Definition chain_text mem (descs : list Desc) : list Z := descs ≫= desc_text mem.

(** A buffer that can be read whole. *)
Definition desc_mapped mem (d : Desc) : Prop :=
  Z.land d.2 VRING_DESC_F_WRITE = 0 ->
  0 <= d.1.1 /\ 0 <= d.1.2 /\ d.1.1 + d.1.2 <= 2 ^ 64 /\ is_Some (read_slice mem d.1.1 (Z.to_nat d.1.2)).

(** From [off] on, a mapped buffer is emitted whole. *)
Lemma emit_chunks_all fuel mem a len off out total wrote bytes :
  0 <= a -> 0 <= off <= len -> a + len <= 2 ^ 64 -> len - off <= CHUNK * Z.of_nat fuel ->
  read_slice mem (a + off) (Z.to_nat (len - off)) = Some bytes ->
  emit_chunks fuel mem a len off out total wrote =
    (out ++ bytes, if off <? len then u32 (total + (len - off)) else total, wrote || (off <? len)).
Proof.
  revert off out total wrote bytes. induction fuel as [|fuel IH]; intros off out total wrote bytes Ha Ho Hw Hf Hr.
  { apply read_length in Hr. replace (len - off) with 0 in Hr by lia. destruct bytes; [|done].
    rewrite (proj2 (Z.ltb_ge off len)) by lia. by rewrite app_nil_r, orb_false_r. }
  cbn [emit_chunks]. destruct (Z.ltb_spec off len) as [Hlt|Hge].
  2: { apply read_length in Hr. replace (len - off) with 0 in Hr by lia. destruct bytes; [|done].
       by rewrite app_nil_r, orb_false_r. }
  set (n := Z.min (len - off) CHUNK). assert (0 < n <= len - off) as Hn by (unfold n, CHUNK; lia).
  assert (n <= CHUNK) as Hn' by (unfold n, CHUNK; lia).
  rewrite wrap_small by (unfold is_word; lia).
  replace (Z.to_nat (len - off)) with (Z.to_nat n + Z.to_nat (len - off - n))%nat in Hr by lia.
  pose proof (read_length _ _ _ _ Hr) as Hlen. apply read_split in Hr as [Hr1 Hr2]. rewrite Hr1.
  rewrite Z2Nat.id in Hr2 by lia. rewrite (IH (off + n) _ _ _ (drop (Z.to_nat n) bytes)); [|lia..| |].
  - rewrite <- app_assoc, take_drop, orb_true_r. do 2 f_equal.
    destruct (Z.ltb_spec (off + n) len).
    + unfold wrap. rewrite Z.add_mod_idemp_l by lia. f_equal. lia.
    + f_equal. lia.
  - unfold n, CHUNK in *. lia.
  - rewrite Z.add_assoc. replace (len - (off + n)) with (len - off - n) by lia. done.
Qed.

Lemma emit_desc_text mem d out total wrote :
  desc_mapped mem d -> 
  emit_desc mem (out, total, wrote) d =
    (out ++ desc_text mem d,
     if bool_decide (desc_text mem d = []) then total else u32 (total + Z.of_nat (length (desc_text mem d))),
     wrote || negb (bool_decide (desc_text mem d = []))).
Proof.
  destruct d as [[a len] flags]. unfold emit_desc, desc_mapped, desc_text. simpl. intros Hm.
  destruct (Z.eqb_spec (Z.land flags VRING_DESC_F_WRITE) 0) as [Hf|]; [|by rewrite app_nil_r, orb_false_r].
  destruct (Hm Hf) as (Ha & Hl & Hw & bytes & Hb). rewrite Hb. simpl.
  rewrite (emit_chunks_all _ _ _ _ _ _ _ _ bytes);
    [|lia..|unfold chunks_of, CHUNK; pose proof (Z.div_mod len 4096); pose proof (Z.mod_pos_bound len 4096); lia|].
  - apply read_length in Hb. rewrite Z.sub_0_r. replace (Z.of_nat (length bytes)) with len by lia.
    destruct (Z.ltb_spec 0 len) as [Hpos|Hz].
    + rewrite bool_decide_false by (intros ->; simpl in Hb; lia). done.
    + rewrite bool_decide_true; [done|]. destruct bytes; [done|simpl in Hb; lia].
  - by rewrite Z.add_0_r, Z.sub_0_r.
Qed.

Lemma emit_chain_text mem descs out wrote :
  Forall (desc_mapped mem) descs ->
  emit_chain mem descs out wrote =
    (out ++ chain_text mem descs, u32 (Z.of_nat (length (chain_text mem descs))),
     wrote || negb (bool_decide (chain_text mem descs = []))).
Proof.
  intros Hd. unfold emit_chain. assert (forall total, is_word 32 total ->
    foldl (emit_desc mem) (out, total, wrote) descs =
    (out ++ chain_text mem descs, u32 (total + Z.of_nat (length (chain_text mem descs))),
     wrote || negb (bool_decide (chain_text mem descs = [])))) as Hgen; [|by apply (Hgen 0)].
  revert out wrote. induction Hd as [|d descs Hd _ IH]; intros out wrote total Ht.
  { unfold chain_text. simpl. by rewrite app_nil_r, orb_false_r, Z.add_0_r, wrap_small. }
  cbn [foldl]. rewrite emit_desc_text by done. set (t := desc_text mem d). rewrite IH by (destruct (bool_decide (t = [])); [exact Ht|by apply wrap_range]).
  unfold chain_text. cbn [mbind list_bind]. fold (chain_text mem descs). fold t.
  rewrite <- app_assoc, <- orb_assoc. f_equal; [f_equal|].
  - rewrite length_app, Nat2Z.inj_add. destruct t as [|z t'];
      [by rewrite bool_decide_true|rewrite bool_decide_false by done].
    unfold wrap. rewrite Z.add_mod_idemp_l by lia. f_equal. lia.
  - f_equal. destruct t; simpl; [|done]. done.
Qed.

(** ** A driver that prints *)

Definition chain_at mem q (h : Z) : list Desc := collect_descs_with mem (desc q) h (qsize q) (indirect q).
Definition head_text mem q (h : Z) : list Z := chain_text mem (chain_at mem q h).

(** The driver has published [heads], and the rings, tables and buffers they name
    lie in memory [own] the device does not write. *)
Record printing (own : list (Z * Z)) mem q (k : Z) (heads : list Z) : Prop := {
  pr_quiet : ring_quiet own mem q k (u16 (last q + Z.of_nat (length heads)));
  pr_holds : ring_holds mem q heads;
  pr_last : is_word 16 (last q);
  pr_len : Z.of_nat (length heads) < 2 ^ 16;
  pr_tables : forall h m, h ∈ heads -> same_on own mem m -> chain_at m q h = chain_at mem q h;
  pr_bufs : forall h d, h ∈ heads -> d ∈ chain_at mem q h -> desc_mapped mem d /\
    (Z.land d.2 VRING_DESC_F_WRITE = 0 -> (d.1.1, d.1.2) ∈ own)
}.

Lemma same_on_slice own m m' a n :
  same_on own m m' -> (a, n) ∈ own -> read_slice m' a (Z.to_nat n) = read_slice m a (Z.to_nat n).
Proof. unfold same_on. rewrite Forall_forall. intros Hs Hin. exact (Hs _ Hin). Qed.

Lemma chain_text_same own m m' (descs : list Desc) :
  same_on own m m' -> (forall d, d ∈ descs -> Z.land d.2 VRING_DESC_F_WRITE = 0 -> (d.1.1, d.1.2) ∈ own) ->
  chain_text m' descs = chain_text m descs.
Proof.
  intros Hs. induction descs as [|d descs IH]; intros Ho; [done|]. unfold chain_text. cbn [mbind list_bind].
  fold (chain_text m descs) (chain_text m' descs). rewrite IH by (intros; apply Ho; set_solver). f_equal.
  unfold desc_text. destruct (Z.eqb_spec (Z.land d.2 VRING_DESC_F_WRITE) 0) as [Hf|]; [|done].
  f_equal. apply (same_on_slice own); [done|]. apply Ho; set_solver.
Qed.

Lemma bool_decide_app_nil (l k : list Z) :
  bool_decide (l ++ k = []) = bool_decide (l = []) && bool_decide (k = []).
Proof. destruct l as [|a l]; [done|]. rewrite (bool_decide_false ((a :: l) ++ k = [])), (bool_decide_false (a :: l = [])); done. Qed.

Lemma tx_loop_prints own m0 q0 k heads0 m l heads fuel out wrote :
  printing own m0 q0 k heads0 -> same_on own m0 m -> is_word 16 l ->
  ring_holds m0 (with_last q0 l) heads -> heads ⊆ heads0 -> u16 (l + Z.of_nat (length heads)) = u16 (last q0 + Z.of_nat (length heads0)) ->
  Z.of_nat (length heads) < 2 ^ 16 -> (length heads < fuel)%nat ->
  tx_loop fuel m (with_last q0 l) out wrote =
    Some (push_all m q0 ((fun h => (h, u32 (Z.of_nat (length (head_text m0 q0 h))))) <$> heads),
          with_last q0 (u16 (l + Z.of_nat (length heads))),
          out ++ (heads ≫= head_text m0 q0),
          wrote || negb (bool_decide ((heads ≫= head_text m0 q0) = []))).
Proof.
  intros HP. pose proof (pr_quiet _ _ _ _ _ HP) as HQ. pose proof (rq_avail _ _ _ _ _ HQ) as HA.
  revert m l fuel out wrote. induction heads as [|h heads IH]; intros m l [|fuel] out wrote Hs Hl Hr Hsub Hidx Hlen Hf;
    simpl in Hf; try lia; cbn [tx_loop].
  - destruct (ring_quiet_pop _ _ _ _ _ HQ m l Hs Hl) as [(El & -> & _)|(Hne & _)].
    + simpl. rewrite app_nil_r, orb_false_r, Z.add_0_r, (wrap_small 16) by done. done.
    + simpl in Hidx. rewrite Z.add_0_r, wrap_small in Hidx by done. congruence.
  - assert (avail_ok m0 (with_last q0 l) k) as HAl by (by apply avail_ok_last).
    destruct (pop_avail_holds m0 (with_last q0 l) k h heads HAl Hl Hlen Hr) as [Hpop0 Hr'].
    destruct (ring_quiet_pop _ _ _ _ _ HQ m0 l (same_on_refl _ _) Hl) as [(_ & Hbad & _)|(Hne & h' & Hh & Hpop0')];
      [by rewrite Hbad in Hpop0|].
    destruct (ring_quiet_pop _ _ _ _ _ HQ m l Hs Hl) as [(? & _)|(_ & h'' & Hh'' & ->)]; [done|].
    assert (h'' = h') as -> by congruence. assert (h' = h) as -> by (rewrite Hpop0' in Hpop0; by simplify_eq/=).
    assert (h ∈ heads0) as Hin by (apply Hsub; by left).
    fold (chain_at m q0 h). rewrite (pr_tables _ _ _ _ _ HP h m Hin Hs).
    assert (chain_text m (chain_at m0 q0 h) = head_text m0 q0 h) as Htext.
    { apply (chain_text_same own); [done|]. intros d Hd. by apply (pr_bufs _ _ _ _ _ HP h d). }
    rewrite emit_chain_text, Htext.
    2: { apply Forall_forall. intros d Hd. destruct (pr_bufs _ _ _ _ _ HP h d Hin Hd) as [Hm Ho].
         intros Hz. destruct (Hm Hz) as (Ha & Hn & Hw & Hmap). split_and!; [done..|].
         by rewrite (same_on_slice own m0 m _ _ Hs (Ho Hz)). }
    assert (forall t, push_used m (with_last q0 (u16 (l + 1))) h t = push_used m q0 h t) as Hpu by done.
    rewrite Hpu. rewrite IH; [|..].
    + change ((h :: heads) ≫= head_text m0 q0) with (head_text m0 q0 h ++ (heads ≫= head_text m0 q0)).
      rewrite bool_decide_app_nil, negb_andb, orb_assoc, app_assoc, u16_add_l.
      replace (l + 1 + Z.of_nat (length heads)) with (l + Z.of_nat (length (h :: heads))) by (simpl length; lia). done.
    + eapply same_on_trans; [exact Hs|]. apply push_used_same; [apply HQ|]. apply HQ.
    + by apply wrap_range.
    + simpl in Hr'. done.
    + intros x Hx. apply Hsub. by right.
    + rewrite u16_add_l. rewrite <- Hidx. f_equal. simpl length. lia.
    + simpl in Hlen. lia.
    + lia.
Qed.

(** What the guest prints is what the host shows.  When a driver has published
    chains of mapped buffers, apart from the used ring the device writes, one
    kick of the transmit queue ends, having appended to standard output exactly
    the bytes of the device-readable buffers, chain by chain in the order
    published, and flushed it; every chain is given back with its number of
    bytes, the device's position is the driver's, the input is untouched, and
    the queue's interrupt is raised. *)
Theorem console_output_shown (own : list (Z * Z)) (k : Z) (heads : list Z) (fuel : nat) i mem q :
  c_mem (back i) = Some mem -> queues i !! 1%nat = Some q -> idle q = false ->
  printing own mem q k heads -> (length heads < fuel)%nat ->
  let text := heads ≫= head_text mem q in
  let b := back i in
  let q' := with_last q (u16 (last q + Z.of_nat (length heads))) in
  process_tx fuel i =
    Some (interrupt (set_back (set_queues i (<[1%nat := q']> (queues i)))
      {| c_mem := Some (push_all mem q ((fun h => (h, u32 (Z.of_nat (length (head_text mem q h))))) <$> heads));
         stdin_buf := stdin_buf b; cols := cols b; rows := rows b;
         stdout := {| written_out := written_out (stdout b) ++ text;
                      flushed := if bool_decide (text = []) then flushed (stdout b)
                                 else length (written_out (stdout b) ++ text) |} |}) (vec q)).
Proof.
  intros Hm Hq Hi HP Hf text b q'. unfold process_tx. fold b. unfold b. rewrite Hm.
  unfold tx. rewrite Hq. simpl. rewrite Hi.
  assert (q = with_last q (last q)) as Eq by (by destruct q).
  pose proof (tx_loop_prints own mem q k heads mem (last q) heads fuel (written_out (stdout (back i))) false HP
    (same_on_refl _ _) (pr_last _ _ _ _ _ HP)) as Ht.
  rewrite <- Eq in Ht. rewrite Ht; [|apply HP|done|done|apply HP|done].
  simpl. fold text. destruct (bool_decide (text = [])); done.
Qed.

(** ** Whatever the guest does *)

Lemma emit_chunks_wrote fuel mem a len off out total wrote :
  let '(out', _, wrote') := emit_chunks fuel mem a len off out total wrote in
  wrote' = false -> out' = out /\ wrote = false.
Proof.
  revert off out total wrote. induction fuel as [|fuel IH]; intros off out total wrote; simpl; [done|].
  destruct (off <? len); [|done]. destruct (read_slice _ _ _) as [bytes|]; [|done].
  specialize (IH (off + Z.min (len - off) CHUNK) (out ++ bytes) (u32 (total + Z.min (len - off) CHUNK)) true).
  destruct (emit_chunks _ _ _ _ _ _ _ _) as [[out' total'] wrote']. intros Hw. by destruct (IH Hw).
Qed.

Lemma emit_chain_wrote mem descs out wrote :
  let '(out', _, wrote') := emit_chain mem descs out wrote in wrote' = false -> out' = out /\ wrote = false.
Proof.
  unfold emit_chain. generalize 0 as total. revert out wrote.
  induction descs as [|[[a len] flags] descs IH]; intros out wrote total; simpl; [done|].
  destruct (Z.land flags VRING_DESC_F_WRITE =? 0); [|apply IH].
  pose proof (emit_chunks_wrote (chunks_of len) mem a len 0 out total wrote) as He.
  destruct (emit_chunks _ _ _ _ _ _ _ _) as [[out1 total1] wrote1]. specialize (IH out1 wrote1 total1).
  destruct (foldl _ _ descs) as [[out2 total2] wrote2]. intros Hw. destruct (IH Hw) as [-> H1]. auto.
Qed.

Lemma tx_loop_keeps fuel mem q out wrote mem' q' out' wrote' :
  tx_loop fuel mem q out wrote = Some (mem', q', out', wrote') ->
  taken q q' /\ (wrote' = false -> out' = out /\ wrote = false).
Proof.
  revert mem q out wrote. induction fuel as [|fuel IH]; intros mem q out wrote Ht; [done|]. cbn [tx_loop] in Ht.
  pose proof (pop_avail_taken mem q) as Hp. destruct (pop_avail mem q) as [q1 [[h descs]|]]; simpl in Hp; [|by simplify_eq].
  pose proof (emit_chain_wrote mem descs out wrote) as He. destruct (emit_chain _ _ _ _) as [[out1 total1] wrote1].
  destruct (IH _ _ _ _ Ht) as [Hq Hw]. split; [by etrans|]. intros Hf. destruct (Hw Hf) as [-> H1]. auto.
Qed.

Lemma rx_loop_keeps fuel mem q buf n mem' q' buf' n' :
  rx_loop fuel mem q buf n = Some (mem', q', buf', n') -> taken q q'.
Proof.
  revert mem q buf n. induction fuel as [|fuel IH]; intros mem q buf n Ht; [done|]. cbn [rx_loop] in Ht.
  destruct buf as [|z buf]; [by simplify_eq|]. pose proof (pop_avail_taken mem q) as Hp.
  destruct (pop_avail mem q) as [q1 [[h descs]|]]; simpl in Hp; [|by simplify_eq].
  destruct (fill_chain _ _ _ _) as [[m1 b1] w1]. etrans; [exact Hp|]. by eapply IH.
Qed.

(** * Input *)

Definition writable (d : Desc) : bool := negb (Z.land d.2 VRING_DESC_F_WRITE =? 0).

(** The device-writable buffers of a chain: how much they hold, what they hold. *)
Definition rx_room (descs : list Desc) : nat :=
  foldr (fun d n => if writable d then Z.to_nat d.1.2 + n else n)%nat 0%nat descs.
Definition rx_text mem (descs : list Desc) : list Z :=
  descs ≫= fun d => if writable d then default [] (read_slice mem d.1.1 (Z.to_nat d.1.2)) else [].

(** They can be written, and no two share a byte. *)
Fixpoint rx_bufs mem (descs : list Desc) : Prop :=
  match descs with
  | [] => True
  | d :: descs =>
      (writable d = true -> 0 <= d.1.2 /\ is_Some (read_slice mem d.1.1 (Z.to_nat d.1.2)) /\
         Forall (fun e : Desc => writable e = true -> 0 <= e.1.2 /\ apart e.1.1 e.1.2 d.1.1 d.1.2) descs) /\ rx_bufs mem descs
  end.

Lemma rx_bufs_write mem a l descs : rx_bufs mem descs -> rx_bufs (write_slice mem a l).1 descs.
Proof.
  induction descs as [|d descs IH]; simpl; [done|]. intros [Hd Hs]. split; [|auto]. intros Hw.
  destruct (Hd Hw) as (H0 & Hm & Ha). split_and!; [done| |done]. by apply read_mapped.
Qed.

(** What lies outside the buffers is left alone. *)
Lemma fill_chain_frame mem descs buf n b len :
  Forall (fun e : Desc => writable e = true -> 0 <= e.1.2 /\ apart e.1.1 e.1.2 b len) descs -> 0 <= len ->
  read_slice (fill_chain mem descs buf n).1.1 b (Z.to_nat len) = read_slice mem b (Z.to_nat len).
Proof.
  intros Hd Hlen. revert mem buf n. induction Hd as [|[[a k] flags] descs Hd _ IH]; intros mem buf n; simpl; [done|].
  unfold writable in Hd. simpl in Hd.
  destruct (Z.land flags VRING_DESC_F_WRITE =? 0); simpl in Hd; [apply IH|]. destruct buf as [|z buf]; [done|].
  pose proof (read_apart mem a (take (Nat.min (Z.to_nat k) (length (z :: buf))) (z :: buf)) b (Z.to_nat len)) as Hfr.
  destruct (write_slice mem a _) as [m ok]. rewrite IH. apply Hfr. destruct (Hd eq_refl) as [Hk Ha].
  rewrite length_take. unfold apart in *. lia.
Qed.

Lemma fill_chain_written mem descs buf n k : 
  rx_bufs mem descs -> is_word 32 n -> k = Nat.min (rx_room descs) (length buf) ->
  (fill_chain mem descs buf n).1.2 = drop k buf /\ (fill_chain mem descs buf n).2 = u32 (n + Z.of_nat k).
Proof.
  revert mem buf n k. induction descs as [|[[a len] flags] descs IH]; intros mem buf n k Hb Hn ->; simpl.
  { by rewrite Z.add_0_r, wrap_small. }
  simpl in Hb. unfold writable in *. simpl in *. destruct Hb as [Hd Hs].
  destruct (Z.land flags VRING_DESC_F_WRITE =? 0); simpl in *; [by apply IH|].
  destruct buf as [|z buf].
  { simpl. rewrite Nat.min_0_r. by rewrite Z.add_0_r, wrap_small. }
  destruct (Hd eq_refl) as (Hlen & Hm & _). set (bf := z :: buf). set (j := Nat.min (Z.to_nat len) (length bf)).
  assert ((write_slice mem a (take j bf)).2 = true) as Hok.
  { apply GuestMem.write_ok. rewrite length_take. destruct Hm as [l Hl].
    replace (Z.to_nat len) with (Nat.min j (length bf) + (Z.to_nat len - Nat.min j (length bf)))%nat in Hl by lia.
    apply read_split in Hl as [Hl _]. eauto. }
  pose proof (rx_bufs_write mem a (take j bf) descs Hs) as Hs'.
  destruct (write_slice mem a (take j bf)) as [m ok]. simpl in Hok, Hs'. subst ok.
  destruct (IH m (drop j bf) (u32 (n + Z.of_nat j)) _ Hs' (wrap_range 32 _ ltac:(lia)) eq_refl) as [-> ->].
  rewrite length_drop, drop_drop. unfold wrap. rewrite Z.add_mod_idemp_l by lia.
  split; [f_equal; lia|f_equal; lia].
Qed.

(** The front of a buffer just written. *)
Lemma written_front mem a len (l : list Z) :
  is_Some (read_slice mem a len) -> (length l <= len)%nat -> Forall is_byte l ->
  exists tail, read_slice (write_slice mem a l).1 a len = Some (l ++ tail) /\ (length l + length tail)%nat = len.
Proof.
  intros Hm Hle Hb. assert (is_Some (read_slice (write_slice mem a l).1 a len)) as [t Ht] by (by apply read_mapped).
  assert ((write_slice mem a l).2 = true) as Hok.
  { apply GuestMem.write_ok. destruct Hm as [l0 Hl]. replace len with (length l + (len - length l))%nat in Hl by lia.
    apply read_split in Hl as [Hl _]. eauto. }
  pose proof (read_written _ _ _ Hok Hb) as Hr. pose proof (read_length _ _ _ _ Ht) as Hlen. rewrite Ht.
  replace len with (length l + (len - length l))%nat in Ht by lia. apply read_split in Ht as [Ht _].
  rewrite Hr in Ht. simplify_eq. exists (drop (length l) t). rewrite Ht at 1. rewrite take_drop. split; [done|].
  rewrite length_drop. lia.
Qed.

Lemma rx_text_cons mem d descs :
  rx_text mem (d :: descs) =
    (if writable d then default [] (read_slice mem d.1.1 (Z.to_nat d.1.2)) else []) ++ rx_text mem descs.
Proof. done. Qed.

Lemma rx_room_cons d descs :
  rx_room (d :: descs) = ((if writable d then Z.to_nat d.1.2 else 0) + rx_room descs)%nat.
Proof. simpl. by destruct (writable d). Qed.

Lemma fill_chain_text mem descs buf n :
  rx_bufs mem descs -> Forall is_byte buf ->
  take (Nat.min (rx_room descs) (length buf)) (rx_text (fill_chain mem descs buf n).1.1 descs) =
  take (Nat.min (rx_room descs) (length buf)) buf.
Proof.
  revert mem buf n. induction descs as [|[[a len] flags] descs IH]; intros mem buf n Hb Hby; [done|].
  destruct Hb as [Hd Hs]. rewrite rx_text_cons, rx_room_cons. cbn [fill_chain].
  change (writable (a, len, flags)) with (negb (Z.land flags VRING_DESC_F_WRITE =? 0)) in *. cbn [fst snd] in *.
  destruct (Z.land flags VRING_DESC_F_WRITE =? 0) eqn:Ef; cbn [negb] in *; [exact (IH _ _ _ Hs Hby)|].
  destruct buf as [|z buf]; [by rewrite !Nat.min_0_r|].
  destruct (Hd eq_refl) as (Hlen & Hm & Hap). set (bf := z :: buf) in *. set (j := Nat.min (Z.to_nat len) (length bf)) in *.
  destruct (written_front mem a (Z.to_nat len) (take j bf)) as (tail & Ht & Htl); [done|rewrite length_take; lia|by apply Forall_take|].
  pose proof (rx_bufs_write mem a (take j bf) descs Hs) as Hs'.
  destruct (write_slice mem a (take j bf)) as [m ok]. cbn [fst] in *.
  set (n' := if ok then _ else n). rewrite fill_chain_frame by done.
  rewrite Ht. cbn [default from_option id]. rewrite length_take in Htl.
  specialize (IH m (drop j bf) n' Hs' ltac:(by apply Forall_drop)). rewrite length_drop in IH.
  assert (j = Nat.min (Z.to_nat len) (length bf)) as Ej by done. clearbody j bf.
  destruct (decide (Z.to_nat len <= length bf)%nat).
  - assert (tail = []) as -> by (destruct tail; [done|simpl in Htl; lia]). rewrite app_nil_r.
    replace (Nat.min (Z.to_nat len + rx_room descs) (length bf)) with (j + Nat.min (rx_room descs) (length bf - j))%nat by lia.
    assert (length (take j bf) = j) as Hj by (rewrite length_take; lia).
    rewrite take_app_add', IH by done. by rewrite <- (take_app_add' (take j bf) _ j), take_drop by done.
  - replace (Nat.min (Z.to_nat len + rx_room descs) (length bf)) with j by lia.
    rewrite <- app_assoc. apply take_app_length'. rewrite length_take. lia.
Qed.

(** What is typed lands in the guest's buffers.  A chain whose writable buffers
    are mapped and do not overlap is filled from the front of the pending input:
    as many bytes as there are or as fit are taken, reading the buffers in chain
    order gives those bytes in order, the number of bytes is what the chain is
    given back with, the rest of the input stays pending, and no other memory
    changes. *)
Theorem console_input_lands mem (descs : list Desc) (buf : list Z) :
  rx_bufs mem descs -> Forall is_byte buf ->
  let n := Nat.min (rx_room descs) (length buf) in
  let '(mem', rest, written) := fill_chain mem descs buf 0 in
  take n (rx_text mem' descs) = take n buf /\ rest = drop n buf /\ written = u32 (Z.of_nat n) /\
  (forall b len, 0 <= len ->
     Forall (fun e : Desc => writable e = true -> 0 <= e.1.2 /\ apart e.1.1 e.1.2 b len) descs ->
     read_slice mem' b (Z.to_nat len) = read_slice mem b (Z.to_nat len)).
Proof.
  intros Hb Hby n. pose proof (fill_chain_text mem descs buf 0 Hb Hby) as Ht.
  destruct (fill_chain_written mem descs buf 0 n Hb ltac:(done) eq_refl) as [Hr Hw].
  pose proof (fun b len H1 H2 => fill_chain_frame mem descs buf 0 b len H2 H1) as Hf.
  destruct (fill_chain mem descs buf 0) as [[mem' rest] written]. by split_and!.
Qed.

End Facts.

(** * On the bus *)

Section Bus.
Context {R M : Type} {HR : MsiRouter R} {HM : GuestMemory M}.
Implicit Types (i : Inner R (ConsoleBack M)).

(** Nothing printed waits for more to be printed. *)
Definition console_stat (b : ConsoleBack M) : Prop := flushed (stdout b) = length (written_out (stdout b)).

Lemma interrupt_keeps i v i0 :
  keeps_regs (fun _ => []) console_stat i0 i -> keeps_regs (fun _ => []) console_stat i0 (interrupt i v).
Proof.
  intros []. unfold interrupt. destruct (trigger_shape (msix i) v) as [H1 H2].
  destruct (trigger (msix i) v) as [t fds]. split; simpl in *; try done; congruence.
Qed.

(** One queue consumed, and the state behind it changed. *)
Lemma queue_keeps i idx q q' b :
  queues i !! idx = Some q -> taken q q' -> (console_stat (back i) -> console_stat b) ->
  keeps_regs (fun _ => []) console_stat i (set_back (set_queues i (<[idx := q']> (queues i))) b).
Proof.
  intros Hq Ht Hb. split; simpl; try done. rewrite <- (list_insert_id (queues i) idx q) at 1 by done.
  apply Forall2_insert; [|done]. by apply Forall_Forall2_diag, Forall_true.
Qed.

Lemma process_tx_keeps fuel i i' :
  process_tx fuel i = Some i' -> keeps_regs (fun _ => []) console_stat i i'.
Proof.
  unfold process_tx. destruct (c_mem (back i)) as [mem|]; [|by intros [= <-]].
  destruct (idle (tx i)) eqn:Ei; [by intros [= <-]|].
  destruct (tx_loop _ _ _ _ _) as [[[[m q'] out] wrote]|] eqn:Et; simpl; [|done]. intros [= <-].
  apply tx_loop_keeps in Et as [Ht Hw]. apply interrupt_keeps. unfold tx in *.
  destruct (queues i !! 1%nat) as [q|] eqn:Eq; [|done]. eapply queue_keeps; [done|done|].
  unfold console_stat. simpl. destruct wrote; [done|]. by destruct Hw as [-> _].
Qed.

Lemma process_rx_keeps fuel i i' :
  process_rx fuel i = Some i' -> keeps_regs (fun _ => []) console_stat i i'.
Proof.
  unfold process_rx. destruct (c_mem (back i)) as [mem|]; [|by intros [= <-]].
  destruct (idle (rx i)) eqn:Ei; [by intros [= <-]|].
  destruct (rx_loop _ _ _ _ _) as [[[[m q'] buf] n]|] eqn:Et; simpl; [|done]. intros [= <-].
  apply rx_loop_keeps in Et as Ht. unfold rx in *.
  destruct (queues i !! 0%nat) as [q|] eqn:Eq; [|done].
  destruct (0 <? n); [apply interrupt_keeps|]; by eapply queue_keeps.
Qed.

#[export] Instance console_laws : VirtioModelLaws R (ConsoleBack M) (fun _ => []) console_stat.
Proof.
  split; [done| |done|done|].
  - do 2 (constructor; [by split; vm_compute|]). done.
  - intros i n. simpl. unfold console_notify. destruct (n =? 0); [|destruct (n =? 1); [|done]].
    + destruct (process_rx PASS i) as [i'|] eqn:E; [|done]. by eapply process_rx_keeps.
    + destruct (process_tx PASS i) as [i'|] eqn:E; [|done]. by eapply process_tx_keeps.
Qed.

End Bus.

(** * At work *)

(** Two chains: hello in two buffers, and a newline. *)
Definition con_queue : QState :=
  {| desc := 0x8000; avail := 0x9000; used := 0xA000; qsize := 4; enabled := true; last := 0; vec := 1;
     indirect := false; event_idx := false |}.

Definition con_ram : FlatRam :=
  let d m i a len f n :=
    write_le (write_le (write_le (write_le m (0x8000 + 16 * i) 8 a) (0x8008 + 16 * i) 4 len)
      (0x800C + 16 * i) 2 f) (0x800E + 16 * i) 2 n in
  let m := (write_slice (ram_zero 0x10000) 0x2000 [104; 101; 108; 108; 111; 10]).1 in
  let m := d m 0 0x2000 3 1 1 in
  let m := d m 1 0x2003 2 0 0 in
  let m := d m 2 0x2005 1 0 0 in
  write_le (write_le (write_le m 0x9004 2 0) 0x9006 2 2) 0x9002 2 2.

Definition con_dev (m : FlatRam) (typed : list Z) : Inner RouteLog (ConsoleBack FlatRam) :=
  set_queues (wired (vp_new (default ([], 0) console_pci_config).1 (default ([], 0) console_pci_config).2 4
    {| c_mem := Some m; stdin_buf := typed; cols := 80; rows := 25; stdout := {| written_out := []; flushed := 0 |} |}))
    [con_queue; con_queue].

Example console_prints :
  (i ← console_notify 4 (con_dev con_ram []) 1;
   Some (stdout (back i), rung i)) = Some ({| written_out := [104; 101; 108; 108; 111; 10]; flushed := 6 |}, [9]).
Proof. vm_compute. reflexivity. Qed.

Definition con_own : list (Z * Z) := [(0x8000, 64); (0x9000, 12); (0x2000, 3); (0x2003, 2); (0x2005, 1)].

Lemma con_descs :
  read_desc con_ram 0x8000 0 = Some (0x2000, 3, 1, 1) /\ read_desc con_ram 0x8000 1 = Some (0x2003, 2, 0, 0) /\
  read_desc con_ram 0x8000 2 = Some (0x2005, 1, 0, 0).
Proof. by vm_compute. Qed.

Lemma con_chain_same (m : FlatRam) h :
  h = 0 \/ h = 2 -> same_on con_own con_ram m ->
  chain_at m con_queue h = if h =? 0 then [(0x2000, 3, 1); (0x2003, 2, 0)] else [(0x2005, 1, 0)].
Proof.
  intros Hh Hs. destruct con_descs as (D0 & D1 & D2).
  assert (Hd : forall i, 0 <= i <= 2 -> read_desc m 0x8000 i = read_desc con_ram 0x8000 i).
  { intros i Hi. apply (read_desc_same con_own _ _ _ 64); [exact Hs|by left|eexists; vm_compute; reflexivity|lia..]. }
  unfold chain_at, collect_descs_with, walk_chain, walk_direct.
  destruct Hh as [-> | ->]; cbn -[read_desc]; change (Z.to_nat 4) with 4%nat; cbn -[read_desc].
  - rewrite Hd, D0 by lia. cbn -[read_desc]. rewrite Hd, D1 by lia. reflexivity.
  - rewrite Hd, D2 by lia. reflexivity.
Qed.

Lemma con_avail_mapped n off : 0 <= off -> off + Z.of_nat n <= 12 -> is_Some (read_le con_ram (0x9000 + off) n).
Proof.
  intros H1 H2. unfold read_le. apply fmap_is_Some. simpl. unfold ram_read.
  assert (ram_has con_ram (0x9000 + off) (Z.of_nat n) = true) as ->; [|eauto].
  unfold ram_has. change (ram_len con_ram) with 0x10000. apply andb_true_iff. rewrite !Z.leb_le. lia.
Qed.

Lemma con_printing : printing con_own con_ram con_queue 2 [0; 2].
Proof.
  split.
  - split.
    + repeat constructor; simpl; lia.
    + split; [reflexivity|lia|simpl; lia|simpl; lia|done|]. intros off n H1 H2. by apply con_avail_mapped.
    + right. left.
    + split; [simpl; lia|]. split; [simpl; lia|]. split; [simpl; lia|]. repeat constructor; unfold apart; simpl; lia.
    + by vm_compute.
  - split; [by vm_compute|]. intros [|[|[]]] h Hh; simplify_eq/=; by vm_compute.
  - unfold is_word. simpl. lia.
  - simpl. lia.
  - intros h m Hh Hs. assert (h = 0 \/ h = 2) as Hh' by set_solver.
    by rewrite (con_chain_same m), (con_chain_same con_ram) by (done || apply same_on_refl).
  - intros h d Hh Hd. assert (h = 0 \/ h = 2) as Hh' by set_solver.
    rewrite con_chain_same in Hd by (done || apply same_on_refl).
    assert (d = (0x2000, 3, 1) \/ d = (0x2003, 2, 0) \/ d = (0x2005, 1, 0)) as Hd' by (destruct (h =? 0); set_solver).
    destruct Hd' as [->|[->| ->]]; (split; [|unfold con_own; set_solver]);
      intros _; (split; [simpl; lia|]); (split; [simpl; lia|]); (split; [simpl; lia|]);
      eexists; vm_compute; reflexivity.
Qed.

Lemma console_output_shown_witness :
  (written_out ∘ stdout ∘ back <$> process_tx 3 (con_dev con_ram [])) = Some [104; 101; 108; 108; 111; 10].
Proof.
  rewrite (console_output_shown con_own 2 [0; 2] 3 (con_dev con_ram []) con_ram con_queue
    eq_refl eq_refl eq_refl con_printing ltac:(simpl; lia)).
  vm_compute. reflexivity.
Defined.

(** Seven bytes typed into a chain of four and two. *)
Definition con_rx_chain : list Desc := [(0x3000, 4, 3); (0x4000, 9, 1); (0x3010, 2, 2)].

Lemma console_input_lands_witness :
  let '(mem', rest, written) := fill_chain con_ram con_rx_chain [97; 98; 99; 100; 101; 102; 103] 0 in
  take 6 (rx_text mem' con_rx_chain) = [97; 98; 99; 100; 101; 102] /\ rest = [103] /\ written = 6.
Proof.
  assert (rx_bufs con_ram con_rx_chain) as Hb.
  { simpl. split_and!; try done; intros _; (split; [lia|]); (split; [eexists; vm_compute; reflexivity|]);
      repeat constructor; unfold apart; simpl; try done; lia. }
  assert (Forall is_byte [97; 98; 99; 100; 101; 102; 103]) as Hy by (repeat constructor; done).
  pose proof (console_input_lands con_ram con_rx_chain [97; 98; 99; 100; 101; 102; 103] Hb Hy) as P.
  destruct (fill_chain _ _ _ _) as [[m rest] w]. destruct P as (P1 & P2 & P3 & _). exact (conj P1 (conj P2 P3)).
Defined.
