(* ===== verification/GpuDevice.v ===== *)
(** The GPU on the PCI bus, [virtio-devices/src/gpu/device.rs]: its registers, the
    window of host memory behind BAR 2, and the hand-over of the control queue
    to the worker.  The worker's own work is in [GpuWorker]; here it is there or
    not, with the window it was given.

    The GPU on the bus: the worker serves the control queue as it was when the
    driver was ready, whatever is written to the registers meanwhile; what it
    shares with the device keeps the device's invariant. *)

From S2P Require Import Prelude PciConfig PciBus PciBusFacts PciBusPaths GuestMem Virtqueue VirtqueueRun.
From S2P Require Import VirtqueueRun Msix MsixFacts HostMapper GpuVram GpuChain GpuWire GpuProtocol GpuEdid.
From S2P Require Import GpuBackend GpuWorker VirtioPci VirtioPciFacts.

Definition GPU_NUM_QUEUES : nat := 2.
Definition GPU_QUEUE_SIZE : Z := 256.
Definition CTL_INDEX : nat := 0.
Definition VIRTIO_ID_GPU : Z := 16.
Definition GPU_PCI_DEVICE_ID : Z := 0x1040 + VIRTIO_ID_GPU.
Definition GPU_MSIX_VECTORS : Z := 4.
Definition SHM_BAR : nat := 2.
Definition VIRTIO_GPU_SHM_ID_HOST_VISIBLE : Z := 1.
Definition SHM_SIZE : Z := Z.shiftl 8 30.

Definition AVAIL_FEATURES : Z :=
  foldl Z.lor (Z.shiftl 1 32) [Z.shiftl 1 0; Z.shiftl 1 1; Z.shiftl 1 2; Z.shiftl 1 3; Z.shiftl 1 4].

(** How the device is set up; the paths, CPUs and timings of [GpuConfig] only
    concern the worker's thread. *)
Record GpuConfig := {
  displays : list DisplayInfo;
  vram_limit_bytes : option Z;
  window_limit_bytes : Z;
  window_max_mappings : Z
}.

Section Gpu.
Context {R P : Type} {HR : MsiRouter R}.

(** [g_ctl] is the worker's copy of the control queue, behind [Queues]. *)
Record GpuBack := {
  g_ctl : QState;
  ctl_kick : Z;
  num_capsets : Z;
  g_config : GpuConfig;
  g_shm_addr : Z;
  g_mapper : option P;
  g_worker : option VirtioShmRegion
}.

Definition with_worker (b : GpuBack) (c : QState) (w : option VirtioShmRegion) : GpuBack :=
  {| g_ctl := c; ctl_kick := ctl_kick b; num_capsets := num_capsets b; g_config := g_config b;
     g_shm_addr := g_shm_addr b; g_mapper := g_mapper b; g_worker := w |}.
Definition with_ctl (b : GpuBack) (c : QState) : GpuBack := with_worker b c (g_worker b).

Abbreviation Gpu := (Inner R GpuBack).

(** * Starting and stopping *)

Definition gpu_activate (i : Gpu) : Gpu :=
  let b := back i in
  match g_worker b, g_mapper b with
  | Some _, _ => i
  | None, None => i
  | None, Some _ =>
      if g_shm_addr b =? 0 then i
      else
        set_back i (with_worker b (default QState_default (queues i !! CTL_INDEX))
          (Some {| shm_guest_addr := g_shm_addr b; shm_size := SHM_SIZE |}))
  end.

(** The worker is told, woken and joined. *)
Definition gpu_stop (i : Gpu) : Gpu :=
  match g_worker (back i) with
  | Some _ =>
      let i := ring i [ctl_kick (back i)] in set_back i (with_worker (back i) (g_ctl (back i)) None)
  | None => i
  end.

Definition gpu_config_bytes (b : GpuBack) : list Z :=
  le_bytes 4 0 ++ le_bytes 4 0 ++ le_bytes 4 (Z.of_nat (length (displays (g_config b)))) ++ le_bytes 4 (num_capsets b).

(** Only the control queue is served. *)
Definition gpu_notify (i : Gpu) (idx : Z) : Gpu :=
  if (Z.to_nat idx =? CTL_INDEX)%nat then ring i [ctl_kick (back i)] else i.

#[export] Instance Gpu_virtio : VirtioModel R GpuBack := {
  features _ := AVAIL_FEATURES;
  new_queues := numbered_queues GPU_NUM_QUEUES GPU_QUEUE_SIZE;
  QUEUE_SIZE := GPU_QUEUE_SIZE;
  selects := clamped GPU_NUM_QUEUES;
  config_bytes := gpu_config_bytes;
  activate := gpu_activate;
  stop := gpu_stop;
  notify := gpu_notify
}.

(** * Construction *)

Definition gpu_pci_config : option (list Z * Z) :=
  let c := PciConfig.new 0x1AF4 GPU_PCI_DEVICE_ID 0x01 0x030000 0x1AF4 VIRTIO_ID_GPU in
  c ← set_bar_mem c 0 BAR0_SIZE;
  c ← set_bar_mem64 c (Z.of_nat SHM_BAR) SHM_SIZE;
  let c := set_irq_pin c 1 in
  '(c, _) ← add_virtio_cap c 1 0 OFF_COMMON 0x38;
  '(c, _) ← add_virtio_notify_cap c 0 OFF_NOTIFY 0x100 NOTIFY_MULT;
  '(c, _) ← add_virtio_cap c 3 0 OFF_ISR 1;
  '(c, _) ← add_virtio_cap c 4 0 OFF_DEVICE 16;
  '(c, _) ← add_virtio_shm_cap c VIRTIO_GPU_SHM_ID_HOST_VISIBLE (Z.of_nat SHM_BAR) 0 SHM_SIZE;
  '(c, msix_cap) ← add_msix_cap c (GPU_MSIX_VECTORS - 1) OFF_MSIX_TABLE OFF_MSIX_PBA;
  '(c, _) ← add_pcie_cap c PCIE_TYPE_RC_INTEGRATED;
  Some (PciConfig.build c, msix_cap).

(** Once the render node was found; [kick] is the doorbell made for it. *)
Definition GpuDevice_new (config : GpuConfig) (kick : Z) : option Gpu :=
  '(c, cap) ← gpu_pci_config;
  Some (vp_new c cap (Z.to_nat GPU_MSIX_VECTORS)
    {| g_ctl := with_size QState_default GPU_QUEUE_SIZE; ctl_kick := kick; num_capsets := 1; g_config := config;
       g_shm_addr := 0; g_mapper := None; g_worker := None |}).

Definition bind_mapper (i : Gpu) (p : P) : Gpu :=
  let b := back i in
  set_back i {| g_ctl := g_ctl b; ctl_kick := ctl_kick b; num_capsets := num_capsets b; g_config := g_config b;
                g_shm_addr := g_shm_addr b; g_mapper := Some p; g_worker := g_worker b |}.

Definition set_shm_guest_addr (i : Gpu) (a : Z) : Gpu :=
  let b := back i in
  set_back i {| g_ctl := g_ctl b; ctl_kick := ctl_kick b; num_capsets := num_capsets b; g_config := g_config b;
                g_shm_addr := a; g_mapper := g_mapper b; g_worker := g_worker b |}.

(** The worker corrects the count once the renderer reports it. *)
Definition set_num_capsets (i : Gpu) (n : Z) : Gpu :=
  let b := back i in
  set_back i {| g_ctl := g_ctl b; ctl_kick := ctl_kick b; num_capsets := n; g_config := g_config b;
                g_shm_addr := g_shm_addr b; g_mapper := g_mapper b; g_worker := g_worker b |}.

(** * On the bus *)

Definition gpu_com_read : Gpu -> Z -> nat -> list Z := vp_com_read.
Definition gpu_com_write : Gpu -> Z -> list Z -> Gpu := vp_com_write.
Definition gpu_bar0_read : Gpu -> Z -> list Z -> Gpu * list Z := vp_bar0_read.
Definition gpu_bar0_write : Gpu -> Z -> list Z -> Gpu := vp_bar0_write.

Definition ctl_doorbell (b : GpuBack) : Doorbell :=
  {| door_bar_idx := 0; door_offset := OFF_NOTIFY + Z.of_nat CTL_INDEX * NOTIFY_MULT; door_fd := ctl_kick b |}.

(** An access to the window that no mapping answers reads as zero. *)
#[export] Instance Gpu_pci : PciDevice Gpu := {|
  read_config i o data := (i, read_cfg_space (cfg i) o (length data));
  write_config := vp_write_config;
  read_bar i bi o data :=
    if (bi =? 0)%nat then let '(i, out) := gpu_bar0_read i o data in (i, out, true)
    else (i, replicate (length data) 0, (bi =? SHM_BAR)%nat);
  write_bar i bi o data := if (bi =? 0)%nat then (gpu_bar0_write i o data, true) else (i, (bi =? SHM_BAR)%nat);
  bar_size _ bi := if (bi =? 0)%nat then BAR0_SIZE else if (bi =? SHM_BAR)%nat then SHM_SIZE else 0;
  bar_type_of _ bi := if (bi =? SHM_BAR)%nat then Mem64 else Mem32;
  doorbells i := [ctl_doorbell (back i)]
|}.

(** ** What the worker shares with the device *)

(** The worker's view: guest memory, its control queue and the interrupt table. *)
Definition queues_of {M : Type} (i : Gpu) (mem : M) : Queues M R :=
  {| qu_mem := mem; ctl := g_ctl (back i); qu_msix := msix i; qu_signalled := rung i |}.

(** What it leaves there. *)
Definition put_queues {M : Type} (i : Gpu) (q : Queues M R) : Gpu :=
  set_back
    {| com := com i; qs := qs i; queues := queues i; isr := isr i; cfg_vec := cfg_vec i; msix := qu_msix q;
       cfg := cfg i; msix_cap := msix_cap i; back := back i; rung := qu_signalled q |}
    (with_ctl (back i) (ctl q)).

End Gpu.

Arguments GpuBack : clear implicits.

Section Facts.
Context {R P : Type} {HR : MsiRouter R}.
Implicit Types (i : Inner R (GpuBack P)).

Definition gpu_doors (b : GpuBack P) : list Doorbell := [ctl_doorbell b].

(** A worker is only there with a mapper and a placed window, the one it serves,
    and the queue it serves has registers of its widths. *)
Definition gpu_stat (b : GpuBack P) : Prop :=
  match g_worker b with
  | Some w => g_mapper b <> None /\ g_shm_addr b <> 0 /\ shm_guest_addr w = g_shm_addr b /\ shm_size w = SHM_SIZE
  | None => True
  end.

#[export] Instance gpu_laws : VirtioModelLaws R (GpuBack P) gpu_doors gpu_stat.
Proof.
  split.
  - done.
  - by apply numbered_queues_ok.
  - intros i. simpl. unfold gpu_activate. destruct (g_worker (back i)) eqn:Ew; [done|].
    destruct (g_mapper (back i)) eqn:Em; [|done]. destruct (Z.eqb_spec (g_shm_addr (back i)) 0); [done|].
    split; try done. intros _. unfold gpu_stat. simpl. by rewrite Em.
  - intros i. simpl. unfold gpu_stop. destruct (g_worker (back i)) eqn:Ew; [|done]. by split.
  - intros i n. simpl. unfold gpu_notify. case_match; [|done]. by split.
Qed.

(** ** What the worker does to the device *)

Lemma worker_pop_keeps {M : Type} {HM : GuestMemory M} i (mem : M) :
  keeps_regs gpu_doors gpu_stat i (put_queues i (queues_pop_ctl (queues_of i mem)).1).
Proof.
  unfold queues_pop_ctl, queues_of. simpl. case_match; [by split|]. by destruct (pop_avail mem (g_ctl (back i))); split.
Qed.

Lemma worker_complete_keeps {M : Type} {HM : GuestMemory M} i (mem : M) completed :
  keeps_regs gpu_doors gpu_stat i (put_queues i (queues_complete_ctl (queues_of i mem) completed)).
Proof.
  unfold queues_complete_ctl, queues_of. destruct completed as [|c cs]; [by split|]. simpl.
  assert (msix_on (trigger (msix i) (vec (g_ctl (back i)))).1 = msix_on (msix i) /\
    length (entries (trigger (msix i) (vec (g_ctl (back i)))).1) = length (entries (msix i))) as [H1 H2]
    by (unfold trigger; by repeat case_match).
  destruct (trigger _ _) as [t fds]. by split.
Qed.

(** ** Who may change the control queue *)

Definition resets (o : Z) (data : list Z) : Prop := o = OFF_COMMON + CFG_STATUS /\ (parse_write data).2 = 0.

Lemma running_write_back i o data w :
  g_worker (back i) = Some w -> ~ resets o data -> back (gpu_bar0_write i o data) = back i.
Proof.
  intros Hw Hr. unfold gpu_bar0_write, vp_bar0_write. case_match.
  - unfold vp_com_write. destruct (parse_write data) as [[v3 v2] v1] eqn:Ep.
    assert (forall f, back (on_sq i f) = back i) as Hsq by (intros f; unfold on_sq; by destruct (queues i !! _)).
    do 4 (case_match; [done|]). case_match.
    { unfold vp_write_status. destruct (Z.eqb_spec v1 0) as [->|].
      { destruct Hr. split; [unfold OFF_COMMON in *; lia|by rewrite Ep]. }
      case_match; [|done]. simpl. unfold gpu_activate. simpl. by rewrite Hw. }
    case_match; [done|]. do 3 (case_match; [apply Hsq|]). apply Hsq.
  - case_match; [done|]. case_match; [simpl; unfold gpu_notify; by case_match|]. case_match; [|done].
    unfold vp_msix_write. by destruct (Msix.write _ _ _).
Qed.

(** The worker serves the control queue of the moment the driver was ready.
    When DRIVER_OK is written to a device with a mapper and a placed window and
    no worker yet, the worker is given exactly the control queue's registers and
    the window behind BAR 2; from then on, no sequence of accesses to the
    device's registers and window changes what the worker was given, until a
    zero is written to the status register, after which there is no worker and
    its doorbell has been rung. *)
Theorem gpu_ctl_handed_over i p (l : list (nat * Z * list Z)) :
  g_worker (back i) = None -> g_mapper (back i) = Some p -> g_shm_addr (back i) <> 0 ->
  Forall (fun '(bi, o, data) => bi = 0%nat -> ~ resets o data) l ->
  let run := foldl (fun i '(bi, o, data) => (write_bar i bi o data).1) in
  let i1 := run (gpu_activate i) l in
  g_worker (back i1) = Some {| shm_guest_addr := g_shm_addr (back i); shm_size := SHM_SIZE |} /\
  g_ctl (back i1) = default QState_default (queues i !! CTL_INDEX) /\
  (forall data, (parse_write data).2 = 0 ->
     let i2 := (write_bar i1 0 (OFF_COMMON + CFG_STATUS) data).1 in
     g_worker (back i2) = None /\ rung i2 = rung i1 ++ [ctl_kick (back i)] /\
     queues i2 = numbered_queues GPU_NUM_QUEUES GPU_QUEUE_SIZE).
Proof.
  intros Hw Hm Hs Hl run i1.
  set (w := {| shm_guest_addr := g_shm_addr (back i); shm_size := SHM_SIZE |}).
  assert (back (gpu_activate i) = with_worker (back i) (default QState_default (queues i !! CTL_INDEX)) (Some w)) as Ha.
  { unfold gpu_activate. rewrite Hw, Hm. by rewrite (proj2 (Z.eqb_neq _ _)). }
  assert (back i1 = back (gpu_activate i)) as Hb.
  { unfold i1, run. assert (g_worker (back (gpu_activate i)) = Some w) as Hw' by (by rewrite Ha).
    clear Ha i1 run. revert Hw'. generalize (gpu_activate i) as j. induction Hl as [|[[bi o] data] l Ho _ IH]; intros j Hj; [done|].
    cbn [foldl]. assert (back (write_bar j bi o data).1 = back j) as Hk.
    { simpl. destruct (Nat.eqb_spec bi 0) as [->|]; [|done]. simpl. apply (running_write_back _ _ _ w); auto. }
    rewrite IH; [done|]. by rewrite Hk. }
  rewrite Hb, Ha. split_and!; [done..|]. intros data Hz i2. unfold i2. simpl.
  unfold gpu_bar0_write, vp_bar0_write, vp_com_write. destruct (parse_write data) as [[v3 v2] v1]. simpl in Hz. subst v1.
  simpl. unfold vp_write_status, vp_reset. simpl. unfold gpu_stop. simpl. rewrite Hb, Ha. done.
Qed.

End Facts.

(** * On the bus *)

#[export] Instance gpu_doors_fixed {R P : Type} {HR : MsiRouter R} : DoorbellsFixed (D := Inner R (GpuBack P)).
Proof.
  split; [done|done|..]; intros i n o data; simpl; (destruct (n =? 0)%nat; [|done]).
  - pose proof (vp_bar0_read_back i o data) as Hb. unfold gpu_bar0_read.
    destruct (vp_bar0_read i o data). simpl in *. by rewrite Hb.
  - exact (vp_bar0_write_doors (doors := gpu_doors) i o data).
Qed.

(** * At work *)

Definition gpu_config0 : GpuConfig :=
  {| displays := []; vram_limit_bytes := None; window_limit_bytes := 0; window_max_mappings := 0 |}.

Definition gpu_ready : Inner RouteLog (GpuBack unit) :=
  drive (set_shm_guest_addr (bind_mapper (wired (vp_new (default ([], 0) gpu_pci_config).1 (default ([], 0) gpu_pci_config).2 4
    {| g_ctl := with_size QState_default GPU_QUEUE_SIZE; ctl_kick := 30; num_capsets := 1; g_config := gpu_config0;
       g_shm_addr := 0; g_mapper := None; g_worker := None |})) tt) 0x800000000)
    (queue_writes 0 0x10000 ++ queue_writes 1 0x20000).

(** Moving the control queue's rings while the worker runs changes the registers
    and not the worker's queue. *)
Lemma gpu_ctl_handed_over_witness :
  let run := foldl (fun (i : Inner RouteLog (GpuBack unit)) '(bi, o, data) => (write_bar i bi o data).1) in
  let i1 := run (gpu_activate gpu_ready) [(0%nat, CFG_QUEUE_SEL, [0; 0]); (0%nat, CFG_QUEUE_DESC_LO, [0; 0; 5; 0]); (2%nat, 0x14, [0])] in
  desc (default QState_default (queues i1 !! 0%nat)) = 0x50000 /\ desc (g_ctl (back i1)) = 0x10000.
Proof.
  intros run i1. split; [vm_compute; reflexivity|].
  assert (g_worker (back gpu_ready) = None) as H1 by (vm_compute; reflexivity).
  assert (g_mapper (back gpu_ready) = Some tt) as H2 by (vm_compute; reflexivity).
  assert (g_shm_addr (back gpu_ready) <> 0) as H3 by (vm_compute; discriminate).
  destruct (gpu_ctl_handed_over gpu_ready tt [(0%nat, CFG_QUEUE_SEL, [0; 0]); (0%nat, CFG_QUEUE_DESC_LO, [0; 0; 5; 0]); (2%nat, 0x14, [0])]
    H1 H2 H3) as (_ & Hc & _).
  - do 2 (apply Forall_cons; split; [intros _ [Ho _]; vm_compute in Ho; discriminate|]).
    apply Forall_cons. split; [intros Hbi; discriminate|apply Forall_nil_2].
  - unfold i1, run. etransitivity; [exact (f_equal desc Hc)|]. vm_compute. reflexivity.
Defined.
