(* ===== verification/Interrupt.v ===== *)
(** Interrupt routing, [vmm/src/interrupt.rs], and the INTx lines of the slots,
    [slot_gsi] and the _PRT of [vmm/src/acpi.rs].

    The kernel is the class [Kvm]; its [installed] table and [irqfds] are what
    it can be observed to hold.  [BTreeMap] is a list sorted by key. *)

From Stdlib Require Import Sorted.
From S2P Require Import Prelude PciBus Msix.

Definition IOAPIC_PINS : Z := 24.
Definition FIRST_MSI_GSI : Z := IOAPIC_PINS.

Inductive irqchip := PicMaster | PicSlave | IoApic.

(** [kvm_irq_routing_entry]. *)
Inductive RoutingEntry :=
  | ToChip (gsi : Z) (chip : irqchip) (pin : Z)
  | ToMsi (gsi address_lo address_hi data : Z).

Class Kvm (K : Type) := {
  new_eventfd : K -> K * option Z;
  register_irqfd : K -> Z -> Z -> K * bool;
  set_gsi_routing : K -> list RoutingEntry -> K * bool;
  register_ioevent : K -> Z -> Z -> K * bool;
  unregister_ioevent : K -> Z -> Z -> K * bool
}.

(** * The ordered map *)

Section Map.
Context {V : Type}.

Fixpoint bt_get (m : list (Z * V)) (k : Z) : option V :=
  match m with
  | [] => None
  | (j, v) :: m => if j =? k then Some v else bt_get m k
  end.

Fixpoint bt_insert (m : list (Z * V)) (k : Z) (v : V) : list (Z * V) :=
  match m with
  | [] => [(k, v)]
  | (j, w) :: m =>
      if k <? j then (k, v) :: (j, w) :: m
      else if j =? k then (k, v) :: m
      else (j, w) :: bt_insert m k v
  end.

End Map.

(** * The manager *)

Definition legacy_of (gsi : Z) : list RoutingEntry :=
  ToChip gsi IoApic gsi ::
  (if gsi <? 16 then [ToChip gsi (if gsi <? 8 then PicMaster else PicSlave) (gsi mod 8)] else []).

Definition legacy_entries : list RoutingEntry := seqZ 0 IOAPIC_PINS ≫= legacy_of.

Section Manager.
Context {K : Type} {HK : Kvm K}.

(** [msi]: address and data by GSI. *)
Record IrqManager := { vm_fd : K; next_gsi : Z; msi : list (Z * (Z * Z)) }.

Definition with_vm (m : IrqManager) (k : K) : IrqManager := {| vm_fd := k; next_gsi := next_gsi m; msi := msi m |}.

Definition msi_entry (x : Z * (Z * Z)) : RoutingEntry :=
  let '(gsi, (a, data)) := x in ToMsi gsi (u32 a) (u32 (Z.shiftr a 32)) data.

(** What [commit] installs. *)
Definition routing_table (m : IrqManager) : list RoutingEntry := legacy_entries ++ (msi_entry <$> msi m).

Definition commit (m : IrqManager) : IrqManager * bool :=
  let '(k, ok) := set_gsi_routing (vm_fd m) (routing_table m) in (with_vm m k, ok).

Definition IrqManager_new (k : K) : option IrqManager :=
  let '(m, ok) := commit {| vm_fd := k; next_gsi := FIRST_MSI_GSI; msi := [] |} in
  if ok then Some m else None.

(** An eventfd wired to [gsi]. *)
Definition wire_irqfd (m : IrqManager) (gsi : Z) : IrqManager * option Z :=
  match new_eventfd (vm_fd m) with
  | (k, None) => (with_vm m k, None)
  | (k, Some fd) =>
      let '(k, ok) := register_irqfd k fd gsi in (with_vm m k, if ok : bool then Some fd else None)
  end.

(** The GSI is used up whatever becomes of the rest. *)
Definition allocate_msi_vector (m : IrqManager) : IrqManager * option MsiVector :=
  let gsi := next_gsi m in
  let '(m, fd) := wire_irqfd {| vm_fd := vm_fd m; next_gsi := u32 (next_gsi m + 1); msi := msi m |} gsi in
  (m, (fun fd => {| gsi := gsi; irq_fd := fd |}) <$> fd).

Fixpoint allocate_msi_vectors (m : IrqManager) (count : nat) : IrqManager * option (list MsiVector) :=
  match count with
  | O => (m, Some [])
  | S count =>
      match allocate_msi_vector m with
      | (m, None) => (m, None)
      | (m, Some v) =>
          let '(m, vs) := allocate_msi_vectors m count in (m, cons v <$> vs)
      end
  end.

Definition legacy_irqfd (m : IrqManager) (gsi : Z) : IrqManager * option Z :=
  if gsi <? IOAPIC_PINS then wire_irqfd m gsi else (m, None).

Definition irq_set_msi_route (m : IrqManager) (gsi a data : Z) : IrqManager * bool :=
  if match bt_get (msi m) gsi with Some (old_a, old_data) => (old_a =? a) && (old_data =? data) | None => false end
  then (m, true)
  else commit {| vm_fd := vm_fd m; next_gsi := next_gsi m; msi := bt_insert (msi m) gsi (a, data) |}.

#[export] Instance IrqManager_router : MsiRouter IrqManager := { set_msi_route := irq_set_msi_route }.

#[export] Instance IrqManager_registrar : IoeventRegistrar IrqManager := {
  register m a fd := let '(k, ok) := register_ioevent (vm_fd m) a fd in (with_vm m k, ok);
  unregister m a fd := let '(k, ok) := unregister_ioevent (vm_fd m) a fd in (with_vm m k, ok)
}.

End Manager.

Arguments IrqManager : clear implicits.

(** * INTx *)

Definition slot_gsi (slot : Z) : Z := if slot =? 1 then 10 else 11.

(** The _PRT: for any function of a slot, the line of INTA#. *)
Definition prt_data : list (Z * Z) :=
  (fun slot => (Z.lor (Z.shiftl slot 16) 0xFFFF, slot_gsi slot)) <$> seqZ 0 32.

(** * What the routes come to *)

(** What the kernel holds, and that each call does what it says or nothing. *)
Class KvmLaws (K : Type) `{Kvm K} := {
  installed : K -> list RoutingEntry;
  installed_set k es : installed (set_gsi_routing k es).1 = if (set_gsi_routing k es).2 then es else installed k;
  installed_eventfd k : installed (new_eventfd k).1 = installed k;
  installed_irqfd k fd g : installed (register_irqfd k fd g).1 = installed k;
  installed_ioevent k a fd : installed (register_ioevent k a fd).1 = installed k;
  installed_unioevent k a fd : installed (unregister_ioevent k a fd).1 = installed k
}.

Section Facts.
Context {K : Type} {HK : Kvm K} {HL : KvmLaws K}.
Implicit Types (m : IrqManager K).

Definition sorted_keys {V : Type} (l : list (Z * V)) : Prop := StronglySorted Z.lt l.*1.

Lemma bt_get_insert {V : Type} (l : list (Z * V)) k v j :
  sorted_keys l -> bt_get (bt_insert l k v) j = if k =? j then Some v else bt_get l j.
Proof.
  unfold sorted_keys. induction l as [|[i w] l IH]; intros Hs; simpl; [done|].
  apply StronglySorted_inv in Hs as [Hs _].
  destruct (Z.ltb_spec k i); simpl; [done|]. destruct (Z.eqb_spec i k) as [->|]; simpl.
  - by destruct (k =? j).
  - rewrite IH by done. destruct (Z.eqb_spec i j), (Z.eqb_spec k j); congruence.
Qed.

Lemma bt_insert_keys {V : Type} (l : list (Z * V)) k v j : j ∈ (bt_insert l k v).*1 <-> j = k \/ j ∈ l.*1.
Proof.
  induction l as [|[i w] l IH]; simpl; [set_solver|]. destruct (k <? i); simpl; [set_solver|].
  destruct (Z.eqb_spec i k) as [->|]; simpl; [set_solver|]. rewrite !elem_of_cons, IH. tauto.
Qed.

Lemma bt_insert_sorted {V : Type} (l : list (Z * V)) k v : sorted_keys l -> sorted_keys (bt_insert l k v).
Proof.
  unfold sorted_keys. induction l as [|[i w] l IH]; intros Hs; simpl.
  { constructor; [done|by constructor]. }
  apply StronglySorted_inv in Hs as [Hs Hi]. destruct (Z.ltb_spec k i); simpl.
  { constructor; [by constructor|]. constructor; [done|]. eapply Forall_impl; [exact Hi|]. simpl. lia. }
  destruct (Z.eqb_spec i k) as [->|]; simpl; [by constructor|]. constructor; [by apply IH|].
  rewrite Forall_forall in *. intros j [->|Hj]%bt_insert_keys; [lia|by apply Hi].
Qed.

(** ** The table in the kernel *)

(** The kernel holds the table of the routes; legacy lines are out of their reach. *)
Record irq_ok m : Prop := {
  io_table : installed (vm_fd m) = routing_table m;
  io_sorted : sorted_keys (msi m);
  io_next : FIRST_MSI_GSI <= next_gsi m < 2 ^ 32;
  io_msi : forall g, g ∈ (msi m).*1 -> FIRST_MSI_GSI <= g < next_gsi m
}.

(** A call of the manager, with the route it programs if it is one; a route is set
    for a vector that was allocated, and the kernel accepts it. *)
Inductive irq_step : IrqManager K -> option (Z * (Z * Z)) -> IrqManager K -> Prop :=
  | is_alloc m : next_gsi m + 1 < 2 ^ 32 -> irq_step m None (allocate_msi_vector m).1
  | is_legacy m g : irq_step m None (legacy_irqfd m g).1
  | is_route m g a data :
      FIRST_MSI_GSI <= g < next_gsi m -> (irq_set_msi_route m g a data).2 = true ->
      irq_step m (Some (g, (a, data))) (irq_set_msi_route m g a data).1
  | is_door m a fd : irq_step m None (register m a fd).1
  | is_undoor m a fd : irq_step m None (unregister m a fd).1.

(** The manager at work, and the routes programmed in order. *)
Inductive irq_run (m : IrqManager K) : list (Z * (Z * Z)) -> IrqManager K -> Prop :=
  | ir_start : irq_run m [] m
  | ir_more rs m1 r m2 : irq_run m rs m1 -> irq_step m1 r m2 -> irq_run m (rs ++ option_list r) m2.

(** What was programmed last for a vector. *)
Definition last_route (rs : list (Z * (Z * Z))) (g : Z) : option (Z * Z) := snd <$> last (filter (fun x => x.1 = g) rs).

Lemma last_route_snoc rs g x j : last_route (rs ++ [(g, x)]) j = if g =? j then Some x else last_route rs j.
Proof.
  unfold last_route. rewrite filter_app, filter_cons, filter_nil. destruct (Z.eqb_spec g j) as [E|E]; simpl.
  - rewrite decide_True by done. by rewrite last_snoc.
  - rewrite decide_False by done. by rewrite app_nil_r.
Qed.

Lemma bt_get_elem {V : Type} (l : list (Z * V)) k v : sorted_keys l -> (k, v) ∈ l <-> bt_get l k = Some v.
Proof.
  unfold sorted_keys. induction l as [|[i w] l IH]; intros Hs; simpl; [set_solver|].
  apply StronglySorted_inv in Hs as [Hs Hi]. rewrite elem_of_cons, IH by done. destruct (Z.eqb_spec i k) as [->|].
  - split; [|intros [= ->]; by left]. intros [[= ->]|Hk]; [done|]. apply IH, (list_elem_of_fmap_2 fst) in Hk; [|done].
    rewrite Forall_forall in Hi. specialize (Hi _ Hk). simpl in Hi. lia.
  - split; [intros [[= -> ->]|?]; done|by right].
Qed.

Lemma wire_irqfd_installed m g :
  installed (vm_fd (wire_irqfd m g).1) = installed (vm_fd m) /\ msi (wire_irqfd m g).1 = msi m /\
  next_gsi (wire_irqfd m g).1 = next_gsi m.
Proof.
  unfold wire_irqfd. pose proof (installed_eventfd (vm_fd m)) as He.
  destruct (new_eventfd (vm_fd m)) as [k [fd|]]; simpl in *; [|done].
  pose proof (installed_irqfd k fd g) as Hr. destruct (register_irqfd k fd g) as [k' ok]. simpl in *. by rewrite Hr, He.
Qed.

Lemma irq_step_ok m r m' : irq_step m r m' -> irq_ok m -> irq_ok m'.
Proof.
  intros [] [Ht Hs Hn Hm].
  - unfold allocate_msi_vector. set (m1 := {| vm_fd := vm_fd m0; next_gsi := _; msi := _ |}).
    destruct (wire_irqfd_installed m1 (next_gsi m0)) as (Hi & Hms & Hng).
    destruct (wire_irqfd m1 (next_gsi m0)) as [m2 fd]. simpl in *.
    assert (u32 (next_gsi m0 + 1) = next_gsi m0 + 1) as Hu by (apply wrap_small; unfold is_word, FIRST_MSI_GSI, IOAPIC_PINS in *; lia).
    split.
    + rewrite Hi. unfold routing_table. by rewrite Hms.
    + by rewrite Hms.
    + rewrite Hng, Hu. lia.
    + rewrite Hms, Hng, Hu. intros g Hg. specialize (Hm g Hg). lia.
  - unfold legacy_irqfd. destruct (g <? IOAPIC_PINS); [|by split].
    destruct (wire_irqfd_installed m0 g) as (Hi & Hms & Hng). split; rewrite ?Hms, ?Hng; try done.
    rewrite Hi. unfold routing_table. by rewrite Hms.
  - unfold irq_set_msi_route in *. case_match; [by split|]. unfold commit in *.
    pose proof (installed_set (vm_fd m0) (routing_table {| vm_fd := vm_fd m0; next_gsi := next_gsi m0; msi := bt_insert (msi m0) g (a, data) |})) as Hi.
    simpl in *. destruct (set_gsi_routing _ _) as [k ok]. simpl in *. subst ok. split; simpl; try done.
    + by apply bt_insert_sorted.
    + intros j [->|Hj]%bt_insert_keys; [done|by apply Hm].
  - simpl. pose proof (installed_ioevent (vm_fd m0) a fd) as Hi. destruct (register_ioevent _ _ _) as [k ok].
    simpl in *. split; simpl; try done. by rewrite Hi.
  - simpl. pose proof (installed_unioevent (vm_fd m0) a fd) as Hi. destruct (unregister_ioevent _ _ _) as [k ok].
    simpl in *. split; simpl; try done. by rewrite Hi.
Qed.

Lemma irq_new_ok k m : IrqManager_new k = Some m -> irq_ok m.
Proof.
  unfold IrqManager_new, commit. simpl.
  pose proof (installed_set k (routing_table {| vm_fd := k; next_gsi := FIRST_MSI_GSI; msi := [] |})) as Hi.
  destruct (set_gsi_routing _ _) as [k' []]; simpl in *; [|done]. intros [= <-].
  split; simpl; [done|constructor|done|]. by intros g ?%not_elem_of_nil.
Qed.

Lemma route_after m g a data :
  sorted_keys (msi m) -> bt_get (msi (irq_set_msi_route m g a data).1) g = Some (a, data).
Proof.
  intros Hs. unfold irq_set_msi_route. destruct (bt_get (msi m) g) as [[oa od]|] eqn:Eg.
  - destruct ((oa =? a) && (od =? data)) eqn:Ee; bool_prop; [naive_solver|].
    unfold commit. destruct (set_gsi_routing _ _). simpl. rewrite bt_get_insert by done. by rewrite Z.eqb_refl.
  - unfold commit. destruct (set_gsi_routing _ _). simpl. rewrite bt_get_insert by done. by rewrite Z.eqb_refl.
Qed.

(** A step records the route it programs, and no other changes. *)
Lemma irq_step_routes m r m' j :
  irq_step m r m' -> sorted_keys (msi m) ->
  bt_get (msi m') j = match r with Some (g, x) => if g =? j then Some x else bt_get (msi m) j | None => bt_get (msi m) j end.
Proof.
  intros [] Hs.
  - unfold allocate_msi_vector. set (m1 := {| vm_fd := vm_fd m0; next_gsi := _; msi := _ |}).
    destruct (wire_irqfd_installed m1 (next_gsi m0)) as (_ & Hms & _).
    destruct (wire_irqfd m1 (next_gsi m0)) as [m2 fd]. simpl in *. by rewrite Hms.
  - unfold legacy_irqfd. destruct (g <? IOAPIC_PINS); [|done]. by rewrite (proj1 (proj2 (wire_irqfd_installed m0 g))).
  - unfold irq_set_msi_route. destruct (match bt_get (msi m0) g with Some _ => _ | None => _ end) eqn:E.
    + destruct (bt_get (msi m0) g) as [[oa od]|] eqn:Eg; [|done]. bool_prop. simpl.
      destruct (Z.eqb_spec g j) as [<-|]; [|done]. rewrite Eg. congruence.
    + unfold commit. destruct (set_gsi_routing _ _). simpl. by apply bt_get_insert.
  - simpl. by destruct (register_ioevent _ _ _).
  - simpl. by destruct (unregister_ioevent _ _ _).
Qed.

Lemma irq_run_ok m rs m' :
  irq_ok m -> msi m = [] -> irq_run m rs m' -> irq_ok m' /\ forall g, bt_get (msi m') g = last_route rs g.
Proof.
  intros Hm H0 Hr. induction Hr as [|rs m1 r m2 _ [IH1 IH2] Hs]; [by rewrite H0|].
  split; [by eapply irq_step_ok|]. intros g. rewrite (irq_step_routes _ _ _ g Hs (io_sorted _ IH1)).
  destruct r as [[j x]|]; simpl; [by rewrite last_route_snoc, IH2|by rewrite app_nil_r, IH2].
Qed.

Lemma irq_new_empty k m : IrqManager_new k = Some m -> msi m = [].
Proof. unfold IrqManager_new, commit. simpl. destruct (set_gsi_routing _ _) as [k' []]; [|done]. by intros [= <-]. Qed.

(** What the kernel is told of a vector: its GSI, and the address in two halves. *)
Definition msi_of (g : Z) (x : Z * Z) : RoutingEntry := ToMsi g (x.1 mod 2 ^ 32) (Z.shiftr x.1 32 mod 2 ^ 32) x.2.

(** C19: The kernel's routing table is the legacy lines and the last route of each
    vector.  From a manager that came up, through any allocations, INTx lines,
    doorbells and accepted routes, the table installed in the kernel is the default
    entries of the legacy chips (each of the 24 pins of the IOAPIC, and for the
    first 16 the pin of its PIC) followed, in GSI order, by exactly one entry for
    every vector a route was programmed for, with the address and data programmed
    for it last; no route reuses a legacy GSI or one not yet handed out. *)
Theorem irq_table_current k m0 m rs :
  IrqManager_new k = Some m0 -> irq_run m0 rs m ->
  exists routes,
    installed (vm_fd m) = legacy_entries ++ ((fun r => msi_of r.1 r.2) <$> routes) /\
    StronglySorted Z.lt routes.*1 /\
    (forall g x, (g, x) ∈ routes <-> last_route rs g = Some x) /\
    (forall g, g ∈ routes.*1 -> 24 <= g < next_gsi m) /\
    (forall e, e ∈ legacy_entries <-> exists g, 0 <= g < 24 /\ (e = ToChip g IoApic g \/
       0 <= g < 8 /\ e = ToChip g PicMaster g \/ 8 <= g < 16 /\ e = ToChip g PicSlave (g - 8))).
Proof.
  intros Hn Hr. destruct (irq_run_ok m0 rs m (irq_new_ok _ _ Hn) (irq_new_empty _ _ Hn) Hr) as [[Ht Hs _ Hm] Hg].
  exists (msi m). split_and!; [|done| |done|].
  - rewrite Ht. unfold routing_table. f_equal. apply list_fmap_ext. by intros ? [g [a data]].
  - intros g x. rewrite bt_get_elem by done. by rewrite Hg.
  - intros e. unfold legacy_entries. rewrite list_elem_of_bind. unfold IOAPIC_PINS. split.
    + intros (g & He & Hg24%elem_of_seqZ). exists g. split; [lia|]. unfold legacy_of in He.
      apply elem_of_cons in He as [->|He]; [by left|]. destruct (Z.ltb_spec g 16); [|by apply elem_of_nil in He].
      apply list_elem_of_singleton in He as ->. right. destruct (Z.ltb_spec g 8); [left|right]; (split; [lia|f_equal]).
      * apply Z.mod_small. lia.
      * symmetry. apply (Z.mod_unique_pos g 8 1); lia.
    + intros (g & Hg24 & He). exists g. rewrite elem_of_seqZ. split; [|lia]. unfold legacy_of. rewrite elem_of_cons.
      destruct He as [->|[[Hr' ->]|[Hr' ->]]]; [by left|right..]; rewrite (proj2 (Z.ltb_lt g 16)) by lia; apply list_elem_of_singleton.
      * by rewrite (proj2 (Z.ltb_lt g 8)), Z.mod_small by lia.
      * rewrite (proj2 (Z.ltb_ge g 8)) by lia. f_equal. apply (Z.mod_unique_pos g 8 1); lia.
Qed.

(** A route the kernel refused once is taken for installed.  When installing
    the table fails, the route stays recorded; the guest writing the same
    address and data again, as it does on every unmask, is told of success and
    the kernel is not asked: its table stays as it was. *)
Theorem refused_route_not_retried m g a data :
  sorted_keys (msi m) -> (irq_set_msi_route m g a data).2 = false ->
  let m' := (irq_set_msi_route m g a data).1 in
  installed (vm_fd m') = installed (vm_fd m) /\ irq_set_msi_route m' g a data = (m', true).
Proof.
  intros Hs Hf m'. pose proof (route_after m g a data Hs) as Hg. fold m' in Hg. split.
  - unfold m'. unfold irq_set_msi_route in *. case_match; [done|]. unfold commit in *.
    pose proof (installed_set (vm_fd m) (routing_table {| vm_fd := vm_fd m; next_gsi := next_gsi m; msi := bt_insert (msi m) g (a, data) |})) as Hi.
    simpl in *. destruct (set_gsi_routing _ _) as [k ok]. simpl in *. by subst ok.
  - unfold irq_set_msi_route at 1. rewrite Hg. by rewrite !Z.eqb_refl.
Qed.

End Facts.

(** * On a small kernel *)

(** A kernel that takes tables up to a number of entries, and counts eventfds. *)
Record SmallKvm := { table : list RoutingEntry; room_for : nat; fds : Z; irqfds : list (Z * Z) }.

#[export] Instance SmallKvm_kvm : Kvm SmallKvm := {
  new_eventfd k := ({| table := table k; room_for := room_for k; fds := fds k + 1; irqfds := irqfds k |}, Some (fds k));
  register_irqfd k fd g := ({| table := table k; room_for := room_for k; fds := fds k; irqfds := irqfds k ++ [(fd, g)] |}, true);
  set_gsi_routing k es :=
    if (length es <=? room_for k)%nat then ({| table := es; room_for := room_for k; fds := fds k; irqfds := irqfds k |}, true)
    else (k, false);
  register_ioevent k _ _ := (k, true);
  unregister_ioevent k _ _ := (k, true)
}.

#[export] Instance SmallKvm_laws : KvmLaws SmallKvm.
Proof. refine {| installed := table |}; try done. intros k es. simpl. by case_match. Defined.

Definition kvm0 (n : nat) : SmallKvm := {| table := []; room_for := n; fds := 3; irqfds := [] |}.
Definition irq0 (n : nat) : IrqManager SmallKvm := (commit {| vm_fd := kvm0 n; next_gsi := FIRST_MSI_GSI; msi := [] |}).1.
Definition irq2 (n : nat) : IrqManager SmallKvm := (allocate_msi_vectors (irq0 n) 2).1.
Definition irq_routed (n : nat) : IrqManager SmallKvm := (irq_set_msi_route (irq2 n) 25 0xFEE00000 0x31).1.

(** Two vectors; the second is programmed, moved, and the first programmed after. *)
Definition irq_moved : IrqManager SmallKvm :=
  (irq_set_msi_route (irq_set_msi_route (irq_routed 50) 25 0xFEE01000 0x32).1 24 0xFEE00000 0x30).1.

Lemma irq_table_current_witness :
  exists routes, installed (vm_fd irq_moved) = legacy_entries ++ ((fun r => msi_of r.1 r.2) <$> routes) /\
    (25, (0xFEE01000, 0x32)) ∈ routes /\ (24, (0xFEE00000, 0x30)) ∈ routes /\ (25, (0xFEE00000, 0x31)) ∉ routes.
Proof.
  destruct (irq_table_current (kvm0 50) (irq0 50) irq_moved
    ([] ++ [] ++ [] ++ [(25, (0xFEE00000, 0x31))] ++ [(25, (0xFEE01000, 0x32))] ++ [(24, (0xFEE00000, 0x30))]))
    as (routes & H & _ & Hr & _).
  - vm_compute. reflexivity.
  - change (irq_run (irq0 50) (((((([] ++ option_list None) ++ option_list None) ++
      option_list (Some (25, (0xFEE00000, 0x31)))) ++ option_list (Some (25, (0xFEE01000, 0x32)))) ++
      option_list (Some (24, (0xFEE00000, 0x30)))) ) irq_moved).
    eapply ir_more; [eapply ir_more; [eapply ir_more; [eapply ir_more; [eapply ir_more; [apply ir_start|]|]|]|]|].
    + apply is_alloc. vm_compute. reflexivity.
    + apply is_alloc. vm_compute. reflexivity.
    + apply (is_route (irq2 50)); [vm_compute; split; [discriminate|reflexivity]|vm_compute; reflexivity].
    + apply (is_route (irq_routed 50)); [vm_compute; split; [discriminate|reflexivity]|vm_compute; reflexivity].
    + apply (is_route (irq_set_msi_route (irq_routed 50) 25 0xFEE01000 0x32).1);
        [vm_compute; split; [discriminate|reflexivity]|vm_compute; reflexivity].
  - exists routes. split; [exact H|]. rewrite !Hr. split; [reflexivity|]. split; [reflexivity|]. discriminate.
Defined.

(** Forty legacy entries fill this kernel. *)
Lemma refused_route_not_retried_witness :
  installed (vm_fd (irq_routed 40)) = legacy_entries /\
  irq_set_msi_route (irq_routed 40) 25 0xFEE00000 0x31 = (irq_routed 40, true).
Proof.
  assert (sorted_keys (msi (irq2 40))) as Hs by constructor.
  destruct (refused_route_not_retried (irq2 40) 25 0xFEE00000 0x31 Hs) as [H1 H2]; [vm_compute; reflexivity|].
  split; [|exact H2]. etransitivity; [exact H1|]. vm_compute. reflexivity.
Defined.
