(* ===== verification/NvWindow.v ===== *)
(** Where the GPU forwarding backend's mappings go, [WindowMapper] of
    [virtio-devices/src/nvgpu.rs]: parts of the shared window, placed over its
    reservation, and UVM pools, each mapped at an address of its own and given a
    memory slot in the aperture.

    This process's address space (mmap, munmap, madvise) is the class
    [AddressSpace]; the memory slots are the client's view [HostMemoryMapper] of
    them.  Guest addresses beyond 64 bits wrap, as in a release build.

    The pools of the GPU forwarding backend, against whatever it asks: they stay
    inside the aperture and inside the band of host addresses left to them, apart
    from each other and from the window, within their limits; what is mapped is
    what the table says; and no memory slot of the aperture is left over
    nothing. *)

From stdpp Require Import sorting.
From S2P Require Import Prelude HostMapper MemSlots MemSlotsFacts.

Definition APERTURE_SIZE : Z := 2 ^ 30.
Definition APERTURE_ALIGN : Z := 2 * 2 ^ 20.
Definition POOL_MAX_LEN : Z := 64 * 2 ^ 20.
Definition MAX_POOLS : nat := 64.
Definition MAX_POOL_BYTES : Z := 256 * 2 ^ 20.
Definition POOL_HVA_MIN : Z := 4 * 2 ^ 30.
Definition POOL_HVA_MAX : Z := 32 * 2 ^ 40.
Definition NV_SHM_ID : Z := 1.
Definition NV_SHM_ID_APERTURE : Z := 2.

Definition EINVAL : Z := 22.
Definition EEXIST : Z := 17.
Definition ENOSPC : Z := 28.
Definition PROT_READ : Z := 1.
Definition PROT_WRITE : Z := 2.

(** [VhostUserMMapFlags::WRITABLE]. *)
Class MmapBits := { WRITABLE : Z }.

(** [VhostUserMMap]: what the backend asks for. *)
Record VhostUserMMap := { shmid : Z; shm_offset : Z; fd_offset : Z; req_len : Z; req_flags : Z }.

Class AddressSpace (M : Type) := {
  (** MAP_SHARED | MAP_FIXED over the address: address, length, protection,
      descriptor and its offset.  An error is an errno. *)
  mmap_fixed : M -> Z -> Z -> Z -> Z -> Z -> M * (Z + unit);
  (** MAP_SHARED | MAP_FIXED_NOREPLACE: where it ended up. *)
  mmap_noreplace : M -> Z -> Z -> Z -> M * (Z + Z);
  munmap : M -> Z -> Z -> M;
  (** MADV_POPULATE_WRITE. *)
  populate_write : M -> Z -> Z -> M * (Z + unit)
}.

Inductive NvError := NoBase | Overflows | OutsideWindow | Errno (e : Z) | MapperRefused.

(** Offset to length and host address. *)
Abbreviation Pools := (gmap Z (Z * Z)).

Definition pool_bytes (pools : Pools) : Z := map_fold (fun _ lh n => lh.1 + n) 0 pools.

Section Window.
Context {P M : Type} {HP : HostMemoryMapper P} {HM : AddressSpace M} {HB : MmapBits}.

Record WindowMapper := {
  mapper : P;
  guest_base : option Z;
  aperture_base : option Z;
  pools : Pools;
  space : M
}.

Definition with_mapper (w : WindowMapper) (p : P) : WindowMapper :=
  {| mapper := p; guest_base := guest_base w; aperture_base := aperture_base w; pools := pools w; space := space w |}.
Definition with_space (w : WindowMapper) (m : M) : WindowMapper :=
  {| mapper := mapper w; guest_base := guest_base w; aperture_base := aperture_base w; pools := pools w; space := m |}.
Definition with_pools (w : WindowMapper) (l : Pools) : WindowMapper :=
  {| mapper := mapper w; guest_base := guest_base w; aperture_base := aperture_base w; pools := l; space := space w |}.

(** [WindowMapper] as [bind_mapper] makes it. *)
Definition WindowMapper_new (p : P) (m : M) : WindowMapper :=
  {| mapper := p; guest_base := None; aperture_base := None; pools := ∅; space := m |}.

Definition set_guest_base (w : WindowMapper) (addr : Z) : WindowMapper :=
  {| mapper := mapper w; guest_base := Some addr; aperture_base := aperture_base w; pools := pools w; space := space w |}.
Definition set_aperture_base (w : WindowMapper) (addr : Z) : WindowMapper :=
  {| mapper := mapper w; guest_base := guest_base w; aperture_base := Some addr; pools := pools w; space := space w |}.

(** [hit] of [check_pool]. *)
Definition hit (s l a len : Z) : bool := (s <? a + len) && (a <? s + l).

(** [checked_add(..).is_none_or(|end| end > limit)]. *)
Definition beyond (x len limit : Z) : bool :=
  match checked_add 64 x len with Some end_ => limit <? end_ | None => true end.

(** [None] lets the pool in. *)
Definition check_pool (pools : Pools) (hva offset len flags : Z) : option Z :=
  let page := 4096 in
  if negb (flags =? WRITABLE) || (len =? 0) || negb (len mod page =? 0) || (POOL_MAX_LEN <? len) ||
     negb (hva mod page =? 0) || (hva <? POOL_HVA_MIN) || beyond hva len POOL_HVA_MAX ||
     negb (offset mod APERTURE_ALIGN =? 0) || beyond offset len APERTURE_SIZE
  then Some EINVAL
  else if existsb (fun '(o, (l, h)) => hit o l offset len || hit h l hva len) (map_to_list pools) then Some EEXIST
  else if (MAX_POOLS <=? size pools)%nat || (MAX_POOL_BYTES <? pool_bytes pools + len) then Some ENOSPC
  else None.

(** Over part of the window. *)
Definition place (w : WindowMapper) (req : VhostUserMMap) (fd : Z) : WindowMapper * (NvError + unit) :=
  match guest_base w with
  | None => (w, inl NoBase)
  | Some base =>
      match checked_add 64 base (shm_offset req) with
      | None => (w, inl Overflows)
      | Some guest_addr =>
          match hm_host_addr (mapper w) guest_addr (req_len req) with
          | None => (w, inl OutsideWindow)
          | Some host =>
              let prot := if has_bits (req_flags req) WRITABLE then Z.lor PROT_READ PROT_WRITE else PROT_READ in
              let '(m, r) := mmap_fixed (space w) host (req_len req) prot fd (fd_offset req) in
              (with_space w m, match r with inl e => inl (Errno e) | inr _ => inr tt end)
          end
      end
  end.

(** The mapping, its pages and its slot; undone from where it fails. *)
Definition place_pool (w : WindowMapper) (req : VhostUserMMap) (fd : Z) : WindowMapper * (NvError + unit) :=
  let hva := fd_offset req in
  let offset := shm_offset req in
  let len := req_len req in
  match aperture_base w with
  | None => (w, inl NoBase)
  | Some base =>
      match check_pool (pools w) hva offset len (req_flags req) with
      | Some e => (w, inl (Errno e))
      | None =>
          match mmap_noreplace (space w) hva len fd with
          | (m, inl e) => (with_space w m, inl (Errno e))
          | (m, inr p) =>
              if negb (p =? hva) then (with_space w (munmap m p len), inl (Errno EEXIST))
              else
                match populate_write m p len with
                | (m, inl e) => (with_space w (munmap m p len), inl (Errno e))
                | (m, inr _) =>
                    let '(q, ok) := hm_map (mapper w) (base ⊕ offset) hva len in
                    let w := with_mapper (with_space w m) q in
                    if ok : bool then (with_pools w (<[offset := (len, hva)]> (pools w)), inr tt)
                    else (with_space w (munmap m p len), inl MapperRefused)
                end
          end
      end
  end.

Definition withdraw_pool (w : WindowMapper) (offset len : Z) : WindowMapper * (NvError + unit) :=
  match aperture_base w with
  | None => (w, inl NoBase)
  | Some base =>
      match pools w !! offset with
      | None => (w, inl (Errno EINVAL))
      | Some (l, hva) =>
          if negb (l =? len) then (w, inl (Errno EINVAL))
          else
            let '(q, ok) := hm_unmap (mapper w) (base ⊕ offset) len in
            let w := with_mapper w q in
            if ok : bool then
              (with_pools (with_space w (munmap (space w) hva len)) (delete offset (pools w)), inr tt)
            else (w, inl MapperRefused)
      end
  end.

(** In the order of the offsets; a refusal is only logged. *)
Definition by_offset (x y : Z * Z) : Prop := x.1 <= y.1.
#[export] Instance by_offset_dec x y : Decision (by_offset x y) := decide (x.1 <= y.1).

Definition offsets (pools : Pools) : list (Z * Z) :=
  merge_sort by_offset ((fun x => (x.1, x.2.1)) <$> map_to_list pools).

Definition withdraw_all_pools (w : WindowMapper) : WindowMapper :=
  foldl (fun w '(offset, len) => (withdraw_pool w offset len).1) w (offsets (pools w)).

(** The backend's two requests. *)
Definition shmem_map (w : WindowMapper) (req : VhostUserMMap) (fd : Z) : WindowMapper * (NvError + unit) :=
  if shmid req =? NV_SHM_ID then place w req fd
  else if shmid req =? NV_SHM_ID_APERTURE then place_pool w req fd
  else (w, inl (Errno EINVAL)).

Definition shmem_unmap (w : WindowMapper) (req : VhostUserMMap) : WindowMapper * (NvError + unit) :=
  if shmid req =? NV_SHM_ID then
    match guest_base w with
    | None => (w, inl NoBase)
    | Some base =>
        let guest_addr := saturating_add 64 base (shm_offset req) in
        let '(q, ok) := hm_withdraw (mapper w) guest_addr (req_len req) in
        (with_mapper w q, if ok : bool then inr tt else inl MapperRefused)
    end
  else if shmid req =? NV_SHM_ID_APERTURE then withdraw_pool w (shm_offset req) (req_len req)
  else (w, inl (Errno EINVAL)).

End Window.

Arguments WindowMapper : clear implicits.

(** * What the kernel promises *)

(** [taken] are the addresses this process has mapped, [held] the mappings it
    made with MAP_FIXED_NOREPLACE: such a mapping replaces nothing, a MAP_FIXED
    one replaces what it covers, and a MAP_FIXED one that is refused may have
    removed what was there (mmap(2), POSIX). *)
Class AddressSpaceLaws (M : Type) `{AddressSpace M} (taken : M -> Z -> Prop) (held : M -> gmap Z Z) : Prop := {
  noreplace_maps m hva len fd m' p :
    mmap_noreplace m hva len fd = (m', inr p) ->
    (forall x, p <= x < p + len -> ~ taken m x) /\ (forall x, taken m x -> taken m' x) /\
    held m !! p = None /\ held m' = <[p := len]> (held m);
  noreplace_fails m hva len fd m' e : mmap_noreplace m hva len fd = (m', inl e) -> held m' = held m /\ (forall x, taken m x -> taken m' x);
  munmap_unmaps m p len :
    held m !! p = Some len ->
    held (munmap m p len) = delete p (held m) /\
    (forall x, taken m x -> ~ (p <= x < p + len) -> taken (munmap m p len) x);
  populate_keeps m p len m' r : populate_write m p len = (m', r) -> held m' = held m /\ (forall x, taken m x -> taken m' x);
  fixed_apart m a len prot fd off m' r :
    mmap_fixed m a len prot fd off = (m', r) ->
    (forall p l, held m !! p = Some l -> p + l <= a \/ a + len <= p) -> held m' = held m;
  fixed_replaces m a len prot fd off m' x :
    mmap_fixed m a len prot fd off = (m', inr tt) -> taken m x -> taken m' x;
  fixed_refused m a len prot fd off m' e x :
    mmap_fixed m a len prot fd off = (m', inl e) -> taken m x -> ~ (a <= x < a + len) -> taken m' x
}.

(** The window stays where it is whatever is mapped beside it. *)
Class WindowLaws (P : Type) `{HostMemoryMapper P} : Prop := {
  map_window p a h n x y : hm_host_addr (hm_map p a h n).1 x y = hm_host_addr p x y;
  unmap_window p a n x y : hm_host_addr (hm_unmap p a n).1 x y = hm_host_addr p x y;
  withdraw_window p a n x y : hm_host_addr (hm_withdraw p a n).1 x y = hm_host_addr p x y
}.

(** * The table *)

(** A pool where one may be. *)
Record pool_fits (o l h : Z) : Prop := {
  p_len : 0 < l <= POOL_MAX_LEN;
  p_page : l mod 4096 = 0 /\ h mod 4096 = 0;
  p_hva : POOL_HVA_MIN <= h /\ h + l <= POOL_HVA_MAX;
  p_aligned : o mod APERTURE_ALIGN = 0;
  p_offset : 0 <= o /\ o + l <= APERTURE_SIZE
}.

(** Apart in the aperture and in this process. *)
Definition apart (o1 l1 h1 o2 l2 h2 : Z) : Prop :=
  (o1 + l1 <= o2 \/ o2 + l2 <= o1) /\ (h1 + l1 <= h2 \/ h2 + l2 <= h1).

Record books (t : Pools) : Prop := {
  b_fits o l h : t !! o = Some (l, h) -> pool_fits o l h;
  b_apart o1 l1 h1 o2 l2 h2 : t !! o1 = Some (l1, h1) -> t !! o2 = Some (l2, h2) -> o1 <> o2 -> apart o1 l1 h1 o2 l2 h2;
  b_count : (size t <= MAX_POOLS)%nat;
  b_bytes : pool_bytes t <= MAX_POOL_BYTES
}.

Lemma pool_bytes_insert (t : Pools) o l h : t !! o = None -> pool_bytes (<[o := (l, h)]> t) = l + pool_bytes t.
Proof. intros Ho. unfold pool_bytes. rewrite map_fold_insert_L; [done|intros; lia|done]. Qed.

Lemma pool_bytes_delete (t : Pools) o l h : t !! o = Some (l, h) -> pool_bytes t = l + pool_bytes (delete o t).
Proof.
  intros Ho. rewrite <- (pool_bytes_insert (delete o t) o l h) by (by rewrite lookup_delete_eq).
  by rewrite insert_delete_eq, insert_id.
Qed.

(** [beyond] says what it tests. *)
Lemma beyond_false x len limit : 0 <= x -> 0 <= len -> limit < 2 ^ 64 -> beyond x len limit = false <-> x + len <= limit.
Proof.
  intros Hx Hl Hlim. unfold beyond, checked_add. destruct (x + len <? 2 ^ 64) eqn:E; bool_prop; [|split; [done|lia]].
  rewrite Z.ltb_ge. lia.
Qed.

Lemma hit_false s l a len : hit s l a len = false <-> a + len <= s \/ s + l <= a.
Proof. unfold hit. rewrite andb_false_iff, !Z.ltb_ge. lia. Qed.

Section Check.
Context {HB : MmapBits}.

(** What [check_pool] lets in. *)
Lemma check_pool_ok (t : Pools) hva offset len flags :
  0 <= hva -> 0 <= offset -> 0 <= len ->
  check_pool t hva offset len flags = None <->
  flags = WRITABLE /\ pool_fits offset len hva /\
  (forall o l h, t !! o = Some (l, h) -> apart o l h offset len hva) /\
  (size t < MAX_POOLS)%nat /\ pool_bytes t + len <= MAX_POOL_BYTES.
Proof.
  intros H1 H2 H3. unfold check_pool.
  assert (Eb : beyond hva len POOL_HVA_MAX = false <-> hva + len <= POOL_HVA_MAX) by (apply beyond_false; try done; unfold POOL_HVA_MAX; lia).
  assert (Eo : beyond offset len APERTURE_SIZE = false <-> offset + len <= APERTURE_SIZE) by (apply beyond_false; try done; unfold APERTURE_SIZE; lia).
  assert (Ee : existsb (fun '(o, (l, h)) => hit o l offset len || hit h l hva len) (map_to_list t) = false <->
    forall o l h, t !! o = Some (l, h) -> apart o l h offset len hva).
  { rewrite <- not_true_iff_false, existsb_exists. split.
    - intros Hn o l h Ho. unfold apart. destruct (hit o l offset len || hit h l hva len) eqn:E.
      + exfalso. apply Hn. exists (o, (l, h)). split; [by apply list_elem_of_In, elem_of_map_to_list|done].
      + apply orb_false_iff in E as [E1%hit_false E2%hit_false]. lia.
    - intros Ha ([o [l h]] & Hin & E). apply list_elem_of_In, elem_of_map_to_list in Hin.
      specialize (Ha _ _ _ Hin). unfold apart in Ha. apply orb_true_iff in E.
      destruct E as [E|E]; apply not_false_iff_true in E; apply E; apply hit_false; lia. }
  match goal with |- context [if ?c then Some EINVAL else _] => assert (Ec : c = false <-> flags = WRITABLE /\ pool_fits offset len hva) end.
  { rewrite !orb_false_iff, !negb_false_iff, !Z.eqb_eq, Z.eqb_neq, !Z.ltb_ge, Eb, Eo. unfold POOL_HVA_MIN. split.
    - intros H. split; [tauto|]. destruct H as [[[[[[[[? ?] ?] ?] ?] ?] ?] ?] ?]. by split; try split; try lia.
    - intros (Hf & [? [? ?] [? ?] ? [? ?]]). unfold POOL_HVA_MIN in *. split_and!; try done; lia. }
  match goal with |- context [if ?c then Some EINVAL else _] => destruct c end.
  { split; [done|]. intros (? & ? & _). assert (true = false) by (apply Ec; done). done. }
  destruct (proj1 Ec eq_refl) as [Hf Hp]. destruct (existsb _ _).
  { split; [done|]. intros (_ & _ & H & _). apply Ee in H. done. }
  pose proof (proj1 Ee eq_refl) as Ha.
  destruct ((MAX_POOLS <=? size t)%nat || (MAX_POOL_BYTES <? pool_bytes t + len)) eqn:El.
  - split; [done|]. intros (_ & _ & _ & H4 & H5). apply orb_true_iff in El as [El|El]; [apply Nat.leb_le in El|apply Z.ltb_lt in El]; lia.
  - apply orb_false_iff in El as [El1%Nat.leb_gt El2%Z.ltb_ge]. by split.
Qed.
End Check.

(** A pool let in, and one taken out. *)
Lemma books_insert (t : Pools) o l h :
  books t -> pool_fits o l h -> (forall o' l' h', t !! o' = Some (l', h') -> apart o' l' h' o l h) ->
  (size t < MAX_POOLS)%nat -> pool_bytes t + l <= MAX_POOL_BYTES -> t !! o = None /\ books (<[o := (l, h)]> t).
Proof.
  intros [Hf Ha _ _] Hp Hap Hs Hb. assert (Hn : t !! o = None).
  { destruct (t !! o) as [[l' h']|] eqn:E; [|done]. exfalso. specialize (Hap _ _ _ E). unfold apart in Hap.
    destruct (Hf _ _ _ E) as [? _ _ _ _], Hp as [? _ _ _ _]. lia. }
  split; [done|]. split.
  - intros o' l' h'. rewrite lookup_insert_Some. intros [(<- & [= <- <-])|[_ H]]; [done|by apply Hf].
  - intros o1 l1 h1 o2 l2 h2. rewrite !lookup_insert_Some. intros [(<- & [= <- <-])|[_ H1]] [(<- & [= <- <-])|[_ H2]] Hne; try done.
    + specialize (Hap _ _ _ H2). unfold apart in *. lia.
    + by apply Hap.
    + by eapply Ha.
  - rewrite map_size_insert_None by done. lia.
  - rewrite pool_bytes_insert by done. lia.
Qed.

Lemma books_delete (t : Pools) o l h : books t -> t !! o = Some (l, h) -> books (delete o t).
Proof.
  intros [Hf Ha Hs Hb] Ho. split.
  - intros o' l' h' [_ H]%lookup_delete_Some. by apply Hf.
  - intros o1 l1 h1 o2 l2 h2 [_ H1]%lookup_delete_Some [_ H2]%lookup_delete_Some. by apply Ha.
  - rewrite map_size_delete_Some by (by eexists). lia.
  - pose proof (pool_bytes_delete _ _ _ _ Ho). destruct (Hf _ _ _ Ho) as [? _ _ _ _]. lia.
Qed.

(** * Whatever the backend asks *)

Section Contained.
Context {P M : Type} {HP : HostMemoryMapper P} {HM : AddressSpace M} {HB : MmapBits}.
Context (slots : P -> gset Z) {HPL : HostMemoryMapperLaws P slots} {HWL : WindowLaws P}.
Context (taken : M -> Z -> Prop) (held : M -> gmap Z Z) {HML : AddressSpaceLaws M taken held}.
(** Where the bus put the aperture, and the window's reservation. *)
Context (base wlo whi : Z) (Hbase : 0 <= base /\ base + APERTURE_SIZE <= 2 ^ 64) (Hwin : wlo < whi).
Implicit Types (w : WindowMapper P M) (req : VhostUserMMap).

(** The books alone: the table in order, and no slot of the aperture outside it. *)
Record kept_books w : Prop := {
  k_base : aperture_base w = Some base;
  k_books : books (pools w);
  k_slots a : base <= a < base + APERTURE_SIZE -> a ∈ slots (mapper w) -> exists o lh, pools w !! o = Some lh /\ a = base + o
}.

(** What keeps pools off the window: its reservation is outside their band of
    host addresses, or all of it is still mapped. *)
Definition walled : Prop := whi <= POOL_HVA_MIN \/ POOL_HVA_MAX <= wlo.
Definition intact w : Prop := forall x, wlo <= x < whi -> taken (space w) x.

Record contained w : Prop := {
  c_base : aperture_base w = Some base;
  c_books : books (pools w);
  c_held h l : held (space w) !! h = Some l <-> exists o, pools w !! o = Some (l, h);
  c_slots a : base <= a < base + APERTURE_SIZE -> a ∈ slots (mapper w) -> exists o lh, pools w !! o = Some lh /\ a = base + o;
  c_window a n h : 0 <= n -> hm_host_addr (mapper w) a n = Some h -> wlo <= h /\ h + n <= whi;
  c_walls : walled \/ intact w;
  c_clear o l h : pools w !! o = Some (l, h) -> h + l <= wlo \/ whi <= h
}.

(** The fields of a request are [u64]. *)
Definition req_ok req : Prop := is_word 64 (shm_offset req) /\ is_word 64 (fd_offset req) /\ is_word 64 (req_len req).

(** A change of this process's mappings that keeps the pools and the window. *)
Lemma contained_space w m :
  contained w -> held m = held (space w) -> walled \/ intact (with_space w m) -> contained (with_space w m).
Proof. intros [] Hh Ht. split; try done. intros h l. simpl. by rewrite Hh. Qed.

(** More mapped than before leaves the walls. *)
Lemma walls_kept w m : contained w -> (forall x, taken (space w) x -> taken m x) -> walled \/ intact (with_space w m).
Proof. intros Hc Ht. destruct (c_walls w Hc) as [|Hi]; [by left|right]. intros x Hx. by apply Ht, Hi. Qed.

(** A change of the memory slots that keeps the window and adds nothing to the aperture. *)
Lemma contained_mapper w p :
  contained w -> (forall x y, hm_host_addr p x y = hm_host_addr (mapper w) x y) ->
  (forall a, base <= a < base + APERTURE_SIZE -> a ∈ slots p -> a ∈ slots (mapper w)) -> contained (with_mapper w p).
Proof.
  intros [] Hh Hs. split; try done.
  - intros a Ha Hin. by apply c_slots0, Hs.
  - intros a n h. cbn [mapper with_mapper]. rewrite Hh. apply c_window0.
Qed.

Lemma base_offset o l : 0 <= o -> o + l <= APERTURE_SIZE -> 0 < l -> base ⊕ o = base + o.
Proof. intros. apply wrap_small. unfold is_word. lia. Qed.

Lemma place_contained w req fd :
  req_ok req -> contained w -> walled \/ intact (place w req fd).1 -> contained (place w req fd).1.
Proof.
  intros (_ & _ & Hl) Hc. unfold place. destruct (guest_base w) as [gb|]; [|done].
  destruct (checked_add _ _ _) as [ga|]; [|done]. destruct (hm_host_addr _ _ _) as [host|] eqn:Eh; [|done].
  destruct (mmap_fixed _ _ _ _ _ _) as [m r] eqn:Em. cbn [fst]. intros Hw. pose proof Hc as [_ _ H3 _ H5 _ H7].
  apply H5 in Eh as [Hlo Hhi]; [|unfold is_word in Hl; lia].
  apply contained_space; [done| |done]. apply (fixed_apart _ _ _ _ _ _ _ _ Em).
  intros p l [o Ho]%H3. specialize (H7 _ _ _ Ho). lia.
Qed.

(** Only a refused mapping over the window can take from it. *)
Lemma place_intact w req fd : (place w req fd).2 = inr tt -> intact w -> intact (place w req fd).1.
Proof.
  unfold place. destruct (guest_base w) as [gb|]; [|done].
  destruct (checked_add _ _ _) as [ga|]; [|done]. destruct (hm_host_addr _ _ _) as [host|] eqn:Eh; [|done].
  destruct (mmap_fixed _ _ _ _ _ _) as [m [e|[]]] eqn:Em; [done|]. intros _ Hi x Hx.
  apply (fixed_replaces _ _ _ _ _ _ _ _ Em). by apply Hi.
Qed.

(** A mapping made and taken back leaves everything as it was. *)
Lemma undone w m p len m' :
  contained w ->
  (forall x, p <= x < p + len -> ~ taken (space w) x) -> (forall x, taken (space w) x -> taken m x) ->
  held (space w) !! p = None -> held m = <[p := len]> (held (space w)) ->
  held m' = held m -> (forall x, taken m x -> taken m' x) ->
  contained (with_space w (munmap m' p len)) /\ held (munmap m' p len) = held (space w).
Proof.
  intros Hc Hfree Ht Hn Hh Hh' Ht'. destruct (munmap_unmaps m' p len) as [Hu Hk].
  { by rewrite Hh', Hh, lookup_insert_eq. }
  rewrite Hh', Hh, delete_insert_id in Hu by done. split; [|done]. apply contained_space; [done..|].
  apply walls_kept; [done|]. intros x Hx. apply Hk; [by apply Ht', Ht|]. intros Hin. by apply (Hfree x Hin).
Qed.

(** The state with a pool more: mapped, in a slot, and where nothing was. *)
Lemma pool_added w m q o l h :
  contained w -> pool_fits o l h -> (forall o' l' h', pools w !! o' = Some (l', h') -> apart o' l' h' o l h) ->
  pools w !! o = None -> books (<[o := (l, h)]> (pools w)) ->
  (forall x, h <= x < h + l -> ~ taken (space w) x) -> (forall x, taken (space w) x -> taken m x) ->
  held m = <[h := l]> (held (space w)) ->
  (forall x y, hm_host_addr q x y = hm_host_addr (mapper w) x y) -> slots q = {[base + o]} ∪ slots (mapper w) ->
  contained (with_pools (with_mapper (with_space w m) q) (<[o := (l, h)]> (pools w))).
Proof.
  intros Hc [Hp _ [Hlo Hhi] _ _] Hap Hnone Hbooks Hfree Ht Hh Hwn Hsl. pose proof (walls_kept w m Hc Ht) as Hwalls.
  destruct Hc as [H1 H2 H3 H4 H5 H6 H7].
  split; cbn [aperture_base pools space mapper with_pools with_mapper with_space].
  - done.
  - done.
  - intros h' l'. rewrite Hh. rewrite lookup_insert_Some. setoid_rewrite lookup_insert_Some. rewrite H3. split.
    + intros [[<- <-]|[Hne [o' Hoo]]]; [eauto|]. exists o'. right. split; [|done]. intros <-. congruence.
    + intros [o' [[<- [= <- <-]]|[Hne Hoo]]]; [by left|]. right. split; [|eauto].
      intros <-. destruct (Hap _ _ _ Hoo) as [_ ?]. destruct (b_fits _ H2 _ _ _ Hoo) as [? _ _ _ _]. lia.
  - intros a Ha. rewrite Hsl. intros [->%elem_of_singleton|Hin]%elem_of_union.
    + eexists _, _. by rewrite lookup_insert_eq.
    + destruct (H4 a Ha Hin) as (o' & lh & Hoo & ->). exists o', lh. split; [|done]. rewrite lookup_insert_ne; [done|].
      intros <-. congruence.
  - intros a n h'. rewrite Hwn. apply H5.
  - done.
  - intros o' l' h'. rewrite lookup_insert_Some. intros [[<- [= <- <-]]|[_ Hoo]]; [|by eapply H7].
    destruct (decide (h + l <= wlo)); [by left|]. destruct (decide (whi <= h)); [by right|].
    exfalso. destruct H6 as [Hw|Hi]; [unfold walled in Hw; lia|]. apply (Hfree (Z.max h wlo)); [lia|]. apply Hi. lia.
Qed.

(** A pool placed whole or not at all. *)
Lemma place_pool_spec w req fd :
  req_ok req -> contained w ->
  let '(w', r) := place_pool w req fd in
  contained w' /\
  match r with
  | inr _ =>
      pools w' = <[shm_offset req := (req_len req, fd_offset req)]> (pools w) /\ pools w !! shm_offset req = None /\
      held (space w') = <[fd_offset req := req_len req]> (held (space w)) /\
      slots (mapper w') = {[base + shm_offset req]} ∪ slots (mapper w)
  | inl _ => pools w' = pools w /\ held (space w') = held (space w) /\ slots (mapper w') = slots (mapper w)
  end.
Proof.
  intros (Ho & Hv & Hl) Hc. unfold is_word in *. unfold place_pool. rewrite (c_base w Hc).
  destruct (check_pool _ _ _ _ _) as [e|] eqn:Ec; [done|].
  apply check_pool_ok in Ec as (_ & Hp & Hap & Hs & Hb); [|lia..].
  destruct (mmap_noreplace _ _ _ _) as [m [e|p]] eqn:Em.
  { destruct (noreplace_fails _ _ _ _ _ _ Em) as [Hh Ht]. split; [|done]. apply contained_space; [done..|by apply walls_kept]. }
  destruct (noreplace_maps _ _ _ _ _ _ Em) as (Hfree & Ht & Hn & Hh).
  destruct (p =? fd_offset req) eqn:Ep; cbn [negb]; bool_prop.
  2:{ destruct (undone w m p (req_len req) m Hc Hfree Ht Hn Hh eq_refl) as [? ?]; [done|]. by split. }
  subst p. destruct (populate_write _ _ _) as [m1 [e|[]]] eqn:Epop; destruct (populate_keeps _ _ _ _ _ Epop) as [Hh1 Ht1].
  { destruct (undone w m (fd_offset req) (req_len req) m1 Hc Hfree Ht Hn Hh Hh1 Ht1) as [? ?]. by split. }
  destruct (hm_map _ _ _ _) as [q ok] eqn:Eq.
  assert (Hwn : forall x y, hm_host_addr q x y = hm_host_addr (mapper w) x y).
  { intros x y. by rewrite <- (map_window (mapper w) (base ⊕ shm_offset req) (fd_offset req) (req_len req)), Eq. }
  destruct ok.
  2:{ pose proof (map_fails _ _ _ _ _ Eq) as Hsl. destruct (undone w m (fd_offset req) (req_len req) m1 Hc Hfree Ht Hn Hh Hh1 Ht1) as [Hc' ?].
      split; [|done]. apply (contained_mapper (with_space w (munmap m1 (fd_offset req) (req_len req)))); [done..|]. simpl. by rewrite Hsl. }
  destruct (map_adds _ _ _ _ _ Eq) as [_ Hsl]. pose proof Hp as [Hp1 _ _ _ [Hp2 Hp3]].
  rewrite (base_offset _ (req_len req)) in Hsl by lia.
  destruct (books_insert (pools w) _ _ _ (c_books w Hc) Hp Hap Hs Hb) as [Hnone Hbooks]. cbn [pools space mapper with_pools with_mapper with_space].
  rewrite Hh1, Hh. split; [|done]. apply pool_added; try done; [intros x Hx; by apply Ht1, Ht|by rewrite Hh1, Hh].
Qed.

(** A pool withdrawn whole, or kept. *)
Lemma withdraw_pool_spec w offset len :
  contained w ->
  let '(w', r) := withdraw_pool w offset len in
  contained w' /\
  match r with
  | inr _ =>
      exists h, pools w !! offset = Some (len, h) /\ pools w' = delete offset (pools w) /\
        held (space w') = delete h (held (space w)) /\ slots (mapper w') = slots (mapper w) ∖ {[base + offset]}
  | inl _ => pools w' = pools w /\ held (space w') = held (space w)
  end.
Proof.
  intros Hc. unfold withdraw_pool. rewrite (c_base w Hc). destruct (pools w !! offset) as [[l h]|] eqn:Eo; [|done].
  destruct (l =? len) eqn:El; cbn [negb]; bool_prop; [subst l|done].
  destruct (b_fits _ (c_books w Hc) _ _ _ Eo) as [Hl _ _ _ [Ho1 Ho2]]. rewrite (base_offset _ len) by lia.
  destruct (hm_unmap _ _ _) as [q ok] eqn:Eq.
  assert (Hwn : forall x y, hm_host_addr q x y = hm_host_addr (mapper w) x y).
  { intros x y. by rewrite <- (unmap_window (mapper w) (base + offset) len), Eq. }
  destruct ok.
  2:{ destruct (unmap_shrinks _ _ _ _ Eq) as [Hsl _]. split; [|done]. apply contained_mapper; [done..|]. intros a _ Ha. by apply Hsl. }
  destruct (unmap_removes _ _ _ _ Eq) as [_ Hsl]. destruct Hc as [H1 H2 H3 H4 H5 H6 H7].
  destruct (munmap_unmaps (space w) h len) as [Hu Hk]; [apply H3; eauto|].
  split; [|by exists h]. split; cbn [aperture_base pools space mapper with_pools with_mapper with_space].
  - done.
  - by eapply books_delete.
  - intros h' l'. rewrite Hu. rewrite lookup_delete_Some. setoid_rewrite lookup_delete_Some. rewrite H3. split.
    + intros [Hne [o Hoo]]. exists o. split; [|done]. intros <-. congruence.
    + intros [o [Hne Hoo]]. split; [|eauto]. intros <-. destruct (b_apart _ H2 _ _ _ _ _ _ Eo Hoo Hne) as [_ ?].
      destruct (b_fits _ H2 _ _ _ Hoo) as [? _ _ _ _]. lia.
  - intros a Ha. rewrite Hsl. intros [Hin Hne%not_elem_of_singleton]%elem_of_difference.
    destruct (H4 a Ha Hin) as (o & lh & Hoo & ->). exists o, lh. split; [|done]. rewrite lookup_delete_ne; [done|].
    intros <-. done.
  - intros a n h'. rewrite Hwn. apply H5.
  - destruct H6 as [|Hi]; [by left|right]. intros x Hx. apply Hk; [by apply Hi|]. specialize (H7 _ _ _ Eo). lia.
  - intros o l h' [_ Hoo]%lookup_delete_Some. by eapply H7.
Qed.

Lemma withdraw_pool_contained w offset len : contained w -> contained (withdraw_pool w offset len).1.
Proof. intros Hc. pose proof (withdraw_pool_spec w offset len Hc) as H. destruct (withdraw_pool w offset len). by destruct H. Qed.

Lemma shmem_map_contained w req fd :
  req_ok req -> contained w -> walled \/ intact (shmem_map w req fd).1 -> contained (shmem_map w req fd).1.
Proof.
  intros Hr Hc. unfold shmem_map. case_match; [by apply place_contained|]. case_match; [|done].
  pose proof (place_pool_spec w req fd Hr Hc) as H'. destruct (place_pool w req fd). by destruct H'.
Qed.

Lemma shmem_unmap_contained w req : contained w -> contained (shmem_unmap w req).1.
Proof.
  intros Hc. unfold shmem_unmap. case_match.
  - destruct (guest_base w) as [gb|]; [|done]. destruct (hm_withdraw _ _ _) as [q ok] eqn:Eq. cbn [fst].
    apply contained_mapper; [done| |].
    + intros x y. by rewrite <- (withdraw_window (mapper w) (saturating_add 64 gb (shm_offset req)) (req_len req)), Eq.
    + intros a _. by rewrite (withdraw_keeps _ _ _ _ _ Eq).
  - case_match; [by apply withdraw_pool_contained|done].
Qed.

Lemma withdraw_all_contained w : contained w -> contained (withdraw_all_pools w).
Proof.
  unfold withdraw_all_pools. generalize (offsets (pools w)). intros l. revert w.
  induction l as [|[o len] l IH]; intros w Hc; [done|]. cbn [foldl]. by apply IH, withdraw_pool_contained.
Qed.

(** The window mapper's life: the backend's requests in any order and with any
    fields, resets of the device, and the other users of the memory slots, who
    have nothing in this aperture. *)
Inductive life : WindowMapper P M -> WindowMapper P M -> Prop :=
  | life_map w req fd : req_ok req -> life w (shmem_map w req fd).1
  | life_unmap w req : life w (shmem_unmap w req).1
  | life_reset w : life w (withdraw_all_pools w)
  | life_other w p :
      (forall x y, hm_host_addr p x y = hm_host_addr (mapper w) x y) ->
      (forall a, base <= a < base + APERTURE_SIZE -> a ∈ slots p -> a ∈ slots (mapper w)) ->
      life w (with_mapper w p).

(** A step after which the window is walled off or whole. *)
Definition kept_life w w' : Prop := life w w' /\ (walled \/ intact w').

Lemma life_contained w w' : rtc kept_life w w' -> contained w -> contained w'.
Proof.
  induction 1 as [|w1 w2 w3 [Hs Hi] _ IH]; [done|]. intros Hc. apply IH. destruct Hs as [w req fd Hr|w req|w|w p Hh Hs].
  - by apply shmem_map_contained.
  - by apply shmem_unmap_contained.
  - by apply withdraw_all_contained.
  - by apply contained_mapper.
Qed.

(** ** The books alone, whatever becomes of the window *)

Lemma books_space w m : kept_books w -> kept_books (with_space w m).
Proof. by intros []. Qed.

Lemma books_mapper w p :
  kept_books w -> (forall a, base <= a < base + APERTURE_SIZE -> a ∈ slots p -> a ∈ slots (mapper w)) -> kept_books (with_mapper w p).
Proof. intros [] Hs. split; try done. intros a Ha Hin. by apply k_slots0, Hs. Qed.

Lemma place_books w req fd : kept_books w -> kept_books (place w req fd).1.
Proof.
  intros Hk. unfold place. destruct (guest_base w); [|done]. destruct (checked_add _ _ _); [|done].
  destruct (hm_host_addr _ _ _); [|done]. destruct (mmap_fixed _ _ _ _ _ _). by apply books_space.
Qed.

Lemma place_pool_books w req fd : req_ok req -> kept_books w -> kept_books (place_pool w req fd).1.
Proof.
  intros (Ho & Hv & Hl) Hk. unfold is_word in *. unfold place_pool. rewrite (k_base w Hk).
  destruct (check_pool _ _ _ _ _) as [e|] eqn:Ec; [done|].
  apply check_pool_ok in Ec as (_ & Hp & Hap & Hs & Hb); [|lia..].
  destruct (mmap_noreplace _ _ _ _) as [m [e|p]]; [by apply books_space|].
  destruct (negb _); [by apply books_space|].
  destruct (populate_write _ _ _) as [m1 [e|[]]]; [by apply books_space|].
  destruct (hm_map _ _ _ _) as [q ok] eqn:Eq. destruct ok.
  2:{ apply books_space, (books_mapper (with_space w m1)); [by apply books_space|]. intros a _.
      by rewrite (map_fails _ _ _ _ _ Eq). }
  destruct (map_adds _ _ _ _ _ Eq) as [_ Hsl]. pose proof Hp as [Hp1 _ _ _ [Hp2 Hp3]].
  rewrite (base_offset _ (req_len req)) in Hsl by lia.
  destruct (books_insert (pools w) _ _ _ (k_books w Hk) Hp Hap Hs Hb) as [Hnone Hbooks].
  split; [apply (k_base w Hk)|done|]. intros a Ha. simpl. rewrite Hsl. intros [->%elem_of_singleton|Hin]%elem_of_union.
  - eexists _, _. by rewrite lookup_insert_eq.
  - destruct (k_slots w Hk a Ha Hin) as (o & lh & Hoo & ->). exists o, lh. split; [|done].
    rewrite lookup_insert_ne; [done|]. intros <-. congruence.
Qed.

Lemma withdraw_pool_books w offset len : kept_books w -> kept_books (withdraw_pool w offset len).1.
Proof.
  intros Hk. unfold withdraw_pool. rewrite (k_base w Hk). destruct (pools w !! offset) as [[l h]|] eqn:Eo; [|done].
  destruct (l =? len) eqn:El; cbn [negb]; bool_prop; [subst l|done].
  destruct (b_fits _ (k_books w Hk) _ _ _ Eo) as [Hl _ _ _ [Ho1 Ho2]]. rewrite (base_offset _ len) by lia.
  destruct (hm_unmap _ _ _) as [q ok] eqn:Eq. destruct ok.
  2:{ destruct (unmap_shrinks _ _ _ _ Eq) as [Hsl _]. apply books_mapper; [done|]. intros a _ Ha. by apply Hsl. }
  destruct (unmap_removes _ _ _ _ Eq) as [_ Hsl].
  split; [apply (k_base w Hk)|by eapply books_delete; [apply (k_books w Hk)|]|].
  intros a Ha. simpl. rewrite Hsl. intros [Hin Hne%not_elem_of_singleton]%elem_of_difference.
  destruct (k_slots w Hk a Ha Hin) as (o & lh & Hoo & ->). exists o, lh. split; [|done]. rewrite lookup_delete_ne; [done|].
  intros <-. done.
Qed.

Lemma life_books w w' : rtc life w w' -> kept_books w -> kept_books w'.
Proof.
  induction 1 as [|w1 w2 w3 Hs _ IH]; [done|]. intros Hk. apply IH. clear IH. destruct Hs as [w req fd Hr|w req|w|w p _ Hs].
  - unfold shmem_map. case_match; [by apply place_books|]. case_match; [by apply place_pool_books|done].
  - unfold shmem_unmap. case_match; [|case_match; [by apply withdraw_pool_books|done]].
    destruct (guest_base w) as [gb|]; [|done]. destruct (hm_withdraw _ _ _) as [q ok] eqn:Eq. cbn [fst].
    apply books_mapper; [done|]. intros a _. by rewrite (withdraw_keeps _ _ _ _ _ Eq).
  - unfold withdraw_all_pools. generalize (offsets (pools w)). intros l. revert w Hk.
    induction l as [|[o len] l IHl]; intros w Hk; [done|]. cbn [foldl]. by apply IHl, withdraw_pool_books.
  - by apply books_mapper.
Qed.

(** Before any pool: the window reserved if it answers, nothing in the aperture. *)
Definition vacant w : Prop :=
  aperture_base w = Some base /\ pools w = ∅ /\ held (space w) = ∅ /\
  (forall a, base <= a < base + APERTURE_SIZE -> a ∉ slots (mapper w)) /\
  (forall a n h, 0 <= n -> hm_host_addr (mapper w) a n = Some h -> wlo <= h /\ h + n <= whi) /\
  (forall x, wlo <= x < whi -> taken (space w) x).

Lemma vacant_contained w : vacant w -> contained w.
Proof.
  intros (H1 & H2 & H3 & H4 & H5 & H6). split; try done.
  - rewrite H2. split; try (by intros * ?%lookup_empty_Some); [by rewrite map_size_empty; unfold MAX_POOLS; lia|].
    unfold pool_bytes, MAX_POOL_BYTES. rewrite map_fold_empty. lia.
  - intros h l. rewrite H3, H2. split; [by intros ?%lookup_empty_Some|by intros [o ?%lookup_empty_Some]].
  - intros a Ha Hin. by destruct (H4 a Ha).
  - by right.
  - intros o l h. rewrite H2. by intros ?%lookup_empty_Some.
Qed.

Lemma contained_books w : contained w -> kept_books w.
Proof. by intros []. Qed.

(** C10: Whatever the forwarding backend asks for, in any order and with any field values, with resets and the other users of
    the memory slots in between, and whatever the kernel refuses: every pool lies whole inside the aperture on a 2 MiB
    boundary and inside the band of host addresses left to pools, apart from every other pool in both; there are at most 64,
    of at most 256 MiB together; and every memory slot in the aperture is a pool of the table.  As long as the window's
    reservation is outside that band, or no mapping refused over the window took away what was mapped there, pools are also
    apart from the reservation, the mappings this process made for pools are exactly the table's, each at its own address
    and length, and so every memory slot in the aperture is over a pool that is mapped: the guest never has a slot over
    nothing.  A mapping that succeeds takes nothing from the reservation. *)
Theorem pools_contained (w0 w : WindowMapper P M) :
  vacant w0 -> rtc life w0 w ->
  books (pools w) /\
  (forall a, base <= a < base + APERTURE_SIZE -> a ∈ slots (mapper w) -> exists o lh, a = base + o /\ pools w !! o = Some lh) /\
  (rtc (fun w w' => life w w' /\ (whi <= POOL_HVA_MIN \/ POOL_HVA_MAX <= wlo \/ intact w')) w0 w ->
     (forall o l h, pools w !! o = Some (l, h) -> h + l <= wlo \/ whi <= h) /\
     (forall h l, held (space w) !! h = Some l <-> exists o, pools w !! o = Some (l, h)) /\
     (forall a, base <= a < base + APERTURE_SIZE -> a ∈ slots (mapper w) ->
        exists o l h, a = base + o /\ pools w !! o = Some (l, h) /\ held (space w) !! h = Some l)) /\
  (forall req fd, (place w req fd).2 = inr tt -> intact w -> intact (place w req fd).1).
Proof.
  intros H0 Hl. pose proof (vacant_contained w0 H0) as Hc. pose proof (life_books w0 w Hl (contained_books _ Hc)) as [_ Hb Hs].
  split; [done|]. split; [intros a Ha Hin; destruct (Hs a Ha Hin) as (o & lh & Ho & ->); eauto|].
  split; [|intros req fd; apply place_intact]. intros Hk.
  assert (Hk' : rtc kept_life w0 w).
  { eapply rtc_subrel; [|exact Hk]. intros x y [Hx Hy]. split; [done|]. unfold walled. tauto. }
  destruct (life_contained w0 w Hk' Hc) as [_ _ H3 H4 _ _ H7]. split_and!; try done.
  intros a Ha Hin. destruct (H4 a Ha Hin) as (o & [l h] & Ho & ->). exists o, l, h. split_and!; [done..|]. apply H3. eauto.
Qed.

(** A pool comes whole or not at all, and goes the same way.  In any reachable state a request for one either succeeds,
    and then the table, the mappings and the slots have exactly that pool more, or fails and they are what they were, the
    mapping made on the way undone; withdrawing it then restores all three, or is refused and keeps the pool and its
    mapping. *)
Theorem pool_roundtrip (w0 w : WindowMapper P M) req fd :
  vacant w0 -> rtc kept_life w0 w -> req_ok req ->
  match place_pool w req fd with
  | (w1, inl _) => pools w1 = pools w /\ held (space w1) = held (space w) /\ slots (mapper w1) = slots (mapper w)
  | (w1, inr _) =>
      pools w1 = <[shm_offset req := (req_len req, fd_offset req)]> (pools w) /\
      held (space w1) = <[fd_offset req := req_len req]> (held (space w)) /\
      slots (mapper w1) = {[base + shm_offset req]} ∪ slots (mapper w) /\
      match withdraw_pool w1 (shm_offset req) (req_len req) with
      | (w2, inr _) => pools w2 = pools w /\ held (space w2) = held (space w) /\ slots (mapper w2) = slots (mapper w)
      | (w2, inl _) => pools w2 = pools w1 /\ held (space w2) = held (space w1)
      end
  end.
Proof.
  intros H0 Hl Hr. pose proof (life_contained w0 w Hl (vacant_contained w0 H0)) as Hc.
  pose proof (place_pool_spec w req fd Hr Hc) as Hp. destruct (place_pool w req fd) as [w1 [e|u]]; destruct Hp as [Hc1 Hp]; [done|].
  destruct Hp as (E1 & En & E2 & E3). split_and!; try done.
  pose proof (withdraw_pool_spec w1 (shm_offset req) (req_len req) Hc1) as Hw.
  destruct (withdraw_pool w1 _ _) as [w2 [e|u']]; destruct Hw as [_ Hw]; [done|]. destruct Hw as (h & Eh & F1 & F2 & F3).
  rewrite E1, lookup_insert_eq in Eh. injection Eh as <-.
  assert (Hb : pool_fits (shm_offset req) (req_len req) (fd_offset req)).
  { apply (b_fits _ (c_books w1 Hc1)). by rewrite E1, lookup_insert_eq. }
  rewrite F1, F2, F3, E1, E2, E3. split_and!.
  - by apply delete_insert_id.
  - apply delete_insert_id. destruct (held (space w) !! fd_offset req) as [l|] eqn:Eh; [|done]. exfalso.
    apply (c_held w Hc) in Eh as [o Ho]. assert (o <> shm_offset req) by congruence.
    destruct (b_apart _ (c_books w1 Hc1) o l (fd_offset req) (shm_offset req) (req_len req) (fd_offset req)) as [_ Hx].
    + by rewrite E1, lookup_insert_ne.
    + by rewrite E1, lookup_insert_eq.
    + done.
    + destruct (b_fits _ (c_books w Hc) _ _ _ Ho) as [? _ _ _ _], Hb as [? _ _ _ _]. lia.
  - destruct Hb as [? _ _ _ [? ?]]. assert (Hn : base + shm_offset req ∉ slots (mapper w)).
    { intros Hin. destruct (c_slots w Hc (base + shm_offset req)) as (o & lh & Ho & Heq); [lia|done|].
      assert (o = shm_offset req) as -> by lia. congruence. }
    set_solver.
Qed.
End Contained.

(** * The memory slots, and a process *)

#[export] Instance MemorySlots_window {H} `{Host H} : WindowLaws (MemorySlots H).
Proof.
  split; intros p a.
  - intros h n x y. simpl. unfold succeeded, map. case_bool_decide; [done|].
    destruct (match free_slots p with [] => _ | _ :: _ => _ end) as [[slot rest] next]. by destruct (set_region _ _ _ _ _) as [k []].
  - intros n x y. simpl. unfold succeeded, unmap. destruct (mapped p !! a); [|done]. by destruct (set_region _ _ _ _ _) as [k []].
  - intros n x y. simpl. unfold succeeded, withdraw. destruct (host_addr p a n); [|done]. by destruct (overwrite _ _ _) as [k []].
Qed.

(** A process with a reservation, what was lost of it, and the mappings made so
    far.  A MAP_FIXED of the descriptor -1 is refused, after what was there is gone. *)
Record Process := { reservation : Z * Z; holes : list (Z * Z); maps : gmap Z Z }.

Definition in_hole (m : Process) (x : Z) : Prop := exists a l, (a, l) ∈ holes m /\ a <= x < a + l.

Definition clear_of_window (m : Process) (hva len : Z) : bool :=
  negb (hit (reservation m).1 ((reservation m).2 - (reservation m).1) hva len) ||
  existsb (fun '(a, l) => (a <=? hva) && (hva + len <=? a + l)) (holes m).

Definition free (m : Process) (hva len : Z) : bool :=
  clear_of_window m hva len &&
  bool_decide (maps m !! hva = None) && forallb (fun '(p, l) => negb (hit p l hva len)) (map_to_list (maps m)).

#[export] Instance Process_space : AddressSpace Process := {
  mmap_fixed m a len _ fd _ :=
    if fd =? -1 then ({| reservation := reservation m; holes := (a, len) :: holes m; maps := maps m |}, inl EINVAL) else (m, inr tt);
  mmap_noreplace m hva len _ :=
    if free m hva len then ({| reservation := reservation m; holes := holes m; maps := <[hva := len]> (maps m) |}, inr hva)
    else (m, inl EEXIST);
  munmap m p _ := {| reservation := reservation m; holes := holes m; maps := delete p (maps m) |};
  populate_write m _ _ := (m, inr tt)
}.

Definition occupied (m : Process) (x : Z) : Prop :=
  (reservation m).1 <= x < (reservation m).2 /\ ~ in_hole m x \/ exists p l, maps m !! p = Some l /\ p <= x < p + l.

Lemma clear_not_reserved m hva len x :
  clear_of_window m hva len = true -> hva <= x < hva + len -> (reservation m).1 <= x < (reservation m).2 -> in_hole m x.
Proof.
  unfold clear_of_window. intros [E%negb_true_iff%hit_false|E]%orb_true_iff Hx Hr; [lia|].
  apply existsb_exists in E as ([a l] & Hin%list_elem_of_In & E). bool_prop. exists a, l. split; [done|lia].
Qed.

#[export] Instance Process_laws : AddressSpaceLaws Process occupied maps.
Proof.
  split; simpl.
  - intros m hva len fd m' p. destruct (free m hva len) eqn:E; [|done]. intros [= <- <-]. unfold free in E.
    apply andb_true_iff in E as [[E1 E2]%andb_true_iff E3]. apply bool_decide_eq_true in E2.
    split_and!; try done.
    + intros x Hx [[Hr Hn]|(q & l & Hq & Hql)]; [by apply Hn; eapply clear_not_reserved|].
      rewrite forallb_forall in E3. specialize (E3 (q, l)). rewrite <- list_elem_of_In, elem_of_map_to_list in E3.
      specialize (E3 Hq). apply negb_true_iff, hit_false in E3. lia.
    + intros x [Hr|(q & l & Hq & Hql)]; [by left|right]. exists q, l. split; [|done]. simpl. rewrite lookup_insert_ne; [done|]. congruence.
  - intros m hva len fd m' e. destruct (free m hva len); [done|]. by intros [= <- <-].
  - intros m p len Hp. split; [done|]. intros x [Hr|(q & l & Hq & Hql)] Hn; [by left|right]. exists q, l. split; [|done].
    simpl. rewrite lookup_delete_ne; [done|]. intros <-. rewrite Hp in Hq. injection Hq as ->. done.
  - by intros m p len m' r [= <- <-].
  - intros m a len prot fd off m' r. case_match; by intros [= <- <-].
  - intros m a len prot fd off m' x. case_match; [done|]. by intros [= <-].
  - intros m a len prot fd off m' e x. case_match; [|done]. intros [= <- <-] [[Hr Hn]|Hm] Hx; [left|by right].
    split; [done|]. intros (a' & l' & [[= -> ->]|Hin]%elem_of_cons & Hal); [done|]. apply Hn. by exists a', l'.
Qed.

#[local] Instance writable_bit : MmapBits := { WRITABLE := 2 }.

(** A window of 256 MiB, an aperture above it. *)
Definition BASE : Z := 0x800000000.

Definition fresh_window : WindowMapper (MemorySlots TestHost) Process :=
  set_aperture_base (set_guest_base (WindowMapper_new (session_end) {| reservation := (0x7f0000000000, 0x7f0010000000); holes := []; maps := ∅ |})
    0x200000000) BASE.

Definition a_pool : VhostUserMMap :=
  {| shmid := NV_SHM_ID_APERTURE; shm_offset := 0x200000; fd_offset := 0x200000000; req_len := 0x400000; req_flags := 2 |}.

(** The same host address again, at another offset. *)
Definition again : VhostUserMMap :=
  {| shmid := NV_SHM_ID_APERTURE; shm_offset := 0x800000; fd_offset := 0x200001000; req_len := 0x1000; req_flags := 2 |}.

Definition two_requests : WindowMapper (MemorySlots TestHost) Process := (shmem_map (shmem_map fresh_window a_pool 7).1 again 7).1.

Example pool_placed :
  map_to_list (pools two_requests) = [(0x200000, (0x400000, 0x200000000))] /\
  (shmem_map (shmem_map fresh_window a_pool 7).1 again 7).2 = inl (Errno EEXIST) /\
  mapped (mapper two_requests) !! (BASE + 0x200000) = Some 5 /\
  map_to_list (pools (withdraw_all_pools two_requests)) = [].
Proof. vm_compute. repeat split. Qed.

(** A slot the kernel will not remove: the pool and its mapping stay, and as the
    memory slots forgot the address it can never be withdrawn. *)
Example refused_withdrawal_sticks :
  let w := set_aperture_base (WindowMapper_new (MemorySlots_new {| regions := []; answers := [true; false] |} 2)
             {| reservation := (0, 1); holes := []; maps := ∅ |}) BASE in
  let w1 := (shmem_map w a_pool 7).1 in
  let w2 := (withdraw_pool w1 0x200000 0x400000).1 in
  (shmem_map w a_pool 7).2 = inr tt /\
  (withdraw_pool w1 0x200000 0x400000).2 = inl MapperRefused /\ (withdraw_pool w2 0x200000 0x400000).2 = inl MapperRefused /\
  size (pools (withdraw_all_pools w2)) = 1%nat.
Proof. vm_compute. repeat split. Qed.

Lemma session_addrs : dom (mapped session_end) = {[0x300002000; 0x300003000]}.
Proof. by vm_compute. Qed.

Lemma session_opened : window session_end = Some session_window.
Proof. by vm_compute. Qed.

(** The window's addresses are in its reservation, whatever the slots. *)
Lemma session_answers (s : MemorySlots TestHost) a n h :
  window s = Some session_window -> 0 <= n -> hm_host_addr s a n = Some h -> 0x7f0000000000 <= h /\ h + n <= 0x7f0010000000.
Proof.
  intros Ew Hn Hh. cbn [hm_host_addr MemorySlots_mapper] in Hh. unfold host_addr in Hh. rewrite Ew in Hh. cbn [mbind option_bind] in Hh.
  unfold checked_sub, checked_add in Hh. cbn [MemSlots.guest_base w_size session_window host_base] in Hh.
  revert Hh. destruct (Z.leb_spec 0x200000000 a); cbn [mbind option_bind]; [|done].
  destruct (Z.ltb_spec (a - 0x200000000 + n) (2 ^ 64)); cbn [mbind option_bind]; [|done].
  destruct (Z.ltb_spec 0x10000000 (a - 0x200000000 + n)); [done|]. intros [= <-].
  rewrite wrap_small by (unfold is_word; lia). lia.
Qed.

(** Around any slots with that window and nothing in the aperture. *)
Lemma window_vacant (s : MemorySlots TestHost) :
  window s = Some session_window -> dom (mapped s) = {[0x300002000; 0x300003000]} ->
  vacant slot_addrs occupied maps BASE 0x7f0000000000 0x7f0010000000
    (set_aperture_base (set_guest_base (WindowMapper_new s {| reservation := (0x7f0000000000, 0x7f0010000000); holes := []; maps := ∅ |})
      0x200000000) BASE).
Proof.
  intros Ew Hd. split_and!; try done.
  - intros a Ha. cbn [mapper set_aperture_base set_guest_base WindowMapper_new]. unfold slot_addrs. rewrite Hd. unfold BASE, APERTURE_SIZE in Ha.
    intros [Hin|Hin]%elem_of_union; apply elem_of_singleton in Hin; lia.
  - intros a n h. by apply session_answers.
  - intros x Hx. left. split; [done|]. by intros (a & l & ?%elem_of_nil & _).
Qed.

Lemma fresh_vacant : vacant slot_addrs occupied maps BASE 0x7f0000000000 0x7f0010000000 fresh_window.
Proof. exact (window_vacant session_end session_opened session_addrs). Qed.

Lemma a_pool_accepted :
  (place_pool fresh_window a_pool 7).2 = inr tt /\
  (withdraw_pool (place_pool fresh_window a_pool 7).1 (shm_offset a_pool) (req_len a_pool)).2 = inr tt.
Proof. vm_compute. by split. Qed.

Lemma a_pool_ok : req_ok a_pool.
Proof. unfold req_ok, is_word. simpl. lia. Qed.

Lemma aperture_fits : 0 <= BASE /\ BASE + APERTURE_SIZE <= 2 ^ 64.
Proof. unfold BASE, APERTURE_SIZE. lia. Qed.

(** A mapping over the window refused, a pool, and the same pool again. *)
Definition over_window : VhostUserMMap :=
  {| shmid := NV_SHM_ID; shm_offset := 0x100000; fd_offset := 0; req_len := 0x1000; req_flags := 2 |}.

Definition after_refusal : WindowMapper (MemorySlots TestHost) Process := (shmem_map fresh_window over_window (-1)).1.
Definition with_a_pool : WindowMapper (MemorySlots TestHost) Process := (shmem_map after_refusal a_pool 7).1.
Definition three_requests : WindowMapper (MemorySlots TestHost) Process := (shmem_map with_a_pool again 7).1.

Lemma window_above_band : POOL_HVA_MAX <= 0x7f0000000000.
Proof. unfold POOL_HVA_MAX. lia. Qed.

Definition walled_life (w w' : WindowMapper (MemorySlots TestHost) Process) : Prop :=
  life slot_addrs BASE w w' /\
  (0x7f0010000000 <= POOL_HVA_MIN \/ POOL_HVA_MAX <= 0x7f0000000000 \/ intact occupied 0x7f0000000000 0x7f0010000000 w').

Lemma walled_map w req fd : req_ok req -> walled_life w (shmem_map w req fd).1.
Proof. intros Hr. split; [by apply life_map|]. right. left. exact window_above_band. Qed.

Lemma three_lives : rtc walled_life fresh_window three_requests.
Proof.
  unfold three_requests, with_a_pool, after_refusal.
  eapply rtc_l; [eapply (walled_map fresh_window over_window (-1)); unfold req_ok, is_word; simpl; lia|].
  eapply rtc_l; [eapply (walled_map _ a_pool 7); exact a_pool_ok|].
  eapply rtc_l; [eapply (walled_map _ again 7); unfold req_ok, is_word; simpl; lia|]. apply rtc_refl.
Qed.

Lemma three_lives_any : rtc (life slot_addrs BASE) fresh_window three_requests.
Proof. eapply rtc_subrel; [|exact three_lives]. by intros x y [H _]. Qed.

Lemma pools_contained_witness :
  books (pools three_requests) /\ maps (space three_requests) !! 0x200000000 = Some 0x400000.
Proof.
  destruct (pools_contained slot_addrs occupied maps BASE 0x7f0000000000 0x7f0010000000 aperture_fits eq_refl
    fresh_window three_requests fresh_vacant three_lives_any) as (H1 & _ & H3 & _).
  split; [exact H1|]. destruct (H3 three_lives) as (_ & H4 & _). apply H4. exists 0x200000. vm_compute. reflexivity.
Defined.

(** A reservation inside the pools' band: a mapping over it refused by a kernel that
    removed what was there leaves a hole, and the next pool goes into the window. *)
Definition low_window : WindowMapper (MemorySlots TestHost) Process :=
  set_aperture_base (set_guest_base (WindowMapper_new
    {| vm_fd := vm_fd session_end; next_slot := next_slot session_end;
       window := Some {| MemSlots.guest_base := 0x200000000; host_base := 0x200000000; w_size := 0x10000000 |};
       mapped := mapped session_end; free_slots := free_slots session_end; window_slot := window_slot session_end;
       lost := lost session_end |}
    {| reservation := (0x200000000, 0x210000000); holes := []; maps := ∅ |}) 0x200000000) BASE.

Definition over_low_window : VhostUserMMap :=
  {| shmid := NV_SHM_ID; shm_offset := 0; fd_offset := 0; req_len := 0x400000; req_flags := 2 |}.

Example refusal_leaves_a_hole :
  (shmem_map low_window a_pool 7).2 = inl (Errno EEXIST) /\
  (shmem_map low_window over_low_window (-1)).2 = inl (Errno EINVAL) /\
  (shmem_map (shmem_map low_window over_low_window (-1)).1 a_pool 7).2 = inr tt.
Proof. vm_compute. repeat split. Qed.

Lemma pool_roundtrip_witness :
  pools (withdraw_pool (place_pool fresh_window a_pool 7).1 (shm_offset a_pool) (req_len a_pool)).1 = pools fresh_window.
Proof.
  pose proof (pool_roundtrip slot_addrs occupied maps BASE 0x7f0000000000 0x7f0010000000 aperture_fits eq_refl
    fresh_window fresh_window a_pool 7 fresh_vacant (rtc_refl _ _) a_pool_ok) as H.
  destruct a_pool_accepted as [E1 E2]. destruct (place_pool fresh_window a_pool 7) as [w1 r1]. cbn [fst snd] in *. subst r1.
  destruct (withdraw_pool w1 _ _) as [w2 r2]. cbn [fst snd] in *. subst r2. apply H.
Defined.
