(* ===== verification/NvGpu.v ===== *)
(** The GPU forwarding device, [virtio-devices/src/nvgpu.rs]: a virtio transport
    whose queues another process serves over vhost-user, and whose description of
    the host, checked before any guest sees it, comes from that process.  Its BAR
    0 has a layout of its own, with room for that description; BARs 2 and 4 are
    the window and the aperture of [NvWindow].

    The frontend's calls are the class [Vhost], its GET_CONFIG the class
    [ConfigSource].  Text is bytes.

    The GPU forwarding device: the handshake in order, the rings enabled last;
    and the description of the host, checked once, that every later read of the
    device configuration is answered from. *)

From stdpp Require Import strings.
From S2P Require Import Prelude PciConfig PciBus PciBusFacts PciBusPaths GuestMem Virtqueue VirtqueueRun Msix.
From S2P Require Import MsixFacts HostMapper VirtioPci VirtioPciFacts Vhost FsDevice Shared.
From S2P Require Import NvWindow.

Definition NV_QUEUE_SIZE : Z := 256.
Definition NV_NUM_QUEUES : nat := 2.
Definition NV_MSIX_VECTORS : Z := 3.
Definition VIRTIO_ID_GPU_NV : Z := 45.
Definition NV_PCI_DEVICE_ID : Z := 0x1040 + VIRTIO_ID_GPU_NV.
Definition NV_CONFIG_LEN : nat := 4024.
Definition CONFIG_LEN_NO_VRAM_LIMIT : nat := 4016.
Definition OFF_NUM_GPUS : nat := 32.
Definition MAX_GPUS : Z := 8.
Definition OFF_NUM_FD_TRANSLATIONS : nat := 3880.
Definition MAX_FD_TRANSLATIONS : Z := 16.
Definition OFF_VRAM_LIMIT_MIB : nat := 4016.

Definition NV_OFF_COMMON : Z := 0x0000.
Definition NV_OFF_ISR : Z := 0x0100.
Definition NV_OFF_NOTIFY : Z := 0x0200.
Definition NV_OFF_MSIX_TABLE : Z := 0x0300.
Definition NV_OFF_MSIX_PBA : Z := 0x0400.
Definition NV_OFF_DEVICE : Z := 0x1000.
Definition NV_BAR0_SIZE : Z := 0x4000.
Definition NV_SHM_BAR : nat := 2.
Definition NV_SHM_SIZE : Z := 2 ^ 30.
Definition APERTURE_BAR : nat := 4.

(** Two more protocol features, as the library numbers them. *)
Class VhostUserShmBits := { PROTOCOL_BACKEND_REQ : Z; PROTOCOL_SHMEM : Z }.

(** GET_CONFIG of a length from the start; an empty reply is an error. *)
Class ConfigSource (H : Type) := { get_config : H -> nat -> H * option (list Z) }.

(** * The description of the host *)

Fixpoint split_on (sep : Z) (cur : list Z) (l : list Z) : list (list Z) :=
  match l with
  | [] => [cur]
  | c :: l => if c =? sep then cur :: split_on sep [] l else split_on sep (cur ++ [c]) l
  end.

Definition number (s : list Z) : bool := match s with [] => false | _ => forallb (fun b => (48 <=? b) && (b <=? 57)) s end.

(** A bare three-part dotted number. *)
Definition dotted (w : list Z) : bool :=
  match split_on 46 [] w with
  | [a; b; c] => number a && number b && number c
  | _ => false
  end.

(** From the bytes of the file, [None] if it could not be read; [read_to_string]
    also refuses what is not UTF-8. *)
Definition driver_version (bytes : option (list Z)) : option Text :=
  bytes ← bytes;
  text ← from_utf8 bytes;
  snd <$> list_find dotted (words text).

Definition u32_at (cfg : list Z) (off : nat) : Z := of_le (take 4 (drop off cfg)).

(** Up to the first zero of the first 32 bytes; bytes that are not text are no
    version's. *)
Fixpoint until_zero (l : list Z) : list Z :=
  match l with c :: l => if c =? 0 then [] else c :: until_zero l | [] => [] end.

Definition config_version (cfg : list Z) : list Z := until_zero (take 32 cfg).

Definition announced_limit (cfg : list Z) : Z := of_le (take 8 (drop OFF_VRAM_LIMIT_MIB cfg)).

Definition check_device_config (cfg host_version : list Z) (vram_limit_mib : option Z) : bool :=
  (length cfg =? NV_CONFIG_LEN)%nat &&
  ((1 <=? u32_at cfg OFF_NUM_GPUS) && (u32_at cfg OFF_NUM_GPUS <=? MAX_GPUS)) &&
  (u32_at cfg OFF_NUM_FD_TRANSLATIONS <=? MAX_FD_TRANSLATIONS) &&
  bool_decide (config_version cfg = host_version) &&
  match vram_limit_mib with Some want => announced_limit cfg =? want | None => true end.

Section Nv.
Context {R H N P M : Type} {HR : MsiRouter R} {HH : Vhost H} {HC : ConfigSource H} {HN : HostMemory N}.
Context {HP : HostMemoryMapper P} {HM : AddressSpace M} {HB : MmapBits} {HU : VhostUserBits} {HS : VhostUserShmBits}.

(** Before there is a device: SET_OWNER and enough to ask for the description. *)
Definition ask (c : vhost_call) : Act H Z := fun h => vhost h c.

Definition contains (x flag : Z) : bool := Z.land x flag =? flag.

(** From a backend without a limit, what it has, and zero for the rest. *)
Definition ask_config : Act H (list Z) := fun h =>
  match get_config h NV_CONFIG_LEN with
  | (h, Some cfg) => (h, Some cfg)
  | (h, None) => let '(h, old) := get_config h CONFIG_LEN_NO_VRAM_LIMIT in (h, resize NV_CONFIG_LEN 0 <$> old)
  end.

Definition fetch_device_config : Act H (list Z) :=
  ask SetOwner ;;
  features ← ask GetFeatures;
  ensure (has_bits features PROTOCOL_FEATURES) ;;
  offered ← ask GetProtocolFeatures;
  ensure (contains offered PROTOCOL_CONFIG) ;;
  ask (SetProtocolFeatures (Z.land offered wanted)) ;;
  ask_config.

Record NvBack := {
  nv_mem : N;
  nv_frontend : H;
  nv_window : option (WindowMapper P M);
  nv_kick_fds : list Z;
  nv_running : bool;
  nv_config : list Z
}.

Definition nv_with_frontend (b : NvBack) (h : H) : NvBack :=
  {| nv_mem := nv_mem b; nv_frontend := h; nv_window := nv_window b; nv_kick_fds := nv_kick_fds b; nv_running := nv_running b;
     nv_config := nv_config b |}.
Definition nv_set_running (b : NvBack) (r : bool) : NvBack :=
  {| nv_mem := nv_mem b; nv_frontend := nv_frontend b; nv_window := nv_window b; nv_kick_fds := nv_kick_fds b; nv_running := r;
     nv_config := nv_config b |}.
Definition nv_with_window (b : NvBack) (w : option (WindowMapper P M)) : NvBack :=
  {| nv_mem := nv_mem b; nv_frontend := nv_frontend b; nv_window := w; nv_kick_fds := nv_kick_fds b; nv_running := nv_running b;
     nv_config := nv_config b |}.

#[export] Instance NvBack_vhost : HasVhost NvBack H := { vh_of := nv_frontend; with_vh := nv_with_frontend }.

Abbreviation Nv := (Inner R NvBack).

(** * Starting and stopping *)

Definition nv_features (b : NvBack) : Z := VIRTIO_F_VERSION_1.

Definition nv_host_addr (b : NvBack) (gpa : Z) : option Z := get_host_address (nv_mem b) gpa.

Definition nv_memory_regions (b : NvBack) : option (list MemRegion) := memory_regions (nv_mem b).

Definition nv_acked (i : Nv) (backend_features : Z) : Z :=
  Z.lor (Z.land (df (com i)) (nv_features (back i))) (Z.land backend_features PROTOCOL_FEATURES).

(** A request channel only with a window to place mappings in. *)
Definition nv_wanted (b : NvBack) : Z :=
  match nv_window b with
  | Some _ => Z.lor wanted (Z.lor PROTOCOL_BACKEND_REQ PROTOCOL_SHMEM)
  | None => wanted
  end.

Definition start_backend_requests : Act Nv unit :=
  i ← get;
  required (nv_window (back i)) ;;
  tell SetBackendReqFd.

Definition nv_start : Act Nv unit :=
  i ← get;
  backend_features ← vcall GetFeatures;
  tell (SetFeatures (nv_acked i backend_features)) ;;
  (if has_bits backend_features PROTOCOL_FEATURES then
     offered ← vcall GetProtocolFeatures;
     tell (SetProtocolFeatures (Z.land offered (nv_wanted (back i)))) ;;
     (if contains (Z.land offered (nv_wanted (back i))) PROTOCOL_BACKEND_REQ then start_backend_requests else mret tt)
   else mret tt) ;;
  regions ← required (nv_memory_regions (back i));
  tell (SetMemTable regions) ;;
  start_queues NV_QUEUE_SIZE (nv_host_addr (back i)) (nv_kick_fds (back i)) NV_NUM_QUEUES ;;
  each (fun idx => tell (SetVringEnable idx true)) (seq 0 NV_NUM_QUEUES) ;;
  modify (fun i => set_back i (nv_set_running (back i) true)).

Definition nv_activate (i : Nv) : Nv := if nv_running (back i) then i else (nv_start i).1.

(** What [reset] does besides the queue registers. *)
Definition nv_stop (i : Nv) : Nv :=
  let i :=
    if nv_running (back i) then
      let i := foldl (fun i idx => (vcall (SetVringEnable idx false) i).1) i (seq 0 NV_NUM_QUEUES) in
      set_back i (nv_set_running (back i) false)
    else i in
  set_back i (nv_with_window (back i) (withdraw_all_pools <$> nv_window (back i))).

#[export] Instance Nv_virtio : VirtioModel R NvBack := {
  features := nv_features;
  new_queues := numbered_queues NV_NUM_QUEUES NV_QUEUE_SIZE;
  QUEUE_SIZE := NV_QUEUE_SIZE;
  selects := clamped NV_NUM_QUEUES;
  config_bytes := nv_config;
  activate := nv_activate;
  stop := nv_stop;
  notify := ring_kick nv_kick_fds
}.

(** * Construction *)

Definition nv_pci_config : option (list Z * Z) :=
  let c := PciConfig.new 0x1AF4 NV_PCI_DEVICE_ID 0x01 0x038000 0x1AF4 VIRTIO_ID_GPU_NV in
  c ← set_bar_mem c 0 NV_BAR0_SIZE;
  let c := set_irq_pin c 1 in
  '(c, _) ← add_virtio_cap c 1 0 NV_OFF_COMMON 0x38;
  '(c, _) ← add_virtio_notify_cap c 0 NV_OFF_NOTIFY 0x100 NOTIFY_MULT;
  '(c, _) ← add_virtio_cap c 3 0 NV_OFF_ISR 1;
  '(c, _) ← add_virtio_cap c 4 0 NV_OFF_DEVICE (Z.of_nat NV_CONFIG_LEN);
  c ← set_bar_mem64 c (Z.of_nat NV_SHM_BAR) NV_SHM_SIZE;
  '(c, _) ← add_virtio_shm_cap c NV_SHM_ID (Z.of_nat NV_SHM_BAR) 0 NV_SHM_SIZE;
  c ← set_bar_mem64 c (Z.of_nat APERTURE_BAR) APERTURE_SIZE;
  '(c, _) ← add_virtio_shm_cap c NV_SHM_ID_APERTURE (Z.of_nat APERTURE_BAR) 0 APERTURE_SIZE;
  '(c, msix_cap) ← add_msix_cap c (NV_MSIX_VECTORS - 1) NV_OFF_MSIX_TABLE NV_OFF_MSIX_PBA;
  '(c, _) ← add_pcie_cap c PCIE_TYPE_RC_INTEGRATED;
  Some (build c, msix_cap).

(** [text] is the driver's version file, [h] the connection if there is one. *)
Definition NvGpuDevice_new (text : option (list Z)) (h : option H) (vram_limit_mib : option Z) (mem : N) (kicks : nat -> Z) : option Nv :=
  host_version ← driver_version text;
  h ← h;
  let '(h, cfg) := fetch_device_config h in
  cfg ← cfg;
  if check_device_config cfg host_version vram_limit_mib then
    '(c, cap) ← nv_pci_config;
    Some (vp_new c cap (Z.to_nat NV_MSIX_VECTORS)
      {| nv_mem := mem; nv_frontend := h; nv_window := None; nv_kick_fds := kicks <$> seq 0 NV_NUM_QUEUES; nv_running := false;
         nv_config := cfg |})
  else None.

Definition nv_bind_mapper (i : Nv) (p : P) (m : M) : Nv := set_back i (nv_with_window (back i) (Some (WindowMapper_new p m))).

Definition nv_set_shm_guest_addr (i : Nv) (addr : Z) : Nv :=
  set_back i (nv_with_window (back i) ((fun w => set_guest_base w addr) <$> nv_window (back i))).

Definition set_aperture_guest_addr (i : Nv) (addr : Z) : Nv :=
  set_back i (nv_with_window (back i) ((fun w => set_aperture_base w addr) <$> nv_window (back i))).

(** * The registers of this device *)

Definition nv_com_read : Nv -> Z -> nat -> list Z := vp_com_read.
Definition nv_com_write : Nv -> Z -> list Z -> Nv := vp_com_write.

Definition device_config_read (i : Nv) (off : Z) (len : nat) : list Z := read_window (nv_config (back i)) (Z.to_nat off) len 0.

Definition nv_bar0_read (i : Nv) (o : Z) (data : list Z) : Nv * list Z :=
  let len := length data in
  if o <? NV_OFF_ISR then (i, nv_com_read i (o - NV_OFF_COMMON) len)
  else if o <? NV_OFF_NOTIFY then
    match data with
    | [] => (i, data)
    | _ :: rest => (set_irq i 0 (msix i) [], isr i :: rest)
    end
  else if o <? NV_OFF_MSIX_TABLE then (i, replicate len 0)
  else if o <? NV_OFF_MSIX_PBA then (i, Msix.read (msix i) (o - NV_OFF_MSIX_TABLE) len)
  else if o <? NV_OFF_DEVICE then (i, read_pba (msix i) (o - NV_OFF_MSIX_PBA) len)
  else if o <? NV_BAR0_SIZE then (i, device_config_read i (o - NV_OFF_DEVICE) len)
  else (i, replicate len 0).

Definition nv_bar0_write (i : Nv) (o : Z) (data : list Z) : Nv :=
  if o <? NV_OFF_ISR then nv_com_write i (o - NV_OFF_COMMON) data
  else if o <? NV_OFF_NOTIFY then i
  else if o <? NV_OFF_MSIX_TABLE then notify i ((o - NV_OFF_NOTIFY) / NOTIFY_MULT)
  else if o <? NV_OFF_MSIX_PBA then vp_msix_write i (o - NV_OFF_MSIX_TABLE) data
  else i.

Definition nv_doorbells (b : NvBack) : list Doorbell :=
  imap (fun idx fd => {| door_bar_idx := 0; door_offset := NV_OFF_NOTIFY + Z.of_nat idx * NOTIFY_MULT; door_fd := fd |}) (nv_kick_fds b).

#[export] Instance Nv_pci : PciDevice Nv := {|
  read_config i o data := (i, read_cfg_space (cfg i) o (length data));
  write_config := vp_write_config;
  read_bar i bi o data :=
    if (bi =? 0)%nat then let '(i, out) := nv_bar0_read i o data in (i, out, true)
    else (i, replicate (length data) 0, (bi =? NV_SHM_BAR)%nat || (bi =? APERTURE_BAR)%nat);
  write_bar i bi o data := if (bi =? 0)%nat then (nv_bar0_write i o data, true) else (i, (bi =? NV_SHM_BAR)%nat || (bi =? APERTURE_BAR)%nat);
  bar_size _ bi :=
    if (bi =? 0)%nat then NV_BAR0_SIZE else if (bi =? NV_SHM_BAR)%nat then NV_SHM_SIZE else if (bi =? APERTURE_BAR)%nat then APERTURE_SIZE else 0;
  bar_type_of _ bi := if (bi =? NV_SHM_BAR)%nat || (bi =? APERTURE_BAR)%nat then Mem64 else Mem32;
  doorbells i := nv_doorbells (back i)
|}.

End Nv.

Arguments NvBack : clear implicits.

(** * What the check lets through *)

(** What a guest driver relies on, and what the operator asked for. *)
Record described (cfg host_version : list Z) (limit : option Z) : Prop := {
  d_len : length cfg = 4024%nat;
  d_gpus : 1 <= of_le (take 4 (drop 32 cfg)) <= 8;
  d_fds : of_le (take 4 (drop 3880 cfg)) <= 16;
  d_version : until_zero (take 32 cfg) = host_version;
  d_limit want : limit = Some want -> of_le (take 8 (drop 4016 cfg)) = want
}.

Lemma check_device_config_iff cfg host_version limit :
  check_device_config cfg host_version limit = true <-> described cfg host_version limit.
Proof.
  unfold check_device_config, u32_at, config_version, announced_limit, MAX_GPUS, MAX_FD_TRANSLATIONS, OFF_NUM_GPUS,
    OFF_NUM_FD_TRANSLATIONS, OFF_VRAM_LIMIT_MIB, NV_CONFIG_LEN.
  rewrite !andb_true_iff, !Z.leb_le, Nat.eqb_eq, bool_decide_eq_true. split.
  - intros [[[[? ?] ?] ?] Hl]. split; try done. intros want ->. by apply Z.eqb_eq.
  - intros [? [? ?] ? ? Hl]. split_and!; try done. destruct limit; [|done]. by apply Z.eqb_eq, Hl.
Qed.

Section Facts.
Context {R H N P M : Type} {HR : MsiRouter R} {HH : Vhost H} {HC : ConfigSource H} {HN : HostMemory N}.
Context {HP : HostMemoryMapper P} {HM : AddressSpace M} {HB : MmapBits} {HU : VhostUserBits} {HS : VhostUserShmBits}.
Implicit Types (i : Inner R (NvBack H N P M)).

#[global] Instance nv_vhost_laws : HasVhostLaws (NvBack H N P M) H.
Proof. split; [by intros []|done..]. Qed.

(** * The plan *)

Definition nv_plan_rest i : plan :=
  from_option (fun regions =>
    [Some (SetMemTable regions)] ++
    queues_plan i NV_QUEUE_SIZE (nv_host_addr (back i)) (nv_kick_fds (back i)) NV_NUM_QUEUES ++
    [Some (SetVringEnable 0 true); Some (SetVringEnable 1 true)])
    [None] (nv_memory_regions (back i)).

(** The channel for the backend's requests, if it was agreed on. *)
Definition channel_plan i (agreed : Z) : plan :=
  if contains agreed PROTOCOL_BACKEND_REQ then from_option (fun _ => [Some SetBackendReqFd]) [None] (nv_window (back i)) else [].

(** With [features] and [offered] what the other side answers. *)
Definition nv_plan i (features offered : Z) : plan :=
  [Some GetFeatures; Some (SetFeatures (nv_acked i features))] ++
  (if has_bits features PROTOCOL_FEATURES then
     [Some GetProtocolFeatures; Some (SetProtocolFeatures (Z.land offered (nv_wanted (back i))))] ++
     channel_plan i (Z.land offered (nv_wanted (back i)))
   else []) ++ nv_plan_rest i.

Definition nv_answers i (h : H) : Z * Z :=
  let '(h, features) := vhost h GetFeatures in
  let features := default 0 features in
  let h := (vhost h (SetFeatures (nv_acked i features))).1 in
  (features, default 0 (vhost h GetProtocolFeatures).2).

Definition nv_after i (h : H) (is_running : bool) : Inner R (NvBack H N P M) :=
  set_back i {| nv_mem := nv_mem (back i); nv_frontend := h; nv_window := nv_window (back i); nv_kick_fds := nv_kick_fds (back i);
                nv_running := is_running; nv_config := nv_config (back i) |}.

Abbreviation nv_run := (fun i : Inner R (NvBack H N P M) => set_back i (nv_set_running (back i) true)).

Definition nv_rest i : Act (Inner R (NvBack H N P M)) unit :=
  regions ← required (nv_memory_regions (back i));
  tell (SetMemTable regions) ;;
  start_queues NV_QUEUE_SIZE (nv_host_addr (back i)) (nv_kick_fds (back i)) NV_NUM_QUEUES ;;
  each (fun idx => tell (SetVringEnable idx true)) (seq 0 NV_NUM_QUEUES) ;;
  modify nv_run.

Lemma nv_rest_ends i : ends nv_run (nv_rest i) (nv_plan_rest i) i.
Proof.
  unfold nv_plan_rest, nv_rest. apply ends_required. intros regions _. apply ends_seq; [apply follows_tell|].
  apply ends_seq; [apply start_queues_follows|].
  rewrite <- (app_nil_r [_; _]). apply ends_seq; [|apply ends_modify].
  apply (follows_each _ (fun idx => [Some (SetVringEnable idx true)]) (seq 0 NV_NUM_QUEUES)).
  intros. apply follows_tell.
Qed.

Lemma channel_ends i agreed :
  ends nv_run ((if contains agreed PROTOCOL_BACKEND_REQ then start_backend_requests else mret tt) ;; nv_rest i)
    (channel_plan i agreed ++ nv_plan_rest i) i.
Proof.
  unfold channel_plan. destruct (contains agreed PROTOCOL_BACKEND_REQ); [|apply ends_seq; [apply follows_nil|apply nv_rest_ends]].
  apply ends_seq; [|apply nv_rest_ends]. unfold start_backend_requests. apply ends_get. intros h.
  apply (ends_required _ (nv_window (back i))). intros w _. apply follows_tell.
Qed.

Lemma nv_start_run i h :
  nv_start (with_vhost i h) =
    let '(h', _, ok) := run_plan h (nv_plan i (nv_answers i h).1 (nv_answers i h).2) in
    if ok : bool then (nv_run (with_vhost i h'), Some tt) else (with_vhost i h', None).
Proof.
  unfold nv_plan, nv_answers.
  change (nv_start (with_vhost i h)) with ((
    backend_features ← vcall GetFeatures;
    tell (SetFeatures (nv_acked i backend_features)) ;;
    (if has_bits backend_features PROTOCOL_FEATURES then
       offered ← vcall GetProtocolFeatures;
       tell (SetProtocolFeatures (Z.land offered (nv_wanted (back i)))) ;;
       (if contains (Z.land offered (nv_wanted (back i))) PROTOCOL_BACKEND_REQ then start_backend_requests else mret tt)
     else mret tt) ;; nv_rest i : Act _ unit) (with_vhost i h)).
  rewrite vcall_run. rewrite run_plan_app. cbn [run_plan].
  destruct (vhost h GetFeatures) as [h1 [bf|]]; [|done]. cbn [from_option id].
  rewrite bind_run, (follows_tell _ i h1). cbn [run_plan fst snd from_option id].
  destruct (vhost h1 (SetFeatures _)) as [h2 [a|]]; [|done]. cbn [fst snd from_option id].
  destruct (has_bits bf PROTOCOL_FEATURES).
  - rewrite bind_assoc, vcall_run, <- app_assoc, run_plan_app. cbn [run_plan].
    destruct (vhost h2 GetProtocolFeatures) as [h3 [offered|]]; [|done]. cbn [snd from_option id].
    rewrite bind_assoc, bind_run, (follows_tell _ i h3). cbn [run_plan].
    destruct (vhost h3 (SetProtocolFeatures _)) as [h4 [b|]]; [|done].
    rewrite (channel_ends i _ h4). by destruct (run_plan h4 _) as [[h5 acc] []].
  - rewrite app_nil_l, bind_run. unfold mret, Act_ret. rewrite (nv_rest_ends i h2).
    by destruct (run_plan h2 _) as [[h5 acc] []].
Qed.

Lemma nv_activate_runs i :
  nv_running (back i) = false ->
  let '(features, offered) := nv_answers i (nv_frontend (back i)) in
  let '(h, _, ok) := run_plan (nv_frontend (back i)) (nv_plan i features offered) in
  nv_activate i = nv_after i h ok.
Proof.
  intros Hrun. unfold nv_activate. rewrite Hrun. pose proof (nv_start_run i (nv_frontend (back i))) as F.
  change (nv_frontend (back i)) with (vh_of (back i)) in F at 1. rewrite with_vhost_same in F.
  destruct (nv_answers i (nv_frontend (back i))) as [features offered]. cbn [fst snd] in F. rewrite F.
  destruct (run_plan _ _) as [[h acc] []]; [done|]. unfold nv_after, with_vhost. simpl. unfold nv_with_frontend. by rewrite Hrun.
Qed.

(** Before the memory table: features and the channel, no ring. *)
Definition nv_plan_first i (features offered : Z) : plan :=
  [Some GetFeatures; Some (SetFeatures (nv_acked i features))] ++
  (if has_bits features PROTOCOL_FEATURES then
     [Some GetProtocolFeatures; Some (SetProtocolFeatures (Z.land offered (nv_wanted (back i))))] ++
     channel_plan i (Z.land offered (nv_wanted (back i)))
   else []).

Lemma nv_plan_split i features offered : nv_plan i features offered = nv_plan_first i features offered ++ nv_plan_rest i.
Proof. unfold nv_plan, nv_plan_first. by rewrite <- app_assoc. Qed.

Lemma nv_first_quiet i features offered c :
  Some c ∈ nv_plan_first i features offered ->
  c = GetFeatures \/ (exists f, c = SetFeatures f) \/ c = GetProtocolFeatures \/ (exists f, c = SetProtocolFeatures f) \/
  (c = SetBackendReqFd /\ is_Some (nv_window (back i)) /\ contains (Z.land offered (nv_wanted (back i))) PROTOCOL_BACKEND_REQ = true).
Proof.
  unfold nv_plan_first, channel_plan. intros [H1|H2]%elem_of_app; [set_solver|]. destruct (has_bits features PROTOCOL_FEATURES); [|set_solver].
  apply elem_of_app in H2 as [H2|H2]; [set_solver|]. destruct (contains _ _) eqn:E; [|set_solver].
  destruct (nv_window (back i)) eqn:Ew; [|set_solver]. apply list_elem_of_singleton in H2 as [= ->]. naive_solver.
Qed.

Lemma nv_enable_last i features offered accepted k on :
  (Some <$> accepted) `prefix_of` nv_plan i features offered -> SetVringEnable k on ∈ accepted ->
  forall idx q, queues i !! idx = Some q -> (idx < NV_NUM_QUEUES)%nat ->
  exists d a u, nv_host_addr (back i) (desc q) = Some d /\ nv_host_addr (back i) (avail q) = Some a /\
    nv_host_addr (back i) (used q) = Some u /\ SetVringAddr idx (vring_config NV_QUEUE_SIZE q d a u) ∈ accepted.
Proof.
  intros Hp Hk idx q Hq Hlt. rewrite nv_plan_split in Hp. unfold nv_plan_rest in Hp.
  assert (Some (SetVringEnable k on) ∉ nv_plan_first i features offered) as H1 by (intros ?%nv_first_quiet; naive_solver).
  destruct (nv_memory_regions _) as [rs|]; cbn [from_option] in Hp; rewrite ?app_assoc in Hp.
  - destruct (prefix_past _ _ _ _ Hp Hk) as [Hno Hin].
    { rewrite !not_elem_of_app. split_and!; [done|set_solver|apply queues_plan_enable]. }
    destruct (queues_plan_whole i NV_QUEUE_SIZE (nv_host_addr (back i)) (nv_kick_fds (back i)) NV_NUM_QUEUES idx q)
      as (d & a & u & Hd & Ha & Hu & Hc); [set_solver|done..|].
    exists d, a, u. split_and!; [done..|]. apply Hin. set_solver.
  - exfalso. destruct Hp as [r Hr]. apply (list_elem_of_fmap_2 Some) in Hk.
    assert (Some (SetVringEnable k on) ∈ (Some <$> accepted) ++ r) as Hk2 by set_solver. rewrite <- Hr in Hk2. set_solver.
Qed.

(** Starting the forwarding device completes the handshake begun when it was built, in order.  The calls are a plan of the
    registers and of the backend's two answers: its features, the accepted ones with the protocol bit it has, the protocol
    features both sides have, a channel for the backend's own requests if that was agreed on, the memory table, each queue at
    the host addresses of its rings, and last the rings enabled.  They are made in order until one is refused or an address has
    no mapping, and the device runs exactly when the plan was followed to its end.  The channel is opened only with a window
    bound to place mappings in, and a ring is enabled only after every ring was described. *)
Theorem nv_activation_plan i :
  nv_running (back i) = false ->
  let '(features, offered) := nv_answers i (nv_frontend (back i)) in
  let '(h, accepted, ok) := run_plan (nv_frontend (back i)) (nv_plan i features offered) in
  nv_activate i = nv_after i h ok /\
  (Some <$> accepted) `prefix_of` nv_plan i features offered /\
  (SetBackendReqFd ∈ accepted -> is_Some (nv_window (back i))) /\
  (forall k on, SetVringEnable k on ∈ accepted ->
     forall idx q, queues i !! idx = Some q -> (idx < NV_NUM_QUEUES)%nat ->
     exists d a u, nv_host_addr (back i) (desc q) = Some d /\ nv_host_addr (back i) (avail q) = Some a /\
       nv_host_addr (back i) (used q) = Some u /\
       SetVringAddr idx (vring_config NV_QUEUE_SIZE q d a u) ∈ accepted).
Proof.
  intros Hrun. pose proof (nv_activate_runs i Hrun) as Ha. destruct (nv_answers i _) as [features offered].
  pose proof (run_plan_prefix (nv_frontend (back i)) (nv_plan i features offered)) as Hp.
  destruct (run_plan _ _) as [[h acc] ok]. destruct Hp as [Hp _]. split_and!; [done..| |].
  - intros Hin%(list_elem_of_fmap_2 Some). destruct Hp as [r Hr]. assert (Hi : Some SetBackendReqFd ∈ nv_plan i features offered) by (rewrite Hr; set_solver).
    rewrite nv_plan_split in Hi. apply elem_of_app in Hi as [Hi|Hi]; [apply nv_first_quiet in Hi; naive_solver|].
    exfalso. unfold nv_plan_rest in Hi. destruct (nv_memory_regions _); cbn [from_option] in Hi; [|set_solver].
    rewrite !elem_of_app in Hi. destruct Hi as [Hi|[Hi|Hi]]; [set_solver| |set_solver].
    by apply queues_plan_about in Hi as (? & [=] & _).
  - intros k on Hk. by apply (nv_enable_last i features offered acc k on).
Qed.

(** * The registers *)

(** What the device keeps for ever: the description it was built with. *)
Definition nv_stat (cfg : list Z) (b : NvBack H N P M) : Prop := nv_config b = cfg.

Lemma set_back_keeps cfg i (b : NvBack H N P M) :
  nv_kick_fds b = nv_kick_fds (back i) -> nv_config b = nv_config (back i) -> keeps_regs nv_doorbells (nv_stat cfg) i (set_back i b).
Proof.
  intros Hk Hc. split; try done; cbn.
  - unfold nv_doorbells. by rewrite Hk.
  - unfold nv_stat. by rewrite Hc.
Qed.

Lemma nv_keeps_trans cfg (i j k : Inner R (NvBack H N P M)) :
  keeps_regs nv_doorbells (nv_stat cfg) i j -> keeps_regs nv_doorbells (nv_stat cfg) j k -> keeps_regs nv_doorbells (nv_stat cfg) i k.
Proof. intros [] []. split; try congruence; [by etrans|auto]. Qed.

Lemma vcall_keeps cfg c i : keeps_regs nv_doorbells (nv_stat cfg) i (vcall c i).1.
Proof. unfold vcall. destruct (vhost _ _) as [h r]. by apply set_back_keeps. Qed.

#[global] Instance nv_laws cfg : VirtioModelLaws R (NvBack H N P M) nv_doorbells (nv_stat cfg).
Proof.
  split.
  - done.
  - by apply numbered_queues_ok.
  - intros i. simpl. destruct (nv_running (back i)) eqn:Er; [unfold nv_activate; by rewrite Er|].
    pose proof (nv_activate_runs i Er) as Ha. destruct (nv_answers i _) as [features offered].
    destruct (run_plan _ _) as [[h acc] ok]. rewrite Ha. by apply set_back_keeps.
  - intros i. simpl. unfold nv_stop. eapply nv_keeps_trans; [|by apply set_back_keeps]. destruct (nv_running (back i)); [|done].
    eapply nv_keeps_trans; [|by apply set_back_keeps]. cbn [foldl seq NV_NUM_QUEUES]. eapply nv_keeps_trans; apply vcall_keeps.
  - intros i n. simpl. unfold ring_kick. case_match; [|done]. by split.
Qed.

(** Everything that acts on the device: the guest's accesses, the wiring of its
    interrupts, and whatever happens in the window. *)
Inductive nv_step : Inner R (NvBack H N P M) -> Inner R (NvBack H N P M) -> Prop :=
  | nv_config_write i o data : 0 <= o -> nv_step i (vp_write_config i o data)
  | nv_read i o data : nv_step i (nv_bar0_read i o data).1
  | nv_write i o data : nv_step i (nv_bar0_write i o data)
  | nv_bind i vs r fd : nv_step i (bind_interrupts i vs r fd)
  | nv_window_work i w : nv_step i (set_back i (nv_with_window (back i) w)).

Abbreviation nv_ok cfg := (vp_ok (doors := nv_doorbells) (stat := nv_stat cfg)).

Lemma nv_step_ok cfg i0 i i' :
  0 <= msix_cap i0 <= 250 -> length (queues i0) = NV_NUM_QUEUES -> nv_step i i' -> nv_ok cfg i0 i -> nv_ok cfg i0 i'.
Proof.
  intros Hc Hq [j o data Ho|j o data|j o data|j vs r fd|j w] Hi.
  - by apply vp_write_config_ok.
  - unfold nv_bar0_read. case_match; [done|]. case_match; [destruct data; [done|by apply vp_ok_irq]|]. by repeat case_match.
  - unfold nv_bar0_write. case_match; [by apply vp_com_write_ok|]. case_match; [done|].
    case_match; [eapply keeps_ok; [done|]; apply notify_keeps|]. case_match; [|done].
    unfold vp_msix_write. destruct (msix_write_shape (msix j) (o - NV_OFF_MSIX_TABLE) data) as [Hon Hlen].
    destruct (Msix.write _ _ _) as [t deliver]. by apply vp_ok_irq.
  - by apply vp_ok_irq.
  - eapply keeps_ok; [done|]. by apply set_back_keeps.
Qed.

Lemma nv_steps_ok cfg i0 i i' :
  0 <= msix_cap i0 <= 250 -> length (queues i0) = NV_NUM_QUEUES -> rtc nv_step i i' -> nv_ok cfg i0 i -> nv_ok cfg i0 i'.
Proof. intros Hc Hq. induction 1 as [|j k l Hs _ IH]; [done|]. intros Hi. by eapply IH, nv_step_ok. Qed.

(** The configuration space this device is built with. *)
Definition nv_space_ok : bool :=
  match nv_pci_config with
  | Some (c, cap) =>
      (length c =? 256)%nat && forallb (fun b => (0 <=? b) && (b <? 256)) c && (0 <=? cap) && (cap <=? 250) && negb (msix_enabled c cap)
  | None => false
  end.

Lemma nv_space : nv_space_ok = true.
Proof. vm_cast_no_check (eq_refl true). Qed.

Lemma nv_new_ok text h limit mem kicks i0 :
  NvGpuDevice_new text h limit mem kicks = Some i0 ->
  exists host_version, driver_version text = Some host_version /\ described (nv_config (back i0)) host_version limit /\
    0 <= msix_cap i0 <= 250 /\ length (queues i0) = NV_NUM_QUEUES /\ nv_ok (nv_config (back i0)) i0 i0.
Proof.
  unfold NvGpuDevice_new. destruct (driver_version text) as [v|]; [|done]. cbn [mbind option_bind]. destruct h as [h|]; [|done].
  cbn [mbind option_bind]. destruct (fetch_device_config h) as [h' [cfg|]]; [|done]. cbn [mbind option_bind].
  destruct (check_device_config cfg v limit) eqn:E; [|done]. apply check_device_config_iff in E.
  pose proof nv_space as Hs. unfold nv_space_ok in Hs. destruct nv_pci_config as [[c cap]|]; [|done]. cbn [mbind option_bind].
  apply andb_true_iff in Hs as [[[[H1%Nat.eqb_eq H2]%andb_true_iff H3%Z.leb_le]%andb_true_iff H4%Z.leb_le]%andb_true_iff H5%negb_true_iff].
  intros [= <-]. exists v. split_and!; try done; cbn [vp_new msix_cap back nv_config]; try lia.
  apply vp_new_ok; try done. apply Forall_forall. intros b Hb%list_elem_of_In. rewrite forallb_forall in H2.
  specialize (H2 b Hb). apply andb_true_iff in H2 as [? ?]. unfold is_word. lia.
Qed.

(** C34: The guest reads a checked description of the host and nothing else.  If the device can be built at all, whatever its
    backend answered, then after any accesses of the guest, wiring of interrupts and work in the window, the description is
    the one it was built with: 4024 bytes, between 1 and 8 GPUs, at most 16 descriptor-carrying ioctls, the version of the
    driver this host has loaded, and the video memory limit that was configured, if one was; and a read of the device
    configuration at any offset and of any length is answered from it, with zeros past its end.  The queues are the two it was
    built with, with registers in range, its doorbells stay, and of its configuration space only MSI-X Message Control can
    differ. *)
Theorem nv_config_served text h limit mem kicks i0 i :
  NvGpuDevice_new text h limit mem kicks = Some i0 -> rtc nv_step i0 i ->
  nv_ok (nv_config (back i0)) i0 i /\
  (exists host_version, driver_version text = Some host_version /\ described (nv_config (back i)) host_version limit) /\
  (forall o data, NV_OFF_DEVICE <= o < NV_BAR0_SIZE ->
     nv_bar0_read i o data = (i, resize (length data) 0 (drop (Z.to_nat (o - NV_OFF_DEVICE)) (nv_config (back i0))))).
Proof.
  intros Hn Hr. destruct (nv_new_ok _ _ _ _ _ _ Hn) as (v & Hv & Hd & Hc & Hq & Hi0).
  pose proof (nv_steps_ok _ _ _ _ Hc Hq Hr Hi0) as Hi. pose proof (vo_stat _ _ Hi) as Hs. unfold nv_stat in Hs.
  split; [done|]. split; [exists v; by rewrite Hs|]. intros o data Ho. rewrite <- Hs. unfold nv_bar0_read, NV_OFF_DEVICE, NV_BAR0_SIZE in *.
  unfold NV_OFF_ISR, NV_OFF_NOTIFY, NV_OFF_MSIX_TABLE, NV_OFF_MSIX_PBA.
  by rewrite !(proj2 (Z.ltb_ge _ _)), (proj2 (Z.ltb_lt _ _)) by lia.
Qed.

(** ** On the bus *)

Lemma nv_bar0_read_back i o data : back (nv_bar0_read i o data).1 = back i.
Proof. unfold nv_bar0_read. case_match; [done|]. case_match; [by destruct data|]. by repeat case_match. Qed.

Lemma nv_bar0_write_doors i o data : nv_doorbells (back (nv_bar0_write i o data)) = nv_doorbells (back i).
Proof.
  unfold nv_bar0_write. case_match; [exact (vp_com_write_doors (doors := nv_doorbells) (stat := nv_stat []) i _ data)|].
  case_match; [done|].
  case_match; [exact (kr_doors _ _ _ _ (notify_keeps (doors := nv_doorbells) (stat := nv_stat []) i _))|].
  case_match; [|done]. unfold vp_msix_write. by destruct (Msix.write _ _ _).
Qed.

Lemma nv_doors_fixed : DoorbellsFixed (D := Inner R (NvBack H N P M)).
Proof.
  split; [done|done|..]; intros i n o data; simpl; (destruct (n =? 0)%nat; [|done]).
  - pose proof (nv_bar0_read_back i o data) as Hb. destruct (nv_bar0_read i o data). simpl in *. by rewrite Hb.
  - apply nv_bar0_write_doors.
Qed.
End Facts.

(** * A device at work *)

#[local] Instance nv_protocol_bits : VhostUserBits :=
  {| PROTOCOL_FEATURES := 2 ^ 30; PROTOCOL_MQ := 2 ^ 0; PROTOCOL_REPLY_ACK := 2 ^ 3; PROTOCOL_CONFIG := 2 ^ 9 |}.
#[local] Instance nv_shm_bits : VhostUserShmBits := {| PROTOCOL_BACKEND_REQ := 2 ^ 5; PROTOCOL_SHMEM := 2 ^ 20 |}.
#[local] Instance nv_writable : MmapBits := { WRITABLE := 1 }.

(** Slots and mappings that are refused. *)
#[local] Instance no_mapper : HostMemoryMapper () :=
  {| hm_host_addr _ _ _ := None; hm_withdraw p _ _ := (p, false); hm_map p _ _ _ := (p, false); hm_unmap p _ _ := (p, false) |}.
#[local] Instance no_space : AddressSpace () :=
  {| mmap_fixed m _ _ _ _ _ := (m, inl 12); mmap_noreplace m _ _ _ := (m, inl 12); munmap m _ _ := m; populate_write m _ _ := (m, inr tt) |}.

(** One GPU, no descriptor-carrying ioctl, a limit of 8 GiB. *)
Definition a_config : list Z :=
  splice (splice (splice (replicate 4024 0) 0 (ascii_bytes "570.86.15")) 32 [1]) 4016 (le_bytes 8 8192).

(** A backend that serves that, and answers every question with all it has. *)
#[local] Instance logged_config : ConfigSource (Logged Patient) :=
  { get_config h n := (h, if (n =? 4024)%nat then Some a_config else None) }.

Definition version_file : list Z := ascii_bytes "NVRM version: NVIDIA UNIX x86_64  570.86.15  Tue".

Definition nv_backend (n : nat) : Logged Patient :=
  {| other := {| patience := n; bits := 2 ^ 30 + 2 ^ 20 + 2 ^ 9 + 2 ^ 5 + 2 ^ 3 + 1 |}; said := [] |}.

Definition nv_built : option (Inner RouteLog (NvBack (Logged Patient) OneRegion () ())) :=
  NvGpuDevice_new (Some version_file) (Some (nv_backend 100)) (Some 8192)
    {| region_len := 0x100000; host_base := 0x7f0000000000; fd := 3 |} (fun k => 20 + Z.of_nat k).

Definition nv_device : Inner RouteLog (NvBack (Logged Patient) OneRegion () ()) :=
  default (vp_new [] 0 0 {| nv_mem := {| region_len := 0; host_base := 0; fd := 0 |}; nv_frontend := nv_backend 0; nv_window := None;
    nv_kick_fds := []; nv_running := false; nv_config := [] |}) nv_built.

Lemma nv_device_built : nv_built = Some nv_device.
Proof. vm_compute. reflexivity. Qed.

(** The description read back at an offset, and past its end. *)
Lemma nv_config_served_witness :
  (nv_bar0_read (nv_bar0_write nv_device 0x1000 [9; 9]) (NV_OFF_DEVICE + 4020) (replicate 8 7)).2 = [0; 0; 0; 0; 0; 0; 0; 0] /\
  described (nv_config (back (nv_bar0_write nv_device 0x1000 [9; 9]))) (ascii_bytes "570.86.15") (Some 8192).
Proof.
  destruct (nv_config_served (Some version_file) (Some (nv_backend 100)) (Some 8192) _ _ nv_device (nv_bar0_write nv_device 0x1000 [9; 9])
    nv_device_built (rtc_once _ _ (nv_write nv_device 0x1000 [9; 9]))) as (_ & (v & Hv & Hd) & Hr).
  split; [rewrite Hr by (unfold NV_OFF_DEVICE, NV_BAR0_SIZE; lia); by vm_compute|].
  vm_compute in Hv. injection Hv as <-. exact Hd.
Defined.

(** Wired, its queues programmed, a window bound. *)
Definition nv_ready : Inner RouteLog (NvBack (Logged Patient) OneRegion () ()) :=
  foldl (fun i '(o, data) => nv_bar0_write i o data) (nv_bind_mapper (msix_ready nv_device) () ())
    (queue_writes 0 0x10000 ++ queue_writes 1 0x20000).

Example nv_runs :
  nv_running (back (nv_activate nv_ready)) = true /\
  take 6 (drop 4 (said (nv_frontend (back (nv_activate nv_ready))))) =
    [GetFeatures; SetFeatures (2 ^ 30); GetProtocolFeatures; SetProtocolFeatures (2 ^ 20 + 2 ^ 9 + 2 ^ 5 + 2 ^ 3 + 1); SetBackendReqFd;
     SetMemTable [{| guest_phys_addr := 0; memory_size := 0x100000; userspace_addr := 0x7f0000000000; mmap_offset := 0;
                     mmap_handle := 3 |}]].
Proof. vm_compute. repeat split. Qed.

Lemma nv_ready_stopped : nv_running (back nv_ready) = false.
Proof. by vm_compute. Qed.

Lemma nv_activation_plan_witness :
  let '(h, _, ok) := run_plan (nv_frontend (back nv_ready))
    (nv_plan nv_ready (nv_answers nv_ready (nv_frontend (back nv_ready))).1 (nv_answers nv_ready (nv_frontend (back nv_ready))).2) in
  nv_activate nv_ready = nv_after nv_ready h ok.
Proof.
  pose proof (nv_activation_plan nv_ready nv_ready_stopped) as F. destruct (nv_answers nv_ready _) as [features offered].
  cbn [fst snd]. destruct (run_plan _ _) as [[h acc] ok]. apply F.
Defined.
