(* ===== verification/Devices.v ===== *)
(** Every virtio device as the bus sees it ([Arc<dyn PciDevice>]), and that each
    of them keeps the bus's contract: BARs that can be placed, doorbells inside
    them, where the notify capability says, and there for good. *)

From S2P Require Import Prelude Shared NvWindow NvGpu.
From S2P Require Import PciConfig PciBus PciBusFacts PciBusPaths GuestMem Virtqueue VirtqueueRun.
From S2P Require Import Msix MsixFacts BlkDisk BlkDevice BlkDeviceFacts.
From S2P Require Import VirtioPci VirtioPciFacts Vhost.
From S2P Require Import NetDevice VsockDevice FsDevice ConsoleDevice ConsoleFacts.
From S2P Require Import GpuVram HostMapper GpuEdid GpuBackend GpuDevice.

Section Any.
Context {R H N M P A : Type} {HR : MsiRouter R} {HH : Vhost H} {HN : HostMemory N} {HU : VhostUserBits}
  {HM : GuestMemory M} {HC : ConfigSource (Logged H)} {HP : HostMemoryMapper P} {HA : AddressSpace A} {HB : MmapBits}
  {HS : VhostUserShmBits}.

(** The other sides of the vhost devices keep a record of what they were told. *)
Inductive AnyDevice :=
  | OnBlk (d : BlkDevice.BlkDevice R)
  | OnNet (d : Inner R (NetBack (Logged H) N))
  | OnVsock (d : Inner R (VsockBack (Logged H) N))
  | OnFs (d : Inner R (FsBack (Logged H) N))
  | OnConsole (d : Inner R (ConsoleBack M))
  | OnGpu (d : Inner R (GpuBack P))
  | OnNv (d : Inner R (NvBack (Logged H) N P A)).

(** An operation of each, lifted. *)
Definition lift_read {D : Type} (f : D -> AnyDevice) (r : D * list Z) : AnyDevice * list Z := (f r.1, r.2).
Definition lift_read_bar {D : Type} (f : D -> AnyDevice) (r : D * list Z * bool) : AnyDevice * list Z * bool :=
  (f r.1.1, r.1.2, r.2).
Definition lift_write_bar {D : Type} (f : D -> AnyDevice) (r : D * bool) : AnyDevice * bool := (f r.1, r.2).

#[export] Instance Any_pci : PciDevice AnyDevice := {|
  read_config d o data :=
    match d with
    | OnBlk d => lift_read OnBlk (read_config d o data)
    | OnNet d => lift_read OnNet (read_config d o data)
    | OnVsock d => lift_read OnVsock (read_config d o data)
    | OnFs d => lift_read OnFs (read_config d o data)
    | OnConsole d => lift_read OnConsole (read_config d o data)
    | OnGpu d => lift_read OnGpu (read_config d o data)
    | OnNv d => lift_read OnNv (read_config d o data)
    end;
  write_config d o data :=
    match d with
    | OnBlk d => OnBlk (write_config d o data)
    | OnNet d => OnNet (write_config d o data)
    | OnVsock d => OnVsock (write_config d o data)
    | OnFs d => OnFs (write_config d o data)
    | OnConsole d => OnConsole (write_config d o data)
    | OnGpu d => OnGpu (write_config d o data)
    | OnNv d => OnNv (write_config d o data)
    end;
  read_bar d bi o data :=
    match d with
    | OnBlk d => lift_read_bar OnBlk (read_bar d bi o data)
    | OnNet d => lift_read_bar OnNet (read_bar d bi o data)
    | OnVsock d => lift_read_bar OnVsock (read_bar d bi o data)
    | OnFs d => lift_read_bar OnFs (read_bar d bi o data)
    | OnConsole d => lift_read_bar OnConsole (read_bar d bi o data)
    | OnGpu d => lift_read_bar OnGpu (read_bar d bi o data)
    | OnNv d => lift_read_bar OnNv (read_bar d bi o data)
    end;
  write_bar d bi o data :=
    match d with
    | OnBlk d => lift_write_bar OnBlk (write_bar d bi o data)
    | OnNet d => lift_write_bar OnNet (write_bar d bi o data)
    | OnVsock d => lift_write_bar OnVsock (write_bar d bi o data)
    | OnFs d => lift_write_bar OnFs (write_bar d bi o data)
    | OnConsole d => lift_write_bar OnConsole (write_bar d bi o data)
    | OnGpu d => lift_write_bar OnGpu (write_bar d bi o data)
    | OnNv d => lift_write_bar OnNv (write_bar d bi o data)
    end;
  bar_size d bi :=
    match d with
    | OnBlk d => bar_size d bi
    | OnNet d => bar_size d bi
    | OnVsock d => bar_size d bi
    | OnFs d => bar_size d bi
    | OnConsole d => bar_size d bi
    | OnGpu d => bar_size d bi
    | OnNv d => bar_size d bi
    end;
  bar_type_of d bi :=
    match d with
    | OnBlk d => bar_type_of d bi
    | OnNet d => bar_type_of d bi
    | OnVsock d => bar_type_of d bi
    | OnFs d => bar_type_of d bi
    | OnConsole d => bar_type_of d bi
    | OnGpu d => bar_type_of d bi
    | OnNv d => bar_type_of d bi
    end;
  doorbells d :=
    match d with
    | OnBlk d => doorbells d
    | OnNet d => doorbells d
    | OnVsock d => doorbells d
    | OnFs d => doorbells d
    | OnConsole d => doorbells d
    | OnGpu d => doorbells d
    | OnNv d => doorbells d
    end
|}.

(** ** Doorbells for good *)

Lemma net_fixed : DoorbellsFixed (D := Inner R (NetBack (Logged H) N)).
Proof. exact (registers_doors_fixed (doors := net_doorbells) (stat := net_stat)). Qed.
Lemma vsock_fixed : DoorbellsFixed (D := Inner R (VsockBack (Logged H) N)).
Proof. exact (registers_doors_fixed (doors := vsock_doorbells) (stat := vsock_stat)). Qed.
Lemma fs_fixed : DoorbellsFixed (D := Inner R (FsBack (Logged H) N)).
Proof. exact (registers_doors_fixed (doors := fs_doorbells) (stat := fs_stat)). Qed.
Lemma console_fixed : DoorbellsFixed (D := Inner R (ConsoleBack M)).
Proof. exact (registers_doors_fixed (doors := fun _ => []) (stat := console_stat)). Qed.

#[export] Instance any_doors_fixed : DoorbellsFixed (D := AnyDevice).
Proof.
  pose proof net_fixed. pose proof vsock_fixed. pose proof fs_fixed. pose proof console_fixed.
  pose proof (nv_doors_fixed (R := R) (H := Logged H) (N := N) (P := P) (M := A)).
  pose proof (gpu_doors_fixed (R := R) (P := P)). pose proof (BlkDeviceFacts.blk_doors_fixed (R := R)).
  split.
  - intros [d|d|d|d|d|d|d] o data; exact (df_read_config d o data).
  - intros [d|d|d|d|d|d|d] o data; exact (df_write_config d o data).
  - intros [d|d|d|d|d|d|d] i o data; exact (df_read_bar d i o data).
  - intros [d|d|d|d|d|d|d] i o data; exact (df_write_bar d i o data).
Qed.

(** ** As built *)

(** What the VMM puts on the bus: a device of any of the constructors, its
    interrupts wired or not. *)
Inductive built : AnyDevice -> Prop :=
  | built_blk k n kicks d : BlkDevice_new k n kicks = Some d -> built (OnBlk d)
  | built_net name addr mem h tap feats kicks d :
      NetDevice_new name addr mem h tap feats kicks = Some d -> built (OnNet d)
  | built_vsock c mem h kicks d : VsockDevice_new c mem h kicks = Some d -> built (OnVsock d)
  | built_fs name mem h kicks d : FsDevice_new name mem h kicks = Some d -> built (OnFs d)
  | built_console m d : ConsoleDevice_new = Some d -> built (OnConsole (set_mem d m))
  | built_gpu c kick d : GpuDevice_new c kick = Some d -> built (OnGpu d)
  | built_nv text h limit mem kicks d : NvGpuDevice_new text h limit mem kicks = Some d -> built (OnNv d).

(** The walk of a driver over the capability list to the virtio notify
    capability: its BAR, offset and multiplier. *)
Fixpoint notify_cap (fuel : nat) (cfg : list Z) (ptr : Z) : option (Z * Z * Z) :=
  match fuel with
  | O => None
  | S fuel =>
      if ptr =? 0 then None
      else if (cfg_byte cfg ptr =? 0x09) && (cfg_byte cfg (ptr + 3) =? 2) then
        let at_ o := of_le ((fun j => cfg_byte cfg (ptr + o + j)) <$> [0; 1; 2; 3]) in
        Some (cfg_byte cfg (ptr + 4), at_ 8, at_ 16)
      else notify_cap fuel cfg (cfg_byte cfg (ptr + 1))
  end.

Definition config_of (d : AnyDevice) : list Z := (read_config d 0 (replicate 256 0)).2.

(** Where a driver writes for queue [k], as the capability tells it. *)
Definition notify_address (d : AnyDevice) (k : nat) : option (nat * Z) :=
  '(bar, off, mult) ← notify_cap 64 (config_of d) (cfg_byte (config_of d) 0x34);
  Some (Z.to_nat bar, off + Z.of_nat k * mult).

Definition fits (d : AnyDevice) : Prop :=
  sizes_ok d /\ doors_in_bars d /\ NoDup (door_offset <$> doorbells d) /\
  forall k door, doorbells d !! k = Some door -> notify_address d k = Some (door_bar_idx door, door_offset door).

(** Kick eventfds as doorbells, for a configuration space with the usual
    capability. *)
Lemma kicks_fit d fds :
  sizes_ok d -> bar_size d 0 = BAR0_SIZE -> doorbells d = kick_doorbells fds -> (length fds <= 64)%nat ->
  notify_cap 64 (config_of d) (cfg_byte (config_of d) 0x34) = Some (0, OFF_NOTIFY, NOTIFY_MULT) -> fits d.
Proof.
  intros Hs H0 Hd Hl Hc. destruct (kick_doorbells_ok fds Hl) as [Hin Hnd]. unfold fits, doors_in_bars. rewrite Hd.
  split_and!; [done| |done|].
  - eapply Forall_impl; [exact Hin|]. intros x [Hb Ho]. rewrite Hb, H0.
    unfold OFF_NOTIFY, OFF_MSIX_TABLE, BAR0_SIZE in *. lia.
  - intros k door Hk. unfold notify_address. rewrite Hc. simpl. unfold kick_doorbells in Hk.
    rewrite list_lookup_imap in Hk. by apply fmap_Some in Hk as (fd & _ & ->).
Qed.

Lemma bar0_sizes d : (forall i, bar_size d i = if (i =? 0)%nat then BAR0_SIZE else 0) -> sizes_ok d.
Proof. intros Hb i. rewrite Hb. by case_match. Qed.

(** A configuration space that names the notify area. *)
Definition names_notify (c : list Z) : Prop :=
  let w := read_cfg_space c 0 256 in notify_cap 64 w (cfg_byte w 0x34) = Some (0, OFF_NOTIFY, NOTIFY_MULT).

Lemma blk_fits k n kicks : fits (OnBlk (blk_new k n kicks)).
Proof.
  set (l := seqZ 0 (Z.max 1 (Z.min n MAX_QUEUES))).
  apply (kicks_fit _ (kicks <$> l)); [by apply bar0_sizes|done| |unfold l; rewrite length_fmap, length_seqZ; unfold MAX_QUEUES; lia|].
  - simpl. unfold kick_doorbells. apply list_eq. intros j. fold l. rewrite list_lookup_imap, !list_lookup_fmap.
    destruct (l !! j) as [x|] eqn:Ej; simpl; [|done]. unfold l in Ej. apply lookup_seqZ in Ej as [-> _]. done.
  - change (names_notify blk_cfg.1). vm_compute. reflexivity.
Qed.

(** A device's configuration builds, and names the notify area. *)
Definition config_named (x : option (list Z * Z)) : Prop := exists c cap, x = Some (c, cap) /\ names_notify c.

Lemma net_config_named : config_named net_pci_config.
Proof. eexists _, _. split; [vm_compute; reflexivity|vm_compute; reflexivity]. Qed.
Lemma vsock_config_named : config_named vsock_pci_config.
Proof. eexists _, _. split; [vm_compute; reflexivity|vm_compute; reflexivity]. Qed.
Lemma fs_config_named : config_named fs_pci_config.
Proof. eexists _, _. split; [vm_compute; reflexivity|vm_compute; reflexivity]. Qed.
Lemma console_config_named : config_named console_pci_config.
Proof. eexists _, _. split; [vm_compute; reflexivity|vm_compute; reflexivity]. Qed.
Lemma gpu_config_named : config_named gpu_pci_config.
Proof. eexists _, _. split; [vm_compute; reflexivity|vm_compute; reflexivity]. Qed.

(** The forwarding device has a layout of its own. *)
Lemma nv_config_named : exists c cap, nv_pci_config = Some (c, cap) /\
  (let w := read_cfg_space c 0 256 in notify_cap 64 w (cfg_byte w 0x34)) = Some (0, NV_OFF_NOTIFY, NOTIFY_MULT).
Proof. eexists _, _. split; [vm_compute; reflexivity|vm_compute; reflexivity]. Qed.

Lemma nv_sizes (d : Inner R (NvBack (Logged H) N P A)) : sizes_ok (OnNv d).
Proof.
  intros i. cbn. unfold NV_BAR0_SIZE, NV_SHM_SIZE, APERTURE_SIZE.
  destruct (i =? 0)%nat, (i =? NV_SHM_BAR)%nat, (i =? APERTURE_BAR)%nat; lia.
Qed.

Lemma nv_fits text h limit mem kicks (d : Inner R (NvBack (Logged H) N P A)) :
  NvGpuDevice_new text h limit mem kicks = Some d -> fits (OnNv d).
Proof.
  unfold NvGpuDevice_new. intros (v & _ & (h0 & _ & Hd)%bind_Some)%bind_Some.
  destruct (fetch_device_config h0) as [h1 cfg]. apply bind_Some in Hd as (cfg0 & _ & Hd).
  destruct (check_device_config _ _ _); [|done]. destruct nv_config_named as (c & cap & Ec & Hn). rewrite Ec in Hd. clear Ec.
  cbn [mbind option_bind] in Hd. injection Hd as <-. split; [apply nv_sizes|]. split_and!.
  - unfold doors_in_bars. cbn. repeat constructor; cbn; unfold NV_OFF_NOTIFY, NOTIFY_MULT, NV_BAR0_SIZE; lia.
  - change (NoDup [NV_OFF_NOTIFY + 0 * NOTIFY_MULT; NV_OFF_NOTIFY + 1 * NOTIFY_MULT]).
    apply NoDup_cons. split; [|apply NoDup_singleton]. rewrite list_elem_of_singleton. unfold NOTIFY_MULT. lia.
  - intros k door Hk. unfold notify_address. change (config_of _) with (read_cfg_space c 0 256). cbn zeta in Hn. rewrite Hn. cbn.
    destruct k as [|[|k]]; cbn in Hk; simplify_eq; done.
Qed.

Lemma built_fits (d : AnyDevice) : built d -> fits d.
Proof.
  intros [k n kicks d0 Hd|name addr mem h tap feats kicks d0 Hd|c mem h kicks d0 Hd|name mem h kicks d0 Hd|m d0 Hd|c kick d0 Hd|text h limit mem kicks d0 Hd].
  - rewrite BlkDevice_new_eq in Hd. injection Hd as <-. apply blk_fits.
  - unfold NetDevice_new in Hd. destruct net_config_named as (cf & cap & Ec & Hc). rewrite Ec in Hd. injection Hd as <-.
    apply (kicks_fit _ [kicks 0%nat; kicks 1%nat]); [by apply bar0_sizes|done|done|simpl; lia|exact Hc].
  - unfold VsockDevice_new in Hd. destruct (c <=? _); [done|]. destruct (vhost h GetFeatures) as [h1 [feats|]]; [|done].
    destruct vsock_config_named as (cf & cap & Ec & Hc). rewrite Ec in Hd. injection Hd as <-.
    apply (kicks_fit _ [kicks 0%nat; kicks 1%nat; kicks 2%nat]); [by apply bar0_sizes|done|done|simpl; lia|exact Hc].
  - unfold FsDevice_new in Hd. destruct (_ <=? length name)%nat; [done|].
    destruct fs_config_named as (cf & cap & Ec & Hc). rewrite Ec in Hd. injection Hd as <-.
    apply (kicks_fit _ [kicks 0%nat; kicks 1%nat]); [by apply bar0_sizes|done|done|simpl; lia|exact Hc].
  - unfold ConsoleDevice_new in Hd. destruct console_config_named as (cf & cap & Ec & Hc). rewrite Ec in Hd. injection Hd as <-.
    apply (kicks_fit _ []); [by apply bar0_sizes|done|done|simpl; lia|exact Hc].
  - unfold GpuDevice_new in Hd. destruct gpu_config_named as (cf & cap & Ec & Hc). rewrite Ec in Hd. injection Hd as <-.
    apply (kicks_fit _ [kick]); [|done|done|simpl; lia|exact Hc].
    intros i. change (0 <= (if (i =? 0)%nat then BAR0_SIZE else if (i =? SHM_BAR)%nat then SHM_SIZE else 0) <= 2 ^ 62).
    change SHM_SIZE with (2 ^ 33). unfold BAR0_SIZE. destruct (i =? 0)%nat, (i =? SHM_BAR)%nat; lia.
  - by eapply nv_fits.
Qed.

(** C16: Every device keeps its side of the bus's contract.  Whatever it is built
    with, a block, network, vsock, filesystem, console, GPU or forwarding device has
    BARs the placement can handle; its doorbells lie inside them, no two at the same
    offset; and the doorbell of each queue is exactly where a driver that walks
    the device's capability list is told to write for that queue. *)
Theorem devices_fit_bus (d : AnyDevice) : built d -> fits d.
Proof. apply built_fits. Qed.

End Any.

(** A vsock device for guest 7. *)
Definition vsock_built : option (Inner RouteLog (VsockBack (Logged Patient) OneRegion)) :=
  VsockDevice_new 7 {| region_len := 0x100000; host_base := 0; fd := 3 |}
    {| other := {| patience := 1; bits := 0 |}; said := [] |} Z.of_nat.

#[local] Existing Instances nv_protocol_bits nv_shm_bits nv_writable no_mapper no_space logged_config.

Lemma devices_fit_bus_witness :
  exists d, vsock_built = Some d /\
    notify_address (M := FlatRam) (P := unit) (A := unit) (OnVsock d) 2 = Some (0%nat, 0x308) /\ fits (M := FlatRam) (P := unit) (A := unit) (OnVsock d).
Proof.
  destruct vsock_built as [d|] eqn:E; [|vm_compute in E; discriminate].
  exists d. pose proof (devices_fit_bus (M := FlatRam) (P := unit) (A := unit) (OnVsock d) (built_vsock _ _ _ _ d E)) as F.
  split; [reflexivity|]. split; [|exact F].
  assert (exists door, doorbells d !! 2%nat = Some door /\ (door_bar_idx door, door_offset door) = (0%nat, 0x308)) as (door & Hk & Ho).
  { vm_compute in E. injection E as <-. eexists. split; vm_compute; reflexivity. }
  rewrite <- Ho. exact (proj2 (proj2 (proj2 F)) 2%nat door Hk).
Defined.
