(* ===== verification/Machine.v ===== *)
(** How the VMM puts its devices together, the middle of [main] in
    [vmm/src/bin/nesbox.rs]: for each device in turn its interrupt vectors, the
    INTx line of the slot it is about to get, and its place on the bus; the GPU
    and the forwarding device are then told where their windows are.  The devices
    are given already built. *)

From S2P Require Import Prelude Shared NvWindow NvGpu.
From S2P Require Import PciConfig PciBus PciBusFacts PciBusPaths GuestMem HostMapper MemSlots.
From S2P Require Import Msix MsixFacts BlkDisk BlkDevice BlkDeviceFacts.
From S2P Require Import VirtioPci VirtioPciFacts Vhost NetDevice VsockDevice FsDevice ConsoleDevice.
From S2P Require Import GpuBackend GpuDevice Devices Interrupt.

Section Machine.
Context {R H N M P A K G W : Type} {HR : MsiRouter R} {HH : Vhost H} {HN : HostMemory N} {HU : VhostUserBits}
  {HM : GuestMemory M} {HC : ConfigSource (Logged H)} {HP : HostMemoryMapper P} {HA : AddressSpace A} {HB : MmapBits}
  {HS : VhostUserShmBits} {HK : Kvm K} {HG : IoeventRegistrar G} {HW : Host W}.

Abbreviation Any := (AnyDevice (R := R) (H := H) (N := N) (M := M) (P := P) (A := A)).

(** [slot] is [next_slot], the number the next device is to get. *)
Record Machine := { m_bus : Bus Any G; m_irq : IrqManager K; slot : Z; m_slots : MemorySlots W }.

Definition bind_any (d : Any) (vs : list MsiVector) (r : R) (fd : Z) : Any :=
  match d with
  | OnBlk d => OnBlk (BlkDevice.bind_interrupts d vs r fd)
  | OnNet d => OnNet (VirtioPci.bind_interrupts d vs r fd)
  | OnVsock d => OnVsock (VirtioPci.bind_interrupts d vs r fd)
  | OnFs d => OnFs (VirtioPci.bind_interrupts d vs r fd)
  | OnConsole d => OnConsole (VirtioPci.bind_interrupts d vs r fd)
  | OnGpu d => OnGpu (VirtioPci.bind_interrupts d vs r fd)
  | OnNv d => OnNv (VirtioPci.bind_interrupts d vs r fd)
  end.

(** A vector per table entry. *)
Definition vectors_wanted (d : Any) : nat := match d with OnBlk d => msix_vectors d | OnNv _ => 3 | _ => 4 end.

(** One device: vectors, line, bus. *)
Definition attach (m : Machine) (r : R) (d : Any) : option (Machine * Bdf) :=
  let '(irq, vs) := allocate_msi_vectors (m_irq m) (vectors_wanted d) in
  vs ← vs;
  let '(irq, fd) := legacy_irqfd irq (slot_gsi (slot m)) in
  fd ← fd;
  match add_device_arc (m_bus m) (bind_any d vs r fd) with
  | inl _ => None
  | inr (b, bdf) => Some ({| m_bus := b; m_irq := irq; slot := u32 (slot m + 1); m_slots := m_slots m |}, bdf)
  end.

(** The devices of the bus are shared: what is done to one through another handle
    shows on the bus. *)
Definition on_device (b : Bus Any G) (bdf : Bdf) (f : Any -> Any) : Bus Any G :=
  set_devices b (alter (fun e => {| device := f (device e); bars := bars e |}) bdf (devices b)).

Definition tell_window (shm : Z) (d : Any) : Any :=
  match d with OnGpu d => OnGpu (set_shm_guest_addr d shm) | _ => d end.

(** The GPU is given its mapper first, and learns its window's address from the
    bus; that the window cannot be reserved is only a warning. *)
Definition attach_gpu (m : Machine) (r : R) (p : P) (d : Inner R (GpuBack P)) : option (Machine * Bdf) :=
  '(m, bdf) ← attach m r (OnGpu (bind_mapper d p));
  shm ← bar_address (m_bus m) bdf SHM_BAR;
  Some ({| m_bus := on_device (m_bus m) bdf (tell_window shm); m_irq := m_irq m; slot := slot m;
           m_slots := (open_window (m_slots m) shm SHM_SIZE).1 |}, bdf).

Definition tell_nv_windows (shm aperture : Z) (d : Any) : Any :=
  match d with OnNv d => OnNv (set_aperture_guest_addr (nv_set_shm_guest_addr d shm) aperture) | _ => d end.

(** The forwarding device has two windows, and one of them reserved. *)
Definition attach_nv (m : Machine) (r : R) (p : P) (space : A) (d : Inner R (NvBack (Logged H) N P A))
    : option (Machine * Bdf) :=
  '(m, bdf) ← attach m r (OnNv (nv_bind_mapper d p space));
  shm ← bar_address (m_bus m) bdf NV_SHM_BAR;
  aperture ← bar_address (m_bus m) bdf APERTURE_BAR;
  Some ({| m_bus := on_device (m_bus m) bdf (tell_nv_windows shm aperture); m_irq := m_irq m; slot := slot m;
           m_slots := (open_window (m_slots m) shm NV_SHM_SIZE).1 |}, bdf).

Fixpoint attach_all (m : Machine) (r : R) (ds : list Any) : option Machine :=
  match ds with
  | [] => Some m
  | d :: ds => '(m, _) ← attach m r d; attach_all m r ds
  end.

(** The whole sequence: root drive, other drives, console, vsock, network, GPU,
    forwarding device, shared directories. *)
Definition assemble (m : Machine) (r : R) (p : P) (space : A) (root : BlkDevice R) (drives : list (BlkDevice R))
    (console : Inner R (ConsoleBack M)) (vsock : option (Inner R (VsockBack (Logged H) N)))
    (net : option (Inner R (NetBack (Logged H) N))) (gpu : option (Inner R (GpuBack P)))
    (nv : option (Inner R (NvBack (Logged H) N P A))) (shares : list (Inner R (FsBack (Logged H) N))) : option Machine :=
  m ← attach_all m r (OnBlk <$> root :: drives);
  m ← attach_all m r [OnConsole console];
  m ← attach_all m r (OnVsock <$> option_list vsock);
  m ← attach_all m r (OnNet <$> option_list net);
  m ← match gpu with
      | Some d => fst <$> attach_gpu m r p d
      | None => Some m
      end;
  m ← match nv with
      | Some d => fst <$> attach_nv m r p space d
      | None => Some m
      end;
  attach_all m r (OnFs <$> shares).

(** Before the first device: the registrar is set already. *)
Definition Machine_new (w : Mmio64Window) (g : G) (irq : IrqManager K) (slots : MemorySlots W) : Machine :=
  {| m_bus := set_ioevent_registrar (Bus_new w) g; m_irq := irq; slot := 1; m_slots := slots |}.

End Machine.
