(* ===== verification/MachineFacts.v ===== *)
(** The devices put together: every device is on the slot whose line it drives,
    no two share an interrupt vector, and the GPU and the forwarding device know their
    windows. *)

From S2P Require Import Prelude Shared NvWindow NvGpu.
From S2P Require Import PciConfig PciBus PciBusFacts PciBusAccess PciBusPaths GuestMem HostMapper MemSlots.
From S2P Require Import Virtqueue Msix MsixFacts BlkDisk BlkDiskFacts BlkDevice BlkDeviceFacts.
From S2P Require Import VirtioPci VirtioPciFacts Vhost NetDevice VsockDevice FsDevice ConsoleDevice.
From S2P Require Import GpuBackend GpuDevice Devices Interrupt Machine.

(** The eventfds a kernel signals lines from, which it forgets none of. *)
Class KvmIrqfds (K : Type) `{Kvm K} := {
  irqfd_of : K -> Z * Z -> Prop;
  irqfd_registered k fd g : (register_irqfd k fd g).2 = true -> irqfd_of (register_irqfd k fd g).1 (fd, g);
  irqfd_kept k fd g x : irqfd_of k x -> irqfd_of (register_irqfd k fd g).1 x;
  irqfd_eventfd k x : irqfd_of k x -> irqfd_of (new_eventfd k).1 x
}.

Section Vectors.
Context {K : Type} {HK : Kvm K} {HI : KvmIrqfds K}.
Implicit Types (m : IrqManager K).

Definition wired_to m (x : Z * Z) : Prop := irqfd_of (vm_fd m) x.

Lemma wire_irqfd_wires m g :
  next_gsi (wire_irqfd m g).1 = next_gsi m /\
  (forall x, wired_to m x -> wired_to (wire_irqfd m g).1 x) /\
  (forall fd, (wire_irqfd m g).2 = Some fd -> wired_to (wire_irqfd m g).1 (fd, g)).
Proof.
  unfold wire_irqfd, wired_to. pose proof (irqfd_eventfd (vm_fd m)) as He.
  destruct (new_eventfd (vm_fd m)) as [k [fd|]]; simpl in *; [|done].
  pose proof (irqfd_registered k fd g) as Hr. pose proof (irqfd_kept k fd g) as Hk.
  destruct (register_irqfd k fd g) as [k' ok]; simpl in *. split_and!; [done|auto|].
  intros fd'. destruct ok; [|done]. intros [= <-]. auto.
Qed.

Lemma legacy_irqfd_wires m g fd m' :
  legacy_irqfd m g = (m', Some fd) ->
  next_gsi m' = next_gsi m /\ (forall x, wired_to m x -> wired_to m' x) /\ wired_to m' (fd, g).
Proof.
  unfold legacy_irqfd. destruct (g <? IOAPIC_PINS); [|done]. intros E.
  destruct (wire_irqfd_wires m g) as (H1 & H2 & H3). rewrite E in *. simpl in *. auto.
Qed.

Lemma allocate_wires m n m' vs :
  0 <= next_gsi m -> next_gsi m + Z.of_nat n < 2 ^ 32 -> allocate_msi_vectors m n = (m', Some vs) ->
  gsi <$> vs = seqZ (next_gsi m) (Z.of_nat n) /\ next_gsi m' = next_gsi m + Z.of_nat n /\
  (forall x, wired_to m x -> wired_to m' x) /\ Forall (fun v => wired_to m' (irq_fd v, gsi v)) vs.
Proof.
  revert m vs. induction n as [|n IH]; intros m vs H0 Hn Ha; simpl in Ha.
  { simplify_eq. split_and!; [done|lia|auto|done]. }
  unfold allocate_msi_vector in Ha. rewrite wrap_small in Ha by (unfold is_word; lia).
  set (m1 := {| vm_fd := vm_fd m; next_gsi := next_gsi m + 1; msi := msi m |}) in *.
  destruct (wire_irqfd_wires m1 (next_gsi m)) as (H1 & H2 & H3).
  destruct (wire_irqfd m1 (next_gsi m)) as [m2 [fd|]]; simpl in *; [|done].
  destruct (allocate_msi_vectors m2 n) as [m3 [vs'|]] eqn:E; simplify_eq/=.
  destruct (IH m2 vs') as (Hg & Hx & Hk & Hf); [lia..|done|].
  rewrite Hg, H1. split_and!.
  - rewrite (seqZ_cons _ (Z.of_nat (S n))) by lia. f_equal. f_equal; lia.
  - lia.
  - auto.
  - constructor; [|done]. simpl. auto.
Qed.

End Vectors.

Section Facts.
Context {R H N M P A K G W : Type} {HR : MsiRouter R} {HH : Vhost H} {HN : HostMemory N} {HU : VhostUserBits}
  {HM : GuestMemory M} {HC : ConfigSource (Logged H)} {HP : HostMemoryMapper P} {HA : AddressSpace A} {HB : MmapBits}
  {HS : VhostUserShmBits} {HK : Kvm K} {HG : IoeventRegistrar G} {HW : Host W} {HI : KvmIrqfds K}.

Abbreviation Any := (AnyDevice (R := R) (H := H) (N := N) (M := M) (P := P) (A := A)).
Implicit Types (m : Machine (R := R) (H := H) (N := N) (M := M) (P := P) (A := A) (K := K) (G := G) (W := W)) (d : Any).

Definition msix_of d : MsixTable R :=
  match d with
  | OnBlk d => b_msix d
  | OnNet d => msix d
  | OnVsock d => msix d
  | OnFs d => msix d
  | OnConsole d => msix d
  | OnGpu d => msix d
  | OnNv d => msix d
  end.

Lemma bind_any_msix d vs r fd :
  vectors (msix_of (bind_any d vs r fd)) = vs /\ intx (msix_of (bind_any d vs r fd)) = Some fd.
Proof. by destruct d. Qed.

Lemma bind_any_sizes d vs r fd : sizes_ok d -> sizes_ok (bind_any d vs r fd).
Proof. by destruct d. Qed.

Lemma gpu_sizes (dg : Inner R (GpuBack P)) : sizes_ok (OnGpu dg : Any).
Proof.
  intros i. change (0 <= (if (i =? 0)%nat then BAR0_SIZE else if (i =? SHM_BAR)%nat then SHM_SIZE else 0) <= 2 ^ 62).
  change SHM_SIZE with (2 ^ 33). unfold BAR0_SIZE. destruct (i =? 0)%nat, (i =? SHM_BAR)%nat; lia.
Qed.

(** ** The invariant *)

Definition windowed d : bool := match d with OnGpu _ | OnNv _ => true | _ => false end.

(** What a device takes for its windows' addresses is where the bus put them;
    [at_] is the bus's [bar_address]. *)
Definition knows_windows (at_ : nat -> option Z) d : Prop :=
  match d with
  | OnGpu dg => at_ SHM_BAR = Some (g_shm_addr (back dg))
  | OnNv dn => exists w shm aperture, nv_window (back dn) = Some w /\
      NvWindow.guest_base w = Some shm /\ at_ NV_SHM_BAR = Some shm /\
      NvWindow.aperture_base w = Some aperture /\ at_ APERTURE_BAR = Some aperture
  | _ => True
  end.

(** No two devices share an interrupt. *)
Definition gsis_apart (ds : gmap Bdf (PciDeviceEntry Any)) : Prop :=
  forall bdf bdf' e e' g, ds !! bdf = Some e -> ds !! bdf' = Some e' ->
    g ∈ gsi <$> vectors (msix_of (device e)) -> g ∈ gsi <$> vectors (msix_of (device e')) -> bdf = bdf'.

Lemma gsis_apart_insert ds bdf e0 bound :
  (forall b e g, ds !! b = Some e -> g ∈ gsi <$> vectors (msix_of (device e)) -> g < bound) ->
  (forall g, g ∈ gsi <$> vectors (msix_of (device e0)) -> bound <= g) ->
  gsis_apart ds -> gsis_apart (<[bdf := e0]> ds).
Proof.
  intros Hold Hnew Ha b1 b2 e1 e2 g H1 H2 Hg1 Hg2.
  apply lookup_insert_Some in H1 as [[<- <-]|[_ H1]]; apply lookup_insert_Some in H2 as [[<- <-]|[_ H2]]; [done|..].
  - specialize (Hold _ _ _ H2 Hg2). specialize (Hnew _ Hg1). lia.
  - specialize (Hold _ _ _ H1 Hg1). specialize (Hnew _ Hg2). lia.
  - by eapply Ha.
Qed.

(** [except]: a device that has not been told its windows yet. *)
Record wiring m (except : option Bdf) : Prop := {
  wi_bus : bus_wf (m_bus m);
  wi_slot : 1 <= slot m <= 32;
  wi_next : next_bdf (m_bus m) = if slot m <? 32 then (0, slot m, 0) else (1, 0, 0);
  wi_gsi : FIRST_MSI_GSI <= next_gsi (m_irq m) <= FIRST_MSI_GSI + 9 * (slot m - 1);
  wi_all : forall k, 1 <= k < slot m -> is_Some (devices (m_bus m) !! (0, k, 0));
  wi_dev : forall bdf e, devices (m_bus m) !! bdf = Some e ->
    exists k fd, bdf = (0, k, 0) /\ 1 <= k < slot m /\
      intx (msix_of (device e)) = Some fd /\ wired_to (m_irq m) (fd, slot_gsi k) /\
      Forall (fun v => wired_to (m_irq m) (irq_fd v, gsi v) /\ FIRST_MSI_GSI <= gsi v < next_gsi (m_irq m))
        (vectors (msix_of (device e))) /\ NoDup (gsi <$> vectors (msix_of (device e)));
  wi_apart : gsis_apart (devices (m_bus m));
  wi_window : forall bdf e, devices (m_bus m) !! bdf = Some e -> except <> Some bdf ->
    knows_windows (bar_address (m_bus m) bdf) (device e)
}.

Lemma attach_wiring m r d m' bdf :
  wiring m None -> sizes_ok d -> (vectors_wanted d <= 9)%nat -> attach m r d = Some (m', bdf) ->
  wiring m' (if windowed d then Some bdf else None) /\ slot m' = slot m + 1 /\
  (exists vs fd bs, devices (m_bus m') = <[bdf := {| device := bind_any d vs r fd; bars := bs |}]> (devices (m_bus m))) /\
  devices (m_bus m) !! bdf = None.
Proof.
  intros Hw Hs Hv Ha. destruct Hw as [Wb Wsl Wn Wg Wa Wd Wp Ww]. unfold attach in Ha.
  destruct (allocate_msi_vectors _ _) as [irq1 [vs|]] eqn:Ev; simpl in Ha; [|done].
  destruct (legacy_irqfd _ _) as [irq2 [fd|]] eqn:El; simpl in Ha; [|done].
  destruct (add_device_arc _ _) as [|[b bdf']] eqn:Ed; simplify_eq/=.
  destruct (allocate_wires (m_irq m) (vectors_wanted d) irq1 vs) as (Hg & Hn1 & Hk1 & Hf1);
    [unfold FIRST_MSI_GSI, IOAPIC_PINS in *; lia..|done|].
  destruct (legacy_irqfd_wires _ _ _ _ El) as (Hn2 & Hk2 & Hfd).
  destruct (add_device_spec _ _ _ _ Wb (bind_any_sizes _ _ _ _ Hs) Ed) as (bs & Hbdf & Hnone & (k & Hk & Hk31 & Hnext) & Hdev & _ & _ & _ & _ & _).
  assert (k = slot m /\ slot m <= 31) as [-> Hle].
  { rewrite Hk in Hbdf. rewrite Wn in Hbdf. destruct (Z.ltb_spec (slot m) 32); simplify_eq. lia. }
  assert (u32 (slot m + 1) = slot m + 1) as Hu by (apply wrap_small; unfold is_word; lia).
  destruct (bind_any_msix d vs r fd) as [Hvs Hix].
  assert (bus_wf b) as Wb' by (eapply add_device_wf; [..|exact Ed]; [done|by apply bind_any_sizes]).
  assert (Forall (fun g => FIRST_MSI_GSI <= g < next_gsi irq2 /\ next_gsi (m_irq m) <= g) (gsi <$> vs)) as Hrange.
  { rewrite Hg. apply Forall_seqZ. rewrite Hn2, Hn1. lia. }
  split_and!; simpl; [|lia|by exists vs, fd, bs|done]. rewrite Hu. split; simpl; try done.
  - lia.
  - rewrite Hnext. destruct (Z.ltb_spec (slot m) 31), (Z.ltb_spec (slot m + 1) 32); try lia; done.
  - rewrite Hn2, Hn1. lia.
  - intros j Hj. rewrite Hdev. destruct (decide (j = slot m)) as [->|].
    + rewrite Hk. rewrite lookup_insert_eq. eauto.
    + rewrite Hk, lookup_insert_ne by congruence. apply Wa. lia.
  - intros b0 e. rewrite Hdev. intros [[<- <-]|[Hne He]]%lookup_insert_Some.
    + exists (slot m), fd. cbn [device]. rewrite Hvs, Hix. split_and!; [done|lia|lia|done|done| |].
      * rewrite Forall_fmap in Hrange. apply Forall_and. split; [|].
        { eapply Forall_impl; [exact Hf1|]. simpl. intros v. apply Hk2. }
        { eapply Forall_impl; [exact Hrange|]. simpl. lia. }
      * rewrite Hg. apply NoDup_seqZ.
    + destruct (Wd _ _ He) as (j & fd' & -> & Hj & Hi & Hwl & Hvv & Hnd). exists j, fd'.
      split_and!; [done|lia|lia|done|by auto| |done].
      eapply Forall_impl; [exact Hvv|]. simpl. intros v [H1 H2]. split; [by auto|]. lia.
  - rewrite Hdev. apply (gsis_apart_insert _ _ _ (next_gsi (m_irq m))); [| |exact Wp].
    + intros b0 e0 g H0 Hin. destruct (Wd _ _ H0) as (_ & _ & _ & _ & _ & _ & Hvv & _).
      apply list_elem_of_fmap in Hin as (v & -> & Hin). rewrite Forall_forall in Hvv. apply Hvv in Hin as [_ ?]; lia.
    + cbn [device]. rewrite Hvs. intros g Hin. rewrite Forall_forall in Hrange. by apply Hrange in Hin as [_ ?].
  - intros b0 e He Hex. rewrite Hdev in He. apply lookup_insert_Some in He as [[<- <-]|[Hne He]].
    + by destruct d.
    + specialize (Ww b0 e He ltac:(done)). unfold bar_address in *. rewrite Hdev, lookup_insert_ne by done. exact Ww.
Qed.

(** Changing what is behind a device that keeps its interrupts. *)
Lemma on_device_lookup (b : Bus Any G) bdf f bdf' e :
  devices (on_device b bdf f) !! bdf' = Some e ->
  exists e0, devices b !! bdf' = Some e0 /\ bars e = bars e0 /\
    device e = if bool_decide (bdf = bdf') then f (device e0) else device e0.
Proof.
  unfold on_device. simpl. destruct (decide (bdf = bdf')) as [<-|Hne].
  - rewrite lookup_alter_eq. intros (e0 & He & ->)%fmap_Some. exists e0. by rewrite bool_decide_true.
  - rewrite lookup_alter_ne by done. intros He. exists e. by rewrite bool_decide_false.
Qed.

Lemma on_device_bars (b : Bus Any G) bdf f bdf' :
  bars <$> devices (on_device b bdf f) !! bdf' = bars <$> devices b !! bdf'.
Proof.
  unfold on_device. simpl. destruct (decide (bdf = bdf')) as [<-|Hne].
  - rewrite lookup_alter_eq. by destruct (devices b !! bdf).
  - by rewrite lookup_alter_ne.
Qed.

Lemma on_device_wf (b : Bus Any G) bdf f : bus_wf b -> bus_wf (on_device b bdf f).
Proof.
  intros [H1 H2 H3 H4 H5]. split; simpl; try done.
  - intros bdf' e (e0 & He & -> & _)%on_device_lookup. by eapply H2.
  - intros a s bdf' j. rewrite H3. split.
    + intros (e & x & He & Hx). pose proof (on_device_bars b bdf f bdf') as Hb. rewrite He in Hb.
      apply fmap_Some in Hb as (e' & He' & Hb). exists e', x. rewrite Hb in Hx. done.
    + intros (e & x & (e0 & He & Hb & _)%on_device_lookup & Hx). exists e0, x. by rewrite <- Hb.
  - intros bdf' e (e0 & He & _)%on_device_lookup. by eapply H5.
Qed.

Lemma bar_address_on_device (b : Bus Any G) bdf f bdf' idx :
  bar_address (on_device b bdf f) bdf' idx = bar_address b bdf' idx.
Proof.
  unfold bar_address. pose proof (on_device_bars b bdf f bdf') as Hb.
  destruct (devices (on_device b bdf f) !! bdf') as [e|], (devices b !! bdf') as [e0|]; simplify_eq/=; [|done].
  by rewrite Hb.
Qed.

(** Telling the last device its windows completes the wiring. *)
Lemma told_wiring m bdf f slots :
  wiring m (Some bdf) -> (forall d, msix_of (f d) = msix_of d) ->
  (forall e, devices (m_bus m) !! bdf = Some e -> knows_windows (bar_address (m_bus m) bdf) (f (device e))) ->
  wiring {| m_bus := on_device (m_bus m) bdf f; m_irq := m_irq m; slot := slot m; m_slots := slots |} None.
Proof.
  intros [Wb Wsl Wn Wg Wa Wd Wp Ww] Hf Hk.
  assert (forall bdf' e, devices (on_device (m_bus m) bdf f) !! bdf' = Some e ->
    exists e0, devices (m_bus m) !! bdf' = Some e0 /\ msix_of (device e) = msix_of (device e0)) as Hl.
  { intros bdf' e (e0 & He & _ & Hd)%on_device_lookup. exists e0. split; [done|]. rewrite Hd. by case_bool_decide. }
  split; simpl; try done.
  - by apply on_device_wf.
  - intros k Hk0. destruct (Wa k Hk0) as [e He]. pose proof (on_device_bars (m_bus m) bdf f (0, k, 0)) as Hb.
    rewrite He in Hb. apply fmap_Some in Hb as (e' & He' & _). eauto.
  - intros bdf' e (e0 & He & ->)%Hl. by apply Wd.
  - intros b1 b2 e1 e2 g (e1' & H1 & ->)%Hl (e2' & H2 & ->)%Hl. by eapply Wp.
  - intros bdf' e He _. assert (forall d, knows_windows (bar_address (m_bus m) bdf') d ->
      knows_windows (bar_address (on_device (m_bus m) bdf f) bdf') d) as Hsame.
    { intros []; simpl; by rewrite ?bar_address_on_device. }
    apply Hsame. apply on_device_lookup in He as (e0 & He & _ & ->). destruct (decide (bdf = bdf')) as [<-|Hne].
    + rewrite bool_decide_true by done. by apply Hk.
    + rewrite bool_decide_false by done. apply Ww; [done|congruence].
Qed.

Lemma attach_gpu_wiring m r p dg m' bdf :
  wiring m None -> attach_gpu m r p dg = Some (m', bdf) ->
  wiring m' None /\ slot m' = slot m + 1.
Proof.
  intros Hw Ha. unfold attach_gpu in Ha. destruct (attach m r _) as [[m1 bdf1]|] eqn:E; simpl in Ha; [|done].
  destruct (bar_address (m_bus m1) bdf1 SHM_BAR) as [shm|] eqn:Eb; simpl in Ha; [|done]. simplify_eq.
  destruct (attach_wiring _ _ _ _ _ Hw (gpu_sizes _) ltac:(simpl; lia) E) as (Wi & Hs & (vs & fd & bs & Hdev) & _).
  split; [|done]. apply told_wiring; [exact Wi|by intros []|]. intros e He. rewrite Hdev, lookup_insert_eq in He.
  simplify_eq/=. exact Eb.
Qed.

Lemma attach_nv_wiring m r p sp dn m' bdf :
  wiring m None -> attach_nv m r p sp dn = Some (m', bdf) ->
  wiring m' None /\ slot m' = slot m + 1.
Proof.
  intros Hw Ha. unfold attach_nv in Ha. destruct (attach m r _) as [[m1 bdf1]|] eqn:E; simpl in Ha; [|done].
  destruct (bar_address (m_bus m1) bdf1 NV_SHM_BAR) as [shm|] eqn:Eb; simpl in Ha; [|done].
  destruct (bar_address (m_bus m1) bdf1 APERTURE_BAR) as [ap|] eqn:Ec; simpl in Ha; [|done]. simplify_eq.
  destruct (attach_wiring _ _ _ _ _ Hw (nv_sizes _) ltac:(simpl; lia) E) as (Wi & Hs & (vs & fd & bs & Hdev) & _).
  split; [|done]. apply told_wiring; [exact Wi|by intros []|]. intros e He. rewrite Hdev, lookup_insert_eq in He.
  injection He as <-. cbn. eexists _, shm, ap. split_and!; [reflexivity|done..].
Qed.

Lemma attach_all_wiring m r (ds : list Any) m' :
  wiring m None -> Forall (fun d => sizes_ok d /\ (vectors_wanted d <= 9)%nat /\ windowed d = false) ds ->
  attach_all m r ds = Some m' -> wiring m' None /\ slot m' = slot m + Z.of_nat (length ds).
Proof.
  intros Hw Hds. revert m Hw. induction Hds as [|d ds (Hs & Hv & Hng) _ IH]; intros m Hw Ha; simpl in Ha.
  { simplify_eq. split; [done|simpl; lia]. }
  destruct (attach m r d) as [[m1 bdf]|] eqn:E; simpl in Ha; [|done].
  destruct (attach_wiring _ _ _ _ _ Hw Hs Hv E) as (Wi & Hsl & _). rewrite Hng in Wi.
  destruct (IH _ Wi Ha) as [Wi2 Hs2]. split; [done|]. simpl length. lia.
Qed.

Lemma built_wants d : built d -> (vectors_wanted d <= 9)%nat.
Proof.
  intros []; simpl; try lia. rewrite BlkDevice_new_eq in *. simplify_eq. unfold msix_vectors. simpl.
  rewrite length_fmap, length_seqZ. unfold MAX_QUEUES. lia.
Qed.

Lemma built_plain (ds : list Any) :
  Forall built ds -> Forall (fun d => windowed d = false) ds ->
  Forall (fun d => sizes_ok d /\ (vectors_wanted d <= 9)%nat /\ windowed d = false) ds.
Proof.
  rewrite !Forall_forall. intros Hb Hg d Hd. split_and!; [|apply built_wants; auto|auto].
  by apply built_fits, Hb.
Qed.

Lemma machine_new_wiring w g k0 irq slots :
  window_ok w -> IrqManager_new k0 = Some irq -> wiring (Machine_new w g irq slots) None.
Proof.
  intros Hw Hi. assert (next_gsi irq = FIRST_MSI_GSI) as Hg.
  { unfold IrqManager_new, commit in Hi. simpl in Hi. destruct (set_gsi_routing _ _) as [k []]; by simplify_eq. }
  split; simpl; try done.
  - eapply wf_same_core; [|by apply bus_new_wf]. done.
  - rewrite Hg. lia.
  - lia.
Qed.

Lemma prt_line k : 0 <= k < 32 -> prt_data !! Z.to_nat k = Some (Z.lor (Z.shiftl k 16) 0xFFFF, slot_gsi k).
Proof.
  intros Hk. unfold prt_data. rewrite list_lookup_fmap, lookup_seqZ_lt by lia. simpl. rewrite Z2Nat.id by lia.
  by rewrite Z.add_0_l.
Qed.

(** The devices in the order they are put together. *)
Definition order (root : BlkDevice R) (drives : list (BlkDevice R)) (console : Inner R (ConsoleBack M))
    (vsock : option (Inner R (VsockBack (Logged H) N))) (net : option (Inner R (NetBack (Logged H) N))) : list Any :=
  (OnBlk <$> root :: drives) ++ [OnConsole console] ++ (OnVsock <$> option_list vsock) ++ (OnNet <$> option_list net).

Lemma order_plain root drives console vsock net :
  Forall (fun d => windowed d = false) (order root drives console vsock net).
Proof.
  unfold order. rewrite !Forall_app. split_and!; [|by repeat constructor|..]; apply Forall_fmap; by apply Forall_true.
Qed.

Lemma attach_all_app m r (l k : list Any) : attach_all m r (l ++ k) = attach_all m r l ≫= fun m => attach_all m r k.
Proof.
  revert m. induction l as [|d l IH]; intros m; [done|]. simpl. destruct (attach m r d) as [[m1 bdf]|]; [apply IH|done].
Qed.

Lemma assemble_eq m r p sp root drives console vsock net gpu nv shares :
  assemble m r p sp root drives console vsock net gpu nv shares =
    (m ← attach_all m r (order root drives console vsock net);
     m ← match gpu with Some d => fst <$> attach_gpu m r p d | None => Some m end;
     m ← match nv with Some d => fst <$> attach_nv m r p sp d | None => Some m end;
     attach_all m r (OnFs <$> shares)).
Proof.
  unfold assemble, order. rewrite !attach_all_app.
  destruct (attach_all m r (OnBlk <$> root :: drives)) as [m1|]; [|done]. cbn [mbind option_bind]. rewrite attach_all_app.
  destruct (attach_all m1 r [OnConsole console]) as [m2|]; [|done]. cbn [mbind option_bind]. rewrite attach_all_app.
  by destruct (attach_all m2 r _) as [m3|].
Qed.

Lemma assemble_wiring m r p sp root drives console vsock net gpu nv shares m' :
  wiring m None ->
  Forall built (order root drives console vsock net) -> Forall built (OnFs <$> shares : list Any) ->
  assemble m r p sp root drives console vsock net gpu nv shares = Some m' ->
  wiring m' None /\ slot m' = slot m + Z.of_nat (length (order root drives console vsock net)) +
    Z.of_nat (length (option_list gpu)) + Z.of_nat (length (option_list nv)) + Z.of_nat (length shares).
Proof.
  intros Hw H1 H2 Ha. rewrite assemble_eq in Ha.
  destruct (attach_all m r _) as [m1|] eqn:E1; simpl in Ha; [|done].
  destruct (attach_all_wiring _ _ _ _ Hw (built_plain _ H1 (order_plain _ _ _ _ _)) E1) as [W1 S1].
  destruct (match gpu with Some d => _ | None => _ end) as [m2|] eqn:E2; simpl in Ha; [|done].
  assert (wiring m2 None /\ slot m2 = slot m1 + Z.of_nat (length (option_list gpu))) as [W2 S2].
  { destruct gpu as [dg|]; [|simplify_eq; split; [done|simpl; lia]]. simpl in E2.
    destruct (attach_gpu m1 r p dg) as [[m2' bdf]|] eqn:E; simplify_eq/=. by eapply attach_gpu_wiring. }
  destruct (match nv with Some d => _ | None => _ end) as [m3|] eqn:E3; simpl in Ha; [|done].
  assert (wiring m3 None /\ slot m3 = slot m2 + Z.of_nat (length (option_list nv))) as [W3 S3].
  { destruct nv as [dn|]; [|simplify_eq; split; [done|simpl; lia]]. simpl in E3.
    destruct (attach_nv m2 r p sp dn) as [[m3' bdf]|] eqn:E; simplify_eq/=. by eapply attach_nv_wiring. }
  destruct (attach_all_wiring _ _ _ _ W3 (built_plain _ H2 ltac:(apply Forall_fmap; by apply Forall_true)) Ha) as [W4 S4].
  split; [done|]. rewrite length_fmap in S4. lia.
Qed.

(** C4: The machine is wired as its tables say.  However many drives, shares and
    optional devices are configured, when assembling succeeds there are at most
    31 of them, on slots 1, 2, ... in the order added; the INTx eventfd of each
    is wired to the very line the ACPI interrupt table publishes for its slot;
    each interrupt vector is wired to its own GSI, none of them a legacy line
    and no two of them, in one device or two, the same; and where the GPU and the
    forwarding device take their windows to be is where the bus put their BARs. *)
Theorem machine_wired w g k0 irq slots r p sp root drives console vsock net gpu nv shares m :
  window_ok w -> IrqManager_new k0 = Some irq ->
  Forall built (order root drives console vsock net) -> Forall built (OnFs <$> shares : list Any) ->
  assemble (Machine_new w g irq slots) r p sp root drives console vsock net gpu nv shares = Some m ->
  let n := Z.of_nat (length (order root drives console vsock net)) + Z.of_nat (length (option_list gpu)) +
    Z.of_nat (length (option_list nv)) + Z.of_nat (length shares) in
  n <= 31 /\ bus_wf (m_bus m) /\
  (forall k, 1 <= k <= n -> exists e fd line,
     devices (m_bus m) !! (0, k, 0) = Some e /\ intx (msix_of (device e)) = Some fd /\
     prt_data !! Z.to_nat k = Some (Z.lor (Z.shiftl k 16) 0xFFFF, line) /\ wired_to (m_irq m) (fd, line) /\
     Forall (fun v => wired_to (m_irq m) (irq_fd v, gsi v) /\ IOAPIC_PINS <= gsi v) (vectors (msix_of (device e))) /\
     NoDup (gsi <$> vectors (msix_of (device e)))) /\
  (forall bdf bdf' e e' g, devices (m_bus m) !! bdf = Some e -> devices (m_bus m) !! bdf' = Some e' ->
     g ∈ gsi <$> vectors (msix_of (device e)) -> g ∈ gsi <$> vectors (msix_of (device e')) -> bdf = bdf') /\
  (forall bdf e, devices (m_bus m) !! bdf = Some e -> knows_windows (bar_address (m_bus m) bdf) (device e)).
Proof.
  intros Hw Hi H1 H2 Ha n. pose proof (machine_new_wiring w g k0 irq slots Hw Hi) as W0.
  destruct (assemble_wiring _ _ _ _ _ _ _ _ _ _ _ _ _ W0 H1 H2 Ha) as [[Wb Wsl Wn Wg Wa Wd Wp Ww] Hs].
  cbn [slot Machine_new] in Hs. unfold n. split_and!; [lia|done| |done|].
  - intros k Hk. destruct (Wa k) as [e He]; [lia|]. destruct (Wd _ _ He) as (k' & fd & [= <-] & _ & Hx & Hl & Hv & Hnd).
    exists e, fd, (slot_gsi k). split_and!; [done|done|apply prt_line; lia|done| |done].
    eapply Forall_impl; [exact Hv|]. simpl. unfold FIRST_MSI_GSI. intros v [? ?]. split; [done|lia].
  - intros bdf e He. by apply Ww.
Qed.

End Facts.

(** * A machine *)

#[export] Instance SmallKvm_irqfds : KvmIrqfds SmallKvm.
Proof.
  refine {| irqfd_of k x := x ∈ irqfds k |}; [|by intros; simpl; apply elem_of_app; left|done].
  intros k fd g _. simpl. apply elem_of_app. right. by left.
Defined.

#[local] Instance refusing_host : Host unit := {
  reserve h _ := (h, None); unreserve h _ _ := h; overwrite h _ _ := (h, false);
  set_user_memory_region h _ _ _ _ := (h, false)
}.

Abbreviation Small := (Machine (R := unit) (H := Patient) (N := OneRegion) (M := FlatRam) (P := unit) (A := unit) (K := SmallKvm)
  (G := RecordingRegistrar) (W := unit)).

#[local] Existing Instances nv_protocol_bits nv_shm_bits nv_writable no_mapper no_space logged_config.

#[local] Instance unit_router : MsiRouter unit := { set_msi_route r _ _ _ := (r, true) }.

Definition small_console : option (Inner unit (ConsoleBack FlatRam)) := (fun d => set_mem d (ram_zero 0x1000)) <$> ConsoleDevice_new.
Definition small_gpu : option (Inner unit (GpuBack unit)) :=
  GpuDevice_new {| displays := []; vram_limit_bytes := None; window_limit_bytes := 0; window_max_mappings := 0 |} 30.
Definition small_vsock : option (Inner unit (VsockBack (Logged Patient) OneRegion)) :=
  VsockDevice_new 7 {| region_len := 0x100000; host_base := 0; fd := 3 |}
    {| other := {| patience := 1; bits := 0 |}; said := [] |} Z.of_nat.

Definition small_nv : option (Inner unit (NvBack (Logged Patient) OneRegion unit unit)) :=
  NvGpuDevice_new (Some version_file) (Some (nv_backend 100)) (Some 8192)
    {| region_len := 0x100000; host_base := 0; fd := 3 |} (fun k => 40 + Z.of_nat k).

(** A drive, the console, a vsock, a GPU and a forwarding device. *)
Definition small_machine : option Small :=
  c ← small_console; v ← small_vsock; g ← small_gpu; n ← small_nv;
  assemble (Machine_new TEST_MMIO64 [] (irq0 50) (MemorySlots_new tt 1)) tt tt tt (blk_new test_disk 2 (fun k => 100 + k))
    [] c (Some v) None (Some g) (Some n) [].

Example small_wiring :
  (m ← small_machine;
   e ← devices (m_bus m) !! (0, 4, 0);
   f ← devices (m_bus m) !! (0, 5, 0);
   Some (slot m, gsi <$> vectors (msix_of (device e)), intx (msix_of (device e)), bar_address (m_bus m) (0, 4, 0) SHM_BAR,
         gsi <$> vectors (msix_of (device f)))) =
  Some (6, [35; 36; 37; 38], Some 21, Some (start TEST_MMIO64), [39; 40; 41]).
Proof. vm_compute. reflexivity. Qed.

Lemma small_exists : is_Some small_machine.
Proof. eexists. vm_compute. reflexivity. Qed.

Lemma small_irq : IrqManager_new (kvm0 50) = Some (irq0 50).
Proof. vm_compute. reflexivity. Qed.

Lemma small_parts m : small_machine = Some m -> exists c v g n,
  Forall built (order (H := Patient) (N := OneRegion) (P := unit) (A := unit) (blk_new test_disk 2 (fun k => 100 + k)) [] c (Some v) None) /\
  assemble (Machine_new TEST_MMIO64 [] (irq0 50) (MemorySlots_new tt 1)) tt tt tt
    (blk_new test_disk 2 (fun k => 100 + k)) [] c (Some v) None (Some g) (Some n) [] = Some m.
Proof.
  unfold small_machine. intros (c & Hc & (v & Hv & (g & Hg & (n & Hn & Hm)%bind_Some)%bind_Some)%bind_Some)%bind_Some.
  exists c, v, g, n. split; [|exact Hm]. apply fmap_Some in Hc as (c0 & Hc0 & ->).
  apply Forall_cons. split; [apply (built_blk test_disk 2 (fun k => 100 + k)), BlkDevice_new_eq|].
  apply Forall_cons. split; [apply (built_console _ _ Hc0)|].
  apply Forall_cons. split; [apply (built_vsock _ _ _ _ _ Hv)|]. apply Forall_nil_2.
Qed.

(** The vsock is third, on the shared line. *)
Lemma machine_wired_witness :
  exists m e fd line, small_machine = Some m /\ devices (m_bus m) !! (0, 3, 0) = Some e /\
    intx (msix_of (device e)) = Some fd /\ prt_data !! 3%nat = Some (0x3FFFF, line) /\ wired_to (m_irq m) (fd, line).
Proof.
  destruct small_exists as [m Hm]. destruct (small_parts m Hm) as (c & v & g & n & Hb & Ha).
  destruct (machine_wired TEST_MMIO64 [] (kvm0 50) (irq0 50) (MemorySlots_new tt 1) tt tt tt (blk_new test_disk 2 (fun k => 100 + k))
    [] c (Some v) None (Some g) (Some n) [] m test_window_ok small_irq Hb (Forall_nil_2 _) Ha) as (_ & _ & Hk & _).
  destruct (Hk 3) as (e & fd & line & He & Hx & Hp & Hw & _); [simpl; lia|].
  exists m, e, fd, line. exact (conj Hm (conj He (conj Hx (conj Hp Hw)))).
Defined.

(** A driver that moves BAR 2 leaves the GPU with the old address: it is told once. *)
Example window_address_goes_stale :
  (m ← small_machine;
   let b := m_bus m in
   let b := (handle_mmio_write b (ecam_addr 4 0 0x18) (le_bytes 4 0)).1 in
   let b := (handle_mmio_write b (ecam_addr 4 0 0x1C) (le_bytes 4 0x7E)).1 in
   e ← devices b !! (0, 4, 0);
   match device e with
   | OnGpu dg => Some (bar_address b (0, 4, 0) SHM_BAR, g_shm_addr (back dg))
   | _ => None
   end) = Some (Some 0x7E00000000, 0x7C00000000).
Proof. vm_compute. reflexivity. Qed.
