(* ===== verification/Seccomp.v ===== *)
(** The system call filters, [vmm/src/seccomp.rs]: classic BPF programs that let
    through the system calls of a list, the lists themselves, and their
    installation.

    The numbers of system calls are the libc crate's, so they are the class
    [SyscallNumbers], by name; the kernel calls that install a program are the
    class [SeccompHost].

    What the filters let through: the programs decide exactly as their lists say,
    on the instructions the kernel gives them; stacked, a vCPU's thread may make
    the system calls of its own list and no other; and audit mode reports the
    right number. *)

From stdpp Require Import strings sorting.
From S2P Require Import Prelude Shared.

Inductive Mode := Off | Audit | Enforce.

#[export] Instance Mode_eq_dec : EqDecision Mode.
Proof. solve_decision. Defined.

Definition Mode_parse (s : string) : option Mode :=
  if bool_decide (s = "off") then Some Off
  else if bool_decide (s = "audit") then Some Audit
  else if bool_decide (s = "enforce") then Some Enforce
  else None.

(** * Programs *)

Definition BPF_LD_W_ABS : Z := 0x20.
Definition BPF_JMP_JEQ_K : Z := 0x15.
Definition BPF_RET_K : Z := 0x06.

Definition SECCOMP_DATA_NR : Z := 0.
Definition SECCOMP_DATA_ARCH : Z := 4.
Definition AUDIT_ARCH_X86_64 : Z := 0xC000003E.

Definition SECCOMP_RET_ALLOW : Z := 0x7fff0000.
Definition SECCOMP_RET_TRAP : Z := 0x00030000.
Definition SECCOMP_RET_KILL_PROCESS : Z := 0x80000000.

Definition SECCOMP_SET_MODE_FILTER : Z := 1.
Definition SECCOMP_FILTER_FLAG_TSYNC : Z := 1.
Definition BPF_MAX_LEN : nat := Z.to_nat 4096.

Definition action (m : Mode) : Z :=
  match m with
  | Off => SECCOMP_RET_ALLOW
  | Audit => SECCOMP_RET_TRAP
  | Enforce => SECCOMP_RET_KILL_PROCESS
  end.

Record SockFilter := { code : Z; jt : Z; jf : Z; k : Z }.

Definition rule (nr : Z) : list SockFilter :=
  [{| code := BPF_JMP_JEQ_K; jt := 0; jf := 1; k := u32 nr |};
   {| code := BPF_RET_K; jt := 0; jf := 0; k := SECCOMP_RET_ALLOW |}].

Definition build (allowed : list Z) (mismatch : Z) : list SockFilter :=
  [{| code := BPF_LD_W_ABS; jt := 0; jf := 0; k := SECCOMP_DATA_ARCH |};
   {| code := BPF_JMP_JEQ_K; jt := 1; jf := 0; k := AUDIT_ARCH_X86_64 |};
   {| code := BPF_RET_K; jt := 0; jf := 0; k := mismatch |};
   {| code := BPF_LD_W_ABS; jt := 0; jf := 0; k := SECCOMP_DATA_NR |}] ++
  (allowed ≫= rule) ++
  [{| code := BPF_RET_K; jt := 0; jf := 0; k := mismatch |}].

(** * Policies *)

Class SyscallNumbers := { SYS : string -> Z }.

Definition baseline_names : list string := [
  "clone"; "clone3"; "exit"; "exit_group"; "futex"; "set_robust_list"; "rseq"; "gettid"; "getpid";
  "sched_yield"; "membarrier"; "restart_syscall"; "rt_sigaction"; "rt_sigprocmask"; "rt_sigreturn";
  "sigaltstack"; "tgkill"; "kill"; "wait4"; "mmap"; "munmap"; "mremap"; "mprotect"; "madvise"; "brk";
  "mincore"; "msync"; "memfd_create"; "ftruncate"; "fallocate"; "close"; "dup"; "dup2"; "dup3"; "fcntl";
  "lseek"; "pipe2"; "flock"; "read"; "write"; "readv"; "writev"; "pread64"; "pwrite64"; "preadv"; "pwritev";
  "fsync"; "fdatasync"; "io_uring_setup"; "io_uring_enter"; "io_uring_register"; "epoll_create1"; "epoll_ctl";
  "epoll_wait"; "epoll_pwait"; "ppoll"; "poll"; "eventfd2"; "timerfd_create"; "timerfd_settime"; "nanosleep";
  "clock_nanosleep"; "ioctl"; "openat"; "open"; "statx"; "newfstatat"; "fstat"; "stat"; "lstat"; "fstatfs";
  "getdents64"; "readlink"; "readlinkat"; "access"; "getcwd"; "unlink"; "unlinkat"; "rename"; "mkdir";
  "fchmod"; "fchmodat"; "rmdir"; "inotify_init1"; "inotify_add_watch"; "inotify_rm_watch"; "socket";
  "socketpair"; "connect"; "bind"; "listen"; "accept4"; "getsockopt"; "setsockopt"; "sendmsg"; "recvmsg";
  "sendto"; "recvfrom"; "shutdown"; "clock_gettime"; "gettimeofday"; "getrandom"; "uname"; "sysinfo"; "getuid";
  "geteuid"; "getgid"; "getegid"; "sched_getaffinity"; "sched_setaffinity"; "sched_setscheduler";
  "sched_setattr"; "sched_getattr"; "setpriority"; "kcmp"; "prctl"; "arch_prctl"; "seccomp"
].

Definition vcpu_names : list string := [
  "ioctl"; "read"; "write"; "readv"; "writev"; "pread64"; "pwrite64"; "futex"; "sched_yield"; "membarrier";
  "rt_sigaction"; "rt_sigprocmask"; "rt_sigreturn"; "sigaltstack"; "tgkill"; "gettid"; "mmap"; "munmap";
  "mprotect"; "madvise"; "brk"; "mremap"; "close"; "fcntl"; "eventfd2"; "sendmsg"; "recvmsg"; "epoll_ctl";
  "epoll_pwait"; "epoll_wait"; "ppoll"; "poll"; "clock_gettime"; "clock_nanosleep"; "nanosleep";
  "timerfd_settime"; "exit"; "exit_group"; "restart_syscall"; "rseq"; "set_robust_list"; "sched_setaffinity";
  "prctl"
].

Section Policies.
Context {HS : SyscallNumbers}.

Definition baseline : list Z := sorted_set (SYS <$> baseline_names).
Definition vcpu : list Z := sorted_set (SYS <$> vcpu_names).

End Policies.

(** * Installing *)

(** What the kernel is asked: no new privileges, a program for the calling
    thread or for all of them, and a handler for SIGSYS. *)
Class SeccompHost (W : Type) := {
  set_no_new_privs : W -> W * bool;
  set_filter : W -> Z -> list SockFilter -> W * bool;
  set_sigsys_handler : W -> W * bool
}.

Section Install.
Context {W : Type} {HW : SeccompHost W} {HS : SyscallNumbers}.

Definition install (w : W) (prog : list SockFilter) (all_threads : bool) : W * bool :=
  if (BPF_MAX_LEN <? length prog)%nat then (w, false)
  else
    match set_no_new_privs w with
    | (w, false) => (w, false)
    | (w, true) => set_filter w (if all_threads then SECCOMP_FILTER_FLAG_TSYNC else 0) prog
    end.

Definition apply_baseline (w : W) (mode : Mode) : W * bool :=
  if bool_decide (mode = Off) then (w, true)
  else
    let '(w, ok) := if bool_decide (mode = Audit) then set_sigsys_handler w else (w, true) in
    if ok : bool then install w (build baseline (action mode)) true else (w, false).

Definition apply_vcpu (w : W) (mode : Mode) : W * bool :=
  if bool_decide (mode = Off) then (w, true) else install w (build vcpu (action mode)) false.

End Install.

(** * The report of audit mode *)

(** The digits of [say_num], last first, into a buffer of twenty. *)
Fixpoint digits (fuel : nat) (n : Z) (buf : list Z) : list Z :=
  match fuel with
  | O => buf
  | S fuel =>
      let buf := 48 + n mod 10 :: buf in
      if n / 10 =? 0 then buf else digits fuel (n / 10) buf
  end.

(** For a number whose negation fits. *)
Definition say_num (n : Z) : list Z :=
  if n <? 0 then 45 :: digits 20 (- n) [] else digits 20 n [].

(** [on_sigsys], up to the exit with 1: what is written to standard error. *)
Definition on_sigsys (nr tid : Z) : list Z :=
  ascii_bytes "nesbox: seccomp refused syscall " ++ say_num nr ++ ascii_bytes " on thread " ++ say_num tid ++
  ascii_bytes " -- add it to the policy in vmm/src/seccomp.rs" ++ [10].

(** * Classic BPF, as the kernel runs a filter

    All of this is the kernel's own layout and numbering (seccomp(2), [linux/bpf_common.h]),
    written without the names of the source. *)

(** [struct seccomp_data]: the number of the call, the architecture, the
    instruction pointer and six arguments; the last seven are 64 bits wide. *)
Record seccomp_data := { nr : Z; arch : Z; instruction_pointer : Z; args : list Z }.

(** Its 32-bit words in the order of memory: [nr] at 0, [arch] at 4, the
    instruction pointer at 8, the arguments from 16. *)
Definition data_words (d : seccomp_data) : list Z :=
  [nr d; arch d] ++ ((instruction_pointer d :: args d) ≫= fun q => [u32 q; u32 (q ≫ 32)]).

(** A 32-bit load at a byte offset; one that is not aligned or past the end is
    no load. *)
Definition load (d : seccomp_data) (off : Z) : option Z :=
  if off mod 4 =? 0 then data_words d !! Z.to_nat (off / 4) else None.

(** The program run: 0x20 loads a word, 0x15 compares and jumps, 0x06 returns;
    [skip] is how many instructions a jump still has to pass over. *)
Fixpoint bpf (skip : nat) (prog : list SockFilter) (acc : Z) (d : seccomp_data) : option Z :=
  match prog, skip with
  | [], _ => None
  | _ :: prog, S skip => bpf skip prog acc d
  | i :: prog, O =>
      if code i =? 0x20 then v ← load d (k i); bpf 0 prog v d
      else if code i =? 0x15 then bpf (Z.to_nat (if acc =? k i then jt i else jf i)) prog acc d
      else if code i =? 0x06 then Some (k i)
      else None
  end.

(** What the kernel does with the call for a returned value: its action is the
    upper half of the word. *)
Inductive Verdict := KillProcess | KillThread | Trap | Refuse | Allow.

Definition verdict (ret : Z) : Verdict :=
  let a := ret ≫ 16 in
  if a =? 0x8000 then KillProcess
  else if a =? 0 then KillThread
  else if a =? 0x3 then Trap
  else if a =? 0x7fff then Allow
  else Refuse.

Definition decision (prog : list SockFilter) (d : seccomp_data) : option Verdict := verdict <$> bpf 0 prog 0 d.

(** What a mode does to a call that is not on the list. *)
Definition refusal (m : Mode) : Verdict :=
  match m with
  | Off => Allow
  | Audit => Trap
  | Enforce => KillProcess
  end.

Lemma verdict_action m : verdict (action m) = refusal m.
Proof. by destruct m. Qed.

Lemma bpf_rules allowed rest acc d :
  Forall (is_word 32) allowed ->
  bpf 0 ((allowed ≫= rule) ++ rest) acc d =
    if bool_decide (acc ∈ allowed) then Some SECCOMP_RET_ALLOW else bpf 0 rest acc d.
Proof.
  induction 1 as [|n l Hn _ IH]; [done|]. cbn [mbind list_bind app]. rewrite <- app_assoc.
  cbn [rule app bpf code jt jf k]. rewrite wrap_small by done. change (BPF_JMP_JEQ_K =? 0x20) with false.
  change (BPF_JMP_JEQ_K =? 0x15) with true. cbn [andb]. destruct (acc =? n) eqn:E; bool_prop.
  - subst. rewrite bool_decide_true by set_solver. done.
  - simpl. rewrite IH. rewrite (bool_decide_ext (acc ∈ n :: l) (acc ∈ l)); [done|]. set_solver.
Qed.

(** The kernel's number for this architecture is 0xC000003E. *)
Definition this_architecture (d : seccomp_data) : Prop := arch d = 0xC000003E.

#[export] Instance this_architecture_dec d : Decision (this_architecture d).
Proof. unfold this_architecture. apply _. Defined.

Lemma build_decides allowed m d :
  Forall (is_word 32) allowed ->
  decision (build allowed (action m)) d =
    Some (if bool_decide (this_architecture d /\ nr d ∈ allowed) then Allow else refusal m).
Proof.
  intros Ha. unfold decision, build, this_architecture. cbn [app bpf code jt jf k]. simpl.
  destruct (arch d =? AUDIT_ARCH_X86_64) eqn:E; bool_prop; simpl.
  - rewrite bpf_rules by done. rewrite (bool_decide_ext (arch d = 3221225534 /\ _) (nr d ∈ allowed)) by naive_solver.
    case_bool_decide; [done|]. simpl. f_equal. apply verdict_action.
  - rewrite bool_decide_false by naive_solver. f_equal. apply verdict_action.
Qed.

(** C9: A filter decides exactly as its list says.  The kernel runs the program
    built from a list of 32-bit numbers on what it records of any system call,
    whatever its instruction pointer and arguments: the call is allowed when it
    was made for this architecture and its number is in the list, and otherwise
    gets the mode's own refusal, a signal the reporter catches under audit and the
    end of the process under enforce.  A call of another architecture is refused
    whatever its number, and the program never falls off its end. *)
Theorem filter_decides allowed m d :
  Forall (is_word 32) allowed -> m <> Off ->
  decision (build allowed (action m)) d =
    Some (if bool_decide (arch d = 0xC000003E /\ nr d ∈ allowed) then Allow
          else match m with Audit => Trap | _ => KillProcess end).
Proof. intros Ha Hm. rewrite build_decides by done. by destruct m. Qed.

(** * The lists *)

Lemma length_rules l : length (l ≫= rule) = (2 * length l)%nat.
Proof. induction l as [|x l IH]; [done|]. cbn [mbind list_bind]. rewrite length_app, IH. simpl. lia. Qed.

Lemma length_build l m : length (build l m) = (2 * length l + 5)%nat.
Proof. unfold build. rewrite !length_app, length_rules. simpl. lia. Qed.

(** What must never be allowed, and what a vCPU must not reach, as the tests of
    the source list them. *)
Definition forbidden_names : list string := [
  "execve"; "execveat"; "ptrace"; "mount"; "umount2"; "bpf"; "kexec_load"; "init_module"; "finit_module";
  "delete_module"; "pivot_root"; "chroot"; "setuid"; "setgid"; "reboot"; "swapon"; "process_vm_readv";
  "process_vm_writev"; "userfaultfd"
].

Definition vcpu_forbidden_names : list string := [
  "openat"; "open"; "socket"; "connect"; "clone"; "execve"; "getdents64"
].

(** What the reporter of audit mode does itself. *)
Definition reporter_names : list string := ["write"; "gettid"; "exit_group"].

Definition known_names : list string := baseline_names ++ forbidden_names.

(** Numbers are 32 bits wide, and different calls have different ones. *)
Class SyscallNumbersLaws `{SyscallNumbers} : Prop := {
  SYS_word s : is_word 32 (SYS s);
  SYS_inj s s' : s ∈ known_names -> s' ∈ known_names -> SYS s = SYS s' -> s = s'
}.

Section Facts.
Context {HS : SyscallNumbers} {HL : SyscallNumbersLaws}.

Lemma policy_word l : Forall (is_word 32) (sorted_set (SYS <$> l)).
Proof.
  apply Forall_forall. intros x. rewrite elem_of_sorted_set. intros (s & -> & _)%list_elem_of_fmap. apply SYS_word.
Qed.

Lemma policy_elem l s :
  l ⊆ known_names -> s ∈ known_names -> SYS s ∈ sorted_set (SYS <$> l) <-> s ∈ l.
Proof.
  intros Hl Hs. rewrite elem_of_sorted_set, list_elem_of_fmap. split; [|by eexists].
  intros (s' & E & Hs'). by rewrite (SYS_inj s s') by auto.
Qed.

Lemma vcpu_in_baseline : vcpu_names ⊆ baseline_names.
Proof.
  assert (Forall (fun s => s ∈ baseline_names) vcpu_names) as H by (apply (bool_decide_unpack _); vm_compute; done).
  intros s Hs. by apply (proj1 (Forall_forall _ _) H).
Qed.

(** The lists compared name by name, by computation. *)
Lemma names_disjoint : forbidden_names ## baseline_names.
Proof.
  assert (Forall (fun s => s ∉ baseline_names) forbidden_names) as H by (apply (bool_decide_unpack _); vm_compute; done).
  intros s Hs. by apply (proj1 (Forall_forall _ _) H).
Qed.

Lemma vcpu_known :
  ("seccomp" :: vcpu_forbidden_names ⊆ known_names) /\ ("seccomp" :: vcpu_forbidden_names) ## vcpu_names.
Proof.
  assert (Forall (fun s => s ∈ known_names /\ s ∉ vcpu_names) ("seccomp" :: vcpu_forbidden_names)) as H
    by (apply (bool_decide_unpack _); vm_compute; done).
  split; intros s Hs; by apply (proj1 (Forall_forall _ _) H).
Qed.

Lemma reporter_in_vcpu : reporter_names ⊆ vcpu_names.
Proof.
  assert (Forall (fun s => s ∈ vcpu_names) reporter_names) as H by (apply (bool_decide_unpack _); vm_compute; done).
  intros s Hs. by apply (proj1 (Forall_forall _ _) H).
Qed.

Lemma baseline_known : baseline_names ⊆ known_names.
Proof. intros s Hs. apply elem_of_app. by left. Qed.

Lemma forbidden_known : forbidden_names ⊆ known_names.
Proof. intros s Hs. apply elem_of_app. by right. Qed.

Lemma vcpu_names_known : vcpu_names ⊆ known_names.
Proof. intros s Hs. by apply baseline_known, vcpu_in_baseline. Qed.

(** * Threads *)

Context {W : Type} {HW : SeccompHost W}.

(** What the kernel keeps: the threads of the process, the one that is calling,
    and the filters each runs under, in the order they were added.  With the flag
    1 (TSYNC) a filter is added for the caller and every other thread is brought
    to the caller's filters; with no flag the others keep theirs.  [runs] is
    whatever else goes on in between: a thread that starts takes over the filters
    of the one that started it, and nobody loses any. *)
Class SeccompHostLaws (threads : W -> list Z) (caller : W -> Z) (filters : W -> Z -> list (list SockFilter))
    (runs : W -> W -> Prop) : Prop := {
  privs_keep w :
    let w' := (set_no_new_privs w).1 in threads w' = threads w /\ caller w' = caller w /\ filters w' = filters w;
  handler_keeps w :
    let w' := (set_sigsys_handler w).1 in threads w' = threads w /\ caller w' = caller w /\ filters w' = filters w;
  filter_threads w flags prog w' :
    set_filter w flags prog = (w', true) -> threads w' = threads w /\ caller w' = caller w;
  filter_caller w flags prog w' :
    set_filter w flags prog = (w', true) -> filters w' (caller w) = filters w (caller w) ++ [prog];
  filter_synced w prog w' t :
    set_filter w 1 prog = (w', true) -> t ∈ threads w -> filters w' t = filters w' (caller w);
  filter_own w prog w' t :
    set_filter w 0 prog = (w', true) -> t <> caller w -> filters w' t = filters w t;
  caller_runs w : caller w ∈ threads w;
  filters_inherited w w' t :
    runs w w' -> t ∈ threads w' -> exists s, s ∈ threads w /\ filters w' t = filters w s
}.

Context {threads : W -> list Z} {caller : W -> Z} {filters : W -> Z -> list (list SockFilter)} {runs : W -> W -> Prop}.
Context {HF : SeccompHostLaws threads caller filters runs}.

(** A system call of a thread goes through when every filter of the thread
    allows it. *)
Definition permitted (w : W) (t : Z) (d : seccomp_data) : Prop :=
  Forall (fun prog => decision prog d = Some Allow) (filters w t).

(** Every thread of the process runs under exactly these filters. *)
Definition all_under (w : W) (l : list (list SockFilter)) : Prop := forall t, t ∈ threads w -> filters w t = l.

Lemma install_sets w prog all w' :
  install w prog all = (w', true) ->
  exists w0, threads w0 = threads w /\ caller w0 = caller w /\ filters w0 = filters w /\
    set_filter w0 (if all then SECCOMP_FILTER_FLAG_TSYNC else 0) prog = (w', true).
Proof.
  unfold install. case_match; [done|]. destruct (set_no_new_privs w) as [w1 []] eqn:E; [|done].
  intros Hs. pose proof (privs_keep w) as Hk. rewrite E in Hk. exists w1. naive_solver.
Qed.

Lemma apply_baseline_covers w m w' :
  m <> Off -> all_under w [] -> apply_baseline w m = (w', true) -> all_under w' [build baseline (action m)].
Proof.
  intros Hm Hw. unfold apply_baseline. rewrite bool_decide_false by done.
  assert (forall w0, all_under w0 [] -> install w0 (build baseline (action m)) true = (w', true) ->
    all_under w' [build baseline (action m)]) as Hi.
  { intros w0 H0 (w1 & Et & Ec & Ef & Hs)%install_sets t Ht.
    rewrite (proj1 (filter_threads _ _ _ _ Hs)) in Ht.
    rewrite (filter_synced _ _ _ _ Hs Ht), (filter_caller _ _ _ _ Hs), Ef, Ec, H0; [done|apply caller_runs]. }
  case_bool_decide; [|by apply Hi]. destruct (set_sigsys_handler w) as [w1 []] eqn:E; [|done].
  apply Hi. intros t. pose proof (handler_keeps w) as Hk. rewrite E in Hk. simpl in Hk.
  destruct Hk as (-> & _ & ->). apply Hw.
Qed.

Lemma later_under w w' l : all_under w l -> rtc runs w w' -> all_under w' l.
Proof.
  intros Hw Hr. induction Hr as [|w w1 w2 H1 _ IH]; [done|]. apply IH.
  intros t (s & Hs & ->)%(filters_inherited _ _ _ H1). by apply Hw.
Qed.

Lemma apply_vcpu_sets w m w' :
  m <> Off -> apply_vcpu w m = (w', true) ->
  filters w' (caller w) = filters w (caller w) ++ [build vcpu (action m)] /\
  forall t, t <> caller w -> filters w' t = filters w t.
Proof.
  intros Hm. unfold apply_vcpu. rewrite bool_decide_false by done. intros (w1 & Et & Ec & Ef & Hs)%install_sets.
  rewrite <- Ec, <- Ef. split; [by apply (filter_caller _ _ _ _ Hs)|]. intros t. by apply (filter_own _ _ _ _ Hs).
Qed.

Lemma decision_allows l m d :
  Forall (is_word 32) l -> m <> Off ->
  decision (build l (action m)) d = Some Allow <-> this_architecture d /\ nr d ∈ l.
Proof. intros Hl Hm. rewrite build_decides by done. case_bool_decide; [done|]. by destruct m. Qed.

Lemma baseline_permits w m t d :
  m <> Off -> all_under w [build baseline (action m)] -> t ∈ threads w ->
  permitted w t d <-> this_architecture d /\ nr d ∈ SYS <$> baseline_names.
Proof.
  intros Hm Hw Ht. unfold permitted. rewrite (Hw t Ht), Forall_singleton, decision_allows by (done || apply policy_word).
  unfold baseline. by rewrite elem_of_sorted_set.
Qed.

Lemma vcpu_permits w m w' d :
  m <> Off -> all_under w [build baseline (action m)] -> apply_vcpu w m = (w', true) ->
  permitted w' (caller w) d <-> this_architecture d /\ nr d ∈ SYS <$> vcpu_names.
Proof.
  intros Hm Hw [H1 _]%apply_vcpu_sets; [|done]. unfold permitted. rewrite H1, Forall_app, Forall_singleton.
  fold (permitted w (caller w) d). rewrite (baseline_permits _ m) by (done || apply caller_runs).
  rewrite decision_allows by (done || apply policy_word). unfold vcpu. rewrite elem_of_sorted_set.
  split; [by intros [_ Hv]|]. intros [Ha Hv]. split; [|done]. split; [done|].
  apply list_elem_of_fmap in Hv as (s & -> & Hs). by apply list_elem_of_fmap_2, vcpu_in_baseline.
Qed.

Lemma names_elem l s : l ⊆ known_names -> s ∈ known_names -> SYS s ∈ SYS <$> l -> s ∈ l.
Proof. intros Hl Hs. rewrite <- elem_of_sorted_set. by apply policy_elem. Qed.

(** C27: What each thread may do.  Once the baseline is installed in a process
    none of whose threads had a filter, every thread of the process, those started
    later included, may make the calls of the baseline, for this architecture, and
    nothing else: none may run another program, trace, mount, load a module or
    change its identity.  When a thread of such a process installs the vCPU filter
    it may make exactly the calls of that list: it may not open files or sockets or
    start threads, nor install another filter; the other threads are left as they
    were; and on either list are the calls the audit report itself makes. *)
Theorem threads_confined w m w1 w2 d :
  m <> Off -> (forall t, t ∈ threads w -> filters w t = []) -> apply_baseline w m = (w1, true) -> rtc runs w1 w2 ->
  (forall t, t ∈ threads w2 ->
    (permitted w2 t d <-> arch d = 0xC000003E /\ nr d ∈ SYS <$> baseline_names) /\
    (forall s, s ∈ forbidden_names -> nr d = SYS s -> ~ permitted w2 t d)) /\
  (forall w3, apply_vcpu w2 m = (w3, true) ->
    (permitted w3 (caller w2) d <-> arch d = 0xC000003E /\ nr d ∈ SYS <$> vcpu_names) /\
    (forall s, s ∈ "seccomp" :: vcpu_forbidden_names -> nr d = SYS s -> ~ permitted w3 (caller w2) d) /\
    (forall s, s ∈ reporter_names -> nr d = SYS s -> arch d = 0xC000003E -> permitted w3 (caller w2) d) /\
    (forall t, t <> caller w2 -> permitted w3 t d <-> permitted w2 t d)).
Proof.
  intros Hm Hw H1 Hr. apply apply_baseline_covers in H1; [|done..]. pose proof (later_under _ _ _ H1 Hr) as H2.
  split.
  - intros t Ht. pose proof (baseline_permits _ _ t d Hm H2 Ht) as P. split; [done|].
    intros s Hs E [_ Hb]%P. rewrite E in Hb.
    apply names_elem in Hb; [|apply baseline_known|by apply forbidden_known]. by apply (names_disjoint s).
  - intros w3 H3. pose proof (vcpu_permits _ _ _ d Hm H2 H3) as P. split_and!; [done| | |].
    + intros s Hs E [_ Hb]%P. rewrite E in Hb.
      apply names_elem in Hb; [|apply vcpu_names_known|by apply vcpu_known]. by apply (proj2 vcpu_known s).
    + intros s Hs E Ha. apply P. split; [done|]. rewrite E. by apply list_elem_of_fmap_2, reporter_in_vcpu.
    + intros t Ht. unfold permitted. by rewrite (proj2 (apply_vcpu_sets _ _ _ Hm H3) t Ht).
Qed.

End Facts.

(** * The report *)

(** The value of decimal digits, first digit first. *)
Definition value (l : list Z) : Z := foldl (fun n c => 10 * n + (c - 48)) 0 l.

Lemma value_snoc l c : value (l ++ [c]) = 10 * value l + (c - 48).
Proof. unfold value. by rewrite foldl_app. Qed.

Lemma digits_app fuel n buf : digits fuel n buf = digits fuel n [] ++ buf.
Proof.
  revert n buf. induction fuel as [|fuel IH]; intros n buf; [done|]. simpl. case_match; [done|].
  rewrite IH, (IH _ [_]), <- app_assoc. done.
Qed.

Lemma digits_value fuel n :
  0 <= n < 10 ^ Z.of_nat fuel -> value (digits fuel n []) = n /\ Forall (fun c => 48 <= c <= 57) (digits fuel n []).
Proof.
  revert n. induction fuel as [|fuel IH]; intros n Hn; [simpl in *; unfold value; simpl; split; [lia|done]|].
  cbn [digits]. pose proof (Z.mod_pos_bound n 10). pose proof (Z.div_mod n 10). case_match eqn:E; bool_prop.
  - unfold value. simpl. split; [lia|]. constructor; [lia|done].
  - rewrite digits_app, value_snoc. replace (Z.of_nat (S fuel)) with (Z.of_nat fuel + 1) in Hn by lia.
    rewrite Z.pow_add_r in Hn by lia.
    destruct (IH (n / 10)) as [-> Hd]; [split; [apply Z.div_pos; lia|apply Z.div_lt_upper_bound; lia]|].
    split; [lia|]. apply Forall_app. split; [done|]. constructor; [lia|done].
Qed.

(** The number in the report reads back as the number of the call. *)
Theorem report_names_call n :
  0 <= n < 2 ^ 63 -> value (say_num n) = n /\ Forall (fun c => 48 <= c <= 57) (say_num n).
Proof.
  intros Hn. unfold say_num. rewrite (proj2 (Z.ltb_ge n 0)) by lia. apply digits_value.
  change (10 ^ Z.of_nat 20) with 100000000000000000000. lia.
Qed.

(** * For the examples *)

(** The numbers of the x86-64 kernel. *)
Definition x86_64_numbers : list (string * Z) := [
  ("clone", 56); ("clone3", 435); ("exit", 60); ("exit_group", 231); ("futex", 202); ("set_robust_list", 273);
  ("rseq", 334); ("gettid", 186); ("getpid", 39); ("sched_yield", 24); ("membarrier", 324);
  ("restart_syscall", 219); ("rt_sigaction", 13); ("rt_sigprocmask", 14); ("rt_sigreturn", 15);
  ("sigaltstack", 131); ("tgkill", 234); ("kill", 62); ("wait4", 61); ("mmap", 9); ("munmap", 11);
  ("mremap", 25); ("mprotect", 10); ("madvise", 28); ("brk", 12); ("mincore", 27); ("msync", 26);
  ("memfd_create", 319); ("ftruncate", 77); ("fallocate", 285); ("close", 3); ("dup", 32); ("dup2", 33);
  ("dup3", 292); ("fcntl", 72); ("lseek", 8); ("pipe2", 293); ("flock", 73); ("read", 0); ("write", 1);
  ("readv", 19); ("writev", 20); ("pread64", 17); ("pwrite64", 18); ("preadv", 295); ("pwritev", 296);
  ("fsync", 74); ("fdatasync", 75); ("io_uring_setup", 425); ("io_uring_enter", 426);
  ("io_uring_register", 427); ("epoll_create1", 291); ("epoll_ctl", 233); ("epoll_wait", 232);
  ("epoll_pwait", 281); ("ppoll", 271); ("poll", 7); ("eventfd2", 290); ("timerfd_create", 283);
  ("timerfd_settime", 286); ("nanosleep", 35); ("clock_nanosleep", 230); ("ioctl", 16); ("openat", 257);
  ("open", 2); ("statx", 332); ("newfstatat", 262); ("fstat", 5); ("stat", 4); ("lstat", 6); ("fstatfs", 138);
  ("getdents64", 217); ("readlink", 89); ("readlinkat", 267); ("access", 21); ("getcwd", 79); ("unlink", 87);
  ("unlinkat", 263); ("rename", 82); ("mkdir", 83); ("fchmod", 91); ("fchmodat", 268); ("rmdir", 84);
  ("inotify_init1", 294); ("inotify_add_watch", 254); ("inotify_rm_watch", 255); ("socket", 41);
  ("socketpair", 53); ("connect", 42); ("bind", 49); ("listen", 50); ("accept4", 288); ("getsockopt", 55);
  ("setsockopt", 54); ("sendmsg", 46); ("recvmsg", 47); ("sendto", 44); ("recvfrom", 45); ("shutdown", 48);
  ("clock_gettime", 228); ("gettimeofday", 96); ("getrandom", 318); ("uname", 63); ("sysinfo", 99);
  ("getuid", 102); ("geteuid", 107); ("getgid", 104); ("getegid", 108); ("sched_getaffinity", 204);
  ("sched_setaffinity", 203); ("sched_setscheduler", 144); ("sched_setattr", 314); ("sched_getattr", 315);
  ("setpriority", 141); ("kcmp", 312); ("prctl", 157); ("arch_prctl", 158); ("seccomp", 317); ("execve", 59);
  ("execveat", 322); ("ptrace", 101); ("mount", 165); ("umount2", 166); ("bpf", 321); ("kexec_load", 246);
  ("init_module", 175); ("finit_module", 313); ("delete_module", 176); ("pivot_root", 155); ("chroot", 161);
  ("setuid", 105); ("setgid", 106); ("reboot", 169); ("swapon", 167); ("process_vm_readv", 310);
  ("process_vm_writev", 311); ("userfaultfd", 323)
].

Fixpoint assoc (l : list (string * Z)) (s : string) : Z :=
  match l with
  | [] => 999
  | (x, n) :: l => if bool_decide (x = s) then n else assoc l s
  end.

#[export] Instance x86_64_syscalls : SyscallNumbers := { SYS := assoc x86_64_numbers }.

Lemma assoc_word l s : Forall (fun p => is_word 32 p.2) l -> is_word 32 (assoc l s).
Proof. induction 1 as [|[x n] l Hn _ IH]; simpl; [unfold is_word; lia|]. by case_bool_decide. Qed.

Lemma NoDup_fmap_inj {A B : Type} (f : A -> B) (l : list A) x y :
  NoDup (f <$> l) -> x ∈ l -> y ∈ l -> f x = f y -> x = y.
Proof.
  induction l as [|z l IH]; [by intros _ ?%elem_of_nil|]. rewrite fmap_cons. intros [Hz Hl]%NoDup_cons.
  rewrite !elem_of_cons. intros [->|Hx] [->|Hy] E; [done| | |by apply IH]; exfalso; apply Hz; [rewrite E|rewrite <- E];
    by apply list_elem_of_fmap_2.
Qed.

Lemma numbers_distinct : bool_decide (NoDup (SYS <$> known_names)) = true.
Proof. vm_compute. reflexivity. Qed.

Lemma numbers_word : forallb (fun p => in_range 0 (2 ^ 32) p.2) x86_64_numbers = true.
Proof. vm_compute. reflexivity. Qed.

#[export] Instance x86_64_laws : SyscallNumbersLaws.
Proof.
  split; [|intros s s'; apply NoDup_fmap_inj; exact (proj1 (bool_decide_eq_true _) numbers_distinct)].
  intros s. apply assoc_word. apply Forall_forall. intros p Hp%list_elem_of_In.
  apply in_range_spec. exact (proj1 (forallb_forall _ _) numbers_word p Hp).
Qed.

(** A kernel that accepts everything: the thread that calls, the others, and what
    each runs under. *)
Record Process := { calling : Z; others : list Z; under : Z -> list (list SockFilter) }.

#[export] Instance Willing : SeccompHost Process := {
  set_no_new_privs w := (w, true);
  set_filter w flags prog :=
    let mine := under w (calling w) ++ [prog] in
    let gets t := bool_decide (t = calling w \/ flags = 1 /\ t ∈ others w) in
    ({| calling := calling w; others := others w; under t := if gets t then mine else under w t |}, true);
  set_sigsys_handler w := (w, true)
}.

(** The caller gives way to another thread, or starts one. *)
Inductive goes_on (w : Process) : Process -> Prop :=
| other_calls t l : t :: l ⊆ calling w :: others w -> goes_on w {| calling := t; others := l; under := under w |}
| thread_starts t :
    goes_on w {| calling := calling w; others := t :: others w;
      under u := if decide (u = t) then under w (calling w) else under w u |}.

#[export] Instance Willing_laws :
  SeccompHostLaws (fun w => calling w :: others w) calling under goes_on.
Proof.
  split; [done|done|..].
  - by intros w flags prog w' [= <-].
  - intros w flags prog w' [= <-]. simpl. by rewrite bool_decide_true by naive_solver.
  - intros w prog w' t [= <-] Ht. simpl in *. rewrite !bool_decide_true by set_solver. done.
  - intros w prog w' t [= <-] Ht. simpl. by rewrite bool_decide_false by naive_solver.
  - intros w. left.
  - intros w w' t [t' l Hl|t'] Ht; simpl in *.
    + exists t. split; [by apply Hl|done].
    + rewrite !elem_of_cons in Ht. case_decide.
      * exists (calling w). split; [left|done].
      * exists t. split; [|done]. rewrite elem_of_cons. naive_solver.
Qed.

(** Opening a file: the baseline lets it through, the vCPU's filter does not. *)
Definition open_call : seccomp_data :=
  {| nr := 257; arch := 0xC000003E; instruction_pointer := 0x7f1234567890; args := [1; 2; 3; 4; 5; 6] |}.

Lemma filter_decides_witness :
  decision (build baseline (action Enforce)) open_call = Some Allow /\
  decision (build vcpu (action Enforce)) open_call = Some KillProcess /\
  decision (build vcpu (action Audit)) open_call = Some Trap.
Proof.
  split.
  - rewrite (filter_decides baseline Enforce open_call (policy_word _)) by discriminate. vm_compute. reflexivity.
  - split; vm_compute; reflexivity.
Defined.

(** A main thread 1 and a worker 2; after the baseline a vCPU's thread 3 starts
    and installs its own filter. *)
Definition two_threads : Process := {| calling := 1; others := [2]; under _ := [] |}.

Definition after_baseline : Process := (apply_baseline two_threads Enforce).1.

Definition vcpu_starts : Process :=
  {| calling := 1; others := 3 :: others after_baseline;
     under u := if decide (u = 3) then under after_baseline (calling after_baseline) else under after_baseline u |}.

Definition vcpu_calls : Process := {| calling := 3; others := [1; 2]; under := under vcpu_starts |}.

Lemma threads_confined_witness :
  permitted (filters := under) vcpu_calls 2 open_call /\
  ~ permitted (filters := under) (apply_vcpu vcpu_calls Enforce).1 3 open_call.
Proof.
  destruct (threads_confined (threads := fun w => calling w :: others w) (caller := calling) (filters := under)
    (runs := goes_on) two_threads Enforce after_baseline vcpu_calls open_call) as (H1 & H2).
  - discriminate.
  - reflexivity.
  - vm_compute. reflexivity.
  - apply (rtc_l _ _ vcpu_starts); [apply (thread_starts after_baseline 3)|].
    apply rtc_once. apply (other_calls vcpu_starts 3 [1; 2]). apply (bool_decide_unpack _). vm_compute. exact I.
  - split.
    + apply H1; [apply (bool_decide_unpack _); vm_compute; exact I|]. split; [reflexivity|]. apply (bool_decide_unpack _). vm_compute. exact I.
    + destruct (H2 (apply_vcpu vcpu_calls Enforce).1) as (_ & H3 & _); [vm_compute; reflexivity|].
      apply (H3 "openat"); [|vm_compute; reflexivity]. apply (bool_decide_unpack _). vm_compute. exact I.
Defined.
