(* ===== verification/Cpuid.v ===== *)
(** What a guest is told about its CPUs, [vmm/src/cpuid.rs]: the host's CPUID
    table with the topology, cache and paravirtual leaves rewritten for one
    vCPU.

    The table is kvm-bindings' [CpuId], a vector of at most [CPUID_MAX] entries
    ([KVM_MAX_CPUID_ENTRIES], a class here); pushing onto a full one fails. *)

From S2P Require Import Prelude.

Inductive Vendor := Amd | Intel | Other.

#[export] Instance Vendor_eq_dec : EqDecision Vendor.
Proof. solve_decision. Defined.

Inductive Reg := Eax | Ebx | Ecx | Edx.

Record kvm_cpuid_entry2 := {
  function : Z;
  index : Z;
  flags : Z;
  eax : Z;
  ebx : Z;
  ecx : Z;
  edx : Z
}.

Definition KVM_CPUID_FLAG_SIGNIFCANT_INDEX : Z := 1.

Abbreviation CpuId := (list kvm_cpuid_entry2).

Class CpuidCapacity := { CPUID_MAX : nat }.

(** "AuthenticAMD" and "GenuineIntel", as bytes. *)
Definition AuthenticAMD : list Z := [65; 117; 116; 104; 101; 110; 116; 105; 99; 65; 77; 68].
Definition GenuineIntel : list Z := [71; 101; 110; 117; 105; 110; 101; 73; 110; 116; 101; 108].

Definition vendor_of (cpuid : CpuId) : Vendor :=
  match list_find (fun e => function e = 0) cpuid with
  | Some (_, e) =>
      let s := le_bytes 4 (ebx e) ++ le_bytes 4 (edx e) ++ le_bytes 4 (ecx e) in
      if bool_decide (s = AuthenticAMD) then Amd
      else if bool_decide (s = GenuineIntel) then Intel
      else Other
  | None => Other
  end.

Definition set_reg (e : kvm_cpuid_entry2) (reg : Reg) (value : Z) : kvm_cpuid_entry2 :=
  match reg with
  | Eax => {| function := function e; index := index e; flags := flags e; eax := value; ebx := ebx e;
              ecx := ecx e; edx := edx e |}
  | Ebx => {| function := function e; index := index e; flags := flags e; eax := eax e; ebx := value;
              ecx := ecx e; edx := edx e |}
  | Ecx => {| function := function e; index := index e; flags := flags e; eax := eax e; ebx := ebx e;
              ecx := value; edx := edx e |}
  | Edx => {| function := function e; index := index e; flags := flags e; eax := eax e; ebx := ebx e;
              ecx := ecx e; edx := value |}
  end.

Definition get_reg (e : kvm_cpuid_entry2) (reg : Reg) : Z :=
  match reg with Eax => eax e | Ebx => ebx e | Ecx => ecx e | Edx => edx e end.

(** [e.function == function && e.index == index]. *)
Definition is_leaf (f i : Z) (e : kvm_cpuid_entry2) : bool := (function e =? f) && (index e =? i).

(** Change the first entry of a leaf, if there is one. *)
Fixpoint set_found (cpuid : CpuId) (f i : Z) (reg : Reg) (value : Z) : option CpuId :=
  match cpuid with
  | [] => None
  | e :: cpuid =>
      if is_leaf f i e then Some (set_reg e reg value :: cpuid) else cons e <$> set_found cpuid f i reg value
  end.

Section Patch.
Context {HC : CpuidCapacity}.

Definition set (cpuid : CpuId) (f i : Z) (reg : Reg) (value : Z) : CpuId :=
  match set_found cpuid f i reg value with
  | Some cpuid => cpuid
  | None =>
      let entry := set_reg {| function := f; index := i; flags := KVM_CPUID_FLAG_SIGNIFCANT_INDEX; eax := 0; ebx := 0;
                              ecx := 0; edx := 0 |} reg value in
      if (length cpuid <? CPUID_MAX)%nat then cpuid ++ [entry] else cpuid
  end.

Fixpoint get (cpuid : CpuId) (f i : Z) (reg : Reg) : Z :=
  match cpuid with
  | [] => 0
  | e :: cpuid => if is_leaf f i e then get_reg e reg else get cpuid f i reg
  end.

Definition LEVEL_INVALID : Z := 0.
Definition LEVEL_SMT : Z := 1.
Definition LEVEL_CORE : Z := 2.

Definition topology_level (level level_type : Z) : Z := Z.lor (Z.shiftl level_type 8) level.

(** [u32::BITS - x.leading_zeros()]. *)
Definition bit_length (x : Z) : Z := if x =? 0 then 0 else Z.log2 x + 1.

(** One cache subleaf. *)
Definition cache_eax (vendor : Vendor) (logical cores threads eax : Z) : Z :=
  let level := Z.land (Z.shiftr eax 5) 0x7 in
  let sharing := if 3 <=? level then logical else threads in
  let new_eax := Z.land eax (lnotw 32 (Z.shiftl 0xfff 14)) in
  let new_eax := Z.lor new_eax (Z.shiftl (Z.land (sharing - 1) 0xfff) 14) in
  if bool_decide (vendor = Intel) then
    Z.lor (Z.land new_eax (lnotw 32 (Z.shiftl 0x3f 26))) (Z.shiftl (Z.land (cores - 1) 0x3f) 26)
  else new_eax.

Definition patch_cache_sharing (cpuid : CpuId) (logical cores threads : Z) (vendor : Vendor) : CpuId :=
  let go leaf :=
    let subleaves := (fun e => (index e, eax e)) <$> filter (fun e => function e = leaf) cpuid in
    foldl (fun cpuid '(i, eax) =>
      if Z.land eax 0x1f =? 0 then cpuid
      else set cpuid leaf i Eax (cache_eax vendor logical cores threads eax)) cpuid subleaves in
  match vendor with
  | Amd => go 0x8000001d
  | Intel => go 4
  | Other => cpuid
  end.

(** The three subleaves of an extended topology leaf. *)
Definition patch_levels (cpuid : CpuId) (leaf thread_width threads package_shift logical x2apic_id : Z) : CpuId :=
  let cpuid := set cpuid leaf 0 Eax thread_width in
  let cpuid := set cpuid leaf 0 Ebx threads in
  let cpuid := set cpuid leaf 0 Ecx (topology_level 0 LEVEL_SMT) in
  let cpuid := set cpuid leaf 0 Edx x2apic_id in
  let cpuid := set cpuid leaf 1 Eax package_shift in
  let cpuid := set cpuid leaf 1 Ebx logical in
  let cpuid := set cpuid leaf 1 Ecx (topology_level 1 LEVEL_CORE) in
  let cpuid := set cpuid leaf 1 Edx x2apic_id in
  let cpuid := set cpuid leaf 2 Eax 0 in
  let cpuid := set cpuid leaf 2 Ebx 0 in
  let cpuid := set cpuid leaf 2 Ecx (topology_level 2 LEVEL_INVALID) in
  set cpuid leaf 2 Edx x2apic_id.

(** EBX of leaf 1: logical processors in bits 23:16, the APIC id in 31:24. *)
Definition leaf1_ebx (ebx logical vcpu_id : Z) : Z :=
  let ebx := Z.land ebx (lnotw 32 (Z.shiftl 0xff 16)) in
  let ebx := Z.lor ebx (Z.shiftl (Z.land logical 0xff) 16) in
  let ebx := Z.land ebx (lnotw 32 (Z.shiftl 0xff 24)) in
  Z.lor ebx (Z.shiftl (Z.land vcpu_id 0xff) 24).

Definition patch_amd (cpuid : CpuId) (logical threads thread_width x2apic_id : Z) : CpuId :=
  let ecx := Z.land (get cpuid 0x80000008 0 Ecx) (lnotw 32 0xff) in
  let ecx := Z.lor ecx (Z.land (logical - 1) 0xff) in
  let cpuid := set cpuid 0x80000008 0 Ecx ecx in
  let cpuid := set cpuid 0x8000001e 0 Eax x2apic_id in
  let core_id := Z.land (Z.shiftr x2apic_id thread_width) 0xff in
  let cpuid := set cpuid 0x8000001e 0 Ebx (Z.lor (Z.shiftl (threads - 1) 8) core_id) in
  let cpuid := set cpuid 0x8000001e 0 Ecx 0 in
  set cpuid 0x8000001e 0 Edx 0.

(** [vcpu_id] and the counts are what the caller has: a [u32] and two [u8]. *)
Definition patch_topology (cpuid : CpuId) (vcpu_id vcpu_count threads_per_core : Z) (vendor : Vendor) : CpuId :=
  let logical := Z.max vcpu_count 1 in
  let threads := Z.max 1 (Z.min threads_per_core 2) in
  let cores := (logical + threads - 1) / threads in
  let thread_width := bit_length (threads - 1) in
  let package_shift := thread_width + bit_length (cores - 1) in
  let cpuid := set cpuid 1 0 Ebx (leaf1_ebx (get cpuid 1 0 Ebx) logical vcpu_id) in
  let cpuid := set cpuid 1 0 Edx (Z.lor (get cpuid 1 0 Edx) (Z.shiftl 1 28)) in
  let cpuid := foldl (fun cpuid leaf =>
    patch_levels cpuid leaf thread_width threads package_shift logical vcpu_id) cpuid [0xb; 0x1f] in
  let cpuid := patch_cache_sharing cpuid logical cores threads vendor in
  if bool_decide (vendor = Amd) then patch_amd cpuid logical threads thread_width vcpu_id else cpuid.

(** * The paravirtual hint *)

Definition KVM_CPUID_SIGNATURE : Z := 0x40000000.
Definition KVM_CPUID_FEATURES : Z := 0x40000001.
Definition KVM_HINTS_REALTIME : Z := Z.shiftl 1 0.

Definition advertise_dedicated (cpuid : CpuId) : CpuId * bool :=
  if get cpuid KVM_CPUID_SIGNATURE 0 Eax <? KVM_CPUID_FEATURES then (cpuid, false)
  else (set cpuid KVM_CPUID_FEATURES 0 Edx (Z.lor (get cpuid KVM_CPUID_FEATURES 0 Edx) KVM_HINTS_REALTIME), true).

End Patch.
