(* ===== verification/CpuidFacts.v ===== *)
(** The topology a guest computes from its CPUID leaves is the one it was given:
    one package, whole cores or pairs of siblings, its own identity, and caches
    shared as the cores are; every other leaf is the host's. *)

From S2P Require Import Prelude Shared Cpuid.

Section Facts.
Context {HC : CpuidCapacity}.
Implicit Types (c : CpuId).

(** * Tables as functions *)

Definition has c (l : Z * Z) : bool := existsb (is_leaf l.1 l.2) c.

(** There is room for the leaves of [L] that [c] lacks. *)
Definition fits c (L : list (Z * Z)) : Prop :=
  (length c + length (filter (fun l => has c l = false) L) <= CPUID_MAX)%nat.

Definition same_reg (r r' : Reg) : bool :=
  match r, r' with Eax, Eax | Ebx, Ebx | Ecx, Ecx | Edx, Edx => true | _, _ => false end.

Lemma get_set_reg e r v r' : get_reg (set_reg e r v) r' = if same_reg r' r then v else get_reg e r'.
Proof. by destruct r, r'. Qed.

Lemma is_leaf_set_reg f i e r v : is_leaf f i (set_reg e r v) = is_leaf f i e.
Proof. by destruct r. Qed.

Lemma set_found_none c f i r v : set_found c f i r v = None <-> has c (f, i) = false.
Proof.
  induction c as [|e c IH]; [done|]. simpl. destruct (is_leaf f i e); [done|]. simpl. rewrite fmap_None. exact IH.
Qed.

Lemma set_found_shape c f i r v c' :
  set_found c f i r v = Some c' -> length c' = length c /\ forall l, has c' l = has c l.
Proof.
  revert c'. induction c as [|e c IH]; intros c'; [done|]. simpl. destruct (is_leaf f i e).
  - intros [= <-]. split; [done|]. intros l. simpl. by rewrite is_leaf_set_reg.
  - intros (c1 & E & ->)%fmap_Some. destruct (IH _ E) as [Hl Hh]. simpl. split; [by rewrite Hl|].
    intros l. by rewrite Hh.
Qed.

Lemma is_leaf_inj f i f' i' e : is_leaf f i e = true -> is_leaf f' i' e = (f' =? f) && (i' =? i).
Proof.
  unfold is_leaf. intros. bool_prop. subst. by rewrite (Z.eqb_sym f'), (Z.eqb_sym i').
Qed.

(** One register of one leaf. *)
Definition at_leaf (f i : Z) (r : Reg) (f' i' : Z) (r' : Reg) : bool := (f' =? f) && (i' =? i) && same_reg r' r.

Lemma get_set_found c f i r v c' f' i' r' :
  set_found c f i r v = Some c' -> get c' f' i' r' = if at_leaf f i r f' i' r' then v else get c f' i' r'.
Proof.
  unfold at_leaf. revert c'. induction c as [|e c IH]; intros c'; [done|]. simpl. destruct (is_leaf f i e) eqn:E.
  - intros [= <-]. simpl. rewrite is_leaf_set_reg, get_set_reg, (is_leaf_inj f i) by done.
    by destruct (f' =? f), (i' =? i); simpl.
  - intros (c1 & E1 & ->)%fmap_Some. simpl. destruct (is_leaf f' i' e) eqn:E'; [|by apply IH].
    destruct (f' =? f) eqn:Ef; [|done]. destruct (i' =? i) eqn:Ei; [|done]. bool_prop. subst. by rewrite E in E'.
Qed.

Lemma get_missing c f i r : has c (f, i) = false -> get c f i r = 0.
Proof. induction c as [|e c IH]; [done|]. simpl. destruct (is_leaf f i e); [done|]. exact IH. Qed.

Lemma get_snoc c e f i r :
  get (c ++ [e]) f i r = if has c (f, i) then get c f i r else if is_leaf f i e then get_reg e r else 0.
Proof. induction c as [|e' c IH]; [done|]. simpl. by destruct (is_leaf f i e'). Qed.

Lemma has_snoc c e l : has (c ++ [e]) l = has c l || is_leaf l.1 l.2 e.
Proof. unfold has. rewrite existsb_app. simpl. by rewrite orb_false_r. Qed.

(** A register set is read back, nothing else changes, and the room stays. *)
Lemma set_spec c L f i r v :
  fits c L -> (f, i) ∈ L ->
  fits (set c f i r v) L /\
  forall f' i' r', get (set c f i r v) f' i' r' = if at_leaf f i r f' i' r' then v else get c f' i' r'.
Proof.
  intros Hf Hin. unfold set. destruct (set_found c f i r v) as [c'|] eqn:E.
  - destruct (set_found_shape _ _ _ _ _ _ E) as [Hl Hh]. split; [|intros; by apply get_set_found].
    unfold fits. rewrite Hl. erewrite list_filter_iff; [exact Hf|]. intros l. simpl. by rewrite Hh.
  - apply set_found_none in E. set (e := set_reg _ r v).
    assert (forall f' i', is_leaf f' i' e = (f' =? f) && (i' =? i)) as He.
    { intros. unfold e, is_leaf. destruct r; simpl; by rewrite (Z.eqb_sym f), (Z.eqb_sym i). }
    assert (length (filter (fun l => has (c ++ [e]) l = false) L) <
            length (filter (fun l => has c l = false) L))%nat as Hlt.
    { clear Hf. induction L as [|l L IH]; [by apply elem_of_nil in Hin|]. rewrite !filter_cons.
      assert (forall L, length (filter (fun l => has (c ++ [e]) l = false) L) <=
        length (filter (fun l => has c l = false) L))%nat as Hle.
      { clear. induction L as [|l L IH]; [done|]. rewrite !filter_cons, has_snoc.
        destruct (has c l) eqn:E1; simpl; [done|].
        destruct (is_leaf l.1 l.2 e); simpl; lia. }
      apply elem_of_cons in Hin as [<-|Hin].
      - rewrite has_snoc, E. simpl. rewrite He, !Z.eqb_refl. simpl. specialize (Hle L). lia.
      - specialize (IH Hin). rewrite has_snoc. destruct (has c l) eqn:E1; simpl; [done|].
        destruct (is_leaf l.1 l.2 e); simpl; lia. }
    unfold fits in Hf. rewrite (proj2 (Nat.ltb_lt _ _)) by lia. split.
    + unfold fits. rewrite length_app. simpl. lia.
    + intros f' i' r'. rewrite get_snoc, He. unfold at_leaf.
      destruct ((f' =? f) && (i' =? i)) eqn:El; simpl.
      * bool_prop. subst. rewrite E. unfold e. rewrite get_set_reg.
        destruct (same_reg r' r); [done|]. rewrite get_missing by done. by destruct r'.
      * destruct (has c (f', i')) eqn:Eh; [done|]. by rewrite get_missing.
Qed.

(** [c] reads as [g], with room for [L]. *)
Definition shows c (L : list (Z * Z)) (g : Z -> Z -> Reg -> Z) : Prop :=
  fits c L /\ forall f i r, get c f i r = g f i r.

Lemma set_shows c L g f i r v :
  shows c L g -> (f, i) ∈ L ->
  shows (set c f i r v) L (fun f' i' r' => if at_leaf f i r f' i' r' then v else g f' i' r').
Proof.
  intros [Hf Hg] Hin. destruct (set_spec c L f i r v Hf Hin) as [Hf' Hg']. split; [done|].
  intros. rewrite Hg'. by case_match.
Qed.

(** A leaf already there can be set whatever the room. *)
Lemma set_present c f i r v :
  has c (f, i) = true ->
  (forall l, has (set c f i r v) l = has c l) /\ (forall L, fits c L -> fits (set c f i r v) L) /\
  forall f' i' r', get (set c f i r v) f' i' r' = if at_leaf f i r f' i' r' then v else get c f' i' r'.
Proof.
  intros Hh. unfold set. destruct (set_found c f i r v) as [c'|] eqn:E; [|apply set_found_none in E; congruence].
  destruct (set_found_shape _ _ _ _ _ _ E) as [Hl Hs]. split; [done|]. split; [|intros; by apply get_set_found].
  intros L HL. unfold fits. rewrite Hl. erewrite list_filter_iff; [exact HL|]. intros l. simpl. by rewrite Hs.
Qed.

(** * Extended topology *)

Definition level_leaves : list (Z * Z) := [(0xb, 0); (0xb, 1); (0xb, 2); (0x1f, 0); (0x1f, 1); (0x1f, 2)].
Definition patched_leaves : list (Z * Z) := (1, 0) :: level_leaves ++ [(0x80000008, 0); (0x8000001e, 0)].

(** The registers of the three levels. *)
Definition level_reg (width threads shift logical id i : Z) (r : Reg) : Z :=
  match r with
  | Eax => if i =? 0 then width else if i =? 1 then shift else 0
  | Ebx => if i =? 0 then threads else if i =? 1 then logical else 0
  | Ecx => if i =? 0 then topology_level 0 LEVEL_SMT else if i =? 1 then topology_level 1 LEVEL_CORE
           else topology_level 2 LEVEL_INVALID
  | Edx => id
  end.

Lemma patch_levels_shows c L g leaf width threads shift logical id :
  shows c L g -> (forall i, 0 <= i <= 2 -> (leaf, i) ∈ L) ->
  shows (patch_levels c leaf width threads shift logical id) L
    (fun f i r => if (f =? leaf) && in_range 0 3 i then level_reg width threads shift logical id i r else g f i r).
Proof.
  intros Hc HL.
  assert (forall c g i r v, shows c L g -> 0 <= i <= 2 ->
    shows (set c leaf i r v) L (fun f' i' r' => if at_leaf leaf i r f' i' r' then v else g f' i' r')) as Hs
    by (intros; apply set_shows; auto).
  unfold patch_levels.
  do 12 (eapply Hs in Hc; [|shelve]). destruct Hc as [Hf Hg]. split; [exact Hf|].
  intros f i r. rewrite Hg. unfold at_leaf. destruct (f =? leaf); [|done]. simpl.
  destruct (in_range 0 3 i) eqn:E.
  - apply in_range_spec in E. assert (i = 0 \/ i = 1 \/ i = 2) as [-> | [-> | ->]] by lia; by destruct r.
  - unfold in_range in E. assert ((i =? 0) = false /\ (i =? 1) = false /\ (i =? 2) = false) as (-> & -> & ->)
      by (rewrite !Z.eqb_neq; bool_prop; destruct E; bool_prop; lia).
    done.
Unshelve.
  all: lia.
Qed.

(** * Caches *)

Definition cache_leaf (vendor : Vendor) : option Z :=
  match vendor with Amd => Some 0x8000001d | Intel => Some 4 | Other => None end.

Definition cache_step (vendor : Vendor) (leaf logical cores threads : Z) c (x : Z * Z) : CpuId :=
  if Z.land x.2 0x1f =? 0 then c else set c leaf x.1 Eax (cache_eax vendor logical cores threads x.2).

Definition subleaves c (leaf : Z) : list (Z * Z) :=
  (fun e => (index e, eax e)) <$> filter (fun e => function e = leaf) c.

Lemma patch_cache_eq c logical cores threads vendor :
  patch_cache_sharing c logical cores threads vendor =
    match cache_leaf vendor with
    | Some leaf => foldl (cache_step vendor leaf logical cores threads) c (subleaves c leaf)
    | None => c
    end.
Proof.
  assert (forall vendor leaf l c, foldl (fun c '(i, eax) => if Z.land eax 0x1f =? 0 then c
    else set c leaf i Eax (cache_eax vendor logical cores threads eax)) c l =
    foldl (cache_step vendor leaf logical cores threads) c l) as H.
  { intros v leaf l. induction l as [|[i e] l IH]; intros c'; [done|]. simpl. by rewrite IH. }
  unfold patch_cache_sharing. destruct vendor; simpl; [apply H|apply H|done].
Qed.

Lemma subleaf_has c leaf x : x ∈ subleaves c leaf -> has c (leaf, x.1) = true.
Proof.
  unfold subleaves. intros (e & -> & [He Hc]%list_elem_of_filter)%list_elem_of_fmap. simpl.
  apply existsb_exists. exists e. split; [by apply list_elem_of_In|]. unfold is_leaf. simpl.
  by rewrite He, !Z.eqb_refl.
Qed.

Lemma subleaf_get c leaf i e :
  NoDup (subleaves c leaf).*1 -> (i, e) ∈ subleaves c leaf -> get c leaf i Eax = e.
Proof.
  unfold subleaves. induction c as [|x c IH]; [by intros _ ?%elem_of_nil|]. rewrite filter_cons. simpl. unfold is_leaf.
  case_decide as Hx.
  - rewrite Hx, Z.eqb_refl. rewrite fmap_cons, fmap_cons. simpl. intros [Hi Hn]%NoDup_cons.
    rewrite elem_of_cons. intros [[= -> ->]|Hin]; [by rewrite Z.eqb_refl|].
    destruct (index x =? i) eqn:E; bool_prop; [|by apply IH]. exfalso. apply Hi. rewrite E.
    by apply (list_elem_of_fmap_2' fst _ (i, e)).
  - rewrite (proj2 (Z.eqb_neq _ _)) by done. apply IH.
Qed.

(** Only EAX of the cache leaf changes; each of its subleaves as computed. *)
Lemma cache_fold vendor leaf logical cores threads l c :
  (forall x, x ∈ l -> has c (leaf, x.1) = true) ->
  let c' := foldl (cache_step vendor leaf logical cores threads) c l in
  (forall L, fits c L -> fits c' L) /\
  (forall f i r, f <> leaf \/ r <> Eax \/ i ∉ l.*1 -> get c' f i r = get c f i r) /\
  (NoDup l.*1 -> forall i e, (i, e) ∈ l -> get c leaf i Eax = e ->
     get c' leaf i Eax = if Z.land e 0x1f =? 0 then e else cache_eax vendor logical cores threads e).
Proof.
  revert c. induction l as [|x l IH]; intros c Hl; simpl.
  { split_and!; [done..|]. by intros _ i e ?%elem_of_nil. }
  set (c1 := cache_step vendor leaf logical cores threads c x).
  assert ((forall l, has c1 l = has c l) /\ (forall L, fits c L -> fits c1 L) /\
    forall f i r, get c1 f i r = if at_leaf leaf x.1 Eax f i r && negb (Z.land x.2 0x1f =? 0)
      then cache_eax vendor logical cores threads x.2 else get c f i r) as (Hh & Hf & Hg).
  { unfold c1, cache_step. destruct (Z.land x.2 0x1f =? 0); simpl.
    - split_and!; [done..|]. intros. by rewrite andb_false_r.
    - destruct (set_present c leaf x.1 Eax (cache_eax vendor logical cores threads x.2)) as (H1 & H2 & H3).
      { apply Hl. set_solver. }
      split_and!; [done..|]. intros. by rewrite H3, andb_true_r. }
  destruct (IH c1) as (IF & IG & IV); [intros y Hy; rewrite Hh; apply Hl; set_solver|].
  split_and!.
  - auto.
  - intros f i r Hd. rewrite not_elem_of_cons in Hd. rewrite IG by naive_solver. rewrite Hg. unfold at_leaf.
    destruct (f =? leaf) eqn:Ef; [|done]. destruct (i =? x.1) eqn:Ei; [|done]. bool_prop. destruct r; [|done..].
    naive_solver.
  - intros [Hx Hn]%NoDup_cons i e. rewrite elem_of_cons. intros [<-|Hin] He.
    + rewrite IG by auto. rewrite Hg. unfold at_leaf. simpl. rewrite !Z.eqb_refl. simpl.
      by destruct (Z.land e 31 =? 0).
    + apply IV; [done..|]. rewrite Hg. unfold at_leaf. destruct (i =? x.1) eqn:Ei; bool_prop.
      * exfalso. apply Hx. rewrite <- Ei. by apply (list_elem_of_fmap_2' fst _ (i, e)).
      * by rewrite andb_false_r.
Qed.

(** * What the guest computes *)

Lemma bit_length_bound x : 0 <= x -> 0 <= bit_length x /\ x < 2 ^ bit_length x.
Proof.
  intros Hx. unfold bit_length. destruct (x =? 0) eqn:E; bool_prop; [subst; simpl; lia|].
  pose proof (Z.log2_spec x ltac:(lia)). pose proof (Z.log2_nonneg x). rewrite Z.add_1_r. lia.
Qed.

(** The identity of a vCPU in the width of its fields: the core it is a thread
    of, and one package for all. *)
Lemma identity_fits id count t :
  0 <= id < count -> t = 1 \/ t = 2 ->
  Z.shiftr id (bit_length (t - 1)) = id / t /\
  Z.shiftr id (bit_length (t - 1) + bit_length ((count + t - 1) / t - 1)) = 0.
Proof.
  intros Hid Ht. assert (2 ^ bit_length (t - 1) = t /\ 0 <= bit_length (t - 1)) as [Hw Hw0]
    by (by destruct Ht as [-> | ->]).
  set (cores := (count + t - 1) / t). assert (1 <= cores /\ count <= t * cores) as [Hc1 Hc].
  { unfold cores. destruct Ht as [-> | ->]; [rewrite Z.div_1_r; lia|].
    pose proof (Z.div_mod (count + 2 - 1) 2). pose proof (Z.mod_pos_bound (count + 2 - 1) 2). lia. }
  destruct (bit_length_bound (cores - 1)) as [Hb0 Hb]; [lia|].
  rewrite !Z.shiftr_div_pow2 by lia. split; [by rewrite Hw|]. apply Z.div_small. rewrite Z.pow_add_r, Hw by lia.
  nia.
Qed.

(** The table after leaf 1 and the extended topology. *)
Definition base_view cpuid (width threads shift logical id f i : Z) (r : Reg) : Z :=
  if ((f =? 0x1f) || (f =? 0xb)) && in_range 0 3 i then level_reg width threads shift logical id i r
  else if (f =? 1) && (i =? 0) then
    match r with
    | Ebx => leaf1_ebx (get cpuid 1 0 Ebx) logical id
    | Edx => Z.lor (get cpuid 1 0 Edx) (Z.shiftl 1 28)
    | _ => get cpuid 1 0 r
    end
  else get cpuid f i r.

Definition patch_base cpuid (width threads shift logical id : Z) : CpuId :=
  let c := set cpuid 1 0 Ebx (leaf1_ebx (get cpuid 1 0 Ebx) logical id) in
  let c := set c 1 0 Edx (Z.lor (get c 1 0 Edx) (Z.shiftl 1 28)) in
  foldl (fun c leaf => patch_levels c leaf width threads shift logical id) c [0xb; 0x1f].

Lemma patch_base_shows cpuid width threads shift logical id :
  fits cpuid patched_leaves ->
  shows (patch_base cpuid width threads shift logical id) patched_leaves
    (base_view cpuid width threads shift logical id).
Proof.
  intros Hf. unfold patch_base. cbn [foldl].
  assert (shows cpuid patched_leaves (get cpuid)) as H by done.
  apply (set_shows _ _ _ 1 0 Ebx (leaf1_ebx (get cpuid 1 0 Ebx) logical id)) in H; [|unfold patched_leaves; set_solver].
  set (c1 := set cpuid 1 0 Ebx _) in *.
  assert (get c1 1 0 Edx = get cpuid 1 0 Edx) as -> by (by rewrite (proj2 H)).
  apply (set_shows _ _ _ 1 0 Edx (Z.lor (get cpuid 1 0 Edx) (Z.shiftl 1 28))) in H; [|unfold patched_leaves; set_solver].
  assert (forall leaf i, leaf = 0xb \/ leaf = 0x1f -> 0 <= i <= 2 -> (leaf, i) ∈ patched_leaves) as HL.
  { intros leaf i Hl Hi. assert (i = 0 \/ i = 1 \/ i = 2) as Hi3 by lia.
    unfold patched_leaves, level_leaves. naive_solver set_solver. }
  eapply (patch_levels_shows _ _ _ 0xb) in H; [|intros; apply HL; auto].
  eapply (patch_levels_shows _ _ _ 0x1f) in H; [|intros; apply HL; auto].
  destruct H as [Hf' Hg]. split; [exact Hf'|]. intros f i r. rewrite Hg. unfold base_view.
  destruct (f =? 0x1f) eqn:E1, (f =? 0xb) eqn:E2, (in_range 0 3 i) eqn:E3; simpl; try done; unfold at_leaf;
    destruct (f =? 1) eqn:E4, (i =? 0) eqn:E5; simpl; try done; bool_prop; subst; by destruct r.
Qed.

(** Patching the caches is about their leaf only. *)
Lemma patch_cache_keeps c logical cores threads vendor :
  let c' := patch_cache_sharing c logical cores threads vendor in
  (forall L, fits c L -> fits c' L) /\
  forall f i r, cache_leaf vendor <> Some f -> get c' f i r = get c f i r.
Proof.
  simpl. rewrite patch_cache_eq. destruct (cache_leaf vendor) as [leaf|]; [|done].
  destruct (cache_fold vendor leaf logical cores threads (subleaves c leaf) c) as (Hf & Hg & _).
  { intros x Hx. by apply subleaf_has. }
  split; [done|]. intros f i r Hn. apply Hg. left. congruence.
Qed.

Definition amd_view (g : Z -> Z -> Reg -> Z) (logical threads width id f i : Z) (r : Reg) : Z :=
  if (f =? 0x8000001e) && (i =? 0) then
    match r with
    | Eax => id
    | Ebx => Z.lor (Z.shiftl (threads - 1) 8) (Z.land (Z.shiftr id width) 0xff)
    | _ => 0
    end
  else if at_leaf 0x80000008 0 Ecx f i r then put (g 0x80000008 0 Ecx) 0 8 (logical - 1)
  else g f i r.

Lemma patch_amd_shows c L g logical threads width id :
  shows c L g -> (0x80000008, 0) ∈ L -> (0x8000001e, 0) ∈ L ->
  shows (patch_amd c logical threads width id) L (amd_view g logical threads width id).
Proof.
  intros H H8 He. unfold patch_amd. rewrite (proj2 H).
  eapply (set_shows _ _ _ 0x80000008 0 Ecx) in H; [|done].
  eapply (set_shows _ _ _ 0x8000001e 0 Eax) in H; [|done].
  eapply (set_shows _ _ _ 0x8000001e 0 Ebx) in H; [|done].
  eapply (set_shows _ _ _ 0x8000001e 0 Ecx) in H; [|done].
  eapply (set_shows _ _ _ 0x8000001e 0 Edx) in H; [|done].
  destruct H as [Hf Hg]. split; [exact Hf|]. intros f i r. rewrite Hg. unfold amd_view, at_leaf, put.
  rewrite Z.shiftl_0_r. destruct (f =? 0x8000001e), (i =? 0); simpl; try done. by destruct r.
Qed.

Definition clamp_threads (threads_per_core : Z) : Z := Z.max 1 (Z.min threads_per_core 2).

Definition patch_rest c (logical cores threads width id : Z) (vendor : Vendor) : CpuId :=
  let c := patch_cache_sharing c logical cores threads vendor in
  if bool_decide (vendor = Amd) then patch_amd c logical threads width id else c.

Lemma patch_topology_eq cpuid id count threads_per_core vendor :
  patch_topology cpuid id count threads_per_core vendor =
    let logical := Z.max count 1 in
    let t := clamp_threads threads_per_core in
    let cores := (logical + t - 1) / t in
    let width := bit_length (t - 1) in
    patch_rest (patch_base cpuid width t (width + bit_length (cores - 1)) logical id) logical cores t width id vendor.
Proof. unfold patch_topology, patch_rest, patch_base, clamp_threads. cbv beta zeta. reflexivity. Qed.

(** The table a guest reads, but for the caches. *)
Lemma patch_rest_view c g logical cores threads width id vendor f i r :
  shows c patched_leaves g -> cache_leaf vendor <> Some f ->
  get (patch_rest c logical cores threads width id vendor) f i r =
    if bool_decide (vendor = Amd) then
      amd_view (get (patch_cache_sharing c logical cores threads vendor)) logical threads width id f i r
    else g f i r.
Proof.
  intros [Hf Hg] Hn. unfold patch_rest.
  destruct (patch_cache_keeps c logical cores threads vendor) as [Hf' Hk]. case_bool_decide as Hv.
  - apply (patch_amd_shows _ patched_leaves); [split; [by apply Hf'|done]|unfold patched_leaves; set_solver..].
  - by rewrite Hk, Hg.
Qed.

Lemma amd_view_else g logical threads width id f i r :
  f <> 0x8000001e -> f <> 0x80000008 -> amd_view g logical threads width id f i r = g f i r.
Proof.
  intros H1 H2. unfold amd_view, at_leaf. by rewrite (proj2 (Z.eqb_neq _ _) H1), (proj2 (Z.eqb_neq _ _) H2).
Qed.

(** Leaves the vendor's own pass does not reach. *)
Lemma patch_rest_base c g logical cores threads width id vendor f i r :
  shows c patched_leaves g -> cache_leaf vendor <> Some f -> f <> 0x8000001e -> f <> 0x80000008 ->
  get (patch_rest c logical cores threads width id vendor) f i r = g f i r.
Proof.
  intros Hs Hn H1 H2. rewrite (patch_rest_view c g) by done. case_bool_decide; [|done].
  rewrite amd_view_else by done. destruct Hs as [_ Hg].
  by rewrite (proj2 (patch_cache_keeps c logical cores threads vendor)), Hg.
Qed.

Lemma low_leaf_not_cache vendor f : f < 0x8000001d -> f <> 4 -> cache_leaf vendor <> Some f.
Proof. intros H1 H2. destruct vendor; simpl; intros [= <-]; lia. Qed.

Lemma amd_leaf_not_cache f : f = 0x80000008 \/ f = 0x8000001e -> cache_leaf Amd <> Some f.
Proof. intros [-> | ->]; discriminate. Qed.

Lemma leaf1_fields x count id :
  is_word 8 count -> is_word 8 id ->
  field (leaf1_ebx x count id) 16 8 = count /\ field (leaf1_ebx x count id) 24 8 = id.
Proof.
  intros Hc Hi. assert (leaf1_ebx x count id = put (put x 16 8 count) 24 8 id) as -> by done. split.
  - rewrite field_put_other by lia. apply field_put; done || lia.
  - apply field_put; done || lia.
Qed.

Lemma amd_ebx_fields t id :
  t = 1 \/ t = 2 -> is_word 8 id ->
  let e := Z.lor (Z.shiftl (t - 1) 8) (Z.land id 0xff) in field e 0 8 = id /\ field e 8 8 = t - 1.
Proof.
  intros Ht Hi. simpl. change 0xff with (2 ^ 8 - 1). rewrite land_ones_mod, Z.mod_small by (done || lia).
  unfold field. rewrite Z.shiftr_0_r. change (2 ^ 8 - 1) with (Z.ones 8).
  rewrite !Z.land_lor_distr_l, Z.shiftr_lor, Z.land_lor_distr_l.
  rewrite (Z.shiftr_div_pow2 id), (Z.div_small id) by (done || lia).
  rewrite (Z.land_ones id), Z.mod_small by (done || lia). by destruct Ht as [-> | ->]; split.
Qed.

(** Leaves that are not rewritten. *)
Lemma base_view_else cpuid width threads shift logical id f i r :
  (f, i) ∉ patched_leaves -> base_view cpuid width threads shift logical id f i r = get cpuid f i r.
Proof.
  intros Hn. unfold base_view. destruct (((f =? 0x1f) || (f =? 0xb)) && in_range 0 3 i) eqn:E.
  - exfalso. apply Hn. apply andb_true_iff in E as [Ef Ei]. apply in_range_spec in Ei.
    assert (i = 0 \/ i = 1 \/ i = 2) as Hi by lia. apply orb_true_iff in Ef. rewrite !Z.eqb_eq in Ef.
    unfold patched_leaves, level_leaves. naive_solver set_solver.
  - destruct ((f =? 1) && (i =? 0)) eqn:E'; [|done]. exfalso. apply Hn. apply andb_true_iff in E' as [->%Z.eqb_eq ->%Z.eqb_eq].
    unfold patched_leaves. set_solver.
Qed.

Lemma amd_view_frame g logical threads width id f i r :
  (f, i) ∉ patched_leaves -> amd_view g logical threads width id f i r = g f i r.
Proof.
  intros Hn. unfold amd_view, at_leaf. assert ((f, i) <> (0x80000008, 0) /\ (f, i) <> (0x8000001e, 0)) as [H1 H2]
    by (unfold patched_leaves in Hn; set_solver).
  destruct (f =? 0x8000001e) eqn:E1, (f =? 0x80000008) eqn:E2, (i =? 0) eqn:E3; bool_prop; subst; done.
Qed.

Lemma patch_rest_frame c g logical cores threads width id vendor f i r :
  shows c patched_leaves g -> cache_leaf vendor <> Some f -> (f, i) ∉ patched_leaves ->
  get (patch_rest c logical cores threads width id vendor) f i r = g f i r.
Proof.
  intros Hs Hc Hn. rewrite (patch_rest_view c g) by done. case_bool_decide; [|done].
  rewrite amd_view_frame by done. rewrite (proj2 (patch_cache_keeps c logical cores threads vendor)) by done. apply Hs.
Qed.

(** The identity a vCPU reads in the extended topology leaves is its number. *)
Lemma topology_identity cpuid id count threads_per_core vendor leaf :
  0 <= id < count -> count <= 255 -> fits cpuid patched_leaves -> leaf ∈ [0xb; 0x1f] ->
  get (patch_topology cpuid id count threads_per_core vendor) leaf 0 Edx = id.
Proof.
  intros Hid Hc Hf Hl. rewrite patch_topology_eq. replace (Z.max count 1) with count by lia. cbv zeta.
  set (t := clamp_threads threads_per_core). set (width := bit_length (t - 1)). set (cores := (count + t - 1) / t).
  set (shift := width + bit_length (cores - 1)). pose proof (patch_base_shows cpuid width t shift count id Hf) as Hs.
  set (b := patch_base cpuid width t shift count id) in *. clearbody b.
  assert (leaf = 0xb \/ leaf = 0x1f) as Hl' by set_solver.
  rewrite (patch_rest_base b (base_view cpuid width t shift count id)); [|done|apply low_leaf_not_cache|..]; try lia.
  unfold base_view. by destruct Hl' as [-> | ->].
Qed.

(** C31: The guest computes the topology it was given.  For any vCPU of a guest of
    at most 255, and any host table with room for the leaves, after patching:
    both extended topology leaves give the vCPU's own identity, one or two
    threads a core, every vCPU in the package, a core number that is the
    identity divided by the threads (so two vCPUs are siblings exactly when they
    are a pair) and package zero, and end after two levels; leaf 1 counts the
    vCPUs and gives the identity with the bit that makes it readable; AMD's own
    leaves agree; and no leaf but these and the caches' is changed. *)
Theorem topology_told cpuid id count threads_per_core vendor :
  0 <= id < count -> count <= 255 -> fits cpuid patched_leaves ->
  let t := clamp_threads threads_per_core in
  let c := patch_topology cpuid id count threads_per_core vendor in
  (forall leaf, leaf ∈ [0xb; 0x1f] ->
     get c leaf 0 Ebx = t /\ get c leaf 1 Ebx = count /\
     field (get c leaf 0 Ecx) 8 8 = LEVEL_SMT /\ field (get c leaf 1 Ecx) 8 8 = LEVEL_CORE /\
     field (get c leaf 2 Ecx) 8 8 = LEVEL_INVALID /\ (forall i, 0 <= i <= 2 -> get c leaf i Edx = id) /\
     Z.shiftr id (get c leaf 0 Eax) = id / t /\ Z.shiftr id (get c leaf 1 Eax) = 0) /\
  (field (get c 1 0 Ebx) 16 8 = count /\ field (get c 1 0 Ebx) 24 8 = id /\ Z.testbit (get c 1 0 Edx) 28 = true) /\
  (vendor = Amd ->
     field (get c 0x80000008 0 Ecx) 0 8 = count - 1 /\ get c 0x8000001e 0 Eax = id /\
     field (get c 0x8000001e 0 Ebx) 0 8 = id / t /\ field (get c 0x8000001e 0 Ebx) 8 8 = t - 1) /\
  (forall f i r, (f, i) ∉ patched_leaves -> cache_leaf vendor <> Some f -> get c f i r = get cpuid f i r).
Proof.
  intros Hid Hc Hf t c. unfold c. rewrite patch_topology_eq. replace (Z.max count 1) with count by lia. cbv zeta. fold t.
  assert (t = 1 \/ t = 2) as Ht by (unfold t, clamp_threads; lia).
  destruct (identity_fits id count t Hid Ht) as [Hcore Hpkg].
  set (width := bit_length (t - 1)) in *. set (cores := (count + t - 1) / t) in *.
  set (shift := width + bit_length (cores - 1)) in *.
  pose proof (patch_base_shows cpuid width t shift count id Hf) as Hs.
  set (b := patch_base cpuid width t shift count id) in *. clearbody b.
  assert (forall f i r, f < 0x80000008 -> f <> 4 ->
    get (patch_rest b count cores t width id vendor) f i r = base_view cpuid width t shift count id f i r) as Hlow.
  { intros. apply (patch_rest_base b _); [done|apply low_leaf_not_cache|..]; lia. }
  split.
  { intros leaf Hl. assert (forall i r, 0 <= i <= 2 -> get (patch_rest b count cores t width id vendor) leaf i r =
      level_reg width t shift count id i r) as Hlev.
    { intros i r Hi. assert (leaf = 0xb \/ leaf = 0x1f) as Hl' by set_solver. rewrite Hlow by lia. unfold base_view.
      rewrite (proj2 (in_range_spec 0 3 i)) by lia. by destruct Hl' as [-> | ->]. }
    split_and!; [rewrite Hlev by lia; done..| |rewrite Hlev by lia; exact Hcore|rewrite Hlev by lia; exact Hpkg].
    intros i Hi. by rewrite Hlev. }
  split.
  { rewrite !Hlow by lia. destruct (leaf1_fields (get cpuid 1 0 Ebx) count id) as [H1 H2]; [unfold is_word; lia..|].
    split; [exact H1|]. split; [exact H2|]. change (Z.testbit (Z.lor (get cpuid 1 0 Edx) (Z.shiftl 1 28)) 28 = true).
    by rewrite Z.lor_spec, orb_true_r. }
  split.
  { intros ->. rewrite !(patch_rest_view b (base_view cpuid width t shift count id)) by (done || apply amd_leaf_not_cache; auto).
    rewrite bool_decide_true by done. assert (is_word 8 (id / t)) as Hw8 by (unfold is_word; destruct Ht as [-> | ->]; split;
      [apply Z.div_pos; lia|apply Z.div_lt_upper_bound; lia|apply Z.div_pos; lia|apply Z.div_lt_upper_bound; lia]).
    destruct (amd_ebx_fields t (id / t) Ht Hw8) as [H1 H2]. rewrite <- Hcore in H1, H2 |- *. split_and!; [|done|exact H1|exact H2].
    apply field_put; unfold is_word; lia. }
  intros f i r Hin Hn. rewrite (patch_rest_frame b (base_view cpuid width t shift count id)) by done.
  by apply base_view_else.
Qed.

(** Setting one leaf leaves the enumeration of another. *)
Lemma subleaves_set c f i r v leaf : f <> leaf -> subleaves (set c f i r v) leaf = subleaves c leaf.
Proof.
  intros Hn. assert (forall c', set_found c f i r v = Some c' -> subleaves c' leaf = subleaves c leaf) as Hf.
  { unfold subleaves. induction c as [|e c IH]; [done|]. simpl. intros c'. destruct (is_leaf f i e) eqn:E.
    - intros [= <-]. unfold is_leaf in E. apply andb_true_iff in E as [E%Z.eqb_eq _]. rewrite !filter_cons_False; [done|congruence|].
      destruct r; simpl; congruence.
    - intros (c1 & Hc1 & ->)%fmap_Some. rewrite !filter_cons. specialize (IH _ Hc1). case_decide; [|done].
      by rewrite !fmap_cons, IH. }
  unfold set. destruct (set_found c f i r v) as [c'|]; [by apply Hf|]. case_match; [|done].
  unfold subleaves. rewrite filter_app, filter_cons_False, filter_nil, app_nil_r; [done|]. destruct r; simpl; congruence.
Qed.

Lemma subleaves_levels c leaf' width threads shift logical id leaf :
  leaf' <> leaf -> subleaves (patch_levels c leaf' width threads shift logical id) leaf = subleaves c leaf.
Proof. intros. unfold patch_levels. by rewrite !subleaves_set. Qed.

Lemma subleaves_base c width threads shift logical id leaf :
  leaf <> 1 -> leaf <> 0xb -> leaf <> 0x1f ->
  subleaves (patch_base c width threads shift logical id) leaf = subleaves c leaf.
Proof. intros. unfold patch_base. cbn [foldl]. by rewrite !subleaves_levels, !subleaves_set. Qed.

(** The fields of a cache's EAX. *)
Lemma cache_eax_fields vendor logical cores threads e :
  is_word 12 (logical - 1) -> is_word 12 (threads - 1) ->
  let e' := cache_eax vendor logical cores threads e in
  field e' 14 12 = (if 3 <=? field e 5 3 then logical else threads) - 1 /\ field e' 0 14 = field e 0 14.
Proof.
  intros Hl Ht. simpl. unfold cache_eax. change (Z.land (Z.shiftr e 5) 7) with (field e 5 3).
  set (sharing := if 3 <=? field e 5 3 then logical else threads).
  assert (is_word 12 (sharing - 1)) as Hs by (unfold sharing; by case_match).
  change (Z.lor (Z.land e (lnotw 32 (Z.shiftl 0xfff 14))) (Z.shiftl (Z.land (sharing - 1) 0xfff) 14))
    with (put e 14 12 (sharing - 1)).
  assert (forall x, Z.lor (Z.land x (lnotw 32 (Z.shiftl 0x3f 26))) (Z.shiftl (Z.land (cores - 1) 0x3f) 26) =
    put x 26 6 (cores - 1)) as -> by done.
  case_bool_decide; rewrite ?(field_put_other _ 26) by lia; rewrite field_put, field_put_other by (done || lia); done.
Qed.

(** The guest is told which vCPUs share which cache.  Where the host
    enumerates its caches under distinct subleaves, each cache of level three
    and up is shared by every vCPU and each one below by the threads of one
    core, with its type, level and the rest of the low bits as the host has
    them; the terminator of the enumeration stays as it is. *)
Theorem caches_told cpuid id count threads_per_core vendor leaf i e :
  0 <= id < count -> count <= 255 -> fits cpuid patched_leaves ->
  cache_leaf vendor = Some leaf -> NoDup (subleaves cpuid leaf).*1 -> (i, e) ∈ subleaves cpuid leaf ->
  let e' := get (patch_topology cpuid id count threads_per_core vendor) leaf i Eax in
  if field e 0 5 =? 0 then e' = e
  else field e' 14 12 + 1 = (if 3 <=? field e 5 3 then count else clamp_threads threads_per_core) /\
       field e' 0 14 = field e 0 14.
Proof.
  intros Hid Hc Hf Hleaf Hnd Hin. cbv zeta. rewrite patch_topology_eq. replace (Z.max count 1) with count by lia.
  cbv zeta. set (t := clamp_threads threads_per_core). assert (t = 1 \/ t = 2) as Ht by (unfold t, clamp_threads; lia).
  set (width := bit_length (t - 1)). set (cores := (count + t - 1) / t). set (shift := width + bit_length (cores - 1)).
  assert (leaf = 4 \/ leaf = 0x8000001d) as Hl by (destruct vendor; naive_solver).
  assert (forall i, (leaf, i) ∉ patched_leaves) as Hnp
    by (intros; unfold patched_leaves, level_leaves; destruct Hl as [-> | ->]; set_solver).
  pose proof (patch_base_shows cpuid width t shift count id Hf) as Hs.
  pose proof (subleaves_base cpuid width t shift count id leaf ltac:(lia) ltac:(lia) ltac:(lia)) as Hsub.
  set (b := patch_base cpuid width t shift count id) in *. clearbody b.
  destruct (cache_fold vendor leaf count cores t (subleaves b leaf) b) as (Hff & _ & Hv).
  { intros x Hx. by apply subleaf_has. }
  rewrite Hsub in Hv, Hff. specialize (Hv Hnd i e Hin).
  assert (get (patch_rest b count cores t width id vendor) leaf i Eax =
    get (patch_cache_sharing b count cores t vendor) leaf i Eax) as ->.
  { unfold patch_rest. case_bool_decide as Ha; [|done].
    rewrite (proj2 (patch_amd_shows (patch_cache_sharing b count cores t vendor) patched_leaves (get (patch_cache_sharing b count cores t vendor))
      count t width id ltac:(split; [apply patch_cache_keeps, Hs|done])
      ltac:(unfold patched_leaves; set_solver) ltac:(unfold patched_leaves; set_solver))).
    by apply amd_view_frame. }
  rewrite patch_cache_eq, Hleaf, Hsub, Hv;
    [|rewrite (proj2 Hs), base_view_else by done; by apply subleaf_get].
  change (Z.land e 31) with (field e 0 5). destruct (field e 0 5 =? 0); [done|].
  destruct (cache_eax_fields vendor count cores t e) as [H1 H2]; [unfold is_word; lia..|].
  split; [|exact H2]. rewrite H1. case_match; lia.
Qed.

End Facts.

(** * A host of sixteen cores and thirty-two threads *)

Definition entry (f i a b c d : Z) : kvm_cpuid_entry2 :=
  {| function := f; index := i; flags := 0; eax := a; ebx := b; ecx := c; edx := d |}.

Definition host_like_cpuid : CpuId :=
  [entry 0 0 0 0x68747541 0x444d4163 0x69746e65; entry 1 0 0 (Z.shiftl 32 16) 0 0;
   entry 0xb 0 1 2 (Z.shiftl 1 8) 0; entry 0xb 1 5 32 (Z.shiftl 2 8) 0; entry 0x80000008 0 0 0 15 0;
   entry 0x8000001d 0 (1 + 32 + Z.shiftl 1 14) 0 0 0; entry 0x8000001d 2 (3 + 64 + Z.shiftl 1 14) 0 0 0;
   entry 0x8000001d 3 (3 + 96 + Z.shiftl 15 14) 0 0 0; entry 0x8000001d 4 0 0 0 0].

Definition kvm_capacity : CpuidCapacity := {| CPUID_MAX := 80 |}.

Lemma topology_told_witness :
  vendor_of host_like_cpuid = Amd /\
  let c := @patch_topology kvm_capacity host_like_cpuid 3 6 2 Amd in
  field (get c 0x8000001e 0 Ebx) 0 8 = 3 / 2 /\ get c 0xb 1 Ebx = 6.
Proof.
  split; [vm_compute; reflexivity|].
  destruct (@topology_told kvm_capacity host_like_cpuid 3 6 2 Amd) as (H1 & _ & H2 & _);
    [lia|lia|by apply Nat.leb_le; vm_compute|].
  split; [by apply (H2 eq_refl)|]. destruct (H1 0xb) as (_ & H & _); [apply elem_of_cons; by left|]. exact H.
Defined.

Lemma caches_told_witness :
  field (get (@patch_topology kvm_capacity host_like_cpuid 3 6 2 Amd) 0x8000001d 3 Eax) 14 12 + 1 = 6.
Proof.
  apply (@caches_told kvm_capacity host_like_cpuid 3 6 2 Amd 0x8000001d 3 (3 + 96 + Z.shiftl 15 14));
    [lia|lia|by apply Nat.leb_le; vm_compute|done| |].
  - apply (bool_decide_unpack _). vm_compute. exact I.
  - apply (bool_decide_unpack _). vm_compute. exact I.
Defined.
