(* ===== verification/Boot.v ===== *)
(** What the bootstrap processor starts from: the GDT of [vmm/src/gdt.rs], the
    registers and page tables of [vmm/src/regs.rs], and the zero page of
    [vmm/src/boot.rs].

    The vCPU is KVM's ([VcpuFd]); the loader and the layout of [boot_params] are
    linux-loader's.  Both are classes here. *)

From S2P Require Import Prelude Layout GuestMem.

Module Gdt.

Definition gdt_entry (flags base limit : Z) : Z :=
  Z.lor (Z.lor (Z.lor (Z.lor
    (Z.shiftl (Z.land base 0xff000000) (56 - 24))
    (Z.shiftl (Z.land flags 0x0000f0ff) 40))
    (Z.shiftl (Z.land limit 0x000f0000) (48 - 16)))
    (Z.shiftl (Z.land base 0x00ffffff) 16))
    (Z.land limit 0x0000ffff).

Definition get_base (entry : Z) : Z :=
  Z.lor (Z.lor
    (Z.shiftr (Z.land entry 0xFF00000000000000) 32)
    (Z.shiftr (Z.land entry 0x000000FF00000000) 16))
    (Z.shiftr (Z.land entry 0x00000000FFFF0000) 16).

Definition get_limit (entry : Z) : Z :=
  let limit := u32 (Z.lor (Z.shiftr (Z.land entry 0x000F000000000000) 32) (Z.land entry 0x000000000000FFFF)) in
  let g := u8 (Z.shiftr (Z.land entry 0x0080000000000000) 55) in
  if g =? 0 then limit else Z.lor (u32 (Z.shiftl limit 12)) 0xFFF.

Definition get_g (entry : Z) : Z := u8 (Z.shiftr (Z.land entry 0x0080000000000000) 55).
Definition get_db (entry : Z) : Z := u8 (Z.shiftr (Z.land entry 0x0040000000000000) 54).
Definition get_l (entry : Z) : Z := u8 (Z.shiftr (Z.land entry 0x0020000000000000) 53).
Definition get_avl (entry : Z) : Z := u8 (Z.shiftr (Z.land entry 0x0010000000000000) 52).
Definition get_p (entry : Z) : Z := u8 (Z.shiftr (Z.land entry 0x0000800000000000) 47).
Definition get_dpl (entry : Z) : Z := u8 (Z.shiftr (Z.land entry 0x0000600000000000) 45).
Definition get_s (entry : Z) : Z := u8 (Z.shiftr (Z.land entry 0x0000100000000000) 44).
Definition get_type (entry : Z) : Z := u8 (Z.shiftr (Z.land entry 0x00000F0000000000) 40).

End Gdt.
Import Gdt.

Record kvm_segment := {
  seg_base : Z;
  seg_limit : Z;
  selector : Z;
  type_ : Z;
  present : Z;
  dpl : Z;
  db : Z;
  seg_s : Z;
  seg_l : Z;
  seg_g : Z;
  avl : Z;
  padding : Z;
  unusable : Z
}.

Definition kvm_segment_from_gdt (entry table_index : Z) : kvm_segment :=
  {| seg_base := get_base entry;
     seg_limit := get_limit entry;
     selector := u8 (table_index * 8);
     type_ := get_type entry;
     present := get_p entry;
     dpl := get_dpl entry;
     db := get_db entry;
     seg_s := get_s entry;
     seg_l := get_l entry;
     seg_g := get_g entry;
     avl := get_avl entry;
     padding := 0;
     unusable := if get_p entry =? 0 then 1 else 0 |}.

(** * Registers *)

Record kvm_dtable := { dt_base : Z; dt_limit : Z }.

Record kvm_sregs := {
  cs : kvm_segment; ds : kvm_segment; es : kvm_segment; fs : kvm_segment; gs : kvm_segment; ss : kvm_segment;
  tr : kvm_segment; ldt : kvm_segment;
  gdt : kvm_dtable; idt : kvm_dtable;
  cr0 : Z; cr2 : Z; cr3 : Z; cr4 : Z; cr8 : Z; efer : Z; apic_base : Z;
  interrupt_bitmap : list Z
}.

(** The registers [setup_regs] gives a value; the others are zero. *)
Record kvm_regs := { rflags : Z; rip : Z; rsp : Z; rbp : Z; rsi : Z; other_regs : Z }.

Record kvm_fpu := { fcw : Z; mxcsr : Z; other_fpu : Z }.

(** [KVM_GET_SREGS] and the rest; [None] is an error of the ioctl. *)
Class VcpuFd (V : Type) := {
  get_sregs : V -> option kvm_sregs;
  set_sregs : V -> kvm_sregs -> option V;
  set_regs : V -> kvm_regs -> option V;
  set_fpu : V -> kvm_fpu -> option V
}.

Definition ZERO_PAGE_START : Z := 0x7000.
Definition BOOT_STACK_POINTER : Z := 0x8ff0.
Definition BOOT_GDT_OFFSET : Z := 0x500.
Definition BOOT_IDT_OFFSET : Z := 0x520.
Definition BOOT_GDT_MAX : nat := 4.

Definition X86_CR0_PE : Z := 0x1.
Definition X86_CR0_ET : Z := 0x10.
Definition X86_CR0_PG : Z := 0x80000000.
Definition X86_CR0_NW : Z := Z.shiftl 1 29.
Definition X86_CR0_CD : Z := Z.shiftl 1 30.
Definition X86_CR4_PAE : Z := 0x20.
Definition EFER_LME : Z := 0x100.
Definition EFER_LMA : Z := 0x400.

Definition PML4_START : Z := 0x9000.
Definition PDPTE_START : Z := 0xa000.
Definition PDE_START : Z := 0xc000.

Section Regs.
Context {M V : Type} {HM : GuestMemory M} {HV : VcpuFd V}.

Definition setup_fpu (vcpu : V) : option V := set_fpu vcpu {| fcw := 0x37f; mxcsr := 0x1f80; other_fpu := 0 |}.

Definition setup_regs (vcpu : V) (entry_point : Z) : option V :=
  set_regs vcpu {| rflags := 2; rip := entry_point; rsp := BOOT_STACK_POINTER; rbp := BOOT_STACK_POINTER;
                   rsi := ZERO_PAGE_START; other_regs := 0 |}.

(** [mem.write_obj(v, addr)?] of a [u64]. *)
Definition write_obj64 (mem : M) (addr v : Z) : option M :=
  let '(mem, ok) := write_slice mem addr (le_bytes 8 v) in if ok : bool then Some mem else None.

(** [checked_offset]: the sum, if it is an address of guest memory. *)
Definition checked_offset (mem : M) (base offset : Z) : option Z :=
  addr ← checked_add 64 base offset;
  if read_slice mem addr 1 is Some _ then Some addr else None.

Fixpoint write_gdt_from (mem : M) (i : Z) (gdt : list Z) : option M :=
  match gdt with
  | [] => Some mem
  | entry :: gdt =>
      addr ← checked_offset mem BOOT_GDT_OFFSET (i * 8);
      mem ← write_obj64 mem addr entry;
      write_gdt_from mem (i + 1) gdt
  end.

Definition write_gdt_table (mem : M) (gdt : list Z) : option M := write_gdt_from mem 0 gdt.

Definition write_idt_table (mem : M) : option M := write_obj64 mem BOOT_IDT_OFFSET 0.

(** The page directory entries [i], [i+1], ... *)
Fixpoint write_pdes (mem : M) (i : Z) (n : nat) : option M :=
  match n with
  | O => Some mem
  | S n =>
      mem ← write_obj64 mem (PDE_START ⊕ i * 8) (Z.lor (Z.shiftl i 21) 0x83);
      write_pdes mem (i + 1) n
  end.

Definition with_paging (s : kvm_sregs) : kvm_sregs :=
  {| cs := cs s; ds := ds s; es := es s; fs := fs s; gs := gs s; ss := ss s; tr := tr s; ldt := ldt s;
     gdt := gdt s; idt := idt s; cr0 := Z.lor (cr0 s) X86_CR0_PG; cr2 := cr2 s; cr3 := PML4_START;
     cr4 := Z.lor (cr4 s) X86_CR4_PAE; cr8 := cr8 s; efer := efer s; apic_base := apic_base s;
     interrupt_bitmap := interrupt_bitmap s |}.

Definition setup_page_tables (mem : M) (sregs : kvm_sregs) : option (M * kvm_sregs) :=
  mem ← write_obj64 mem PML4_START (Z.lor PDPTE_START 0x03);
  mem ← write_obj64 mem PDPTE_START (Z.lor PDE_START 0x03);
  mem ← write_pdes mem 0 1024;
  Some (mem, with_paging sregs).

Definition gdt_table : list Z :=
  [gdt_entry 0 0 0; gdt_entry 0xa09b 0 0xfffff; gdt_entry 0xc093 0 0xfffff; gdt_entry 0x808b 0 0xfffff].

Definition unusable_ldt (l : kvm_segment) : kvm_segment :=
  {| seg_base := seg_base l; seg_limit := seg_limit l; selector := selector l; type_ := type_ l; present := 0;
     dpl := dpl l; db := db l; seg_s := seg_s l; seg_l := seg_l l; seg_g := seg_g l; avl := avl l;
     padding := padding l; unusable := 1 |}.

(** The special registers, but for paging. *)
Definition long_mode (s : kvm_sregs) : kvm_sregs :=
  let code_seg := kvm_segment_from_gdt (default 0 (gdt_table !! 1%nat)) 1 in
  let data_seg := kvm_segment_from_gdt (default 0 (gdt_table !! 2%nat)) 2 in
  let tss_seg := kvm_segment_from_gdt (default 0 (gdt_table !! 3%nat)) 3 in
  {| cs := code_seg; ds := data_seg; es := data_seg; fs := data_seg; gs := data_seg; ss := data_seg; tr := tss_seg;
     ldt := unusable_ldt (ldt s);
     gdt := {| dt_base := BOOT_GDT_OFFSET; dt_limit := u16 (8 * Z.of_nat (length gdt_table) - 1) |};
     idt := {| dt_base := BOOT_IDT_OFFSET; dt_limit := u16 (8 - 1) |};
     cr0 := Z.lor (Z.land (cr0 s) (lnotw 64 (Z.lor X86_CR0_NW X86_CR0_CD))) (Z.lor (Z.lor X86_CR0_PE X86_CR0_ET) X86_CR0_PG);
     cr2 := cr2 s; cr3 := cr3 s; cr4 := cr4 s; cr8 := cr8 s;
     efer := Z.lor (efer s) (Z.lor EFER_LME EFER_LMA);
     apic_base := apic_base s; interrupt_bitmap := interrupt_bitmap s |}.

Definition setup_sregs (mem : M) (vcpu : V) : option (M * V) :=
  sregs ← get_sregs vcpu;
  mem ← write_gdt_table mem gdt_table;
  mem ← write_idt_table mem;
  '(mem, sregs) ← setup_page_tables mem (long_mode sregs);
  vcpu ← set_sregs vcpu sregs;
  Some (mem, vcpu).

End Regs.

(** * The zero page *)

Definition KERNEL_BOOT_FLAG_MAGIC : Z := 0xaa55.
Definition KERNEL_HDR_MAGIC : Z := 0x53726448.
Definition KERNEL_LOADER_OTHER : Z := 0xff.
Definition KERNEL_MIN_ALIGNMENT_BYTES : Z := 0x1000000.
Definition ZERO_PAGE_ADDR : Z := 0x7000.
Definition CMDLINE_ADDR : Z := 0x20000.
Definition CMDLINE_MAX_LEN : nat := 2048.

Record E820Entry := { e_addr : Z; e_size : Z; e_type : Z }.

(** [e820_table] has [E820_MAX] entries, of which [e820_entries] are in use; here
    the list is those in use. *)
Definition E820_MAX : nat := 128.

Record BootParams := {
  boot_flag : Z; hdr_header : Z; type_of_loader : Z; kernel_alignment : Z;
  cmd_line_ptr : Z; code32_start : Z; cmdline_size : Z;
  e820_table : list E820Entry;
  acpi_rsdp_addr : Z
}.

(** linux-loader: how the struct lies in memory, and its command line. *)
Class LinuxLoader (M : Type) := {
  boot_params_bytes : BootParams -> list Z;
  (** [Cmdline::new(max)] then [insert_str]. *)
  cmdline_of : nat -> list Z -> option (list Z);
  load_cmdline : M -> Z -> list Z -> option M;
  (** [Elf::load]: the memory with the kernel in it, and [kernel_load]. *)
  elf_load : M -> list Z -> option (M * Z)
}.

Definition E820_RAM : Z := 1.
Definition E820_RESERVED : Z := 2.
Definition E820_ACPI : Z := 3.

Definition add_e820_entry (params : BootParams) (addr size mem_type : Z) : option BootParams :=
  if (E820_MAX <=? length (e820_table params))%nat then None
  else Some {| boot_flag := boot_flag params; hdr_header := hdr_header params; type_of_loader := type_of_loader params;
               kernel_alignment := kernel_alignment params; cmd_line_ptr := cmd_line_ptr params;
               code32_start := code32_start params; cmdline_size := cmdline_size params;
               e820_table := e820_table params ++ [{| e_addr := addr; e_size := size; e_type := mem_type |}];
               acpi_rsdp_addr := acpi_rsdp_addr params |}.

Fixpoint add_regions (params : BootParams) (acpi : Z) (i : nat) (regions : list (Z * Z)) : option BootParams :=
  match regions with
  | [] => Some params
  | (start, size) :: regions =>
      params ← match i with
               | O =>
                   usable ← checked_sub acpi start;
                   params ← add_e820_entry params start usable E820_RAM;
                   add_e820_entry params acpi ACPI_SIZE E820_ACPI
               | S _ => add_e820_entry params start size E820_RAM
               end;
      add_regions params acpi (S i) regions
  end.

Definition with_rsdp (params : BootParams) (rsdp : option Z) : BootParams :=
  {| boot_flag := boot_flag params; hdr_header := hdr_header params; type_of_loader := type_of_loader params;
     kernel_alignment := kernel_alignment params; cmd_line_ptr := cmd_line_ptr params;
     code32_start := code32_start params; cmdline_size := cmdline_size params; e820_table := e820_table params;
     acpi_rsdp_addr := default (acpi_rsdp_addr params) rsdp |}.

(** The struct that is written: header, e820 map, RSDP. *)
Definition build_boot_params (entry_point : Z) (cmdline : list Z) (regions : list (Z * Z)) (rsdp : option Z) :
    option BootParams :=
  let params := {| boot_flag := KERNEL_BOOT_FLAG_MAGIC; hdr_header := KERNEL_HDR_MAGIC;
                   type_of_loader := KERNEL_LOADER_OTHER; kernel_alignment := KERNEL_MIN_ALIGNMENT_BYTES;
                   cmd_line_ptr := u32 CMDLINE_ADDR; code32_start := u32 entry_point;
                   cmdline_size := u32 (Z.of_nat (length cmdline) + 1); e820_table := []; acpi_rsdp_addr := 0 |} in
  (* [CString::new] refuses a string with a NUL in it. *)
  if existsb (Z.eqb 0) cmdline then None else
  '(s, size) ← head regions;
  let acpi := acpi_start (s ⊕ size) in
  params ← add_e820_entry params MMCONFIG_START MMCONFIG_SIZE E820_RESERVED;
  params ← add_regions params acpi 0 regions;
  Some (with_rsdp params rsdp).

Section BootParams.
Context {M : Type} {HM : GuestMemory M} {HL : LinuxLoader M}.

Definition setup_boot_params (mem : M) (entry_point : Z) (cmdline_str : list Z) (ram_regions : list (Z * Z))
    (rsdp_addr : option Z) : option M :=
  params ← build_boot_params entry_point cmdline_str ram_regions rsdp_addr;
  let '(mem, ok) := write_slice mem ZERO_PAGE_ADDR (boot_params_bytes params) in
  if negb ok then None else
  cmdline ← cmdline_of CMDLINE_MAX_LEN cmdline_str;
  load_cmdline mem CMDLINE_ADDR cmdline.

(** [kernel] is the file's contents; [None] if it cannot be opened or read. *)
Definition load_kernel (mem : M) (kernel : option (list Z)) : option (M * Z) :=
  kernel ← kernel; elf_load mem kernel.

End BootParams.
