(* ===== verification/BootFacts.v ===== *)
(** The bootstrap processor starts in long mode over page tables that map the
    first gibibyte onto itself, with segments that are the descriptors in memory;
    the e820 map describes exactly the RAM there is. *)

From S2P Require Import Prelude Shared Layout GuestMem Boot.
Import Gdt.

(** * Descriptors *)

Lemma masked_bit e w sh j :
  0 <= w -> 0 <= sh -> 0 <= j ->
  Z.testbit (Z.land e (Z.shiftl (2 ^ w - 1) sh)) j = in_range sh (sh + w) j && Z.testbit e j.
Proof. intros. rewrite Z.land_spec, shifted_mask_bit by done. by rewrite andb_comm. Qed.

(** The getters take a field out. *)
Lemma masked_field e w sh : 0 <= w -> 0 <= sh -> Z.shiftr (Z.land e (Z.shiftl (2 ^ w - 1) sh)) sh = field e sh w.
Proof.
  intros. apply Z.bits_inj'. intros j Hj. rewrite Z.shiftr_spec, masked_bit, field_bit by lia. f_equal.
  unfold in_range. apply Bool.eq_iff_eq_true. rewrite andb_true_iff, Z.leb_le, !Z.ltb_lt. lia.
Qed.

Lemma field_word e sh w : 0 <= w -> is_word w (field e sh w).
Proof. intros. unfold field. rewrite land_ones_mod by done. apply Z.mod_pos_bound. by apply Z.pow_pos_nonneg. Qed.

Lemma getter e w sh : 0 <= w <= 8 -> 0 <= sh -> u8 (Z.shiftr (Z.land e (Z.shiftl (2 ^ w - 1) sh)) sh) = field e sh w.
Proof.
  intros Hw Hs. rewrite masked_field by lia. apply wrap_small. pose proof (field_word e sh w ltac:(lia)) as [H1 H2].
  assert (2 ^ w <= 2 ^ 8) by (apply Z.pow_le_mono_r; lia). unfold is_word. lia.
Qed.

(** Where each bit of an entry comes from. *)
Lemma gdt_bit flags base limit j :
  0 <= j ->
  Z.testbit (gdt_entry flags base limit) j =
    if j <? 16 then Z.testbit limit j
    else if j <? 40 then Z.testbit base (j - 16)
    else if j <? 48 then Z.testbit flags (j - 40)
    else if j <? 52 then Z.testbit limit (j - 32)
    else if j <? 56 then Z.testbit flags (j - 40)
    else if j <? 64 then Z.testbit base (j - 32)
    else false.
Proof.
  intros Hj. unfold gdt_entry.
  assert (Z.land flags 0xf0ff = Z.lor (Z.land flags (Z.shiftl (2 ^ 4 - 1) 12)) (Z.land flags (Z.shiftl (2 ^ 8 - 1) 0))) as ->
    by (rewrite <- Z.land_lor_distr_r; done).
  change 0xff000000 with (Z.shiftl (2 ^ 8 - 1) 24). change 0xf0000 with (Z.shiftl (2 ^ 4 - 1) 16).
  change 0xffffff with (Z.shiftl (2 ^ 24 - 1) 0). change 0xffff with (Z.shiftl (2 ^ 16 - 1) 0).
  rewrite !Z.lor_spec, !Z.shiftl_spec by done. rewrite Z.lor_spec.
  assert (forall e w sh k, 0 <= w -> 0 <= sh ->
    Z.testbit (Z.land e (Z.shiftl (2 ^ w - 1) sh)) k = in_range sh (sh + w) k && Z.testbit e k) as Hm.
  { intros e w sh k Hw Hs. destruct (decide (0 <= k)); [by apply masked_bit|].
    rewrite !Z.testbit_neg_r by lia. by rewrite andb_false_r. }
  rewrite !Hm by lia. unfold in_range. simpl (56 - 24). simpl (48 - 16).
  repeat match goal with |- context [(?a <=? ?b)] => destruct (Z.leb_spec a b); simpl; try lia end;
  repeat match goal with |- context [(?a <? ?b)] => destruct (Z.ltb_spec a b); simpl; try lia end;
  rewrite ?orb_false_r; try done; try (f_equal; lia).
Qed.

(** A field of an entry inside one of its parts. *)
Lemma gdt_field flags base limit sh w (src : Z) off :
  0 <= w -> 0 <= sh -> 0 <= off ->
  (forall j, 0 <= j < w -> Z.testbit (gdt_entry flags base limit) (j + sh) = Z.testbit src (j + off)) ->
  field (gdt_entry flags base limit) sh w = field src off w.
Proof.
  intros Hw Hs Ho H. apply Z.bits_inj'. intros j Hj. rewrite !field_bit by done.
  destruct (j <? w) eqn:E; bool_prop; [|done]. simpl. apply H. lia.
Qed.

Ltac bit_tests := repeat match goal with |- context [(?a <? ?b)] => destruct (Z.ltb_spec a b); simpl; try lia end.

Lemma entry_field_flags flags base limit sh w :
  0 <= w -> 40 <= sh -> sh + w <= 48 \/ (52 <= sh /\ sh + w <= 56) ->
  field (gdt_entry flags base limit) sh w = field flags (sh - 40) w.
Proof.
  intros. apply gdt_field; [lia..|]. intros j Hj. rewrite gdt_bit by lia. bit_tests; f_equal; lia.
Qed.

Lemma get_base_entry flags base limit : is_word 32 base -> get_base (gdt_entry flags base limit) = base.
Proof.
  intros Hb. apply Z.bits_inj'. intros j Hj. unfold get_base.
  change 0xFF00000000000000 with (Z.shiftl (2 ^ 8 - 1) 56). change 0xFF00000000 with (Z.shiftl (2 ^ 8 - 1) 32).
  change 0xFFFF0000 with (Z.shiftl (2 ^ 16 - 1) 16).
  rewrite !Z.lor_spec, !Z.shiftr_spec by done. rewrite !masked_bit by lia. rewrite !gdt_bit by lia. unfold in_range.
  destruct (decide (j < 32)).
  - repeat match goal with |- context [(?a <=? ?b)] => destruct (Z.leb_spec a b); simpl; try lia end; bit_tests;
      rewrite ?orb_false_r; f_equal; lia.
  - rewrite (word_high_bit base 32 j) by (done || lia).
    repeat match goal with |- context [(?a <=? ?b)] => destruct (Z.leb_spec a b); simpl; try lia end; bit_tests; done.
Qed.

Lemma entry_limit flags base limit :
  is_word 20 limit ->
  u32 (Z.lor (Z.shiftr (Z.land (gdt_entry flags base limit) 0x000F000000000000) 32)
             (Z.land (gdt_entry flags base limit) 0x000000000000FFFF)) = limit.
Proof.
  intros Hl. assert (Z.lor (Z.shiftr (Z.land (gdt_entry flags base limit) 0x000F000000000000) 32)
    (Z.land (gdt_entry flags base limit) 0x000000000000FFFF) = limit) as ->.
  { apply Z.bits_inj'. intros j Hj. change 0xF000000000000 with (Z.shiftl (2 ^ 4 - 1) 48).
    change 0xFFFF with (Z.shiftl (2 ^ 16 - 1) 0).
    rewrite !Z.lor_spec, !Z.shiftr_spec by done. rewrite !masked_bit by lia. rewrite !gdt_bit by lia. unfold in_range.
    destruct (decide (j < 20)).
    - repeat match goal with |- context [(?a <=? ?b)] => destruct (Z.leb_spec a b); simpl; try lia end; bit_tests;
        rewrite ?orb_false_r; f_equal; lia.
    - rewrite (word_high_bit limit 20 j) by (done || lia).
      repeat match goal with |- context [(?a <=? ?b)] => destruct (Z.leb_spec a b); simpl; try lia end; by bit_tests. }
  apply wrap_small. unfold is_word in *. lia.
Qed.

(** A descriptor says what it was made of.  For every base, 20-bit limit and
    flags, the segment loaded from an entry has that base, the limit in bytes
    (scaled by pages when the granularity flag is set), and the type, system,
    privilege, present, available, long, size and granularity bits of the
    flags. *)
Theorem gdt_roundtrip flags base limit i :
  is_word 16 flags -> is_word 32 base -> is_word 20 limit -> 0 <= i < 32 ->
  let s := kvm_segment_from_gdt (gdt_entry flags base limit) i in
  seg_base s = base /\ selector s = 8 * i /\
  seg_limit s = (if Z.testbit flags 15 then limit * 4096 + 4095 else limit) /\
  type_ s = field flags 0 4 /\ seg_s s = field flags 4 1 /\ dpl s = field flags 5 2 /\ present s = field flags 7 1 /\
  avl s = field flags 12 1 /\ seg_l s = field flags 13 1 /\ db s = field flags 14 1 /\ seg_g s = field flags 15 1 /\
  (unusable s = 1 <-> Z.testbit flags 7 = false).
Proof.
  intros Hf Hb Hl Hi. unfold kvm_segment_from_gdt.
  cbn [seg_base seg_limit selector type_ present dpl db seg_s seg_l seg_g avl unusable].
  assert (forall sh, 0 <= sh -> field flags sh 1 = Z.b2z (Z.testbit flags sh)) as Hbit.
  { intros sh Hs. unfold field. rewrite land_ones_mod by lia. by rewrite Z.testbit_spec', Z.shiftr_div_pow2. }
  assert (get_g (gdt_entry flags base limit) = field flags 15 1) as Hg
    by (unfold get_g; rewrite (getter _ 1 55) by lia; by apply entry_field_flags; lia).
  assert (get_p (gdt_entry flags base limit) = field flags 7 1) as Hp
    by (unfold get_p; rewrite (getter _ 1 47) by lia; by apply entry_field_flags; lia).
  split; [by apply get_base_entry|]. split; [rewrite wrap_small; unfold is_word; lia|]. split.
  { unfold get_limit. rewrite entry_limit by done. fold (get_g (gdt_entry flags base limit)). rewrite Hg, Hbit by lia.
    destruct (Z.testbit flags 15); simpl; [|done]. rewrite Z.shiftl_mul_pow2 by lia. unfold is_word in *.
    rewrite wrap_small by (unfold is_word; lia). replace (limit * 2 ^ 12) with (Z.shiftl limit 12) by (by rewrite Z.shiftl_mul_pow2).
    rewrite Z.lor_comm, lor_shiftl_add by (unfold is_word; lia). lia. }
  rewrite Hg, Hp. split_and!; [..|by rewrite Hbit by lia; destruct (Z.testbit flags 7)].
  all: try done.
  - unfold get_type. rewrite (getter _ 4 40) by lia. by apply entry_field_flags; lia.
  - unfold get_s. rewrite (getter _ 1 44) by lia. by apply entry_field_flags; lia.
  - unfold get_dpl. rewrite (getter _ 2 45) by lia. by apply entry_field_flags; lia.
  - unfold get_avl. rewrite (getter _ 1 52) by lia. by apply entry_field_flags; lia.
  - unfold get_l. rewrite (getter _ 1 53) by lia. by apply entry_field_flags; lia.
  - unfold get_db. rewrite (getter _ 1 54) by lia. by apply entry_field_flags; lia.
Qed.

Lemma gdt_roundtrip_witness :
  is_word 20 0xfffff /\ seg_limit (kvm_segment_from_gdt (gdt_entry 0xa09b 0 0xfffff) 1) = 2 ^ 32 - 1.
Proof.
  split; [unfold is_word; lia|].
  destruct (gdt_roundtrip 0xa09b 0 0xfffff 1) as (_ & _ & H & _); [unfold is_word; lia..|lia|]. exact H.
Defined.

(** * Memory after a run of writes *)

Section Paging.
Context {M : Type} {HM : GuestMemory M} {HL : GuestMemoryLaws M}.
Implicit Types (m : M).

(** At most the bytes from [lo] to [hi] differ. *)
Definition changed m m' (lo hi : Z) : Prop :=
  (forall b n, apart lo (hi - lo) b (Z.of_nat n) -> read_slice m' b n = read_slice m b n) /\
  (forall b n, is_Some (read_slice m' b n) <-> is_Some (read_slice m b n)).

Lemma changed_refl m lo hi : changed m m lo hi.
Proof. by split. Qed.

Lemma changed_trans m1 m2 m3 lo hi : changed m1 m2 lo hi -> changed m2 m3 lo hi -> changed m1 m3 lo hi.
Proof.
  intros [H1 H1'] [H2 H2']. split; [|by intros; rewrite H2', H1']. intros b n Ha. by rewrite H2, H1.
Qed.

Lemma changed_widen m m' lo hi lo' hi' : changed m m' lo hi -> lo' <= lo -> hi <= hi' -> changed m m' lo' hi'.
Proof. intros [H H'] Hl Hh. split; [|done]. intros b n Ha. apply H. unfold apart in *. lia. Qed.

Lemma changed_read m m' lo hi b n : changed m m' lo hi -> apart lo (hi - lo) b (Z.of_nat n) -> read_le m' b n = read_le m b n.
Proof. intros [H _] Ha. unfold read_le. by rewrite H. Qed.

Lemma write_obj64_spec m a v :
  is_Some (read_slice m a 8) -> is_word 64 v ->
  exists m', write_obj64 m a v = Some m' /\ read_le m' a 8 = Some v /\ changed m m' a (a + 8).
Proof.
  intros Hr Hv. unfold write_obj64. pose proof (write_ok m a (le_bytes 8 v)) as Hok.
  pose proof (write_le_read m a 8 v (proj2 (read_le_mapped m a 8) Hr) Hv) as Hrd. unfold write_le in Hrd.
  destruct (write_slice m a (le_bytes 8 v)) as [m' ok] eqn:E. cbn [fst snd] in *.
  rewrite Hok by (by rewrite length_le_bytes).
  exists m'. split; [done|]. split; [done|]. replace m' with (write_slice m a (le_bytes 8 v)).1 by (by rewrite E).
  split; [|intros; apply read_mapped]. intros b n Ha. apply read_apart. rewrite length_le_bytes. unfold apart in *. lia.
Qed.

Lemma read_sub m a (n o k : nat) :
  is_Some (read_slice m a n) -> (o + k <= n)%nat -> is_Some (read_slice m (a + Z.of_nat o) k).
Proof.
  intros [l Hl] Hk. replace n with (o + (k + (n - o - k)))%nat in Hl by lia. apply read_split in Hl as [_ Hl].
  apply read_split in Hl as [Hl _]. eauto.
Qed.

(** The low 64 KiB, in which everything here lies. *)
Definition low_mapped m : Prop := is_Some (read_slice m 0 (Z.to_nat 0x10000)).

Lemma low_read m a n : low_mapped m -> 0 <= a -> a + Z.of_nat n <= 0x10000 -> is_Some (read_slice m a n).
Proof.
  intros H Ha Hn. pose proof (read_sub m 0 (Z.to_nat 0x10000) (Z.to_nat a) n H) as Hr.
  rewrite Z.add_0_l, Z2Nat.id in Hr by lia. apply Hr. lia.
Qed.

Lemma low_changed m m' lo hi : changed m m' lo hi -> low_mapped m -> low_mapped m'.
Proof. intros [_ H]. apply H. Qed.

Lemma pde_word i : 0 <= i < 1024 -> is_word 64 (Z.lor (Z.shiftl i 21) 0x83).
Proof.
  intros Hi. rewrite Z.lor_comm, lor_shiftl_add by lia. unfold is_word. lia.
Qed.

Lemma write_pdes_spec n m i :
  low_mapped m -> 0 <= i -> i + Z.of_nat n <= 1024 ->
  exists m', write_pdes m i n = Some m' /\
    (forall k, i <= k < i + Z.of_nat n -> read_le m' (PDE_START + 8 * k) 8 = Some (Z.lor (Z.shiftl k 21) 0x83)) /\
    changed m m' (PDE_START + 8 * i) (PDE_START + 8 * (i + Z.of_nat n)).
Proof.
  revert m i. induction n as [|n IH]; intros m i Hm Hi Hn.
  { exists m. split; [done|]. split; [lia|apply changed_refl]. }
  cbn [write_pdes]. unfold PDE_START in *. rewrite wrap_small by (unfold is_word; lia).
  destruct (write_obj64_spec m (49152 + i * 8) (Z.lor (Z.shiftl i 21) 0x83)) as (m1 & E1 & R1 & C1).
  { apply low_read; [done|lia|]. lia. }
  { apply pde_word. lia. }
  rewrite E1. destruct (IH m1 (i + 1)) as (m2 & E2 & R2 & C2); [by eapply low_changed|lia..|].
  exists m2. split; [exact E2|]. split.
  - intros k Hk. destruct (decide (k = i)) as [->|Hne]; [|apply R2; lia].
    rewrite (changed_read _ _ _ _ _ _ C2) by (unfold apart; lia). by replace (49152 + 8 * i) with (49152 + i * 8) by lia.
  - eapply changed_trans; eapply changed_widen; try done; lia.
Qed.

Lemma write_gdt_spec l m i :
  low_mapped m -> 0 <= i -> i + Z.of_nat (length l) <= 64 -> Forall (is_word 64) l ->
  exists m', write_gdt_from m i l = Some m' /\
    (forall (k : nat) e, l !! k = Some e -> read_le m' (BOOT_GDT_OFFSET + 8 * (i + Z.of_nat k)) 8 = Some e) /\
    changed m m' (BOOT_GDT_OFFSET + 8 * i) (BOOT_GDT_OFFSET + 8 * (i + Z.of_nat (length l))).
Proof.
  revert m i. induction l as [|e l IH]; intros m i Hm Hi Hn Hw.
  { exists m. split; [done|]. split; [done|apply changed_refl]. }
  apply Forall_cons in Hw as [He Hw]. simpl in Hn. cbn [write_gdt_from]. unfold checked_offset, checked_add, BOOT_GDT_OFFSET in *.
  rewrite (proj2 (Z.ltb_lt _ _)) by lia. simpl mbind.
  destruct (low_read m (1280 + i * 8) 1 Hm) as [x ->]; [lia..|]. simpl mbind.
  destruct (write_obj64_spec m (1280 + i * 8) e) as (m1 & E1 & R1 & C1); [apply low_read; [done|lia..]|done|].
  rewrite E1. destruct (IH m1 (i + 1)) as (m2 & E2 & R2 & C2); [by eapply low_changed|lia..|done|].
  exists m2. split; [exact E2|]. split.
  - intros [|k] e' Hk; simpl in Hk.
    + injection Hk as <-. rewrite (changed_read _ _ _ _ _ _ C2) by (unfold apart; lia).
      by replace (1280 + 8 * (i + Z.of_nat 0)) with (1280 + i * 8) by lia.
    + rewrite <- (R2 k e' Hk). f_equal. lia.
  - simpl length. eapply changed_trans; eapply changed_widen; try done; lia.
Qed.

(** * The walk the processor makes *)

(** One level: the entry for an index of the table at [base], if present. *)
Definition table_entry m (base index : Z) : option Z :=
  e ← read_le m (base + 8 * index) 8; if Z.testbit e 0 then Some e else None.

(** The table or frame an entry points at: bits 51:12. *)
Definition frame (e : Z) : Z := field e 12 40 * 4096.

(** Long mode with four levels and pages of one gibibyte, two mebibytes or four
    kibibytes; [None] is a page fault. *)
Definition walk m (cr3 va : Z) : option Z :=
  e4 ← table_entry m (frame cr3) (field va 39 9);
  e3 ← table_entry m (frame e4) (field va 30 9);
  if Z.testbit e3 7 then Some (field e3 30 22 * 2 ^ 30 + va mod 2 ^ 30) else
  e2 ← table_entry m (frame e3) (field va 21 9);
  if Z.testbit e2 7 then Some (field e2 21 31 * 2 ^ 21 + va mod 2 ^ 21) else
  e1 ← table_entry m (frame e2) (field va 12 9);
  Some (frame e1 + va mod 2 ^ 12).

(** The tables are empty but for what is written. *)
Definition fresh_tables m : Prop :=
  forall k, 1 <= k < 512 -> read_le m (PML4_START + 8 * k) 8 = Some 0 /\ read_le m (PDPTE_START + 8 * k) 8 = Some 0.

Lemma field_div x sh w : 0 <= sh -> 0 <= w -> field x sh w = (x / 2 ^ sh) mod 2 ^ w.
Proof. intros. unfold field. rewrite land_ones_mod by done. by rewrite Z.shiftr_div_pow2. Qed.

(** What the written entries say. *)
Lemma pde_fields k : 0 <= k < 512 ->
  Z.testbit (Z.lor (Z.shiftl k 21) 0x83) 0 = true /\ Z.testbit (Z.lor (Z.shiftl k 21) 0x83) 7 = true /\
  field (Z.lor (Z.shiftl k 21) 0x83) 21 31 = k.
Proof.
  intros Hk. split; [by rewrite Z.lor_spec, orb_true_r|]. split; [by rewrite Z.lor_spec, orb_true_r|].
  rewrite Z.lor_comm, lor_shiftl_add by lia. rewrite field_div, Z.div_add by lia.
  change (0x83 / 2 ^ 21) with 0. rewrite Z.mod_small; lia.
Qed.

Lemma table_entry_zero m base k : read_le m (base + 8 * k) 8 = Some 0 -> table_entry m base k = None.
Proof. intros H. unfold table_entry. by rewrite H. Qed.

Lemma walk_identity m va :
  table_entry m PML4_START 0 = Some (Z.lor PDPTE_START 3) ->
  table_entry m PDPTE_START 0 = Some (Z.lor PDE_START 3) ->
  (forall k, 0 <= k < 512 -> read_le m (PDE_START + 8 * k) 8 = Some (Z.lor (Z.shiftl k 21) 0x83)) ->
  0 <= va < 2 ^ 30 -> walk m PML4_START va = Some va.
Proof.
  intros H4 H3 H2 Hva. unfold walk. change (frame PML4_START) with PML4_START.
  rewrite (field_div va 39), (field_div va 30), (field_div va 21) by lia.
  rewrite (Z.div_small va (2 ^ 39)), (Z.div_small va (2 ^ 30)) by lia. rewrite !Z.mod_0_l by lia. rewrite H4.
  cbn [mbind option_bind]. change (frame (Z.lor PDPTE_START 3)) with PDPTE_START. rewrite H3. cbn [mbind option_bind].
  change (Z.testbit (Z.lor PDE_START 3) 7) with false. change (frame (Z.lor PDE_START 3)) with PDE_START. cbv iota.
  assert (0 <= va / 2 ^ 21 < 512) as Hk by (split; [apply Z.div_pos; lia|apply Z.div_lt_upper_bound; lia]).
  rewrite (Z.mod_small (va / 2 ^ 21)) by lia. destruct (pde_fields (va / 2 ^ 21) Hk) as (Hp & Hs & Hf).
  unfold table_entry. rewrite H2 by done. cbn [mbind option_bind]. rewrite Hp. cbn [mbind option_bind]. rewrite Hs, Hf. f_equal.
  pose proof (Z.div_mod va (2 ^ 21)). lia.
Qed.

Lemma walk_faults m va :
  table_entry m PML4_START 0 = Some (Z.lor PDPTE_START 3) ->
  (forall k, 1 <= k < 512 -> read_le m (PML4_START + 8 * k) 8 = Some 0 /\ read_le m (PDPTE_START + 8 * k) 8 = Some 0) ->
  2 ^ 30 <= va < 2 ^ 48 -> walk m PML4_START va = None.
Proof.
  intros H4 Hz Hva. unfold walk. change (frame PML4_START) with PML4_START. rewrite (field_div va 39), (field_div va 30) by lia.
  assert (0 <= va / 2 ^ 39 < 512) as Hk by (split; [apply Z.div_pos; lia|apply Z.div_lt_upper_bound; lia]).
  rewrite (Z.mod_small (va / 2 ^ 39)) by lia. destruct (decide (va / 2 ^ 39 = 0)) as [E|E].
  - rewrite E, H4. cbn [mbind option_bind]. change (frame (Z.lor PDPTE_START 3)) with PDPTE_START.
    assert (1 <= va / 2 ^ 30 < 512) as Hj.
    { apply Z.div_small_iff in E; [|lia]. split; [apply Z.div_le_lower_bound; lia|apply Z.div_lt_upper_bound; lia]. }
    rewrite (Z.mod_small (va / 2 ^ 30)) by lia. by rewrite (table_entry_zero _ _ _ (proj2 (Hz _ Hj))).
  - by rewrite (table_entry_zero _ _ _ (proj1 (Hz (va / 2 ^ 39) ltac:(lia)))).
Qed.

(** Page tables over memory in which they were empty. *)
Lemma setup_page_tables_spec m s :
  low_mapped m -> fresh_tables m ->
  exists m', setup_page_tables m s = Some (m', with_paging s) /\
    changed m m' PML4_START 0xe000 /\
    (forall va, 0 <= va < 2 ^ 30 -> walk m' PML4_START va = Some va) /\
    (forall va, 2 ^ 30 <= va < 2 ^ 48 -> walk m' PML4_START va = None).
Proof.
  intros Hm Hz. unfold setup_page_tables.
  destruct (write_obj64_spec m PML4_START (Z.lor PDPTE_START 3)) as (m1 & E1 & R1 & C1);
    [apply low_read; unfold PML4_START; done || lia|done|].
  destruct (write_obj64_spec m1 PDPTE_START (Z.lor PDE_START 3)) as (m2 & E2 & R2 & C2);
    [apply low_read; [by eapply low_changed|unfold PDPTE_START; lia..]|done|].
  destruct (write_pdes_spec 1024 m2 0) as (m3 & E3 & R3 & C3); [do 2 (eapply low_changed; [done|]); done|lia..|].
  rewrite E1. cbn [mbind option_bind]. rewrite E2. cbn [mbind option_bind]. rewrite E3. cbn [mbind option_bind].
  exists m3. split; [done|]. change (PDE_START + 8 * 0) with 0xc000 in C3.
  change (PDE_START + 8 * (0 + Z.of_nat 1024)) with 0xe000 in C3. unfold PML4_START, PDPTE_START in *.
  assert (table_entry m3 0x9000 0 = Some (Z.lor 0xa000 3)) as H4.
  { unfold table_entry. rewrite (changed_read _ _ _ _ _ _ C3), (changed_read _ _ _ _ _ _ C2) by (unfold apart; lia).
    change (0x9000 + 8 * 0) with 0x9000. by rewrite R1. }
  assert (table_entry m3 0xa000 0 = Some (Z.lor PDE_START 3)) as H3.
  { unfold table_entry. rewrite (changed_read _ _ _ _ _ _ C3) by (unfold apart; lia).
    change (0xa000 + 8 * 0) with 0xa000. by rewrite R2. }
  split_and!.
  - eapply changed_trans; [|eapply changed_trans]; eapply changed_widen; try done; lia.
  - intros va Hva. apply walk_identity; [done..| |done]. intros k Hk. apply R3. lia.
  - intros va Hva. apply walk_faults; [done| |done]. intros k Hk. unfold PML4_START, PDPTE_START.
    rewrite !(changed_read _ _ _ _ _ _ C3), !(changed_read _ _ _ _ _ _ C2), !(changed_read _ _ _ _ _ _ C1)
      by (unfold apart; lia).
    by apply Hz.
Qed.

(** A segment descriptor as the processor reads its eight bytes: the limit in bytes
    0 and 1 and the low half of 6, in pages when the top bit of 6 is set; the base in
    2, 3, 4 and 7; type, S, DPL and P in 5; AVL, L and D/B in the rest of 6. *)
Definition descriptor (b : list Z) (s : kvm_segment) : Prop :=
  match b with
  | [b0; b1; b2; b3; b4; b5; b6; b7] =>
      let limit := b0 + 256 * b1 + 65536 * (b6 mod 16) in
      seg_base s = b2 + 256 * b3 + 65536 * b4 + 16777216 * b7 /\
      seg_limit s = (if 128 <=? b6 then 4096 * limit + 4095 else limit) /\
      type_ s = b5 mod 16 /\ seg_s s = (b5 / 16) mod 2 /\ dpl s = (b5 / 32) mod 4 /\ present s = b5 / 128 /\
      avl s = (b6 / 16) mod 2 /\ seg_l s = (b6 / 32) mod 2 /\ db s = (b6 / 64) mod 2 /\ seg_g s = b6 / 128 /\
      unusable s = 1 - present s
  | _ => False
  end.

(** The descriptor table in memory holds what the segments were loaded from. *)
Definition loaded_from m (t : kvm_dtable) (seg : kvm_segment) : Prop :=
  exists b, read_slice m (dt_base t + selector seg) 8 = Some b /\ descriptor b seg /\ selector seg + 7 <= dt_limit t.

Lemma read_le_slice m a n v : read_le m a n = Some v -> read_slice m a n = Some (le_bytes n v).
Proof.
  unfold read_le. destruct (read_slice m a n) as [l|] eqn:E; [|done]. simpl. intros [= <-].
  pose proof (read_length _ _ _ _ E) as Hl. pose proof (read_bytes _ _ _ _ E) as Hb. subst n. by rewrite le_bytes_of_le.
Qed.

(** Base 0, the whole 4 GiB, there, and for the kernel's privilege. *)
Definition flat (seg : kvm_segment) : Prop :=
  seg_base seg = 0 /\ seg_limit seg = 2 ^ 32 - 1 /\ present seg = 1 /\ dpl seg = 0.

Context {V : Type} {HV : VcpuFd V}.

(** C32: The bootstrap processor starts in long mode with memory mapped onto
    itself.  From memory whose tables are empty and a vCPU that takes its
    registers, [setup_sregs] succeeds; the registers it sets have protection,
    paging, physical address extension and long mode on and the caches enabled;
    the processor's walk from CR3 takes every address of the first gibibyte to
    itself and faults on every other 48-bit one (the comment in [setup_page_tables]
    says that 2 GiB are mapped: 1024 entries of 2 MiB are written, and the page that
    holds the second half of them is never linked into the tables); every segment
    register says what the processor reads in the descriptor its selector names,
    inside the table's limit, and is flat, the code segment a 64-bit one; the LDT is
    unusable; and memory outside the low tables is as it was, the zero page and the
    command line included. *)
Theorem boots_in_long_mode m v s :
  low_mapped m -> fresh_tables m -> get_sregs v = Some s -> (forall s', is_Some (set_sregs v s')) ->
  exists m' v' s', setup_sregs m v = Some (m', v') /\ set_sregs v s' = Some v' /\
    (Z.testbit (cr0 s') 0 = true /\ Z.testbit (cr0 s') 31 = true /\ Z.testbit (cr0 s') 29 = false /\
     Z.testbit (cr0 s') 30 = false /\ Z.testbit (cr4 s') 5 = true /\
     Z.testbit (efer s') 8 = true /\ Z.testbit (efer s') 10 = true) /\
    (forall va, 0 <= va < 2 ^ 30 -> walk m' (cr3 s') va = Some va) /\
    (forall va, 2 ^ 30 <= va < 2 ^ 48 -> walk m' (cr3 s') va = None) /\
    Forall (fun seg => loaded_from m' (gdt s') seg /\ flat seg) [cs s'; ds s'; es s'; fs s'; gs s'; ss s'; tr s'] /\
    (seg_l (cs s') = 1 /\ db (cs s') = 0 /\ type_ (cs s') = 11 /\ type_ (ds s') = 3 /\ type_ (tr s') = 11 /\ unusable (ldt s') = 1) /\
    (forall b n, (0x528 <= b /\ b + Z.of_nat n <= PML4_START) \/ 0xe000 <= b ->
       read_slice m' b n = read_slice m b n).
Proof.
  intros Hm Hz Hs Hset. unfold setup_sregs. rewrite Hs. cbn [mbind option_bind].
  destruct (write_gdt_spec gdt_table m 0) as (m1 & E1 & R1 & C1); [done|done|done|by repeat constructor|].
  change (BOOT_GDT_OFFSET + 8 * (0 + Z.of_nat (length gdt_table))) with 0x520 in C1.
  change (BOOT_GDT_OFFSET + 8 * 0) with 0x500 in C1.
  unfold write_gdt_table. rewrite E1. cbn [mbind option_bind]. unfold write_idt_table.
  destruct (write_obj64_spec m1 BOOT_IDT_OFFSET 0) as (m2 & E2 & _ & C2);
    [apply low_read; [by eapply low_changed|unfold BOOT_IDT_OFFSET; lia..]|done|].
  rewrite E2. cbn [mbind option_bind]. unfold BOOT_IDT_OFFSET in *.
  destruct (setup_page_tables_spec m2 (long_mode s)) as (m3 & E3 & C3 & Hid & Hnone).
  { do 2 (eapply low_changed; [done|]). done. }
  { intros k Hk. unfold PML4_START, PDPTE_START.
    rewrite !(changed_read _ _ _ _ _ _ C2), !(changed_read _ _ _ _ _ _ C1) by (unfold apart; lia). by apply Hz. }
  rewrite E3. cbn [mbind option_bind]. destruct (Hset (with_paging (long_mode s))) as [v' Ev]. rewrite Ev.
  cbn [mbind option_bind]. exists m3, v', (with_paging (long_mode s)). split; [done|]. split; [done|].
  unfold PML4_START in *.
  assert (forall (k : nat) e, gdt_table !! k = Some e -> read_le m3 (BOOT_GDT_OFFSET + 8 * Z.of_nat k) 8 = Some e) as Hgdt.
  { intros k e Hk. pose proof (lookup_lt_Some _ _ _ Hk) as Hl. unfold gdt_table in Hl. simpl in Hl.
    rewrite (changed_read _ _ _ _ _ _ C3), (changed_read _ _ _ _ _ _ C2) by (unfold apart, BOOT_GDT_OFFSET; lia).
    rewrite <- (Z.add_0_l (Z.of_nat k)). by apply R1. }
  split_and!; try done.
  - unfold with_paging, long_mode. cbn [cr0]. by rewrite !Z.lor_spec, orb_true_r.
  - unfold with_paging, long_mode. cbn [cr0]. by rewrite !Z.lor_spec, orb_true_r.
  - unfold with_paging, long_mode. cbn [cr0]. rewrite !Z.lor_spec, Z.land_spec, lnotw_bit by done. by rewrite andb_false_r.
  - unfold with_paging, long_mode. cbn [cr0]. rewrite !Z.lor_spec, Z.land_spec, lnotw_bit by done. by rewrite andb_false_r.
  - unfold with_paging, long_mode. cbn [cr4]. by rewrite !Z.lor_spec, orb_true_r.
  - unfold with_paging, long_mode. cbn [efer]. by rewrite !Z.lor_spec, orb_true_r.
  - unfold with_paging, long_mode. cbn [efer]. by rewrite !Z.lor_spec, orb_true_r.
  - assert (forall k : nat, (1 <= k <= 3)%nat -> let seg := kvm_segment_from_gdt (default 0 (gdt_table !! k)) (Z.of_nat k) in
      loaded_from m3 {| dt_base := BOOT_GDT_OFFSET; dt_limit := 31 |} seg /\ flat seg) as Hseg.
    { intros k Hk seg. destruct (lookup_lt_is_Some_2 gdt_table k) as [e He]; [simpl; lia|]. split.
      - exists (le_bytes 8 e). subst seg. rewrite He. cbn [default dt_base dt_limit selector kvm_segment_from_gdt].
        rewrite wrap_small by (unfold is_word; lia). split; [apply read_le_slice; rewrite <- (Hgdt k e He); f_equal; lia|].
        split; [|lia]. clear -He Hk. destruct k as [|[|[|[|k]]]]; try lia; injection He as <-; vm_compute; done.
      - subst seg. clear -Hk. destruct k as [|[|[|[|k]]]]; try lia; by vm_compute. }
    repeat constructor; by (apply (Hseg 1%nat) || apply (Hseg 2%nat) || apply (Hseg 3%nat)); lia.
  - intros b n Hb. destruct C1 as [C1 _], C2 as [C2 _], C3 as [C3 _]. rewrite C3, C2, C1 by (unfold apart; lia). done.
Qed.

End Paging.

(** A vCPU that keeps the special registers it is given. *)
Definition null_segment : kvm_segment :=
  {| seg_base := 0; seg_limit := 0xffff; selector := 0; type_ := 0; present := 1; dpl := 0; db := 0; seg_s := 0; seg_l := 0;
     seg_g := 0; avl := 0; padding := 0; unusable := 0 |}.

Definition reset_sregs : kvm_sregs :=
  {| cs := null_segment; ds := null_segment; es := null_segment; fs := null_segment; gs := null_segment;
     ss := null_segment; tr := null_segment; ldt := null_segment; gdt := {| dt_base := 0; dt_limit := 0xffff |};
     idt := {| dt_base := 0; dt_limit := 0xffff |}; cr0 := 0x60000010; cr2 := 0; cr3 := 0; cr4 := 0; cr8 := 0; efer := 0;
     apic_base := 0xfee00900; interrupt_bitmap := [] |}.

Definition plain_vcpu : VcpuFd kvm_sregs :=
  {| get_sregs := Some; set_sregs := fun _ s => Some s; set_regs := fun v _ => Some v; set_fpu := fun v _ => Some v |}.

Lemma ram_zero_read len a : 0 <= a -> a + 8 <= len -> read_le (ram_zero len) a 8 = Some 0.
Proof.
  intros Ha Hl. unfold read_le. simpl read_slice. unfold ram_read, ram_has. simpl ram_len.
  rewrite (proj2 (Z.leb_le 0 a)), (proj2 (Z.leb_le _ len)) by lia. done.
Qed.

Lemma boots_in_long_mode_witness :
  exists m' v', @setup_sregs FlatRam kvm_sregs _ plain_vcpu (ram_zero 0x100000) reset_sregs = Some (m', v') /\
    walk m' (cr3 v') 0x1000000 = Some 0x1000000.
Proof.
  destruct (@boots_in_long_mode FlatRam _ _ kvm_sregs plain_vcpu (ram_zero 0x100000) reset_sregs reset_sregs)
    as (m' & v' & s' & E & Es & _ & H & _).
  - unfold low_mapped. simpl. unfold ram_read, ram_has. rewrite Z2Nat.id by lia. eexists. reflexivity.
  - intros k Hk. unfold PML4_START, PDPTE_START. by rewrite !ram_zero_read by lia.
  - reflexivity.
  - intros s'. eexists. reflexivity.
  - exists m', v'. split; [exact E|]. injection Es as <-. apply H. lia.
Defined.

(** * The e820 map *)

(** The addresses of one type. *)
Definition of_type (table : list E820Entry) (t a : Z) : Prop :=
  exists e, e ∈ table /\ e_type e = t /\ e_addr e <= a < e_addr e + e_size e.

Definition entries_apart (table : list E820Entry) : Prop :=
  forall (i j : nat) e f, table !! i = Some e -> table !! j = Some f -> i <> j ->
    apart (e_addr e) (e_size e) (e_addr f) (e_size f).

(** The table in full. *)
Lemma e820_table_eq entry cmdline mem_size rsdp :
  ACPI_SIZE <= mem_size < 2 ^ 63 -> 0 ∉ cmdline ->
  exists p, build_boot_params entry cmdline (ram_regions mem_size) rsdp = Some p /\
    acpi_start mem_size = Z.min mem_size MMIO_HOLE_START - ACPI_SIZE /\
    acpi_rsdp_addr p = default 0 rsdp /\ cmdline_size p = u32 (Z.of_nat (length cmdline) + 1) /\
    e820_table p =
      [{| e_addr := MMCONFIG_START; e_size := MMCONFIG_SIZE; e_type := E820_RESERVED |};
       {| e_addr := 0; e_size := Z.min mem_size MMIO_HOLE_START - ACPI_SIZE; e_type := E820_RAM |};
       {| e_addr := Z.min mem_size MMIO_HOLE_START - ACPI_SIZE; e_size := ACPI_SIZE; e_type := E820_ACPI |}] ++
      (if mem_size <=? MMIO_HOLE_START then []
       else [{| e_addr := MMIO_HOLE_END; e_size := mem_size - MMIO_HOLE_START; e_type := E820_RAM |}]).
Proof.
  intros Hm Hc. unfold build_boot_params.
  assert (existsb (Z.eqb 0) cmdline = false) as ->.
  { apply not_true_iff_false. intros (x & Hx & E)%existsb_exists. apply Z.eqb_eq in E as <-.
    by apply Hc, list_elem_of_In. }
  unfold ram_regions, acpi_start, ACPI_SIZE, MMIO_HOLE_START in *. destruct (mem_size <=? 0xC0000000) eqn:E; bool_prop.
  - cbn [head mbind option_bind]. rewrite Z.add_0_l, (wrap_small 64 mem_size) by (unfold is_word; lia).
    rewrite Z.min_l, wrap_small by (unfold is_word; lia). eexists. split.
    { cbn [add_regions]. unfold checked_sub. rewrite (proj2 (Z.leb_le 0 _)) by lia. cbn. reflexivity. }
    cbn [e820_table app]. unfold with_rsdp. cbn [acpi_rsdp_addr cmdline_size e820_table].
    split_and!; try done. by rewrite Z.sub_0_r.
  - cbn [head mbind option_bind]. change (0 ⊕ 0xC0000000) with 0xC0000000. rewrite (Z.min_r mem_size) by lia.
    rewrite (wrap_small 64 (mem_size - _)) by (unfold is_word; lia). eexists. split; [cbn; reflexivity|]. done.
Qed.

(** The memory map the guest is given is the memory it has.  For every size
    from the ACPI block's up, the zero page can be built; its RAM entries cover
    exactly the RAM regions less the ACPI block, the ACPI entry exactly the block
    the tables are written to (the start [Vm::new] computes from the size is the
    one computed here from the first region), the reserved entry exactly the
    ECAM window; and no two entries overlap. *)
Theorem e820_exact entry cmdline mem_size rsdp :
  ACPI_SIZE <= mem_size < 2 ^ 63 -> 0 ∉ cmdline ->
  exists p, build_boot_params entry cmdline (ram_regions mem_size) rsdp = Some p /\ acpi_rsdp_addr p = default 0 rsdp /\
    (forall a, of_type (e820_table p) E820_RAM a <->
       in_regions (ram_regions mem_size) a /\ ~ (acpi_start mem_size <= a < acpi_start mem_size + ACPI_SIZE)) /\
    (forall a, of_type (e820_table p) E820_ACPI a <-> acpi_start mem_size <= a < acpi_start mem_size + ACPI_SIZE) /\
    (forall a, of_type (e820_table p) E820_RESERVED a <-> MMCONFIG_START <= a < MMCONFIG_START + MMCONFIG_SIZE) /\
    entries_apart (e820_table p).
Proof.
  intros Hm Hc. destruct (e820_table_eq entry cmdline mem_size rsdp Hm Hc) as (p & E & Ea & Hr & _ & Et).
  exists p. split; [done|]. split; [done|]. rewrite Et, Ea.
  assert (forall t a, of_type (e820_table p) t a <-> Exists (fun e => e_type e = t /\ e_addr e <= a < e_addr e + e_size e) (e820_table p)) as Hex.
  { intros t a. unfold of_type. rewrite Exists_exists. naive_solver. }
  rewrite Et in Hex. unfold ACPI_SIZE, MMIO_HOLE_START, MMIO_HOLE_END in *.
  split_and!; [..|intros i j e f Hi Hj Hij; unfold apart, MMCONFIG_START, MMCONFIG_SIZE, MMCONFIG_BUS_COUNT in *].
  1-3: intros a; rewrite ?in_ram_regions by lia; rewrite Hex; unfold MMIO_HOLE_START, MMIO_HOLE_END;
    destruct (mem_size <=? 0xC0000000) eqn:El; bool_prop; cbn [app];
    rewrite ?Exists_cons, ?Exists_nil; cbn [e_type e_addr e_size];
    unfold E820_RAM, E820_RESERVED, E820_ACPI, MMCONFIG_START, MMCONFIG_SIZE, MMCONFIG_BUS_COUNT; lia.
  destruct (mem_size <=? 0xC0000000) eqn:El; bool_prop;
    destruct i as [|[|[|[|i]]]]; try discriminate Hi; destruct j as [|[|[|[|j]]]]; try discriminate Hj; try done;
    injection Hi as <-; injection Hj as <-; cbn [e_addr e_size]; lia.
Qed.

Lemma e820_exact_witness :
  exists p, build_boot_params 0x1000000 [] (ram_regions (4096 * 2 ^ 20)) (Some 0xBFFF0000) = Some p /\
    of_type (e820_table p) E820_RAM (2 ^ 32).
Proof.
  destruct (e820_exact 0x1000000 [] (4096 * 2 ^ 20) (Some 0xBFFF0000)) as (p & E & _ & H & _).
  - unfold ACPI_SIZE. lia.
  - apply not_elem_of_nil.
  - exists p. split; [exact E|]. apply H. split; [|unfold acpi_start, ACPI_SIZE, MMIO_HOLE_START; vm_compute; intros []; congruence].
    apply in_ram_regions; [lia|]. unfold MMIO_HOLE_START, MMIO_HOLE_END. lia.
Defined.
