(* ===== verification/Lifecycle.v ===== *)
(** Running the guest and stopping it: the reasons of [vmm/src/lifecycle.rs], the
    ACPI sleep and reset ports of [vmm/src/power.rs], the early serial port of
    [vmm/src/serial.rs], the vCPU loop of [vmm/src/vm.rs], and the threads that
    [main] of [vmm/src/bin/nesbox.rs] starts and waits for. *)

From stdpp Require Import strings.
From S2P Require Import Prelude PciBus.

Inductive ExitReason :=
  | PowerOff
  | Reset
  | GuestFault
  | HostSignal
  | Error (e : string).

#[export] Instance ExitReason_eq_dec : EqDecision ExitReason.
Proof. solve_decision. Defined.

Definition is_clean (r : ExitReason) : bool := match r with PowerOff | HostSignal => true | _ => false end.

Definition exit_code (r : ExitReason) : Z :=
  match r with PowerOff | HostSignal => 0 | Reset => 2 | GuestFault => 3 | Error _ => 1 end.

(** * The stop signal *)

Record Shutdown := { requested : bool; reason : option ExitReason }.

Definition Shutdown_new : Shutdown := {| requested := false; reason := None |}.

(** The two stores of [request], in order. *)
Definition record_reason (s : Shutdown) (r : ExitReason) : Shutdown :=
  {| requested := requested s; reason := Some (default r (reason s)) |}.
Definition raise_flag (s : Shutdown) : Shutdown := {| requested := true; reason := reason s |}.

Definition request (s : Shutdown) (r : ExitReason) : Shutdown := raise_flag (record_reason s r).

(** * Power *)

Definition SLEEP_CONTROL_PORT : Z := 0x600.
Definition SLEEP_STATUS_PORT : Z := 0x601.
Definition RESET_PORT : Z := 0xcf9.
Definition RESET_VALUE : Z := 0x0e.
Definition SLP_EN : Z := Z.shiftl 1 5.
Definition SLP_TYP_MASK : Z := 28.
Definition SLP_TYP_SHIFT : Z := 2.
Definition SLP_TYP_S5 : Z := 5.

Definition power_handles (port : Z) : bool :=
  (port =? SLEEP_CONTROL_PORT) || (port =? SLEEP_STATUS_PORT) || (port =? RESET_PORT).

Definition power_write (s : Shutdown) (port : Z) (data : list Z) : Shutdown :=
  match data with
  | [] => s
  | value :: _ =>
      if port =? SLEEP_CONTROL_PORT then
        if Z.land value SLP_EN =? 0 then s
        else if Z.shiftr (Z.land value SLP_TYP_MASK) SLP_TYP_SHIFT =? SLP_TYP_S5 then request s PowerOff
        else s
      else if port =? RESET_PORT then
        if has_bits value 0x02 then request s Reset else s
      else s
  end.

(** Every byte reads as zero. *)
Definition power_read (port : Z) (data : list Z) : list Z :=
  match data with [] => [] | _ :: rest => 0 :: replicate (length rest) 0 end.

(** * Serial *)

Definition COM1_BASE : Z := 0x3f8.
Definition COM1_LAST : Z := 0x3ff.
Definition REG_DATA : Z := 0.
Definition REG_IER : Z := 1.
Definition REG_IIR : Z := 2.
Definition REG_LCR : Z := 3.
Definition REG_MCR : Z := 4.
Definition REG_LSR : Z := 5.
Definition REG_MSR : Z := 6.
Definition REG_SCR : Z := 7.
Definition LCR_DLAB : Z := 0x80.
Definition LSR_THR_EMPTY : Z := 0x20.
Definition LSR_TRANSMITTER_IDLE : Z := 0x40.
Definition IIR_NO_INTERRUPT : Z := 0x01.
Definition MSR_DEFAULTS : Z := Z.lor (Z.lor 0x20 0x10) 0x80.

(** [handed] is what [write_all] of standard output was called with so far. *)
Record Serial := { ier : Z; lcr : Z; mcr : Z; scr : Z; divisor : Z; out : list Z; handed : list (list Z) }.

(** Standard output when every write succeeds. *)
Definition stdout (s : Serial) : list Z := concat (handed s).

(** Standard output when it takes only the given number of bytes of each write: the
    error is dropped, and the rest of the bytes with it. *)
Definition shown (takes : nat -> nat) (s : Serial) : list Z := concat (imap (fun i b => take (takes i) b) (handed s)).

Definition Serial_new : Serial :=
  {| ier := 0; lcr := 0x03; mcr := 0x08; scr := 0; divisor := 12; out := []; handed := [] |}.

Definition serial_handles (port : Z) : bool := (COM1_BASE <=? port) && (port <=? COM1_LAST).

(** The buffer is emptied whether it could be written or not. *)
Definition flush (s : Serial) : Serial :=
  match out s with
  | [] => s
  | _ => {| ier := ier s; lcr := lcr s; mcr := mcr s; scr := scr s; divisor := divisor s; out := [];
            handed := handed s ++ [out s] |}
  end.

Definition set_divisor (s : Serial) (d : Z) : Serial :=
  {| ier := ier s; lcr := lcr s; mcr := mcr s; scr := scr s; divisor := d; out := out s; handed := handed s |}.

Definition push_byte (s : Serial) (byte : Z) : Serial :=
  {| ier := ier s; lcr := lcr s; mcr := mcr s; scr := scr s; divisor := divisor s; out := out s ++ [byte];
     handed := handed s |}.

Definition serial_write (s : Serial) (port : Z) (data : list Z) : Serial :=
  match data with
  | [] => s
  | byte :: _ =>
      let dlab := has_bits (lcr s) LCR_DLAB in
      let reg := port - COM1_BASE in
      if reg =? REG_DATA then
        if dlab then set_divisor s (Z.lor (Z.land (divisor s) 0xff00) byte)
        else
          let s := push_byte s byte in
          if (byte =? 10) || (256 <=? length (out s))%nat then flush s else s
      else if reg =? REG_IER then
        if dlab then set_divisor s (Z.lor (Z.land (divisor s) 0x00ff) (Z.shiftl byte 8))
        else {| ier := Z.land byte 0x0f; lcr := lcr s; mcr := mcr s; scr := scr s; divisor := divisor s; out := out s;
                handed := handed s |}
      else if reg =? REG_IIR then s
      else if reg =? REG_LCR then
        {| ier := ier s; lcr := byte; mcr := mcr s; scr := scr s; divisor := divisor s; out := out s; handed := handed s |}
      else if reg =? REG_MCR then
        {| ier := ier s; lcr := lcr s; mcr := byte; scr := scr s; divisor := divisor s; out := out s; handed := handed s |}
      else if reg =? REG_SCR then
        {| ier := ier s; lcr := lcr s; mcr := mcr s; scr := byte; divisor := divisor s; out := out s; handed := handed s |}
      else s
  end.

Definition serial_value (s : Serial) (reg : Z) : Z :=
  let dlab := has_bits (lcr s) LCR_DLAB in
  if reg =? REG_DATA then if dlab then u8 (divisor s) else 0
  else if reg =? REG_IER then if dlab then u8 (Z.shiftr (divisor s) 8) else ier s
  else if reg =? REG_IIR then IIR_NO_INTERRUPT
  else if reg =? REG_LCR then lcr s
  else if reg =? REG_MCR then mcr s
  else if reg =? REG_LSR then Z.lor LSR_THR_EMPTY LSR_TRANSMITTER_IDLE
  else if reg =? REG_MSR then MSR_DEFAULTS
  else if reg =? REG_SCR then scr s
  else 0.

Definition serial_read (s : Serial) (port : Z) (data : list Z) : Serial * list Z :=
  let val := serial_value s (port - COM1_BASE) in
  let s := if port - COM1_BASE =? REG_LSR then flush s else s in
  (s, match data with [] => [] | _ :: rest => val :: replicate (length rest) 0 end).

(** * The vCPU loop *)

(** What [KVM_RUN] returns with; the buffers of reads are as KVM left them. *)
Inductive VcpuExit :=
  | IoOut (port : Z) (data : list Z)
  | IoIn (port : Z) (data : list Z)
  | MmioRead (addr : Z) (data : list Z)
  | MmioWrite (addr : Z) (data : list Z)
  | Hlt
  | ShutdownExit
  | Exception
  | FailEntry (hardware_reason cpu : Z)
  | InternalError
  | Unknown
  | SystemEvent (type : Z)
  | OtherExit.

Inductive RunResult := RunOk (e : VcpuExit) | RunErr (errno : Z).

Definition EINTR : Z := 4.
Definition EAGAIN : Z := 11.

(** How [kvm-ioctls] prints an error and an exit. *)
Class KvmText := { errno_text : Z -> string; exit_debug : VcpuExit -> string; hex_text : Z -> string }.

Section Loop.
Context {D G : Type} {HD : PciDevice D} {HG : IoeventRegistrar G} {HT : KvmText}.

(** What the vCPUs share. *)
Record Board := { pci_bus : Bus D G; serial : Serial; shutdown : Shutdown }.

Definition with_bus (b : Board) (bus : Bus D G) : Board :=
  {| pci_bus := bus; serial := serial b; shutdown := shutdown b |}.
Definition with_serial (b : Board) (s : Serial) : Board :=
  {| pci_bus := pci_bus b; serial := s; shutdown := shutdown b |}.
Definition with_shutdown (b : Board) (s : Shutdown) : Board :=
  {| pci_bus := pci_bus b; serial := serial b; shutdown := s |}.

(** A fatal exit: ask to stop and leave the loop. *)
Definition stop (b : Board) (r : ExitReason) : Board * list Z * bool :=
  (with_shutdown b (request (shutdown b) r), [], false).

(** One exit: the board after it, the bytes a read returns, and whether the loop
    goes on. *)
Definition vcpu_exit (b : Board) (e : VcpuExit) : Board * list Z * bool :=
  match e with
  | IoOut port data =>
      if power_handles port then (with_shutdown b (power_write (shutdown b) port data), [], true)
      else if serial_handles port then (with_serial b (serial_write (serial b) port data), [], true)
      else (with_bus b (handle_pio_write (pci_bus b) port data).1, [], true)
  | IoIn port data =>
      if power_handles port then (b, power_read port data, true)
      else if serial_handles port then
        let '(s, d) := serial_read (serial b) port data in (with_serial b s, d, true)
      else
        let '(bus, d, ok) := handle_pio_read (pci_bus b) port data in
        (with_bus b bus, if ok : bool then d else replicate (length data) 0xff, true)
  | MmioRead addr data =>
      let '(bus, d, ok) := handle_mmio_read (pci_bus b) addr data in
      (with_bus b bus, if ok : bool then d else replicate (length data) 0xff, true)
  | MmioWrite addr data => (with_bus b (handle_mmio_write (pci_bus b) addr data).1, [], true)
  | Hlt | ShutdownExit | Exception => stop b GuestFault
  | FailEntry r _ => stop b (Error (String.append "VM entry failed with reason " (hex_text r)))
  | InternalError | Unknown | SystemEvent _ => stop b (Error (String.append "unrecoverable vCPU exit: " (exit_debug e)))
  | OtherExit => (b, [], true)
  end.

Definition vcpu_result (b : Board) (r : RunResult) : Board * list Z * bool :=
  match r with
  | RunOk e => vcpu_exit b e
  | RunErr errno =>
      if errno =? EINTR then (b, [], true)
      else if errno =? EAGAIN then (b, [], true)
      else stop b (Error (String.append "KVM_RUN failed: " (errno_text errno)))
  end.

(** The loop over what [KVM_RUN] returns in turn; the flag says it has ended. *)
Fixpoint run_vcpu_loop (b : Board) (runs : list RunResult) : Board * list (list Z) * bool :=
  if requested (shutdown b) then (b, [], true)
  else
    match runs with
    | [] => (b, [], false)
    | r :: runs =>
        let '(b, d, more) := vcpu_result b r in
        if more : bool then let '(b, ds, ended) := run_vcpu_loop b runs in (b, d :: ds, ended)
        else (b, [d], true)
    end.

End Loop.

Arguments Board : clear implicits.

(** * The threads

    One per vCPU, the watcher that turns a signal into a request and wakes the
    vCPUs, and the main thread that joins them. *)

Inductive VcpuPc :=
  | AtHead               (* about to look at the stop flag *)
  | Entering             (* has looked, not yet in KVM_RUN *)
  | InGuest              (* in KVM_RUN *)
  | Asking (r : ExitReason) (leave : bool)   (* in request: the reason next *)
  | Raising (leave : bool)                   (* in request: the flag next *)
  | Leaving              (* out of the loop *)
  | Gone.                (* counted in vcpus_exited *)

Inductive WatchPc := WatchFlag | WatchSignal | WatchCount | WatchAsk | WatchRaise | Wake | Kill (k : nat) | WatchDone.

Inductive MainPc := JoinWatcher | JoinVcpu (k : nat) | MainAsk | MainRaise | Exited (code : Z).

Record Process := {
  stop_flag : Shutdown;
  signalled : bool;
  vcpus : list VcpuPc;
  vcpus_exited : nat;
  watcher : WatchPc;
  main_pc : MainPc
}.

Definition Process_new (vcpu_count : nat) : Process :=
  {| stop_flag := Shutdown_new; signalled := false; vcpus := replicate vcpu_count AtHead; vcpus_exited := 0;
     watcher := WatchFlag; main_pc := JoinWatcher |}.

Definition set_vcpu (p : Process) (k : nat) (v : VcpuPc) : Process :=
  {| stop_flag := stop_flag p; signalled := signalled p; vcpus := <[k := v]> (vcpus p); vcpus_exited := vcpus_exited p;
     watcher := watcher p; main_pc := main_pc p |}.
Definition set_stop (p : Process) (s : Shutdown) : Process :=
  {| stop_flag := s; signalled := signalled p; vcpus := vcpus p; vcpus_exited := vcpus_exited p; watcher := watcher p;
     main_pc := main_pc p |}.
Definition set_watcher (p : Process) (w : WatchPc) : Process :=
  {| stop_flag := stop_flag p; signalled := signalled p; vcpus := vcpus p; vcpus_exited := vcpus_exited p; watcher := w;
     main_pc := main_pc p |}.
Definition set_main (p : Process) (m : MainPc) : Process :=
  {| stop_flag := stop_flag p; signalled := signalled p; vcpus := vcpus p; vcpus_exited := vcpus_exited p;
     watcher := watcher p; main_pc := m |}.

Definition ALL_STOPPED : ExitReason := Error "all vCPUs stopped".

(** A vCPU thread on its own.  [Guest] is an exit the guest makes: what it asks
    for, if anything, and whether the loop is left for it. *)
Inductive vcpu_step : Shutdown -> VcpuPc -> Shutdown -> VcpuPc -> Prop :=
  | head_stop s : requested s = true -> vcpu_step s AtHead s Leaving
  | head_go s : requested s = false -> vcpu_step s AtHead s Entering
  | enter s : vcpu_step s Entering s InGuest
  | ask s r leave : vcpu_step s (Asking r leave) (record_reason s r) (Raising leave)
  | raise s leave : vcpu_step s (Raising leave) (raise_flag s) (if leave : bool then Leaving else AtHead).

Inductive guest_step : VcpuPc -> VcpuPc -> Prop :=
  | guest_access : guest_step InGuest AtHead
  | guest_asks r leave : r <> ALL_STOPPED -> guest_step InGuest (Asking r leave).

(** What the threads do without the guest or the host. *)
Inductive own_step : Process -> Process -> Prop :=
  | step_vcpu p k v s' v' :
      vcpus p !! k = Some v -> vcpu_step (stop_flag p) v s' v' -> own_step p (set_vcpu (set_stop p s') k v')
  (* [CountOnDrop] *)
  | step_count p k :
      vcpus p !! k = Some Leaving ->
      own_step p {| stop_flag := stop_flag p; signalled := signalled p; vcpus := <[k := Gone]> (vcpus p);
                vcpus_exited := S (vcpus_exited p); watcher := watcher p; main_pc := main_pc p |}
  | step_watch_flag p :
      watcher p = WatchFlag -> own_step p (set_watcher p (if requested (stop_flag p) then Wake else WatchSignal))
  | step_watch_signal p :
      watcher p = WatchSignal -> own_step p (set_watcher p (if signalled p then WatchAsk else WatchCount))
  | step_watch_count p :
      watcher p = WatchCount ->
      own_step p (set_watcher p (if (vcpus_exited p =? length (vcpus p))%nat then WatchDone else WatchFlag))
  | step_watch_ask p :
      watcher p = WatchAsk -> own_step p (set_watcher (set_stop p (record_reason (stop_flag p) HostSignal)) WatchRaise)
  | step_watch_raise p : watcher p = WatchRaise -> own_step p (set_watcher (set_stop p (raise_flag (stop_flag p))) Wake)
  | step_wake p :
      watcher p = Wake ->
      own_step p (set_watcher p (if (vcpus_exited p <? length (vcpus p))%nat then Kill 0 else WatchDone))
  (* the signal interrupts KVM_RUN, and is lost on a thread anywhere else *)
  | step_kill_in p k :
      watcher p = Kill k -> vcpus p !! k = Some InGuest -> own_step p (set_watcher (set_vcpu p k AtHead) (Kill (S k)))
  | step_kill_out p k v :
      watcher p = Kill k -> vcpus p !! k = Some v -> v <> InGuest -> own_step p (set_watcher p (Kill (S k)))
  | step_killed p k : watcher p = Kill k -> (length (vcpus p) <= k)%nat -> own_step p (set_watcher p Wake)
  | step_join_watcher p : main_pc p = JoinWatcher -> watcher p = WatchDone -> own_step p (set_main p (JoinVcpu 0))
  | step_join p k : main_pc p = JoinVcpu k -> vcpus p !! k = Some Gone -> own_step p (set_main p (JoinVcpu (S k)))
  | step_joined p k : main_pc p = JoinVcpu k -> (length (vcpus p) <= k)%nat -> own_step p (set_main p MainAsk)
  | step_main_ask p :
      main_pc p = MainAsk -> own_step p (set_main (set_stop p (record_reason (stop_flag p) ALL_STOPPED)) MainRaise)
  | step_main_raise p :
      main_pc p = MainRaise ->
      own_step p (set_main (set_stop p (raise_flag (stop_flag p)))
                (Exited (exit_code (default GuestFault (reason (stop_flag p)))))).

Inductive step : Process -> Process -> Prop :=
  | step_own p p' : own_step p p' -> step p p'
  | step_guest p k v v' : vcpus p !! k = Some v -> guest_step v v' -> step p (set_vcpu p k v')
  (* SIGTERM or SIGINT: the handler only stores the flag *)
  | step_signal p :
      step p {| stop_flag := stop_flag p; signalled := true; vcpus := vcpus p; vcpus_exited := vcpus_exited p;
                watcher := watcher p; main_pc := main_pc p |}.
