(* ===== verification/LifecycleFacts.v ===== *)
(** Stopping is orderly: the vCPU loop ends only after a request and the first
    reason is the one kept; the process exits once every thread is gone, with
    that reason's code, and from wherever it is once asked to stop it can get
    there without the guest's help. *)

From stdpp Require Import strings.
From S2P Require Import Prelude PciBus PciBusAccess Lifecycle.

#[export] Instance VcpuPc_eq_dec : EqDecision VcpuPc.
Proof. solve_decision. Defined.

(** * The loop *)

Section Loop.
Context {D G : Type} {HD : PciDevice D} {HG : IoeventRegistrar G} {HT : KvmText}.
Implicit Types (b : Board D G).

(** What a guest's write to the power ports asks for. *)
Definition power_asks (port : Z) (data : list Z) : option ExitReason :=
  value ← head data;
  if (port =? SLEEP_CONTROL_PORT) && Z.testbit value 5 && (Z.land (Z.shiftr value 2) 7 =? 5) then Some PowerOff
  else if (port =? RESET_PORT) && Z.testbit value 1 then Some Reset else None.

Lemma land_pow2_bit x k : 0 <= k -> (Z.land x (2 ^ k) =? 0) = negb (Z.testbit x k).
Proof.
  intros Hk. rewrite <- (Z.shiftl_1_l k). destruct (Z.testbit x k) eqn:E; simpl.
  - apply Z.eqb_neq. intros H. assert (Z.testbit (Z.land x (Z.shiftl 1 k)) k = false) by (by rewrite H, Z.bits_0).
    rewrite Z.land_spec, E, Z.shiftl_spec, Z.sub_diag in * by lia. done.
  - apply Z.eqb_eq. apply Z.bits_inj'. intros j Hj. rewrite Z.land_spec, Z.bits_0, Z.shiftl_spec by lia.
    destruct (decide (j = k)) as [->|Hn]; [by rewrite E|]. destruct (decide (j < k)); [by rewrite (Z.testbit_neg_r 1), andb_false_r by lia|].
    rewrite <- (Z.pow_0_r 2), Z.pow2_bits_false by lia. by rewrite andb_false_r.
Qed.

Lemma power_write_asks s port data :
  power_write s port data = match power_asks port data with Some r => request s r | None => s end.
Proof.
  destruct data as [|v data]; [done|]. unfold power_write, power_asks. cbn [head mbind option_bind].
  change SLP_EN with (2 ^ 5). unfold has_bits. change (Z.land v 2) with (Z.land v (2 ^ 1)).
  rewrite (land_pow2_bit v 5), (land_pow2_bit v 1) by lia.
  assert (Z.shiftr (Z.land v SLP_TYP_MASK) SLP_TYP_SHIFT = Z.land (Z.shiftr v 2) 7) as -> by (by rewrite Z.shiftr_land).
  unfold SLP_TYP_S5. destruct (port =? SLEEP_CONTROL_PORT) eqn:E; bool_prop.
  - subst port. change (SLEEP_CONTROL_PORT =? RESET_PORT) with false.
    change (SLEEP_CONTROL_PORT =? SLEEP_CONTROL_PORT) with true. destruct (Z.testbit v 5), (Z.land (Z.shiftr v 2) 7 =? 5); done.
  - rewrite negb_involutive. by destruct (port =? RESET_PORT), (Z.testbit v 1).
Qed.

Lemma power_asks_clean port data r : power_asks port data = Some r -> r = PowerOff \/ r = Reset.
Proof. unfold power_asks. destruct data; [done|]. cbn [head mbind option_bind]. repeat case_match; naive_solver. Qed.

(** Each return of [KVM_RUN] either goes on with the stop signal as it was or as
    a write to the power ports left it, or asks to stop and leaves. *)
Lemma vcpu_result_asks b r :
  let '(b', _, more) := vcpu_result b r in
  (shutdown b' = shutdown b /\ more = true) \/
  exists reason, reason <> ALL_STOPPED /\ shutdown b' = request (shutdown b) reason.
Proof.
  destruct r as [e|errno]; simpl.
  - destruct e; simpl; try (right; eexists; split; [|done]; unfold ALL_STOPPED; discriminate).
    + destruct (power_handles port); [|destruct (serial_handles port); by left].
      simpl. rewrite power_write_asks. destruct (power_asks port data) as [r|] eqn:E; [|by left].
      right. exists r. split; [|done]. by destruct (power_asks_clean _ _ _ E) as [-> | ->].
    + destruct (power_handles port); [by left|]. destruct (serial_handles port); [by left|].
      destruct (handle_pio_read (pci_bus b) port data) as [[bus d] ok]. by left.
    + destruct (handle_mmio_read (pci_bus b) addr data) as [[bus d] ok]. by left.
    + by left.
    + by left.
  - destruct (errno =? EINTR); [by left|]. destruct (errno =? EAGAIN); [by left|]. right; eexists; split; [|done]; unfold ALL_STOPPED; discriminate.
Qed.

Lemma vcpu_result_fatal b r :
  (vcpu_result b r).2 = false -> requested (shutdown (vcpu_result b r).1.1) = true.
Proof.
  destruct r as [e|errno]; simpl.
  - destruct e; simpl; try done; repeat case_match; simpl; try done.
  - repeat case_match; done.
Qed.

Lemma request_keeps s r r' : reason s = Some r -> reason (request s r') = Some r.
Proof. intros H. simpl. by rewrite H. Qed.

(** A vCPU leaves its loop only when the machine is stopping, and the first
    reason is the one reported.  Over any returns of KVM_RUN, from a stop signal
    whose flag implies a reason: if the loop ends, the flag is up and a reason is
    recorded; a reason already recorded is never displaced; if it has not ended,
    the flag is down and nothing has been recorded since; and once the flag is up
    the loop ends before KVM_RUN is called again. *)
Theorem vcpu_loop_stops b runs :
  (requested (shutdown b) = true -> is_Some (reason (shutdown b))) ->
  let '(b', ds, ended) := run_vcpu_loop b runs in
  (ended = true -> requested (shutdown b') = true /\ is_Some (reason (shutdown b'))) /\
  (forall r, reason (shutdown b) = Some r -> reason (shutdown b') = Some r) /\
  (ended = false -> shutdown b' = shutdown b /\ requested (shutdown b') = false /\ length ds = length runs) /\
  (requested (shutdown b) = true -> b' = b /\ ds = [] /\ ended = true).
Proof.
  revert b. induction runs as [|r runs IH]; intros b Hok; cbn [run_vcpu_loop].
  { destruct (requested (shutdown b)) eqn:E; naive_solver. }
  destruct (requested (shutdown b)) eqn:E; [naive_solver|].
  pose proof (vcpu_result_asks b r) as Ha. pose proof (vcpu_result_fatal b r) as Hf.
  destruct (vcpu_result b r) as [[b1 d] more]. simpl in Hf.
  assert (requested (shutdown b1) = true -> is_Some (reason (shutdown b1))) as Hok1.
  { destruct Ha as [[-> _]|(x & _ & ->)]; [by rewrite E|done]. }
  assert (forall x, reason (shutdown b) = Some x -> reason (shutdown b1) = Some x) as Hk.
  { intros x Hx. destruct Ha as [[-> _]|(y & _ & ->)]; [done|by apply request_keeps]. }
  destruct more; [|naive_solver]. specialize (IH b1 Hok1).
  destruct (run_vcpu_loop b1 runs) as [[b2 ds] ended]. destruct IH as (I1 & I2 & I3 & I4).
  split; [done|]. split; [auto|]. split; [|done]. intros He. destruct (I3 He) as (H1 & H2 & H3).
  split; [|split; [done|simpl; by rewrite H3]]. destruct Ha as [[Ha _]|(x & _ & Ha)]; [congruence|].
  rewrite H1, Ha in H2. discriminate.
Qed.

End Loop.

#[local] Instance plain_text : KvmText := {| errno_text := fun _ => "EIO"; exit_debug := fun _ => "?"; hex_text := fun _ => "0x0" |}.

Definition test_board : Board FakeDevice RecordingRegistrar :=
  {| pci_bus := set_ioevent_registrar (Bus_new TEST_MMIO64) []; serial := Serial_new; shutdown := Shutdown_new |}.

(** A guest prints a byte, then powers off; what it does after is not served. *)
Definition power_off_runs : list RunResult :=
  [RunOk (IoOut 0x3f8 [104]); RunErr EINTR; RunOk (IoOut 0x600 [0x34]); RunOk (IoOut 0xcf9 [0x0e])].

Lemma vcpu_loop_stops_witness :
  (run_vcpu_loop test_board power_off_runs).2 = true /\
  requested (shutdown (run_vcpu_loop test_board power_off_runs).1.1) = true /\
  reason (shutdown (run_vcpu_loop test_board power_off_runs).1.1) = Some PowerOff.
Proof.
  pose proof (vcpu_loop_stops test_board power_off_runs) as H.
  assert ((run_vcpu_loop test_board power_off_runs).2 = true) as E by (vm_compute; reflexivity).
  destruct (run_vcpu_loop test_board power_off_runs) as [[b' ds] ended] eqn:Er.
  split; [exact E|]. split; [apply H; [discriminate|exact E]|].
  simpl. apply (f_equal (fun x => reason (shutdown x.1.1))) in Er. simpl in Er. rewrite <- Er. vm_compute. reflexivity.
Defined.

(** * The threads *)

#[local] Instance WatchPc_eq_dec : EqDecision WatchPc.
Proof. solve_decision. Defined.

Definition gone (l : list VcpuPc) : nat := length (filter (fun v => v = Gone) l).

Lemma gone_insert l k v v' :
  l !! k = Some v ->
  (gone (<[k := v']> l) + (if decide (v = Gone) then 1 else 0) = gone l + (if decide (v' = Gone) then 1 else 0))%nat.
Proof.
  unfold gone. revert k. induction l as [|x l IH]; intros [|k] H; simpl in H; [done..| |].
  - injection H as ->. change (<[0%nat := v']> (v :: l)) with (v' :: l). rewrite !filter_cons.
    destruct (decide (v = Gone)), (decide (v' = Gone)); cbn [length]; lia.
  - change (<[S k := v']> (x :: l)) with (x :: <[k := v']> l). rewrite !filter_cons. specialize (IH k H).
    destruct (decide (x = Gone)); cbn [length]; lia.
Qed.

Lemma gone_all l : gone l = length l -> Forall (fun v => v = Gone) l.
Proof.
  unfold gone. induction l as [|v l IH]; [constructor|]. rewrite filter_cons. case_decide as Hv.
  - simpl. intros H. constructor; [done|]. apply IH. lia.
  - simpl. pose proof (length_filter (fun v => v = Gone) l). lia.
Qed.

Lemma gone_le l : (gone l <= length l)%nat.
Proof. apply length_filter. Qed.

(** What a vCPU thread's place says of the stop signal. *)
Definition vcpu_ok (s : Shutdown) (v : VcpuPc) : Prop :=
  match v with
  | Asking r _ => r <> ALL_STOPPED
  | Raising _ => is_Some (reason s)
  | Leaving | Gone => requested s = true
  | _ => True
  end.

Definition later (s s' : Shutdown) : Prop :=
  (requested s = true -> requested s' = true) /\ (forall r, reason s = Some r -> reason s' = Some r).

Lemma record_later s r : later s (record_reason s r).
Proof. split; [done|]. intros x H. simpl. by rewrite H. Qed.

Lemma raise_later s : later s (raise_flag s).
Proof. by split. Qed.

Lemma later_refl s : later s s.
Proof. by split. Qed.

Lemma vcpu_ok_later s s' v : later s s' -> vcpu_ok s v -> vcpu_ok s' v.
Proof. intros [H1 H2]. destruct v; simpl; auto. intros [r Hr]. eauto. Qed.

Lemma vcpus_ok_later s s' l : later s s' -> Forall (vcpu_ok s) l -> Forall (vcpu_ok s') l.
Proof. intros H Hl. eapply Forall_impl; [exact Hl|]. intros v. by apply vcpu_ok_later. Qed.

Definition waking (w : WatchPc) : bool := match w with Wake | Kill _ => true | _ => false end.

Record inv (n : nat) (p : Process) : Prop := {
  inv_len : length (vcpus p) = n;
  inv_flag : requested (stop_flag p) = true -> is_Some (reason (stop_flag p));
  inv_vcpus : Forall (vcpu_ok (stop_flag p)) (vcpus p);
  inv_count : vcpus_exited p = gone (vcpus p);
  inv_first : (0 < n)%nat -> reason (stop_flag p) <> Some ALL_STOPPED;
  inv_watch : watcher p = WatchRaise -> is_Some (reason (stop_flag p));
  inv_wake : waking (watcher p) = true -> requested (stop_flag p) = true;
  inv_done : watcher p = WatchDone -> vcpus_exited p = n;
  inv_main : main_pc p <> JoinWatcher -> watcher p = WatchDone;
  inv_raise : main_pc p = MainRaise -> is_Some (reason (stop_flag p));
  inv_exit : forall c, main_pc p = Exited c -> exists r, reason (stop_flag p) = Some r /\ c = exit_code r
}.

Lemma inv_new n : inv n (Process_new n).
Proof.
  split; simpl; try done.
  - apply length_replicate.
  - apply Forall_replicate. done.
  - symmetry. unfold gone. rewrite length_zero_iff_nil. induction n; [done|]. simpl. rewrite filter_cons. done.
Qed.

(** Once the watcher is done every thread is gone, and had been told to stop. *)
Lemma inv_all_gone n p : inv n p -> watcher p = WatchDone -> Forall (fun v => v = Gone) (vcpus p).
Proof. intros I Hw. apply gone_all. rewrite <- (inv_count _ _ I), (inv_len _ _ I). by apply (inv_done _ _ I). Qed.

Lemma inv_told n p : inv n p -> (0 < n)%nat -> watcher p = WatchDone -> is_Some (reason (stop_flag p)).
Proof.
  intros I Hn Hw. apply (inv_flag _ _ I). pose proof (inv_all_gone _ _ I Hw) as Hg. pose proof (inv_vcpus _ _ I) as Hv.
  rewrite <- (inv_len _ _ I) in Hn. destruct (vcpus p) as [|v l]; simpl in Hn; [lia|].
  apply Forall_cons in Hg as [-> _]. by apply Forall_cons in Hv as [Hv _].
Qed.

(** A vCPU thread that moves without being counted. *)
Lemma inv_move n p k v v' s' :
  inv n p -> later (stop_flag p) s' -> (requested s' = true -> is_Some (reason s')) ->
  ((0 < n)%nat -> reason s' <> Some ALL_STOPPED) ->
  vcpus p !! k = Some v -> v <> Gone -> v' <> Gone -> vcpu_ok s' v' -> inv n (set_vcpu (set_stop p s') k v').
Proof.
  intros I Hl Hs Hf Hk Hv Hv' Hok. destruct Hl as [Hl1 Hl2]. destruct I. split; simpl; try done.
  - by rewrite length_insert.
  - apply Forall_insert; [by eapply vcpus_ok_later|done].
  - pose proof (gone_insert (vcpus p) k v v' Hk) as Hg. rewrite !decide_False in Hg by done. lia.
  - intros H. destruct (inv_watch0 H) as [r Hr]. eauto.
  - auto.
  - intros H. destruct (inv_raise0 H) as [r Hr]. eauto.
  - intros c H. destruct (inv_exit0 c H) as (r & Hr & ->). eauto.
Qed.

Lemma inv_set_watcher n p w :
  inv n p -> watcher p <> WatchDone ->
  (w = WatchRaise -> is_Some (reason (stop_flag p))) -> (waking w = true -> requested (stop_flag p) = true) ->
  (w = WatchDone -> vcpus_exited p = n) ->
  inv n (set_watcher p w).
Proof.
  intros I Hw H1 H2 H3. destruct I. split; simpl; try done. intros Hm. exfalso. auto.
Qed.

(** Changing the stop signal alone. *)
Lemma inv_set_stop n p s' :
  inv n p -> later (stop_flag p) s' -> (requested s' = true -> is_Some (reason s')) ->
  ((0 < n)%nat -> reason s' <> Some ALL_STOPPED) -> inv n (set_stop p s').
Proof.
  intros I Hl Hs Hf. pose proof Hl as [Hl1 Hl2]. destruct I. split; simpl; try done.
  - by eapply vcpus_ok_later.
  - intros H. destruct (inv_watch0 H) as [r Hr]. eauto.
  - auto.
  - intros H. destruct (inv_raise0 H) as [r Hr]. eauto.
  - intros c H. destruct (inv_exit0 c H) as (r & Hr & ->). eauto.
Qed.

Lemma inv_set_main n p m :
  inv n p -> watcher p = WatchDone -> (m = MainRaise -> is_Some (reason (stop_flag p))) ->
  (forall c, m = Exited c -> exists r, reason (stop_flag p) = Some r /\ c = exit_code r) -> inv n (set_main p m).
Proof. intros I Hw H1 H2. destruct I. split; simpl; done. Qed.

Lemma record_first n s r :
  ((0 < n)%nat -> reason s <> Some ALL_STOPPED) -> r <> ALL_STOPPED ->
  (0 < n)%nat -> reason (record_reason s r) <> Some ALL_STOPPED.
Proof. intros H Hr Hn. specialize (H Hn). simpl. destruct (reason s); simpl; congruence. Qed.

Lemma inv_vcpu_step n p k v s' v' :
  inv n p -> vcpus p !! k = Some v -> vcpu_step (stop_flag p) v s' v' -> inv n (set_vcpu (set_stop p s') k v').
Proof.
  intros I Hk Hs. pose proof (Forall_lookup_1 _ _ _ _ (inv_vcpus _ _ I) Hk) as Hok.
  pose proof (inv_flag _ _ I) as Hf. pose proof (inv_first _ _ I) as H1.
  inversion Hs; subst; simpl in Hok;
    (eapply inv_move; [exact I|first [apply later_refl|apply record_later|apply raise_later]|..|exact Hk| | |]; try done).
  - by apply record_first.
  - simpl. by destruct (reason (stop_flag p)).
  - by destruct leave.
  - by destruct leave.
Qed.

Lemma inv_own_step n p p' : inv n p -> own_step p p' -> inv n p'.
Proof.
  intros I Hs. pose proof (inv_len _ _ I) as Hlen. pose proof (inv_first _ _ I) as H1. pose proof (inv_main _ _ I) as Hmain.
  destruct Hs as [p k v s' v' Hk Hs|p k Hk|p Hw|p Hw|p Hw|p Hw|p Hw|p Hw|p k Hw Hk|p k v Hw Hk Hv|p k Hw Hk
    |p Hm Hw|p k Hm Hk|p k Hm Hk|p Hm|p Hm].
  - by eapply inv_vcpu_step.
  - assert (vcpus_exited p = n -> Forall (fun v => v = Gone) (vcpus p)) as Hall
      by (intros E; apply gone_all; rewrite <- (inv_count _ _ I); lia).
    pose proof (Forall_lookup_1 _ _ _ _ (inv_vcpus _ _ I) Hk) as Hok.
    pose proof (gone_insert (vcpus p) k Leaving Gone Hk) as Hg. simpl in Hg.
    destruct I. split; simpl; try done.
    + by rewrite length_insert.
    + apply Forall_insert; [done|exact Hok].
    + lia.
    + intros Hw. exfalso. specialize (Hall (inv_done0 Hw)). pose proof (Forall_lookup_1 _ _ _ _ Hall Hk). done.
  - apply inv_set_watcher; [done|congruence|by case_match..].
  - apply inv_set_watcher; [done|congruence|by case_match..].
  - apply inv_set_watcher; [done|congruence|by case_match|by case_match|]. case_match eqn:E; [|done]. apply Nat.eqb_eq in E. lia.
  - apply inv_set_watcher; simpl; [|congruence|done|try done|done].
    apply inv_set_stop; [done|apply record_later|done|by apply record_first].
  - apply inv_set_watcher; simpl; [|congruence|done|try done|done].
    apply inv_set_stop; [done|apply raise_later|intros _; by apply (inv_watch _ _ I)|done].
  - assert (requested (stop_flag p) = true) as Hr by (apply (inv_wake _ _ I); by rewrite Hw).
    apply inv_set_watcher; [done|congruence|by case_match|by case_match|]. case_match eqn:E; [done|]. apply Nat.ltb_ge in E.
    rewrite (inv_count _ _ I) in *. pose proof (gone_le (vcpus p)). lia.
  - assert (requested (stop_flag p) = true) as Hr by (apply (inv_wake _ _ I); by rewrite Hw).
    apply inv_set_watcher; simpl; [|congruence|done|done|done].
    replace (set_vcpu p k AtHead) with (set_vcpu (set_stop p (stop_flag p)) k AtHead) by (by destruct p).
    eapply inv_move; [exact I|apply later_refl|exact (inv_flag _ _ I)|done|exact Hk|done..].
  - assert (requested (stop_flag p) = true) as Hr by (apply (inv_wake _ _ I); by rewrite Hw).
    by apply inv_set_watcher; [|congruence|..].
  - assert (requested (stop_flag p) = true) as Hr by (apply (inv_wake _ _ I); by rewrite Hw).
    by apply inv_set_watcher; [|congruence|..].
  - by apply inv_set_main.
  - apply inv_set_main; [done|apply Hmain; congruence|done..].
  - apply inv_set_main; [done|apply Hmain; congruence|done..].
  - apply inv_set_main; simpl; [|apply Hmain; congruence|done|done].
    assert (watcher p = WatchDone) as Hw by (apply Hmain; congruence).
    apply inv_set_stop; [done|apply record_later|done|]. intros Hn. destruct (inv_told _ _ I Hn Hw) as [r Hr].
    specialize (H1 Hn). simpl. rewrite Hr in *. done.
  - destruct (inv_raise _ _ I Hm) as [r Hr]. apply inv_set_main; simpl; [|apply Hmain; congruence|done|].
    + apply inv_set_stop; [done|apply raise_later|intros _; by exists r|done].
    + intros c [= <-]. rewrite Hr. eauto.
Qed.

Lemma inv_step n p p' : inv n p -> step p p' -> inv n p'.
Proof.
  intros I Hs. destruct Hs as [p p' Hs|p k v v' Hk Hg|p].
  - by eapply inv_own_step.
  - replace (set_vcpu p k v') with (set_vcpu (set_stop p (stop_flag p)) k v') by (by destruct p).
    eapply inv_move; [exact I|apply later_refl|exact (inv_flag _ _ I)|exact (inv_first _ _ I)|exact Hk|..]; by inversion Hg; subst.
  - destruct I. by split.
Qed.

Lemma inv_steps n p p' : inv n p -> rtc step p p' -> inv n p'.
Proof. intros I Hs. induction Hs as [p|p q p' H1 _ IH]; [done|]. apply IH. by eapply inv_step. Qed.

Lemma step_later p p' : step p p' -> later (stop_flag p) (stop_flag p').
Proof.
  intros Hs. destruct Hs as [p p' Hs| |]; [|apply later_refl..].
  destruct Hs as [p k v s' v' Hk Hs| | | | | | | | | | | | | | |]; simpl;
    try apply later_refl; try apply record_later; try apply raise_later.
  inversion Hs; subst; first [apply later_refl|apply record_later|apply raise_later].
Qed.

Lemma steps_later p p' : rtc step p p' -> later (stop_flag p) (stop_flag p').
Proof.
  induction 1 as [p|p q p' H1 _ IH]; [apply later_refl|]. destruct (step_later _ _ H1), IH. split; auto.
Qed.

(** C11: The process ends in order, whatever the interleaving.  In every state
    the threads can reach: the stop flag is up only after a reason was recorded,
    and the first reason stays; a vCPU thread is only signalled while the main
    thread waits for the watcher, so no thread that is signalled has been joined;
    and when the process has exited, every vCPU thread is gone and the code is
    that of the first reason, which was the guest's, a vCPU's or the host's and
    never the fallback. *)
Theorem process_ends_in_order n p :
  (0 < n)%nat -> rtc step (Process_new n) p ->
  (requested (stop_flag p) = true -> is_Some (reason (stop_flag p))) /\
  (forall r p', reason (stop_flag p) = Some r -> rtc step p p' -> reason (stop_flag p') = Some r) /\
  (forall k, watcher p = Kill k -> main_pc p = JoinWatcher) /\
  (forall c, main_pc p = Exited c ->
     Forall (fun v => v = Gone) (vcpus p) /\
     exists r, reason (stop_flag p) = Some r /\ r <> ALL_STOPPED /\ c = exit_code r).
Proof.
  intros Hn Hs. pose proof (inv_steps _ _ _ (inv_new n) Hs) as I. split; [apply (inv_flag _ _ I)|]. split.
  { intros r p' Hr Hs'. by apply (proj2 (steps_later _ _ Hs')). }
  split.
  - intros k Hk. destruct (main_pc p) eqn:E; [done|..]; exfalso;
      (assert (watcher p = WatchDone) by (apply (inv_main _ _ I); congruence)); congruence.
  - intros c Hc. assert (watcher p = WatchDone) as Hw by (apply (inv_main _ _ I); congruence).
    split; [by eapply inv_all_gone|]. destruct (inv_exit _ _ I c Hc) as (r & Hr & ->). exists r.
    split; [done|]. split; [|done]. intros ->. by apply (inv_first _ _ I).
Qed.

(** * Getting there *)

Definition weight (v : VcpuPc) : nat :=
  match v with Gone => 0 | Leaving => 1 | AtHead => 2 | InGuest => 3 | Entering => 4 | Raising _ => 5 | Asking _ _ => 6 end.

Definition total (l : list VcpuPc) : nat := sum_list_with weight l.

Lemma total_set l k v v' : l !! k = Some v -> (weight v' < weight v)%nat -> (total (<[k := v']> l) < total l)%nat.
Proof.
  unfold total. revert k. induction l as [|x l IH]; intros [|k] H Hw; simpl in *; [done..| |].
  - injection H as ->. lia.
  - specialize (IH k H Hw). lia.
Qed.

(** The stop flag is up and stays up. *)
Definition stopping (n : nat) (p : Process) : Prop := inv n p /\ requested (stop_flag p) = true.

Lemma stopping_step n p p' : stopping n p -> own_step p p' -> stopping n p'.
Proof.
  intros [I Hr] Hs. split; [by eapply inv_own_step|]. by apply (proj1 (step_later p p' (step_own _ _ Hs))).
Qed.

(** A thread that is neither in the guest nor gone takes a step. *)
Lemma vcpu_moves n p k v :
  stopping n p -> vcpus p !! k = Some v -> v <> InGuest -> v <> Gone ->
  exists p', own_step p p' /\ (total (vcpus p') < total (vcpus p))%nat.
Proof.
  intros [I Hr] Hk Hg Ho.
  assert (v = Leaving \/ exists s' v', vcpu_step (stop_flag p) v s' v' /\ (weight v' < weight v)%nat) as [->|(s' & v' & Hs & Hw)].
  { destruct v; try done; [right..|by left].
    - do 2 eexists. split; [by apply head_stop|]. simpl. lia.
    - do 2 eexists. split; [apply enter|]. simpl. lia.
    - do 2 eexists. split; [apply ask|]. simpl. lia.
    - do 2 eexists. split; [apply raise|]. destruct leave; simpl; lia. }
  - eexists. split; [by apply step_count|]. simpl. eapply total_set; [done|]. simpl. lia.
  - eexists. split; [by eapply step_vcpu|]. simpl. by eapply total_set.
Qed.

(** From a round of signals on: a thread is woken, or none was there to wake. *)
Lemma kill_round n p j :
  stopping n p -> watcher p = Kill j -> (j <= n)%nat ->
  exists p', rtc own_step p p' /\ stopping n p' /\
    ((total (vcpus p') < total (vcpus p))%nat \/
     (vcpus p' = vcpus p /\ watcher p' = Wake /\ forall k, (j <= k)%nat -> vcpus p !! k <> Some InGuest)).
Proof.
  remember (n - j)%nat as d eqn:Ed. revert p j Ed. induction d as [|d IH]; intros p j Ed Hp Hw Hj;
    pose proof (inv_len _ _ (proj1 Hp)) as Hlen.
  { exists (set_watcher p Wake). assert (own_step p (set_watcher p Wake)) as Hs by (eapply step_killed; [done|lia]).
    split; [by apply rtc_once|]. split; [by eapply stopping_step|]. right. split; [done|]. split; [done|].
    intros k Hk. rewrite lookup_ge_None_2 by lia. done. }
  destruct (lookup_lt_is_Some_2 (vcpus p) j) as [v Hv]; [lia|]. destruct (decide (v = InGuest)) as [->|Hg].
  - pose proof (step_kill_in p j Hw Hv) as Hs. eexists. split; [by apply rtc_once|]. split; [by eapply stopping_step|].
    left. simpl. eapply total_set; [done|]. simpl. lia.
  - pose proof (step_kill_out p j v Hw Hv Hg) as Hs.
    destruct (IH (set_watcher p (Kill (S j)))) with (j := S j) as (p' & Hr & Hp' & Hcase); [lia|by eapply stopping_step|done|lia|].
    exists p'. split; [by eapply rtc_l|]. split; [done|]. destruct Hcase as [Hc|(H1 & H2 & H3)]; [by left|right].
    split; [done|]. split; [done|]. intros k Hk. destruct (decide (k = j)) as [->|Hne]; [congruence|]. apply H3. lia.
Qed.

(** The watcher, told to stop, comes to its wake-up loop. *)
Lemma watcher_wakes n p :
  stopping n p -> watcher p <> WatchDone ->
  exists p', rtc own_step p p' /\ stopping n p' /\
    ((total (vcpus p') < total (vcpus p))%nat \/ (vcpus p' = vcpus p /\ (watcher p' = Wake \/ watcher p' = WatchDone))).
Proof.
  assert (forall p, stopping n p -> watcher p = WatchFlag -> exists p', rtc own_step p p' /\ stopping n p' /\
    vcpus p' = vcpus p /\ watcher p' = Wake) as Hflag.
  { intros q Hq Hw. pose proof (step_watch_flag q Hw) as Hs. rewrite (proj2 Hq) in Hs.
    eexists. split; [by apply rtc_once|]. split; [by eapply stopping_step|]. done. }
  assert (forall p, stopping n p -> watcher p = WatchCount -> exists p', rtc own_step p p' /\ stopping n p' /\
    vcpus p' = vcpus p /\ (watcher p' = Wake \/ watcher p' = WatchDone)) as Hcount.
  { intros q Hq Hw. pose proof (step_watch_count q Hw) as Hs. pose proof (stopping_step _ _ _ Hq Hs) as Hq'.
    destruct (_ =? _)%nat; [eexists; split; [by apply rtc_once|]; naive_solver|].
    destruct (Hflag _ Hq' eq_refl) as (p' & H1 & H2 & H3 & H4). exists p'. split; [by eapply rtc_l|]. naive_solver. }
  assert (forall p, stopping n p -> watcher p = WatchRaise -> exists p', rtc own_step p p' /\ stopping n p' /\
    vcpus p' = vcpus p /\ watcher p' = Wake) as Hraise.
  { intros q Hq Hw. pose proof (step_watch_raise q Hw) as Hs. eexists. split; [by apply rtc_once|].
    split; [by eapply stopping_step|]. done. }
  assert (forall p, stopping n p -> watcher p = WatchAsk -> exists p', rtc own_step p p' /\ stopping n p' /\
    vcpus p' = vcpus p /\ watcher p' = Wake) as Hask.
  { intros q Hq Hw. pose proof (step_watch_ask q Hw) as Hs. pose proof (stopping_step _ _ _ Hq Hs) as Hq'.
    destruct (Hraise _ Hq' eq_refl) as (p' & H1 & H2 & H3 & H4). exists p'. split; [by eapply rtc_l|]. naive_solver. }
  intros Hp Hd. destruct (watcher p) as [| | | | | |k|] eqn:Hw; [..|done].
  - destruct (Hflag p Hp Hw) as (p' & ?). exists p'. naive_solver.
  - pose proof (step_watch_signal p Hw) as Hs. pose proof (stopping_step _ _ _ Hp Hs) as Hp'.
    destruct (signalled p); [destruct (Hask _ Hp' eq_refl) as (p' & H1 & H2 & H3 & H4)|
      destruct (Hcount _ Hp' eq_refl) as (p' & H1 & H2 & H3 & H4)]; exists p'; (split; [by eapply rtc_l|]); naive_solver.
  - destruct (Hcount p Hp Hw) as (p' & ?). exists p'. naive_solver.
  - destruct (Hask p Hp Hw) as (p' & ?). exists p'. naive_solver.
  - destruct (Hraise p Hp Hw) as (p' & ?). exists p'. naive_solver.
  - exists p. split; [done|]. split; [done|]. auto.
  - destruct (decide (k <= n)%nat) as [Hk|Hk].
    + destruct (kill_round n p k Hp Hw Hk) as (p' & H1 & H2 & H3). exists p'. naive_solver.
    + pose proof (inv_len _ _ (proj1 Hp)) as Hlen. pose proof (step_killed p k Hw ltac:(lia)) as Hs.
      eexists. split; [by apply rtc_once|]. split; [by eapply stopping_step|]. naive_solver.
Qed.

Lemma not_all_gone n p k v : stopping n p -> vcpus p !! k = Some v -> v <> Gone -> (vcpus_exited p < n)%nat.
Proof.
  intros [I _] Hk Hv. rewrite (inv_count _ _ I), <- (inv_len _ _ I). pose proof (gone_le (vcpus p)) as Hle.
  destruct (decide (gone (vcpus p) = length (vcpus p))) as [E|E]; [|lia]. exfalso. apply Hv.
  apply gone_all in E. by apply (Forall_lookup_1 _ _ _ _ E Hk).
Qed.

(** Some thread makes progress, woken if need be. *)
Lemma thread_moves n p k v :
  stopping n p -> vcpus p !! k = Some v -> v <> Gone ->
  exists p', rtc own_step p p' /\ stopping n p' /\ (total (vcpus p') < total (vcpus p))%nat.
Proof.
  intros Hp Hk Hv. destruct (decide (v = InGuest)) as [->|Hg].
  2: { destruct (vcpu_moves n p k v Hp Hk Hg Hv) as (p' & Hs & Ht). exists p'. split; [by apply rtc_once|].
       split; [by eapply stopping_step|done]. }
  pose proof (not_all_gone n p k InGuest Hp Hk ltac:(done)) as Hlt.
  destruct (watcher_wakes n p Hp) as (q & Hq & Hsq & [Ht|(Hv' & Hw)]).
  { intros Hw. pose proof (inv_done _ _ (proj1 Hp) Hw). lia. }
  { by exists q. }
  rewrite <- Hv' in Hk. pose proof (not_all_gone n q k InGuest Hsq Hk ltac:(done)) as Hltq.
  destruct Hw as [Hw|Hw]; [|pose proof (inv_done _ _ (proj1 Hsq) Hw); lia].
  pose proof (step_wake q Hw) as Hs. rewrite (inv_len _ _ (proj1 Hsq)), (proj2 (Nat.ltb_lt _ _) Hltq) in Hs.
  pose proof (stopping_step _ _ _ Hsq Hs) as Hs'.
  destruct (kill_round n _ 0 Hs' eq_refl ltac:(lia)) as (p' & Hr & Hsp & [Ht|(_ & _ & Hno)]).
  - exists p'. split; [etrans; [exact Hq|by eapply rtc_l]|]. split; [done|]. simpl in Ht. by rewrite Hv' in Ht.
  - exfalso. by apply (Hno k ltac:(lia)).
Qed.

Lemma threads_finish n p :
  stopping n p -> exists p', rtc own_step p p' /\ stopping n p' /\ Forall (fun v => v = Gone) (vcpus p').
Proof.
  remember (total (vcpus p)) as t eqn:Et. revert p Et. induction t as [t IH] using lt_wf_ind. intros p -> Hp.
  destruct (decide (Forall (fun v => v = Gone) (vcpus p))) as [Hg|Hg]; [by exists p|].
  apply not_Forall_Exists in Hg; [|solve_decision]. apply Exists_exists in Hg as (v & Hin & Hv).
  apply list_elem_of_lookup_1 in Hin as [k Hk]. destruct (thread_moves n p k v Hp Hk Hv) as (q & Hq & Hsq & Ht).
  destruct (IH _ Ht q eq_refl Hsq) as (p' & Hr & Hp' & Hf). exists p'. split; [by etrans|done].
Qed.

(** The main thread joins what is gone. *)
Lemma main_joins n p k :
  stopping n p -> Forall (fun v => v = Gone) (vcpus p) -> main_pc p = JoinVcpu k ->
  exists p', rtc own_step p p' /\ stopping n p' /\ main_pc p' = MainAsk.
Proof.
  remember (n - k)%nat as d eqn:Ed. revert p k Ed. induction d as [|d IH]; intros p k Ed Hp Hg Hm;
    pose proof (inv_len _ _ (proj1 Hp)) as Hlen.
  { assert (own_step p (set_main p MainAsk)) as Hs by (eapply step_joined; [done|lia]).
    eexists. split; [by apply rtc_once|]. split; [by eapply stopping_step|done]. }
  destruct (lookup_lt_is_Some_2 (vcpus p) k) as [v Hv]; [lia|]. pose proof (Forall_lookup_1 _ _ _ _ Hg Hv) as ->.
  pose proof (step_join p k Hm Hv) as Hs.
  destruct (IH (set_main p (JoinVcpu (S k))) (S k)) as (p' & Hr & Hp' & Hm'); [lia|by eapply stopping_step|done|done|].
  exists p'. split; [by eapply rtc_l|done].
Qed.

Lemma main_exits n p : stopping n p -> main_pc p = MainAsk -> exists p' c, rtc own_step p p' /\ main_pc p' = Exited c.
Proof.
  intros Hp Hm. pose proof (step_main_ask p Hm) as H1.
  eexists (set_main (set_stop (set_main (set_stop p (record_reason (stop_flag p) ALL_STOPPED)) MainRaise) _) (Exited _)), _.
  split; [eapply rtc_l; [exact H1|]; eapply rtc_l; [by apply step_main_raise|done]|done].
Qed.

Lemma watcher_ends n p :
  stopping n p -> Forall (fun v => v = Gone) (vcpus p) ->
  exists p', rtc own_step p p' /\ stopping n p' /\ Forall (fun v => v = Gone) (vcpus p') /\ watcher p' = WatchDone.
Proof.
  intros Hp Hg. destruct (decide (watcher p = WatchDone)) as [Hd|Hd]; [by exists p|].
  assert (total (vcpus p) = 0%nat) as H0.
  { clear Hp Hd. unfold total. induction Hg as [|v l -> _ IH]; [done|exact IH]. }
  destruct (watcher_wakes n p Hp Hd) as (q & Hq & Hsq & [Ht|(Hv & [Hw|Hw])]); [lia| |by exists q; rewrite Hv].
  pose proof (step_wake q Hw) as Hs. assert (vcpus_exited q = n) as He.
  { rewrite (inv_count _ _ (proj1 Hsq)), <- (inv_len _ _ (proj1 Hsq)), Hv. clear -Hg. unfold gone.
    induction Hg as [|v l -> _ IH]; [done|]. rewrite filter_cons_True by done. simpl. by rewrite IH. }
  rewrite (inv_len _ _ (proj1 Hsq)), He, Nat.ltb_irrefl in Hs.
  eexists. split; [eapply rtc_r; [exact Hq|exact Hs]|]. split; [by eapply stopping_step|]. simpl. by rewrite Hv.
Qed.

(** The watcher turns a signal into a request. *)
Lemma signal_heard n p :
  (0 < n)%nat -> inv n p -> signalled p = true -> exists p', rtc own_step p p' /\ stopping n p'.
Proof.
  intros Hn I Hsig. destruct (requested (stop_flag p)) eqn:Hr; [by exists p|].
  assert (forall q, inv n q -> watcher q = WatchRaise -> exists p', rtc own_step q p' /\ stopping n p') as Hraise.
  { intros q Hq Hw. pose proof (step_watch_raise q Hw) as Hs. eexists. split; [by apply rtc_once|].
    split; [by eapply inv_own_step|done]. }
  assert (forall q, inv n q -> watcher q = WatchAsk -> exists p', rtc own_step q p' /\ stopping n p') as Hask.
  { intros q Hq Hw. pose proof (step_watch_ask q Hw) as Hs.
    destruct (Hraise _ (inv_own_step _ _ _ Hq Hs) eq_refl) as (p' & H1 & H2). exists p'. split; [by eapply rtc_l|done]. }
  assert (forall q, inv n q -> signalled q = true -> watcher q = WatchSignal -> exists p', rtc own_step q p' /\ stopping n p') as Hsignal.
  { intros q Hq Hg Hw. pose proof (step_watch_signal q Hw) as Hs. rewrite Hg in Hs.
    destruct (Hask _ (inv_own_step _ _ _ Hq Hs) eq_refl) as (p' & H1 & H2). exists p'. split; [by eapply rtc_l|done]. }
  assert (forall q, inv n q -> signalled q = true -> requested (stop_flag q) = false -> watcher q = WatchFlag ->
    exists p', rtc own_step q p' /\ stopping n p') as Hflag.
  { intros q Hq Hg Hf Hw. pose proof (step_watch_flag q Hw) as Hs. rewrite Hf in Hs.
    destruct (Hsignal _ (inv_own_step _ _ _ Hq Hs) Hg eq_refl) as (p' & H1 & H2). exists p'. split; [by eapply rtc_l|done]. }
  assert (vcpus_exited p <> n) as Hne.
  { intros E. rewrite (inv_count _ _ I), <- (inv_len _ _ I) in E. apply gone_all in E. pose proof (inv_vcpus _ _ I) as Hv.
    rewrite <- (inv_len _ _ I) in Hn. destruct (vcpus p) as [|v l]; simpl in Hn; [lia|].
    apply Forall_cons in E as [-> _]. apply Forall_cons in Hv as [Hv _]. simpl in Hv. congruence. }
  destruct (watcher p) eqn:Hw.
  - by apply Hflag.
  - by apply Hsignal.
  - pose proof (step_watch_count p Hw) as Hs. rewrite (inv_len _ _ I), (proj2 (Nat.eqb_neq _ _) Hne) in Hs.
    destruct (Hflag _ (inv_own_step _ _ _ I Hs) Hsig Hr eq_refl) as (p' & H1 & H2). exists p'. split; [by eapply rtc_l|done].
  - by apply Hask.
  - by apply Hraise.
  - rewrite (inv_wake _ _ I) in Hr; [done|by rewrite Hw].
  - rewrite (inv_wake _ _ I) in Hr; [done|by rewrite Hw].
  - by apply (inv_done _ _ I) in Hw.
Qed.

(** C28: A stop always completes, with no help from the guest.  From any state
    the process can reach in which a stop was requested or a signal has arrived,
    whatever the guest is doing and however many wake-up signals were lost, the
    monitor's own threads have a way on to the exit of the process: every vCPU
    is woken and leaves, the watcher ends, and the main thread joins them all. *)
Theorem stop_completes n p :
  (0 < n)%nat -> rtc step (Process_new n) p -> requested (stop_flag p) = true \/ signalled p = true ->
  exists p' c, rtc own_step p p' /\ main_pc p' = Exited c.
Proof.
  intros Hn Hs Hreq. pose proof (inv_steps _ _ _ (inv_new n) Hs) as I.
  assert (exists q, rtc own_step p q /\ stopping n q) as (p0 & H0 & Hp0).
  { destruct Hreq as [Hr|Hr]; [by exists p|by apply signal_heard]. }
  destruct (threads_finish n p0 Hp0) as (p1 & H1 & Hp1 & Hg1).
  destruct (watcher_ends n p1 Hp1 Hg1) as (p2 & H2 & Hp2 & Hg2 & Hw2).
  assert (exists p3, rtc own_step p2 p3 /\ (stopping n p3 /\ main_pc p3 = MainAsk \/ exists c, main_pc p3 = Exited c))
    as (p3 & H3 & Hm).
  { destruct (main_pc p2) as [|k| | |c] eqn:Em.
    - pose proof (step_join_watcher p2 Em Hw2) as Hj.
      destruct (main_joins n _ 0 (stopping_step _ _ _ Hp2 Hj) Hg2 eq_refl) as (p3 & Hr & Hp3 & Hm3).
      exists p3. split; [by eapply rtc_l|auto].
    - destruct (main_joins n p2 k Hp2 Hg2 Em) as (p3 & Hr & Hp3 & Hm3). exists p3. auto.
    - exists p2. split; [done|]. by left.
    - pose proof (step_main_raise p2 Em) as Hj. eexists. split; [by apply rtc_once|]. right. by eexists.
    - exists p2. split; [done|]. right. by exists c. }
  assert (exists p' c, rtc own_step p3 p' /\ main_pc p' = Exited c) as (p' & c & H4 & Hc).
  { destruct Hm as [[Hp3 Hm]|[c Hc]]; [by eapply main_exits|by exists p3, c]. }
  exists p', c. split; [|done]. by repeat (etrans; [done|]).
Qed.

(** Two vCPUs, one in the guest when the host asks to stop. *)
Definition signalled_process : Process :=
  {| stop_flag := Shutdown_new; signalled := true; vcpus := [InGuest; AtHead]; vcpus_exited := 0; watcher := WatchFlag;
     main_pc := JoinWatcher |}.

Lemma signalled_reached : rtc step (Process_new 2) signalled_process.
Proof.
  eapply rtc_l; [apply step_own, (step_vcpu _ 0 AtHead); [reflexivity|by apply head_go]|].
  eapply rtc_l; [apply step_own, (step_vcpu _ 0 Entering); [reflexivity|apply enter]|].
  eapply rtc_l; [apply step_signal|]. apply rtc_refl.
Qed.

Lemma stop_completes_witness : exists p' c, rtc own_step signalled_process p' /\ main_pc p' = Exited c.
Proof. apply (stop_completes 2); [lia|exact signalled_reached|by right]. Defined.

Lemma process_ends_in_order_witness :
  rtc step (Process_new 2) signalled_process /\
  (requested (stop_flag signalled_process) = true -> is_Some (reason (stop_flag signalled_process))).
Proof. split; [exact signalled_reached|]. apply (process_ends_in_order 2); [lia|exact signalled_reached]. Defined.
