(* ===== verification/SerialFacts.v ===== *)
(** The serial port whatever the guest does to it: its registers keep their
    widths, a read answers as many bytes as it has room for, and every byte sent
    comes out once, in order, held back at most to the end of its line. *)

From stdpp Require Import list.
From S2P Require Import Prelude Lifecycle.

(** One access of a guest. *)
Inductive Access := Write (port : Z) (data : list Z) | Read (port : Z) (buf : list Z).

(** Bytes, and a port of the device. *)
Definition valid (a : Access) : Prop :=
  match a with
  | Write port data => serial_handles port = true /\ Forall (is_word 8) data
  | Read port _ => serial_handles port = true
  end.

(** The state after an access, and what a read put in its buffer. *)
Definition access (s : Serial) (a : Access) : Serial * list Z :=
  match a with
  | Write port data => (serial_write s port data, [])
  | Read port buf => serial_read s port buf
  end.

Fixpoint accesses (s : Serial) (l : list Access) : Serial * list (list Z) :=
  match l with
  | [] => (s, [])
  | a :: l => let '(s, r) := access s a in let '(s, rs) := accesses s l in (s, r :: rs)
  end.

(** The type of the state: each register at its width, and the output held back
    an unfinished line shorter than the buffer. *)
Record typed (s : Serial) : Prop := {
  t_ier : is_word 4 (ier s);
  t_lcr : is_word 8 (lcr s);
  t_mcr : is_word 8 (mcr s);
  t_scr : is_word 8 (scr s);
  t_divisor : is_word 16 (divisor s);
  t_out : Forall (is_word 8) (out s) /\ (10 ∉ out s) /\ (length (out s) < 256)%nat
}.

(** Specification of the line: the bytes written to the data register while the
    divisor latch is closed.  Only the line control register is tracked. *)
Fixpoint sent (line : Z) (l : list Access) : list Z :=
  match l with
  | Write port (byte :: _) :: l =>
      if port =? COM1_BASE + REG_LCR then sent byte l
      else if (port =? COM1_BASE + REG_DATA) && negb (Z.testbit line 7) then byte :: sent line l
      else sent line l
  | _ :: l => sent line l
  | [] => []
  end.

(** What a read into a buffer may answer. *)
Definition answered (buf r : list Z) : Prop :=
  length r = length buf /\ Forall (is_word 8) r /\ Forall (fun b => b = 0) (tail r).

(** * One access *)

Lemma flush_stdout s : stdout (flush s) = stdout s ++ out s.
Proof.
  unfold flush, stdout. destruct (out s) eqn:E; [by rewrite app_nil_r|]. cbn [handed]. rewrite concat_app, <- E. simpl. by rewrite app_nil_r.
Qed.

(** What a failing output shows is part of what it was handed, in order. *)
Lemma shown_part takes s : shown takes s `sublist_of` stdout s.
Proof.
  unfold shown, stdout. revert takes. induction (handed s) as [|b l IH]; intros takes; [done|]. rewrite imap_cons. cbn [concat].
  apply sublist_app; [apply sublist_take|]. apply (IH (takes ∘ S)).
Qed.

Lemma shown_all takes s : (forall i b, handed s !! i = Some b -> (length b <= takes i)%nat) -> shown takes s = stdout s.
Proof.
  unfold shown, stdout. revert takes. induction (handed s) as [|b l IH]; intros takes Ht; [done|]. rewrite imap_cons. cbn [concat].
  f_equal; [apply take_ge, (Ht 0%nat b eq_refl)|]. apply (IH (takes ∘ S)). intros i c. apply (Ht (S i)).
Qed.

Lemma flush_out s : out (flush s) = [].
Proof. unfold flush. by destruct (out s) eqn:E. Qed.

Lemma flush_regs s :
  ier (flush s) = ier s /\ lcr (flush s) = lcr s /\ mcr (flush s) = mcr s /\ scr (flush s) = scr s /\
  divisor (flush s) = divisor s.
Proof. unfold flush. by destruct (out s). Qed.

Lemma flush_typed s :
  is_word 4 (ier s) -> is_word 8 (lcr s) -> is_word 8 (mcr s) -> is_word 8 (scr s) -> is_word 16 (divisor s) -> typed (flush s).
Proof.
  intros. destruct (flush_regs s) as (E1 & E2 & E3 & E4 & E5).
  split; rewrite ?E1, ?E2, ?E3, ?E4, ?E5; try done. rewrite flush_out. repeat split; [constructor|set_solver|simpl; lia].
Qed.

Lemma dlab_bit x : has_bits x LCR_DLAB = Z.testbit x 7.
Proof.
  unfold has_bits. destruct (Z.testbit x 7) eqn:E; simpl.
  - apply negb_true_iff, Z.eqb_neq. intros H. assert (Z.testbit (Z.land x LCR_DLAB) 7 = false) by (by rewrite H).
    by rewrite Z.land_spec, E in *.
  - apply negb_false_iff, Z.eqb_eq, Z.bits_inj'. intros j Hj. rewrite Z.land_spec, Z.bits_0. unfold LCR_DLAB.
    change 0x80 with (2 ^ 7). rewrite Z.pow2_bits_eqb by lia. destruct (Z.eqb_spec 7 j) as [<-|]; [by rewrite E|by rewrite andb_false_r].
Qed.

Lemma low_divisor d byte : is_word 16 d -> is_word 8 byte -> is_word 16 (Z.lor (Z.land d 0xff00) byte).
Proof. intros. apply lor_range; [lia|by apply land_word|unfold is_word in *; lia]. Qed.

Lemma high_divisor d byte : is_word 16 d -> is_word 8 byte -> is_word 16 (Z.lor (Z.land d 0xff) (Z.shiftl byte 8)).
Proof.
  intros. apply lor_range; [lia|by apply land_word|]. rewrite Z.shiftl_mul_pow2 by lia. unfold is_word in *. lia.
Qed.

Lemma divisor_typed s d : typed s -> is_word 16 d -> typed (set_divisor s d).
Proof. intros [? ? ? ? ? ?] Hd. by split. Qed.

Lemma low_nibble x : is_word 4 (Z.land x 0x0f).
Proof.
  apply bits_small; [lia|]. intros j Hj. rewrite Z.land_spec. change 0x0f with (Z.ones 4).
  rewrite Z.ones_spec_high by lia. apply andb_false_r.
Qed.

(** A byte on the line. *)
Lemma push_typed s byte :
  typed s -> is_word 8 byte -> byte <> 10 -> (length (out (push_byte s byte)) < 256)%nat -> typed (push_byte s byte).
Proof.
  intros [? ? ? ? ? (Ho & Hn & _)] Hb Hne Hl. split; try done. split_and!; [|simpl; set_solver|done].
  simpl. apply Forall_app. by split; [|apply Forall_singleton].
Qed.

Lemma write_typed s port data :
  typed s -> serial_handles port = true -> Forall (is_word 8) data ->
  typed (serial_write s port data) /\
  lcr (serial_write s port data) =
    (match data with byte :: _ => if port =? COM1_BASE + REG_LCR then byte else lcr s | [] => lcr s end) /\
  stdout (serial_write s port data) ++ out (serial_write s port data) =
    stdout s ++ out s ++
    match data with byte :: _ => if (port =? COM1_BASE + REG_DATA) && negb (Z.testbit (lcr s) 7) then [byte] else [] | [] => [] end.
Proof.
  intros Ht Hp Hd. destruct data as [|byte rest]; [simpl; by rewrite app_nil_r|]. apply Forall_cons in Hd as [Hb _].
  unfold serial_write. rewrite dlab_bit. pose proof Ht as [? ? ? ? ? Ho].
  assert (Hr : forall r, (port - COM1_BASE =? r) = (port =? COM1_BASE + r)) by (intros r; unfold COM1_BASE; lia).
  rewrite !Hr. clear Hr. unfold REG_LCR, REG_DATA.
  destruct (port =? COM1_BASE + 0) eqn:E0.
  { apply Z.eqb_eq in E0 as ->. change (COM1_BASE + 0 =? COM1_BASE + 3) with false. cbn [andb].
    destruct (Z.testbit (lcr s) 7); cbn [negb]; [rewrite app_nil_r; split; [by apply divisor_typed, low_divisor|done]|].
    destruct (byte =? 10) eqn:En; cbn [orb].
    { split; [by apply flush_typed|]. destruct (flush_regs (push_byte s byte)) as (_ & -> & _).
      by rewrite flush_stdout, flush_out, app_nil_r. }
    destruct (256 <=? _)%nat eqn:El.
    { split; [by apply flush_typed|]. destruct (flush_regs (push_byte s byte)) as (_ & -> & _).
      by rewrite flush_stdout, flush_out, app_nil_r. }
    split; [apply push_typed; try done; [by apply Z.eqb_neq|by apply Nat.leb_gt]|done]. }
  cbn [andb]. rewrite app_nil_r. unfold REG_IER, REG_IIR, REG_MCR, REG_SCR.
  destruct (port =? COM1_BASE + 1) eqn:E1.
  { apply Z.eqb_eq in E1 as ->. change (COM1_BASE + 1 =? COM1_BASE + 3) with false.
    destruct (Z.testbit (lcr s) 7); (split; [|done]); [by apply divisor_typed, high_divisor|].
    split; try done. apply low_nibble. }
  destruct (port =? COM1_BASE + 2) eqn:E2; [by apply Z.eqb_eq in E2 as ->|].
  destruct (port =? COM1_BASE + 3) eqn:E3; [done|].
  destruct (port =? COM1_BASE + 4); [done|]. by destruct (port =? COM1_BASE + 7).
Qed.

Lemma value_byte s reg : typed s -> is_word 8 (serial_value s reg).
Proof.
  intros [? ? ? ? ? _]. unfold serial_value. repeat case_match; try done; unfold u8; try (by apply wrap_range); try (unfold is_word; lia).
  unfold is_word in *. lia.
Qed.

Lemma read_typed s port buf :
  typed s ->
  typed (serial_read s port buf).1 /\ lcr (serial_read s port buf).1 = lcr s /\
  stdout (serial_read s port buf).1 ++ out (serial_read s port buf).1 = stdout s ++ out s /\
  answered buf (serial_read s port buf).2 /\
  (port = COM1_BASE + REG_LSR -> out (serial_read s port buf).1 = []).
Proof.
  intros Ht. unfold serial_read. cbn [fst snd]. destruct (flush_regs s) as (_ & El & _).
  assert (Ha : answered buf (match buf with [] => [] | _ :: rest => serial_value s (port - COM1_BASE) :: replicate (length rest) 0 end)).
  { destruct buf as [|b rest]; [by repeat split|]. split; [simpl; by rewrite length_replicate|]. split.
    - constructor; [by apply value_byte|]. apply Forall_replicate. unfold is_word. lia.
    - by apply Forall_replicate. }
  destruct (_ =? REG_LSR) eqn:E.
  - split; [destruct Ht; by apply flush_typed|]. split; [done|]. rewrite flush_stdout, flush_out, app_nil_r. by split_and!.
  - split_and!; try done. intros ->. done.
Qed.

(** * Any accesses *)

Lemma accesses_typed l : forall s, typed s -> Forall valid l ->
  typed (accesses s l).1 /\
  stdout (accesses s l).1 ++ out (accesses s l).1 = stdout s ++ out s ++ sent (lcr s) l /\
  Forall2 (fun a r => match a with Read _ buf => answered buf r | Write _ _ => r = [] end) l (accesses s l).2.
Proof.
  induction l as [|a l IH]; intros s Ht Hv; [cbn; by rewrite app_nil_r|]. apply Forall_cons in Hv as [Ha Hv].
  cbn [accesses]. destruct a as [port data|port buf]; cbn [access].
  - destruct Ha as [Hp Hd]. destruct (write_typed s port data Ht Hp Hd) as (Ht' & El & Eo).
    specialize (IH _ Ht' Hv). destruct (accesses (serial_write s port data) l) as [s' rs]. cbn [fst snd] in *.
    destruct IH as (H1 & H2 & H3). split; [done|]. split; [|by constructor]. rewrite H2, app_assoc, Eo, <- !app_assoc, El.
    f_equal. f_equal. destruct data as [|byte data]; [done|]. cbn [sent].
    destruct (port =? COM1_BASE + REG_LCR) eqn:E; [by apply Z.eqb_eq in E as ->|]. by destruct (_ && _).
  - destruct (read_typed s port buf Ht) as (Ht' & El & Eo & Hr & _). specialize (IH _ Ht' Hv).
    destruct (serial_read s port buf) as [s1 r]. cbn [fst snd] in *. destruct (accesses s1 l) as [s' rs]. cbn [fst snd] in *.
    destruct IH as (H1 & H2 & H3). split; [done|]. split; [|by constructor]. by rewrite H2, app_assoc, Eo, El, <- app_assoc.
Qed.

Lemma Serial_new_typed : typed Serial_new.
Proof. split; try (unfold is_word; simpl; lia). repeat split; [constructor|set_solver|simpl; lia]. Qed.

Lemma accesses_app s l k :
  accesses s (l ++ k) = let '(s1, rs) := accesses s l in let '(s2, rs') := accesses s1 k in (s2, rs ++ rs').
Proof.
  revert s. induction l as [|a l IH]; intros s; cbn; [by destruct (accesses s k)|]. destruct (access s a) as [s1 r].
  rewrite IH. destruct (accesses s1 l) as [s2 rs]. by destruct (accesses s2 k).
Qed.

(** C33: Whatever a guest writes to and reads from the serial ports, the registers keep their widths (four bits of interrupt
    enable, bytes, a 16-bit divisor) and the output held back is an unfinished line shorter than 256 bytes; every read answers
    exactly the bytes it has room for, all but the first zero; and what was written to standard output, with what is held
    back, is exactly the bytes written to the data register while the divisor latch was closed, in order, with nothing held
    back once the guest has polled the line status; all of it is shown when no write fails, and when some do, a part of it in
    order. *)
Theorem serial_typed (l : list Access) :
  Forall valid l ->
  typed (accesses Serial_new l).1 /\
  stdout (accesses Serial_new l).1 ++ out (accesses Serial_new l).1 = sent 0x03 l /\
  Forall2 (fun a r => match a with Read _ buf => answered buf r | Write _ _ => r = [] end) l (accesses Serial_new l).2 /\
  (forall buf, stdout (accesses Serial_new (l ++ [Read (COM1_BASE + REG_LSR) buf])).1 = sent 0x03 l) /\
  (forall takes, let s := (accesses Serial_new l).1 in
     shown takes s `sublist_of` sent 0x03 l /\
     ((forall i b, handed s !! i = Some b -> (length b <= takes i)%nat) -> shown takes s = stdout s)).
Proof.
  intros Hv. destruct (accesses_typed l Serial_new Serial_new_typed Hv) as (H1 & H2 & H3). split_and!; [done..| |].
  2: { intros takes s. split; [|apply shown_all]. etrans; [apply shown_part|]. change (sent (lcr Serial_new) l) with (sent 0x03 l) in H2.
       change (stdout s ++ out s = sent 0x03 l) in H2. rewrite <- H2. apply sublist_inserts_r. reflexivity. }
  intros buf. rewrite accesses_app. destruct (accesses Serial_new l) as [s rs]. cbn [fst snd] in *. cbn [accesses access].
  destruct (read_typed s (COM1_BASE + REG_LSR) buf H1) as (_ & _ & E & _ & Ho). destruct (serial_read _ _ _) as [s' r].
  cbn [fst snd] in *. by rewrite (Ho eq_refl), app_nil_r, H2 in E.
Qed.

Lemma serial_typed_witness :
  stdout (accesses Serial_new [Write 0x3fb [0x80]; Write 0x3f8 [1]; Write 0x3fb [3]; Write 0x3f8 [72; 0]; Write 0x3f8 [105];
    Read 0x3fd [0; 7]]).1 = [72; 105].
Proof.
  destruct (serial_typed [Write 0x3fb [0x80]; Write 0x3f8 [1]; Write 0x3fb [3]; Write 0x3f8 [72; 0]; Write 0x3f8 [105]])
    as (_ & _ & _ & H).
  - repeat constructor; cbn; try lia.
  - exact (proj1 H [0; 7]).
Defined.
