(* ===== verification/Acpi.v ===== *)
(** The ACPI tables, [vmm/src/acpi.rs]: what they say, and where they lie in guest
    memory.  The lines of the slots ([slot_gsi], the _PRT) are in [Interrupt].

    The crate [acpi_tables] encodes: the bytes of an AML object, a system
    description table with its header and checksum ([Sdt]), and the RSDP are the
    class [AcpiTables].  The AML objects themselves are data here.

    A guest that follows the tables from the RSDP finds them, and they say what
    the machine has: its processors, its windows, and the ports that turn it off. *)

From stdpp Require Import strings.
From S2P Require Import Prelude Layout PciBus GuestMem Msix Interrupt Shared Cpuid CpuidFacts Boot BootFacts Lifecycle LifecycleFacts.

(** The AML the code builds. *)
Inductive Aml :=
  | BusNumber (lo hi : Z)
  | IO (min max alignment len : Z)
  | Memory (prefetchable read_write : bool) (lo hi : Z)
  | IoRange (lo hi : Z)
  | Memory32Fixed (read_write : bool) (base len : Z)
  | ResourceTemplate (l : list Aml)
  | Package (l : list Aml)
  | Byte (n : Z)
  | DWord (n : Z)
  | AmlZero
  | EISAName (s : string)
  | Name (path : string) (x : Aml)
  | Device (path : string) (l : list Aml)
  | Scope (path : string) (l : list Aml).

Class AcpiTables (S : Type) := {
  to_aml_bytes : Aml -> list Z;
  (** [Sdt::new] with the creator's revision one. *)
  sdt_new : string -> nat -> Z -> string -> string -> S;
  (** [write_u8] to [write_u64]: that many bytes of a value at an offset. *)
  sdt_write : S -> nat -> nat -> Z -> S;
  append_slice : S -> list Z -> S;
  as_slice : S -> list Z;
  rsdp_bytes : string -> Z -> list Z
}.

Section Tables.
Context {S : Type} {HS : AcpiTables S}.

(** What the host bridge decodes. *)
Definition pci0_crs (mmio64 : Window64.Mmio64Window) : list Aml :=
  [BusNumber 0 0; IO 0xcf8 0xcf8 1 0x08; Memory false true PCI_MMIO_START (PCI_MMIO_END - 1);
   Memory true true (Window64.start mmio64) (Window64.end_ mmio64 ⊖ 1); IoRange 0x0000 0x0cf7; IoRange 0x0d00 0xffff].

Definition prt_package : list Aml :=
  (fun slot => Package [DWord (Z.lor (Z.shiftl slot 16) 0xFFFF); Byte 0; Byte 0; DWord (slot_gsi slot)]) <$> seqZ 0 32.

Definition mbrd_crs : list Aml :=
  [Memory32Fixed true (u32 MMCONFIG_START) (u32 MMCONFIG_SIZE); IO SLEEP_CONTROL_PORT SLEEP_CONTROL_PORT 1 2;
   IO RESET_PORT RESET_PORT 1 1].

Definition sb_scope (mmio64 : Window64.Mmio64Window) : Aml :=
  Scope "_SB_"
    [Device "PCI0" [Name "_HID" (EISAName "PNP0A08"); Name "_CID" (EISAName "PNP0A03"); Name "_ADR" AmlZero;
                    Name "_UID" AmlZero; Name "_CRS" (ResourceTemplate (pci0_crs mmio64));
                    Name "_PRT" (Package prt_package)];
     Device "MBRD" [Name "_HID" (EISAName "PNP0C02"); Name "_UID" AmlZero; Name "_CRS" (ResourceTemplate mbrd_crs)]].

Definition s5_name : Aml := Name "_S5_" (Package [Byte SLP_TYP_S5; Byte SLP_TYP_S5]).

Definition build_dsdt (mmio64 : Window64.Mmio64Window) : list Z :=
  let dsdt := sdt_new "DSDT" 36 6 "NESTRI" "DSDT    " in
  as_slice (append_slice dsdt (to_aml_bytes (sb_scope mmio64) ++ to_aml_bytes s5_name)).

(** A Generic Address Structure for a byte-wide I/O port. *)
Definition write_io_gas (fadt : S) (offset : nat) (port : Z) : S :=
  let fadt := sdt_write fadt offset 1 1 in
  let fadt := sdt_write fadt (offset + 1) 1 8 in
  let fadt := sdt_write fadt (offset + 2) 1 0 in
  let fadt := sdt_write fadt (offset + 3) 1 1 in
  sdt_write fadt (offset + 4) 8 port.

Definition FLAG_RESET_REG_SUP : Z := Z.shiftl 1 10.
Definition FLAG_HW_REDUCED_ACPI : Z := Z.shiftl 1 20.
Definition OFF_FLAGS : nat := 112.
Definition OFF_RESET_REG : nat := 116.
Definition OFF_RESET_VALUE : nat := 128.
Definition OFF_MINOR_VERSION : nat := 131.
Definition OFF_X_DSDT : nat := 140.
Definition OFF_SLEEP_CONTROL_REG : nat := 244.
Definition OFF_SLEEP_STATUS_REG : nat := 256.

Definition build_fadt (dsdt_addr : Z) : list Z :=
  let fadt := sdt_new "FACP" 276 6 "NESTRI" "FACP    " in
  let fadt := sdt_write fadt OFF_FLAGS 4 (Z.lor FLAG_HW_REDUCED_ACPI FLAG_RESET_REG_SUP) in
  let fadt := sdt_write fadt OFF_MINOR_VERSION 1 1 in
  let fadt := sdt_write fadt OFF_X_DSDT 8 dsdt_addr in
  let fadt := write_io_gas fadt OFF_RESET_REG RESET_PORT in
  let fadt := sdt_write fadt OFF_RESET_VALUE 1 RESET_VALUE in
  let fadt := write_io_gas fadt OFF_SLEEP_CONTROL_REG SLEEP_CONTROL_PORT in
  let fadt := write_io_gas fadt OFF_SLEEP_STATUS_REG SLEEP_STATUS_PORT in
  as_slice fadt.

Definition x2apic_entry (cpu_id : Z) : list Z :=
  [9; 16; 0; 0] ++ le_bytes 4 cpu_id ++ le_bytes 4 1 ++ le_bytes 4 cpu_id.

Definition ioapic_entry (ioapic_id ioapic_addr gsi_base : Z) : list Z :=
  [1; 12; ioapic_id; 0] ++ le_bytes 4 ioapic_addr ++ le_bytes 4 gsi_base.

Definition iso_entry (irq gsi flags : Z) : list Z := [2; 10; 0; irq] ++ le_bytes 4 gsi ++ le_bytes 2 flags.

(** The processors, the I/O APIC, and two interrupt source overrides, appended in
    turn. *)
Definition madt_entries (vcpu_count ioapic_id ioapic_addr gsi_base : Z) : list (list Z) :=
  (x2apic_entry <$> seqZ 0 vcpu_count) ++ [ioapic_entry ioapic_id ioapic_addr gsi_base] ++
  [iso_entry 0 2 0; iso_entry 9 9 0x000F].

Definition build_madt (vcpu_count ioapic_id ioapic_addr gsi_base : Z) : list Z :=
  let madt := sdt_new "APIC" 44 5 "NESTRI" "APIC    " in
  let madt := sdt_write madt 36 4 0xFEE00000 in
  let madt := sdt_write madt 40 4 1 in
  as_slice (foldl append_slice madt (madt_entries vcpu_count ioapic_id ioapic_addr gsi_base)).

Definition build_mcfg : list Z :=
  let mcfg := sdt_new "MCFG" 60 1 "NESTRI" "MCFG    " in
  let mcfg := sdt_write mcfg 44 8 MMCONFIG_START in
  let mcfg := sdt_write mcfg 52 2 0 in
  as_slice (sdt_write mcfg 54 2 0).

Fixpoint xsdt_entries (xsdt : S) (i : nat) (addrs : list Z) : S :=
  match addrs with
  | [] => xsdt
  | a :: addrs => xsdt_entries (sdt_write xsdt (36 + i * 8) 8 a) (i + 1) addrs
  end.

Definition build_xsdt (table_addrs : list Z) : list Z :=
  let xsdt := sdt_new "XSDT" (36 + length table_addrs * 8) 1 "NESTRI" "XSDT    " in
  as_slice (xsdt_entries xsdt 0 table_addrs).

Definition build_rsdp (xsdt_addr : Z) : list Z := rsdp_bytes "NESTRI" xsdt_addr.

Context {M : Type} {HM : GuestMemory M}.

(** Tables one after the other. *)
Fixpoint write_tables (mem : M) (cur : Z) (tables : list (list Z)) : option M :=
  match tables with
  | [] => Some mem
  | t :: tables =>
      let '(mem, ok) := write_slice mem cur t in
      if ok : bool then write_tables mem (cur ⊕ Z.of_nat (length t)) tables else None
  end.

(** The tables for a start address, and the address of the RSDP. *)
Definition acpi_tables (vcpu_count start_addr : Z) (mmio64 : Window64.Mmio64Window) : list (list Z) * Z :=
  let dsdt := build_dsdt mmio64 in
  let dsdt_addr := start_addr in
  let fadt := build_fadt dsdt_addr in
  let fadt_addr := dsdt_addr ⊕ Z.of_nat (length dsdt) in
  let madt := build_madt vcpu_count 0 0xFEC00000 0 in
  let madt_addr := fadt_addr ⊕ Z.of_nat (length fadt) in
  let mcfg := build_mcfg in
  let mcfg_addr := madt_addr ⊕ Z.of_nat (length madt) in
  let xsdt := build_xsdt [fadt_addr; madt_addr; mcfg_addr] in
  let xsdt_addr := mcfg_addr ⊕ Z.of_nat (length mcfg) in
  let rsdp := build_rsdp xsdt_addr in
  ([dsdt; fadt; madt; mcfg; xsdt; rsdp], xsdt_addr ⊕ Z.of_nat (length xsdt)).

Definition setup_acpi (mem : M) (vcpu_count start_addr : Z) (mmio64 : Window64.Mmio64Window) : option (M * Z) :=
  let '(tables, rsdp) := acpi_tables vcpu_count start_addr mmio64 in
  mem ← write_tables mem start_addr tables;
  Some (mem, rsdp).

End Tables.

(** [n] bytes of a table from an offset on. *)
Definition sub (l : list Z) (k n : nat) : list Z := take n (drop k l).

(** What [acpi_tables] documents: a table has the length it was made or appended
    to, what was written reads back, the header apart the rest is left, and the
    bytes of a table add up to zero. *)
Class AcpiTablesLaws (S : Type) {HS : AcpiTables S} : Prop := {
  slice_new sig len rev oem id : (36 <= len)%nat -> length (as_slice (sdt_new sig len rev oem id)) = len;
  slice_write_len s off n v : (off + n <= length (as_slice s))%nat -> length (as_slice (sdt_write s off n v)) = length (as_slice s);
  slice_written s off n v : (36 <= off)%nat -> (off + n <= length (as_slice s))%nat ->
    sub (as_slice (sdt_write s off n v)) off n = le_bytes n v;
  slice_write_other s off n v k m : (36 <= k)%nat -> (off + n <= length (as_slice s))%nat ->
    (k + m <= off \/ off + n <= k)%nat -> sub (as_slice (sdt_write s off n v)) k m = sub (as_slice s) k m;
  slice_append s l : Forall is_byte l -> drop 36 (as_slice (append_slice s l)) = drop 36 (as_slice s) ++ l;
  slice_append_len s l : length (as_slice (append_slice s l)) = (length (as_slice s) + length l)%nat;
  slice_bytes s : Forall is_byte (as_slice s);
  slice_sum s : foldr Z.add 0 (as_slice s) mod 256 = 0;
  rsdp_length oem a : length (rsdp_bytes oem a) = 36%nat;
  rsdp_byte oem a : Forall is_byte (rsdp_bytes oem a);
  rsdp_xsdt oem a : sub (rsdp_bytes oem a) 24 8 = le_bytes 8 a
}.

Section Facts.
Context {S : Type} {HS : AcpiTables S} {HL : AcpiTablesLaws S}.

(** A table of a length. *)
Definition sized (s : S) (n : nat) : Prop := length (as_slice s) = n.

Lemma sized_new sig len rev oem id : (36 <= len)%nat -> sized (sdt_new sig len rev oem id) len.
Proof. apply slice_new. Qed.

Lemma sized_write s n off k v : sized s n -> (off + k <= n)%nat -> sized (sdt_write s off k v) n.
Proof. unfold sized. intros <- H. by apply slice_write_len. Qed.

Lemma write_same s n off k v : sized s n -> (36 <= off)%nat -> (off + k <= n)%nat -> sub (as_slice (sdt_write s off k v)) off k = le_bytes k v.
Proof. unfold sized. intros <- H. by apply slice_written. Qed.

Lemma write_else s n off k v j m :
  sized s n -> (off + k <= n)%nat -> (36 <= j)%nat -> (j + m <= off \/ off + k <= j)%nat ->
  sub (as_slice (sdt_write s off k v)) j m = sub (as_slice s) j m.
Proof. unfold sized. intros <- H ? ?. by apply slice_write_other. Qed.

(** A run of writes: offset, width, value. *)
Abbreviation Write := (nat * nat * Z)%type.

Definition write_field (s : S) (w : Write) : S := sdt_write s w.1.1 w.1.2 w.2.
Definition in_table (n : nat) (w : Write) : bool := (36 <=? w.1.1)%nat && (w.1.1 + w.1.2 <=? n)%nat.

(** The last write to a field, the last write first, if none after it touched it. *)
Fixpoint last_write (ws : list Write) (k m : nat) : option Z :=
  match ws with
  | [] => None
  | (off, n, v) :: ws =>
      if (off =? k)%nat && (n =? m)%nat then Some v
      else if (k + m <=? off)%nat || (off + n <=? k)%nat then last_write ws k m else None
  end.

Lemma writes_sized s n ws : sized s n -> forallb (in_table n) ws = true -> sized (foldl write_field s ws) n.
Proof.
  revert s. induction ws as [|w ws IH]; intros s Hs Hw; [done|]. simpl in *. apply andb_true_iff in Hw as [H1 H2].
  apply IH; [|done]. apply andb_true_iff in H1 as [_ H1]. apply sized_write; [done|]. by apply Nat.leb_le.
Qed.

Lemma writes_field s n ws k m v :
  sized s n -> forallb (in_table n) ws = true -> last_write (reverse ws) k m = Some v -> (36 <= k)%nat ->
  sub (as_slice (foldl write_field s ws)) k m = le_bytes m v.
Proof.
  intros Hs. induction ws as [|[[off l] x] ws IH] using rev_ind; [done|]. rewrite forallb_app, andb_true_iff.
  intros [Hw Hl] Hf Hk. cbn [forallb] in Hl. rewrite andb_true_r in Hl. unfold in_table in Hl. cbn [fst snd] in Hl.
  apply andb_true_iff in Hl as [H1 H2]. apply Nat.leb_le in H1, H2. rewrite foldl_app. cbn [foldl]. unfold write_field at 1. cbn [fst snd].
  rewrite reverse_snoc in Hf. cbn [last_write] in Hf. pose proof (writes_sized s n ws Hs Hw) as Hz.
  destruct ((off =? k)%nat && (l =? m)%nat) eqn:E.
  - injection Hf as <-. apply andb_true_iff in E as [->%Nat.eqb_eq ->%Nat.eqb_eq]. by eapply write_same.
  - destruct ((k + m <=? off)%nat || (off + l <=? k)%nat) eqn:E'; [|done].
    apply orb_true_iff in E'. rewrite !Nat.leb_le in E'. rewrite (write_else _ n) by done. by apply IH.
Qed.

Definition gas (port : Z) : list Z := [1; 8; 0; 1] ++ le_bytes 8 port.

Lemma sub_app l k n m : sub l k (n + m) = sub l k n ++ sub l (k + n) m.
Proof. unfold sub. by rewrite <- take_take_drop, drop_drop. Qed.


Definition gas_writes (off : nat) (port : Z) : list Write :=
  [(off, 1%nat, 1); ((off + 1)%nat, 1%nat, 8); ((off + 2)%nat, 1%nat, 0); ((off + 3)%nat, 1%nat, 1); ((off + 4)%nat, 8%nat, port)].

Definition fadt_writes (d : Z) : list Write :=
  [(OFF_FLAGS, 4%nat, Z.lor FLAG_HW_REDUCED_ACPI FLAG_RESET_REG_SUP); (OFF_MINOR_VERSION, 1%nat, 1); (OFF_X_DSDT, 8%nat, d)] ++
  gas_writes OFF_RESET_REG RESET_PORT ++ [(OFF_RESET_VALUE, 1%nat, RESET_VALUE)] ++
  gas_writes OFF_SLEEP_CONTROL_REG SLEEP_CONTROL_PORT ++ gas_writes OFF_SLEEP_STATUS_REG SLEEP_STATUS_PORT.

Lemma fadt_eq d : build_fadt d = as_slice (foldl write_field (sdt_new "FACP" 276 6 "NESTRI" "FACP    ") (fadt_writes d)).
Proof. reflexivity. Qed.

Lemma fadt_length d : length (build_fadt d) = 276%nat.
Proof. rewrite fadt_eq. apply writes_sized; [apply sized_new; lia|reflexivity]. Qed.

Lemma fadt_field d k m v :
  last_write (reverse (fadt_writes d)) k m = Some v -> (36 <= k)%nat -> sub (build_fadt d) k m = le_bytes m v.
Proof. intros. rewrite fadt_eq. eapply writes_field; [apply sized_new; lia|reflexivity|done..]. Qed.

(** A port's address structure, as the five writes leave it. *)
Lemma gas_parts l k port :
  sub l k 1 = [1] -> sub l (k + 1) 1 = [8] -> sub l (k + 2) 1 = [0] -> sub l (k + 3) 1 = [1] -> sub l (k + 4) 8 = le_bytes 8 port ->
  sub l k 12 = gas port.
Proof.
  intros H0 H1 H2 H3 H4. change 12%nat with (1 + (1 + (1 + (1 + 8))))%nat. rewrite !sub_app, H0.
  rewrite <- !Nat.add_assoc. simpl (1 + _)%nat. rewrite H1, H2, H3, H4. done.
Qed.

Lemma fadt_fields d :
  sub (build_fadt d) OFF_FLAGS 4 = le_bytes 4 (Z.lor FLAG_HW_REDUCED_ACPI FLAG_RESET_REG_SUP) /\
  sub (build_fadt d) OFF_X_DSDT 8 = le_bytes 8 d /\
  sub (build_fadt d) OFF_RESET_REG 12 = gas RESET_PORT /\ sub (build_fadt d) OFF_RESET_VALUE 1 = [RESET_VALUE] /\
  sub (build_fadt d) OFF_SLEEP_CONTROL_REG 12 = gas SLEEP_CONTROL_PORT /\
  sub (build_fadt d) OFF_SLEEP_STATUS_REG 12 = gas SLEEP_STATUS_PORT.
Proof.
  unfold OFF_RESET_REG, OFF_SLEEP_CONTROL_REG, OFF_SLEEP_STATUS_REG.
  split_and!; try apply gas_parts; (etrans; [eapply fadt_field; [reflexivity|vm_compute; lia]|reflexivity]).
Qed.

Lemma appends_slice ls s :
  Forall (Forall is_byte) ls ->
  drop 36 (as_slice (foldl append_slice s ls)) = drop 36 (as_slice s) ++ concat ls /\
  length (as_slice (foldl append_slice s ls)) = (length (as_slice s) + length (concat ls))%nat.
Proof.
  intros Hf. revert s. induction Hf as [|l ls Hl _ IH]; intros s; cbn [foldl concat]; [by rewrite app_nil_r, Nat.add_0_r|].
  destruct (IH (append_slice s l)) as [-> ->]. rewrite slice_append, slice_append_len, length_app, <- app_assoc by done. split; [done|lia].
Qed.

Ltac byte_list := repeat (apply Forall_cons; split; [first [assumption|by unfold is_word]|]); apply Forall_nil_2.

Lemma madt_entries_bytes n id addr base : is_byte id -> Forall (Forall is_byte) (madt_entries n id addr base).
Proof.
  intros Hid. assert (Forall is_byte [9; 16; 0; 0] /\ Forall is_byte [1; 12; id; 0]) as [H1 H2]
    by (split; byte_list).
  unfold madt_entries. apply Forall_app. split.
  - apply Forall_fmap, Forall_true. intros c. change (Forall is_byte (x2apic_entry c)). unfold x2apic_entry.
    rewrite !Forall_app.
    split_and!; [done|apply le_bytes_bytes..].
  - assert (Forall is_byte [2; 10; 0; 0] /\ Forall is_byte [2; 10; 0; 9]) as [H3 H4] by (split; byte_list).
    cbn [app]. unfold ioapic_entry, iso_entry. rewrite !Forall_cons, !Forall_app. split_and!; try apply le_bytes_bytes; done.
Qed.

Lemma madt_body n id addr base :
  is_byte id ->
  drop 44 (build_madt n id addr base) = concat (madt_entries n id addr base) /\
  length (build_madt n id addr base) = (44 + length (concat (madt_entries n id addr base)))%nat.
Proof.
  intros Hid. unfold build_madt. cbv zeta. set (s := sdt_write _ 40 4 1). assert (sized s 44) as Hs.
  { unfold s. do 2 (apply sized_write; [|lia]). apply sized_new. lia. }
  clearbody s. destruct (appends_slice (madt_entries n id addr base) s (madt_entries_bytes _ _ _ _ Hid)) as [H1 H2]. split; [|by rewrite H2, Hs].
  replace 44%nat with (36 + 8)%nat by lia. rewrite <- drop_drop, H1. rewrite drop_app_length'; [done|].
  rewrite length_drop, Hs. lia.
Qed.

Lemma madt_entries_length n : 0 <= n -> length (concat (madt_entries n 0 0xFEC00000 0)) = Z.to_nat (16 * n + 32).
Proof.
  intros Hn. unfold madt_entries. rewrite concat_app, length_app. simpl (length (concat (_ :: _))).
  assert (forall l, length (concat (x2apic_entry <$> l)) = (16 * length l)%nat) as ->.
  { induction l as [|x l IH]; [done|]. rewrite fmap_cons. cbn [concat]. rewrite length_app, IH. simpl length. lia. }
  rewrite length_seqZ. change (length (concat ([ioapic_entry 0 0xFEC00000 0] ++ [iso_entry 0 2 0; iso_entry 9 9 15]))) with 32%nat. lia.
Qed.

(** The Processor Local x2APIC structure of a vCPU, byte for byte: type 9, length 16,
    two reserved bytes, the x2APIC id, flags with nothing but Enabled, the UID. *)
Definition processor_entry (id : Z) : list Z := [9; 16; 0; 0; id; 0; 0; 0; 1; 0; 0; 0; id; 0; 0; 0].

(** After the processors: the I/O APIC with id 0 at 0xFEC00000 from GSI 0 on; ISA 0
    to GSI 2 as the bus has it; ISA 9 to GSI 9, active low and level triggered. *)
Definition interrupt_entries : list Z :=
  [1; 12; 0; 0; 0; 0; 0xC0; 0xFE; 0; 0; 0; 0] ++ [2; 10; 0; 0; 2; 0; 0; 0; 0; 0] ++ [2; 10; 0; 9; 9; 0; 0; 0; 0x0F; 0].

Lemma madt_bytes n :
  0 <= n <= 255 -> concat (madt_entries n 0 0xFEC00000 0) = concat (processor_entry <$> seqZ 0 n) ++ interrupt_entries.
Proof.
  intros Hn. unfold madt_entries. rewrite concat_app. f_equal. f_equal. apply list_fmap_ext. intros i id Hi.
  apply list_elem_of_lookup_2, elem_of_seqZ in Hi. unfold x2apic_entry, processor_entry.
  assert (le_bytes 4 id = [id; 0; 0; 0]) as ->; [|reflexivity]. cbn [le_bytes].
  by rewrite (Z.div_small id), (Z.mod_small id) by lia.
Qed.

Lemma processors_length l : length (concat (processor_entry <$> l)) = (16 * length l)%nat.
Proof. induction l as [|x l IH]; [done|]. rewrite fmap_cons. cbn [concat]. rewrite length_app, IH. simpl length. lia. Qed.

Lemma processor_sub n id rest :
  0 <= id < n -> sub (concat (processor_entry <$> seqZ 0 n) ++ rest) (Z.to_nat (16 * id)) 16 = processor_entry id.
Proof.
  intros Hid. replace n with (id + (n - id)) by lia. rewrite seqZ_app by lia. rewrite Z.add_0_l, (seqZ_cons id) by lia.
  rewrite fmap_app, concat_app, fmap_cons. cbn [concat]. unfold sub.
  rewrite <- !app_assoc, drop_app_length' by (rewrite processors_length, length_seqZ; lia). by rewrite take_app_length'.
Qed.

Lemma mcfg_body :
  sub build_mcfg 44 8 = le_bytes 8 MMCONFIG_START /\ sub build_mcfg 54 2 = le_bytes 2 0 /\ length build_mcfg = 60%nat.
Proof.
  set (ws := [(44%nat, 8%nat, MMCONFIG_START); (52%nat, 2%nat, 0); (54%nat, 2%nat, 0)] : list Write).
  assert (build_mcfg = as_slice (foldl write_field (sdt_new "MCFG" 60 1 "NESTRI" "MCFG    ") ws)) as -> by reflexivity.
  assert (forallb (in_table 60) ws = true) as Hw by reflexivity.
  split_and!; [apply (writes_field _ 60)|apply (writes_field _ 60)|apply writes_sized];
    first [apply sized_new; lia|reflexivity|lia|done].
Qed.

Lemma xsdt_body a b c :
  sub (build_xsdt [a; b; c]) 36 8 = le_bytes 8 a /\ sub (build_xsdt [a; b; c]) 44 8 = le_bytes 8 b /\
  sub (build_xsdt [a; b; c]) 52 8 = le_bytes 8 c /\ length (build_xsdt [a; b; c]) = 60%nat.
Proof.
  set (ws := [(36%nat, 8%nat, a); (44%nat, 8%nat, b); (52%nat, 8%nat, c)] : list Write).
  assert (build_xsdt [a; b; c] = as_slice (foldl write_field (sdt_new "XSDT" 60 1 "NESTRI" "XSDT    ") ws)) as -> by reflexivity.
  assert (forallb (in_table 60) ws = true) as Hw by reflexivity.
  split_and!; [apply (writes_field _ 60)..|apply writes_sized]; first [apply sized_new; lia|reflexivity|lia|done].
Qed.

(** * In memory *)

Context {M : Type} {HM : GuestMemory M} {HML : GuestMemoryLaws M}.

Lemma write_tables_spec ts (m : M) cur :
  is_Some (read_slice m cur (length (concat ts))) -> 0 <= cur -> cur + Z.of_nat (length (concat ts)) < 2 ^ 64 ->
  Forall (Forall is_byte) ts ->
  exists m', write_tables m cur ts = Some m' /\ changed m m' cur (cur + Z.of_nat (length (concat ts))) /\
    read_slice m' cur (length (concat ts)) = Some (concat ts).
Proof.
  revert m cur. induction ts as [|t ts IH]; intros m cur Hr Hc Hb Hf; cbn [write_tables concat] in *.
  { exists m. split; [done|]. split; [apply changed_refl|]. destruct Hr as [l Hl]. rewrite Hl. f_equal.
    by apply read_length in Hl; apply nil_length_inv. }
  apply Forall_cons in Hf as [Ht Hf]. rewrite length_app in *.
  destruct Hr as [l Hl]. pose proof (read_split _ _ _ _ _ Hl) as [Hl1 Hl2]. pose proof (write_ok m cur t ltac:(eauto)) as Hok.
  pose proof (read_written m cur t Hok Ht) as Hrd.
  assert (changed m (write_slice m cur t).1 cur (cur + Z.of_nat (length t))) as C1.
  { split; [|intros; apply read_mapped]. intros b n Ha. apply read_apart. unfold apart in *. lia. }
  destruct (write_slice m cur t) as [m1 ok]. cbn [fst snd] in *. rewrite Hok. rewrite wrap_small by (unfold is_word; lia).
  destruct (IH m1 (cur + Z.of_nat (length t))) as (m' & E & C2 & R2); [by apply C1; eauto|lia|lia|done|].
  exists m'. split; [exact E|]. split; [eapply changed_trans; eapply changed_widen; try done; lia|].
  destruct (proj2 (proj2 C2 cur (length t + length (concat ts))%nat)) as [x Hx].
  { apply C1. eauto. }
  pose proof (read_split _ _ _ _ _ Hx) as [H1 H2]. rewrite (proj1 C2) in H1 by (unfold apart; lia).
  rewrite Hrd in H1. rewrite R2 in H2. injection H1 as H1. injection H2 as H2. rewrite Hx. f_equal.
  rewrite <- (take_drop (length t) x). by f_equal.
Qed.

(** A part of what is in memory. *)
Lemma read_part (m : M) a l k n :
  read_slice m a (length l) = Some l -> (k + n <= length l)%nat -> read_slice m (a + Z.of_nat k) n = Some (sub l k n).
Proof.
  intros Hl Hk. replace (length l) with (k + (n + (length l - k - n)))%nat in Hl by lia.
  apply read_split in Hl as [_ Hl]. by apply read_split in Hl as [Hl _].
Qed.

Lemma read_part_le (m : M) a l k n v :
  read_slice m a (length l) = Some l -> (k + n <= length l)%nat -> sub l k n = le_bytes n v ->
  is_word (8 * Z.of_nat n) v -> read_le m (a + Z.of_nat k) n = Some v.
Proof. intros Hl Hk Hs Hv. unfold read_le. rewrite (read_part m a l k n Hl Hk), Hs. simpl. by rewrite of_le_le_bytes_small. Qed.

(** What a walk over the MADT reads. *)
Lemma madt_read (m : M) a l n :
  read_slice m a (length l) = Some l -> 0 <= n <= 255 ->
  drop 44 l = concat (processor_entry <$> seqZ 0 n) ++ interrupt_entries -> length l = (44 + Z.to_nat (16 * n + 32))%nat ->
  (forall id, 0 <= id < n -> read_slice m (a + 44 + 16 * id) 16 = Some (processor_entry id)) /\
  read_slice m (a + 44 + 16 * n) 32 = Some interrupt_entries.
Proof.
  intros Hl Hn Hd Hlen. assert (forall k j, sub l (44 + k) j = sub (drop 44 l) k j) as Hs by (intros; unfold sub; by rewrite drop_drop).
  split.
  - intros id Hid. replace (a + 44 + 16 * id) with (a + Z.of_nat (44 + Z.to_nat (16 * id))) by lia.
    rewrite (read_part m a l) by (done || lia). rewrite Hs, Hd. f_equal. by apply processor_sub.
  - replace (a + 44 + 16 * n) with (a + Z.of_nat (44 + Z.to_nat (16 * n))) by lia.
    rewrite (read_part m a l) by (done || lia). rewrite Hs, Hd. f_equal. unfold sub.
    by rewrite drop_app_length' by (rewrite processors_length, length_seqZ; lia).
Qed.

Lemma processor_id (m : M) e id :
  0 <= id < 256 -> read_slice m e 16 = Some (processor_entry id) -> read_le m (e + 4) 4 = Some id.
Proof.
  intros Hid He. pose proof (read_part m e (processor_entry id) 4 4 He ltac:(simpl; lia)) as H. change (Z.of_nat 4) with 4 in H.
  unfold read_le. rewrite H. simpl. f_equal. lia.
Qed.

(** The parts of consecutive tables. *)
Lemma read_table (m : M) a pre t post :
  read_slice m a (length (pre ++ t ++ post)) = Some (pre ++ t ++ post) ->
  read_slice m (a + Z.of_nat (length pre)) (length t) = Some t.
Proof.
  intros H. rewrite (read_part m a _ (length pre) (length t) H) by (rewrite !length_app; lia).
  unfold sub. by rewrite drop_app_length, take_app_length.
Qed.

(** Six tables written one after the other, each read where the lengths put it. *)
Lemma six_tables (m : M) a t1 t2 t3 t4 t5 t6 :
  let ts := t1 ++ t2 ++ t3 ++ t4 ++ t5 ++ t6 in
  let a2 := a + Z.of_nat (length t1) in let a3 := a2 + Z.of_nat (length t2) in let a4 := a3 + Z.of_nat (length t3) in
  let a5 := a4 + Z.of_nat (length t4) in let a6 := a5 + Z.of_nat (length t5) in
  read_slice m a (length ts) = Some ts ->
  read_slice m a (length t1) = Some t1 /\ read_slice m a2 (length t2) = Some t2 /\ read_slice m a3 (length t3) = Some t3 /\
  read_slice m a4 (length t4) = Some t4 /\ read_slice m a5 (length t5) = Some t5 /\ read_slice m a6 (length t6) = Some t6.
Proof.
  cbv zeta. intros R.
  assert (forall l b (us : list Z), read_slice m b (length (l ++ us)) = Some (l ++ us) ->
    read_slice m b (length l) = Some l /\ read_slice m (b + Z.of_nat (length l)) (length us) = Some us) as Step.
  { intros l b us H. split.
    - pose proof (read_table m b [] l us H) as H'. by rewrite Z.add_0_r in H'.
    - apply (read_table m b l us []). by rewrite app_nil_r. }
  do 5 (apply Step in R as [? R]). auto 10.
Qed.

Definition acpi_length (n start : Z) (w : Window64.Mmio64Window) : nat := length (concat (acpi_tables n start w).1).

Lemma tables_bytes n start w : Forall (Forall is_byte) (acpi_tables n start w).1.
Proof. unfold acpi_tables. cbv zeta. repeat constructor; (apply slice_bytes || apply rsdp_byte). Qed.

(** C30: The guest finds its tables, and they describe this machine.  Where the
    block is mapped and large enough, [setup_acpi] succeeds and writes nothing
    outside it; following the pointers in memory from the RSDP it returns, the
    guest reaches the XSDT and from it FADT, MADT and MCFG, and the DSDT from the
    FADT; the MADT lists the vCPUs, each enabled and with the identity that
    CPUID tells it whatever the host's table, then the I/O APIC and the overrides,
    byte for byte; MCFG has the base of the ECAM window for bus zero;
    and the reset and sleep registers of the FADT, written as it says with the
    type of the DSDT's _S5 package, are the ports that end the machine. *)
Theorem acpi_found {HC : CpuidCapacity} (mem : M) n start w :
  0 <= n <= 255 -> 0 <= start -> start + Z.of_nat (acpi_length n start w) < 2 ^ 64 ->
  is_Some (read_slice mem start (acpi_length n start w)) ->
  exists mem' rsdp xsdt fadt madt mcfg,
    setup_acpi mem n start w = Some (mem', rsdp) /\
    changed mem mem' start (start + Z.of_nat (acpi_length n start w)) /\
    read_le mem' (rsdp + 24) 8 = Some xsdt /\
    read_le mem' (xsdt + 36) 8 = Some fadt /\ read_le mem' (xsdt + 44) 8 = Some madt /\
    read_le mem' (xsdt + 52) 8 = Some mcfg /\
    (read_le mem' (fadt + 140) 8 = Some start /\ read_slice mem' start (length (build_dsdt w)) = Some (build_dsdt w)) /\
    (forall id, 0 <= id < n ->
       read_slice mem' (madt + 44 + 16 * id) 16 = Some (processor_entry id) /\
       forall cpuid threads vendor leaf, fits cpuid patched_leaves -> leaf ∈ [0xb; 0x1f] ->
         read_le mem' (madt + 44 + 16 * id + 4) 4 = Some (get (patch_topology cpuid id n threads vendor) leaf 0 Edx)) /\
    read_slice mem' (madt + 44 + 16 * n) 32 = Some interrupt_entries /\
    (read_le mem' (mcfg + 44) 8 = Some MMCONFIG_START /\ read_le mem' (mcfg + 54) 2 = Some 0) /\
    (read_slice mem' (fadt + 116) 12 = Some (gas RESET_PORT) /\ read_slice mem' (fadt + 128) 1 = Some [RESET_VALUE] /\
     forall s, power_write s RESET_PORT [RESET_VALUE] = request s Reset) /\
    (read_slice mem' (fadt + 244) 12 = Some (gas SLEEP_CONTROL_PORT) /\
     forall s, power_write s SLEEP_CONTROL_PORT [Z.lor (Z.shiftl SLP_TYP_S5 2) 0x20] = request s PowerOff).
Proof.
  intros Hn Hs Hb Hr. unfold setup_acpi. pose proof (tables_bytes n start w) as Hby.
  destruct (write_tables_spec (acpi_tables n start w).1 mem start Hr Hs Hb Hby) as (mem' & E & C & R).
  fold (acpi_length n start w) in C, R. unfold acpi_length in Hb, C, R |- *. clear Hby Hr. revert E Hb C R.
  unfold acpi_tables. cbv zeta. cbn [fst snd concat].
  assert (exists dsdt, build_dsdt w = dsdt) as [dsdt Ed] by eauto. rewrite !Ed.
  set (fadt := build_fadt start). set (madt := build_madt n 0 0xFEC00000 0). set (mcfg := build_mcfg).
  pose proof (fadt_length start) as Lf. fold fadt in Lf. destruct (madt_body n 0 0xFEC00000 0 ltac:(done)) as [Bm Lm]. fold madt in Bm, Lm.
  rewrite madt_entries_length in Lm by lia. destruct mcfg_body as (Bc & Bb & Lc). fold mcfg in Bc, Bb, Lc.
  destruct (fadt_fields start) as (_ & Fd & Fr & Fv & Fs & _). fold fadt in Fd, Fr, Fv, Fs.
  set (fa := start ⊕ Z.of_nat (length dsdt)). set (ma := fa ⊕ Z.of_nat (length fadt)).
  set (ca := ma ⊕ Z.of_nat (length madt)). set (xa := ca ⊕ Z.of_nat (length mcfg)).
  destruct (xsdt_body fa ma ca) as (X1 & X2 & X3 & Lx). set (xsdt := build_xsdt [fa; ma; ca]) in *.
  pose proof (rsdp_length "NESTRI" xa) as Lr. pose proof (rsdp_xsdt "NESTRI" xa) as Br. fold (build_rsdp xa) in Lr, Br.
  set (rsdp := build_rsdp xa) in *. intros E Hb C R. rewrite app_nil_r in *. rewrite !length_app in Hb.
  assert (fa = start + Z.of_nat (length dsdt)) as Hfa by (unfold fa; apply wrap_small; unfold is_word; lia).
  assert (ma = fa + Z.of_nat 276) as Hma by (unfold ma; rewrite Lf; apply wrap_small; unfold is_word; lia).
  assert (ca = ma + Z.of_nat (length madt)) as Hca by (unfold ca; apply wrap_small; unfold is_word; lia).
  assert (xa = ca + Z.of_nat 60) as Hxa by (unfold xa; rewrite Lc; apply wrap_small; unfold is_word; lia).
  assert (xa ⊕ Z.of_nat (length xsdt) = xa + 60) as Hra by (rewrite Lx; apply wrap_small; unfold is_word; lia).
  apply six_tables in R as (Rd & Rf & Rm & Rc & Rx & Rr). rewrite <- Hfa, Lf, <- Hma in Rm. rewrite <- Hfa in Rf.
  rewrite <- Hfa, Lf, <- Hma, <- Hca in Rc. rewrite <- Hfa, Lf, <- Hma, <- Hca, Lc, <- Hxa in Rx.
  rewrite <- Hfa, Lf, <- Hma, <- Hca, Lc, <- Hxa, Lx in Rr. change (Z.of_nat 60) with 60 in Rr.
  exists mem', (xa + 60), xa, fa, ma, ca. rewrite E, Hra.
  assert (forall v, 0 <= v < 2 ^ 64 -> is_word (8 * Z.of_nat 8) v) as Hw by (intros; unfold is_word; lia).
  split; [done|]. split; [done|].
  split; [apply (read_part_le mem' (xa + 60) rsdp 24 8); [done|lia|done|apply Hw; lia]|].
  split; [apply (read_part_le mem' xa xsdt 36 8); [done|lia|done|apply Hw; lia]|].
  split; [apply (read_part_le mem' xa xsdt 44 8); [done|lia|done|apply Hw; lia]|].
  split; [apply (read_part_le mem' xa xsdt 52 8); [done|lia|done|apply Hw; lia]|].
  split; [split; [apply (read_part_le mem' fa fadt 140 8); [done|lia|done|apply Hw; lia]|done]|].
  rewrite madt_bytes in Bm by lia. destruct (madt_read mem' ma madt n Rm ltac:(lia) Bm Lm) as [Hp Hi].
  split; [|split; [exact Hi|]].
  { intros id Hid. split; [by apply Hp|]. intros cpuid threads vendor leaf Hf Hl.
    rewrite topology_identity by (done || lia). apply processor_id; [lia|by apply Hp]. }
  split.
  { split; [apply (read_part_le mem' ca mcfg 44 8); [done|lia|done|apply Hw; unfold MMCONFIG_START; lia]|].
    apply (read_part_le mem' ca mcfg 54 2); [done|lia|done|unfold is_word; lia]. }
  split.
  { pose proof (read_part mem' fa fadt 116 12 Rf ltac:(lia)) as H1. pose proof (read_part mem' fa fadt 128 1 Rf ltac:(lia)) as H2.
    unfold OFF_RESET_REG, OFF_RESET_VALUE in *. rewrite Fr in H1. rewrite Fv in H2. done. }
  pose proof (read_part mem' fa fadt 244 12 Rf ltac:(lia)) as H3. unfold OFF_SLEEP_CONTROL_REG in *. rewrite Fs in H3. done.
Qed.

End Facts.

(** * A concrete encoder *)

(** The header apart from its length, which is computed, and what follows it. *)
Record PlainSdt := { sdt_head : list Z; sdt_rev : Z; sdt_tail : list Z; sdt_body : list Z }.

Definition plain_bytes (s : PlainSdt) (sum : Z) : list Z :=
  sdt_head s ++ le_bytes 4 (36 + Z.of_nat (length (sdt_body s))) ++ [u8 (sdt_rev s); u8 sum] ++ sdt_tail s ++ sdt_body s.

Definition plain_fix (s : PlainSdt) : PlainSdt :=
  {| sdt_head := u8 <$> resize 4 32 (sdt_head s); sdt_rev := sdt_rev s; sdt_tail := u8 <$> resize 26 0 (sdt_tail s);
     sdt_body := u8 <$> sdt_body s |}.

Definition plain_slice (s : PlainSdt) : list Z :=
  plain_bytes (plain_fix s) (- foldr Z.add 0 (plain_bytes (plain_fix s) 0)).

Definition plain_set (s : PlainSdt) (body : list Z) : PlainSdt :=
  {| sdt_head := sdt_head s; sdt_rev := sdt_rev s; sdt_tail := sdt_tail s; sdt_body := body |}.

#[local] Instance plain_acpi : AcpiTables PlainSdt := {
  to_aml_bytes _ := [];
  sdt_new sig len rev oem id :=
    {| sdt_head := ascii_bytes sig; sdt_rev := rev; sdt_tail := ascii_bytes oem ++ ascii_bytes id ++ le_bytes 4 1;
       sdt_body := replicate (len - 36) 0 |};
  sdt_write s off n v :=
    if (36 <=? off)%nat && (off + n <=? 36 + length (sdt_body s))%nat
    then plain_set s (splice (sdt_body s) (off - 36) (le_bytes n v)) else s;
  append_slice s l := plain_set s (sdt_body s ++ l);
  as_slice := plain_slice;
  rsdp_bytes oem a := replicate 24 0 ++ le_bytes 8 a ++ replicate 4 0
}.

Lemma plain_drop s : drop 36 (plain_slice s) = u8 <$> sdt_body s.
Proof. unfold plain_slice, plain_bytes. rewrite !app_assoc. apply drop_app_length'. rewrite !length_app. simpl. rewrite !length_fmap, !length_resize. done. Qed.

Lemma plain_length s : length (plain_slice s) = (36 + length (sdt_body s))%nat.
Proof. unfold plain_slice, plain_bytes. rewrite !length_app. simpl. rewrite !length_fmap, !length_resize. lia. Qed.

Lemma plain_sub s k n : (36 <= k)%nat -> sub (plain_slice s) k n = u8 <$> sub (sdt_body s) (k - 36) n.
Proof.
  intros Hk. unfold sub. replace k with (36 + (k - 36))%nat at 1 by lia. rewrite <- drop_drop, plain_drop.
  by rewrite fmap_take, fmap_drop.
Qed.

Lemma u8_bytes l : Forall is_byte l -> u8 <$> l = l.
Proof. intros H. induction H as [|b l Hb _ IH]; [done|]. rewrite fmap_cons, IH. by rewrite wrap_small. Qed.

Lemma foldr_add_app l k : foldr Z.add 0 (l ++ k) = foldr Z.add 0 l + foldr Z.add 0 k.
Proof. induction l as [|x l IH]; [done|]. simpl. lia. Qed.

#[local] Instance plain_acpi_laws : AcpiTablesLaws PlainSdt.
Proof.
  split; cbn [as_slice sdt_new sdt_write append_slice rsdp_bytes plain_acpi].
  - intros. rewrite plain_length. simpl. rewrite length_replicate. lia.
  - intros s off n v. rewrite !plain_length. intros H. case_match eqn:E; [|done]. simpl.
    apply andb_true_iff in E as [E1%Nat.leb_le E2%Nat.leb_le]. rewrite length_splice; rewrite ?length_le_bytes; lia.
  - intros s off n v H1 H2. rewrite plain_length in H2. rewrite (proj2 (Nat.leb_le _ _)), (proj2 (Nat.leb_le _ _)) by lia. cbn [andb].
    rewrite plain_sub by done. cbn [plain_set sdt_body]. unfold sub, splice. rewrite drop_app_length' by (rewrite length_take; lia).
    rewrite take_app_length' by (by rewrite length_le_bytes). apply u8_bytes, le_bytes_bytes.
  - intros s off n v k m H1 H2 H3. rewrite plain_length in H2. case_match eqn:E; [|done].
    apply andb_true_iff in E as [E1%Nat.leb_le E2%Nat.leb_le]. rewrite !plain_sub by done. cbn [plain_set sdt_body]. f_equal.
    apply list_eq. intros i. unfold sub. destruct (decide (i < m)%nat); [|by rewrite !lookup_take_ge by lia].
    rewrite !lookup_take_lt, !lookup_drop by lia. apply lookup_splice_out; rewrite ?length_le_bytes; lia.
  - intros s l Hl. rewrite !plain_drop. simpl. rewrite fmap_app. by rewrite (u8_bytes l).
  - intros s l. rewrite !plain_length. simpl. rewrite length_app. lia.
  - intros s. unfold plain_slice, plain_bytes. rewrite !Forall_app. split_and!; try apply le_bytes_bytes.
    1,3,4: simpl; apply Forall_fmap, Forall_true; intros; by apply wrap_range.
    repeat constructor; by apply wrap_range.
  - intros s. unfold plain_slice. set (t := plain_fix s). unfold plain_bytes. rewrite !foldr_add_app. simpl.
    change (u8 0) with 0. set (A := foldr Z.add 0 (sdt_head t)). set (B := foldr Z.add 0 (sdt_tail t)).
    set (C := foldr Z.add 0 (sdt_body t)). unfold wrap. change (2 ^ 8) with 256.
    match goal with |- (?a + (?b + (?c + (?d mod 256 + 0) + ?e))) mod 256 = 0 =>
      pose proof (Z.div_mod d 256 ltac:(lia)); rewrite <- (Z.mod_unique (a + (b + (c + (d mod 256 + 0) + e))) 256 (- (d / 256)) 0); lia end.
  - done.
  - intros oem a. rewrite !Forall_app. split_and!; try apply le_bytes_bytes; by repeat constructor.
  - intros oem a. unfold sub. rewrite drop_app_length' by done. by rewrite take_app_length'.
Qed.

Lemma acpi_found_witness :
  exists mem' rsdp, setup_acpi (ram_zero 0x100000) 4 0xf0000 (Window64.mmio64_window 39) = Some (mem', rsdp) /\
    (exists xsdt madt, read_le mem' (rsdp + 24) 8 = Some xsdt /\ read_le mem' (xsdt + 44) 8 = Some madt /\
       read_slice mem' (madt + 44 + 16 * 3) 16 = Some [9; 16; 0; 0; 3; 0; 0; 0; 1; 0; 0; 0; 3; 0; 0; 0]).
Proof.
  destruct (acpi_found (S := PlainSdt) (HC := {| CPUID_MAX := 80 |}) (ram_zero 0x100000) 4 0xf0000 (Window64.mmio64_window 39))
    as (mem' & rsdp & xsdt & _ & madt & _ & E & _ & H & _ & Hm & _ & _ & Hp & _).
  - lia.
  - lia.
  - apply Z.ltb_lt. vm_compute. reflexivity.
  - eexists. vm_compute. reflexivity.
  - exists mem', rsdp. split; [exact E|]. exists xsdt, madt. split; [exact H|]. split; [exact Hm|]. exact (proj1 (Hp 3 ltac:(lia))).
Defined.
