(* ===== verification/Config.v ===== *)
(** A box's configuration, [vmm/src/config.rs]: the sections with their defaults,
    what is refused, where threads may run, and the guest's MAC address
    (with [format_mac] of [virtio-devices/src/net.rs], which prints it back).

    Reading JSON is serde's and is not modelled; text is its bytes.

    What an accepted configuration promises: every vCPU its own CPU where they
    are pinned, workers kept off them, and addresses that read back. *)

From stdpp Require Import strings.
From Stdlib Require Import Sorted.
From S2P Require Import Prelude NetDevice Shared.

Abbreviation PathBuf := string.

Inductive HugePages := Transparent | Huge2M | Huge1G.

#[export] Instance HugePages_eq_dec : EqDecision HugePages.
Proof. solve_decision. Defined.

Definition hugetlb_size (h : HugePages) : option Z :=
  match h with Transparent => None | Huge2M => Some (Z.shiftl 2 20) | Huge1G => Some (Z.shiftl 1 30) end.

Record MachineConfig := {
  vcpu_count : Z;
  mem_size_mib : Z;
  cpu_affinity : list Z;
  vcpu_pins : list Z;
  threads_per_core : Z;
  io_affinity : list Z;
  dedicated : bool;
  vcpu_cgroup_fd : option Z;
  io_cgroup_fd : option Z;
  hugepages : HugePages;
  prefault : bool
}.

Definition default_vcpus : Z := 2.
Definition default_mem_size : Z := 2048.
Definition default_prefault : bool := true.
Definition default_threads_per_core : Z := 1.

Definition MachineConfig_default : MachineConfig :=
  {| vcpu_count := default_vcpus; mem_size_mib := default_mem_size; cpu_affinity := []; vcpu_pins := [];
     threads_per_core := default_threads_per_core; io_affinity := []; dedicated := false; vcpu_cgroup_fd := None;
     io_cgroup_fd := None; hugepages := Transparent; prefault := default_prefault |}.

Inductive ConfigError :=
  | PinCount (pins vcpus : Z)
  | PinTwice
  | BadThreads (n : Z)
  | SiblingsUnpinned
  | DedicatedUnpinned
  | StdFd (name : string) (fd : Z)
  | CgroupPair
  | NotWholePages (mib page_mib : Z).

(** [None] accepts. *)
Definition check_fd (name : string) (fd : option Z) : option ConfigError :=
  match fd with
  | Some fd => if 2 <? fd then None else Some (StdFd name fd)
  | None => None
  end.

Definition ensure (b : bool) (e : ConfigError) : option ConfigError := if b then None else Some e.

(** The checks in order; the first that fails is the error. *)
Fixpoint first_error (l : list (option ConfigError)) : option ConfigError :=
  match l with
  | [] => None
  | Some e :: _ => Some e
  | None :: l => first_error l
  end.

Definition is_empty (l : list Z) : bool := match l with [] => true | _ => false end.

Definition validate (c : MachineConfig) : option ConfigError :=
  first_error
    ((if is_empty (vcpu_pins c) then []
      else [ensure (Z.of_nat (length (vcpu_pins c)) =? vcpu_count c)
              (PinCount (Z.of_nat (length (vcpu_pins c))) (vcpu_count c));
            ensure (length (sorted_set (vcpu_pins c)) =? length (vcpu_pins c))%nat PinTwice]) ++
     [ensure ((threads_per_core c =? 1) || (threads_per_core c =? 2)) (BadThreads (threads_per_core c));
      ensure ((threads_per_core c =? 1) || negb (is_empty (vcpu_pins c))) SiblingsUnpinned;
      ensure (negb (dedicated c) || negb (is_empty (vcpu_pins c))) DedicatedUnpinned;
      check_fd "vcpu_cgroup_fd" (vcpu_cgroup_fd c);
      check_fd "io_cgroup_fd" (io_cgroup_fd c);
      ensure (bool_decide (is_Some (vcpu_cgroup_fd c) <-> is_Some (io_cgroup_fd c))) CgroupPair] ++
     match hugetlb_size (hugepages c) with
     | Some page =>
         let page_mib := Z.shiftr page 20 in
         [ensure (mem_size_mib c mod page_mib =? 0) (NotWholePages (mem_size_mib c) page_mib)]
     | None => []
     end).

Definition io_cpus (c : MachineConfig) : list Z :=
  if is_empty (io_affinity c) then cpu_affinity c else io_affinity c.

Definition worker_cpus (c : MachineConfig) : list Z :=
  let cpus := sorted_set (filter (fun cpu => cpu ∉ vcpu_pins c) (io_cpus c ++ cpu_affinity c)) in
  if is_empty cpus then io_cpus c else cpus.

(** * The other sections *)

Record GpuForward := { gf_socket : PathBuf; proc_nvidia : PathBuf; gf_vram_limit_mib : option Z }.

Definition default_proc_nvidia : PathBuf := "/proc/driver/nvidia".

Record Gpu := {
  render_node : PathBuf;
  width : Z;
  height : Z;
  vram_limit_mib : option Z;
  host_visible_window_mib : option Z;
  host_visible_max_mappings : option Z;
  gpu_poll_us : Z;
  gpu_time_percent : option Z;
  gpu_worker_cpus : option (list Z);
  worker_slice_us : option Z
}.

Definition default_gpu_poll_us : Z := 50.
Definition default_render_node : PathBuf := "/dev/dri/renderD128".
Definition default_width : Z := 1920.
Definition default_height : Z := 1080.

Record Network := { cfg_tap_name : list Z; cfg_mac : option (list Z) }.

Record SharedDirectory := { tag : list Z; sd_path_on_host : PathBuf; read_only : bool; guest_owner : option (Z * Z) }.

Record VsockConfig := { guest_cid : Z }.

Record BootSource := { kernel_image_path : PathBuf; boot_args : list Z }.

Definition BootSource_default : BootSource :=
  {| kernel_image_path := "vmlinux"; boot_args := ascii_bytes "console=hvc0 root=/dev/vda rw" |}.

Record Drive := {
  drive_id : list Z;
  d_path_on_host : PathBuf;
  is_root_device : bool;
  is_read_only : bool;
  direct : option bool;
  num_queues : option Z;
  poll_us : option Z
}.

Record VmConfig := {
  boot_source : BootSource;
  drives : list Drive;
  machine_config : MachineConfig;
  vsock : option VsockConfig;
  shared_directories : list SharedDirectory;
  network : option Network;
  gpu : option Gpu;
  gpu_forward : option GpuForward;
  stats_socket : option PathBuf;
  control_socket : option PathBuf;
  seccomp : string;
  unshare_network : bool
}.

Definition default_seccomp : string := "enforce".

(** * MAC addresses *)

(** [str::split] at a one-byte character. *)
Fixpoint split_on (c : Z) (l : list Z) : list (list Z) :=
  match l with
  | [] => [[]]
  | x :: l =>
      if x =? c then [] :: split_on c l
      else match split_on c l with
           | w :: ws => (x :: w) :: ws
           | [] => [[x]]
           end
  end.

(** [char::to_digit(16)]. *)
Definition hex_digit (c : Z) : option Z :=
  if (48 <=? c) && (c <=? 57) then Some (c - 48)
  else if (97 <=? c) && (c <=? 102) then Some (c - 87)
  else if (65 <=? c) && (c <=? 70) then Some (c - 55)
  else None.

Fixpoint hex_value (acc : Z) (l : list Z) : option Z :=
  match l with
  | [] => Some acc
  | c :: l =>
      d ← hex_digit c;
      acc ← checked_mul 8 acc 16;
      acc ← checked_add 8 acc d;
      hex_value acc l
  end.

(** [u8::from_str_radix(s, 16)]: one sign is allowed, and only a plus. *)
Definition u8_from_hex (s : list Z) : option Z :=
  match s with
  | [] => None
  | [c] => if (c =? 43) || (c =? 45) then None else hex_value 0 s
  | c :: rest => if c =? 43 then hex_value 0 rest else hex_value 0 s
  end.

Inductive MacError := OctetCount | BadOctet (octet : list Z) | Multicast.

Fixpoint parse_octets (l : list (list Z)) : MacError + list Z :=
  match l with
  | [] => inr []
  | o :: l =>
      match u8_from_hex o with
      | None => inl (BadOctet o)
      | Some b =>
          match parse_octets l with
          | inl e => inl e
          | inr bs => inr (b :: bs)
          end
      end
  end.

Definition parsed_mac (n : Network) : MacError + option (list Z) :=
  match cfg_mac n with
  | None => inr None
  | Some text =>
      let octets := split_on 58 text in
      if negb (length octets =? 6)%nat then inl OctetCount
      else
        match parse_octets octets with
        | inl e => inl e
        | inr mac => if Z.land (default 0 (head mac)) 0x01 =? 0 then inr (Some mac) else inl Multicast
        end
  end.

(** ["{b:02x}"]. *)
Definition nibble_char (d : Z) : Z := if d <? 10 then 48 + d else 87 + d.
Definition hex_octet (b : Z) : list Z := [nibble_char (b / 16); nibble_char (b mod 16)].

(** Joined by colons. *)
Fixpoint join (c : Z) (l : list (list Z)) : list Z :=
  match l with
  | [] => []
  | [w] => w
  | w :: l => w ++ c :: join c l
  end.

Definition format_mac (mac : list Z) : list Z := join 58 (hex_octet <$> mac).

(** * Placement *)

Lemma is_empty_spec l : is_empty l = true <-> l = [].
Proof. by destruct l. Qed.

(** What the comments of the fields ask for. *)
Record sound (c : MachineConfig) : Prop := {
  pins_complete : vcpu_pins c <> [] -> Z.of_nat (length (vcpu_pins c)) = vcpu_count c /\ NoDup (vcpu_pins c);
  threads_known : threads_per_core c = 1 \/ threads_per_core c = 2;
  siblings_pinned : threads_per_core c = 2 -> vcpu_pins c <> [];
  dedicated_pinned : dedicated c = true -> vcpu_pins c <> [];
  fds_own : forall fd, vcpu_cgroup_fd c = Some fd \/ io_cgroup_fd c = Some fd -> 2 < fd;
  fds_paired : is_Some (vcpu_cgroup_fd c) <-> is_Some (io_cgroup_fd c);
  whole_pages : forall page, hugetlb_size (hugepages c) = Some page -> (page | mem_size_mib c * 2 ^ 20)
}.

Lemma first_error_none l : first_error l = None <-> Forall (fun e => e = None) l.
Proof.
  induction l as [|[e|] l IH]; simpl; [by split|split; [done|by intros [? _]%Forall_cons]|].
  rewrite IH, Forall_cons. naive_solver.
Qed.

Lemma ensure_none b e : ensure b e = None <-> b = true.
Proof. by destruct b. Qed.

Lemma check_fd_none name fd : check_fd name fd = None <-> forall x, fd = Some x -> 2 < x.
Proof.
  destruct fd as [x|]; simpl; [|naive_solver]. destruct (2 <? x) eqn:E; bool_prop; [naive_solver|].
  split; [done|]. intros H. specialize (H x eq_refl). lia.
Qed.

Lemma page_whole (h : HugePages) page mib :
  hugetlb_size h = Some page -> mib mod (Z.shiftr page 20) = 0 <-> (page | mib * 2 ^ 20).
Proof.
  intros Hp. assert (exists k, 0 < k /\ Z.shiftr page 20 = k /\ page = k * 2 ^ 20) as (k & Hk & -> & ->).
  { destruct h; simpl in Hp; [done|exists 2|exists 1024]; by injection Hp as <-. }
  rewrite Z.mod_divide by lia. split.
  - intros [q ->]. exists q. lia.
  - intros [q E]. exists q. lia.
Qed.

Lemma validate_pages c :
  Forall (fun e => e = None)
    match hugetlb_size (hugepages c) with
    | Some page => [ensure (mem_size_mib c mod Z.shiftr page 20 =? 0) (NotWholePages (mem_size_mib c) (Z.shiftr page 20))]
    | None => []
    end <-> (forall page, hugetlb_size (hugepages c) = Some page -> (page | mem_size_mib c * 2 ^ 20)).
Proof.
  destruct (hugetlb_size (hugepages c)) as [page|] eqn:E; [|split; [done|constructor]].
  rewrite Forall_singleton, ensure_none, Z.eqb_eq, (page_whole (hugepages c)) by done. naive_solver.
Qed.

Lemma validate_pins c :
  Forall (fun e => e = None)
    (if is_empty (vcpu_pins c) then []
     else [ensure (Z.of_nat (length (vcpu_pins c)) =? vcpu_count c)
             (PinCount (Z.of_nat (length (vcpu_pins c))) (vcpu_count c));
           ensure (length (sorted_set (vcpu_pins c)) =? length (vcpu_pins c))%nat PinTwice]) <->
  (vcpu_pins c <> [] -> Z.of_nat (length (vcpu_pins c)) = vcpu_count c /\ NoDup (vcpu_pins c)).
Proof.
  destruct (is_empty (vcpu_pins c)) eqn:E.
  - apply is_empty_spec in E. rewrite E. split; [done|constructor].
  - rewrite !Forall_cons, !ensure_none, Z.eqb_eq, Nat.eqb_eq, sorted_set_NoDup.
    assert (vcpu_pins c <> []) by (intros H; apply is_empty_spec in H; congruence). naive_solver.
Qed.

(** A configuration is accepted exactly when it can be carried out as
    written: pins name as many distinct CPUs as there are vCPUs, threads per core
    are one or two, siblings and dedication come with pins, the cgroup
    descriptors come in pairs and are none of the standard three, and memory is a
    whole number of the huge pages asked for. *)
Theorem validate_exact c : validate c = None <-> sound c.
Proof.
  unfold validate. rewrite first_error_none, !Forall_app, validate_pins, validate_pages.
  rewrite !Forall_cons, !ensure_none, !check_fd_none, bool_decide_eq_true, !orb_true_iff, !negb_true_iff, !Z.eqb_eq.
  assert (is_empty (vcpu_pins c) = false <-> vcpu_pins c <> []) as -> by (rewrite <- is_empty_spec; by destruct (is_empty _)).
  split.
  - intros (H1 & (H2 & H3 & H4 & H5 & H6 & H7 & _) & H8). split; try done.
    + intros Ht. destruct H3; [congruence|done].
    + intros Hd. destruct H4; [congruence|done].
    + naive_solver.
  - intros [H1 H2 H3 H4 H5 H6 H7]. split_and!; try done.
    + destruct H2 as [H2|H2]; auto.
    + destruct (dedicated c); auto.
    + intros x Hx. apply H5. by left.
    + intros x Hx. apply H5. by right.
Qed.

(** The GPU worker is kept off the vCPUs' CPUs.  Where any CPU of the I/O and
    guest sets is free of pins, the worker gets exactly those that are, in order
    and each once; otherwise it falls back to the I/O set, which is never empty
    unless the guest was given no CPUs at all. *)
Theorem worker_off_pins c :
  let free cpu := (cpu ∈ io_cpus c \/ cpu ∈ cpu_affinity c) /\ cpu ∉ vcpu_pins c in
  ((exists cpu, free cpu) -> (forall cpu, cpu ∈ worker_cpus c <-> free cpu) /\ StronglySorted Z.lt (worker_cpus c)) /\
  ((forall cpu, ~ free cpu) -> worker_cpus c = io_cpus c) /\
  (worker_cpus c = [] -> io_affinity c = [] /\ cpu_affinity c = []).
Proof.
  cbv zeta. set (s := sorted_set (filter (fun cpu => cpu ∉ vcpu_pins c) (io_cpus c ++ cpu_affinity c))).
  assert (forall cpu, cpu ∈ s <-> (cpu ∈ io_cpus c \/ cpu ∈ cpu_affinity c) /\ cpu ∉ vcpu_pins c) as Hs.
  { intros cpu. unfold s. rewrite elem_of_sorted_set, list_elem_of_filter, elem_of_app. naive_solver. }
  assert (worker_cpus c = if is_empty s then io_cpus c else s) as -> by done.
  destruct (is_empty s) eqn:E.
  - apply is_empty_spec in E. split_and!.
    + intros [cpu Hc]. apply Hs in Hc. rewrite E in Hc. by apply elem_of_nil in Hc.
    + done.
    + unfold io_cpus. destruct (io_affinity c) eqn:Ei; simpl; naive_solver.
  - split_and!.
    + intros _. split; [exact Hs|apply sorted_set_sorted].
    + intros Hn. exfalso. destruct s as [|x s']; [done|]. apply (Hn x), Hs. by left.
    + intros ->. done.
Qed.

(** * Addresses *)

Lemma split_join c ws w :
  Forall (fun v => c ∉ v) (w :: ws) -> split_on c (join c (w :: ws)) = w :: ws.
Proof.
  revert w. induction ws as [|w' ws IH]; intros w [Hw Hws]%Forall_cons.
  - cbn [join]. induction w as [|x w IHw]; [done|]. apply not_elem_of_cons in Hw as [Hx Hw]. cbn [split_on].
    rewrite (proj2 (Z.eqb_neq _ _)) by done. by rewrite IHw.
  - change (join c (w :: w' :: ws)) with (w ++ c :: join c (w' :: ws)).
    induction w as [|x w IHw]; cbn [app split_on].
    + rewrite Z.eqb_refl. by rewrite IH.
    + apply not_elem_of_cons in Hw as [Hx Hw]. rewrite (proj2 (Z.eqb_neq _ _)) by done. by rewrite IHw.
Qed.

Lemma nibble_digit d : 0 <= d < 16 -> hex_digit (nibble_char d) = Some d /\ nibble_char d <> 58 /\ nibble_char d <> 43.
Proof.
  intros Hd. unfold nibble_char, hex_digit. destruct (d <? 10) eqn:E; bool_prop.
  - rewrite (proj2 (Z.leb_le 48 _)), (proj2 (Z.leb_le _ 57)) by lia. simpl. split; [f_equal; lia|lia].
  - rewrite (proj2 (Z.leb_gt (87 + d) 57)) by lia. rewrite andb_false_r.
    rewrite (proj2 (Z.leb_le 97 _)), (proj2 (Z.leb_le _ 102)) by lia. simpl. split; [f_equal; lia|lia].
Qed.

Lemma octet_reads b : is_byte b -> u8_from_hex (hex_octet b) = Some b /\ 58 ∉ hex_octet b.
Proof.
  intros Hb. unfold is_word in Hb. pose proof (Z.div_mod b 16 ltac:(lia)) as Hdm. pose proof (Z.mod_pos_bound b 16 ltac:(lia)) as Hm.
  assert (0 <= b / 16 < 16) as Hd by (split; [apply Z.div_pos; lia|apply Z.div_lt_upper_bound; lia]).
  destruct (nibble_digit (b / 16) Hd) as (E1 & N1 & P1). destruct (nibble_digit (b mod 16) Hm) as (E2 & N2 & P2).
  unfold hex_octet. split; [|rewrite !not_elem_of_cons; split_and!; [done..|apply not_elem_of_nil]].
  cbn [u8_from_hex]. rewrite (proj2 (Z.eqb_neq _ 43)) by done. cbn [hex_value]. rewrite E1. cbn [mbind option_bind].
  unfold checked_mul, checked_add. change (2 ^ 8) with 256. rewrite (proj2 (Z.ltb_lt (0 * 16) 256)) by lia. cbn [mbind option_bind].
  rewrite (proj2 (Z.ltb_lt (0 * 16 + b / 16) 256)) by lia. cbn [mbind option_bind]. rewrite E2. cbn [mbind option_bind].
  rewrite (proj2 (Z.ltb_lt _ 256)) by lia. cbn [mbind option_bind]. rewrite (proj2 (Z.ltb_lt _ 256)) by lia. cbn [mbind option_bind].
  f_equal. lia.
Qed.

Lemma octets_read l : Forall is_byte l -> parse_octets (hex_octet <$> l) = inr l.
Proof.
  induction 1 as [|b l Hb _ IH]; [done|]. rewrite fmap_cons. cbn [parse_octets].
  by rewrite (proj1 (octet_reads b Hb)), IH.
Qed.

Lemma hex_value_byte l acc b : is_byte acc -> hex_value acc l = Some b -> is_byte b.
Proof.
  revert acc. induction l as [|c l IH]; intros acc Ha; simpl; [by intros [= <-]|].
  unfold checked_mul, checked_add. destruct (hex_digit c) as [d|] eqn:E; simpl; [|done].
  destruct (acc * 16 <? 2 ^ 8) eqn:E1; simpl; [|done]. destruct (acc * 16 + d <? 2 ^ 8) eqn:E2; simpl; [|done].
  apply IH. bool_prop. unfold is_word in *. split; [|done].
  assert (0 <= d); [|lia]. unfold hex_digit in E. repeat case_match; bool_prop; simplify_eq; lia.
Qed.

Lemma octet_byte s b : u8_from_hex s = Some b -> is_byte b.
Proof.
  intros H. assert (exists l, hex_value 0 l = Some b) as [l Hl]; [|by eapply hex_value_byte].
  destruct s as [|c [|d s]]; simpl in H; [done|case_match; [done|by eexists [c]]|].
  case_match; [by exists (d :: s)|by exists (c :: d :: s)].
Qed.

Lemma octets_bytes l bs : parse_octets l = inr bs -> length bs = length l /\ Forall is_byte bs.
Proof.
  revert bs. induction l as [|o l IH]; simpl; intros bs; [by intros [= <-]|].
  destruct (u8_from_hex o) as [b|] eqn:E; [|done]. destruct (parse_octets l) as [e|bs'] eqn:E'; [done|].
  intros [= <-]. destruct (IH bs' eq_refl) as [H1 H2]. simpl. split; [by f_equal|]. constructor; [by eapply octet_byte|done].
Qed.

(** The guest's address reads back.  Every unicast address prints as a text
    that the configuration accepts and reads as that address; whatever text is
    accepted gives six bytes of a unicast address; and the address a tap's name
    gives when none is configured is one of those. *)
Theorem mac_roundtrip tap :
  (forall mac, length mac = 6%nat -> Forall is_byte mac -> Z.testbit (default 0 (head mac)) 0 = false ->
     parsed_mac {| cfg_tap_name := tap; cfg_mac := Some (format_mac mac) |} = inr (Some mac)) /\
  (forall text mac, parsed_mac {| cfg_tap_name := tap; cfg_mac := Some text |} = inr (Some mac) ->
     length mac = 6%nat /\ Forall is_byte mac /\ Z.testbit (default 0 (head mac)) 0 = false) /\
  (length (default_mac tap) = 6%nat /\ Z.testbit (default 0 (head (default_mac tap))) 0 = false).
Proof.
  assert (forall x, (Z.land x 1 =? 0) = negb (Z.testbit x 0)) as Hbit.
  { intros x. change 1 with (2 ^ 1 - 1). rewrite land_ones_mod by lia. change (2 ^ 1) with 2. rewrite <- Z.bit0_mod.
    by destruct (Z.testbit x 0). }
  split_and!.
  - intros mac Hl Hb Hm. unfold parsed_mac. cbn [cfg_mac]. unfold format_mac.
    assert (split_on 58 (join 58 (hex_octet <$> mac)) = hex_octet <$> mac) as ->.
    { destruct mac as [|b mac]; [done|]. rewrite fmap_cons. apply split_join. rewrite <- fmap_cons.
      apply Forall_fmap. eapply Forall_impl; [exact Hb|]. intros x Hx. by apply octet_reads. }
    rewrite length_fmap, Hl. cbn [Nat.eqb negb]. rewrite octets_read by done. by rewrite Hbit, Hm.
  - intros text mac. unfold parsed_mac. cbn [cfg_mac]. destruct (length (split_on 58 text) =? 6)%nat eqn:E; simpl; [|done].
    destruct (parse_octets (split_on 58 text)) as [e|bs] eqn:Ep; [done|]. rewrite Hbit.
    destruct (Z.testbit (default 0 (head bs)) 0) eqn:Et; simpl; [done|]. intros [= <-].
    destruct (octets_bytes _ _ Ep) as [H1 H2]. apply Nat.eqb_eq in E. split_and!; [congruence|done|done].
  - unfold default_mac. simpl. done.
  - unfold default_mac. simpl. done.
Qed.

Lemma mac_roundtrip_witness :
  parsed_mac {| cfg_tap_name := [116]; cfg_mac := Some (format_mac [0x52; 0x54; 0; 0x12; 0xab; 0xff]) |} =
    inr (Some [0x52; 0x54; 0; 0x12; 0xab; 0xff]).
Proof.
  apply (mac_roundtrip [116]); [reflexivity| |reflexivity].
  repeat (apply Forall_cons; split; [unfold is_word; lia|]). apply Forall_nil_2.
Defined.
