(* ===== verification/Vm.v ===== *)
(** Building the virtual machine, [vmm/src/vm.rs]: guest RAM from one memory file,
    placed for huge pages; the kernel and its tables; the vCPUs.

    The kernel (KVM and memory management) is the class [VmHost] over a host
    state; a call may fail whenever it likes.  The guest memory that the mapped
    regions make up is vm-memory's, and the ELF loader linux-loader's. *)

From stdpp Require Import strings.
From S2P Require Import Prelude Shared Layout GuestMem Cpuid Boot Acpi Config.

(** * Huge pages on the host *)

Inductive ShmemThp := OnFault | CollapseOnly | Denied.

#[export] Instance ShmemThp_eq_dec : EqDecision ShmemThp.
Proof. solve_decision. Defined.

Fixpoint find_byte (c : Z) (l : list Z) : option nat :=
  match l with
  | [] => None
  | x :: l => if x =? c then Some 0%nat else S <$> find_byte c l
  end.

(** The bracketed choice in a sysfs selector. *)
Definition selected (sysfs : list Z) : option (list Z) :=
  open ← find_byte 91 sysfs;
  len ← find_byte 93 (drop open sysfs);
  Some (take (len - 1) (drop (open + 1) sysfs)).

Definition from_policy (policy : option (list Z)) : ShmemThp :=
  match policy with
  | Some p =>
      if bool_decide (p = ascii_bytes "never") then CollapseOnly
      else if bool_decide (p = ascii_bytes "deny") then Denied
      else OnFault
  | None => OnFault
  end.

(** What the two policy files hold; the 2 MiB size's own setting wins unless it
    defers. *)
Definition ShmemThp_read (own global : option (list Z)) : ShmemThp :=
  let chosen (file : option (list Z)) := s ← file; selected s in
  from_policy
    match chosen own with
    | Some p => if bool_decide (p = ascii_bytes "inherit") then chosen global else Some p
    | None => chosen global
    end.

(** * The host *)

Definition MFD_CLOEXEC : Z := 1.
Definition MFD_HUGETLB : Z := 4.
Definition MFD_HUGE_2MB : Z := Z.shiftl 21 26.
Definition MFD_HUGE_1GB : Z := Z.shiftl 30 26.
Definition MAP_SHARED : Z := 0x01.
Definition MAP_FIXED : Z := 0x10.
Definition MAP_NORESERVE : Z := 0x4000.
Definition EINVAL : Z := 22.
Definition MADV_HUGEPAGE : Z := 14.
Definition MADV_POPULATE_WRITE : Z := 23.
Definition MADV_COLLAPSE : Z := 25.
Definition KVM_X86_DISABLE_EXITS_HLT : Z := 2.
Definition KVM_X86_DISABLE_EXITS_PAUSE : Z := 4.

Class VmHost (K V M : Type) := {
  kvm_new : K -> K * bool;
  create_vm : K -> K * bool;
  (** The extension's answer, an [i32]. *)
  check_disable_exits : K -> Z;
  enable_disable_exits : K -> Z -> K * bool;
  create_irq_chip : K -> K * bool;
  get_supported_cpuid : K -> option CpuId;
  (** The contents of the two policy files. *)
  shmem_policies : K -> option (list Z) * option (list Z);
  memfd_create : K -> Z -> K * (Z + Z);
  ftruncate : K -> Z -> Z -> K * bool;
  (** Address space of the kernel's choosing, unusable until mapped over. *)
  mmap_reserve : K -> Z -> K * option Z;
  (** Size, descriptor, offset and flags, at an address of ours. *)
  mmap_fixed : K -> Z -> Z -> Z -> Z -> Z -> K * bool;
  munmap : K -> Z -> Z -> K;
  (** A hugetlb mapping: size, descriptor, offset; the address. *)
  mmap_hugetlb : K -> Z -> Z -> Z -> K * option Z;
  (** Zero, or the error's number. *)
  madvise : K -> Z -> Z -> Z -> K * Z;
  (** [GuestMemoryMmap::from_regions]: guest address, size and host address of each. *)
  from_regions : list (Z * Z * Z) -> option M;
  set_memory_region : K -> Z -> Z -> Z -> Z -> K * bool;
  create_vcpu : K -> Z -> K * option V;
  set_cpuid2 : V -> CpuId -> option V;
  get_msr : V -> Z -> option Z;
  set_msr : V -> Z -> Z -> option V
}.

Section Vm.
Context {K V M S : Type} {HK : VmHost K V M} {HV : VcpuFd V} {HM : GuestMemory M} {HL : LinuxLoader M}
  {HS : AcpiTables S} {HC : CpuidCapacity}.

Definition host_phys_addr_bits (k : K) : option Z :=
  cpuid ← get_supported_cpuid k;
  Some (match list_find (fun e => function e = 0x80000008) cpuid with
        | Some (_, e) => let b := Z.land (eax e) 0xff in if 32 <=? b then b else 36
        | None => 36
        end).

Definition disable_idle_exits (k : K) : K :=
  let allowed := check_disable_exits k in
  let wanted := Z.lor KVM_X86_DISABLE_EXITS_HLT KVM_X86_DISABLE_EXITS_PAUSE in
  let mask := Z.land wanted (if 0 <=? allowed then allowed else 0) in
  if mask =? 0 then k else (enable_disable_exits k mask).1.

(** ** Guest RAM *)

Definition create_memfd (k : K) (size : Z) (hugetlb : option Z) : K * option Z :=
  let flags := match hugetlb with
               | None => MFD_CLOEXEC
               | Some page =>
                   if page =? Z.shiftl 1 30 then Z.lor (Z.lor MFD_CLOEXEC MFD_HUGETLB) MFD_HUGE_1GB
                   else Z.lor (Z.lor MFD_CLOEXEC MFD_HUGETLB) MFD_HUGE_2MB
               end in
  match memfd_create k flags with
  | (k, inl _) => (k, None)
  | (k, inr fd) => let '(k, ok) := ftruncate k fd size in (k, if ok : bool then Some fd else None)
  end.

Definition HUGE_ALIGN : Z := Z.shiftl 2 20.

Definition mmap_aligned (k : K) (fd offset size flags : Z) : K * option Z :=
  let span := size ⊕ HUGE_ALIGN in
  match mmap_reserve k span with
  | (k, None) => (k, None)
  | (k, Some base) =>
      let aligned := Z.land (base ⊕ HUGE_ALIGN ⊖ 1) (lnotw 64 (HUGE_ALIGN - 1)) in
      let '(k, ok) := mmap_fixed k aligned size fd offset (Z.lor flags MAP_FIXED) in
      if ok : bool then
        let k := if base <? aligned then munmap k base (aligned - base) else k in
        let end_ := aligned ⊕ size in
        let k := if end_ <? base ⊕ span then munmap k end_ (base ⊕ span ⊖ end_) else k in
        (k, Some aligned)
      else (munmap k base span, None)
  end.

(** One region: the host address it is mapped at. *)
Definition map_ram (k : K) (fd offset size : Z) (hugetlb : option Z) : K * option Z :=
  match hugetlb with
  | Some _ => mmap_hugetlb k size fd offset
  | None => mmap_aligned k fd offset size (Z.lor MAP_SHARED MAP_NORESERVE)
  end.

(** Every region from the one file, one after the other; each as guest address,
    size and host address. *)
Fixpoint map_regions (k : K) (fd file_offset : Z) (hugetlb : option Z) (regions : list (Z * Z)) :
    K * option (list (Z * Z * Z)) :=
  match regions with
  | [] => (k, Some [])
  | (start, size) :: regions =>
      match map_ram k fd file_offset size hugetlb with
      | (k, None) => (k, None)
      | (k, Some host) =>
          let '(k, rest) := map_regions k fd (file_offset ⊕ size) hugetlb regions in
          (k, cons (start, size, host) <$> rest)
      end
  end.

Definition advise_huge (k : K) (host_addr size : Z) : K * bool :=
  let '(k, e) := madvise k host_addr size MADV_HUGEPAGE in (k, e =? 0).

(** The slots KVM is given, numbered from [slot] on. *)
Fixpoint set_slots (k : K) (slot : Z) (hugetlb : option Z) (thp : option ShmemThp) (mapped : list (Z * Z * Z)) : K * bool :=
  match mapped with
  | [] => (k, true)
  | (start, size, host_addr) :: mapped =>
      let k := match hugetlb, thp with
               | None, Some OnFault => (advise_huge k host_addr size).1
               | _, _ => k
               end in
      let '(k, ok) := set_memory_region k slot start size host_addr in
      if ok : bool then set_slots k (u32 (slot + 1)) hugetlb thp mapped else (k, false)
  end.

(** ** Prefault *)

(** Populate each range; false once one is refused. *)
Fixpoint populate (k : K) (ranges : list (Z * Z)) : K * bool :=
  match ranges with
  | [] => (k, true)
  | (host_addr, size) :: ranges =>
      let '(k, e) := madvise k host_addr size MADV_POPULATE_WRITE in
      if e =? 0 then populate k ranges else (k, false)
  end.

(** [(0..size).step_by(HUGE_ALIGN)]. *)
Definition blocks (size : Z) : list Z :=
  (fun i => i * HUGE_ALIGN) <$> seqZ 0 ((size + HUGE_ALIGN - 1) / HUGE_ALIGN).

(** One huge page at a time; [None] stops asking, else how many were refused. *)
Fixpoint collapse_blocks (k : K) (host_addr : Z) (refused : Z) (bs : list Z) : K * Z * bool :=
  match bs with
  | [] => (k, refused, true)
  | b :: bs =>
      let '(k, e) := madvise k (host_addr ⊕ b) HUGE_ALIGN MADV_COLLAPSE in
      if e =? 0 then collapse_blocks k host_addr refused bs
      else if e =? EINVAL then (k, refused, false)
      else collapse_blocks k host_addr (refused + 1) bs
  end.

Fixpoint collapse (k : K) (refused : Z) (ranges : list (Z * Z)) : K * Z :=
  match ranges with
  | [] => (k, refused)
  | (host_addr, size) :: ranges =>
      let '(k, refused, more) := collapse_blocks k host_addr refused (blocks size) in
      if more : bool then collapse k refused ranges else (k, refused)
  end.

(** What the prefault thread does, to its log line. *)
Definition prefault_thread (k : K) (ranges : list (Z * Z)) (thp : option ShmemThp) : K :=
  let '(k, ok) := populate k ranges in
  if negb ok then k
  else match thp with
       | None => k
       | Some thp => if bool_decide (thp = Denied) then k else (collapse k 0 ranges).1
       end.

(** ** vCPUs *)

Definition MSR_IA32_MISC_ENABLE : Z := 0x1a0.
Definition MISC_ENABLE_FAST_STRING : Z := 1.

Definition enable_fast_strings (vcpu : V) : option V :=
  data ← get_msr vcpu MSR_IA32_MISC_ENABLE;
  set_msr vcpu MSR_IA32_MISC_ENABLE (Z.lor data MISC_ENABLE_FAST_STRING).

(** The table one vCPU is given. *)
Definition vcpu_cpuid (machine : MachineConfig) (cpuid : CpuId) (cpu_id : Z) : CpuId :=
  let cpuid' := patch_topology cpuid cpu_id (vcpu_count machine) (threads_per_core machine) (vendor_of cpuid) in
  if dedicated machine then (advertise_dedicated cpuid').1 else cpuid'.

(** Only vCPU zero, the bootstrap processor, is given registers. *)
Definition start_vcpu (k : K) (mem : M) (machine : MachineConfig) (entry_point cpu_id : Z) : K * option (M * V) :=
  match create_vcpu k cpu_id with
  | (k, None) => (k, None)
  | (k, Some vcpu) =>
      (k,
       cpuid ← get_supported_cpuid k;
       vcpu ← set_cpuid2 vcpu (vcpu_cpuid machine cpuid cpu_id);
       vcpu ← (if bool_decide (vendor_of cpuid = Intel) then enable_fast_strings vcpu else Some vcpu);
       if cpu_id =? 0 then
         vcpu ← setup_fpu vcpu;
         vcpu ← setup_regs vcpu entry_point;
         setup_sregs mem vcpu
       else Some (mem, vcpu))
  end.

Fixpoint start_vcpus (k : K) (mem : M) (machine : MachineConfig) (entry_point : Z) (ids : list Z) : K * option (M * list V) :=
  match ids with
  | [] => (k, Some (mem, []))
  | cpu_id :: ids =>
      match start_vcpu k mem machine entry_point cpu_id with
      | (k, None) => (k, None)
      | (k, Some (mem, vcpu)) =>
          let '(k, rest) := start_vcpus k mem machine entry_point ids in
          (k, '(mem, vcpus) ← rest; Some (mem, vcpu :: vcpus))
      end
  end.

(** ** The machine *)

Record Vm := {
  v_host : K;
  v_mem : M;
  v_vcpus : list V;
  v_mmio64 : Window64.Mmio64Window;
  v_ram : list (Z * Z * Z);
  ram_slot_count : Z
}.

(** Memory, up to the slots. *)
Definition build_ram (k : K) (machine : MachineConfig) (mem_size : Z) : option (K * M * list (Z * Z * Z)) :=
  let regions := ram_regions mem_size in
  let hugetlb := hugetlb_size (hugepages machine) in
  let thp := match hugetlb with
             | None => Some (let '(own, global) := shmem_policies k in ShmemThp_read own global)
             | Some _ => None
             end in
  let '(k, fd) := create_memfd k mem_size hugetlb in
  fd ← fd;
  let '(k, mapped) := map_regions k fd 0 hugetlb regions in
  mapped ← mapped;
  mem ← from_regions mapped;
  let '(k, ok) := set_slots k 0 hugetlb thp mapped in
  if ok : bool then Some (k, mem, mapped) else None.

(** The kernel, its tables and the vCPUs, in memory that is there. *)
Definition boot_guest (k : K) (mem : M) (machine : MachineConfig) (mem_size : Z) (mmio64 : Window64.Mmio64Window)
    (kernel : option (list Z)) (cmdline_str : list Z) : K * option (M * list V) :=
  match (
    '(mem, entry_point) ← load_kernel mem kernel;
    '(mem, rsdp_addr) ← setup_acpi mem (vcpu_count machine) (acpi_start mem_size) mmio64;
    mem ← setup_boot_params mem entry_point cmdline_str (ram_regions mem_size) (Some rsdp_addr);
    Some (mem, entry_point)) with
  | None => (k, None)
  | Some (mem, entry_point) => start_vcpus k mem machine entry_point (seqZ 0 (vcpu_count machine))
  end.

(** [Vm::new].  The prefault thread runs beside what follows and is
    [prefault_thread]. *)
Definition Vm_new (k : K) (machine : MachineConfig) (kernel : option (list Z)) (cmdline_str : list Z) : option Vm :=
  let '(k, ok) := kvm_new k in
  if negb ok then None else
  let '(k, ok) := create_vm k in
  if negb ok then None else
  let k := if dedicated machine then disable_idle_exits k else k in
  let '(k, ok) := create_irq_chip k in
  if negb ok then None else
  let mem_size := mem_size_mib machine ⊗ 1024 ⊗ 1024 in
  phys_bits ← host_phys_addr_bits k;
  let mmio64 := Window64.mmio64_window phys_bits in
  if negb (Window64.fits_above mmio64 (ram_top mem_size)) then None else
  '(k, mem, mapped) ← build_ram k machine mem_size;
  let '(k, booted) := boot_guest k mem machine mem_size mmio64 kernel cmdline_str in
  '(mem, vcpus) ← booted;
  Some {| v_host := k; v_mem := mem; v_vcpus := vcpus; v_mmio64 := mmio64; v_ram := mapped;
          ram_slot_count := u32 (Z.of_nat (length (ram_regions mem_size))) |}.

End Vm.

Arguments Vm : clear implicits.
