(* ===== verification/VmFacts.v ===== *)
(** Guest RAM: one file, mapped whole and once, at host addresses that huge pages
    can use; nothing else of the host's address space is touched.

    What a machine is once [Vm::new] has succeeded. *)

From stdpp Require Import strings.
From S2P Require Import Prelude Layout GuestMem Shared Cpuid CpuidFacts Boot BootFacts Acpi Config Vm.

(** What an address of this process leads to. *)
Inductive Backing := Nothing | Reserved | FileByte (fd offset : Z).

#[export] Instance Backing_eq_dec : EqDecision Backing.
Proof. solve_decision. Defined.

(** What mmap and munmap are documented to do to the address space. *)
Class MmapLaws (K V M : Type) {HK : VmHost K V M} := {
  backing : K -> Z -> Backing;
  reserve_ok k n k' b : 0 < n -> mmap_reserve k n = (k', Some b) ->
    0 < b /\ b + n <= 2 ^ 47 /\
    forall a, backing k' a = (if in_range b (b + n) a then Reserved else backing k a) /\
      (in_range b (b + n) a = true -> backing k a = Nothing);
  reserve_fails k n k' a : mmap_reserve k n = (k', None) -> backing k' a = backing k a;
  fixed_ok k b n fd off fl k' a : mmap_fixed k b n fd off fl = (k', true) ->
    backing k' a = if in_range b (b + n) a then FileByte fd (off + (a - b)) else backing k a;
  fixed_fails k b n fd off fl k' a : mmap_fixed k b n fd off fl = (k', false) -> in_range b (b + n) a = false ->
    backing k' a = backing k a;
  munmap_all k b n a : backing (munmap k b n) a = if in_range b (b + n) a then Nothing else backing k a;
  hugetlb_ok k n fd off k' b : 0 < n -> mmap_hugetlb k n fd off = (k', Some b) ->
    b mod HUGE_ALIGN = 0 /\
    forall a, backing k' a = (if in_range b (b + n) a then FileByte fd (off + (a - b)) else backing k a) /\
      (in_range b (b + n) a = true -> backing k a = Nothing);
  hugetlb_fails k n fd off k' a : mmap_hugetlb k n fd off = (k', None) -> backing k' a = backing k a
}.

Section Facts.
Context {K V M : Type} {HK : VmHost K V M} {HL : MmapLaws K V M}.
Implicit Types (k : K).

(** Exactly the range is now the file's bytes, and it was free. *)
Definition mapped_at k k' (b n fd off : Z) : Prop :=
  b mod HUGE_ALIGN = 0 /\
  forall a, backing k' a = (if in_range b (b + n) a then FileByte fd (off + (a - b)) else backing k a) /\
    (in_range b (b + n) a = true -> backing k a = Nothing).

Lemma in_range_false lo hi a : in_range lo hi a = false <-> a < lo \/ hi <= a.
Proof. unfold in_range. rewrite andb_false_iff, Z.leb_gt, Z.ltb_ge. done. Qed.

Lemma aligned_address b :
  0 < b < 2 ^ 62 ->
  let a := Z.land (b ⊕ HUGE_ALIGN ⊖ 1) (lnotw 64 (HUGE_ALIGN - 1)) in
  a mod HUGE_ALIGN = 0 /\ b <= a < b + HUGE_ALIGN.
Proof.
  intros Hb. cbv zeta. change HUGE_ALIGN with (2 ^ 21). rewrite (wrap_small 64 (b + 2 ^ 21)) by (unfold is_word; lia).
  rewrite wrap_small by (unfold is_word; lia). rewrite (land_align_down 64 _ 21) by (unfold is_word; lia).
  set (x := b + 2 ^ 21 - 1). pose proof (Z.mod_pos_bound x (2 ^ 21) ltac:(lia)). split; [|lia].
  rewrite Zminus_mod, Z.mod_mod, Z.sub_diag by lia. done.
Qed.

(** [mmap_aligned] either gives back an address on a 2 MiB boundary where exactly
    the bytes asked for are the file's from the offset on, in space that was free,
    with every other address of the process as it was, the slack of the
    reservation included; or it fails and every address is as it was. *)
Lemma mmap_aligned_exact k fd off size flags :
  0 < size -> size + HUGE_ALIGN < 2 ^ 62 ->
  match mmap_aligned k fd off size flags with
  | (k', Some b) => mapped_at k k' b size fd off
  | (k', None) => forall a, backing k' a = backing k a
  end.
Proof.
  intros Hs Hs2. unfold mmap_aligned. assert (HUGE_ALIGN = 2 ^ 21) as HA by done. rewrite (wrap_small 64 (size + _)) by (unfold is_word; lia).
  destruct (mmap_reserve k (size + HUGE_ALIGN)) as [k1 [b|]] eqn:E1; [|intros a; by eapply reserve_fails].
  destruct (reserve_ok k (size + HUGE_ALIGN) k1 b ltac:(lia) E1) as (Hb & Hbn & H1).
  destruct (aligned_address b ltac:(lia)) as [Hmod Hal]. set (al := Z.land _ _) in *. clearbody al.
  destruct (mmap_fixed k1 al size fd off (Z.lor flags MAP_FIXED)) as [k2 []] eqn:E2.
  - rewrite (wrap_small 64 (al + size)), (wrap_small 64 (b + (size + HUGE_ALIGN))) by (unfold is_word; lia).
    rewrite (wrap_small 64 (b + (size + HUGE_ALIGN) - (al + size))) by (unfold is_word; lia).
    split; [done|]. intros a. destruct (H1 a) as [H1a H1f]. pose proof (fixed_ok _ _ _ _ _ _ _ a E2) as H2a.
    split; [|intros Ha; apply H1f; apply in_range_spec in Ha; apply in_range_spec; lia].
    set (k3 := if b <? al then munmap k2 b (al - b) else k2).
    assert (backing k3 a = if in_range b al a then Nothing else backing k2 a) as H3.
    { unfold k3. destruct (b <? al) eqn:El; bool_prop; [rewrite munmap_all; by replace (b + (al - b)) with al by lia|].
      rewrite (proj2 (in_range_false b al a)) by lia. done. }
    assert (backing (if al + size <? b + (size + HUGE_ALIGN) then munmap k3 (al + size) (b + (size + HUGE_ALIGN) - (al + size)) else k3) a =
      if in_range (al + size) (b + (size + HUGE_ALIGN)) a then Nothing else backing k3 a) as ->.
    { destruct (al + size <? b + (size + HUGE_ALIGN)) eqn:El; bool_prop;
        [rewrite munmap_all; by replace (al + size + (b + (size + HUGE_ALIGN) - (al + size))) with (b + (size + HUGE_ALIGN)) by lia|lia]. }
    rewrite H3, H2a, H1a. destruct (in_range b (b + (size + HUGE_ALIGN)) a) eqn:R.
    + rewrite (H1f eq_refl). apply in_range_spec in R.
      destruct (in_range (al + size) (b + (size + HUGE_ALIGN)) a) eqn:R1, (in_range b al a) eqn:R2, (in_range al (al + size) a) eqn:R3;
        rewrite ?in_range_spec, ?in_range_false in *; done || lia.
    + apply in_range_false in R. rewrite !(proj2 (in_range_false _ _ a)) by lia. done.
  - intros a. rewrite munmap_all. destruct (H1 a) as [H1a H1f]. destruct (in_range b (b + (size + HUGE_ALIGN)) a) eqn:R.
    + by rewrite H1f.
    + rewrite (fixed_fails _ _ _ _ _ _ _ a E2); [by rewrite H1a|]. apply in_range_false in R. apply in_range_false. lia.
Qed.

Lemma map_ram_spec k fd off size hugetlb k' b :
  0 < size -> size + HUGE_ALIGN < 2 ^ 62 -> map_ram k fd off size hugetlb = (k', Some b) -> mapped_at k k' b size fd off.
Proof.
  intros Hs Hs2. unfold map_ram. destruct hugetlb as [page|].
  - intros E. exact (hugetlb_ok k size fd off k' b Hs E).
  - intros E. pose proof (mmap_aligned_exact k fd off size (Z.lor MAP_SHARED MAP_NORESERVE) Hs Hs2) as H. by rewrite E in H.
Qed.

(** The host address behind a guest address. *)
Fixpoint host_of (mapped : list (Z * Z * Z)) (a : Z) : option Z :=
  match mapped with
  | [] => None
  | (start, size, host) :: mapped => if in_range start (start + size) a then Some (host + (a - start)) else host_of mapped a
  end.

(** The place in the file of a guest address, regions laid end to end. *)
Fixpoint offset_of (regions : list (Z * Z)) (off a : Z) : option Z :=
  match regions with
  | [] => None
  | (start, size) :: regions => if in_range start (start + size) a then Some (off + (a - start)) else offset_of regions (off + size) a
  end.

Definition total_size (regions : list (Z * Z)) : Z := foldr (fun r n => snd r + n) 0 regions.

Lemma map_regions_spec regions k fd off hugetlb k' mapped :
  Forall (fun r => 0 < snd r /\ snd r + HUGE_ALIGN < 2 ^ 62 /\ fst r mod HUGE_ALIGN = 0) regions ->
  0 <= off -> off + total_size regions < 2 ^ 64 ->
  map_regions k fd off hugetlb regions = (k', Some mapped) ->
  mapped.*1 = regions /\
  Forall (fun m => snd m mod HUGE_ALIGN = (fst (fst m)) mod HUGE_ALIGN) mapped /\
  (forall a x, offset_of regions off a = Some x -> exists h, host_of mapped a = Some h /\ backing k' h = FileByte fd x) /\
  (forall h, backing k' h = backing k h \/ backing k h = Nothing).
Proof.
  revert k off k' mapped. induction regions as [|[start size] regions IH]; intros k off k' mapped Hf Ho Ht; cbn [map_regions].
  { intros [= <- <-]. split_and!; [done|constructor|done|by left]. }
  apply Forall_cons in Hf as ((Hs1 & Hs2 & Hs3) & Hf). cbn [fst snd] in Hs1, Hs2, Hs3. cbn [total_size foldr snd] in Ht.
  change (foldr (fun r n => snd r + n) 0 regions) with (total_size regions) in Ht.
  assert (0 <= total_size regions) as Hn.
  { clear -Hf. induction Hf as [|[s n] l (H & _) _ IH]; simpl in *; unfold total_size in *; lia. }
  destruct (map_ram k fd off size hugetlb) as [k1 [host|]] eqn:E1; [|done].
  destruct (map_ram_spec _ _ _ _ _ _ _ Hs1 Hs2 E1) as [Hm Hb]. rewrite wrap_small by (unfold is_word; lia).
  destruct (map_regions k1 fd (off + size) hugetlb regions) as [k2 rest] eqn:E2. intros [= <- E].
  destruct rest as [rest|]; [|done]. injection E as <-.
  destruct (IH k1 (off + size) k2 rest Hf ltac:(lia) ltac:(lia) E2) as (I1 & I2 & I3 & I4). split_and!.
  - rewrite fmap_cons. cbn [fst]. by rewrite I1.
  - constructor; [cbn [fst snd]; congruence|done].
  - intros a x. cbn [offset_of host_of]. destruct (in_range start (start + size) a) eqn:R; [|apply I3].
    intros [= <-]. eexists. split; [done|]. apply in_range_spec in R. destruct (Hb (host + (a - start))) as [H1 H2].
    rewrite (proj2 (in_range_spec _ _ _)) in H1, H2 by lia. destruct (I4 (host + (a - start))) as [->|H4]; [|congruence].
    rewrite H1. f_equal. lia.
  - intros h. destruct (Hb h) as [H1 H2]. destruct (I4 h) as [->|H4].
    + rewrite H1. destruct (in_range host (host + size) h); [right; by apply H2|by left].
    + rewrite H4 in H1. destruct (in_range host (host + size) h); [done|]. by right.
Qed.

(** Where a RAM address lies in the file: the hole is closed up. *)
Definition file_offset (a : Z) : Z := if a <? MMIO_HOLE_START then a else a - (MMIO_HOLE_END - MMIO_HOLE_START).

Lemma ram_offsets mem_size a :
  0 < mem_size < 2 ^ 61 -> in_regions (ram_regions mem_size) a -> offset_of (ram_regions mem_size) 0 a = Some (file_offset a).
Proof.
  intros Hm Ha. apply in_ram_regions in Ha; [|lia]. unfold ram_regions, file_offset, MMIO_HOLE_START, MMIO_HOLE_END in *.
  destruct (mem_size <=? 0xC0000000) eqn:E; bool_prop; cbn [offset_of].
  - rewrite (proj2 (in_range_spec _ _ _)) by lia. rewrite (proj2 (Z.ltb_lt _ _)) by lia. f_equal. lia.
  - rewrite wrap_small by (unfold is_word; lia). destruct Ha as [Ha|Ha].
    + rewrite (proj2 (in_range_spec _ _ _)) by lia. rewrite (proj2 (Z.ltb_lt _ _)) by lia. f_equal. lia.
    + rewrite (proj2 (in_range_false _ _ _)) by lia. rewrite (proj2 (in_range_spec _ _ _)) by lia.
      rewrite (proj2 (Z.ltb_ge _ _)) by lia. f_equal. lia.
Qed.

(** C29: Guest RAM is the memory file, whole and once.  For every memory size,
    once the regions are mapped they are those of the layout, each at a host
    address that agrees with its guest address modulo 2 MiB (what KVM needs to map
    a huge page); every RAM address leads through its region to its own byte of
    the file, every byte of the file up to the memory size is behind exactly one
    RAM address, and no address of the process that was in use before is changed. *)
Theorem ram_is_the_file k fd mem_size hugetlb k' mapped :
  0 < mem_size < 2 ^ 61 -> map_regions k fd 0 hugetlb (ram_regions mem_size) = (k', Some mapped) ->
  mapped.*1 = ram_regions mem_size /\
  Forall (fun m => snd m mod HUGE_ALIGN = (fst (fst m)) mod HUGE_ALIGN) mapped /\
  (forall a, in_regions (ram_regions mem_size) a ->
     exists h, host_of mapped a = Some h /\ backing k' h = FileByte fd (file_offset a)) /\
  (forall x, 0 <= x < mem_size <-> exists a, in_regions (ram_regions mem_size) a /\ file_offset a = x) /\
  (forall a b, in_regions (ram_regions mem_size) a -> in_regions (ram_regions mem_size) b ->
     file_offset a = file_offset b -> a = b) /\
  (forall h, backing k h <> Nothing -> backing k' h = backing k h).
Proof.
  intros Hm E. assert (Forall (fun r => 0 < snd r /\ snd r + HUGE_ALIGN < 2 ^ 62 /\ fst r mod HUGE_ALIGN = 0) (ram_regions mem_size) /\
    total_size (ram_regions mem_size) = mem_size) as [Hf Ht].
  { unfold ram_regions. assert (HUGE_ALIGN = 2 ^ 21) as HA by done. unfold MMIO_HOLE_START, MMIO_HOLE_END.
    destruct (mem_size <=? 0xC0000000) eqn:El; bool_prop; rewrite ?(wrap_small 64 (mem_size - _)) by (unfold is_word; lia).
    - rewrite Forall_singleton. cbn [fst snd]. split; [split_and!; [lia|lia|done]|unfold total_size; simpl; lia].
    - rewrite !Forall_cons. cbn [fst snd]. split; [split_and!; try done; lia|unfold total_size; simpl; lia]. }
  destruct (map_regions_spec (ram_regions mem_size) k fd 0 hugetlb k' mapped Hf ltac:(lia) ltac:(lia) E) as (H1 & H2 & H3 & H4).
  split_and!; [done|done|..].
  - intros a Ha. apply H3. by apply ram_offsets.
  - intros x. split.
    + intros Hx. exists (if x <? MMIO_HOLE_START then x else x + (MMIO_HOLE_END - MMIO_HOLE_START)).
      rewrite in_ram_regions by lia. unfold file_offset, MMIO_HOLE_START, MMIO_HOLE_END. repeat case_match; bool_prop; lia.
    + intros (a & Ha & <-). apply in_ram_regions in Ha; [|lia]. unfold file_offset, MMIO_HOLE_START, MMIO_HOLE_END in *.
      case_match; bool_prop; lia.
  - intros a b Ha Hb. apply in_ram_regions in Ha, Hb; [|lia..]. unfold file_offset, MMIO_HOLE_START, MMIO_HOLE_END in *.
    repeat case_match; bool_prop; lia.
  - intros h Hh. destruct (H4 h) as [?|?]; [done|congruence].
Qed.

(** The blocks that are collapsed tile a region of whole huge pages; one that is
    not whole has its last block reach past its end. *)
Lemma blocks_cover size a : 0 <= a < size -> exists b, b ∈ blocks size /\ b <= a < b + HUGE_ALIGN.
Proof.
  intros Ha. assert (HUGE_ALIGN = 2 ^ 21) as HA by done. exists (a / HUGE_ALIGN * HUGE_ALIGN).
  pose proof (Z.div_mod a HUGE_ALIGN ltac:(lia)). pose proof (Z.mod_pos_bound a HUGE_ALIGN ltac:(lia)). split; [|lia].
  unfold blocks. apply list_elem_of_fmap. exists (a / HUGE_ALIGN). split; [done|]. apply elem_of_seqZ. split; [apply Z.div_pos; lia|].
  apply Z.div_lt_upper_bound; [lia|]. pose proof (Z.div_mod (size + HUGE_ALIGN - 1) HUGE_ALIGN ltac:(lia)).
  pose proof (Z.mod_pos_bound (size + HUGE_ALIGN - 1) HUGE_ALIGN ltac:(lia)). lia.
Qed.

Lemma blocks_inside size :
  0 < size -> (forall b, b ∈ blocks size -> b + HUGE_ALIGN <= size) <-> size mod HUGE_ALIGN = 0.
Proof.
  intros Hs. assert (HUGE_ALIGN = 2 ^ 21) as HA by done.
  pose proof (Z.div_mod size HUGE_ALIGN ltac:(lia)) as D. pose proof (Z.mod_pos_bound size HUGE_ALIGN ltac:(lia)) as Hb. split.
  - intros H. destruct (blocks_cover size (size - 1)) as (b & Hin & Hc); [lia|]. pose proof (H b Hin).
    unfold blocks in Hin. apply list_elem_of_fmap in Hin as (i & -> & _). assert (size = (i + 1) * HUGE_ALIGN) as -> by lia.
    apply Z.mod_mul. lia.
  - intros E b (i & -> & [Hi1 Hi2]%elem_of_seqZ)%list_elem_of_fmap. rewrite E in D.
    assert ((size + HUGE_ALIGN - 1) / HUGE_ALIGN = size / HUGE_ALIGN) as Eq.
    { symmetry. apply Z.div_unique with (r := HUGE_ALIGN - 1); lia. }
    rewrite Eq in Hi2. nia.
Qed.

End Facts.

(** * A concrete address space *)

(** Mappings, the last made first. *)
Abbreviation Space := (list (Z * Z * Backing)).

Definition shifted (b : Backing) (d : Z) : Backing :=
  match b with FileByte fd off => FileByte fd (off + d) | b => b end.

Fixpoint space_at (s : Space) (a : Z) : Backing :=
  match s with
  | [] => Nothing
  | (lo, hi, b) :: s => if in_range lo hi a then shifted b (a - lo) else space_at s a
  end.

Definition space_top (s : Space) : Z := foldr (fun e n => Z.max (snd (fst e)) n) 0x7f0000001000 s.

Lemma space_above s a : space_top s <= a -> space_at s a = Nothing.
Proof.
  induction s as [|[[lo hi] b] s IH]; simpl; [done|]. intros Ha. rewrite (proj2 (in_range_false lo hi a)) by lia. apply IH. lia.
Qed.

Lemma space_top_pos s : 0 < space_top s.
Proof. induction s as [|[[lo hi] b] s IH]; simpl; lia. Qed.

#[local] Instance plain_host : VmHost Space unit FlatRam := {
  kvm_new k := (k, true); create_vm k := (k, true); check_disable_exits _ := 6; enable_disable_exits k _ := (k, true);
  create_irq_chip k := (k, true); get_supported_cpuid _ := Some []; shmem_policies _ := (None, None);
  memfd_create k _ := (k, inr 3); ftruncate k _ _ := (k, true);
  mmap_reserve k n :=
    if space_top k + n <=? 2 ^ 47 then ((space_top k, space_top k + n, Reserved) :: k, Some (space_top k)) else (k, None);
  mmap_fixed k b n fd off _ := ((b, b + n, FileByte fd off) :: k, true);
  munmap k b n := (b, b + n, Nothing) :: k;
  mmap_hugetlb k _ _ _ := (k, None);
  madvise k _ _ _ := (k, 0);
  from_regions _ := Some (ram_zero 0x100000);
  set_memory_region k _ _ _ _ := (k, true);
  create_vcpu k _ := (k, Some tt); set_cpuid2 v _ := Some v; get_msr _ _ := Some 0; set_msr v _ _ := Some v
}.

#[local] Instance plain_host_laws : MmapLaws Space unit FlatRam.
Proof.
  apply (Build_MmapLaws Space unit FlatRam plain_host space_at); cbn [mmap_reserve mmap_fixed munmap mmap_hugetlb plain_host].
  - intros k n k' b Hn. case_match eqn:E; [|done]. intros [= <- <-]. bool_prop. split; [apply space_top_pos|]. split; [done|].
    intros a. cbn [space_at]. split; [by case_match|]. intros [Ha _]%in_range_spec. by apply space_above.
  - intros k n k' a. case_match; [done|]. by intros [= <-].
  - intros k b n fd off fl k' a [= <-]. done.
  - done.
  - intros k b n a. cbn [space_at]. by case_match.
  - done.
  - intros k n fd off k' a. by intros [= <-].
Qed.

Lemma ram_is_the_file_witness :
  exists k' mapped, map_regions ([] : Space) 3 0 None (ram_regions (4096 * 2 ^ 20)) = (k', Some mapped) /\
    (exists h, host_of mapped (2 ^ 32) = Some h /\ backing k' h = FileByte 3 0xC0000000).
Proof.
  destruct (map_regions ([] : Space) 3 0 None (ram_regions (4096 * 2 ^ 20))) as [k' [mapped|]] eqn:E.
  - exists k', mapped. split; [reflexivity|].
    apply (ram_is_the_file ([] : Space) 3 (4096 * 2 ^ 20) None k' mapped); [lia|exact E|].
    apply in_ram_regions; [lia|]. unfold MMIO_HOLE_START, MMIO_HOLE_END. lia.
  - exfalso. apply (f_equal snd) in E. vm_compute in E. discriminate.
Defined.

(** A vCPU keeps the table it is given. *)
Class VcpuView (K V M : Type) {HK : VmHost K V M} {HV : VcpuFd V} := {
  cpuid_of : V -> option CpuId;
  cpuid_set v c v' : set_cpuid2 v c = Some v' -> cpuid_of v' = Some c;
  cpuid_msr v m x v' : set_msr v m x = Some v' -> cpuid_of v' = cpuid_of v;
  cpuid_fpu v f v' : set_fpu v f = Some v' -> cpuid_of v' = cpuid_of v;
  cpuid_regs v r v' : set_regs v r = Some v' -> cpuid_of v' = cpuid_of v;
  cpuid_sregs v s v' : set_sregs v s = Some v' -> cpuid_of v' = cpuid_of v
}.

Section Built.
Context {K V M S : Type} {HK : VmHost K V M} {HV : VcpuFd V} {HM : GuestMemory M} {HL : LinuxLoader M}
  {HS : AcpiTables S} {HC : CpuidCapacity} {HW : VcpuView K V M}.

Lemma setup_sregs_cpuid mem (v : V) mem' v' : setup_sregs mem v = Some (mem', v') -> cpuid_of v' = cpuid_of v.
Proof.
  unfold setup_sregs. intros H. apply bind_Some in H as (s & _ & H). apply bind_Some in H as (m1 & _ & H).
  apply bind_Some in H as (m2 & _ & H). apply bind_Some in H as ([m3 s'] & _ & H). apply bind_Some in H as (v1 & E & H).
  injection H as <- <-. by eapply cpuid_sregs.
Qed.

Lemma start_vcpu_cpuid k mem machine entry i k' mem' v :
  start_vcpu k mem machine entry i = (k', Some (mem', v)) ->
  exists c, get_supported_cpuid k' = Some c /\ cpuid_of v = Some (vcpu_cpuid machine c i).
Proof.
  unfold start_vcpu. destruct (create_vcpu k i) as [k1 [v0|]]; [|done]. intros [= <- H].
  apply bind_Some in H as (c & Ec & H). apply bind_Some in H as (v1 & E1 & H). apply bind_Some in H as (v2 & E2 & H).
  exists c. split; [done|]. apply cpuid_set in E1. rewrite <- E1.
  assert (cpuid_of v2 = cpuid_of v1) as <-.
  { case_bool_decide; [|congruence]. unfold enable_fast_strings in E2. apply bind_Some in E2 as (d & _ & E2). by eapply cpuid_msr. }
  destruct (i =? 0); [|congruence]. apply bind_Some in H as (v3 & E3 & H). apply bind_Some in H as (v4 & E4 & H).
  apply setup_sregs_cpuid in H. unfold setup_regs in E4. apply cpuid_regs in E4. unfold setup_fpu in E3. apply cpuid_fpu in E3. congruence.
Qed.

Lemma start_vcpus_spec ids k mem machine entry k' mem' vs :
  start_vcpus k mem machine entry ids = (k', Some (mem', vs)) ->
  Forall2 (fun i v => exists k0 c, get_supported_cpuid k0 = Some c /\ cpuid_of v = Some (vcpu_cpuid machine c i)) ids vs.
Proof.
  revert k mem mem' vs. induction ids as [|i ids IH]; intros k mem mem' vs; cbn [start_vcpus]; [intros [= _ _ <-]; constructor|].
  destruct (start_vcpu k mem machine entry i) as [k1 [[m1 v]|]] eqn:E1; [|done].
  destruct (start_vcpus k1 m1 machine entry ids) as [k2 rest] eqn:E2. intros [= -> H].
  apply bind_Some in H as ([m2 vs'] & -> & [= <- <-]). constructor; [|by eapply IH].
  destruct (start_vcpu_cpuid _ _ _ _ _ _ _ _ E1) as (c & H1 & H2). eauto.
Qed.

(** The identity a table gives. *)
Lemma identity_told machine c i :
  0 <= i < vcpu_count machine -> vcpu_count machine <= 255 -> fits c patched_leaves ->
  get (vcpu_cpuid machine c i) 0xb 0 Edx = i.
Proof.
  intros Hi Hc Hf. unfold vcpu_cpuid. cbv zeta. set (p := patch_topology _ _ _ _ _).
  assert (get p 0xb 0 Edx = i) as Hp.
  { unfold p. rewrite patch_topology_eq. cbv zeta. etrans;
      [eapply patch_rest_base; [by apply patch_base_shows|by apply low_leaf_not_cache|done|done]|reflexivity]. }
  destruct (dedicated machine); [|done]. unfold advertise_dedicated. case_match; [done|]. cbn [fst].
  unfold set. destruct (set_found _ _ _ _ _) as [c'|] eqn:E; [by rewrite (get_set_found _ _ _ _ _ _ _ _ _ E)|].
  case_match; [|done]. rewrite get_snoc. case_match; [done|]. rewrite get_missing in Hp by done. rewrite <- Hp. reflexivity.
Qed.
Lemma map_regions_firsts regions k fd off hugetlb k' mapped :
  map_regions k fd off hugetlb regions = (k', Some mapped) -> mapped.*1 = regions.
Proof.
  revert k off k' mapped. induction regions as [|[start size] regions IH]; intros k off k' mapped; cbn [map_regions].
  { by intros [= _ <-]. }
  destruct (map_ram k fd off size hugetlb) as [k1 [host|]]; [|done].
  destruct (map_regions k1 fd (off ⊕ size) hugetlb regions) as [k2 rest] eqn:E2. intros [= _ E].
  apply fmap_Some in E as (rest' & -> & ->). rewrite fmap_cons. cbn [fst]. f_equal. by eapply IH.
Qed.

Lemma build_ram_regions k machine mem_size k' mem mapped :
  build_ram k machine mem_size = Some (k', mem, mapped) -> mapped.*1 = ram_regions mem_size.
Proof.
  unfold build_ram. cbv zeta. destruct (create_memfd k mem_size (hugetlb_size (hugepages machine))) as [k1 fd].
  intros H. apply bind_Some in H as (fd' & -> & H).
  destruct (map_regions k1 fd' 0 (hugetlb_size (hugepages machine)) (ram_regions mem_size)) as [k2 m] eqn:E.
  apply bind_Some in H as (m' & -> & H). apply bind_Some in H as (mem' & _ & H).
  destruct (set_slots _ _ _ _ _) as [k3 []]; [|done]. injection H as _ _ <-. by eapply map_regions_firsts.
Qed.

Lemma ram_below_window w mem_size a :
  0 <= mem_size < 2 ^ 62 -> Window64.fits_above w (ram_top mem_size) = true ->
  in_regions (ram_regions mem_size) a -> a < Window64.start w.
Proof.
  intros Hm Hf Ha. unfold Window64.fits_above in Hf. apply Z.leb_le in Hf. apply in_ram_regions in Ha; [|lia].
  assert (a < ram_top mem_size); [|lia]. clear Hf. unfold ram_top, ram_regions, MMIO_HOLE_START, MMIO_HOLE_END in *.
  destruct (mem_size <=? 3221225472) eqn:E; bool_prop; simpl.
  - rewrite wrap_small by (unfold is_word; lia). lia.
  - rewrite !wrap_small by (rewrite ?wrap_small; unfold is_word; lia). lia.
Qed.

(** C8: The machine that is built is the one that was asked for.  When [Vm::new]
    succeeds for a guest of at most 255 vCPUs and less than 2^41 MiB: RAM is
    exactly the regions of the layout and none of it reaches the 64-bit window,
    the slots it took are counted, there are as many vCPUs as configured, and each
    was given the host's table patched with its own number, which its extended
    topology leaf shows wherever the host's table has room for the leaf. *)
Theorem vm_as_configured k machine kernel cmdline vm :
  0 <= vcpu_count machine <= 255 -> 0 <= mem_size_mib machine < 2 ^ 41 ->
  Vm_new k machine kernel cmdline = Some vm ->
  let mem_size := mem_size_mib machine * 2 ^ 20 in
  (v_ram vm).*1 = ram_regions mem_size /\ ram_slot_count vm = Z.of_nat (length (ram_regions mem_size)) /\
  (forall a, in_regions (ram_regions mem_size) a -> a < Window64.start (v_mmio64 vm)) /\
  Z.of_nat (length (v_vcpus vm)) = vcpu_count machine /\
  (forall (i : nat) v, v_vcpus vm !! i = Some v ->
     exists k0 c, get_supported_cpuid k0 = Some c /\ cpuid_of v = Some (vcpu_cpuid machine c (Z.of_nat i)) /\
       (fits c patched_leaves -> get (vcpu_cpuid machine c (Z.of_nat i)) 0xb 0 Edx = Z.of_nat i)).
Proof.
  intros Hc Hm. unfold Vm_new. destruct (kvm_new k) as [k1 []]; [|done]. simpl negb. cbv iota.
  destruct (create_vm k1) as [k2 []]; [|done]. simpl negb. cbv iota.
  destruct (create_irq_chip _) as [k3 []]; [|done]. simpl negb. cbv iota.
  assert (mem_size_mib machine ⊗ 1024 ⊗ 1024 = mem_size_mib machine * 2 ^ 20) as ->
    by (rewrite (wrap_small 64 (_ * 1024)), wrap_small by (rewrite ?wrap_small; unfold is_word; lia); lia).
  set (mem_size := mem_size_mib machine * 2 ^ 20). intros H. apply bind_Some in H as (bits & _ & H).
  destruct (Window64.fits_above _ _) eqn:Ef; [|done]. simpl negb in H. cbv iota in H.
  apply bind_Some in H as ([[k4 mem] mapped] & Er & H). apply build_ram_regions in Er.
  destruct (boot_guest k4 mem machine mem_size _ kernel cmdline) as [k5 booted] eqn:Eb.
  apply bind_Some in H as ([mem' vs] & -> & H). injection H as <-. cbn [v_ram v_mmio64 v_vcpus ram_slot_count].
  unfold boot_guest in Eb. destruct (_ ≫= _) as [[mem1 entry]|]; [|done]. apply start_vcpus_spec in Eb.
  split; [done|]. split.
  { apply wrap_small. unfold ram_regions. case_match; unfold is_word; simpl; lia. }
  split.
  { intros a. apply ram_below_window; [unfold mem_size; lia|done]. }
  split.
  { apply Forall2_length in Eb. rewrite <- Eb, length_seqZ. lia. }
  intros i v Hi. destruct (Forall2_lookup_r _ _ _ _ _ Eb Hi) as (j & Hj & k0 & c & H1 & H2).
  apply lookup_seqZ in Hj as [-> Hj]. exists k0, c. split; [done|]. split; [done|]. intros Hfit. apply identity_told; [lia..|done].
Qed.

End Built.

(** * A host on which a machine is built *)

Abbreviation PlainVcpu := (option CpuId).

#[local] Instance vcpu_host : VmHost Space PlainVcpu FlatRam := {
  kvm_new k := (k, true); create_vm k := (k, true); check_disable_exits _ := 6; enable_disable_exits k _ := (k, true);
  create_irq_chip k := (k, true); get_supported_cpuid _ := Some host_like_cpuid; shmem_policies _ := (None, None);
  memfd_create k _ := (k, inr 3); ftruncate k _ _ := (k, true);
  mmap_reserve := mmap_reserve (VmHost := plain_host); mmap_fixed := mmap_fixed (VmHost := plain_host);
  munmap := munmap (VmHost := plain_host); mmap_hugetlb k _ _ _ := (k, None);
  madvise k _ _ _ := (k, 0);
  from_regions _ := Some (ram_zero 0x100000);
  set_memory_region k _ _ _ _ := (k, true);
  create_vcpu k _ := (k, Some None); set_cpuid2 _ c := Some (Some c); get_msr _ _ := Some 0; set_msr v _ _ := Some v
}.

#[local] Instance vcpu_fd : VcpuFd PlainVcpu :=
  {| get_sregs := fun _ => Some BootFacts.reset_sregs; set_sregs := fun v _ => Some v; set_regs := fun v _ => Some v;
     set_fpu := fun v _ => Some v |}.

#[local] Instance vcpu_view : VcpuView Space PlainVcpu FlatRam.
Proof. by apply (Build_VcpuView _ _ _ _ _ id); cbn; intros; simplify_eq. Defined.

#[local] Instance plain_loader : LinuxLoader FlatRam := {
  boot_params_bytes _ := replicate 4096 0;
  cmdline_of n l := if (length l <? n)%nat then Some l else None;
  load_cmdline m a l := Some (ram_write m a (l ++ [0])).1;
  elf_load m _ := Some (m, 0x1000000)
}.

Definition small_machine : MachineConfig :=
  {| vcpu_count := 3; mem_size_mib := 1; cpu_affinity := []; vcpu_pins := []; threads_per_core := 1; io_affinity := [];
     dedicated := false; vcpu_cgroup_fd := None; io_cgroup_fd := None; hugepages := Transparent; prefault := false |}.

Abbreviation small_vm :=
  (@Vm_new Space PlainVcpu FlatRam PlainSdt vcpu_host vcpu_fd FlatRam_mem plain_loader plain_acpi kvm_capacity
     [] small_machine (Some []) []).

Definition built (o : option (Vm Space PlainVcpu FlatRam)) : bool := match o with Some _ => true | None => false end.

Lemma small_vm_built : built small_vm = true.
Proof. vm_cast_no_check (eq_refl true). Qed.

Lemma built_some o : built o = true -> exists vm, o = Some vm.
Proof. destruct o as [vm|]; [by exists vm|done]. Qed.

Lemma vm_as_configured_witness :
  exists vm, small_vm = Some vm /\ Z.of_nat (length (v_vcpus vm)) = 3.
Proof.
  destruct (built_some small_vm small_vm_built) as [vm E]. exists vm. split; [exact E|].
  assert (0 <= vcpu_count small_machine <= 255) as H1 by (simpl; lia).
  assert (0 <= mem_size_mib small_machine < 2 ^ 41) as H2 by (simpl; lia).
  exact (proj1 (proj2 (proj2 (proj2 (@vm_as_configured Space PlainVcpu FlatRam PlainSdt vcpu_host vcpu_fd FlatRam_mem plain_loader
    plain_acpi kvm_capacity vcpu_view [] small_machine (Some []) [] vm H1 H2 E))))).
Defined.
