(* ===== verification/HostCalls.v ===== *)
(** What the VMM asks of the host outside its devices: files, namespaces, the
    placement of threads, child processes, sockets.

    The host is the class [HostSys], one function over every call; a run is a
    state monad over it whose log keeps each call with its answer, and [None] is an
    error that ends the run.  [finally] is a destructor: it runs whether or not
    what came before failed.  Error texts and log lines are left out. *)

From stdpp Require Import gmap.
From S2P Require Import Prelude Shared.

(** [cpu_set_t]: the CPUs in it. *)
Abbreviation CpuSet := (gset Z).

(** [struct sched_attr]. *)
Record SchedAttr := {
  sa_size : Z; sa_policy : Z; sa_flags : Z; sa_nice : Z; sa_priority : Z;
  sa_runtime : Z; sa_deadline : Z; sa_period : Z; sa_util_min : Z; sa_util_max : Z
}.

Inductive HCall :=
  | ReadText (path : Text)
  | ReadLink (path : Text)
  | WriteText (path text : Text)
  | Exists (path : Text)
  | IsDir (path : Text)
  | IsExecutable (path : Text)
  | OwnerOf (path : Text)
  | CreateDirs (path : Text)
  | RemoveFile (path : Text)
  | RemoveDir (path : Text)
  | Chmod (path : Text) (mode : Z)
  | GetEnv (name : Text)
  | SetEnv (name value : Text)
  | Geteuid
  | Getegid
  | Getpid
  | Unshare (flags : Z)
  | GetAffinity
  | SetAffinity (set : CpuSet)
  | SetAffinityOf (tid : Z) (set : CpuSet)
  | WriteFd (fd : Z) (text : Text)
  | SetNice (n : Z)
  | GetSchedAttr
  | SetSchedAttr (attr : SchedAttr)
  | Tasks
  | TaskName (tid : Text)
  | SpawnProcess (program : Text) (args : list Text)
  | TryWait (child : Z)
  | Kill (child : Z)
  | Wait (child : Z)
  | Sleep (ms : Z)
  | SpawnThread (name : Text)
  | Connect (path : Text)
  | Bind (path : Text)
  | IsATty
  | GetTerminal
  | SetTerminal (raw : bool)
  | SetHandler (signal : Z)
  | OpenKvm
  | OpenDisk (path : Text)
  | OpenTun
  | TunSetIff (req : list Z)
  | TunIoctl (request value : Z)
  | OpenVhostNet
  | OpenVhostVsock
  | ConnectBackend (path : Text)
  | ConnectDaemon (path : Text)
  | Attach (vectors slot : Z)
  | OpenWindow
  | OpenRenderNode (path : Text)
  | Confine (mode : Z)
  | SpawnVcpu (index : Z) (cgroup : option Z) (placement : option CpuSet)
  | SpawnWatcher
  | JoinVcpus.

(** [HErr] is any error. *)
Inductive HReply :=
  | HErr
  | HOk
  | HBool (b : bool)
  | HNum (n : Z)
  | HPair (a b : Z)
  | HText (t : Text)
  | HNames (l : list Text)
  | HCpus (s : CpuSet)
  | HAttr (a : SchedAttr).

Class HostSys (W : Type) := { hsys : W -> HCall -> W * HReply }.

Abbreviation HLog := (list (HCall * HReply)).

Section Run.
Context {W : Type} {HW : HostSys W}.

Definition HostM (A : Type) : Type := W * HLog -> (W * HLog) * option A.

#[export] Instance HostM_ret : MRet HostM := fun A x s => (s, Some x).
#[export] Instance HostM_bind : MBind HostM := fun A B f m s =>
  match m s with
  | (s, Some x) => f x s
  | (s, None) => (s, None)
  end.

Definition ask (c : HCall) : HostM HReply := fun '(w, lg) =>
  let '(w, r) := hsys w c in ((w, lg ++ [(c, r)]), Some r).

Definition fail {A} : HostM A := fun s => (s, None).
Definition check (b : bool) : HostM () := if b then mret tt else fail.
Definition need {A} (o : option A) : HostM A := match o with Some x => mret x | None => fail end.

(** A call that must succeed. *)
Definition must (c : HCall) : HostM () := r ← ask c; match r with HOk => mret tt | _ => fail end.
(** A call whose failure is only logged: whether it succeeded. *)
Definition attempt (c : HCall) : HostM bool := r ← ask c; mret match r with HOk => true | _ => false end.

Definition ask_bool (c : HCall) : HostM bool := r ← ask c; mret match r with HBool b => b | _ => false end.
Definition ask_num (c : HCall) : HostM Z := r ← ask c; match r with HNum n => mret n | _ => fail end.
Definition ask_text (c : HCall) : HostM (option Text) := r ← ask c; mret match r with HText t => Some t | _ => None end.

(** An error caught: the run goes on, and is told. *)
Definition catch {A} (m : HostM A) : HostM (option A) := fun s => let '(s, r) := m s in (s, Some r).

(** [m], and [d] when it failed. *)
Definition on_error {A} (m : HostM A) (d : HostM ()) : HostM A := fun s =>
  match m s with
  | (s, Some x) => (s, Some x)
  | (s, None) => let (s, _) := d s in (s, None)
  end.

(** [m], then [d] whatever came of [m]. *)
Definition finally {A} (m : HostM A) (d : HostM ()) : HostM A := fun s =>
  let '(s, r) := m s in let '(s, _) := d s in (s, r).

Fixpoint each {A} (f : A -> HostM ()) (l : list A) : HostM () :=
  match l with
  | [] => mret tt
  | x :: l => f x ;; each f l
  end.

(** [Option::map] of an effect. *)
Definition when {A} (o : option A) (f : A -> HostM ()) : HostM () := match o with Some x => f x | None => mret tt end.

(** * Runs and their logs *)

(** [m] only adds to the log, and what it adds, with its result, is as [Q] says. *)
Definition logs {A} (m : HostM A) (Q : HLog -> option A -> Prop) : Prop :=
  forall w lg, exists w' l r, m (w, lg) = ((w', lg ++ l), r) /\ Q l r.

Lemma logs_weaken {A} (m : HostM A) (Q Q' : HLog -> option A -> Prop) :
  logs m Q -> (forall l r, Q l r -> Q' l r) -> logs m Q'.
Proof. intros Hm Hi w lg. destruct (Hm w lg) as (w' & l & r & E & HQ). eauto 6. Qed.

Lemma logs_and {A} (m : HostM A) (Q Q' : HLog -> option A -> Prop) :
  logs m Q -> logs m Q' -> logs m (fun l r => Q l r /\ Q' l r).
Proof.
  intros H1 H2 w lg. destruct (H1 w lg) as (w1 & l1 & r1 & E1 & HQ1), (H2 w lg) as (w2 & l2 & r2 & E2 & HQ2).
  rewrite E1 in E2. injection E2 as <- E2 <-. apply app_inv_head in E2 as <-. eauto 8.
Qed.

Lemma logs_ret {A} (x : A) (Q : HLog -> option A -> Prop) : Q [] (Some x) -> logs (mret x) Q.
Proof. intros HQ w lg. exists w, [], (Some x). by rewrite app_nil_r. Qed.

Lemma logs_fail {A} (Q : HLog -> option A -> Prop) : Q [] None -> logs fail Q.
Proof. intros HQ w lg. exists w, [], None. by rewrite app_nil_r. Qed.

Lemma logs_ask c (Q : HLog -> option HReply -> Prop) : (forall r, Q [(c, r)] (Some r)) -> logs (ask c) Q.
Proof. intros HQ w lg. unfold ask. destruct (hsys w c) as [w' r]. exists w', [(c, r)], (Some r). eauto. Qed.

(** What comes after a step is judged with the step's log before it. *)
Lemma logs_bind {A B} (m : HostM A) (f : A -> HostM B) (Q : HLog -> option B -> Prop) :
  logs m (fun l r => match r with
                     | Some a => logs (f a) (fun l' r' => Q (l ++ l') r')
                     | None => Q l None
                     end) ->
  logs (m ≫= f) Q.
Proof.
  intros Hm w lg. destruct (Hm w lg) as (w1 & l1 & r1 & E & HQ). unfold mbind, HostM_bind. rewrite E.
  destruct r1 as [a|]; [|by eauto 6].
  destruct (HQ w1 (lg ++ l1)) as (w2 & l2 & r2 & E2 & HQ2). exists w2, (l1 ++ l2), r2. by rewrite E2, app_assoc.
Qed.

Lemma logs_catch {A} (m : HostM A) (Q : HLog -> option (option A) -> Prop) :
  logs m (fun l r => Q l (Some r)) -> logs (catch m) Q.
Proof. intros Hm w lg. destruct (Hm w lg) as (w1 & l1 & r1 & E & HQ). unfold catch. rewrite E. eauto 6. Qed.

Lemma logs_finally {A} (m : HostM A) (d : HostM ()) (Q : HLog -> option A -> Prop) :
  logs m (fun l r => logs d (fun l' _ => Q (l ++ l') r)) -> logs (finally m d) Q.
Proof.
  intros Hm w lg. destruct (Hm w lg) as (w1 & l1 & r1 & E & HQ). unfold finally. rewrite E.
  destruct (HQ w1 (lg ++ l1)) as (w2 & l2 & r2 & E2 & HQ2). rewrite E2. exists w2, (l1 ++ l2), r1. by rewrite app_assoc.
Qed.

Lemma logs_on_error {A} (m : HostM A) (d : HostM ()) (Q : HLog -> option A -> Prop) :
  logs m (fun l r => match r with
                     | Some _ => Q l r
                     | None => logs d (fun l' _ => Q (l ++ l') None)
                     end) -> logs (on_error m d) Q.
Proof.
  intros Hm w lg. destruct (Hm w lg) as (w1 & l1 & r1 & E & HQ). unfold on_error. rewrite E. destruct r1 as [a|]; [by eauto 6|].
  destruct (HQ w1 (lg ++ l1)) as (w2 & l2 & r2 & E2 & HQ2). rewrite E2. exists w2, (l1 ++ l2), None. by rewrite app_assoc.
Qed.

(** Only calls that satisfy [P]. *)
Definition calls (P : HCall -> Prop) (l : HLog) : Prop := Forall (fun e => P (fst e)) l.

Definition only {A} (P : HCall -> Prop) (m : HostM A) : Prop := logs m (fun l _ => calls P l).

Lemma only_ret {A} P (x : A) : only P (mret x).
Proof. apply logs_ret. constructor. Qed.

Lemma only_fail {A} P : only (A := A) P fail.
Proof. apply logs_fail. constructor. Qed.

Lemma only_ask P c : P c -> only P (ask c).
Proof. intros. apply logs_ask. intros r. by repeat constructor. Qed.

Lemma only_bind {A B} P (m : HostM A) (f : A -> HostM B) : only P m -> (forall a, only P (f a)) -> only P (m ≫= f).
Proof.
  intros Hm Hf. apply logs_bind. eapply logs_weaken; [exact Hm|]. intros l [a|] Hl; [|done].
  eapply logs_weaken; [apply Hf|]. intros l' r' Hl'. by apply Forall_app.
Qed.

Lemma only_finally {A} P (m : HostM A) (d : HostM ()) : only P m -> only P d -> only P (finally m d).
Proof.
  intros Hm Hd. apply logs_finally. eapply logs_weaken; [exact Hm|]. intros l r Hl.
  eapply logs_weaken; [exact Hd|]. intros l' r' Hl'. by apply Forall_app.
Qed.

Lemma only_on_error {A} P (m : HostM A) (d : HostM ()) : only P m -> only P d -> only P (on_error m d).
Proof.
  intros Hm Hd. apply logs_on_error. eapply logs_weaken; [exact Hm|]. intros l [a|] Hl; [done|].
  eapply logs_weaken; [exact Hd|]. intros l' r' Hl'. by apply Forall_app.
Qed.

Lemma only_catch {A} P (m : HostM A) : only P m -> only P (catch m).
Proof. intros Hm. by apply logs_catch. Qed.

Lemma only_check P b : only P (check b).
Proof. destruct b; [apply only_ret|apply only_fail]. Qed.

Lemma only_need {A} P (o : option A) : only P (need o).
Proof. destruct o; [apply only_ret|apply only_fail]. Qed.

Lemma only_must P c : P c -> only P (must c).
Proof. intros. apply only_bind; [by apply only_ask|]. intros []; (apply only_ret || apply only_fail). Qed.

Lemma only_attempt P c : P c -> only P (attempt c).
Proof. intros. apply only_bind; [by apply only_ask|]. intros. apply only_ret. Qed.

Lemma only_ask_bool P c : P c -> only P (ask_bool c).
Proof. intros. apply only_bind; [by apply only_ask|]. intros. apply only_ret. Qed.

Lemma only_ask_num P c : P c -> only P (ask_num c).
Proof. intros. apply only_bind; [by apply only_ask|]. intros []; (apply only_ret || apply only_fail). Qed.

Lemma only_ask_text P c : P c -> only P (ask_text c).
Proof. intros. apply only_bind; [by apply only_ask|]. intros. apply only_ret. Qed.

Lemma only_each {A} P (f : A -> HostM ()) l : (forall x, only P (f x)) -> only P (each f l).
Proof. intros Hf. induction l as [|x l IH]; cbn [each]; [apply only_ret|]. by apply only_bind. Qed.

Lemma only_when {A} P (o : option A) f : (forall x, only P (f x)) -> only P (when o f).
Proof. intros Hf. destruct o; [apply Hf|apply only_ret]. Qed.

Lemma only_weaken {A} (P P' : HCall -> Prop) (m : HostM A) : (forall c, P c -> P' c) -> only P m -> only P' m.
Proof. intros Hi Hm. eapply logs_weaken; [exact Hm|]. intros l r Hl. eapply Forall_impl; [exact Hl|]. intros e. apply Hi. Qed.

(** * Runs that succeed *)

(** [m] started in [w] ends without an error, as [Q] says. *)
Definition runs {A} (m : HostM A) (w : W) (Q : W -> A -> Prop) : Prop :=
  forall lg, exists w' lg' a, m (w, lg) = ((w', lg'), Some a) /\ Q w' a.

Lemma runs_ret {A} (x : A) w (Q : W -> A -> Prop) : Q w x -> runs (mret x) w Q.
Proof. intros HQ lg. by exists w, lg, x. Qed.

Lemma runs_bind {A B} (m : HostM A) (f : A -> HostM B) w Q :
  runs m w (fun w' a => runs (f a) w' Q) -> runs (m ≫= f) w Q.
Proof.
  intros Hm lg. destruct (Hm lg) as (w' & lg' & a & E & Hf). destruct (Hf lg') as (w'' & lg'' & b & E' & HQ).
  exists w'', lg'', b. split; [|done]. unfold mbind, HostM_bind. by rewrite E.
Qed.

Lemma runs_weaken {A} (m : HostM A) w (Q Q' : W -> A -> Prop) :
  runs m w Q -> (forall w' a, Q w' a -> Q' w' a) -> runs m w Q'.
Proof. intros Hm Hi lg. destruct (Hm lg) as (w' & lg' & a & E & HQ). eauto 6. Qed.

Lemma runs_ask c w w' r (Q : W -> HReply -> Prop) : hsys w c = (w', r) -> Q w' r -> runs (ask c) w Q.
Proof. intros E HQ lg. unfold ask. rewrite E. by exists w', (lg ++ [(c, r)]), r. Qed.

Lemma runs_attempt c w w' r (Q : W -> bool -> Prop) :
  hsys w c = (w', r) -> Q w' match r with HOk => true | _ => false end -> runs (attempt c) w Q.
Proof. intros E HQ. apply runs_bind. eapply runs_ask; [done|]. by apply runs_ret. Qed.

End Run.

(** The calls of whole components. *)
Create HintDb only.

(** Walks a program down to its calls, each to be shown allowed. *)
Ltac walk_only :=
  repeat match goal with
  | |- only _ (mret _) => apply only_ret
  | |- only _ fail => apply only_fail
  | |- only _ (check _) => apply only_check
  | |- only _ (need _) => apply only_need
  | |- only _ (finally _ _) => apply only_finally
  | |- only _ (on_error _ _) => apply only_on_error
  | |- only _ (catch _) => apply only_catch
  | |- only _ (each _ _) => apply only_each; intros
  | |- only _ (when _ _) => apply only_when; intros
  | |- only _ (must _) => apply only_must
  | |- only _ (attempt _) => apply only_attempt
  | |- only _ (ask_bool _) => apply only_ask_bool
  | |- only _ (ask_num _) => apply only_ask_num
  | |- only _ (ask_text _) => apply only_ask_text
  | |- only _ (ask _) => apply only_ask
  | |- only _ (mbind _ _) => apply only_bind; intros
  | |- only _ (match ?x with _ => _ end) => destruct x
  end.
