(* ===== verification/Isolation.v ===== *)
(** What confines the process, [vmm/src/isolation.rs]: the report of the limits in
    force, and the namespaces the process can enter by itself.

    The report only reads: [ProcFs] is the text of the files under /proc and /sys
    while it does, and [gather_reads] is the same report as [main] makes it, a call of
    the host for each file.  Of what it says, each line that depends on something is
    a [Notice]; their texts are left out. *)

From stdpp Require Import strings gmap.
From S2P Require Import Prelude Shared HostCalls.

(** * Reading *)

Class ProcFs := {
  read_to_string : Text -> option Text;
  read_link : Text -> option Text;
  geteuid : Z;
  getegid : Z
}.

Inductive Limit := LimitSet (v : Text) | Unlimited | Absent.

#[export] Instance Limit_eq_dec : EqDecision Limit.
Proof. solve_decision. Defined.

Definition is_set (l : Limit) : bool := match l with LimitSet _ => true | _ => false end.

(** [str::rfind] of a character. *)
Fixpoint rfind (c : Z) (l : Text) : option nat :=
  match l with
  | [] => None
  | x :: l =>
      match rfind c l with
      | Some i => Some (S i)
      | None => if x =? c then Some O else None
      end
  end.

(** [str::find] of a character. *)
Fixpoint find_char (c : Z) (l : Text) : option nat :=
  match l with
  | [] => None
  | x :: l => if x =? c then Some O else S <$> find_char c l
  end.

(** Each turn of the loop is at a shorter path; [ancestors] has a turn per
    character and one more. *)
Fixpoint ancestors_from (fuel : nat) (cur : Text) : list Text :=
  match fuel with
  | O => []
  | S fuel =>
      cur :: match rfind SLASH cur with
             | Some O => match cur with [] => [] | _ => [[]] end
             | Some i => ancestors_from fuel (take i cur)
             | None => []
             end
  end.

Definition ancestors (cgroup : Text) : list Text :=
  let cur := trim_end_char SLASH cgroup in ancestors_from (S (length cur)) cur.

(** What the text of a limit's file says. *)
Definition limit_of (text : option Text) : Limit :=
  match text with
  | Some s =>
      let s := trim s in
      match words s with
      | [] => Unlimited
      | w :: _ => if bool_decide (w = ascii_bytes "max") then Unlimited else LimitSet s
      end
  | None => Absent
  end.

(** "0::" and the path; [lines] as [str::lines]. *)
Definition cgroup_of (raw : option Text) : option Text :=
  raw ← raw;
  p ← find_map (strip_prefix (ascii_bytes "0::")) (lines raw);
  Some (trim p).

(** "net:[4026531840]"; [text.get(start..end)] is nothing when the end is first. *)
Definition inode_of (link : option Text) : option Z :=
  text ← link;
  i ← find_char 91 text;
  let start := S i in
  end_ ← find_char 93 text;
  if (start <=? end_)%nat then parse_uint 64 (take (end_ - start) (drop start text)) else None.

Definition owner_name (path : Text) : Text := match path with [] => [SLASH] | _ => path end.

Section Report.
Context {FS : ProcFs}.

Definition Limit_read (cgroup_dir file : Text) : Limit := limit_of (read_to_string (cgroup_dir ++ SLASH :: file)).

Definition CGROUP_ROOT : Text := ascii_bytes "/sys/fs/cgroup".

Fixpoint effective_in (seen : Limit) (paths : list Text) (file : Text) : Limit * option Text :=
  match paths with
  | [] => (seen, None)
  | path :: paths =>
      let found := Limit_read (CGROUP_ROOT ++ path) file in
      if is_set found then (found, Some (owner_name path))
      else effective_in (if bool_decide (found = Unlimited) then Unlimited else seen) paths file
  end.

Definition effective (cgroup file : Text) : Limit * option Text := effective_in Absent (ancestors cgroup) file.

Definition cgroup_path : option Text := cgroup_of (read_to_string (ascii_bytes "/proc/self/cgroup")).

Definition ns_inode (path : Text) : option Z := inode_of (read_link path).

Record Report := {
  r_uid : Z;
  r_gid : Z;
  r_cgroup : option Text;
  memory_max : Limit;
  memory_bound_by : option Text;
  cpu_max : Limit;
  cpu_bound_by : option Text;
  io_max : Limit;
  pids_max : Limit;
  net_ns : option Z;
  net_ns_is_own : option bool
}.

Definition look (cgroup : option Text) (file : string) : Limit * option Text :=
  match cgroup with
  | Some c => effective c (ascii_bytes file)
  | None => (Absent, None)
  end.

Definition gather : Report :=
  let cgroup := cgroup_path in
  let own := ns_inode (ascii_bytes "/proc/self/ns/net") in
  {| r_uid := geteuid; r_gid := getegid; r_cgroup := cgroup;
     memory_max := (look cgroup "memory.max").1; memory_bound_by := (look cgroup "memory.max").2;
     cpu_max := (look cgroup "cpu.max").1; cpu_bound_by := (look cgroup "cpu.max").2;
     io_max := (look cgroup "io.max").1; pids_max := (look cgroup "pids.max").1;
     net_ns := own;
     net_ns_is_own := (fun init => bool_decide (Some init <> own)) <$> ns_inode (ascii_bytes "/proc/1/ns/net") |}.

End Report.

Inductive Notice :=
  | RunningAsRoot
  | MemoryBounded (v by_ : Text)
  | MemoryUnbounded
  | CpuBounded (v by_ : Text)
  | CpuUnbounded
  | OwnNetwork
  | SharedNetwork
  | NetworkUnknown.

Definition root_line (r : Report) : list Notice := if r_uid r =? 0 then [RunningAsRoot] else [].

Definition memory_line (r : Report) : Notice :=
  match memory_max r, memory_bound_by r with
  | LimitSet v, Some w => MemoryBounded v w
  | _, _ => MemoryUnbounded
  end.

Definition cpu_line (r : Report) : Notice :=
  match cpu_max r, cpu_bound_by r with
  | LimitSet v, Some w => CpuBounded v w
  | _, _ => CpuUnbounded
  end.

Definition network_line (r : Report) : Notice :=
  match net_ns_is_own r with
  | Some true => OwnNetwork
  | Some false => SharedNetwork
  | None => NetworkUnknown
  end.

(** [Report::log], below its first line. *)
Definition report_log (r : Report) : list Notice := root_line r ++ [memory_line r; cpu_line r; network_line r].

(** * Entering namespaces *)

Definition CLONE_NEWUSER : Z := 0x10000000.
Definition CLONE_NEWNET : Z := 0x40000000.

(** From the text of /proc/self/status. *)
Definition thread_count (status : option Text) : option Z :=
  status ← status;
  l ← find_map (strip_prefix (ascii_bytes "Threads:")) (lines status);
  parse_uint 64 (trim l).

Section Namespaces.
Context {W : Type} {HW : HostSys W}.

Fixpoint effective_reads (seen : Limit) (paths : list Text) (file : Text) : HostM (W := W) (Limit * option Text) :=
  match paths with
  | [] => mret (seen, None)
  | path :: paths =>
      text ← ask_text (ReadText (CGROUP_ROOT ++ path ++ SLASH :: file));
      let found := limit_of text in
      if is_set found then mret (found, Some (owner_name path))
      else effective_reads (if bool_decide (found = Unlimited) then Unlimited else seen) paths file
  end.

Definition look_reads (cgroup : option Text) (file : string) : HostM (W := W) (Limit * option Text) :=
  match cgroup with
  | Some c => effective_reads Absent (ancestors c) (ascii_bytes file)
  | None => mret (Absent, None)
  end.

(** [Report::gather]. *)
Definition gather_reads : HostM (W := W) Report :=
  uid ← ask_num Geteuid;
  gid ← ask_num Getegid;
  raw ← ask_text (ReadText (ascii_bytes "/proc/self/cgroup"));
  let cgroup := cgroup_of raw in
  memory ← look_reads cgroup "memory.max";
  cpu ← look_reads cgroup "cpu.max";
  io ← look_reads cgroup "io.max";
  pids ← look_reads cgroup "pids.max";
  own ← ask_text (ReadLink (ascii_bytes "/proc/self/ns/net"));
  init ← ask_text (ReadLink (ascii_bytes "/proc/1/ns/net"));
  mret {| r_uid := uid; r_gid := gid; r_cgroup := cgroup; memory_max := memory.1; memory_bound_by := memory.2;
          cpu_max := cpu.1; cpu_bound_by := cpu.2; io_max := io.1; pids_max := pids.1; net_ns := inode_of own;
          net_ns_is_own := (fun i => bool_decide (Some i <> inode_of own)) <$> inode_of init |}.

Definition id_map (n : Z) : Text := show n ++ ascii_bytes " " ++ show n ++ ascii_bytes " 1".

Definition enter_user_namespace : HostM (W := W) () :=
  status ← ask_text (ReadText (ascii_bytes "/proc/self/status"));
  check (bool_decide (thread_count status = Some 1) || bool_decide (thread_count status = None)) ;;
  uid ← ask_num Geteuid;
  gid ← ask_num Getegid;
  must (Unshare CLONE_NEWUSER) ;;
  must (WriteText (ascii_bytes "/proc/self/setgroups") (ascii_bytes "deny")) ;;
  must (WriteText (ascii_bytes "/proc/self/uid_map") (id_map uid)) ;;
  must (WriteText (ascii_bytes "/proc/self/gid_map") (id_map gid)).

Definition enter_network_namespace : HostM (W := W) () := must (Unshare CLONE_NEWNET).

End Namespaces.

(** ** The report, read *)

(** A host that answers from [FS] for as long as it is asked. *)
Section Reads.
Context {W : Type} {HW : HostSys W} {FS : ProcFs} (w : W).
Hypothesis files : forall p, hsys w (ReadText p) = (w, match read_to_string p with Some t => HText t | None => HErr end).
Hypothesis links : forall p, hsys w (ReadLink p) = (w, match read_link p with Some t => HText t | None => HErr end).
Hypothesis ids : hsys w Geteuid = (w, HNum geteuid) /\ hsys w Getegid = (w, HNum getegid).

Lemma runs_answer {A} c t (f : option Text -> HostM A) Q :
  hsys w c = (w, match t with Some t => HText t | None => HErr end) -> runs (f t) w Q -> runs (ask_text c ≫= f) w Q.
Proof.
  intros Hc Hf. apply runs_bind, runs_bind. eapply runs_ask; [exact Hc|]. apply runs_ret. by destruct t.
Qed.

Lemma runs_number {A} c n (f : Z -> HostM A) Q : hsys w c = (w, HNum n) -> runs (f n) w Q -> runs (ask_num c ≫= f) w Q.
Proof. intros Hc Hf. apply runs_bind, runs_bind. eapply runs_ask; [exact Hc|]. by apply runs_ret. Qed.

Lemma effective_reads_exact seen paths file :
  runs (effective_reads seen paths file) w (fun w' a => w' = w /\ a = effective_in seen paths file).
Proof.
  revert seen. induction paths as [|p paths IH]; intros seen; cbn [effective_reads effective_in]; [by apply runs_ret|].
  eapply runs_answer; [apply files|]. cbv zeta. unfold Limit_read. rewrite <- app_assoc.
  destruct (is_set _); [by apply runs_ret|apply IH].
Qed.

Lemma look_reads_exact {A} cg file (f : _ -> HostM A) Q :
  runs (f (look cg file)) w Q -> runs (look_reads cg file ≫= f) w Q.
Proof.
  intros Hf. apply runs_bind. destruct cg as [c|]; [|by apply runs_ret].
  eapply runs_weaken; [apply effective_reads_exact|]. by intros w' a [-> ->].
Qed.

(** [main] makes the report of [gather]. *)
Lemma gather_reads_exact : runs gather_reads w (fun w' r => w' = w /\ r = gather).
Proof.
  destruct ids as [Hu Hg]. unfold gather_reads. eapply runs_number; [exact Hu|]. eapply runs_number; [exact Hg|].
  eapply runs_answer; [apply files|]. cbv zeta. do 4 apply look_reads_exact.
  eapply runs_answer; [apply links|]. eapply runs_answer; [apply links|]. by apply runs_ret.
Qed.

End Reads.

(** * The walk from the leaf to the root *)

(** A cgroup by its names, the root without any. *)
Definition cgroup_text (cs : list Text) : Text := concat (cons SLASH <$> cs).

Definition plain_name (c : Text) : Prop := c <> [] /\ SLASH ∉ c.

Lemma cgroup_text_snoc cs c : cgroup_text (cs ++ [c]) = cgroup_text cs ++ SLASH :: c.
Proof. unfold cgroup_text. rewrite fmap_app, concat_app. simpl. by rewrite app_nil_r. Qed.

Lemma rfind_absent c l : c ∉ l -> rfind c l = None.
Proof.
  induction l as [|x l IH]; [done|]. rewrite not_elem_of_cons. intros [Hx Hl]. simpl. rewrite IH by done.
  by rewrite (proj2 (Z.eqb_neq x c)).
Qed.

Lemma rfind_last c l k : c ∉ k -> rfind c (l ++ c :: k) = Some (length l).
Proof.
  intros Hk. induction l as [|x l IH]; simpl; [by rewrite rfind_absent, Z.eqb_refl|]. by rewrite IH.
Qed.

Lemma ancestors_from_snoc cs c fuel :
  plain_name c -> (0 < fuel)%nat ->
  ancestors_from (S fuel) (cgroup_text (cs ++ [c])) =
    cgroup_text (cs ++ [c]) :: match cs with [] => [[]] | _ => ancestors_from fuel (cgroup_text cs) end.
Proof.
  intros [Hc Hs] Hf. cbn [ancestors_from]. rewrite cgroup_text_snoc, rfind_last by done.
  destruct cs as [|d cs]; [done|]. simpl length. f_equal. f_equal.
  change (SLASH :: d ++ cgroup_text cs) with (cgroup_text (d :: cs)).
  by rewrite <- (take_app_length (cgroup_text (d :: cs)) (SLASH :: c)) at 2.
Qed.

(** Every cgroup on the way up, nearest first. *)
Lemma ancestors_from_exact cs fuel :
  Forall plain_name cs -> (length (cgroup_text cs) < fuel)%nat ->
  ancestors_from fuel (cgroup_text cs) = (fun n => cgroup_text (take n cs)) <$> reverse (seq 0 (S (length cs))).
Proof.
  revert fuel. induction cs as [|c cs IH] using rev_ind; intros [|fuel] Hp Hf; [lia|done|lia|].
  apply Forall_app in Hp as [Hp Hc]. rewrite Forall_singleton in Hc. rewrite cgroup_text_snoc, length_app in Hf. simpl in Hf.
  rewrite ancestors_from_snoc; [|exact Hc|lia]. rewrite length_app, Nat.add_comm. cbn [length Nat.add].
  rewrite seq_S, reverse_snoc, Nat.add_0_l. cbn [fmap list_fmap].
  rewrite take_ge by (rewrite length_app; simpl; lia). f_equal.
  transitivity (ancestors_from fuel (cgroup_text cs)).
  { destruct cs; [|done]. destruct fuel; [lia|done]. }
  rewrite IH by (done || lia). apply list_fmap_ext. intros i n Hn. apply list_elem_of_lookup_2 in Hn.
  rewrite elem_of_reverse, elem_of_seq in Hn. by rewrite take_app_le by lia.
Qed.

Section Exact.
Context {FS : ProcFs}.
Implicit Types (cs : list Text) (v w file : Text).

(** The limit a cgroup above the process sets. *)
Definition limit_at cs file (n : nat) : Limit := Limit_read (CGROUP_ROOT ++ cgroup_text (take n cs)) file.

(** The nearest of the cgroups to set a limit. *)
Definition nearest cs file (n : nat) v : Prop :=
  (n <= length cs)%nat /\ limit_at cs file n = LimitSet v /\
  forall m, (n < m <= length cs)%nat -> is_set (limit_at cs file m) = false.

Definition unbounded cs file : Prop := forall n, (n <= length cs)%nat -> is_set (limit_at cs file n) = false.

Lemma effective_in_down cs file seen k :
  (k <= length cs)%nat -> (forall m, (k < m <= length cs)%nat -> is_set (limit_at cs file m) = false) ->
  (exists n v, nearest cs file n v /\
     effective_in seen ((fun n => cgroup_text (take n cs)) <$> reverse (seq 0 (S k))) file =
       (LimitSet v, Some (owner_name (cgroup_text (take n cs))))) \/
  (unbounded cs file /\
   (effective_in seen ((fun n => cgroup_text (take n cs)) <$> reverse (seq 0 (S k))) file).2 = None).
Proof.
  revert seen. induction k as [|k IH]; intros seen Hk Hm; rewrite seq_S, reverse_snoc, Nat.add_0_l; cbn [fmap list_fmap effective_in];
    match goal with |- context [is_set ?f] => fold f; destruct (is_set f) eqn:E end.
  1, 3: match type of E with is_set (Limit_read (_ ++ cgroup_text (take ?j _)) _) = _ =>
          change (is_set (limit_at cs file j) = true) in E; left; exists j; destruct (limit_at cs file j) as [v| |] eqn:Ev; try done;
          exists v; split; [by split|]; unfold limit_at in Ev; by rewrite Ev end.
  - right. split; [|done]. intros n Hn. destruct (decide (n = 0%nat)) as [->|]; [done|]. apply Hm. lia.
  - apply IH; [lia|]. intros m Hm'. destruct (decide (m = S k)) as [->|]; [done|]. apply Hm. lia.
Qed.

Lemma nearest_unique cs file n n' v v' : nearest cs file n v -> nearest cs file n' v' -> n = n' /\ v = v'.
Proof.
  intros (Hn & Hv & Hm) (Hn' & Hv' & Hm'). assert (n = n') as <-.
  { destruct (decide (n < n')%nat); [specialize (Hm n' ltac:(lia)); rewrite Hv' in Hm; done|].
    destruct (decide (n' < n)%nat); [specialize (Hm' n ltac:(lia)); rewrite Hv in Hm'; done|]. lia. }
  split; [done|]. rewrite Hv in Hv'. by injection Hv'.
Qed.

Lemma nearest_bounded cs file n v : nearest cs file n v -> ~ unbounded cs file.
Proof. intros (Hn & Hv & _) Hu. specialize (Hu n Hn). by rewrite Hv in Hu. Qed.

(** What a lookup finds, through any spelling of the cgroup's path. *)
Lemma look_exact cs cg (file : string) :
  trim_end_char SLASH cg = cgroup_text cs -> Forall plain_name cs ->
  let found := look (Some cg) file in
  (forall v w, found = (LimitSet v, Some w) <->
     exists n, nearest cs (ascii_bytes file) n v /\ w = owner_name (cgroup_text (take n cs))) /\
  (found.2 = None <-> unbounded cs (ascii_bytes file)).
Proof.
  intros Hcg Hp. cbv zeta. unfold look, effective, ancestors. rewrite Hcg, ancestors_from_exact by (done || lia).
  destruct (effective_in_down cs (ascii_bytes file) Absent (length cs)) as [(n & v & Hn & ->)|[Hu E]]; [lia|lia|..].
  - split; [|split; [done|by intros Hu; destruct (nearest_bounded _ _ _ _ Hn)]]. intros v' w. split.
    + intros [= <- <-]. by exists n.
    + intros (n' & Hn' & ->). by destruct (nearest_unique _ _ _ _ _ _ Hn Hn') as [<- <-].
  - split; [|done]. intros v w. split.
    + intros E'. by rewrite E' in E.
    + intros (n & Hn & _). by destruct (nearest_bounded _ _ _ _ Hn).
Qed.

End Exact.

(** Which line says what. *)
Lemma elem_of_log r x :
  x ∈ report_log r <->
  match x with
  | RunningAsRoot => r_uid r = 0
  | MemoryBounded _ _ | MemoryUnbounded => x = memory_line r
  | CpuBounded _ _ | CpuUnbounded => x = cpu_line r
  | OwnNetwork | SharedNetwork | NetworkUnknown => x = network_line r
  end.
Proof.
  unfold report_log. rewrite elem_of_app, !elem_of_cons, elem_of_nil.
  assert (x ∈ root_line r <-> x = RunningAsRoot /\ r_uid r = 0) as ->.
  { unfold root_line. destruct (Z.eqb_spec (r_uid r) 0); [rewrite elem_of_cons, elem_of_nil; tauto|].
    rewrite elem_of_nil. naive_solver. }
  assert (match memory_line r with MemoryBounded _ _ | MemoryUnbounded => True | _ => False end) as Hm
    by (unfold memory_line; by repeat case_match).
  assert (match cpu_line r with CpuBounded _ _ | CpuUnbounded => True | _ => False end) as Hc by (unfold cpu_line; by repeat case_match).
  assert (match network_line r with OwnNetwork | SharedNetwork | NetworkUnknown => True | _ => False end) as Hn
    by (unfold network_line; by repeat case_match).
  destruct x; intuition (subst; try done); match goal with H : _ = ?l |- _ => rewrite <- H in *; done end.
Qed.

Lemma log_memory r v w : MemoryBounded v w ∈ report_log r <-> (memory_max r, memory_bound_by r) = (LimitSet v, Some w).
Proof. rewrite elem_of_log. unfold memory_line. repeat case_match; naive_solver. Qed.

Lemma log_no_memory r :
  MemoryUnbounded ∈ report_log r <-> forall v w, (memory_max r, memory_bound_by r) <> (LimitSet v, Some w).
Proof. rewrite elem_of_log. unfold memory_line. repeat case_match; naive_solver. Qed.

Lemma log_cpu r v w : CpuBounded v w ∈ report_log r <-> (cpu_max r, cpu_bound_by r) = (LimitSet v, Some w).
Proof. rewrite elem_of_log. unfold cpu_line. repeat case_match; naive_solver. Qed.

Lemma log_no_cpu r : CpuUnbounded ∈ report_log r <-> forall v w, (cpu_max r, cpu_bound_by r) <> (LimitSet v, Some w).
Proof. rewrite elem_of_log. unfold cpu_line. repeat case_match; naive_solver. Qed.

(** An owner is named with a limit, and only then. *)
Lemma look_shape {FS : ProcFs} cg f :
  (look (Some cg) f).2 = None <-> forall v w, look (Some cg) f <> (LimitSet v, Some w).
Proof.
  unfold look, effective. generalize (ancestors cg), Absent. intros ps. induction ps as [|p ps IH]; intros seen; [done|].
  cbn [effective_in]. destruct (Limit_read (CGROUP_ROOT ++ p) (ascii_bytes f)) as [v| |]; cbn [is_set]; [|apply IH..].
  split; [done|]. intros Hn. by destruct (Hn _ _ eq_refl).
Qed.

(** The report tells the truth about the bounds on memory and CPU.  For a
    process in the cgroup whose names are [cs], however its path is spelled at the
    end, the report names a bound exactly when one of the cgroups from its own up
    to the root sets one -- its limit file has a first word, other than "max" --
    and then it is the nearest such cgroup and its text; and it says that there is
    no bound exactly when none of them sets one. *)
Theorem isolation_report_exact {FS : ProcFs} cs cg :
  cgroup_path = Some cg -> trim_end_char SLASH cg = cgroup_text cs -> Forall plain_name cs ->
  let told := report_log gather in
  (forall v w, MemoryBounded v w ∈ told <->
     exists n, nearest cs (ascii_bytes "memory.max") n v /\ w = owner_name (cgroup_text (take n cs))) /\
  (MemoryUnbounded ∈ told <-> unbounded cs (ascii_bytes "memory.max")) /\
  (forall v w, CpuBounded v w ∈ told <->
     exists n, nearest cs (ascii_bytes "cpu.max") n v /\ w = owner_name (cgroup_text (take n cs))) /\
  (CpuUnbounded ∈ told <-> unbounded cs (ascii_bytes "cpu.max")).
Proof.
  intros Hc Hcg Hp. cbv zeta. destruct (look_exact cs cg "memory.max" Hcg Hp) as [M1 M2].
  destruct (look_exact cs cg "cpu.max" Hcg Hp) as [C1 C2]. rewrite <- M2, <- C2, !look_shape, log_no_memory, log_no_cpu.
  setoid_rewrite log_memory. setoid_rewrite log_cpu. setoid_rewrite <- M1. setoid_rewrite <- C1.
  unfold gather. cbn [memory_max memory_bound_by cpu_max cpu_bound_by]. rewrite Hc, <- !surjective_pairing. done.
Qed.

(** A limit on the slice, none on the session in it. *)
Definition sliced : ProcFs :=
  {| read_to_string p :=
       if bool_decide (p = ascii_bytes "/proc/self/cgroup") then Some (ascii_bytes "0::/user.slice/session.scope" ++ [10])
       else if bool_decide (p = ascii_bytes "/sys/fs/cgroup/user.slice/memory.max") then Some (ascii_bytes "2147483648" ++ [10])
       else if bool_decide (p = ascii_bytes "/sys/fs/cgroup/user.slice/session.scope/memory.max") then Some (ascii_bytes "max" ++ [10])
       else None;
     read_link _ := None; geteuid := 1000; getegid := 1000 |}.

Lemma isolation_report_exact_witness :
  MemoryBounded (ascii_bytes "2147483648") (ascii_bytes "/user.slice") ∈ report_log (gather (FS := sliced)).
Proof.
  apply (isolation_report_exact (FS := sliced) [ascii_bytes "user.slice"; ascii_bytes "session.scope"]
    (ascii_bytes "/user.slice/session.scope")); [vm_compute; reflexivity..| |].
  - repeat constructor; try done; apply (bool_decide_unpack _); vm_compute; exact I.
  - exists 1%nat. split; [|reflexivity]. split; [vm_compute; lia|]. split; [vm_compute; reflexivity|].
    intros m Hm. assert (m = 2%nat) as -> by (simpl in Hm; lia). vm_compute. reflexivity.
Defined.
