(* ===== verification/Placement.v ===== *)
(** Where the threads run and who runs first: [virtio-devices/src/affinity.rs] and
    [sched.rs], the GPU worker's [confine] and the start of its thread, the start
    of a vCPU thread and the placement main decides.

    The process-wide settings are the record [Settings]; each is written once.  What
    the kernel does with a placement is the class [ThreadPlacement], as
    sched_setaffinity(2) and cpuset(7) document it. *)

From stdpp Require Import strings gmap.
From S2P Require Import Prelude Shared Config HostCalls.

(** * The settings *)

Record CgroupFds := { vcpu_fd : Z; io_fd : Z }.

Record Settings := { IO_CPUS : option (list Z); ORIGIN : option CpuSet; CGROUP_FDS : option CgroupFds }.

Definition Settings_new : Settings := {| IO_CPUS := None; ORIGIN := None; CGROUP_FDS := None |}.

(** [OnceLock::set]: the first value stays. *)
Definition once {A} (old : option A) (x : A) : option A := match old with Some y => Some y | None => Some x end.

Definition set_cgroup_fds (s : Settings) (fds : CgroupFds) : Settings :=
  {| IO_CPUS := IO_CPUS s; ORIGIN := ORIGIN s; CGROUP_FDS := once (CGROUP_FDS s) fds |}.

Definition set_io_cpus (s : Settings) (cpus : list Z) : Settings :=
  {| IO_CPUS := once (IO_CPUS s) cpus; ORIGIN := ORIGIN s; CGROUP_FDS := CGROUP_FDS s |}.

Definition set_origin (s : Settings) (set : CpuSet) : Settings :=
  {| IO_CPUS := IO_CPUS s; ORIGIN := once (ORIGIN s) set; CGROUP_FDS := CGROUP_FDS s |}.

Definition io_cpus (s : Settings) : list Z := default [] (IO_CPUS s).

Definition CPU_SETSIZE : Z := 1024.

(** CPUs that cannot be named are dropped, and none at all is no set. *)
Definition cpu_set (cpus : list Z) : option CpuSet :=
  match filter (fun c => c < CPU_SETSIZE) cpus with
  | [] => None
  | named => Some (list_to_set named)
  end.

Definition HELPER_NICE : Z := 10.
Definition CRITICAL_NICE : Z := -5.

Section Threads.
Context {W : Type} {HW : HostSys W}.
Abbreviation M := (HostM (W := W)).

(** * Affinity and cgroups of the calling thread *)

Definition apply (set : CpuSet) : M bool := attempt (SetAffinity set).

Definition current : M (option CpuSet) := r ← ask GetAffinity; mret match r with HCpus s => Some s | _ => None end.

Definition move_to_cgroup (fd tid : Z) : M bool :=
  r ← ask (WriteFd fd (show tid));
  mret match r with HNum n => n =? Z.of_nat (length (show tid)) | _ => false end.

Definition join_cgroup (fd : Z) : M bool := move_to_cgroup fd 0.

Definition leave_vcpu_cgroup (st : Settings) : M () :=
  when (CGROUP_FDS st) (fun fds => join_cgroup (io_fd fds) ;; mret tt).

Definition with_io_affinity {R} (st : Settings) (f : M R) : M R :=
  match cpu_set (io_cpus st) with
  | None => f
  | Some io =>
      saved ← current;
      match saved with
      | None => f
      | Some saved =>
          when (CGROUP_FDS st) (fun fds => join_cgroup (io_fd fds) ;; mret tt) ;;
          apply io ;;
          result ← f;
          when (CGROUP_FDS st) (fun fds => join_cgroup (vcpu_fd fds) ;; mret tt) ;;
          apply saved ;;
          mret result
      end
  end.

(** ** KVM's own threads *)

Definition KVM_PREFIX : Text := ascii_bytes "kvm-".

(** A thread id is a positive 31-bit number. *)
Definition parse_tid (name : Text) : option Z := n ← parse_uint 32 name; if n <? 2 ^ 31 then Some n else None.

Fixpoint rehome (st : Settings) (io : CpuSet) (moved : Z) (tasks : list Text) : M Z :=
  match tasks with
  | [] => mret moved
  | task :: tasks =>
      comm ← ask_text (TaskName task);
      if starts_with KVM_PREFIX (default [] comm) then
        match parse_tid task with
        | None => rehome st io moved tasks
        | Some tid =>
            when (CGROUP_FDS st) (fun fds => move_to_cgroup (io_fd fds) tid ;; mret tt) ;;
            ok ← attempt (SetAffinityOf tid io);
            rehome st io (if ok : bool then moved + 1 else moved) tasks
        end
      else rehome st io moved tasks
  end.

Definition rehome_kvm_workers (st : Settings) : M Z :=
  match cpu_set (io_cpus st) with
  | None => mret 0
  | Some io =>
      r ← ask Tasks;
      match r with HNames tasks => rehome st io 0 tasks | _ => mret 0 end
  end.

(** * Priorities *)

Definition set_nice (nice : Z) : M bool := attempt (SetNice nice).

Definition lower_this_thread : M () := set_nice HELPER_NICE ;; mret tt.
Definition raise_this_thread : M bool := set_nice CRITICAL_NICE.

Definition read_attr : M (option SchedAttr) := r ← ask GetSchedAttr; mret match r with HAttr a => Some a | _ => None end.

(** [slice_us * 1000], as release builds multiply. *)
Definition with_runtime (a : SchedAttr) (slice_us : Z) : SchedAttr :=
  {| sa_size := sa_size a; sa_policy := sa_policy a; sa_flags := sa_flags a; sa_nice := sa_nice a; sa_priority := sa_priority a;
     sa_runtime := wrap 64 (slice_us * 1000); sa_deadline := sa_deadline a; sa_period := sa_period a;
     sa_util_min := sa_util_min a; sa_util_max := sa_util_max a |}.

Definition request_slice (slice_us : Z) : M () :=
  a ← read_attr;
  when a (fun a => attempt (SetSchedAttr (with_runtime a slice_us)) ;; mret tt).

Definition current_slice_us : M (option Z) :=
  a ← read_attr;
  mret (a ← a; if 0 <? sa_runtime a then Some (sa_runtime a / 1000) else None).

(** * The threads *)

(** [Worker::confine]. *)
Definition confine (st : Settings) (cpu_affinity : list Z) : M () :=
  leave_vcpu_cgroup st ;;
  match cpu_set cpu_affinity with
  | None => when (ORIGIN st) (fun o => apply o ;; mret tt)
  | Some set => apply set ;; mret tt
  end.

(** The start of [Worker::work]. *)
Definition worker_start (st : Settings) (cpu_affinity : list Z) (slice_us : Z) : M () :=
  confine st cpu_affinity ;;
  raise_this_thread ;;
  if 0 <? slice_us then request_slice slice_us else mret tt.

(** The start of a vCPU thread. *)
Definition vcpu_start (cgroup_fd : option Z) (placement : option CpuSet) : M () :=
  when cgroup_fd (fun fd => join_cgroup fd ;; mret tt) ;;
  when placement (fun set => apply set ;; mret tt).

(** Where main puts itself before anything is spawned, and what it records. *)
Definition place_process (c : MachineConfig) : M (Settings * option CpuSet) :=
  started_on ← current;
  let st := match started_on with Some set => set_origin Settings_new set | None => Settings_new end in
  let st := set_io_cpus st (Config.io_cpus c) in
  let st := match vcpu_cgroup_fd c, io_cgroup_fd c with
            | Some vcpu, Some io => set_cgroup_fds st {| vcpu_fd := vcpu; io_fd := io |}
            | _, _ => st
            end in
  when (cpu_set (Config.io_cpus c)) (fun set => apply set ;; mret tt) ;;
  mret (st, started_on).

(** Each vCPU's placement: its pin, the shared set, or where the process started. *)
Definition placement_of (c : MachineConfig) (started_on : option CpuSet) (i : nat) : option CpuSet :=
  match vcpu_pins c !! i with
  | Some cpu => cpu_set [cpu]
  | None => match cpu_set (cpu_affinity c) with Some s => Some s | None => started_on end
  end.

End Threads.

(** * What the kernel makes of it *)

(** Of the calling thread, by the descriptor its cgroup is open on.  A thread runs
    on CPUs of its cgroup only: an affinity that has none of them is refused, and
    one that has some is cut down to them.  A thread that joins a cgroup runs on
    CPUs of that one, whichever the kernel picks. *)
Class ThreadPlacement (W : Type) {HW : HostSys W} := {
  aff : W -> CpuSet;
  cgroup_of : W -> Z;
  cpuset : Z -> CpuSet;
  affinity_read w : hsys w GetAffinity = (w, HCpus (aff w));
  affinity_set w s : s ∩ cpuset (cgroup_of w) <> ∅ ->
    exists w', hsys w (SetAffinity s) = (w', HOk) /\ aff w' = s ∩ cpuset (cgroup_of w) /\ cgroup_of w' = cgroup_of w;
  affinity_refused w s : s ∩ cpuset (cgroup_of w) = ∅ -> hsys w (SetAffinity s) = (w, HErr);
  cgroup_joined w fd : cpuset fd <> ∅ ->
    exists w', hsys w (WriteFd fd (show 0)) = (w', HNum 1) /\ cgroup_of w' = fd /\ aff w' ⊆ cpuset fd
}.

Section Placed.
Context {W : Type} {HW : HostSys W} {HT : ThreadPlacement W}.
Implicit Types (w : W) (s io : CpuSet).

(** In the cgroup [fd], on exactly [s]. *)
Definition placed w (fd : Z) s : Prop := cgroup_of w = fd /\ aff w = s.

Lemma runs_join w fd (Q : W -> () -> Prop) :
  cpuset fd <> ∅ -> (forall w', cgroup_of w' = fd -> Q w' tt) -> runs (join_cgroup fd ;; mret tt) w Q.
Proof.
  intros Hfd HQ. apply runs_bind. unfold join_cgroup, move_to_cgroup. apply runs_bind.
  destruct (cgroup_joined w fd Hfd) as (w' & E & Hc & _). eapply runs_ask; [exact E|]. by do 2 apply runs_ret; apply HQ.
Qed.

Lemma runs_apply w fd s (Q : W -> bool -> Prop) :
  cgroup_of w = fd -> s <> ∅ -> s ⊆ cpuset fd -> (forall w', placed w' fd s -> Q w' true) -> runs (apply s) w Q.
Proof.
  intros Hc Hs Hsub HQ. assert (s ∩ cpuset (cgroup_of w) = s) as Es by (rewrite Hc; set_solver).
  destruct (affinity_set w s) as (w' & E & Ha & Hc'); [by rewrite Es|].
  eapply runs_attempt; [exact E|]. apply HQ. split; [congruence|]. by rewrite Ha.
Qed.

Lemma cpu_set_not_empty cpus s : cpu_set cpus = Some s -> s <> ∅.
Proof. unfold cpu_set. destruct (filter _ cpus) as [|c l]; [done|]. intros [= <-]. set_solver. Qed.

(** Steps taken under a partition, seen from inside and after. *)
Lemma runs_with_io {R} st fds io (f : HostM R) w saved (Q : W -> R -> Prop) :
  CGROUP_FDS st = Some fds -> cpu_set (io_cpus st) = Some io ->
  cpuset (io_fd fds) <> ∅ -> io ⊆ cpuset (io_fd fds) ->
  cgroup_of w = vcpu_fd fds -> aff w = saved -> saved <> ∅ -> saved ⊆ cpuset (vcpu_fd fds) ->
  (forall w1, placed w1 (io_fd fds) io -> runs f w1 (fun _ r => forall w3, placed w3 (vcpu_fd fds) saved -> Q w3 r)) ->
  runs (with_io_affinity st f) w Q.
Proof.
  intros Hf Hio Hne Hsub Hc Ha Hsn Hss HF. unfold with_io_affinity. rewrite Hio, Hf. cbn [when]. apply runs_bind.
  unfold current. apply runs_bind. eapply runs_ask; [apply affinity_read|]. apply runs_ret. rewrite Ha.
  apply runs_bind, runs_join; [done|]. intros w1 Hc1. apply runs_bind.
  apply (runs_apply w1 (io_fd fds)); [done|by eapply cpu_set_not_empty|done|]. intros w2 Hp. apply runs_bind.
  eapply runs_weaken; [by apply HF|]. intros w3 r HQ. apply runs_bind, runs_join; [set_solver|]. intros w4 Hc4.
  apply runs_bind, (runs_apply w4 (vcpu_fd fds)); [done..|]. intros w5 Hp5. apply runs_ret. by apply HQ.
Qed.

End Placed.

(** C26: Under a cpuset partition every thread ends up where it belongs.  A vCPU
    thread, whatever it was born with, joins the vCPU cgroup and runs on its pin;
    what a vCPU thread starts inside [with_io_affinity] is started from the I/O
    cgroup on exactly the I/O CPUs, and the vCPU thread is back in its own cgroup on
    exactly the CPUs it had, its result unchanged; and the GPU worker, born on a
    vCPU's pin, ends in the I/O cgroup on the CPUs it was given, or where the
    process started when it was given none. *)
Theorem threads_placed {W : Type} {HW : HostSys W} {HT : ThreadPlacement W} (st : Settings) (fds : CgroupFds) (io saved : CpuSet) :
  CGROUP_FDS st = Some fds -> cpu_set (io_cpus st) = Some io ->
  cpuset (io_fd fds) <> ∅ -> io ⊆ cpuset (io_fd fds) -> saved <> ∅ -> saved ⊆ cpuset (vcpu_fd fds) ->
  (forall w, runs (vcpu_start (Some (vcpu_fd fds)) (Some saved)) w (fun w' _ => placed w' (vcpu_fd fds) saved)) /\
  (forall R (f : HostM R) (x : R) w, placed w (vcpu_fd fds) saved ->
     (forall w1, placed w1 (io_fd fds) io -> runs f w1 (fun _ r => r = x)) ->
     runs (with_io_affinity st f) w (fun w' r => placed w' (vcpu_fd fds) saved /\ r = x)) /\
  (forall cpus s w, match cpu_set cpus with Some s => Some s | None => ORIGIN st end = Some s ->
     s <> ∅ -> s ⊆ cpuset (io_fd fds) ->
     runs (confine st cpus) w (fun w' _ => placed w' (io_fd fds) s)).
Proof.
  intros Hf Hio Hne Hsub Hsn Hss. split_and!.
  - intros w. unfold vcpu_start. cbn [when]. apply runs_bind, runs_join; [set_solver|]. intros w1 Hc1.
    apply runs_bind, (runs_apply w1 (vcpu_fd fds)); [done..|]. intros w2 Hp. by apply runs_ret.
  - intros R f x w [Hc Ha] HF. eapply (runs_with_io st fds io); [done..|]. intros w1 Hp.
    eapply runs_weaken; [by apply HF|]. naive_solver.
  - intros cpus s w Hs Hse Hsu. unfold confine, leave_vcpu_cgroup. rewrite Hf. cbn [when].
    apply runs_bind, runs_join; [done|]. intros w1 Hc1.
    destruct (cpu_set cpus) as [s'|]; [injection Hs as ->|rewrite Hs; cbn [when]];
      (apply runs_bind, (runs_apply w1 (io_fd fds)); [done..|]; intros w2 Hp; by apply runs_ret).
Qed.

(** Only threads whose name is KVM's are moved, to the I/O CPUs. *)
Definition moves_kvm (io : CpuSet) (l : HLog) : Prop :=
  forall tid s r, (SetAffinityOf tid s, r) ∈ l ->
    s = io /\ exists task comm, (TaskName task, HText comm) ∈ l /\ parse_tid task = Some tid /\ starts_with KVM_PREFIX comm = true.

Lemma moves_kvm_app io l1 l2 : moves_kvm io l1 -> moves_kvm io l2 -> moves_kvm io (l1 ++ l2).
Proof.
  intros H1 H2 tid s r Hin. apply elem_of_app in Hin as [Hin|Hin];
    [destruct (H1 tid s r Hin) as (-> & task & comm & Ht & Hrest)|destruct (H2 tid s r Hin) as (-> & task & comm & Ht & Hrest)];
    (split; [done|]; exists task, comm; split; [apply elem_of_app; tauto|done]).
Qed.

Lemma moves_kvm_other io c r : (forall tid s, c <> SetAffinityOf tid s) -> moves_kvm io [(c, r)].
Proof. intros Hc tid s r' Hin. apply list_elem_of_singleton in Hin. naive_solver. Qed.

Lemma moves_kvm_snoc io l task comm tid r :
  moves_kvm io l -> (TaskName task, HText comm) ∈ l -> parse_tid task = Some tid -> starts_with KVM_PREFIX comm = true ->
  moves_kvm io (l ++ [(SetAffinityOf tid io, r)]).
Proof.
  intros Hl Hin Ht Hk tid' s r' Hin'. apply elem_of_app in Hin' as [Hin'|Hin'%list_elem_of_singleton].
  - destruct (Hl _ _ _ Hin') as (-> & task' & comm' & Hin2 & Hrest). split; [done|]. exists task', comm'. set_solver.
  - injection Hin' as -> -> _. split; [done|]. exists task, comm. set_solver.
Qed.

Lemma rehome_only {W : Type} {HW : HostSys W} st io moved tasks :
  logs (rehome (W := W) st io moved tasks) (fun l _ => moves_kvm io l).
Proof.
  revert moved. induction tasks as [|task tasks IH]; intros moved; cbn [rehome].
  { apply logs_ret. intros tid s r Hin. by apply elem_of_nil in Hin. }
  apply logs_bind. unfold ask_text. apply logs_bind, logs_ask. intros r. apply logs_ret. cbn [app].
  assert (moves_kvm io [(TaskName task, r)]) as H0 by (by apply moves_kvm_other).
  destruct (starts_with _ _) eqn:Ek; [|eapply logs_weaken; [apply IH|]; intros l r0 Hl; by apply (moves_kvm_app io [_])].
  destruct (parse_tid task) as [tid|] eqn:Et; [|eapply logs_weaken; [apply IH|]; intros l r0 Hl; by apply (moves_kvm_app io [_])].
  assert (exists comm, r = HText comm) as [comm ->].
  { destruct r; vm_compute in Ek; try done. by eexists. }
  assert (forall (o : option CgroupFds), logs (W := W) (when o (fun fds => move_to_cgroup (io_fd fds) tid ;; mret tt))
    (fun l r => r = Some tt /\ moves_kvm io l)) as Hw.
  { intros [fds|]; cbn [when]; [|apply logs_ret; split; [done|]; intros ? ? ? Hin; by apply elem_of_nil in Hin].
    apply logs_bind. unfold move_to_cgroup. apply logs_bind, logs_ask. intros r. do 2 apply logs_ret.
    split; [done|]. by apply moves_kvm_other. }
  apply logs_bind. eapply logs_weaken; [apply Hw|]. intros l1 r1 [-> H1]. cbn [app].
  apply logs_bind. unfold attempt. apply logs_bind, logs_ask. intros ra. apply logs_ret.
  eapply logs_weaken; [apply IH|]. intros l2 r2 H2. rewrite app_nil_r, (app_assoc l1), app_comm_cons. apply moves_kvm_app; [|done].
  rewrite app_comm_cons. eapply moves_kvm_snoc; [|by left|done|done]. by apply (moves_kvm_app io [_]).
Qed.

(** * A concrete kernel *)

(** CPUs 2 and 3 in the partition on descriptor 10, CPUs 0 and 1 outside it. *)
Definition toy_cpus (fd : Z) : CpuSet := if fd =? 10 then {[2; 3]} else {[0; 1]}.

#[export] Instance ToyKernel : HostSys (CpuSet * Z) := {
  hsys w c :=
    match c with
    | GetAffinity => (w, HCpus w.1)
    | SetAffinity s =>
        if bool_decide (s ∩ toy_cpus w.2 = ∅) then (w, HErr) else ((s ∩ toy_cpus w.2, w.2), HOk)
    | WriteFd fd t => if bool_decide (t = show 0) then ((toy_cpus fd, fd), HNum 1) else (w, HErr)
    | _ => (w, HErr)
    end
}.

#[export, refine] Instance ToyPlacement : ThreadPlacement (CpuSet * Z) := {
  aff w := w.1; cgroup_of w := w.2; cpuset := toy_cpus
}.
Proof.
  - done.
  - intros w s Hs. simpl. rewrite bool_decide_false by done. by eexists.
  - intros w s Hs. simpl. by rewrite bool_decide_true.
  - intros w fd Hf. simpl. eexists. by split_and!.
Defined.

Definition toy_settings : Settings :=
  {| IO_CPUS := Some [0; 5000]; ORIGIN := None; CGROUP_FDS := Some {| vcpu_fd := 10; io_fd := 11 |} |}.

Lemma threads_placed_witness :
  runs (W := CpuSet * Z) (vcpu_start (Some 10) (Some {[2]})) ({[0]}, 11) (fun w _ => placed w 10 {[2]}) /\
  runs (W := CpuSet * Z) (with_io_affinity toy_settings (mret 7)) ({[2]}, 10) (fun w r => placed w 10 {[2]} /\ r = 7).
Proof.
  destruct (threads_placed (W := CpuSet * Z) toy_settings {| vcpu_fd := 10; io_fd := 11 |} {[0]} {[2]}) as (H1 & H2 & _).
  - reflexivity.
  - vm_compute. reflexivity.
  - simpl. set_solver.
  - simpl. set_solver.
  - set_solver.
  - simpl. set_solver.
  - split; [apply H1|]. apply H2; [by split|]. intros w1 _. by apply runs_ret.
Defined.
