(* ===== verification/Processes.v ===== *)
(** What the VMM starts and opens beside its devices: virtiofsd and its supervision
    ([vmm/src/virtiofsd.rs]), the check on the loaded renderer
    ([vmm/src/renderer.rs]), the sockets of the metrics and of the control surface
    ([vmm/src/stats.rs], [control.rs]), and the tap ([virtio-devices/src/tap.rs]).

    Paths are text, joined as [PathBuf::push] does and compared by components. *)

From stdpp Require Import strings gmap.
From S2P Require Import Prelude Shared NetDevice Config HostCalls.

Definition path_join_text (dir name : Text) : Text :=
  match name with
  | c :: _ => if c =? SLASH then name
              else match reverse dir with
                   | [] => name
                   | d :: _ => if d =? SLASH then dir ++ name else dir ++ SLASH :: name
                   end
  | [] => match reverse dir with
          | [] => []
          | d :: _ => if d =? SLASH then dir else dir ++ [SLASH]
          end
  end.

Definition path_eq (p q : Text) : bool := bool_decide (parse_path p = parse_path q).

(** * virtiofsd *)

Definition FALLBACK_DIRS : list Text :=
  ascii_bytes <$> ["/usr/lib"; "/usr/libexec"; "/usr/local/lib"; "/usr/local/libexec"; "/usr/lib/qemu"].

Definition VIRTIOFSD : Text := ascii_bytes "virtiofsd".

(** The directories [resolve] looks in: those of PATH, then the fallbacks that are
    not among them. *)
Definition search_dirs (path_env : option Text) (fallbacks : list Text) : list Text :=
  let from_path := match path_env with Some p => split_on 58 p | None => [] end in
  from_path ++ filter (fun d => existsb (path_eq d) from_path = false) fallbacks.

Definition owner_args (ids : (Z * Z) * (Z * Z)) : list Text :=
  let '((guest_uid, guest_gid), (host_uid, host_gid)) := ids in
  [ascii_bytes "--translate-uid";
   ascii_bytes "map:" ++ show guest_uid ++ ascii_bytes ":" ++ show host_uid ++ ascii_bytes ":1";
   ascii_bytes "--translate-gid";
   ascii_bytes "map:" ++ show guest_gid ++ ascii_bytes ":" ++ show host_gid ++ ascii_bytes ":1"].

Record Virtiofsd := { child : Z; socket_path : Text }.

(** [Path::with_extension]: what follows the last dot of the file name is replaced,
    unless the name only starts with a dot. *)
Definition file_name_at (p : Text) : nat := length p - length (fst (default (reverse p, []) (split_once SLASH (reverse p)))).

Definition with_extension (p ext : Text) : Text :=
  let at_ := file_name_at p in
  let dir := take at_ p in
  let name := drop at_ p in
  match split_once 46 (reverse name) with
  | Some (_, (_ :: _) as stem) => dir ++ reverse stem ++ 46 :: ext
  | _ => dir ++ name ++ 46 :: ext
  end.

Section Processes.
Context {W : Type} {HW : HostSys W}.
Abbreviation M := (HostM (W := W)).

Fixpoint first_executable (dirs : list Text) : M (option Text) :=
  match dirs with
  | [] => mret None
  | dir :: dirs =>
      let candidate := path_join_text dir VIRTIOFSD in
      ok ← ask_bool (IsExecutable candidate);
      if ok : bool then mret (Some candidate) else first_executable dirs
  end.

Definition resolve (path_env : option Text) (fallbacks : list Text) : M Text :=
  found ← first_executable (search_dirs path_env fallbacks);
  need found.

Definition binary_path : M Text :=
  explicit ← ask_text (GetEnv (ascii_bytes "NESBOX_VIRTIOFSD"));
  match explicit with
  | Some path =>
      ok ← ask_bool (IsExecutable path);
      check ok ;; mret path
  | None =>
      path_env ← ask_text (GetEnv (ascii_bytes "PATH"));
      resolve path_env FALLBACK_DIRS
  end.

(** A hundred looks of 50 ms.  [try_wait] answers a status once the child is gone. *)
Fixpoint wait_turns (n : nat) (d : Virtiofsd) : M () :=
  match n with
  | O => fail
  | S n =>
      up ← ask_bool (Exists (socket_path d));
      if up : bool then mret tt
      else
        r ← ask (TryWait (child d));
        match r with
        | HOk => ask (Sleep 50) ;; wait_turns n d
        | _ => fail
        end
  end.

Definition wait_for_socket (d : Virtiofsd) : M () := wait_turns 100 d.

(** [Drop]: killed, reaped, and its files removed. *)
Definition Virtiofsd_drop (d : Virtiofsd) : M () :=
  ask (Kill (child d)) ;;
  ask (Wait (child d)) ;;
  ask (RemoveFile (socket_path d)) ;;
  ask (RemoveFile (with_extension (socket_path d) (ascii_bytes "sock.pid"))) ;;
  mret tt.

Definition daemon_args (debug : bool) (socket shared_dir : Text) (readonly : bool) (owner : list Text) : list Text :=
  [ascii_bytes "--socket-path"; socket; ascii_bytes "--shared-dir"; shared_dir; ascii_bytes "--sandbox"; ascii_bytes "none";
   ascii_bytes "--cache"; ascii_bytes "auto"; ascii_bytes "--log-level"; ascii_bytes (if debug then "debug" else "warn")] ++
  (if readonly then [ascii_bytes "--readonly"] else []) ++ owner.

Definition socket_name (tag : Text) : Text := ascii_bytes "virtiofs-" ++ tag ++ ascii_bytes ".sock".

(** The two calls in the child between fork and exec are part of [SpawnProcess]. *)
Definition Virtiofsd_spawn (debug : bool) (shared : SharedDirectory) (runtime_dir : Text) : M Virtiofsd :=
  let shared_dir := ascii_bytes (sd_path_on_host shared) in
  ok ← ask_bool (IsDir shared_dir);
  check ok ;;
  must (CreateDirs runtime_dir) ;;
  let socket := path_join_text runtime_dir (socket_name (tag shared)) in
  attempt (RemoveFile socket) ;;
  binary ← binary_path;
  owner ← match guest_owner shared with
          | Some guest =>
              r ← ask (OwnerOf shared_dir);
              match r with HPair uid gid => mret (owner_args (guest, (uid, gid))) | _ => fail end
          | None => mret []
          end;
  _ ← ask_num Getpid;
  pid ← ask_num (SpawnProcess binary (daemon_args debug socket shared_dir (read_only shared) owner));
  let d := {| child := pid; socket_path := socket |} in
  on_error (wait_for_socket d) (Virtiofsd_drop d) ;;
  mret d.

(** * The renderer *)

Definition BUDGET_MARKER : Text := ascii_bytes "NESTRI_VRAM_LIMIT_MIB".

Inductive Budget := Enforced (path : Text) | NotEnforced (path : Text) | Unknown.

(** The last component; a path that ends in ".." has none. *)
Definition file_name (p : Text) : option Text :=
  match last (comps (parse_path p)) with
  | Some c => if bool_decide (c = ascii_bytes "..") then None else Some c
  | None => None
  end.

Definition is_renderer (p : Text) : bool :=
  match file_name p with Some f => starts_with (ascii_bytes "libvirglrenderer.so") f | None => false end.

Definition find_renderer (maps : Text) : option Text :=
  find_map (fun line => p ← words line !! 5%nat; if is_renderer p then Some p else None) (lines maps).

(** [windows(n).any(|w| w == marker)]. *)
Fixpoint carries (marker bytes : Text) : bool :=
  starts_with marker bytes || match bytes with [] => false | _ :: rest => carries marker rest end.

Definition vram_budget : M Budget :=
  maps ← ask_text (ReadText (ascii_bytes "/proc/self/maps"));
  match m ← maps; find_renderer m with
  | None => mret Unknown
  | Some path =>
      bytes ← ask_text (ReadText path);
      mret match bytes with
           | Some b => if carries BUDGET_MARKER b then Enforced path else NotEnforced path
           | None => Unknown
           end
  end.

(** A limit nothing enforces is an error; anything else is at most logged. *)
Definition decide_budget (b : Budget) (vram_limit_mib : option Z) : bool :=
  match b, vram_limit_mib with
  | NotEnforced _, Some _ => false
  | _, _ => true
  end.

Definition renderer_check (vram_limit_mib : option Z) : M () :=
  b ← vram_budget;
  check (decide_budget b vram_limit_mib).

(** * Sockets *)

(** [stats::serve] and [control::serve]: a socket nobody answers on is cleared
    away, a live one is left. *)
Definition serve (thread path : Text) : M () :=
  there ← ask_bool (Exists path);
  (if there : bool then
     live ← attempt (Connect path);
     check (negb live) ;;
     must (RemoveFile path)
   else mret tt) ;;
  must (Bind path) ;;
  must (Chmod path 0x180) ;;
  must (SpawnThread thread).

(** * The tap *)

Definition IFF_TAP : Z := 0x0002.
Definition IFF_NO_PI : Z := 0x1000.
Definition IFF_VNET_HDR : Z := 0x4000.
Definition TUNSETIFF : Z := 0x400454ca.
Definition TUNSETOFFLOAD : Z := 0x400454d0.
Definition TUNSETVNETHDRSZ : Z := 0x400454d8.

Definition IfReq_bytes (r : IfReq) : list Z := ifr_name r ++ (payload r ≫= le_bytes 8).

Definition Tap_open (name : Text) : M () :=
  there ← ask_bool (Exists (ascii_bytes "/sys/class/net/" ++ name));
  check there ;;
  must OpenTun ;;
  req ← need (IfReq_new name);
  must (TunSetIff (IfReq_bytes (set_flags req (Z.lor (Z.lor IFF_TAP IFF_NO_PI) IFF_VNET_HDR)))).

Definition set_vnet_hdr_size (size : Z) : M () := must (TunIoctl TUNSETVNETHDRSZ size).
Definition set_offload (flags : Z) : M () := must (TunIoctl TUNSETOFFLOAD flags).

End Processes.
