(* ===== verification/Startup.v ===== *)
(** [main] of [vmm/src/bin/nesbox.rs], from the command line to the exit code: the
    order in which the process takes what it needs, gives up what it does not, and
    lets the guest run.

    A device's construction and its place on the bus are a call or a few each (the
    devices themselves are modelled in their own files, and how they are wired
    together in [Machine]); from the start of the vCPU threads to the end of the
    last one is [Lifecycle], here [JoinVcpus], which answers the exit code.  What a
    driver makes a vCPU thread start in that time, when it sets DRIVER_OK, is not
    [main]'s doing but the process's: [activate], as often and as late as the guest
    likes ([driver]).  The files the metering and the moving of KVM's threads read
    while the guest runs are not here.  Reading JSON is serde's, a parameter.  An error ends [main] with the destructors of what
    is in scope, as [finally] and [on_error] have it; so does a panic, which unwinds. *)

From stdpp Require Import strings gmap.
From S2P Require Import Prelude Shared VsockDevice Config Seccomp HostCalls Isolation Placement Processes.

Definition SIGINT : Z := 2.
Definition SIGUSR1 : Z := 10.
Definition SIGTERM : Z := 15.

Definition BLK_MAX_QUEUES : Z := 8.
Definition FS_TAG_LEN : nat := 36.

(** A driver that sets DRIVER_OK on the device with a worker of its own to start: the
    GPU, or the forwarded one.  (The others have theirs from [main], or the kernel.) *)
Inductive Activation := ActivateGpu | ActivateForward.

Definition GPU_WORKER : Text := ascii_bytes "virtio-gpu worker".
Definition WINDOW_THREAD : Text := ascii_bytes "nvgpu-window".

Section Main.
Context {W : Type} {HW : HostSys W}.
Context (parse_config : Text -> option VmConfig) (virgl debug : bool).
(** What drivers activate once the given number of vCPUs runs and before another does. *)
Context (driver : nat -> list Activation).
Abbreviation M := (HostM (W := W)).

(** ** The terminal *)

(** Whether there are settings to restore. *)
Definition RawMode_enter : M bool :=
  tty ← ask_bool IsATty;
  if tty : bool then
    must GetTerminal ;;
    must (SetTerminal true) ;;
    mret true
  else mret false.

Definition RawMode_drop (orig : bool) : M () := if orig then ask (SetTerminal false) ;; mret tt else mret tt.

(** ** Devices *)

(** [blk_queues] is what [BlkDevice::new] makes of the configured number, a thread
    per queue. *)
Definition blk_queues (c : VmConfig) (d : Drive) : Z :=
  let default_queues := Z.min (Z.max (wrap 16 (vcpu_count (machine_config c))) 1) 4 in
  Z.min (Z.max (default default_queues (num_queues d)) 1) BLK_MAX_QUEUES.

Definition attach_drive (c : VmConfig) (d : Drive) (slot : Z) : M Z :=
  must (OpenDisk (ascii_bytes (d_path_on_host d))) ;;
  each (fun i => must (SpawnThread (ascii_bytes "virtio-blk-" ++ show (Z.of_nat i)))) (seq 0 (Z.to_nat (blk_queues c d))) ;;
  must (Attach (blk_queues c d + 1) slot) ;;
  mret (u32 (slot + 1)).

Fixpoint attach_drives (c : VmConfig) (ds : list Drive) (slot : Z) : M Z :=
  match ds with
  | [] => mret slot
  | d :: ds => slot ← attach_drive c d slot; attach_drives c ds slot
  end.

Definition attach_console (slot : Z) : M Z :=
  must (SpawnThread (ascii_bytes "console reader")) ;;
  must (Attach 4 slot) ;;
  mret (u32 (slot + 1)).

Definition attach_vsock (v : VsockConfig) (slot : Z) : M Z :=
  check (VMADDR_CID_HOST <? guest_cid v) ;;
  must OpenVhostVsock ;;
  must (Attach 4 slot) ;;
  mret (u32 (slot + 1)).

Definition attach_net (n : Network) (slot : Z) : M Z :=
  check (match parsed_mac n with inr _ => true | inl _ => false end) ;;
  Tap_open (cfg_tap_name n) ;;
  must OpenVhostNet ;;
  must (Attach 4 slot) ;;
  mret (u32 (slot + 1)).

(** The window that could not be reserved is only a warning. *)
Definition attach_gpu (g : Gpu) (slot : Z) : M Z :=
  when (vram_limit_mib g) (fun mib => must (SetEnv (ascii_bytes "NESTRI_VRAM_LIMIT_MIB") (show mib))) ;;
  there ← ask_bool (Exists (ascii_bytes (render_node g)));
  check there ;;
  must (Attach 4 slot) ;;
  attempt OpenWindow ;;
  mret (u32 (slot + 1)).

Definition attach_forward (f : GpuForward) (slot : Z) : M Z :=
  must (ConnectBackend (ascii_bytes (gf_socket f))) ;;
  must (Attach 3 slot) ;;
  attempt OpenWindow ;;
  mret (u32 (slot + 1)).

Definition attach_opt {A} (o : option A) (f : A -> Z -> M Z) (slot : Z) : M Z :=
  match o with Some x => f x slot | None => mret slot end.

Definition serve_opt (thread : string) (path : option PathBuf) : M () :=
  if virgl then when path (fun p => serve (ascii_bytes thread) (ascii_bytes p)) else mret tt.

(** Root drive, other drives, console, vsock, network, GPU, the sockets,
    forwarding: everything before the shares. *)
Definition attach_devices (c : VmConfig) : M Z :=
  root ← need (snd <$> list_find (fun d => is_root_device d = true) (drives c));
  slot ← attach_drives c (root :: filter (fun d => is_root_device d = false) (drives c)) 1;
  slot ← attach_console slot;
  slot ← attach_opt (vsock c) attach_vsock slot;
  slot ← attach_opt (network c) attach_net slot;
  slot ← (if virgl then attach_opt (gpu c) attach_gpu slot else mret slot);
  serve_opt "nesbox-stats" (stats_socket c) ;;
  serve_opt "nesbox-control" (control_socket c) ;;
  mret slot.

(** The daemons so far, and the next slot unless something failed; one whose device
    could not be attached is dropped before those that were. *)
Fixpoint attach_shares (runtime_dir : Text) (ds : list Virtiofsd) (shares : list SharedDirectory) (slot : Z) :
    M (list Virtiofsd * option Z) :=
  match shares with
  | [] => mret (ds, Some slot)
  | shared :: shares =>
      d ← catch (Virtiofsd_spawn debug shared runtime_dir);
      match d with
      | None => mret (ds, None)
      | Some d =>
          ok ← catch (check (length (tag shared) <? FS_TAG_LEN)%nat ;;
                      must (ConnectDaemon (socket_path d)) ;;
                      must (Attach 4 slot));
          match ok with
          | None => Virtiofsd_drop d ;; mret (ds, None)
          | Some _ => attach_shares runtime_dir (ds ++ [d]) shares (u32 (slot + 1))
          end
      end
  end.

(** ** Confinement and the guest *)

Definition install_signal_handlers : M () := each (fun s => must (SetHandler s)) [SIGTERM; SIGINT; SIGUSR1].

Definition apply_filter (mode : Mode) : M () :=
  if bool_decide (mode = Off) then mret tt else must (Confine (action mode)).

(** Everything is set up: give up the network and what system calls are left. *)
Definition confine_process (c : VmConfig) : M () :=
  install_signal_handlers ;;
  (if unshare_network c then enter_network_namespace else mret tt) ;;
  mode ← need (Mode_parse (seccomp c));
  apply_filter mode.

(** On a vCPU thread.  The GPU's worker builds the renderer, which opens the card;
    the window's thread serves the backend's requests, and is there when the device
    has a window.  None of it ends the process when it fails. *)
Definition activate (c : VmConfig) (a : Activation) : M () :=
  match a with
  | ActivateGpu =>
      if virgl then
        when (gpu c) (fun g =>
          started ← attempt (SpawnThread GPU_WORKER);
          if started : bool then attempt (OpenRenderNode (ascii_bytes (render_node g))) ;; mret tt else mret tt)
      else mret tt
  | ActivateForward => when (gpu_forward c) (fun _ => attempt (SpawnThread WINDOW_THREAD) ;; mret tt)
  end.

Definition run_vcpus (c : VmConfig) (started_on : option CpuSet) : M Z :=
  let vcpus := Z.to_nat (vcpu_count (machine_config c)) in
  each (fun i => must (SpawnVcpu (Z.of_nat i) (vcpu_cgroup_fd (machine_config c))
                         (placement_of (machine_config c) started_on i)) ;;
                 each (activate c) (driver i))
    (seq 0 vcpus) ;;
  must SpawnWatcher ;;
  each (activate c) (if (0 <? vcpus)%nat then driver vcpus else []) ;;
  ask_num JoinVcpus.

Definition runtime_dir : M Text :=
  tmp ← ask_text (GetEnv (ascii_bytes "TMPDIR"));
  pid ← ask_num Getpid;
  mret (path_join_text (default (ascii_bytes "/tmp") tmp) (ascii_bytes "nesbox-" ++ show pid)).

(** ** main *)

(** A configuration this build cannot honour, or a limit nothing enforces. *)
Definition check_build (c : VmConfig) : M () :=
  if virgl then renderer_check (g ← gpu c; vram_limit_mib g)
  else check (negb (bool_decide (is_Some (gpu c)) || bool_decide (is_Some (stats_socket c)))).

Definition main_setup (c : VmConfig) : M (option CpuSet) :=
  (if unshare_network c then enter_user_namespace else mret tt) ;;
  gather_reads ;;
  check_build c ;;
  '(_, started_on) ← place_process (machine_config c);
  must OpenKvm ;;
  mret started_on.

Definition main_run (c : VmConfig) (started_on : option CpuSet) (slot : Z) : M Z :=
  dir ← runtime_dir;
  slot ← attach_opt (gpu_forward c) attach_forward slot;
  '(ds, r) ← attach_shares dir [] (shared_directories c) slot;
  code ← finally (need r ;; confine_process c ;; run_vcpus c started_on) (each Virtiofsd_drop ds);
  attempt (RemoveDir dir) ;;
  mret code.

Definition main_body (c : VmConfig) : M Z :=
  started_on ← main_setup c;
  slot ← attach_devices c;
  main_run c started_on slot.

(** [None] is a usage error; help is not modelled. *)
Definition config_path (args : list Text) : option Text :=
  snd <$> list_find (fun a => starts_with (ascii_bytes "-") a = false) args.

Definition main (args : list Text) : M Z :=
  path ← need (config_path args);
  text ← ask_text (ReadText path);
  text ← need text;
  c ← need (parse_config text);
  check (match validate (machine_config c) with None => true | Some _ => false end) ;;
  orig ← RawMode_enter;
  finally (main_body c) (RawMode_drop orig).

End Main.
