(* ===== verification/StartupFacts.v ===== *)
(** [main] in order: whatever the host answers, [main] takes everything it ever will
    before it gives anything up, no vCPU and nothing a driver has started starts before the confinement that was asked for is
    in force, and however the run ends nothing it started or changed is left behind. *)

From stdpp Require Import strings gmap sorting.
From S2P Require Import Prelude Shared Config Seccomp HostCalls Isolation Placement Processes Startup.

(** * Stages *)

(** What a call is part of: 0 the user namespace, 1 taking what the machine needs, 2
    the signal handlers, 3 giving up the network, 4 the system-call filter, 5 the
    vCPU threads, what is started and opened because a driver on one of them asks for
    it, and the thread that watches them, 6 waiting for the guest to end.  Reading,
    placing and cleaning up have no stage of their own. *)
Definition driver_thread (name : Text) : bool := bool_decide (name = GPU_WORKER) || bool_decide (name = WINDOW_THREAD).

Definition stage (c : HCall) : option nat :=
  match c with
  | Unshare f => Some (if (f =? CLONE_NEWUSER)%Z then 0 else 3)%nat
  | WriteText _ _ => Some 0%nat
  | SpawnThread name => Some (if driver_thread name then 5 else 1)%nat
  | SetEnv _ _ | SpawnProcess _ _ | Connect _ | Bind _ | OpenKvm | OpenDisk _ | OpenTun | TunSetIff _
  | TunIoctl _ _ | OpenVhostNet | OpenVhostVsock | ConnectBackend _ | ConnectDaemon _ | Attach _ _ | OpenWindow => Some 1%nat
  | SetHandler _ => Some 2%nat
  | Confine _ => Some 4%nat
  | SpawnVcpu _ _ _ | OpenRenderNode _ | SpawnWatcher => Some 5%nat
  | JoinVcpus => Some 6%nat
  | _ => None
  end.

Definition stages (l : HLog) : list nat := omap (fun e => stage (fst e)) l.


Section Order.
Context {W : Type} {HW : HostSys W}.
Context (parse_config : Text -> option VmConfig) (virgl debug : bool) (driver : nat -> list Activation).













(** * Which calls the parts make *)

Definition device_call (c : HCall) : bool :=
  match c with
  | SpawnThread name => negb (driver_thread name)
  | OpenDisk _ | Attach _ _ | OpenVhostVsock | Exists _ | OpenTun | TunSetIff _ | OpenVhostNet | SetEnv _ _
  | OpenWindow | Connect _ | RemoveFile _ | Bind _ | Chmod _ _ | ConnectBackend _ => true
  | _ => false
  end.

Definition drop_call (c : HCall) : bool := match c with Kill _ | Wait _ | RemoveFile _ => true | _ => false end.

Definition share_call (c : HCall) : bool :=
  drop_call c ||
  match c with
  | IsDir _ | CreateDirs _ | GetEnv _ | IsExecutable _ | OwnerOf _ | Getpid | SpawnProcess _ _ | Exists _ | TryWait _
  | Sleep _ | ConnectDaemon _ | Attach _ _ => true
  | _ => false
  end.

(** Reading and placement, which only the process itself sees. *)
Definition private_call (c : HCall) : bool :=
  match c with
  | ReadText _ | ReadLink _ | Geteuid | Getegid | GetEnv _ | Getpid | GetAffinity | SetAffinity _ => true
  | _ => false
  end.



Lemma own_thread (name : Text) :
  take 8 name <> take 8 GPU_WORKER -> take 8 name <> take 8 WINDOW_THREAD -> negb (driver_thread name).
Proof. intros H1 H2. unfold driver_thread. by rewrite !bool_decide_false by congruence. Qed.


Ltac allowed := walk_only; try reflexivity; eauto with only.

Lemma Tap_open_calls name : only (W := W) device_call (Tap_open name).
Proof. unfold Tap_open. allowed. Qed.

Lemma serve_calls thread path : negb (driver_thread thread) -> only (W := W) device_call (serve thread path).
Proof. intros Ht. unfold serve. allowed. Qed.

#[local] Hint Resolve Tap_open_calls serve_calls : only.
#[local] Hint Extern 1 (Is_true (negb (driver_thread _))) => by apply own_thread : only.
#[local] Hint Extern 1 (Is_true (device_call (SpawnThread _))) => by apply own_thread : only.

Lemma attach_drives_calls c ds slot : only (W := W) device_call (attach_drives c ds slot).
Proof. revert slot. induction ds as [|d ds IH]; intros slot; cbn [attach_drives]; [apply only_ret|]. unfold attach_drive. allowed. Qed.

#[local] Hint Resolve attach_drives_calls : only.

Lemma attach_forward_calls f slot : only (W := W) device_call (attach_opt f attach_forward slot).
Proof. unfold attach_opt, attach_forward. allowed. Qed.

Lemma attach_devices_calls c : only (W := W) device_call (attach_devices virgl c).
Proof.
  unfold attach_devices, attach_console, attach_opt, attach_vsock, attach_net, attach_gpu, serve_opt. allowed.
Qed.

Lemma Virtiofsd_drop_calls d : only (W := W) drop_call (Virtiofsd_drop d).
Proof. unfold Virtiofsd_drop. allowed. Qed.

Lemma first_executable_calls dirs : only (W := W) share_call (first_executable dirs).
Proof. induction dirs as [|d dirs IH]; cbn [first_executable]; allowed. Qed.

Lemma binary_path_calls : only (W := W) share_call binary_path.
Proof. unfold binary_path, resolve. pose proof first_executable_calls. allowed. Qed.

Lemma wait_turns_calls n d : only (W := W) share_call (wait_turns n d).
Proof. induction n as [|n IH]; cbn [wait_turns]; allowed. Qed.

Lemma drop_shares d : only (W := W) share_call (Virtiofsd_drop d).
Proof. eapply only_weaken; [|apply Virtiofsd_drop_calls]. by intros []. Qed.

#[local] Hint Resolve binary_path_calls wait_turns_calls drop_shares : only.

Lemma Virtiofsd_spawn_calls sh dir : only (W := W) share_call (Virtiofsd_spawn debug sh dir).
Proof. unfold Virtiofsd_spawn, wait_for_socket. allowed. Qed.

#[local] Hint Resolve Virtiofsd_spawn_calls : only.

Lemma attach_shares_calls dir ds shares slot : only (W := W) share_call (attach_shares debug dir ds shares slot).
Proof. revert ds slot. induction shares as [|sh shares IH]; intros ds slot; cbn [attach_shares]; allowed. Qed.

Lemma drop_all_calls ds : only (W := W) drop_call (each Virtiofsd_drop ds).
Proof. apply only_each. intros d. apply Virtiofsd_drop_calls. Qed.

Lemma runtime_dir_calls : only (W := W) private_call runtime_dir.
Proof. unfold runtime_dir. allowed. Qed.

Lemma check_build_calls c : only (W := W) private_call (check_build virgl c).
Proof. unfold check_build, renderer_check, vram_budget. allowed. Qed.

Lemma gather_reads_calls : only (W := W) private_call gather_reads.
Proof.
  assert (forall seen paths file, only (W := W) private_call (effective_reads seen paths file)) as He.
  { intros seen paths file. revert seen. induction paths as [|p paths IH]; intros seen; cbn [effective_reads]; allowed. }
  unfold gather_reads, look_reads. allowed.
Qed.


Lemma place_process_calls c : only (W := W) private_call (place_process c).
Proof. unfold place_process, current, apply. allowed. Qed.

(** * The stages of main *)














End Order.

(** * What has to come first *)

Section Guards.
Context {W : Type} {HW : HostSys W} (T : HCall -> bool).

(** Before any call of [T] the log is as [F] says. *)
Definition guarded (F : HLog -> Prop) (l : HLog) : Prop := forall l1 e l2, l = l1 ++ e :: l2 -> T (fst e) -> F l1.

Definition without : HLog -> Prop := calls (fun c => negb (T c)).

(** [m] makes no call of [T], and [e] is in the log where it succeeds. *)
Definition gives {A} (m : HostM (W := W) A) (e : HCall * HReply) : Prop :=
  logs m (fun l r => without l /\ (is_Some r -> e ∈ l)).

Lemma without_guarded F l : without l -> guarded F l.
Proof.
  intros Hl l1 e l2 -> He. apply Forall_app in Hl as [_ Hl]. apply Forall_cons in Hl as [Hl _]. simpl in Hl. by destruct (T (fst e)).
Qed.

Lemma guarded_app F l l' : without l -> guarded (fun k => F (l ++ k)) l' -> guarded F (l ++ l').
Proof.
  intros Hl Hg l1 e l2 E He. apply app_eq_inv in E as [(k & E1 & E2)|(k & -> & E2)]; [|by apply (Hg k e l2)].
  destruct k as [|e' k].
  - rewrite app_nil_r in E1. subst. rewrite <- (app_nil_r l1). by apply (Hg [] e l2).
  - injection E2 as <- ->. by apply (without_guarded F l Hl l1 e k).
Qed.

Lemma guarded_after F l l' : guarded F l -> without l' -> guarded F (l ++ l').
Proof.
  intros Hg Hl l1 e l2 E He. apply app_eq_inv in E as [(k & -> & E2)|(k & -> & E2)].
  - destruct k as [|e' k]; [|injection E2 as <- ->; by apply (Hg l1 e k)].
    exfalso. by apply (without_guarded (fun _ => False) l' Hl [] e l2).
  - exfalso. by apply (without_guarded (fun _ => False) l' Hl k e l2).
Qed.

Lemma guard_bind {A B} (m : HostM A) (f : A -> HostM (W := W) B) (G F : HLog -> Prop) :
  logs m (fun l r => without l /\ (is_Some r -> G l)) ->
  (forall a l, G l -> logs (f a) (fun l' _ => guarded (fun k => F (l ++ k)) l')) ->
  logs (m ≫= f) (fun l _ => guarded F l).
Proof.
  intros Hm Hf. apply logs_bind. eapply logs_weaken; [exact Hm|]. intros l [a|] [Hl HG]; [|by apply without_guarded].
  eapply logs_weaken; [apply Hf; eauto|]. intros l' r' Hl'. by apply guarded_app.
Qed.

Lemma guard_free {A B} (m : HostM A) (f : A -> HostM (W := W) B) (F : HLog -> Prop) :
  only (fun c => negb (T c)) m -> (forall a l, logs (f a) (fun l' _ => guarded (fun k => F (l ++ k)) l')) ->
  logs (m ≫= f) (fun l _ => guarded F l).
Proof.
  intros Hm Hf. apply (guard_bind m f (fun _ => True)); [|by eauto]. eapply logs_weaken; [exact Hm|]. by intros l r Hl.
Qed.

Lemma gives_must c : T c = false -> gives (must c) (c, HOk).
Proof.
  intros Hc. apply logs_bind, logs_ask. intros r. assert (without [(c, r)]) as Hw by (repeat constructor; simpl; by rewrite Hc).
  destruct r; try (apply logs_fail; split; [done|by intros []]). apply logs_ret. split; [done|]. intros _. by left.
Qed.

Lemma gives_bind_l {A B} (m : HostM A) (f : A -> HostM (W := W) B) e :
  gives m e -> (forall a, only (fun c => negb (T c)) (f a)) -> gives (m ≫= f) e.
Proof.
  intros Hm Hf. apply logs_bind. eapply logs_weaken; [exact Hm|]. intros l [a|] [Hl HG]; [|split; [done|by intros []]].
  eapply logs_weaken; [apply Hf|]. intros l' r' Hl'. split; [by apply Forall_app|]. intros _. apply elem_of_app. eauto.
Qed.

Lemma gives_bind_r {A B} (m : HostM A) (f : A -> HostM (W := W) B) e :
  only (fun c => negb (T c)) m -> (forall a, gives (f a) e) -> gives (m ≫= f) e.
Proof.
  intros Hm Hf. apply logs_bind. eapply logs_weaken; [exact Hm|]. intros l [a|] Hl; [|split; [done|by intros []]].
  eapply logs_weaken; [apply Hf|]. intros l' r' [Hl' HG]. split; [by apply Forall_app|]. intros Hr. apply elem_of_app. eauto.
Qed.

End Guards.

(** ** The guest runs confined *)

Definition is_setenv (c : HCall) : bool := match c with SetEnv _ _ => true | _ => false end.


Section Confined.
Context {W : Type} {HW : HostSys W}.
Context (parse_config : Text -> option VmConfig) (virgl debug : bool) (driver : nat -> list Activation).

Lemma free_of {A} (K T : HCall -> bool) (m : HostM (W := W) A) :
  (forall c, K c -> negb (T c)) -> only K m -> only (fun c => negb (T c)) m.
Proof. intros Hi. by apply only_weaken. Qed.

Lemma user_namespace_entered T :
  (forall c, private_call c || match c with Geteuid | Getegid | WriteText _ _ | Unshare _ => true | _ => false end -> negb (T c)) ->
  gives (W := W) T enter_user_namespace (Unshare CLONE_NEWUSER, HOk).
Proof.
  intros Hf. assert (forall c, private_call c || match c with Geteuid | Getegid | WriteText _ _ | Unshare _ => true | _ => false end ->
    T c = false) as Hf' by (intros c Hc; specialize (Hf c Hc); by destruct (T c)).
  unfold enter_user_namespace. do 4 (apply gives_bind_r; [walk_only; by apply Hf|intros]).
  apply gives_bind_l; [apply gives_must; by apply Hf'|]. intros _. walk_only; by apply Hf.
Qed.

Lemma main_setup_gives T c :
  (forall k, private_call k || match k with Geteuid | Getegid | WriteText _ _ | Unshare _ | OpenKvm => true | _ => false end -> negb (T k)) ->
  logs (W := W) (main_setup virgl c) (fun l r => without T l /\
    (is_Some r -> unshare_network c = true -> (Unshare CLONE_NEWUSER, HOk) ∈ l)).
Proof.
  intros Hf. unfold main_setup. assert (only (W := W) (fun c => negb (T c)) (gather_reads ;; check_build virgl c ;;
    '(_, started_on) ← place_process (machine_config c); must OpenKvm ;; mret started_on)) as Hrest.
  { apply only_bind; [eapply free_of; [|apply gather_reads_calls]; intros k Hk; apply Hf, orb_prop_intro; by left|intros _].
    apply only_bind; [eapply free_of; [|apply check_build_calls]; intros k Hk; apply Hf, orb_prop_intro; by left|intros _].
    apply only_bind; [eapply free_of; [|apply place_process_calls]; intros k Hk; apply Hf, orb_prop_intro; by left|intros [_ s]].
    walk_only. by apply Hf. }
  destruct (unshare_network c).
  - eapply logs_weaken; [apply (gives_bind_l T _ _ (Unshare CLONE_NEWUSER, HOk))|naive_solver].
    + apply user_namespace_entered. intros k Hk. apply Hf. destruct k; simpl in *; done.
    + intros _. exact Hrest.
  - eapply logs_weaken; [apply only_bind; [apply only_ret|intros _; exact Hrest]|]. intros l r Hl. split; [exact Hl|done].
Qed.










(** ** The environment *)

(** A thread of this process has been started. *)
Definition threaded (l : HLog) : Prop := exists name, (SpawnThread name, HOk) ∈ l.

Lemma attach_devices_threaded c :
  logs (W := W) (attach_devices virgl c) (fun l _ => guarded is_setenv threaded l).
Proof.
  assert (forall ds slot, only (W := W) (fun c => negb (is_setenv c)) (attach_drives c ds slot)) as Hd.
  { intros ds. induction ds as [|d ds IH]; intros slot; cbn [attach_drives]; unfold attach_drive; walk_only; done || apply IH. }
  assert (forall l l' name, (SpawnThread name, HOk) ∈ l -> threaded (l ++ l')) as Ht.
  { intros l l' name Hn. exists name. apply elem_of_app. by left. }
  unfold attach_devices. apply guard_free; [apply only_need|intros root l1].
  apply guard_free; [apply Hd|intros slot l2].
  apply (guard_bind _ _ _ (fun l => exists name, (SpawnThread name, HOk) ∈ l)).
  - eapply logs_weaken; [apply (gives_bind_l is_setenv _ _ (SpawnThread (ascii_bytes "console reader"), HOk))|].
    + by apply gives_must.
    + intros _. walk_only; done.
    + intros l r [Hl Hg]. split; [done|]. eauto.
  - intros slot' l3 [name Hn].
    assert (forall (m : HostM (W := W) Z), only (fun _ => True) m ->
      logs m (fun l' _ => guarded is_setenv (fun k => threaded (l1 ++ l2 ++ l3 ++ k)) l')) as Hall.
    { intros m Hm. eapply logs_weaken; [exact Hm|]. intros l r _ k1 e k2 _ _. exists name. rewrite !elem_of_app. eauto 12. }
    apply Hall. eapply only_weaken; [|apply (only_bind device_call)]; [done| |].
    + unfold attach_opt, attach_vsock. walk_only; done.
    + intros s. pose proof (Tap_open_calls (W := W)). pose proof (serve_calls (W := W)).
      unfold attach_opt, attach_net, attach_gpu, serve_opt. walk_only; done || eauto.
Qed.

End Confined.

(** * What is left at the end *)

(** The children of a log, each with whether it has been killed; one that was is
    gone once it has been waited for. *)
Definition child_step (s : list (Z * bool)) (e : HCall * HReply) : list (Z * bool) :=
  match e with
  | (SpawnProcess _ _, HNum p) => s ++ [(p, false)]
  | (Kill p, _) => (fun x => if fst x =? p then (p, true) else x) <$> s
  | (Wait p, _) => filter (fun x => x <> (p, true)) s
  | _ => s
  end.

Definition children (s : list (Z * bool)) (l : HLog) : list (Z * bool) := foldl child_step s l.

(** Whether the terminal is raw. *)
Definition raw_step (b : bool) (e : HCall * HReply) : bool :=
  match e with
  | (SetTerminal true, HOk) => true
  | (SetTerminal false, _) => false
  | _ => b
  end.

Definition raw_after (b : bool) (l : HLog) : bool := foldl raw_step b l.

Definition child_call (c : HCall) : bool := match c with SpawnProcess _ _ | Kill _ | Wait _ => true | _ => false end.
Definition terminal_call (c : HCall) : bool := match c with SetTerminal _ => true | _ => false end.

Section Behind.
Context {W : Type} {HW : HostSys W}.
Context (parse_config : Text -> option VmConfig) (virgl debug : bool) (driver : nat -> list Activation).

Lemma children_app s l l' : children s (l ++ l') = children (children s l) l'.
Proof. apply foldl_app. Qed.

Lemma children_same s l : calls (fun c => negb (child_call c)) l -> children s l = s.
Proof. intros Hl. revert s. induction Hl as [|[c r] l Hc Hl IH]; intros s; [done|]. simpl. rewrite IH. by destruct c, r. Qed.

Lemma raw_same b l : calls (fun c => negb (terminal_call c)) l -> raw_after b l = b.
Proof. intros Hl. revert b. induction Hl as [|[c r] l Hc Hl IH]; intros b; [done|]. simpl. rewrite IH. by destruct c. Qed.

(** Every child is one of the daemons. *)
Definition accounted (ds : list Virtiofsd) (s : list (Z * bool)) : Prop := forall x, x ∈ s -> fst x ∈ child <$> ds.

Lemma kill_wait p (s : list (Z * bool)) :
  filter (fun x => x <> (p, true)) ((fun x : Z * bool => if fst x =? p then (p, true) else x) <$> s) = filter (fun x => fst x <> p) s.
Proof.
  induction s as [|[q b] s IH]; [done|]. cbn [fmap list_fmap fst]. destruct (Z.eqb_spec q p) as [->|Hq].
  - rewrite filter_cons_False by (intros H; by apply H). rewrite filter_cons_False by (intros H; by apply H). exact IH.
  - rewrite filter_cons_True by congruence. rewrite filter_cons_True by done. by f_equal.
Qed.

Lemma drop_reaps d s :
  logs (W := W) (Virtiofsd_drop d) (fun l r => r = Some tt /\ children s l = filter (fun x => fst x <> child d) s).
Proof.
  unfold Virtiofsd_drop. do 4 (apply logs_bind, logs_ask; intros ?). apply logs_ret. split; [done|]. simpl. apply kill_wait.
Qed.

Lemma drop_all_reaps ds s :
  logs (W := W) (each Virtiofsd_drop ds) (fun l _ => children s l = filter (fun x => fst x ∉ child <$> ds) s).
Proof.
  revert s. induction ds as [|d ds IH]; intros s; cbn [each].
  - apply logs_ret. simpl. induction s as [|x s IH]; [done|]. rewrite filter_cons_True by apply not_elem_of_nil. by f_equal.
  - apply logs_bind. eapply logs_weaken; [apply (drop_reaps d s)|]. intros l r [-> Hl].
    eapply logs_weaken; [apply (IH (children s l))|]. intros l' r' Hl'. rewrite children_app, Hl', Hl, list_filter_filter.
    apply list_filter_iff. intros x. rewrite fmap_cons, not_elem_of_cons. tauto.
Qed.

Lemma none_left ds s : accounted ds s -> filter (fun x => fst x ∉ child <$> ds) s = [].
Proof.
  intros Hs. destruct (filter _ s) as [|x l] eqn:E; [done|]. assert (x ∈ filter (fun x => fst x ∉ child <$> ds) s) as Hx by (rewrite E; by left).
  apply list_elem_of_filter in Hx as [Hn Hx]. by destruct Hn; apply Hs.
Qed.

Lemma spawn_children sh dir s :
  logs (W := W) (Virtiofsd_spawn debug sh dir) (fun l r =>
    match r with
    | Some d => children s l = s ++ [(child d, false)]
    | None => children s l ⊆ s
    end).
Proof.
  unfold Virtiofsd_spawn.
  assert (forall A (m : HostM (W := W) A), only (fun c => negb (child_call c)) m -> forall B (f : A -> HostM B) Q,
    (forall a, logs (f a) (fun l r => match r with Some d => children s l = Q d | None => children s l ⊆ s end)) ->
    logs (m ≫= f) (fun l r => match r with Some d => children s l = Q d | None => children s l ⊆ s end)) as Skip.
  { intros A m Hm B f Q Hf. apply logs_bind. eapply logs_weaken; [exact Hm|]. intros l [a|] Hl; [|by rewrite children_same].
    eapply logs_weaken; [apply Hf|]. intros l' r'. by rewrite children_app, (children_same s l). }
  assert (only (W := W) (fun c => negb (child_call c)) binary_path) as Hb.
  { unfold binary_path, resolve. walk_only; try done.
    match goal with |- only _ (first_executable ?d) => generalize d end. intros dirs.
    induction dirs as [|dir' dirs IH]; cbn [first_executable]; walk_only; done. }
  do 4 (apply Skip; [walk_only; done|intros]). apply Skip; [exact Hb|intros binary].
  apply Skip; [walk_only; done|intros owner]. apply Skip; [walk_only; done|intros _].
  apply logs_bind. unfold ask_num. apply logs_bind, logs_ask. intros r.
  destruct r as [| | |pid| | | | |]; try (apply logs_fail; simpl; done). apply logs_ret. cbn [app].
  assert (only (W := W) (fun c => negb (child_call c)) (wait_for_socket {| child := pid; socket_path := path_join_text dir (socket_name (tag sh)) |})) as Hw.
  { unfold wait_for_socket. generalize 100%nat. intros n. induction n as [|n IH]; cbn [wait_turns]; walk_only; done. }
  apply logs_bind, logs_on_error. eapply logs_weaken; [exact Hw|]. intros l [[]|] Hl; simpl in Hl.
  - apply logs_ret. rewrite app_nil_r. cbn [app children foldl child_step]. fold (children (s ++ [(pid, false)]) l). by rewrite children_same.
  - eapply logs_weaken; [apply (drop_reaps _ (s ++ [(pid, false)]))|]. intros l' r' [_ Hr]. cbn [app children foldl child_step child] in *.
    fold (children (s ++ [(pid, false)]) (l ++ l')). rewrite children_app, (children_same _ l), Hr by done.
    rewrite filter_app, filter_cons_False, app_nil_r by (intros H; by apply H). intros x Hx. by apply list_elem_of_filter in Hx as [_ Hx].
Qed.

Lemma shares_children dir ds shares slot s :
  accounted ds s ->
  logs (W := W) (attach_shares debug dir ds shares slot) (fun l r =>
    match r with Some (ds', _) => accounted ds' (children s l) | None => False end).
Proof.
  revert ds slot s. induction shares as [|sh shares IH]; intros ds slot s Hs; cbn [attach_shares]; [by apply logs_ret|].
  apply logs_bind, logs_catch. eapply logs_weaken; [apply (spawn_children sh dir s)|]. intros l [d|] Hl.
  2: { apply logs_ret. rewrite app_nil_r. intros x Hx. apply Hs. by apply Hl. }
  assert (accounted (ds ++ [d]) (children s l)) as Hd.
  { intros x. rewrite Hl, fmap_app, !elem_of_app. intros [Hx|Hx]; [left; by apply Hs|]. right.
    apply list_elem_of_singleton in Hx as ->. by left. }
  apply logs_bind, logs_catch. eapply logs_weaken; [apply (only_bind (fun c => negb (child_call c))); [walk_only|intros; walk_only; done]|].
  intros l' [[]|] Hl'.
  - eapply logs_weaken; [apply (IH _ _ _ Hd)|]. intros l2 r2. by rewrite !children_app, (children_same _ l').
  - apply logs_bind. eapply logs_weaken; [apply (drop_reaps d (children s l))|]. intros l2 r2 [-> Hr]. apply logs_ret.
    rewrite app_nil_r, !children_app, (children_same _ l'), Hr by done. intros x [Hx Hin]%list_elem_of_filter.
    specialize (Hd x Hin). rewrite fmap_app, elem_of_app in Hd. destruct Hd as [Hd|Hd]; [done|].
    by apply list_elem_of_singleton in Hd.
Qed.

(** A part that starts no child and ends none. *)
Lemma children_skip {A B} (m : HostM (W := W) A) (f : A -> HostM B) (Q : HLog -> option B -> Prop) :
  only (fun c => negb (child_call c)) m ->
  (forall l, children [] l = [] -> Q l None) ->
  (forall a l, children [] l = [] -> logs (f a) (fun l' r => Q (l ++ l') r)) -> logs (m ≫= f) Q.
Proof.
  intros Hm HN Hf. apply logs_bind. eapply logs_weaken; [exact Hm|]. intros l [a|] Hl; [apply Hf|apply HN]; by apply children_same.
Qed.

Lemma main_run_children c started slot : logs (W := W) (main_run virgl debug driver c started slot) (fun l _ => children [] l = []).
Proof.
  unfold main_run. apply children_skip; [eapply free_of; [|apply runtime_dir_calls]; by intros []|done|intros dir l1 E1].
  apply children_skip; [eapply free_of; [|apply attach_forward_calls]; by intros []|intros l2 E2; by rewrite children_app, E1|
    intros slot' l2 E2].
  apply logs_bind. eapply logs_weaken; [apply (shares_children dir [] (shared_directories c) slot' []); by intros x Hx%elem_of_nil|].
  intros l3 [[ds r]|] H3; [|done]. apply logs_bind, logs_finally.
  assert (only (W := W) (fun c => negb (child_call c)) (need r ;; confine_process c ;; run_vcpus virgl driver c started)) as Hg.
  { unfold confine_process, install_signal_handlers, enter_network_namespace, apply_filter, run_vcpus, activate. walk_only; done. }
  eapply logs_weaken; [exact Hg|]. intros l4 r4 H4. eapply logs_weaken; [apply (drop_all_reaps ds (children [] l3))|].
  intros l5 r5 H5. assert (children [] (l1 ++ l2 ++ l3 ++ l4 ++ l5) = []) as E.
  { rewrite !children_app, E1, E2, (children_same _ l4), H5 by done.
    by apply none_left. }
  destruct r4 as [code|]; [|exact E]. eapply logs_weaken; [apply (only_bind (fun c => negb (child_call c))); [by walk_only|intros; by walk_only]|].
  intros l6 r6 H6. rewrite !app_assoc in *. by rewrite children_app, E, children_same.
Qed.

Lemma main_body_children c : logs (W := W) (main_body virgl debug driver c) (fun l _ => children [] l = []).
Proof.
  unfold main_body. apply children_skip; [|done|intros started l1 E1].
  { eapply logs_weaken; [apply (main_setup_gives virgl child_call); by intros []|]. by intros l r [Hl _]. }
  apply children_skip; [eapply free_of; [|apply attach_devices_calls]; by intros []|intros l2 E2; by rewrite children_app, E1|
    intros slot l2 E2].
  eapply logs_weaken; [apply main_run_children|]. intros l3 r E3. by rewrite !children_app, E1, E2.
Qed.

Lemma main_body_terminal c : only (W := W) (fun k => negb (terminal_call k)) (main_body virgl debug driver c).
Proof.
  unfold main_body, main_run. apply only_bind; [|intros started].
  { eapply logs_weaken; [apply (main_setup_gives virgl terminal_call); by intros []|]. by intros l r [Hl _]. }
  apply only_bind; [eapply free_of; [|apply attach_devices_calls]; by intros []|intros slot].
  apply only_bind; [eapply free_of; [|apply runtime_dir_calls]; by intros []|intros dir].
  apply only_bind; [eapply free_of; [|apply attach_forward_calls]; by intros []|intros slot'].
  apply only_bind; [eapply free_of; [|apply attach_shares_calls]; by intros []|intros [ds r]].
  apply only_bind; [apply only_finally; [|eapply free_of; [|apply drop_all_calls]; by intros []]|].
  - unfold confine_process, install_signal_handlers, enter_network_namespace, apply_filter, run_vcpus, activate. walk_only; done.
  - intros code. by walk_only.
Qed.

End Behind.

(** * main *)

(** Up to the configuration: nothing but reading it. *)
Lemma main_reads {W : Type} {HW : HostSys W} parse_config virgl debug driver args (Q : HLog -> option Z -> Prop) :
  (forall l, calls private_call l -> Q l None) ->
  (forall path text c, config_path args = Some path -> parse_config text = Some c ->
     logs (W := W) (orig ← RawMode_enter; finally (main_body virgl debug driver c) (RawMode_drop orig))
       (fun l r => Q ((ReadText path, HText text) :: l) r)) ->
  logs (W := W) (main parse_config virgl debug driver args) Q.
Proof.
  intros HN HQ. unfold main. apply logs_bind. destruct (config_path args) as [path|]; cbn [need]; [|apply logs_fail, HN; constructor].
  apply logs_ret. cbn [app]. unfold ask_text. apply logs_bind, logs_bind, logs_ask. intros r. apply logs_ret. cbn [app].
  assert (Q [(ReadText path, r)] None) as Hr by (apply HN; by repeat constructor).
  destruct r as [| | | | |text| | |]; cbn [need]; try (by apply logs_bind, logs_fail).
  apply logs_bind, logs_ret. cbn [app]. apply logs_bind. destruct (parse_config text) as [c|] eqn:Ec; cbn [need]; [|by apply logs_fail].
  apply logs_ret. cbn [app]. apply logs_bind. destruct (validate _); cbn [check]; [by apply logs_fail|]. apply logs_ret. cbn [app].
  by apply HQ.
Qed.





(** C24: However the run ends -- an error anywhere on the way up, a panic, or the end
    of the guest -- it leaves nothing behind: every virtiofsd it started has been
    killed and then waited for, and a terminal it made raw has been set back. *)
Theorem nothing_left_behind {W : Type} {HW : HostSys W} parse_config virgl debug driver args :
  logs (W := W) (main parse_config virgl debug driver args) (fun l r => children [] l = [] /\ raw_after false l = false).
Proof.
  apply main_reads.
  { intros l Hl. split; [apply children_same|apply raw_same]; (eapply Forall_impl; [exact Hl|]; by intros [[] ?]). }
  intros path text c _ _. apply logs_bind.
  assert (logs (W := W) RawMode_enter (fun l r => children [] l = [] /\ raw_after false l = default false r)) as Hr.
  { unfold RawMode_enter, ask_bool. apply logs_bind, logs_bind, logs_ask. intros r. apply logs_ret. cbn [app].
    destruct r as [| |[]| | | | | |]; try (by apply logs_ret). apply logs_bind. unfold must at 1. apply logs_bind, logs_ask.
    intros []; try (by apply logs_fail). apply logs_ret. cbn [app]. apply logs_bind. unfold must. apply logs_bind, logs_ask.
    intros []; (by apply logs_fail) || (by do 2 apply logs_ret). }
  eapply logs_weaken; [exact Hr|]. intros l1 [orig|] [E1 R1].
  2: { split; [exact E1|exact R1]. }
  apply logs_finally. eapply logs_weaken; [apply (logs_and _ _ _ (main_body_children virgl debug driver c) (main_body_terminal virgl debug driver c))|].
  intros l2 r2 [E2 T2]. simpl in R1.
  assert (logs (W := W) (RawMode_drop orig) (fun l _ => children [] l = [] /\ raw_after orig l = false)) as Hd.
  { unfold RawMode_drop. destruct orig; [|by apply logs_ret]. apply logs_bind, logs_ask. intros r. by apply logs_ret. }
  eapply logs_weaken; [exact Hd|]. intros l3 r3 [E3 R3].
  change ((ReadText path, HText text) :: l1 ++ l2 ++ l3) with ([(ReadText path, HText text)] ++ l1 ++ l2 ++ l3).
  rewrite !children_app. unfold raw_after in *. rewrite !foldl_app. cbn [children foldl child_step raw_step].
  fold (children [] l1). rewrite E1. fold (children [] l2). rewrite E2. split; [exact E3|].
  pose proof (raw_same orig l2 T2) as S2. unfold raw_after in S2. by rewrite R1, S2.
Qed.

(** The environment variable that carries the VRAM limit is always set while
    another thread of the process runs: where [set_var] is called, the console's
    reader thread has been started before. *)
Theorem environment_set_among_threads {W : Type} {HW : HostSys W} parse_config virgl debug driver args :
  logs (W := W) (main parse_config virgl debug driver args) (fun l r =>
    forall l1 e l2, l = l1 ++ e :: l2 -> is_setenv (fst e) -> exists name, (SpawnThread name, HOk) ∈ l1).
Proof.
  apply main_reads.
  { intros l Hl. apply (without_guarded is_setenv). eapply Forall_impl; [exact Hl|]. by intros [[] ?]. }
  intros path text c _ _.
  assert (logs (W := W) (orig ← RawMode_enter; finally (main_body virgl debug driver c) (RawMode_drop orig))
    (fun l _ => guarded is_setenv (fun k => threaded ((ReadText path, HText text) :: k)) l)) as H.
  { apply guard_free; [unfold RawMode_enter; walk_only; done|intros orig l1]. apply logs_finally. unfold main_body.
    eapply logs_weaken with (Q := fun l _ => guarded is_setenv threaded l).
    - eapply guard_bind; [apply (main_setup_gives virgl is_setenv); by intros []|]. intros started k1 _. apply logs_bind.
      eapply logs_weaken; [apply attach_devices_threaded|]. intros k2 r2 H2.
      assert (guarded is_setenv (fun k => threaded (k1 ++ k)) k2) as H2'.
      { intros j1 e j2 E He. destruct (H2 j1 e j2 E He) as [name Hn]. exists name. apply elem_of_app. by right. }
      destruct r2 as [slot|]; [|done].
      assert (only (W := W) (fun c => negb (is_setenv c)) (main_run virgl debug driver c started slot)) as Hm.
      { unfold main_run. apply only_bind; [eapply free_of; [|apply runtime_dir_calls]; by intros []|intros dir].
        apply only_bind; [unfold attach_opt, attach_forward; walk_only; done|intros slot'].
        apply only_bind; [eapply free_of; [|apply attach_shares_calls]; by intros []|intros [ds r]].
        apply only_bind; [apply only_finally; [|eapply free_of; [|apply drop_all_calls]; by intros []]|intros code; by walk_only].
        unfold confine_process, install_signal_handlers, enter_network_namespace, apply_filter, run_vcpus, activate. walk_only; done. }
      eapply logs_weaken; [exact Hm|]. intros k3 r3 H3. by apply guarded_after.
    - intros l2 r2 H2. assert (only (W := W) (fun c => negb (is_setenv c)) (RawMode_drop orig)) as Hd by (unfold RawMode_drop; walk_only; done).
      eapply logs_weaken; [exact Hd|]. intros l3 r3 H3. apply guarded_after; [|done]. intros k1 e k2 E He.
      destruct (H2 k1 e k2 E He) as [name Hn]. exists name. rewrite elem_of_cons, elem_of_app. tauto. }
  eapply logs_weaken; [exact H|]. intros l r Hg l1 e l2 E He. destruct l1 as [|e1 l1]; [by injection E as <- _|].
  injection E as <- ->. by apply (Hg l1 e l2).
Qed.

(** * A run that reaches the guest *)

Definition one_box : VmConfig :=
  {| boot_source := BootSource_default;
     drives := [{| drive_id := []; d_path_on_host := "/disk"; is_root_device := true; is_read_only := false; direct := None;
                   num_queues := None; poll_us := None |}];
     machine_config := MachineConfig_default; vsock := None;
     shared_directories := [{| tag := ascii_bytes "games"; sd_path_on_host := "/games"; read_only := true; guest_owner := None |}];
     network := None;
     gpu := Some {| render_node := "/dev/dri/renderD128"; width := 0; height := 0; vram_limit_mib := Some 512;
                    host_visible_window_mib := None; host_visible_max_mappings := None; gpu_poll_us := 50;
                    gpu_time_percent := None; gpu_worker_cpus := None; worker_slice_us := None |};
     gpu_forward := None; stats_socket := Some "/run/stats"; control_socket := None; seccomp := "enforce";
     unshare_network := true |}.

(** A host where every call works, and the child's process id is 77. *)
#[local] Instance Willing : HostSys () := {
  hsys w c :=
    (w, match c with
        | ReadText p => if bool_decide (p = ascii_bytes "/proc/self/status") then HText (ascii_bytes "Threads: 1") else HText []
        | Exists p => HBool (negb (bool_decide (p = ascii_bytes "/run/stats")))
        | IsDir _ | IsExecutable _ | IsATty => HBool true
        | GetEnv _ => HErr
        | Geteuid | Getegid | Getpid => HNum 1000
        | SpawnProcess _ _ => HNum 77
        | JoinVcpus => HNum 0
        | GetAffinity => HCpus {[0]}
        | _ => HOk
        end)
}.

(** The user namespace and its maps, the opening of everything, the handlers, the
    network, the filter, two vCPUs, the watcher, the GPU's worker and the card it opens
    once the driver asks for it, and their end. *)
Example one_box_runs :
  let '((_, l), r) := main (fun _ => Some one_box) true false (fun n => if decide (n = 2%nat) then [ActivateGpu; ActivateForward] else []) [ascii_bytes "box.json"] (tt, []) in
  r = Some 0 /\ stages l = replicate 4 0%nat ++ replicate 15 1%nat ++ [2; 2; 2; 3; 4; 5; 5; 5; 5; 5; 6]%nat /\
  length (filter (fun e => is_setenv (fst e) = true) l) = 1%nat.
Proof. vm_compute. auto. Qed.
