(* ===== verification/Budget.v ===== *)
(** The ceiling on a guest's share of the card: the token bucket of
    [virtio-devices/src/gpu/budget.rs], the accounting it reads from the kernel
    ([occupancy.rs], [clock.rs]), how the metrics join them ([metrics.rs]) and the
    request that changes the limit ([vmm/src/control.rs]).

    Floating point is binary64, rounded to nearest even, as the Standard Library
    specifies it.  The clock, the counters and the stop flag are what the loop sees
    on each of its turns, a [Turn]; durations and instants are nanoseconds. *)

From stdpp Require Import strings.
From Stdlib Require Import SpecFloat.
From S2P Require Import Prelude Shared Processes.

(** * Binary64 *)

Abbreviation f64 := spec_float.

Definition fadd : f64 -> f64 -> f64 := SFadd 53 1024.
Definition fsub : f64 -> f64 -> f64 := SFsub 53 1024.
Definition fmul : f64 -> f64 -> f64 := SFmul 53 1024.
Definition fdiv : f64 -> f64 -> f64 := SFdiv 53 1024.

(** An integer [as f64]. *)
Definition f64_of (n : Z) : f64 := binary_normalize 53 1024 n 0 false.

(** [f64::clamp]. *)
Definition fclamp (x lo hi : f64) : f64 :=
  let x := if SFltb x lo then lo else x in
  if SFltb hi x then hi else x.

(** [as u64]: towards zero, saturating, nothing for a NaN. *)
Definition f64_to_u64 (x : f64) : Z :=
  match x with
  | S754_finite false m e => Z.min (2 ^ 64 - 1) (if 0 <=? e then Z.pos m * 2 ^ e else Z.pos m / 2 ^ (- e))
  | S754_infinity false => 2 ^ 64 - 1
  | _ => 0
  end.

(** * The kernel's accounting *)

Inductive Driver := Amdgpu | I915 | Xe | Other.

#[export] Instance Driver_eq_dec : EqDecision Driver.
Proof. solve_decision. Defined.

Definition Driver_from_name (name : Text) : Driver :=
  if bool_decide (name = ascii_bytes "amdgpu") then Amdgpu
  else if bool_decide (name = ascii_bytes "i915") then I915
  else if bool_decide (name = ascii_bytes "xe") then Xe
  else Other.

Inductive Region := Device | Host.

#[export] Instance Region_eq_dec : EqDecision Region.
Proof. solve_decision. Defined.

Definition region (name : Text) : option Region :=
  if starts_with (ascii_bytes "stolen") name then None
  else if starts_with (ascii_bytes "vram") name || starts_with (ascii_bytes "local") name then Some Device
  else if starts_with (ascii_bytes "gtt") name || starts_with (ascii_bytes "system") name ||
          bool_decide (name = ascii_bytes "cpu") then Some Host
  else None.

Record Occupancy := {
  driver : Driver;
  engine_time : bool;
  gfx_ns : Z;
  compute_ns : Z;
  requested_vram_bytes : Z;
  resident_vram_bytes : Z;
  evicted_vram_bytes : Z;
  device_total_bytes : Z;
  device_resident_bytes : Z;
  host_resident_bytes : Z
}.

Definition Occupancy_default : Occupancy :=
  {| driver := Other; engine_time := false; gfx_ns := 0; compute_ns := 0; requested_vram_bytes := 0; resident_vram_bytes := 0;
     evicted_vram_bytes := 0; device_total_bytes := 0; device_resident_bytes := 0; host_resident_bytes := 0 |}.

Definition device_not_resident_bytes (o : Occupancy) : Z := Z.max 0 (device_total_bytes o - device_resident_bytes o).

(** "<n> KiB"; products wrap, as in release builds. *)
Definition parse_kib (value : Text) : option Z :=
  match words value with
  | [] => None
  | n :: rest =>
      n ← parse_uint 64 n;
      match rest with
      | [] => Some (u64 (n * 1024))
      | unit :: _ =>
          if bool_decide (unit = ascii_bytes "KiB") then Some (u64 (n * 1024))
          else if bool_decide (unit = ascii_bytes "MiB") then Some (u64 (u64 (n * 1024) * 1024))
          else if bool_decide (unit = ascii_bytes "B") then Some n
          else None
      end
  end.

(** What one line sets. *)
Inductive Field :=
  | FClient
  | FDriver (d : Driver)
  | FGfx (ns : Z)
  | FCompute (ns : Z)
  | FRequested (b : Z)
  | FEvicted (b : Z)
  | FTotal (b : Z)
  | FResident (name : Text) (b : Z).

Definition first_u64 (value : Text) : option Z := w ← head (words value); parse_uint 64 w.

(** [inr None] is a line that says nothing here, [inl] one that ends the parse. *)
Definition parse_line (line : Text) : () + option Field :=
  let some (o : option Z) (f : Z -> Field) := match o with Some n => inr (Some (f n)) | None => inl () end in
  match split_once 58 line with
  | None => inr None
  | Some (key, value) =>
      let value := trim value in
      if bool_decide (key = ascii_bytes "drm-client-id") then inr (Some FClient)
      else if bool_decide (key = ascii_bytes "drm-driver") then inr (Some (FDriver (Driver_from_name value)))
      else if bool_decide (key = ascii_bytes "drm-engine-gfx") || bool_decide (key = ascii_bytes "drm-engine-render") then
        some (first_u64 value) FGfx
      else if bool_decide (key = ascii_bytes "drm-engine-compute") then some (first_u64 value) FCompute
      else if bool_decide (key = ascii_bytes "amd-requested-vram") then some (parse_kib value) FRequested
      else if bool_decide (key = ascii_bytes "amd-evicted-vram") then some (parse_kib value) FEvicted
      else match strip_prefix (ascii_bytes "drm-total-") key with
           | Some name => if decide (region name = Some Device) then some (parse_kib value) FTotal else inr None
           | None =>
               match strip_prefix (ascii_bytes "drm-resident-") key with
               | Some name =>
                   match region name with
                   | Some _ => some (parse_kib value) (FResident name)
                   | None => inr None
                   end
               | None => inr None
               end
           end
  end.

Definition set_field (o : Occupancy) (f : Field) : Occupancy :=
  let 'Build_Occupancy dr et gfx cmp req res ev dt dres host := o in
  match f with
  | FClient => o
  | FDriver d => Build_Occupancy d et gfx cmp req res ev dt dres host
  | FGfx n => Build_Occupancy dr true n cmp req res ev dt dres host
  | FCompute n => Build_Occupancy dr et gfx n req res ev dt dres host
  | FRequested b => Build_Occupancy dr et gfx cmp b res ev dt dres host
  | FEvicted b => Build_Occupancy dr et gfx cmp req res b dt dres host
  | FTotal b => Build_Occupancy dr et gfx cmp req res ev (u64 (dt + b)) dres host
  | FResident name b =>
      let res := if bool_decide (name = ascii_bytes "vram") then b else res in
      match region name with
      | Some Device => Build_Occupancy dr et gfx cmp req res ev dt (u64 (dres + b)) host
      | Some Host => Build_Occupancy dr et gfx cmp req res ev dt dres (u64 (host + b))
      | None => Build_Occupancy dr et gfx cmp req res ev dt dres host
      end
  end.

Fixpoint parse_lines (o : Occupancy) (client : bool) (ls : list Text) : option Occupancy :=
  match ls with
  | [] => if client then Some o else None
  | l :: ls =>
      match parse_line l with
      | inl _ => None
      | inr None => parse_lines o client ls
      | inr (Some f) => parse_lines (set_field o f) (match f with FClient => true | _ => client end) ls
      end
  end.

(** [OccupancyReader::parse], on a file's text. *)
Definition parse_fdinfo (text : option Text) : option Occupancy := t ← text; parse_lines Occupancy_default false (lines t).

(** The files under /proc/self/fdinfo at one read. *)
Record FdInfo := { fd_names : option (list Text); fd_text : Text -> option Text }.

Fixpoint scan (fs : FdInfo) (names : list Text) : option (Text * Occupancy) :=
  match names with
  | [] => None
  | n :: names =>
      match parse_fdinfo (fd_text fs n) with
      | Some o => Some (n, o)
      | None => scan fs names
      end
  end.

(** [OccupancyReader::read]: the hint first, then all of them. *)
Definition read_occupancy (hint : option Text) (fs : FdInfo) : option Text * option Occupancy :=
  match fd ← hint; parse_fdinfo (fd_text fs fd) with
  | Some o => (hint, Some o)
  | None =>
      match fd_names fs with
      | None => (hint, None)
      | Some names =>
          match scan fs names with
          | Some (n, o) => (Some n, Some o)
          | None => (None, None)
          end
      end
  end.

(** * The shader clock *)

Definition to_ascii_lowercase (l : Text) : Text := (fun c => if (65 <=? c) && (c <=? 90) then c + 32 else c) <$> l.

Definition last_line (text : Text) : option Text := last (filter (fun l => trim l <> []) (lines text)).

(** The last level of pp_dpm_sclk; the product wraps. *)
Definition reference_hz (pp_dpm_sclk : Text) : option Z :=
  line ← last_line pp_dpm_sclk;
  '(_, value) ← split_once 58 line;
  digits ← strip_suffix (ascii_bytes "mhz") (to_ascii_lowercase (trim (trim_end_char 42 (trim value))));
  mhz ← parse_uint 64 (trim digits);
  if 0 <? mhz then Some (u64 (mhz * 1000000)) else None.

Definition read_hz (text : option Text) : option Z := t ← text; parse_uint 64 (trim t).

Record ShaderClock := { ref_hz : Z; last_at : Z; last_hz : Z }.

Definition FRESH : Z := 10000000.

(** [now] and what the file says at that moment. *)
Definition current_hz (c : ShaderClock) (now : Z) (file : option Text) : ShaderClock * Z :=
  if FRESH <=? Z.max 0 (now - last_at c) then
    match read_hz file with
    | Some hz => ({| ref_hz := ref_hz c; last_at := now; last_hz := hz |}, hz)
    | None => (c, last_hz c)
    end
  else (c, last_hz c).

(** The files of the card: their text, and the names in a directory. *)
Record SysFs := { sys_text : Text -> option Text; sys_dir : Text -> option (list Text) }.

Definition for_render_node (fs : SysFs) (now : Z) (render_node : Text) : option ShaderClock :=
  name ← file_name render_node;
  let device := path_join_text (path_join_text (ascii_bytes "/sys/class/drm") name) (ascii_bytes "device") in
  dpm ← sys_text fs (path_join_text device (ascii_bytes "pp_dpm_sclk"));
  ref ← reference_hz dpm;
  let hwmon := path_join_text device (ascii_bytes "hwmon") in
  names ← sys_dir fs hwmon;
  input ← find_map (fun n =>
            let dir := path_join_text hwmon n in
            label ← sys_text fs (path_join_text dir (ascii_bytes "freq1_label"));
            if bool_decide (trim label = ascii_bytes "sclk") then Some (path_join_text dir (ascii_bytes "freq1_input"))
            else None) names;
  hz ← read_hz (sys_text fs input);
  Some {| ref_hz := ref; last_at := now; last_hz := hz |}.

Definition work_of (hz ref : Z) : f64 := fdiv (f64_of hz) (f64_of ref).

(** * The budget *)

Definition UNLIMITED : Z := 100.
Definition BURST_NS : f64 := f64_of 4000000.
Definition MAX_DEBT_NS : f64 := f64_of 100000000.
Definition SAMPLE_OK : Z := 1000000.
Definition SAMPLE_HELD : Z := 200000.
Definition MAX_SLEEP : Z := 2000000.
Definition MIN_SLEEP : Z := 100000.

Record Pace := { at_ : Z; engine_ns : option Z; bank_ns : f64 }.

Record GpuBudget := { percent : Z; pace_state : Pace }.

Definition clamp_percent (p : option Z) : Z := match p with Some p => Z.min (Z.max p 1) UNLIMITED | None => UNLIMITED end.

Definition GpuBudget_set (b : GpuBudget) (p : option Z) : GpuBudget := {| percent := clamp_percent p; pace_state := pace_state b |}.

Definition GpuBudget_new (now : Z) (p : option Z) : GpuBudget :=
  GpuBudget_set {| percent := UNLIMITED; pace_state := {| at_ := now; engine_ns := None; bank_ns := BURST_NS |} |} p.

(** What one turn of the loop sees: the limit, which may have been changed, the
    time, the accounting, how much work a nanosecond is, and the stop flag. *)
Record Turn := { t_percent : Z; t_now : Z; t_sample : option Occupancy; t_work : f64; t_stop : bool }.

Definition sat_add64 (x y : Z) : Z := Z.min (2 ^ 64 - 1) (x + y).

Definition rate_of (percent : Z) : f64 := fdiv (f64_of percent) (f64_of 100).

(** The bank after a read: filled for the time that passed, drained by the work. *)
Definition bank_after (bank rate : f64) (wall used : Z) (work : f64) : f64 :=
  fclamp (fsub (fadd bank (fmul rate (f64_of wall))) (fmul (f64_of used) work)) (SFopp MAX_DEBT_NS) BURST_NS.

Inductive Verdict := Through | Held (ns : Z).

Definition duration_since (now at0 : Z) : Z := Z.max 0 (now - at0).

(** [None] from the accounting lets the guest through and changes nothing. *)
Definition take_sample (st : Pace) (t : Turn) : option Pace :=
  let rate := rate_of (t_percent t) in
  let due := if SFltb (bank_ns st) (S754_zero false) then SAMPLE_HELD else SAMPLE_OK in
  if bool_decide (engine_ns st = None) || (due <=? duration_since (t_now t) (at_ st)) then
    match t_sample t with
    | None => None
    | Some sample =>
        let engine := sat_add64 (gfx_ns sample) (compute_ns sample) in
        let bank := match engine_ns st with
                    | Some prev => bank_after (bank_ns st) rate (duration_since (t_now t) (at_ st)) (Z.max 0 (engine - prev)) (t_work t)
                    | None => bank_ns st
                    end in
        Some {| at_ := t_now t; engine_ns := Some engine; bank_ns := bank |}
    end
  else Some st.

Definition sleep_for (bank rate : f64) : Z := Z.min (Z.max (f64_to_u64 (fdiv (SFopp bank) rate)) MIN_SLEEP) MAX_SLEEP.

Definition pace_turn (st : Pace) (t : Turn) : Pace * Verdict :=
  if UNLIMITED <=? t_percent t then (st, Through)
  else
    match take_sample st t with
    | None => (st, Through)
    | Some st =>
        if SFleb (S754_zero false) (bank_ns st) then (st, Through)
        else (st, if t_stop t then Through else Held (sleep_for (bank_ns st) (rate_of (t_percent t))))
    end.

(** [GpuBudget::pace]: how long it waited, and whether it came back before the turns
    ran out. *)
Fixpoint pace (st : Pace) (waited : Z) (turns : list Turn) : Pace * Z * bool :=
  match turns with
  | [] => (st, waited, false)
  | t :: turns =>
      match pace_turn st t with
      | (st, Through) => (st, waited, true)
      | (st, Held ns) => pace st (waited + ns) turns
      end
  end.

(** [GpuMetrics::pace_submit]: a client without engine time has nothing to meter. *)
Definition metered (o : option Occupancy) : option Occupancy := o ← o; if engine_time o then Some o else None.

Definition pace_submit (b : GpuBudget) (turns : list Turn) : GpuBudget * Z :=
  if UNLIMITED <=? percent b then (b, 0)
  else
    let turns := (fun t => {| t_percent := t_percent t; t_now := t_now t; t_sample := metered (t_sample t); t_work := t_work t;
                              t_stop := t_stop t |}) <$> turns in
    let '(st, waited, _) := pace (pace_state b) 0 turns in
    ({| percent := percent b; pace_state := st |}, waited).

(** * The control surface *)

Inductive Reply := ReplyError | ReplyPercent (p : Z).

(** [control::handle], on the budget of the guest's GPU if it has one. *)
Definition handle (gpu : option GpuBudget) (line : Text) : option GpuBudget * Reply :=
  match words line with
  | name :: rest =>
      if bool_decide (name = ascii_bytes "gpu-time-percent") then
        match rest with
        | [] => match gpu with Some b => (gpu, ReplyPercent (percent b)) | None => (gpu, ReplyError) end
        | [value] =>
            match gpu with
            | None => (gpu, ReplyError)
            | Some b =>
                if bool_decide (value = ascii_bytes "off") then
                  let b := GpuBudget_set b None in (Some b, ReplyPercent (percent b))
                else
                  match parse_uint 32 value with
                  | Some p =>
                      if (1 <=? p) && (p <=? 100) then let b := GpuBudget_set b (Some p) in (Some b, ReplyPercent (percent b))
                      else (gpu, ReplyError)
                  | None => (gpu, ReplyError)
                  end
            end
        | _ => (gpu, ReplyError)
        end
      else (gpu, ReplyError)
  | [] => (gpu, ReplyError)
  end.

(** * Floating point stays finite *)

(** A finite number of at most 53 bits, below [2 ^ K] in size. *)
Definition small (K : Z) (x : f64) : Prop :=
  match x with
  | S754_zero _ => True
  | S754_finite _ m e => Z.pos (digits2_pos m) <= 53 /\ Z.pos (digits2_pos m) + e <= K
  | _ => False
  end.

Lemma small_le K K' x : K <= K' -> small K x -> small K' x.
Proof. destruct x; simpl; lia. Qed.

Lemma digits_log2 m : Z.pos (digits2_pos m) = Z.log2 (Z.pos m) + 1.
Proof.
  assert (digits2_pos m = Pos.size m) as -> by (induction m as [m IH|m IH|]; simpl; by rewrite ?IH).
  destruct m as [m|m|]; simpl; lia.
Qed.

Lemma Zdigits_log2 m : 0 < m -> Zdigits2 m = Z.log2 m + 1.
Proof. destruct m as [|m|m]; intros; [lia|apply digits_log2|lia]. Qed.

Lemma Zdigits_pos m : 0 <= m -> 0 <= Zdigits2 m.
Proof. destruct m; simpl; lia. Qed.

Lemma shr_1_half mrs : 0 <= shr_m mrs -> shr_m (shr_1 mrs) = shr_m mrs / 2.
Proof.
  destruct mrs as [[|[p|p|]|p] r s]; simpl; intros; try lia; try done.
  - rewrite Pos2Z.inj_xI, Z.mul_comm, Z.div_add_l by lia. change (1 / 2) with 0. lia.
  - rewrite Pos2Z.inj_xO, Z.mul_comm, Z.div_mul by lia. done.
Qed.

Lemma iter_shr p mrs : 0 <= shr_m mrs -> shr_m (SpecFloat.iter_pos shr_1 p mrs) = shr_m mrs / 2 ^ Z.pos p.
Proof.
  revert mrs. induction p as [p IH|p IH|]; intros mrs Hm; cbn [SpecFloat.iter_pos].
  - assert (0 <= shr_m mrs / 2) by (apply Z.div_pos; lia). assert (0 <= shr_m mrs / 2 / 2 ^ Z.pos p) by (apply Z.div_pos; lia).
    rewrite !IH; rewrite ?IH, ?shr_1_half by (rewrite ?shr_1_half; lia); try done.
    rewrite !Z.div_div by lia. f_equal. replace (Z.pos p~1) with (1 + Z.pos p + Z.pos p) by lia.
    rewrite !Z.pow_add_r by lia. lia.
  - assert (0 <= shr_m mrs / 2 ^ Z.pos p) by (apply Z.div_pos; lia). rewrite !IH by (rewrite ?IH; done).
    rewrite Z.div_div by lia. f_equal. replace (Z.pos p~0) with (Z.pos p + Z.pos p) by lia.
    by rewrite Z.pow_add_r by lia.
  - by rewrite shr_1_half.
Qed.

Lemma shr_fexp_spec m e l mrs e' : 0 <= m -> shr_fexp 53 1024 m e l = (mrs, e') ->
  let k := Z.max 0 (Z.max (Zdigits2 m + e - 53) (-1074) - e) in shr_m mrs = m / 2 ^ k /\ e' = e + k.
Proof.
  intros Hm. cbv zeta. unfold shr_fexp, shr. change (fexp 53 1024 (Zdigits2 m + e)) with (Z.max (Zdigits2 m + e - 53) (-1074)).
  assert (shr_m (shr_record_of_loc m l) = m) as Er by (by destruct l as [|[]]).
  destruct (Z.max (Zdigits2 m + e - 53) (-1074) - e) as [|p|p] eqn:E; intros [= <- <-].
  - rewrite Er. simpl. rewrite Z.div_1_r. lia.
  - rewrite iter_shr, Er by (by rewrite Er). replace (Z.max 0 (Z.pos p)) with (Z.pos p) by lia. done.
  - rewrite Er. simpl. rewrite Z.div_1_r. lia.
Qed.

Lemma log2_shift m k : 0 < m -> 0 <= k -> 0 < m / 2 ^ k -> Z.log2 (m / 2 ^ k) = Z.log2 m - k.
Proof.
  intros Hm Hk Hd. rewrite <- Z.shiftr_div_pow2 in * by done. rewrite Z.log2_shiftr by done.
  assert (k <= Z.log2 m); [|lia]. destruct (decide (k <= Z.log2 m)); [done|]. rewrite Z.shiftr_eq_0 in Hd; lia.
Qed.

Lemma rounded m l : 0 <= m -> m <= round_nearest_even m l <= m + 1.
Proof. intros. destruct l as [|[]]; simpl; repeat case_match; lia. Qed.

Lemma round_small sx m e l K :
  0 < m -> Z.log2 m + 1 + e <= K -> e <= 971 -> -1074 <= K <= 1022 -> small (K + 1) (binary_round_aux 53 1024 sx m e l).
Proof.
  intros Hm HK He Hr. unfold binary_round_aux. destruct (shr_fexp 53 1024 m e l) as [mrs1 e1] eqn:E1.
  apply shr_fexp_spec in E1 as [M1 ->]; [|lia]. rewrite Zdigits_log2 in M1 |- * by lia. pose proof (Z.log2_nonneg m) as Hl.
  match type of M1 with _ = _ / 2 ^ ?k => set (k1 := k) in * end. assert (0 <= m / 2 ^ k1) as Hm1 by (apply Z.div_pos; [lia|apply Z.pow_pos_nonneg; lia]).
  set (l1 := loc_of_shr_record mrs1). rewrite M1. pose proof (rounded (m / 2 ^ k1) l1 Hm1) as Hround.
  set (m2 := round_nearest_even (m / 2 ^ k1) l1) in *. destruct (shr_fexp 53 1024 m2 (e + k1) loc_Exact) as [mrs2 e2] eqn:E2.
  apply shr_fexp_spec in E2 as [M2 ->]; [|lia]. match type of M2 with _ = _ / 2 ^ ?k => set (k2 := k) in * end.
  destruct (shr_m mrs2) as [|m3|m3] eqn:E3; [done| |].
  2: { exfalso. assert (0 <= m2 / 2 ^ k2) as Hq by (apply Z.div_pos; [lia|apply Z.pow_pos_nonneg; lia]). rewrite <- M2 in Hq. lia. }
  assert (0 < m2) as Hm2. { destruct (decide (m2 = 0)) as [E|]; [rewrite E, Z.div_0_l in M2 by lia; done|lia]. }
  assert (0 < m2 / 2 ^ k2) as Hq by (rewrite <- M2; lia). assert (0 <= k2) as Hk2 by lia.
  pose proof (log2_shift m2 k2 Hm2 Hk2 Hq) as L3. rewrite <- M2 in L3.
  assert (Z.log2 m2 + 1 + (e + k1) <= K + 1) as Hsum.
  { pose proof (Z.log2_spec m Hm) as [_ Hup]. destruct (decide (k1 <= Z.log2 m + 1)) as [Hk|Hk].
    - assert (m / 2 ^ k1 < 2 ^ (Z.log2 m + 1 - k1)).
      { apply Z.div_lt_upper_bound; [apply Z.pow_pos_nonneg; lia|]. rewrite <- Z.pow_add_r by lia.
        replace (k1 + (Z.log2 m + 1 - k1)) with (Z.succ (Z.log2 m)) by lia. done. }
      assert (Z.log2 m2 <= Z.log2 (2 ^ (Z.log2 m + 1 - k1))) as H2 by (apply Z.log2_le_mono; lia).
      rewrite Z.log2_pow2 in H2 by lia. lia.
    - assert (m / 2 ^ k1 = 0) as E0.
      { apply Z.div_small. split; [lia|]. eapply Z.lt_le_trans; [exact Hup|]. apply Z.pow_le_mono_r; lia. }
      assert (m2 = 1) as -> by lia. change (Z.log2 1) with 0. lia. }
  assert (k2 = Z.max 0 (Z.max (Z.log2 m2 + 1 + (e + k1) - 53) (-1074) - (e + k1))) as K2 by (subst k2; by rewrite Zdigits_log2).
  clearbody k2. assert (e + k1 + k2 <= 971) as He2 by lia.
  change (1024 - 53) with 971. rewrite (proj2 (Z.leb_le _ _) He2). simpl. rewrite digits_log2, L3. lia.
Qed.

Lemma iter_xO m d : Z.pos (Pos.iter xO m d) = Z.pos m * 2 ^ Z.pos d.
Proof.
  induction d as [|d IH] using Pos.peano_ind; [simpl; lia|]. rewrite Pos.iter_succ, Pos2Z.inj_xO, IH, Pos2Z.inj_succ, Z.pow_succ_r by lia.
  lia.
Qed.

(** Aligned to a smaller exponent the number is the same. *)
Lemma shl_align_value m e e' : let '(m', e2) := shl_align m e e' in e2 = Z.min e e' /\ Z.pos m' = Z.pos m * 2 ^ (e - e2).
Proof.
  unfold shl_align. destruct (e' - e) as [|d|d] eqn:E; (split; [lia|]).
  - rewrite Z.sub_diag. lia.
  - rewrite Z.sub_diag. lia.
  - rewrite iter_xO. replace (e - e') with (Z.pos d) by lia. done.
Qed.

Lemma log2_shl m k : 0 < m -> 0 <= k -> Z.log2 (m * 2 ^ k) = Z.log2 m + k.
Proof. intros. rewrite Z.log2_mul_pow2 by done. lia. Qed.

Lemma normalize_small n e s K :
  (n <> 0 -> Z.log2 (Z.abs n) + 1 + e <= K) -> e <= 971 -> -1074 <= K <= 1022 -> small (K + 1) (binary_normalize 53 1024 n e s).
Proof.
  intros Hn He HK. assert (forall sx m, Z.log2 (Z.pos m) + 1 + e <= K -> small (K + 1) (binary_round 53 1024 sx m e)) as Hr.
  { intros sx m Hm. unfold binary_round. pose proof (shl_align_value m e (fexp 53 1024 (Z.pos (digits2_pos m) + e))) as H.
    destruct (shl_align _ _ _) as [mz ez]. destruct H as [Ez Em]. apply round_small; [lia| |lia|done].
    rewrite Em, log2_shl by lia. lia. }
  destruct n as [|m|m]; [done|apply Hr, Hn; lia|apply Hr]. specialize (Hn ltac:(lia)). done.
Qed.

Lemma f64_of_small n K : 0 <= n < 2 ^ K -> 0 <= K <= 1022 -> small (K + 1) (f64_of n).
Proof.
  intros Hn HK. apply normalize_small; [|lia|lia]. intros Hz. rewrite Z.abs_eq by lia.
  assert (Z.log2 n < K) by (apply Z.log2_lt_pow2; lia). lia.
Qed.

Lemma mul_small K K' x y : 0 <= K -> 0 <= K' -> K + K' <= 971 -> small K x -> small K' y -> small (K + K' + 1) (fmul x y).
Proof.
  intros HK HK' Hs Hx Hy. destruct x as [| | |sx mx ex], y as [| | |sy my ey]; try done. simpl in Hx, Hy. rewrite digits_log2 in Hx, Hy.
  pose proof (Z.log2_nonneg (Z.pos mx)). pose proof (Z.log2_nonneg (Z.pos my)).
  pose proof (Z.log2_mul_above (Z.pos mx) (Z.pos my) ltac:(lia) ltac:(lia)).
  apply round_small; rewrite ?Pos2Z.inj_mul; lia.
Qed.

Lemma aligned_bound m e ez K : ez <= e -> Z.log2 (Z.pos m) + 1 + e <= K -> Z.pos m * 2 ^ (e - ez) < 2 ^ (K - ez).
Proof.
  intros He HK. apply Z.log2_lt_pow2; [nia|]. rewrite log2_shl by lia. lia.
Qed.

Lemma add_small K x y : 0 <= K <= 970 -> small K x -> small K y -> small (K + 2) (fadd x y).
Proof.
  intros HK Hx Hy. destruct x as [sx| | |sx mx ex], y as [sy| | |sy my ey]; try done.
  1: by destruct sx, sy. 1, 2: by eapply (small_le K); [lia|].
  simpl in Hx, Hy. rewrite digits_log2 in Hx, Hy. unfold fadd, SFadd. set (ez := Z.min ex ey).
  pose proof (shl_align_value mx ex ez) as Ax. pose proof (shl_align_value my ey ez) as Ay.
  destruct (shl_align mx ex ez) as [ax ax'], (shl_align my ey ez) as [ay ay']. destruct Ax as [-> Ax], Ay as [-> Ay]. cbn [fst].
  pose proof (Z.log2_nonneg (Z.pos mx)). pose proof (Z.log2_nonneg (Z.pos my)).
  replace (Z.min ex ez) with ez in Ax by lia. replace (Z.min ey ez) with ez in Ay by lia.
  pose proof (aligned_bound mx ex ez K ltac:(lia) ltac:(lia)) as Bx. pose proof (aligned_bound my ey ez K ltac:(lia) ltac:(lia)) as By.
  rewrite <- Ax in Bx. rewrite <- Ay in By. replace (K + 2) with ((K + 1) + 1) by lia. apply normalize_small; [|lia|lia].
  intros Hn. set (n := Z.abs _). assert (0 < n) by lia. assert (n < 2 ^ (K - ez + 1)) as Hb.
  { rewrite Z.pow_add_r by lia. subst n. destruct sx, sy; simpl cond_Zopp; lia. }
  apply Z.log2_lt_pow2 in Hb; [lia|done].
Qed.

Lemma sub_is_add x y : fsub x y = fadd x (SFopp y).
Proof.
  unfold fsub, fadd. destruct x as [sx|sx| |sx mx ex], y as [sy|sy| |sy my ey]; try (by destruct sx, sy); try done.
Qed.

Lemma opp_small K x : small K x -> small K (SFopp x).
Proof. by destruct x. Qed.

Lemma compare_flip x y : SFcompare y x = CompOpp <$> SFcompare x y.
Proof.
  destruct x as [sx|sx| |sx mx ex], y as [sy|sy| |sy my ey]; try (by destruct sx, sy); try (by destruct sx); try (by destruct sy); try done.
  simpl. destruct sx, sy; try done; f_equal; rewrite (Z.compare_antisym ex ey); destruct (ex ?= ey); try done; simpl;
    rewrite (Pos.compare_cont_antisym mx my Eq); by destruct (Pos.compare_cont Eq mx my).
Qed.

Definition MIN_BANK : f64 := SFopp MAX_DEBT_NS.

Lemma MIN_BANK_eq : MIN_BANK = S754_finite true 6710886400000000 (-26).
Proof. by vm_compute. Qed.

Lemma BURST_eq : BURST_NS = S754_finite false 8589934592000000 (-31).
Proof. by vm_compute. Qed.

(** Numbers between the deepest debt and the largest burst. *)
Definition in_bank (x : f64) : Prop := SFleb MIN_BANK x = true /\ SFleb x BURST_NS = true /\ small 28 x.

Lemma compare_number K K' x y : small K x -> small K' y -> is_Some (SFcompare x y).
Proof. destruct x as [| | |], y as [| | |]; simpl; try done; eauto. Qed.

(** Clamping a number gives one in the bank's range. *)
Lemma clamp_in_bank K x : small K x -> in_bank (fclamp x MIN_BANK BURST_NS).
Proof.
  intros Hx. unfold in_bank. rewrite MIN_BANK_eq, BURST_eq. set (lo := S754_finite true _ _). set (hi := S754_finite false _ _).
  assert (small 28 lo /\ small 28 hi) as [Hl Hh] by (subst lo hi; simpl; lia).
  assert (SFltb hi lo = false /\ SFleb lo hi = true /\ SFleb lo lo = true /\ SFleb hi hi = true) as (Hhl & Hlh & Hll & Hhh)
    by (split_and!; vm_compute; reflexivity).
  unfold fclamp. destruct (SFltb x lo) eqn:E1; [rewrite Hhl; by split_and!|]. destruct (SFltb hi x) eqn:E2; [by split_and!|].
  destruct (compare_number _ _ x lo Hx Hl) as [c1 C1], (compare_number _ _ hi x Hh Hx) as [c2 C2].
  unfold SFltb in E1, E2. rewrite C1 in E1. rewrite C2 in E2. unfold SFleb.
  rewrite (compare_flip x lo), C1, (compare_flip hi x), C2. split; [by destruct c1|]. split; [by destruct c2|].
  destruct x as [| | |s m e]; try done. simpl in Hx. simpl. split; [lia|]. destruct s.
  - subst lo. cbn [SFcompare] in C1. destruct (Z.compare_spec e (-26)); [lia|lia|by injection C1 as <-].
  - subst hi. cbn [SFcompare] in C2. destruct (Z.compare_spec (-31) e); [lia|by injection C2 as <-|lia].
Qed.

(** ** Quotients of integers *)

Lemma shr_fexp_up m e l mrs e' : shr_fexp 53 1024 m e l = (mrs, e') -> e <= e'.
Proof. unfold shr_fexp, shr. destruct (_ - _); intros [= <- <-]; lia. Qed.

Lemma round_exponent sx m e l s' m' e' : binary_round_aux 53 1024 sx m e l = S754_finite s' m' e' -> s' = sx /\ e <= e'.
Proof.
  unfold binary_round_aux. destruct (shr_fexp 53 1024 m e l) as [mrs1 e1] eqn:E1. destruct (shr_fexp _ _ _ e1 _) as [mrs2 e2] eqn:E2.
  apply shr_fexp_up in E1, E2. destruct (shr_m mrs2); [done| |done]. case_match; [|done]. intros [= <- _ <-]. split; [done|lia].
Qed.

Lemma shr_fexp_keeps m e l mrs e' : 0 < m -> -1074 <= e -> shr_fexp 53 1024 m e l = (mrs, e') -> 0 < shr_m mrs.
Proof.
  intros Hm He H. apply shr_fexp_spec in H as [-> _]; [|lia]. rewrite Zdigits_log2 by done. set (k := Z.max 0 _).
  pose proof (Z.log2_nonneg m). assert (0 <= k <= Z.log2 m) as Hk by lia. clearbody k. apply Z.div_str_pos.
  pose proof (Z.log2_spec m Hm). pose proof (Z.pow_le_mono_r 2 k (Z.log2 m)). pose proof (Z.pow_pos_nonneg 2 k). lia.
Qed.

Lemma round_not_zero sx m e l s : 0 < m -> -1074 <= e -> binary_round_aux 53 1024 sx m e l <> S754_zero s.
Proof.
  intros Hm He. unfold binary_round_aux. destruct (shr_fexp 53 1024 m e l) as [mrs1 e1] eqn:E1.
  pose proof (shr_fexp_keeps _ _ _ _ _ Hm He E1) as H1. apply shr_fexp_up in E1.
  pose proof (rounded (shr_m mrs1) (loc_of_shr_record mrs1) ltac:(lia)) as H2. destruct (shr_fexp _ _ _ e1 _) as [mrs2 e2] eqn:E2.
  apply shr_fexp_keeps in E2; [|lia..]. destruct (shr_m mrs2); [lia|by case_match|done].
Qed.

(** A counter or a clock as a number. *)
Lemma f64_of_shape n : 0 < n < 2 ^ 64 -> exists m e, f64_of n = S754_finite false m e /\ small 65 (f64_of n) /\ -52 <= e.
Proof.
  intros Hn. pose proof (f64_of_small n 64 ltac:(lia) ltac:(lia)) as Hs. change (64 + 1) with 65 in Hs.
  destruct n as [|p|p]; [lia| |lia]. unfold f64_of in *. cbn [binary_normalize] in *. unfold binary_round in *.
  pose proof (shl_align_value p 0 (fexp 53 1024 (Z.pos (digits2_pos p) + 0))) as Ha.
  change (fexp 53 1024 (Z.pos (digits2_pos p) + 0)) with (Z.max (Z.pos (digits2_pos p) + 0 - 53) (-1074)) in *.
  destruct (shl_align p 0 _) as [mz ez]. destruct Ha as [Ez Em].
  destruct (binary_round_aux _ _ _ _ _ _) as [| | |s m e] eqn:E; try done.
  - exfalso. apply (round_not_zero false (Z.pos mz) ez loc_Exact s); [lia|lia|done].
  - apply round_exponent in E as [-> He]. exists m, e. split_and!; [done|exact Hs..|lia].
Qed.

(** A quotient of two positive ones stays far from the largest numbers. *)
Lemma work_of_small hz ref : 0 <= hz < 2 ^ 64 -> 0 < ref < 2 ^ 64 -> small 120 (work_of hz ref).
Proof.
  intros Hh Hr. unfold work_of. destruct (f64_of_shape ref Hr) as (m2 & e2 & -> & Hs2 & He2).
  destruct (decide (hz = 0)) as [->|]; [done|]. destruct (f64_of_shape hz ltac:(lia)) as (m1 & e1 & -> & Hs1 & He1).
  simpl in Hs1, Hs2. rewrite digits_log2 in Hs1, Hs2. unfold fdiv, SFdiv, SFdiv_core_binary.
  rewrite !Zdigits_log2 by lia. set (d1 := Z.log2 (Z.pos m1) + 1) in *. set (d2 := Z.log2 (Z.pos m2) + 1) in *.
  change (fexp 53 1024 (d1 + e1 - (d2 + e2))) with (Z.max (d1 + e1 - (d2 + e2) - 53) (-1074)).
  assert (1 <= d1 /\ 1 <= d2) as [Hd1 Hd2] by (pose proof (Z.log2_nonneg (Z.pos m1)); pose proof (Z.log2_nonneg (Z.pos m2)); lia).
  set (e' := Z.min _ _). assert (e' <= d1 + e1 - (d2 + e2) - 53 /\ e' <= e1 - e2 /\ -1074 <= e') as (Ee1 & Ee2 & Ee3) by lia.
  set (sh := e1 - e2 - e'). assert (match sh with Z.pos _ => Z.shiftl (Z.pos m1) sh | 0 => Z.pos m1 | Z.neg _ => 0 end =
    Z.pos m1 * 2 ^ sh) as ->.
  { destruct sh eqn:Es; [simpl; lia|apply Z.shiftl_mul_pow2; lia|lia]. }
  pose proof (Z_div_mod (Z.pos m1 * 2 ^ sh) (Z.pos m2) ltac:(lia)) as Hq. destruct (Z.div_eucl _ _) as [q r]. destruct Hq as [Eq Hr'].
  pose proof (Z.log2_spec (Z.pos m1) ltac:(lia)) as [L1 U1]. pose proof (Z.log2_spec (Z.pos m2) ltac:(lia)) as [L2 U2].
  assert (0 <= sh) as Hsh by lia. assert (2 ^ (d2 - 1) * 2 ^ (d1 + sh - d2 + 1) = 2 ^ (d1 + sh)) as P1 by (rewrite <- Z.pow_add_r by lia; f_equal; lia).
  assert (2 ^ d1 * 2 ^ sh = 2 ^ (d1 + sh)) as P2 by (rewrite <- Z.pow_add_r by lia; done).
  assert (2 ^ d2 <= 2 ^ (d1 - 1) * 2 ^ sh) as P3 by (rewrite <- Z.pow_add_r by lia; apply Z.pow_le_mono_r; lia).
  replace (Z.succ (Z.log2 (Z.pos m1))) with d1 in U1 by lia. replace (Z.succ (Z.log2 (Z.pos m2))) with d2 in U2 by lia.
  replace (Z.log2 (Z.pos m1)) with (d1 - 1) in L1 by lia. replace (Z.log2 (Z.pos m2)) with (d2 - 1) in L2 by lia.
  assert (0 < 2 ^ sh) as Psh by (apply Z.pow_pos_nonneg; lia). assert (0 < 2 ^ (d1 + sh - d2 + 1)) as Pq by (apply Z.pow_pos_nonneg; lia).
  assert (0 < q) as Hq by nia. assert (q < 2 ^ (d1 + sh - d2 + 1)) as Hqu by nia.
  apply Z.log2_lt_pow2 in Hqu; [|done]. eapply (small_le (118 + 1)); [lia|]. apply round_small; lia.
Qed.

(** * The loop *)

Definition is_u64 (n : Z) : Prop := 0 <= n < 2 ^ 64.

(** What a turn can see: an instant under 584 years from boot, 64-bit counters, and
    the work of a nanosecond from two 64-bit clocks, or one where there is none. *)
Definition valid_turn (t : Turn) : Prop :=
  1 <= t_percent t /\ is_u64 (t_percent t) /\ is_u64 (t_now t) /\
  (forall o, t_sample t = Some o -> is_u64 (gfx_ns o) /\ is_u64 (compute_ns o)) /\
  exists hz ref, is_u64 hz /\ 0 < ref < 2 ^ 64 /\ t_work t = work_of hz ref.

Definition pace_ok (st : Pace) : Prop :=
  in_bank (bank_ns st) /\ is_u64 (at_ st) /\ forall n, engine_ns st = Some n -> is_u64 n.

Definition zero : f64 := S754_zero false.

Lemma bank_after_ok bank percent wall used hz ref :
  in_bank bank -> 1 <= percent -> is_u64 percent -> is_u64 wall -> is_u64 used -> is_u64 hz -> 0 < ref < 2 ^ 64 ->
  in_bank (bank_after bank (rate_of percent) wall used (work_of hz ref)).
Proof.
  unfold is_u64. intros (_ & _ & Hb) Hp Hp2 Hw Hu Hh Hr. unfold bank_after. apply (clamp_in_bank (188 + 2)). rewrite sub_is_add.
  apply add_small; [lia| |apply opp_small].
  - apply (small_le (186 + 2)); [lia|]. apply add_small; [lia|by eapply small_le; [|exact Hb]|].
    apply (small_le (120 + 65 + 1)); [lia|]. apply mul_small; [lia..|apply (work_of_small percent 100); lia|].
    apply (f64_of_small _ 64); lia.
  - apply (small_le (65 + 120 + 1)); [lia|]. apply mul_small; [lia..|apply (f64_of_small _ 64); lia|by apply work_of_small].
Qed.

Lemma take_sample_ok st t st' : pace_ok st -> valid_turn t -> take_sample st t = Some st' -> pace_ok st'.
Proof.
  intros Hst (Hp & Hp2 & Hn & Hs & hz & ref & Hh & Hr & Hw). unfold take_sample. destruct (_ || _); [|by intros [= <-]].
  destruct (t_sample t) as [o|] eqn:Eo; [|done]. destruct (Hs o eq_refl) as [Hg Hc]. destruct Hst as (Hb & Ha & He).
  assert (is_u64 (sat_add64 (gfx_ns o) (compute_ns o))) as Heng by (unfold is_u64, sat_add64 in *; lia).
  intros [= <-]. split; cbn [bank_ns at_ engine_ns]; [|by split; [|intros n [= <-]]].
  destruct (engine_ns st) as [prev|] eqn:Ep; [|done]. specialize (He prev eq_refl). rewrite Hw.
  apply bank_after_ok; try done; unfold is_u64, duration_since in *; lia.
Qed.

(** Not at least zero is below zero, for a number. *)
Lemma debt_is_negative b : in_bank b -> SFleb zero b = false -> SFltb b zero = true.
Proof.
  intros (_ & _ & Hb) H. unfold SFleb, SFltb in *. rewrite (compare_flip zero b).
  destruct (compare_number 0 28 zero b I Hb) as [c Ec]. rewrite Ec in *. by destruct c.
Qed.

Lemma pace_turn_spec st t st' v : pace_ok st -> valid_turn t -> pace_turn st t = (st', v) ->
  pace_ok st' /\
  match v with
  | Through => UNLIMITED <= t_percent t \/ t_sample t = None \/ t_stop t = true \/ SFleb zero (bank_ns st') = true
  | Held ns => t_percent t < UNLIMITED /\ t_stop t = false /\ SFltb (bank_ns st') zero = true /\ MIN_SLEEP <= ns <= MAX_SLEEP
  end.
Proof.
  intros Hst Ht. unfold pace_turn. destruct (Z.leb_spec UNLIMITED (t_percent t)); [intros [= <- <-]; auto|].
  destruct (take_sample st t) as [st1|] eqn:E.
  2: { intros [= <- <-]. split; [done|]. unfold take_sample in E. destruct (_ || _); [|done]. destruct (t_sample t); [done|auto]. }
  pose proof (take_sample_ok _ _ _ Hst Ht E) as Hok. fold zero. destruct (SFleb zero (bank_ns st1)) eqn:Eb; intros [= <- <-]; [auto|].
  split; [done|]. destruct (t_stop t) eqn:Es; [auto|]. split_and!; [done..|apply debt_is_negative; [apply Hok|done]| |];
    unfold sleep_for, MIN_SLEEP, MAX_SLEEP; lia.
Qed.

Lemma pace_waited st w turns : pace st w turns = ((pace st 0 turns).1.1, w + (pace st 0 turns).1.2, (pace st 0 turns).2).
Proof.
  revert st w. induction turns as [|t turns IH]; intros st w; cbn [pace]; [simpl; by rewrite Z.add_0_r|].
  destruct (pace_turn st t) as [st' [|ns]]; [simpl; by rewrite Z.add_0_r|]. rewrite (IH st' (w + ns)), (IH st' (0 + ns)). simpl.
  by rewrite Z.add_assoc.
Qed.

(** C25: The limiter holds a guest back only while it is over its share, and for no
    longer than it says.  Whatever the counters, the clocks and the limit do from
    turn to turn, the bank stays a number between the deepest debt and the largest
    burst -- rounding never makes it infinite or not a number; a submission is held
    for a number of turns, each with a sleep between a tenth of a millisecond and two
    milliseconds, under a limit, with the bank in debt and the device not stopping;
    and it goes through on the first turn without a limit, without a client, with the
    bank out of debt, or when the device is asked to stop. *)
Theorem budget_paced (st : Pace) (turns : list Turn) :
  pace_ok st -> Forall valid_turn turns ->
  let '(st', waited, back) := pace st 0 turns in
  pace_ok st' /\
  exists k, (k <= length turns)%nat /\ MIN_SLEEP * Z.of_nat k <= waited <= MAX_SLEEP * Z.of_nat k /\
    (forall i t, (i < k)%nat -> turns !! i = Some t ->
       t_percent t < UNLIMITED /\ t_stop t = false /\ SFltb (bank_ns (pace st 0 (take (S i) turns)).1.1) zero = true) /\
    (back = false -> k = length turns) /\
    (back = true -> exists t, turns !! k = Some t /\
       (UNLIMITED <= t_percent t \/ t_sample t = None \/ t_stop t = true \/ SFleb zero (bank_ns st') = true)).
Proof.
  intros Hst Hv. revert st Hst. induction Hv as [|t turns Ht Hv IH]; intros st Hst; cbn [pace].
  { split; [done|]. exists 0%nat. split_and!; [lia..|intros i t Hi; lia|done|done]. }
  destruct (pace_turn st t) as [st1 v] eqn:E. destruct (pace_turn_spec _ _ _ _ Hst Ht E) as [Hok Hs]. destruct v as [|ns].
  { split; [done|]. exists 0%nat. split_and!; [lia..|intros i t' Hi; lia|done|]. intros _. by exists t. }
  rewrite pace_waited. specialize (IH st1 Hok). destruct (pace st1 0 turns) as [[st' waited] back] eqn:Ep. cbn [fst snd].
  destruct IH as (Hok' & k & Hk & Hw & Hheld & Hnb & Hb). destruct Hs as (Hl & Hstop & Hdebt & Hns). split; [done|].
  exists (S k). split_and!; [simpl; lia|unfold MIN_SLEEP, MAX_SLEEP in *; lia|unfold MIN_SLEEP, MAX_SLEEP in *; lia| |intros Hbk; simpl; by rewrite Hnb|done].
  intros [|i] t' Hi Hti; cbn [take pace]; rewrite E.
  - injection Hti as <-. by split_and!.
  - rewrite pace_waited. cbn [fst]. apply Hheld; [lia|done].
Qed.

(** Half a card, overdrawn once, then idle until the debt is repaid. *)
Definition drawn (ns now : Z) : Turn :=
  {| t_percent := 50; t_now := now; t_sample := Some (set_field Occupancy_default (FGfx ns)); t_work := work_of 2000 2000; t_stop := false |}.

Lemma drawn_valid ns now : is_u64 ns -> is_u64 now -> valid_turn (drawn ns now).
Proof.
  intros Hn Hw. split; [simpl; lia|]. split; [unfold is_u64; simpl; lia|]. split; [exact Hw|]. split.
  - intros o [= <-]. split; [done|]. simpl. unfold is_u64. lia.
  - exists 2000, 2000. unfold is_u64. split_and!; [lia..|done].
Qed.

Lemma budget_paced_witness :
  let turns := [drawn 12000000 1000000; drawn 12000000 4000000; drawn 12000000 18000000] in
  pace {| at_ := 0; engine_ns := Some 0; bank_ns := BURST_NS |} 0 turns =
    ((pace {| at_ := 0; engine_ns := Some 0; bank_ns := BURST_NS |} 0 turns).1.1, 4000000, true) /\
  exists k, (k <= 3)%nat /\ MIN_SLEEP * Z.of_nat k <= 4000000 <= MAX_SLEEP * Z.of_nat k.
Proof.
  intros turns. assert (Forall valid_turn turns) as Hv.
  { apply Forall_cons; split; [|apply Forall_cons; split; [|apply Forall_cons; split; [|constructor]]]; apply drawn_valid; unfold is_u64; lia. }
  assert (pace_ok {| at_ := 0; engine_ns := Some 0; bank_ns := BURST_NS |}) as Hok.
  { split; cbn [bank_ns at_ engine_ns].
    - split_and!; [vm_compute; reflexivity|vm_compute; reflexivity|rewrite BURST_eq; simpl; lia].
    - unfold is_u64. split; [lia|]. intros n [= <-]. lia. }
  pose proof (budget_paced _ turns Hok Hv) as H.
  assert (pace {| at_ := 0; engine_ns := Some 0; bank_ns := BURST_NS |} 0 turns =
    ((pace {| at_ := 0; engine_ns := Some 0; bank_ns := BURST_NS |} 0 turns).1.1, 4000000, true)) as E by (vm_compute; reflexivity).
  split; [exact E|]. rewrite E in H. destruct H as (_ & k & Hk & Hw & _). exists k. split; [exact Hk|exact Hw].
Defined.

(** * The control surface *)

Lemma percent_reads_back p : 1 <= p <= 100 -> parse_uint 32 (show p) = Some p /\ show p <> ascii_bytes "off".
Proof.
  intros Hp. assert (forallb (fun n => bool_decide (parse_uint 32 (show (Z.of_nat n)) = Some (Z.of_nat n)) &&
    negb (bool_decide (show (Z.of_nat n) = ascii_bytes "off"))) (seq 1 100) = true) as H by (vm_compute; reflexivity).
  rewrite forallb_forall in H. specialize (H (Z.to_nat p)). rewrite Z2Nat.id in H by lia.
  assert (List.In (Z.to_nat p) (seq 1 100)) as Hin by (apply in_seq; lia). apply H, andb_prop in Hin as [H1 H2].
  by apply bool_decide_eq_true in H1; apply negb_true_iff, bool_decide_eq_false in H2.
Qed.

(** What a line may ask of a guest's limit. *)
Definition NAME : Text := ascii_bytes "gpu-time-percent".

Definition asks_nothing (line : Text) : Prop := words line = [NAME].
Definition lifts (line : Text) : Prop := words line = [NAME; ascii_bytes "off"].
Definition limits (line : Text) (p : Z) : Prop :=
  exists v, words line = [NAME; v] /\ parse_uint 32 v = Some p /\ 1 <= p <= 100.

(** C40: A request changes the limit exactly as it says or not at all.  The name
    alone is answered with the limit in force and changes nothing; "off" lifts the
    limit, to 100, and a number from 1 to 100 sets it to that number, either
    answered with the new limit and with the bank untouched; the decimal digits of
    each of these numbers are such a number.  Every other line, and every line to a
    guest without a GPU, is an error and changes nothing. *)
Theorem control_exact (b : GpuBudget) (line : Text) :
  (asks_nothing line -> handle (Some b) line = (Some b, ReplyPercent (percent b))) /\
  (lifts line -> handle (Some b) line = (Some {| percent := 100; pace_state := pace_state b |}, ReplyPercent 100)) /\
  (forall p, limits line p ->
     handle (Some b) line = (Some {| percent := p; pace_state := pace_state b |}, ReplyPercent p)) /\
  (forall p, words line = [NAME; show p] -> 1 <= p <= 100 -> limits line p) /\
  (~ asks_nothing line -> ~ lifts line -> (forall p, ~ limits line p) -> handle (Some b) line = (Some b, ReplyError)) /\
  handle None line = (None, ReplyError).
Proof.
  unfold asks_nothing, lifts, limits, handle. split_and!.
  - by intros ->.
  - by intros ->.
  - intros p (v & -> & Ev & Hp). rewrite bool_decide_true by done. case_bool_decide as Hoff; [by subst|].
    rewrite Ev, (proj2 (Z.leb_le _ _) (proj1 Hp)), (proj2 (Z.leb_le _ _) (proj2 Hp)). cbn [andb].
    assert (GpuBudget_set b (Some p) = {| percent := p; pace_state := pace_state b |}) as ->; [|done].
    unfold GpuBudget_set, clamp_percent, UNLIMITED. f_equal. lia.
  - intros p Hw Hp. exists (show p). split; [done|]. split; [|done]. by apply percent_reads_back.
  - intros Hq Ho Hn. destruct (words line) as [|name rest]; [done|]. case_bool_decide as Hname; [|done]. subst name.
    destruct rest as [|v [|? ?]]; [done| |done]. case_bool_decide; [by subst|].
    destruct (parse_uint 32 v) as [p|] eqn:Ev; [|done]. destruct ((1 <=? p) && (p <=? 100)) eqn:E; bool_prop; [|done].
    exfalso. apply (Hn p). by exists v.
  - destruct (words line) as [|name rest]; [done|]. case_bool_decide; [|done]. by destruct rest as [|v [|? ?]].
Qed.

Lemma control_exact_witness :
  let b := GpuBudget_new 0 None in
  handle (Some b) (ascii_bytes "gpu-time-percent 60") = (Some (GpuBudget_set b (Some 60)), ReplyPercent 60) /\
  handle (Some b) (ascii_bytes "gpu-time-percent 160") = (Some b, ReplyError).
Proof.
  intros b. split.
  - destruct (control_exact b (ascii_bytes "gpu-time-percent 60")) as (_ & _ & H & _). apply (H 60).
    exists (ascii_bytes "60"). split; [vm_compute; reflexivity|]. split; [vm_compute; reflexivity|lia].
  - destruct (control_exact b (ascii_bytes "gpu-time-percent 160")) as (_ & _ & _ & _ & H & _). apply H.
    + vm_compute. discriminate.
    + vm_compute. discriminate.
    + intros p (v & Hw & Hp & Hr). vm_compute in Hw. injection Hw as <-. vm_compute in Hp. injection Hp as <-. lia.
Defined.
