(* ===== verification/GpuLoop.v ===== *)
(** The thread that serves the GPU's control queue, [Worker::work] and
    [Worker::wait] of [virtio-devices/src/gpu/worker.rs]: how it starts, looks at
    the ring, sleeps on the doorbell, drains, is held by the pacing of a submission,
    and ends, as a step relation with the driver, the renderer's callbacks, a change
    of the limit and a reset in between any two of its steps.  What it does with a chain is [run_step] of [GpuWorkerFacts].

    A queue keeps what the thread relies on, the class [CalmQueues]; the device's
    queue does wherever the driver's rings do not overlap. *)

From S2P Require Import Budget.
From S2P Require Import Prelude GuestMem Virtqueue VirtqueueRings VirtqueueRun MemSlots MemSlotsFacts Msix MsixFacts.
From S2P Require Import GpuVram HostMapper GpuEdid GpuChain GpuWire GpuProtocol GpuBackend GpuWorker.
From S2P Require Import GpuChainFacts GpuProtocolFacts GpuBackendFacts GpuWorkerFacts GpuFences GpuRun.

(** * The thread *)

Section Loop.
Context {M R P Q : Type} {HM : GuestMemory M} {HR : Rutabaga R} {HC : RutabagaConsts}
  {HP : HostMemoryMapper P} {HQ : GpuQueues M Q}.
Context (shm : VirtioShmRegion) (poll_us : Z).

(** Where the thread is: looking at the ring, in [poll], about to read the doorbell,
    about to load the flag, in [process_ctl_queue], held there by [pace_submit], let
    through by it, or gone. *)
Inductive Place := Looking | Asleep | Rung | Woken | Draining | Pacing | Paced | Exited.

#[global] Instance Place_eq : EqDecision Place.
Proof. solve_decision. Defined.

(** [bell] is the count of the doorbell, an eventfd; [told] the stop flag; [owed] how
    many writes to the doorbell were promised and have not been made: by a driver that
    has moved its index, by a reset that has set the flag; [budget] the GPU time limit
    and what is left of it. *)
Record Loop :=
  { run : Run (R := R) (P := P) (Q := Q); bell : Z; owed : nat; told : bool; place : Place; budget : GpuBudget }.

Definition queue (s : Loop) : Q := signal (gpu (run s)).
Definition at_place (s : Loop) (p : Place) : Loop :=
  {| run := run s; bell := bell s; owed := owed s; told := told s; place := p; budget := budget s |}.
Definition with_run (s : Loop) (r : Run) : Loop :=
  {| run := r; bell := bell s; owed := owed s; told := told s; place := place s; budget := budget s |}.
Definition with_budget (s : Loop) (b : GpuBudget) : Loop :=
  {| run := run s; bell := bell s; owed := owed s; told := told s; place := place s; budget := b |}.
Definition with_pace (s : Loop) (st : Pace) : Loop :=
  with_budget s {| percent := percent (budget s); pace_state := st |}.


(** What a look is for. *)
Definition found (s : Loop) : bool := ctl_has_work (queue s) || told s.

(** Is a submission next? *)
Definition submission_next (s : Loop) : bool :=
  match current (run s), pop_ctl (queue s) with
  | None, (q, Some (_, chain)) => submits (queue_mem q) chain
  | _, _ => false
  end.

(** What a turn of [pace] sees: the limit and the stop flag as they are now, and
    whatever the clock and the card's accounting say. *)
Definition sees (s : Loop) (t : Turn) : Prop := t_percent t = percent (budget s) /\ t_stop t = told s.

Definition at_submission (s : Loop) : Prop := place s = Draining /\ submission_next s = true \/ place s = Pacing.

(** A chain that is no submission, or one that was let through. *)
Definition at_chain (s : Loop) : Prop := place s = Draining /\ submission_next s = false \/ place s = Paced.

(** The thread's own steps.  A look is one step; the deadline is only compared every
    so many looks, and may be past at any of them.  [poll] is left when the doorbell
    can be read, or with an error (a signal, say), and then it is not read.  A
    submission is held before it is answered, a turn of [pace] to a step.  The code
    has read the commands when it holds one, and this relation takes the chain, reads
    it and answers it in the step after: a driver that writes over a chain it has
    published is seen by the one and not by the other, and none of the thread's waits
    depends on that. *)
Inductive work_step : Loop -> Loop -> Prop :=
  | look_found s : place s = Looking -> 0 < poll_us -> found s = true -> work_step s (at_place s Rung)
  | look_again s : place s = Looking -> 0 < poll_us -> found s = false -> work_step s s
  | look_over s : place s = Looking -> 0 < poll_us -> found s = false -> work_step s (at_place s Asleep)
  | no_look s : place s = Looking -> poll_us <= 0 -> work_step s (at_place s Asleep)
  | poll_ready s : place s = Asleep -> 0 < bell s -> work_step s (at_place s Rung)
  | poll_failed s : place s = Asleep -> work_step s (at_place s Woken)
  | bell_read s : place s = Rung ->
      work_step s {| run := run s; bell := 0; owed := owed s; told := told s; place := Woken; budget := budget s |}
  | leave s : place s = Woken -> told s = true -> work_step s (at_place s Exited)
  | enter s : place s = Woken -> told s = false -> work_step s (at_place s Draining)
  | pace_held s t st ns : at_submission s -> sees s t -> pace_turn (pace_state (budget s)) t = (st, Held ns) ->
      work_step s (at_place (with_pace s st) Pacing)
  | pace_passed s t st : at_submission s -> sees s t -> pace_turn (pace_state (budget s)) t = (st, Through) ->
      work_step s (at_place (with_pace s st) Paced)
  | drain_on s e r : at_chain s -> run_step shm (run s) e r -> (e = Recorded \/ exists d, e = Answered d) ->
      work_step s (at_place (with_run s r) Draining)
  | drain_over s r : at_chain s -> run_step shm (run s) Flushed r ->
      work_step s (at_place (with_run s r) Looking).

(** Is there a chain to take? *)
Definition offered (q : Q) : bool := match (pop_ctl q).2 with Some _ => true | None => false end.





End Loop.

Arguments Loop : clear implicits.

(** * What the thread relies on *)

(** A queue whose completions cannot be taken for chains, and a look at which sees
    every chain a pop would take. *)
Class CalmQueues {M : Type} (Q : Type) {HQ : GpuQueues M Q} := {
  fine : Q -> Prop;
  fine_pop q : fine q -> fine (pop_ctl q).1;
  pop_empty q q' : pop_ctl q = (q', None) -> offered q' = false;
  fine_memory q m : fine q -> fine (with_queue_mem q m);
  fine_complete q b : fine q -> fine (complete_ctl q b);
  complete_offers q b : fine q -> offered (complete_ctl q b) = offered q;
  offered_seen q : offered q = true -> ctl_has_work q = true
}.

Section Facts.
Context {M R P Q : Type} {HM : GuestMemory M} {HL : GuestMemoryLaws M} {HR : Rutabaga R} {HC : RutabagaConsts}
  {HP : HostMemoryMapper P} {HQ : GpuQueues M Q} {HF : CalmQueues Q}.
Context (shm : VirtioShmRegion) (poll_us : Z).
Abbreviation Thread := (Loop R P Q).
Abbreviation works := (work_step (M := M) (R := R) (P := P) (Q := Q) shm poll_us).
Implicit Types (g : VirtioGpu R P Q) (s : Thread).






(** * The invariant *)










(** * Progress *)













End Facts.

(** * The device's queue *)

Section DeviceQueue.
Context {M Rt : Type} {HM : GuestMemory M} {HL : GuestMemoryLaws M} {HRt : MsiRouter Rt}.
Implicit Types (q : Queues M Rt) (c : QState) (m : M).

(** The words of the avail ring that a pop reads, and the used ring is not on them. *)
Definition avail_words c : list (Z * Z) :=
  (avail c + 2, 2) :: ((fun i => (avail c + (4 + Z.of_nat i * 2), 2)) <$> seq 0 (Z.to_nat (qsize c))).

Definition rings_apart c : Prop :=
  0 <= avail c /\ avail c + 4 + 2 * qsize c <= 2 ^ 64 /\ used_apart (avail_words c) c.

Definition takes m c : bool := match (pop_avail m c).2 with Some _ => true | None => false end.

Lemma avail_words_ok c : own_ok (avail_words c).
Proof. constructor; [done|]. apply Forall_fmap, Forall_true. by intros i. Qed.

Lemma same_word own m m' a : same_on own m m' -> (a, 2) ∈ own -> read_le m' a 2 = read_le m a 2.
Proof.
  unfold same_on. rewrite Forall_forall. intros H Ha.
  assert (read_slice m' a 2 = read_slice m a 2) as Hs by exact (H _ Ha). unfold read_le. by rewrite Hs.
Qed.

Lemma takes_same c m m' : rings_apart c -> same_on (avail_words c) m m' -> takes m' c = takes m c.
Proof.
  intros (H0 & Hw & Hu & Hq & _) Hs. unfold takes, pop_avail.
  destruct ((qsize c =? 0) || (avail c =? 0) || (desc c =? 0)) eqn:E; [done|]. bool_prop.
  rewrite (wrap_small 64 (avail c + 2)) by (unfold is_word; lia).
  rewrite (same_word _ _ _ (avail c + 2) Hs) by (by left).
  destruct (read_le m (avail c + 2) 2) as [idx|]; [|done]. destruct (idx =? last c); [done|].
  assert (0 <= last c mod qsize c < qsize c) as Hi by (apply Z.mod_pos_bound; lia).
  rewrite (wrap_small 64 (avail c + (4 + _))) by (unfold is_word; lia).
  rewrite (same_word _ _ _ (avail c + (4 + last c mod qsize c * 2)) Hs); [by destruct (read_le m _ 2)|].
  right. apply list_elem_of_fmap. exists (Z.to_nat (last c mod qsize c)).
  rewrite Z2Nat.id by lia. split; [done|]. apply elem_of_seq. lia.
Qed.

Lemma complete_same m c l : rings_apart c ->
  same_on (avail_words c) m (foldl (fun m hl => (push_used m c hl.1 hl.2).1) m l).
Proof.
  intros (_ & _ & Hu). revert m. induction l as [|x l IH]; intros m; [apply same_on_refl|]. simpl.
  eapply same_on_trans; [|apply IH]. apply push_used_same; [apply avail_words_ok|done].
Qed.

Lemma offered_takes q : offered q = enabled (ctl q) && negb (desc (ctl q) =? 0) && takes (qu_mem q) (ctl q).
Proof.
  unfold offered. simpl. unfold queues_pop_ctl, takes. destruct (enabled (ctl q)), (desc (ctl q) =? 0); try done. simpl.
  by destruct (pop_avail _ _) as [c' [x|]].
Qed.

#[export] Instance Queues_calm : CalmQueues (Queues M Rt).
Proof.
  refine {| fine q := rings_apart (ctl q) |}.
  - intros q H. simpl. unfold queues_pop_ctl. case_match; [done|].
    destruct (pop_avail_last (qu_mem q) (ctl q)) as (n & Hn & _). destruct (pop_avail _ _) as [c' x]. simpl in *. by subst c'.
  - intros q q'. simpl. unfold queues_pop_ctl. destruct (negb (enabled (ctl q)) || (desc (ctl q) =? 0)) eqn:E.
    + intros [= <-]. rewrite offered_takes. by destruct (enabled (ctl q)), (desc (ctl q) =? 0).
    + destruct (pop_avail (qu_mem q) (ctl q)) as [c' [x|]] eqn:Ep; [done|]. intros [= <-].
      rewrite offered_takes. simpl. assert (c' = ctl q) as ->; [|unfold takes; rewrite Ep; apply andb_false_r].
      unfold pop_avail in Ep. by repeat case_match; simplify_eq.
  - done.
  - intros q [|x l] H; [done|]. simpl. destruct (trigger _ _). done.
  - intros q [|x l] H; [done|]. rewrite !offered_takes. unfold complete_ctl. simpl. destruct (trigger _ _). simpl.
    f_equal. apply (takes_same _ _ _ H (complete_same (qu_mem q) _ (x :: l) H)).
  - intros q. rewrite offered_takes. simpl. unfold queues_ctl_has_work, takes, pop_avail, has_avail.
    destruct (enabled (ctl q) && negb (desc (ctl q) =? 0)); [|done]. simpl.
    destruct ((qsize (ctl q) =? 0) || _ || _); [done|]. destruct (read_le _ _ _) as [idx|]; [|done]. by destruct (idx =? last (ctl q)).
Defined.

End DeviceQueue.

(** * A ring that is nowhere *)

Section Spin.
Context {M R P Rt : Type} {HM : GuestMemory M} {HR : Rutabaga R} {HC : RutabagaConsts}
  {HP : HostMemoryMapper P} {HRt : MsiRouter Rt}.
Context (shm : VirtioShmRegion) (poll_us : Z).
Implicit Types (s : Loop R P (Queues M Rt)).

(** A queue that is enabled with its avail ring at address 0, which is where it is
    until a driver says otherwise, over memory with something else than the device's
    index at address 2. *)
Definition unset_ring (q : Queues M Rt) : Prop :=
  enabled (ctl q) = true /\ desc (ctl q) <> 0 /\ avail (ctl q) = 0 /\
  exists idx, read_le (qu_mem q) 2 2 = Some idx /\ idx <> last (ctl q).

Record spinning s : Prop := {
  sp_ring : unset_ring (queue s);
  sp_told : told s = false;
  sp_rest : batch (run s) = [] /\ current (run s) = None;
  sp_place : place s <> Asleep /\ place s <> Exited
}.

Lemma unset_found q : unset_ring q -> queues_ctl_has_work q = true /\ queues_pop_ctl q = (q, None).
Proof.
  intros (He & Hd & Ha & idx & Hi & Hn). unfold queues_ctl_has_work, queues_pop_ctl, has_avail, pop_avail.
  rewrite He, Ha, (proj2 (Z.eqb_neq _ _) Hd), orb_true_r. change (0 ⊕ 2) with 2. rewrite Hi.
  rewrite (proj2 (Z.eqb_neq _ _) Hn). by destruct q.
Qed.

Lemma spinning_step s s' : 0 < poll_us -> work_step shm poll_us s s' -> spinning s -> spinning s'.
Proof.
  intros Hpoll Hs [Hu Ht [Hb Hc] [Ha Hx]]. destruct (unset_found _ Hu) as [Hw Hp].
  assert (found s = true) as Hf by (unfold found; simpl; by rewrite Hw).
  destruct Hs as [s Hq|s Hq ? Hn|s Hq ? Hn|s Hq ?|s Hq|s Hq|s Hq|s Hq Hn|s Hq|s t st ns Hq|s t st Hq|s e r Hq Hr He|s r Hq Hr];
    try congruence; try lia; try by split.
  - destruct s as [[g b c] n o t p bg]. simpl in *. subst. inversion Hr; subst.
    + unfold queue in Hp. simpl in *. congruence.
    + destruct He as [|[]]; discriminate.
    + destruct He as [|[]]; discriminate.
  - destruct s as [[g b c] n o t p bg]. simpl in *. subst. inversion Hr as [| |g1 b1 q1 Hq1|]; subst.
    unfold queue in Hp. simpl in *. rewrite Hp in Hq1. injection Hq1 as <-. by split.
Qed.

(** Such a queue keeps a thread that polls from ever sleeping: every look finds work
    and every pop finds none. *)
Lemma unset_ring_spins s s' :
  0 < poll_us -> rtc (work_step shm poll_us) s s' -> spinning s -> place s' <> Asleep /\ place s' <> Exited.
Proof. intros Hpoll Hr Hs. apply sp_place. induction Hr; eauto using spinning_step. Qed.

End Spin.

(** * A pass ends *)

Section PassEnds.
Context {M : Type} {HM : GuestMemory M} {HL : GuestMemoryLaws M}.

(** ** Where a response is written *)

Lemma write_all_writer (m : M) w buf :
  segments (write_all m w buf).1.2 = segments w /\ write_pos w <= write_pos (write_all m w buf).1.2.
Proof.
  unfold write_all. generalize (length buf) as fuel. intros fuel. revert m w buf.
  induction fuel as [|fuel IH]; intros m w buf; destruct buf as [|x buf]; cbn [write_all_loop fst snd]; try (by split; [|lia]).
  unfold write. destruct (write_segs _ _ _ _) as [m1 [[|n]|]]; simpl; try (by split; [|lia]).
  match goal with |- context [write_all_loop fuel m1 ?w1 ?b] => destruct (IH m1 w1 b) as [H1 H2] end.
  simpl in *. split; [done|lia].
Qed.

Lemma encode_confined resp flags fence_id ctx_id ring_idx (m : M) w a n :
  Forall seg_ok (segments w) -> 0 <= write_pos w -> Forall (fun t => apart t.1 t.2 a (Z.of_nat n)) (segments w) ->
  read_slice (encode resp flags fence_id ctx_id ring_idx m w).1.1 a n = read_slice m a n.
Proof.
  intros Hs Hp Ha.
  assert (forall T (HT : ByteValued T) (v : T), read_slice (encode_obj m w v).1.1 a n = read_slice m a n) as Ho.
  { intros T HT v. unfold encode_obj, write_obj. pose proof (write_all_confined m w (as_slice v) a n Hs Hp Ha) as H.
    by destruct (write_all m w (as_slice v)) as [[m1 w1] ok]. }
  unfold encode. destruct resp; try apply Ho; try (case_match; [done|]; first [apply Ho|case_match; apply Ho]).
  unfold encode_capset, write_obj. match goal with |- context [as_slice ?h] => set (hdr := h) end.
  pose proof (write_all_confined m w (as_slice hdr) a n Hs Hp Ha) as H.
  pose proof (write_all_writer m w (as_slice hdr)) as [Hw1 Hw2].
  destruct (write_all m w (as_slice hdr)) as [[m1 w1] []]; simpl in *; [|done].
  pose proof (write_all_confined m1 w1 data a n) as H2. destruct (write_all m1 w1 data) as [[m2 w2] ok2]. simpl in *.
  rewrite H2; [done|by rewrite Hw1|lia|by rewrite Hw1].
Qed.

(** What a driver asks for is answered outside [own]. *)
Definition answer_safe (own : list (Z * Z)) (chain : list Desc) : Prop :=
  Forall (fun d : Desc => seg_ok d.1 /\ apart_from own d.1.1 d.1.2) (skip_readable chain).

Lemma take_writable_segs chain total segs segs' total' :
  take_writable chain total segs = inr (segs', total') -> segs' = segs ++ (fst <$> chain).
Proof.
  revert total segs. induction chain as [|d chain IH]; intros total segs; simpl; [intros [= <- <-]; by rewrite app_nil_r|].
  destruct (checked_add _ _ _); [|done]. intros ->%IH. by rewrite <- app_assoc.
Qed.

Lemma answered_same own chain (m mem : M) :
  own_ok own -> answer_safe own chain -> answered_in chain m mem -> same_on own m mem.
Proof.
  intros Ho Hs (w & resp & flags & f & c & r & Hw & ->). unfold Writer_new in Hw.
  destruct (take_writable _ 0 []) as [|[segs total]] eqn:Et; simplify_eq. apply take_writable_segs in Et as ->.
  unfold answer_safe in Hs. apply Forall_forall. intros [a n] Hin. unfold own_ok in Ho. rewrite Forall_forall in Ho.
  apply Ho in Hin as Hn. simpl in Hn. cbn [fst snd]. rewrite Forall_forall in Hs. apply encode_confined; cbn [segments write_pos]; [|done|].
  - apply Forall_fmap, Forall_forall. intros d Hd. by apply Hs.
  - apply Forall_fmap, Forall_forall. intros d Hd. destruct (Hs d Hd) as [_ Ha]. unfold apart_from in Ha.
    rewrite Forall_forall in Ha. specialize (Ha _ Hin). unfold apart in *. simpl in *. rewrite Z2Nat.id by done. lia.
Qed.
End PassEnds.

(** ** The drain *)

Section CtlEnds.
Context {M R P Rt : Type} {HM : GuestMemory M} {HL : GuestMemoryLaws M} {HR : Rutabaga R} {HC : RutabagaConsts}
  {HP : HostMemoryMapper P} {HRt : MsiRouter Rt}.
Context (shm : VirtioShmRegion).
Implicit Types (g : VirtioGpu R P (Queues M Rt)) (q : Queues M Rt).

(** The registers stay, and memory in [own]. *)
Definition kept (own : list (Z * Z)) q q' : Prop := ctl q' = ctl q /\ same_on own (qu_mem q) (qu_mem q').

Lemma kept_trans own q1 q2 q3 : kept own q1 q2 -> kept own q2 q3 -> kept own q1 q3.
Proof. intros [H1 H2] [H3 H4]. split; [congruence|by eapply same_on_trans]. Qed.

Lemma complete_kept own q b : own_ok own -> used_apart own (ctl q) -> kept own q (queues_complete_ctl q b).
Proof.
  intros Ho Hu. unfold queues_complete_ctl. destruct b as [|x b]; [split; [done|apply same_on_refl]|].
  assert (forall l (m : M), same_on own m (foldl (fun m hl => (push_used m (ctl q) hl.1 hl.2).1) m l)) as Hs.
  { induction l as [|y l IH]; intros m; [apply same_on_refl|]. simpl. eapply same_on_trans; [|apply IH]. by apply push_used_same. }
  destruct (trigger _ _) as [t fds]. split; [done|]. apply Hs.
Qed.

Lemma chain_kept own g chain : own_ok own -> used_apart own (ctl (signal g)) -> answer_safe own chain ->
  kept own (signal g) (signal (process_chain shm g chain).1).
Proof.
  intros Ho Hu Hs. destruct (process_chain_effect shm g chain) as (g1 & H1 & H2).
  assert (kept own (signal g) (signal g1)) as Hk.
  { destruct H1 as [[_ ->]|(x & _ & [_ ->])]; [split; [done|apply same_on_refl]|].
    unfold retire_context_fences. destruct (drop_context_fences _ _) as [fs [|d l]]; [split; [done|apply same_on_refl]|].
    by apply complete_kept. }
  eapply kept_trans; [exact Hk|]. destruct H2 as [[_ ->]|(mem & Ha & [_ ->])]; [split; [done|apply same_on_refl]|].
  split; [done|]. by eapply answered_same.
Qed.

Lemma retire_signal g i how : signal (retire_chain g i how).1 = signal g.
Proof. destruct how as [|ring id len]; [done|]. simpl. unfold process_fence. by destruct (_ <=? _). Qed.

(** What is asked of the driver: a quiet ring, and no answer asked for in [own]. *)
Record ctl_quiet (own : list (Z * Z)) (m0 : M) (c0 : QState) (k idx : Z) : Prop := {
  cq_quiet : ring_quiet own m0 c0 k idx;
  cq_enabled : enabled c0 = true;
  cq_chains : forall m i h, same_on own m0 m -> 0 <= i < qsize c0 ->
    read_le m0 (avail c0 + (4 + i * 2)) 2 = Some h ->
    answer_safe own (collect_descs_with m (desc c0) h (qsize c0) (indirect c0))
}.

Lemma drain_ctl_from own m0 c0 k idx fuel g b l :
  ctl_quiet own m0 c0 k idx -> ctl (signal g) = with_last c0 l -> same_on own m0 (qu_mem (signal g)) ->
  is_word 16 l -> u16 (idx - l) < Z.of_nat fuel ->
  exists g' b', drain_ctl shm fuel g b = Some (g', b') /\ ctl (signal g') = with_last c0 idx.
Proof.
  intros [Hq He Hch]. assert (is_word 16 idx) as Hi by exact (read_le_range _ _ _ _ (rq_idx _ _ _ _ _ Hq)).
  pose proof (rq_avail _ _ _ _ _ Hq) as Ha. pose proof (ao_k _ _ _ Ha). pose proof (ao_size _ _ _ Ha).
  pose proof (Z.pow_pos_nonneg 2 k).
  revert g b l. induction fuel as [|fuel IH]; intros g b l Hc Hs Hl Hf.
  { pose proof (wrap_range 16 (idx - l)). unfold is_word in *. lia. }
  cbn [drain_ctl]. change (pop_ctl (signal g)) with (queues_pop_ctl (signal g)). unfold queues_pop_ctl. rewrite Hc.
  cbn [enabled desc with_last]. rewrite He, (proj2 (Z.eqb_neq _ _) (ao_desc _ _ _ Ha)). cbn [negb orb].
  destruct (ring_quiet_pop _ _ _ _ _ Hq (qu_mem (signal g)) l Hs Hl) as [(-> & -> & _)|(Hne & h & Hh & ->)].
  { eexists _, _. split; [reflexivity|done]. }
  set (q1 := {| qu_mem := qu_mem (signal g) |}). set (chain := collect_descs_with _ _ _ _ _).
  pose proof (chain_kept own (set_signal g q1) chain (rq_ok _ _ _ _ _ Hq) (rq_used _ _ _ _ _ Hq)) as Hk.
  destruct (process_chain shm (set_signal g q1) chain) as [g1 how]. pose proof (retire_signal g1 h how) as Hr.
  destruct (retire_chain g1 h how) as [g2 used]. cbn [fst] in Hk, Hr.
  destruct Hk as [Hk1 Hk2]. { eapply Hch; [exact Hs| |exact Hh]. apply Z.mod_pos_bound. lia. }
  apply (IH g2 (b ++ used) (u16 (l + 1))); rewrite ?Hr; [exact Hk1|by eapply same_on_trans|by apply wrap_range|].
  rewrite dist_step by done. lia.
Qed.

(** A pass over the control queue ends: for a driver whose chains ask for no answer
    in its own rings, 65536 chains are the most a pass takes, whatever the commands
    and the renderer; it has then taken everything up to the driver's index. *)
Theorem ctl_pass_ends own g (k idx : Z) (fuel : nat)
    (Hq : ctl_quiet own (qu_mem (signal g)) (ctl (signal g)) k idx) (Hl : is_word 16 (last (ctl (signal g))))
    (Hf : u16 (idx - last (ctl (signal g))) < Z.of_nat fuel) :
  exists g' any, process_ctl_queue shm fuel g = Some (g', any) /\ last (ctl (signal g')) = idx.
Proof.
  assert (ctl (signal g) = with_last (ctl (signal g)) (last (ctl (signal g)))) as Hc by (by destruct (ctl (signal g))).
  destruct (drain_ctl_from _ _ _ _ _ fuel g [] _ Hq Hc (same_on_refl _ _) Hl Hf) as (g' & b & Hd & Hc').
  unfold process_ctl_queue. rewrite Hd. cbn [mbind option_bind]. destruct b as [|x b].
  - eexists _, _. split; [reflexivity|]. by rewrite Hc'.
  - eexists _, _. split; [reflexivity|]. cbn [signal set_signal set_fences complete_ctl Queues_gpu queues_complete_ctl].
    destruct (trigger _ _). simpl. by rewrite Hc'.
Qed.

End CtlEnds.

(** * A chain, announced and taken *)

Definition gpu_ring : QState :=
  {| desc := 0x1000; avail := 0x2000; used := 0x3000; qsize := 8; vec := 0; enabled := true; last := 0;
     event_idx := false; indirect := false |}.

Definition gpu_rings (m : FlatRam) : Queues FlatRam RouteLog :=
  {| qu_mem := m; ctl := gpu_ring; qu_msix := MsixTable_default 4; qu_signalled := [] |}.

(** Descriptor 0 holds a command and descriptor 1 room for its answer; the index of
    the avail ring is 0, and then 1. *)
Definition before_publish : FlatRam :=
  put_desc (put_desc (ram_zero 0x4000) 0x1000 0 0x3800 24 VRING_DESC_F_NEXT 1) 0x1000 1 0x3A00 24 VRING_DESC_F_WRITE 0.
Definition after_publish : FlatRam := write_le before_publish 0x2002 2 1.

Definition gpu_thread : VirtioGpu Ids (MemorySlots unit) (Queues FlatRam RouteLog) :=
  VirtioGpu_new ∅ (MemorySlots_new tt 2) (gpu_rings before_publish) [] 8 None 0x10000 16.




(** The driver's table and avail ring. *)
Definition gpu_own : list (Z * Z) := [(0x1000, 128); (0x2000, 20)].

Lemma gpu_heads i h : 0 <= i < 8 -> read_le after_publish (0x2000 + (4 + i * 2)) 2 = Some h -> h = 0.
Proof.
  intros Hi. assert (i = 0 \/ i = 1 \/ i = 2 \/ i = 3 \/ i = 4 \/ i = 5 \/ i = 6 \/ i = 7) as Hc by lia.
  repeat destruct Hc as [->|Hc]; try subst i; vm_compute; congruence.
Qed.

Lemma gpu_chain_same (m : FlatRam) : same_on gpu_own after_publish m ->
  collect_descs_with m 0x1000 0 8 false = [(0x3800, 24, VRING_DESC_F_NEXT); (0x3A00, 24, VRING_DESC_F_WRITE)].
Proof.
  intros Hs. assert (read_desc after_publish 0x1000 0 = Some (0x3800, 24, VRING_DESC_F_NEXT, 1) /\
    read_desc after_publish 0x1000 1 = Some (0x3A00, 24, VRING_DESC_F_WRITE, 0)) as [D0 D1] by (by vm_compute).
  assert (is_Some (read_slice after_publish 0x1000 (Z.to_nat 128))) as Hm by (eexists; vm_compute; reflexivity).
  assert (Hd : forall i, 0 <= i <= 1 -> read_desc m 0x1000 i = read_desc after_publish 0x1000 i).
  { intros i Hi. apply (read_desc_same gpu_own _ _ _ 128); [exact Hs|by left|exact Hm|lia..]. }
  unfold collect_descs_with, walk_chain, walk_direct. change (8 <=? 0) with false. change (Z.to_nat 8) with 8%nat.
  cbv iota. cbn [walk_loop]. rewrite Hd, D0 by lia. cbn. rewrite Hd, D1 by lia. reflexivity.
Qed.

Lemma gpu_ring_quiet : ctl_quiet gpu_own after_publish gpu_ring 3 1.
Proof.
  split; [split| |].
  - repeat constructor; simpl; lia.
  - split; [reflexivity|lia|simpl; lia|simpl; lia|done|]. intros off n H1 H2. simpl in H2.
    unfold read_le. apply fmap_is_Some. simpl. unfold ram_read.
    assert (ram_has after_publish (0x2000 + off) (Z.of_nat n) = true) as ->; [|eauto].
    unfold ram_has. change (ram_len after_publish) with 0x4000. apply andb_true_iff. rewrite !Z.leb_le. lia.
  - right. left.
  - split; [simpl; lia|]. split; [simpl; lia|]. split; [simpl; lia|]. repeat constructor; unfold apart; simpl; lia.
  - by vm_compute.
  - done.
  - intros m i h Hs Hi Hh. apply gpu_heads in Hh; [|exact Hi]. subst h.
    change (collect_descs_with m (desc gpu_ring) 0 (qsize gpu_ring) (indirect gpu_ring))
      with (collect_descs_with m 0x1000 0 8 false). rewrite gpu_chain_same by exact Hs.
    repeat constructor; unfold apart; simpl; lia.
Qed.

Lemma ctl_pass_ends_witness :
  exists g' any, process_ctl_queue window_region 2 (set_signal gpu_thread (gpu_rings after_publish)) = Some (g', any) /\
    last (ctl (signal g')) = 1.
Proof.
  apply (ctl_pass_ends window_region gpu_own (set_signal gpu_thread (gpu_rings after_publish)) 3 1 2 gpu_ring_quiet).
  - unfold is_word. simpl. lia.
  - by vm_compute.
Defined.
