(* ===== verification/Jailer.v ===== *)
(** The jailer, [tools/jailer/src/main.rs]: from a box's configuration to nesbox
    running confined.

    What the kernel and the filesystem answer is the class [JailHost], one
    function over every call the jailer makes; a run keeps the log of its calls
    with their answers.  Reading JSON is serde's, a parameter of [run].  A path is
    its components, as [std::path] compares and joins them, each any bytes but a
    slash; a path given as text to the overlay or the exec goes through [lossy].
    [read_to_string] answers [AText] only with well-formed text.  Error texts and
    log lines are left out. *)

From stdpp Require Import strings sorting.
From S2P Require Import Prelude Shared.

(** * Paths *)

(** [as_os_str().is_empty()]. *)
Definition path_empty (p : Path) : bool := negb (absolute p) && match comps p with [] => true | _ => false end.

(** [starts_with("/proc")]. *)
Definition under_proc (p : Path) : bool :=
  absolute p && bool_decide (head (comps p) = Some (ascii_bytes "proc")).

(** [strip_prefix("/").unwrap_or(host_path)]. *)
Definition strip_root (p : Path) : Path := {| absolute := false; comps := comps p |}.

Definition target_path (jail_root host_path : Path) : Path := path_join jail_root (strip_root host_path).

Definition path_has (c : Z) (p : Path) : bool := existsb (existsb (Z.eqb c)) (comps p).

(** * Arguments *)

Record Args := {
  a_config : Path;
  jail_root : Path;
  a_uid : Z;
  a_gid : Z;
  nesbox_bin : Text;
  bind : list Path;
  scratch_dir : Path;
  dry_run : bool
}.

Definition DEFAULT_NESBOX_BIN : Text := ascii_bytes "/usr/bin/nesbox".
Definition DEFAULT_SCRATCH_DIR : Path := path_of "/run/nesbox-jailer".

Definition parse_u32 (s : Text) : option Z := parse_uint 32 s.

(** The arguments seen so far. *)
Record Partial := {
  p_config : option Path;
  p_root : option Path;
  p_uid : option Z;
  p_gid : option Z;
  p_bin : Text;
  p_bind : list Path;
  p_scratch : Path;
  p_dry : bool
}.

Definition Partial_new : Partial :=
  {| p_config := None; p_root := None; p_uid := None; p_gid := None; p_bin := DEFAULT_NESBOX_BIN; p_bind := [];
     p_scratch := DEFAULT_SCRATCH_DIR; p_dry := false |}.

Inductive Flag := FConfig | FRoot | FUid | FGid | FBin | FBind | FScratch.

Definition flags : list (Text * Flag) :=
  [(ascii_bytes "--config", FConfig); (ascii_bytes "--jail-root", FRoot); (ascii_bytes "--uid", FUid);
   (ascii_bytes "--gid", FGid); (ascii_bytes "--nesbox-bin", FBin); (ascii_bytes "--bind", FBind);
   (ascii_bytes "--scratch-dir", FScratch)].

Definition flag_of (s : Text) : option Flag := snd ∘ snd <$> list_find (fun x => fst x = s) flags.

Definition take_flag (p : Partial) (f : Flag) (v : Text) : option Partial :=
  match f with
  | FConfig => Some {| p_config := Some (parse_path v); p_root := p_root p; p_uid := p_uid p; p_gid := p_gid p;
                       p_bin := p_bin p; p_bind := p_bind p; p_scratch := p_scratch p; p_dry := p_dry p |}
  | FRoot => Some {| p_config := p_config p; p_root := Some (parse_path v); p_uid := p_uid p; p_gid := p_gid p;
                     p_bin := p_bin p; p_bind := p_bind p; p_scratch := p_scratch p; p_dry := p_dry p |}
  | FUid => n ← parse_u32 v;
            Some {| p_config := p_config p; p_root := p_root p; p_uid := Some n; p_gid := p_gid p;
                    p_bin := p_bin p; p_bind := p_bind p; p_scratch := p_scratch p; p_dry := p_dry p |}
  | FGid => n ← parse_u32 v;
            Some {| p_config := p_config p; p_root := p_root p; p_uid := p_uid p; p_gid := Some n;
                    p_bin := p_bin p; p_bind := p_bind p; p_scratch := p_scratch p; p_dry := p_dry p |}
  | FBin => Some {| p_config := p_config p; p_root := p_root p; p_uid := p_uid p; p_gid := p_gid p;
                    p_bin := v; p_bind := p_bind p; p_scratch := p_scratch p; p_dry := p_dry p |}
  | FBind => Some {| p_config := p_config p; p_root := p_root p; p_uid := p_uid p; p_gid := p_gid p;
                     p_bin := p_bin p; p_bind := p_bind p ++ [parse_path v]; p_scratch := p_scratch p; p_dry := p_dry p |}
  | FScratch => Some {| p_config := p_config p; p_root := p_root p; p_uid := p_uid p; p_gid := p_gid p;
                        p_bin := p_bin p; p_bind := p_bind p; p_scratch := parse_path v; p_dry := p_dry p |}
  end.

Fixpoint parse_from (p : Partial) (argv : list Text) : option Partial :=
  match argv with
  | [] => Some p
  | a :: rest =>
      if bool_decide (a = ascii_bytes "--dry-run") then
        parse_from {| p_config := p_config p; p_root := p_root p; p_uid := p_uid p; p_gid := p_gid p; p_bin := p_bin p;
                      p_bind := p_bind p; p_scratch := p_scratch p; p_dry := true |} rest
      else
        f ← flag_of a;
        match rest with
        | [] => None
        | v :: rest => p ← take_flag p f v; parse_from p rest
        end
  end.

Definition parse (argv : list Text) : option Args :=
  p ← parse_from Partial_new argv;
  config ← p_config p;
  root ← p_root p;
  uid ← p_uid p;
  gid ← p_gid p;
  Some {| a_config := config; jail_root := root; a_uid := uid; a_gid := gid; nesbox_bin := p_bin p; bind := p_bind p;
          scratch_dir := p_scratch p; dry_run := p_dry p |}.

(** * What the configuration needs *)

Record BoxConfig := {
  kernel_image_path : Path;
  (** [drive_id] and [path_on_host]. *)
  drives : list (Text * Path);
  render_node : option Path;
  (** [socket] and [proc_nvidia]. *)
  gpu_forward : option (Path * Path);
  has_network : bool;
  has_vsock : bool;
  (** [tag] and [path_on_host]. *)
  shared_directories : list (Text * Path);
  stats_socket : option Path;
  control_socket : option Path
}.

Definition default_render_node : Path := path_of "/dev/dri/renderD128".
Definition default_proc_nvidia : Path := path_of "/proc/driver/nvidia".

Definition KVM : Path := path_of "/dev/kvm".
Definition NULL : Path := path_of "/dev/null".
Definition TUN : Path := path_of "/dev/net/tun".
Definition VHOST_NET : Path := path_of "/dev/vhost-net".
Definition VHOST_VSOCK : Path := path_of "/dev/vhost-vsock".

(** The directory a socket is created in, or an error. *)
Definition socket_dir (socket : option Path) : option (list Path) :=
  match socket with
  | None => Some []
  | Some s =>
      d ← path_parent s;
      if path_empty d then None else Some [d]
  end.

(** The paths in the order they are mounted; the reasons are left out. *)
Definition host_paths (config_path : Path) (cfg : BoxConfig) (extra : list Path) : option (list Path) :=
  stats ← socket_dir (stats_socket cfg);
  control ← socket_dir (control_socket cfg);
  let out :=
    [config_path; KVM; NULL; kernel_image_path cfg] ++
    (snd <$> drives cfg) ++
    option_list (render_node cfg) ++
    match gpu_forward cfg with
    | Some (socket, proc_nvidia) => socket :: (if under_proc proc_nvidia then [] else [proc_nvidia])
    | None => []
    end ++
    (if has_network cfg then [TUN; VHOST_NET] else []) ++
    (if has_vsock cfg then [VHOST_VSOCK] else []) ++
    stats ++ control ++
    (snd <$> shared_directories cfg) ++ extra in
  if forallb absolute out then Some out else None.

(** * Calls *)

Record Meta := { is_dir : bool; is_char_device : bool; mode : Z; owner_gid : Z }.

Inductive Call :=
  | Canonicalize (p : Path)
  | ReadToString (p : Path)
  | Geteuid
  | Stat (p : Path)
  | Lstat (p : Path)
  | ReadProc
  | ReadStatus (pid : Z)
  | Getpid
  | Unshare (ns : Z)
  | Mount (source : option Path) (target : Path) (fstype : option Text) (flags : Z) (data : option Text)
  | CreateDirAll (p : Path)
  | CreateDir (p : Path)
  | OpenCreate (p : Path)
  | Chroot (p : Path)
  | Chdir (p : Path)
  | Setgroups (l : list Z)
  | Setgid (g : Z)
  | Setuid (u : Z)
  | Getuid
  | Getgid
  | Getgroups (max : Z)
  | SetNoNewPrivs
  | Execv (prog : Text) (args : list Text).

(** [Failed] is any error. *)
Inductive Reply :=
  | Failed
  | Done
  | APath (p : Path)
  | AText (s : Text)
  | ANum (n : Z)
  | ANames (l : list Text)
  | AMeta (m : Meta)
  | AGroups (l : list Z).

Class JailHost (W : Type) := { sys : W -> Call -> W * Reply }.

Abbreviation Log := (list (Call * Reply)).

Section Jailer.
Context {W : Type} {HW : JailHost W}.

(** A step of the jailer: over the host and the log, [None] is an error. *)
Definition J (A : Type) : Type := W * Log -> (W * Log) * option A.

#[export] Instance J_ret : MRet J := fun A x s => (s, Some x).
#[export] Instance J_bind : MBind J := fun A B f m s =>
  match m s with
  | (s, Some x) => f x s
  | (s, None) => (s, None)
  end.

Definition call (c : Call) : J Reply := fun '(w, lg) =>
  let '(w, r) := sys w c in ((w, lg ++ [(c, r)]), Some r).

Definition refuse {A} : J A := fun s => (s, None).
Definition ensure (b : bool) : J () := if b then mret tt else refuse.
Definition required {A} (o : option A) : J A := match o with Some x => mret x | None => refuse end.

(** A call that only succeeds or fails. *)
Definition do_call (c : Call) : J () := r ← call c; match r with Done => mret tt | _ => refuse end.

Fixpoint each {A} (f : A -> J ()) (l : list A) : J () :=
  match l with
  | [] => mret tt
  | x :: l => f x ;; each f l
  end.

(** ** Mounting *)

Definition CLONE_NEWNS : Z := 0x00020000.
Definition MS_REC : Z := 0x00004000.
Definition MS_PRIVATE : Z := 0x00040000.
Definition MS_BIND : Z := 0x00001000.
Definition MS_NOSUID : Z := 0x00000002.
Definition MS_NODEV : Z := 0x00000004.

(** [CString::new]. *)
Definition nul_free (p : Path) : bool := negb (path_has 0 p).

Definition raw_mount (source : option Path) (target : Path) (fstype : option Text) (flags : Z) (data : option Text) : J () :=
  ensure (match source with Some s => nul_free s | None => true end) ;;
  ensure (nul_free target) ;;
  ensure (match data with Some d => negb (existsb (Z.eqb 0) d) | None => true end) ;;
  do_call (Mount source target fstype flags data).

Definition unshare_mount_namespace : J () :=
  do_call (Unshare CLONE_NEWNS) ;;
  raw_mount None root_path None (Z.lor MS_REC MS_PRIVATE) None.

Definition lstat (p : Path) : J Meta := r ← call (Lstat p); match r with AMeta m => mret m | _ => refuse end.

Definition bind_mount (jail_root host_path : Path) (recursive : bool) : J () :=
  ensure (absolute host_path) ;;
  meta ← lstat host_path;
  let target := target_path jail_root host_path in
  (if is_dir meta then do_call (CreateDirAll target)
   else
     match path_parent target with
     | Some parent => do_call (CreateDirAll parent)
     | None => mret tt
     end ;;
     do_call (OpenCreate target)) ;;
  raw_mount (Some host_path) target None (Z.lor MS_BIND (if recursive then MS_REC else 0)) None.

Definition SCRATCH_SIZE : Text := ascii_bytes "size=16m,mode=0700".

(** The bytes of a path, from its components. *)
Definition path_text (p : Path) : Text :=
  (if absolute p then [SLASH] else []) ++
  match comps p with
  | [] => []
  | c :: cs => c ++ (cs ≫= (fun c => SLASH :: c))
  end.

Definition overlay_options (lower upper work : Path) : option Text :=
  if existsb (fun p => existsb (fun c => (c =? 44) || (c =? 58)) (lossy (path_text p))) [lower; upper; work] then None
  else Some (ascii_bytes "lowerdir=" ++ lossy (path_text lower) ++ ascii_bytes ",upperdir=" ++ lossy (path_text upper) ++
             ascii_bytes ",workdir=" ++ lossy (path_text work)).

Definition build_jail (image scratch : Path) : J Path :=
  do_call (CreateDirAll scratch) ;;
  raw_mount (Some (path_of "tmpfs")) scratch (Some (ascii_bytes "tmpfs")) (Z.lor MS_NOSUID MS_NODEV) (Some SCRATCH_SIZE) ;;
  let upper := path_join scratch (path_of "upper") in
  let work := path_join scratch (path_of "work") in
  let merged := path_join scratch (path_of "merged") in
  each (fun d => do_call (CreateDir d)) [upper; work; merged] ;;
  opts ← required (overlay_options image upper work);
  raw_mount (Some (path_of "overlay")) merged (Some (ascii_bytes "overlay")) (Z.lor MS_NOSUID MS_NODEV) (Some opts) ;;
  mret merged.

(** ** Which groups survive the drop *)

Inductive DeviceAccess := Anyone | Group (gid : Z) | OwnerOnly.

Definition device_access (mode gid : Z) : DeviceAccess :=
  if Z.land mode 6 =? 6 then Anyone
  else if (Z.land mode 48 =? 48) && negb (gid =? 0) then Group gid
  else OwnerOnly.

Fixpoint device_groups (paths : list Path) (groups : list Z) (unreachable : list Path) : J (list Z * list Path) :=
  match paths with
  | [] => mret (groups, unreachable)
  | p :: paths =>
      r ← call (Stat p);
      match r with
      | AMeta meta =>
          if negb (is_char_device meta) then device_groups paths groups unreachable
          else
            match device_access (mode meta) (owner_gid meta) with
            | Anyone => device_groups paths groups unreachable
            | Group gid =>
                device_groups paths (if bool_decide (gid ∈ groups) then groups else groups ++ [gid]) unreachable
            | OwnerOnly => device_groups paths groups (unreachable ++ [p])
            end
      | _ => device_groups paths groups unreachable
      end
  end.

(** ** Into the jail, out of root *)

Definition enter_jail (jail_root : Path) : J () :=
  ensure (nul_free jail_root) ;;
  do_call (Chroot jail_root) ;;
  do_call (Chdir root_path).

Definition getnum (c : Call) : J Z := r ← call c; match r with ANum n => mret n | _ => refuse end.

Definition drop_privileges (uid gid : Z) (groups : list Z) : J () :=
  do_call (Setgroups groups) ;;
  do_call (Setgid gid) ;;
  do_call (Setuid uid) ;;
  got_uid ← getnum Getuid;
  got_gid ← getnum Getgid;
  ensure ((got_uid =? uid) && (got_gid =? gid)) ;;
  r ← call (Getgroups 64);
  match r with
  | AGroups got =>
      ensure (bool_decide (merge_sort Z.le got = merge_sort Z.le groups)) ;;
      regained ← call (Setuid 0);
      match regained with Done => refuse | _ => mret tt end
  | _ => refuse
  end.

(** ** Is the uid in use? *)

Definition real_uid (status : Text) : option Z :=
  f ← find_map (strip_prefix (ascii_bytes "Uid:")) (lines status);
  w ← first_word f;
  parse_u32 w.

Fixpoint check_pids (uid : Z) (names : list Text) : J () :=
  match names with
  | [] => mret tt
  | name :: names =>
      match parse_u32 name with
      | None => check_pids uid names
      | Some pid =>
          r ← call (ReadStatus pid);
          match r with
          | AText status => if bool_decide (real_uid status = Some uid) then refuse else check_pids uid names
          | _ => check_pids uid names
          end
      end
  end.

Definition refuse_if_uid_is_live (uid : Z) : J () :=
  r ← call ReadProc;
  match r with ANames names => check_pids uid names | _ => refuse end.

(** ** Exec *)

(** [execv] only returns to fail. *)
Definition exec_command (prog arg : Text) : J () :=
  do_call SetNoNewPrivs ;;
  ensure (negb (existsb (Z.eqb 0) prog || existsb (Z.eqb 0) arg)) ;;
  call (Execv prog [prog; arg]) ;;
  refuse.

Definition getpath (c : Call) : J Path := r ← call c; match r with APath p => mret p | _ => refuse end.

(** The part of [run] a dry run shares. *)
Definition run_config (parse_config : Text -> option BoxConfig) (args : Args) : J (Path * list Path) :=
  config_path ← getpath (Canonicalize (a_config args));
  r ← call (ReadToString config_path);
  text ← match r with AText s => mret s | _ => refuse end;
  cfg ← required (parse_config text);
  paths ← required (host_paths config_path cfg (bind args));
  mret (config_path, paths).

(** The jail made, furnished and entered. *)
Definition make_jail (args : Args) (image : Path) (paths : list Path) : J Path :=
  unshare_mount_namespace ;;
  pid ← getnum Getpid;
  jail ← build_jail image (path_join (scratch_dir args) (parse_path (decimal 10 pid [])));
  bind_mount jail (path_of "/proc") true ;;
  bind_mount jail (path_of "/sys") true ;;
  each (fun p => bind_mount jail p false) paths ;;
  enter_jail jail ;;
  mret jail.

(** Up to the drop: everything that needs root. *)
Definition run_jail (args : Args) (paths : list Path) : J (list Z * Path) :=
  euid ← getnum Geteuid;
  ensure (euid =? 0) ;;
  ensure (negb (a_uid args =? 0) && negb (a_gid args =? 0)) ;;
  image ← getpath (Canonicalize (jail_root args));
  r ← call (Stat image);
  ensure (match r with AMeta m => is_dir m | _ => false end) ;;
  refuse_if_uid_is_live (a_uid args) ;;
  '(groups, unreachable) ← device_groups paths [] [];
  ensure (match unreachable with [] => true | _ => false end) ;;
  jail ← make_jail args image paths;
  mret (groups, jail).

Definition run (parse_config : Text -> option BoxConfig) (args : Args) : J () :=
  '(config_path, paths) ← run_config parse_config args;
  if dry_run args then mret tt
  else
    '(groups, _) ← run_jail args paths;
    drop_privileges (a_uid args) (a_gid args) groups ;;
    exec_command (lossy (nesbox_bin args)) (lossy (path_text config_path)).

End Jailer.
