(* ===== verification/JailerFacts.v ===== *)
(** nesbox is started only out of root and inside its jail: whatever the host
    answers, an exec in the log of a run comes after everything that confines it,
    and with exactly the paths the configuration needs brought in. *)

From stdpp Require Import strings sorting.
From S2P Require Import Prelude Shared Jailer.

Section Facts.
Context {W : Type} {HW : JailHost W}.
Implicit Types (l lg : Log).

(** * Steps and their logs *)

Definition is_exec (c : Call) : bool := match c with Execv _ _ => true | _ => false end.
Definition no_exec l : Prop := Forall (fun e => is_exec (fst e) = false) l.

(** [m] adds to the log only, without an exec, and on success as [Q] says. *)
Definition yields {A} (m : J (W := W) A) (Q : Log -> A -> Prop) : Prop :=
  forall w lg, exists w' l r, m (w, lg) = ((w', lg ++ l), r) /\ no_exec l /\ forall a, r = Some a -> Q l a.

Lemma yields_ret {A} (x : A) : yields (mret x) (fun l a => l = [] /\ a = x).
Proof. intros w lg. exists w, [], (Some x). rewrite app_nil_r. split; [done|]. split; [constructor|]. by intros a [= <-]. Qed.

Lemma yields_refuse {A} (Q : Log -> A -> Prop) : yields refuse Q.
Proof. intros w lg. exists w, [], None. rewrite app_nil_r. split; [done|]. split; [constructor|done]. Qed.

Lemma yields_bind {A B} (m : J A) (f : A -> J B) Q R :
  yields m Q -> (forall a, yields (f a) (R a)) ->
  yields (m ≫= f) (fun l b => exists l1 l2 a, l = l1 ++ l2 /\ Q l1 a /\ R a l2 b).
Proof.
  intros Hm Hf w lg. destruct (Hm w lg) as (w1 & l1 & r & E & H1 & HQ). unfold mbind, J_bind. rewrite E.
  destruct r as [a|].
  - destruct (Hf a w1 (lg ++ l1)) as (w2 & l2 & r2 & E2 & H2 & HR). exists w2, (l1 ++ l2), r2. rewrite E2, app_assoc.
    split; [done|]. split; [by apply Forall_app|]. intros b Hb. exists l1, l2, a. eauto.
  - exists w1, l1, None. split; [done|]. split; [done|]. done.
Qed.

Lemma yields_weaken {A} (m : J A) (Q Q' : Log -> A -> Prop) : yields m Q -> (forall l a, Q l a -> Q' l a) -> yields m Q'.
Proof. intros Hm Hi w lg. destruct (Hm w lg) as (w' & l & r & E & H & HQ). exists w', l, r. eauto. Qed.

(** With a step that says nothing of its value. *)
Lemma yields_seq {A B} (m : J A) (f : A -> J B) (Q : Log -> A -> Prop) (R : Log -> B -> Prop) (P : Log -> B -> Prop) :
  yields m Q -> (forall a, yields (f a) R) -> (forall l1 a l2 b, Q l1 a -> R l2 b -> P (l1 ++ l2) b) -> yields (m ≫= f) P.
Proof.
  intros Hm Hf HP. eapply yields_weaken; [apply (yields_bind m f Q (fun _ => R)); done|].
  intros l b (l1 & l2 & a & -> & HQ & HR). eauto.
Qed.

Lemma yields_ensure b : yields (ensure b) (fun l _ => l = [] /\ b = true).
Proof.
  destruct b; [|apply yields_refuse]. eapply yields_weaken; [apply yields_ret|]. by intros l a [-> _].
Qed.

Lemma yields_required {A} (o : option A) : yields (required o) (fun l a => l = [] /\ o = Some a).
Proof.
  destruct o as [x|]; [|apply yields_refuse]. eapply yields_weaken; [apply yields_ret|]. by intros l a [-> ->].
Qed.

Lemma yields_call c : is_exec c = false -> yields (call c) (fun l r => l = [(c, r)]).
Proof.
  intros Hc w lg. unfold call. destruct (sys w c) as [w' r]. exists w', [(c, r)], (Some r). split; [done|].
  split; [by repeat constructor|]. by intros a [= <-].
Qed.

Lemma yields_do c : is_exec c = false -> yields (do_call c) (fun l _ => l = [(c, Done)]).
Proof.
  intros Hc. eapply yields_weaken; [apply (yields_bind (call c) _ (fun l r => l = [(c, r)]) (fun r l _ => l = [] /\ r = Done))|].
  - by apply yields_call.
  - intros r. destruct r; try apply yields_refuse. eapply yields_weaken; [apply yields_ret|]. by intros l a [-> _].
  - intros l a (l1 & l2 & r & -> & -> & -> & ->). done.
Qed.

Lemma yields_getnum c : is_exec c = false -> yields (getnum c) (fun l n => l = [(c, ANum n)]).
Proof.
  intros Hc. eapply yields_weaken; [apply (yields_bind (call c) _ (fun l r => l = [(c, r)]) (fun r l n => l = [] /\ r = ANum n))|].
  - by apply yields_call.
  - intros r. destruct r; try apply yields_refuse. eapply yields_weaken; [apply yields_ret|]. by intros l a [-> ->].
  - intros l n (l1 & l2 & r & -> & -> & -> & ->). done.
Qed.

Lemma yields_getpath c : is_exec c = false -> yields (getpath c) (fun l p => l = [(c, APath p)]).
Proof.
  intros Hc. eapply yields_weaken; [apply (yields_bind (call c) _ (fun l r => l = [(c, r)]) (fun r l n => l = [] /\ r = APath n))|].
  - by apply yields_call.
  - intros r. destruct r; try apply yields_refuse. eapply yields_weaken; [apply yields_ret|]. by intros l a [-> ->].
  - intros l n (l1 & l2 & r & -> & -> & -> & ->). done.
Qed.

(** Every element in turn. *)
Lemma yields_each {A} (f : A -> J ()) (P : A -> Log -> Prop) xs :
  (forall x, yields (f x) (fun l _ => P x l)) ->
  yields (each f xs) (fun l _ => exists ls, l = concat ls /\ Forall2 P xs ls).
Proof.
  intros Hf. induction xs as [|x xs IH]; cbn [each].
  - eapply yields_weaken; [apply yields_ret|]. intros l a [-> Ha]. exists []. split; [done|constructor].
  - eapply yields_seq; [apply Hf|intros _; exact IH|]. intros l1 a l2 b H1 (ls & -> & H2). exists (l1 :: ls).
    split; [done|by constructor].
Qed.

(** * What a log does to a process *)

Record Cred := {
  ruid : Z; euid : Z; suid : Z;
  rgid : Z; egid : Z; sgid : Z;
  cgroups : list Z;
  no_new_privs : bool;
  croot : option Path;       (* the directory chrooted into *)
  cwd_inside : bool;         (* the current directory is under it *)
  own_mounts : bool;         (* in a mount namespace of its own *)
  private_mounts : bool;     (* and mounts do not propagate out of it *)
  leaked : list Path         (* mounts made before that *)
}.

Definition root_cred : Cred :=
  {| ruid := 0; euid := 0; suid := 0; rgid := 0; egid := 0; sgid := 0; cgroups := [0]; no_new_privs := false; croot := None;
     cwd_inside := false; own_mounts := false; private_mounts := false; leaked := [] |}.

(** A successful call's documented effect; a failed one has none. *)
Definition after (c : Cred) (e : Call * Reply) : Cred :=
  match e with
  | (Setuid u, Done) =>
      let root := euid c =? 0 in
      {| ruid := if root then u else ruid c; euid := u; suid := if root then u else suid c; rgid := rgid c; egid := egid c;
         sgid := sgid c; cgroups := cgroups c; no_new_privs := no_new_privs c; croot := croot c; cwd_inside := cwd_inside c;
         own_mounts := own_mounts c; private_mounts := private_mounts c; leaked := leaked c |}
  | (Setgid g, Done) =>
      let root := euid c =? 0 in
      {| ruid := ruid c; euid := euid c; suid := suid c; rgid := if root then g else rgid c; egid := g;
         sgid := if root then g else sgid c; cgroups := cgroups c; no_new_privs := no_new_privs c; croot := croot c;
         cwd_inside := cwd_inside c; own_mounts := own_mounts c; private_mounts := private_mounts c; leaked := leaked c |}
  | (Setgroups gs, Done) =>
      {| ruid := ruid c; euid := euid c; suid := suid c; rgid := rgid c; egid := egid c; sgid := sgid c; cgroups := gs;
         no_new_privs := no_new_privs c; croot := croot c; cwd_inside := cwd_inside c; own_mounts := own_mounts c;
         private_mounts := private_mounts c; leaked := leaked c |}
  | (SetNoNewPrivs, Done) =>
      {| ruid := ruid c; euid := euid c; suid := suid c; rgid := rgid c; egid := egid c; sgid := sgid c; cgroups := cgroups c;
         no_new_privs := true; croot := croot c; cwd_inside := cwd_inside c; own_mounts := own_mounts c;
         private_mounts := private_mounts c; leaked := leaked c |}
  | (Chroot p, Done) =>
      {| ruid := ruid c; euid := euid c; suid := suid c; rgid := rgid c; egid := egid c; sgid := sgid c; cgroups := cgroups c;
         no_new_privs := no_new_privs c; croot := Some p; cwd_inside := false; own_mounts := own_mounts c;
         private_mounts := private_mounts c; leaked := leaked c |}
  | (Chdir p, Done) =>
      {| ruid := ruid c; euid := euid c; suid := suid c; rgid := rgid c; egid := egid c; sgid := sgid c; cgroups := cgroups c;
         no_new_privs := no_new_privs c; croot := croot c; cwd_inside := cwd_inside c || bool_decide (p = root_path);
         own_mounts := own_mounts c; private_mounts := private_mounts c; leaked := leaked c |}
  | (Unshare ns, Done) =>
      {| ruid := ruid c; euid := euid c; suid := suid c; rgid := rgid c; egid := egid c; sgid := sgid c; cgroups := cgroups c;
         no_new_privs := no_new_privs c; croot := croot c; cwd_inside := cwd_inside c;
         own_mounts := own_mounts c || has_bits ns CLONE_NEWNS; private_mounts := private_mounts c; leaked := leaked c |}
  | (Mount source target _ flags _, Done) =>
      let private := has_bits flags MS_PRIVATE && has_bits flags MS_REC && bool_decide (target = root_path) && own_mounts c in
      {| ruid := ruid c; euid := euid c; suid := suid c; rgid := rgid c; egid := egid c; sgid := sgid c; cgroups := cgroups c;
         no_new_privs := no_new_privs c; croot := croot c; cwd_inside := cwd_inside c; own_mounts := own_mounts c;
         private_mounts := private_mounts c || private;
         leaked := if private_mounts c || private then leaked c else leaked c ++ [target] |}
  | _ => c
  end.

Definition replay (c : Cred) l : Cred := foldl after c l.

(** Calls that do not change the process. *)
Definition neutral (c : Call) : bool :=
  match c with
  | Setuid _ | Setgid _ | Setgroups _ | SetNoNewPrivs | Chroot _ | Chdir _ | Unshare _ | Mount _ _ _ _ _ | Execv _ _ => false
  | _ => true
  end.
Definition quiet l : Prop := Forall (fun e => neutral (fst e) = true) l.

Lemma replay_app c l k : replay c (l ++ k) = replay (replay c l) k.
Proof. apply foldl_app. Qed.

Lemma quiet_replay c l : quiet l -> replay c l = c.
Proof.
  intros H. revert c. induction H as [|[x r] l Hx _ IH]; intros c; [done|]. unfold replay in *. cbn [foldl].
  rewrite <- (IH c) at 2. f_equal. by destruct x.
Qed.

(** With mounts already private, mounting changes nothing either. *)
Definition mounts_only l : Prop := Forall (fun e => neutral (fst e) = true \/ exists s t f g d, fst e = Mount s t f g d) l.

(** The mounts of a log, in order. *)
Definition is_mount (c : Call) : bool := match c with Mount _ _ _ _ _ => true | _ => false end.
Definition mounts l : list (Call * Reply) := filter (fun e => is_mount (fst e) = true) l.

Lemma mounts_app l k : mounts (l ++ k) = mounts l ++ mounts k.
Proof. apply filter_app. Qed.

Lemma quiet_no_mounts l : quiet l -> mounts l = [].
Proof.
  induction 1 as [|[c r] l Hc _ IH]; [done|]. unfold mounts. rewrite filter_cons_False; [done|]. by destruct c.
Qed.

Lemma mounts_replay c l : private_mounts c = true -> mounts_only l -> replay c l = c.
Proof.
  intros Hp H. induction H as [|[x r] l Hx _ IH]; [done|]. unfold replay in *. cbn [foldl].
  assert (after c (x, r) = c) as ->; [|done]. destruct Hx as [Hx|(s & t & f & g & d & Hx)]; simpl in Hx; [by destruct x|subst].
  destruct r; try done. cbn [after]. rewrite Hp. simpl. destruct c; simpl in *. by subst.
Qed.

(** * Each operation's log *)

Lemma yields_raw_mount source target fstype fl data :
  yields (raw_mount source target fstype fl data) (fun l _ => l = [(Mount source target fstype fl data, Done)]).
Proof.
  unfold raw_mount. do 3 (eapply yields_seq; [apply yields_ensure|intros _|by intros ? ? ? ? [-> _] H; exact H]).
  by apply yields_do.
Qed.

Definition Cut : Log :=
  [(Unshare CLONE_NEWNS, Done); (Mount None root_path None (Z.lor MS_REC MS_PRIVATE) None, Done)].

Lemma yields_unshare : yields unshare_mount_namespace (fun l _ => l = Cut).
Proof. eapply yields_seq; [by apply yields_do|intros _; apply yields_raw_mount|]. by intros l1 a l2 b -> ->. Qed.

Lemma mounts_only_app l k : mounts_only l -> mounts_only k -> mounts_only (l ++ k).
Proof. intros H1 H2. by apply Forall_app. Qed.

Lemma mount_only s t f g d r : mounts_only [(Mount s t f g d, r)].
Proof. apply Forall_singleton. right. by eexists _, _, _, _, _. Qed.

Lemma yields_lstat p : yields (lstat p) (fun l _ => quiet l).
Proof.
  eapply (yields_seq _ _ _ (fun l _ => l = [])); [by apply yields_call| |].
  - intros r. destruct r; try apply yields_refuse. eapply yields_weaken; [apply yields_ret|]. by intros l a [-> _].
  - intros l1 a l2 b -> ->. by repeat constructor.
Qed.

Lemma quiet_mounts l : quiet l -> mounts_only l.
Proof. intros H. eapply Forall_impl; [exact H|]. by left. Qed.

(** A mount of [p] into [jail] under its own name. *)
Definition bound (jail p : Path) (flags : Z) : Call * Reply := (Mount (Some p) (target_path jail p) None flags None, Done).

Lemma yields_quiet_do c : neutral c = true -> yields (do_call c) (fun l _ => quiet l).
Proof.
  intros Hc. eapply yields_weaken; [apply yields_do; by destruct c|]. intros l a ->. by repeat constructor.
Qed.

Lemma yields_place (isdir : bool) target :
  yields (if isdir then do_call (CreateDirAll target)
          else match path_parent target with Some parent => do_call (CreateDirAll parent) | None => mret tt end ;;
               do_call (OpenCreate target)) (fun l _ => quiet l).
Proof.
  destruct isdir; [by apply yields_quiet_do|].
  eapply (yields_seq _ _ (fun l _ => quiet l)); [|intros _; by apply yields_quiet_do|by intros; apply Forall_app].
  destruct (path_parent target); [by apply yields_quiet_do|]. eapply yields_weaken; [apply yields_ret|].
  intros l a [-> _]. constructor.
Qed.

Lemma yields_bind_mount jail p rec :
  yields (bind_mount jail p rec) (fun l _ =>
    mounts_only l /\ mounts l = [bound jail p (Z.lor MS_BIND (if rec then MS_REC else 0))]).
Proof.
  unfold bind_mount. match goal with |- yields _ ?R => set (G := R) end.
  assert (HG : forall l1 l2 b, quiet l1 -> G l2 b -> G (l1 ++ l2) b).
  { intros l1 l2 b H1 [H2 H3]. split; [by apply mounts_only_app; [apply quiet_mounts|]|].
    by rewrite mounts_app, quiet_no_mounts, H3. }
  eapply (yields_seq _ _ _ G); [apply yields_ensure|intros _|by intros ? ? l b [-> _] H].
  eapply (yields_seq _ _ _ G); [apply yields_lstat|intros meta|by intros; apply HG].
  eapply yields_seq; [apply yields_place|intros _; apply yields_raw_mount|].
  intros l1 a l2 b H1 ->. apply HG; [done|]. split; [apply mount_only|done].
Qed.

(** The jail's own two mounts: the private layer, and the overlay of the image
    and that layer. *)
Definition layers (image scratch jail : Path) (opts : Text) : Log :=
  [(Mount (Some (path_of "tmpfs")) scratch (Some (ascii_bytes "tmpfs")) (Z.lor MS_NOSUID MS_NODEV) (Some SCRATCH_SIZE), Done);
   (Mount (Some (path_of "overlay")) jail (Some (ascii_bytes "overlay")) (Z.lor MS_NOSUID MS_NODEV) (Some opts), Done)].

Lemma yields_build_jail image scratch :
  yields (build_jail image scratch) (fun l jail => mounts_only l /\ jail = path_join scratch (path_of "merged") /\
    exists opts, overlay_options image (path_join scratch (path_of "upper")) (path_join scratch (path_of "work")) = Some opts /\
    mounts l = layers image scratch jail opts).
Proof.
  unfold build_jail. eapply yields_weaken.
  { apply yields_bind; [by apply (yields_quiet_do (CreateDirAll scratch))|intros ?].
    apply yields_bind; [apply yields_raw_mount|intros ?].
    apply yields_bind; [apply (yields_each _ (fun _ l => quiet l)); intros x; by apply yields_quiet_do|intros ?].
    apply yields_bind; [apply yields_required|intros opts]. apply yields_bind; [apply yields_raw_mount|intros ?].
    apply yields_ret. }
  cbv beta. intros l jail (l0 & ? & ? & -> & H0 & l1 & ? & ? & -> & -> & l2 & ? & ? & -> & (ls & -> & Hs) & l3 & ? & opts & -> &
    [-> Ho] & l4 & ? & ? & -> & -> & -> & ->).
  assert (Hq : quiet (concat ls)) by (clear -Hs; induction Hs; [constructor|by apply Forall_app]).
  split; [|split; [done|]].
  - do 4 (apply mounts_only_app; [by (apply mount_only || (by apply quiet_mounts) || constructor)|]).
    apply mounts_only_app; [apply mount_only|constructor].
  - exists opts. split; [done|]. by rewrite !mounts_app, (quiet_no_mounts l0), (quiet_no_mounts (concat ls)) by done.
Qed.

(** A character device the log saw, and who may use it. *)
Definition device_seen l (a : DeviceAccess) : Prop :=
  exists p m, (Stat p, AMeta m) ∈ l /\ is_char_device m = true /\ device_access (mode m) (owner_gid m) = a.

Lemma device_seen_cons e l a : device_seen (e :: l) a <-> device_seen [e] a \/ device_seen l a.
Proof.
  split.
  - intros (p & m & H & Hc). apply elem_of_cons in H as [<-|H]; [left|right]; exists p, m; [split; [by left|done]|done].
  - intros [(p & m & H & Hc)|(p & m & H & Hc)]; exists p, m; (split; [|done]).
    + apply list_elem_of_singleton in H as <-. by left.
    + by right.
Qed.

Lemma seen_one p r a :
  device_seen [(Stat p, r)] a <->
  exists m, r = AMeta m /\ is_char_device m = true /\ device_access (mode m) (owner_gid m) = a.
Proof.
  split.
  - intros (q & m & H & Hc). apply list_elem_of_singleton in H as [= <- <-]. eauto.
  - intros (m & -> & Hc). exists p, m. split; [by left|done].
Qed.

Lemma device_access_group mode gid g : device_access mode gid = Group g -> g = gid /\ g <> 0.
Proof. unfold device_access. repeat case_match; try done. intros [= <-]. split; [done|]. lia. Qed.

(** What [device_groups] answers, from the files it looked at. *)
Definition sorted_out (paths : list Path) (groups : list Z) (unreachable : list Path) l (gs : list Z) (un : list Path) : Prop :=
  fst <$> l = Stat <$> paths /\
  (forall g, g ∈ gs <-> g ∈ groups \/ device_seen l (Group g)) /\
  (un = [] -> unreachable = [] /\ ~ device_seen l OwnerOnly).

Lemma sorted_out_cons p r paths groups unreachable groups' unreachable' l gs un :
  sorted_out paths groups' unreachable' l gs un ->
  (forall g, g ∈ groups' <-> g ∈ groups \/ device_seen [(Stat p, r)] (Group g)) ->
  (unreachable' = [] -> unreachable = [] /\ ~ device_seen [(Stat p, r)] OwnerOnly) ->
  sorted_out (p :: paths) groups unreachable ((Stat p, r) :: l) gs un.
Proof.
  intros (H1 & H2 & H3) Hg Hu. split; [cbn; by rewrite H1|]. split.
  - intros g. rewrite H2, Hg, (device_seen_cons _ l (Group g)). tauto.
  - intros Hn. destruct (H3 Hn) as [Hn' H4]. destruct (Hu Hn') as [H5 H6]. split; [done|]. rewrite device_seen_cons. tauto.
Qed.

(** Nothing to keep for a file that is not a device for some. *)
Lemma nothing_seen p r (groups : list Z) (unreachable : list Path) :
  (forall m, r = AMeta m -> is_char_device m = true -> device_access (mode m) (owner_gid m) = Anyone) ->
  (forall g, g ∈ groups <-> g ∈ groups \/ device_seen [(Stat p, r)] (Group g)) /\
  (unreachable = [] -> unreachable = [] /\ ~ device_seen [(Stat p, r)] OwnerOnly).
Proof.
  intros Hr. assert (Hs : forall a, device_seen [(Stat p, r)] a -> a = Anyone).
  { intros a (m & -> & Hc & <-)%seen_one. by apply Hr. }
  split; [|intros ->; split; [done|by intros H%Hs]].
  intros g. split; [by left|]. by intros [H|H%Hs].
Qed.

Lemma sorted_out_skip p r paths groups unreachable l gs un :
  (forall m, r = AMeta m -> is_char_device m = true -> device_access (mode m) (owner_gid m) = Anyone) ->
  sorted_out paths groups unreachable l gs un ->
  sorted_out (p :: paths) groups unreachable ((Stat p, r) :: l) gs un.
Proof. intros Hr H. destruct (nothing_seen p r groups unreachable Hr). by eapply sorted_out_cons. Qed.

Lemma yields_device_groups paths groups unreachable :
  yields (device_groups paths groups unreachable) (fun l x => sorted_out paths groups unreachable l x.1 x.2).
Proof.
  revert groups unreachable. induction paths as [|p paths IH]; intros groups unreachable; cbn [device_groups].
  { eapply yields_weaken; [apply yields_ret|]. intros l x [-> ->]. cbn [fst snd]. split; [done|]. split; [|intros ->; split; [done|]].
    - intros g. split; [by left|]. intros [H|(q & m & H & _)]; [done|]. by apply elem_of_nil in H.
    - intros (q & m & H & _). by apply elem_of_nil in H. }
  eapply yields_weaken.
  { apply (yields_bind _ _ (fun l r => l = [(Stat p, r)])
      (fun r l x => sorted_out (p :: paths) groups unreachable ((Stat p, r) :: l) x.1 x.2)); [by apply yields_call|].
    intros r. destruct r as [| | | | | |m|]; try (eapply yields_weaken; [apply IH|]; intros; by apply sorted_out_skip).
    destruct (is_char_device m) eqn:Hc; cbn [negb].
    2:{ eapply yields_weaken; [apply IH|]. intros l x. apply sorted_out_skip. by intros m' [= <-] ?; congruence. }
    destruct (device_access _ _) as [|gid|] eqn:Ha; (eapply yields_weaken; [apply IH|]); intros l x H.
    - apply sorted_out_skip; [|done]. by intros m' [= <-] ?.
    - eapply sorted_out_cons; [exact H| |].
      + intros g. rewrite seen_one. transitivity (g ∈ groups \/ g = gid).
        * case_bool_decide; [|rewrite elem_of_app, list_elem_of_singleton]; naive_solver.
        * split; (intros [?|Hg]; [by left|right]); [subst; eauto|]. destruct Hg as (m' & [= <-] & _ & Hm). congruence.
      + intros ->. split; [done|]. rewrite seen_one. intros (m' & [= <-] & _ & Hm). congruence.
    - eapply sorted_out_cons; [exact H| |].
      + intros g. rewrite seen_one. split; [by left|]. intros [?|(m' & [= <-] & _ & Hm)]; [done|congruence].
      + by intros [_ ?]%app_nil. }
  intros l x (l1 & l2 & r & -> & -> & H). exact H.
Qed.

Lemma sorted_quiet paths groups unreachable l gs un : sorted_out paths groups unreachable l gs un -> quiet l.
Proof.
  intros [H _]. revert paths H. induction l as [|[c r] l IH]; intros [|p paths]; try done; [constructor|].
  cbn. intros [= -> H]. constructor; [done|by eapply IH].
Qed.

(** No process the log looked at runs as [uid]. *)
Definition none_runs_as (uid : Z) (names : list Text) l : Prop :=
  fst <$> l = ReadStatus <$> omap parse_u32 names /\
  Forall (fun e => forall status, snd e = AText status -> real_uid status <> Some uid) l.

Lemma yields_check_pids uid names : yields (check_pids uid names) (fun l _ => none_runs_as uid names l).
Proof.
  induction names as [|name names IH]; cbn [check_pids].
  { eapply yields_weaken; [apply yields_ret|]. intros l a [-> _]. split; [done|constructor]. }
  destruct (parse_u32 name) as [pid|] eqn:E.
  2:{ eapply yields_weaken; [apply IH|]. intros l _ [H1 H2]. split; [|done]. cbn. by rewrite E. }
  eapply yields_weaken.
  { apply (yields_bind _ _ (fun l r => l = [(ReadStatus pid, r)]) (fun r l _ => none_runs_as uid names l /\
      forall status, r = AText status -> real_uid status <> Some uid)); [by apply yields_call|].
    intros r. destruct r; try (eapply yields_weaken; [apply IH|]; by intros).
    case_bool_decide as Hu; [apply yields_refuse|]. eapply yields_weaken; [apply IH|]. intros l v H. split; [done|].
    by intros ? [= <-]. }
  intros l a (l1 & l2 & r & -> & -> & [H1 H2] & H3). split; [cbn; by rewrite E; cbn; rewrite H1|by constructor].
Qed.

Lemma none_runs_quiet uid names l : none_runs_as uid names l -> quiet l.
Proof.
  intros [H _]. revert H. generalize (omap parse_u32 names). induction l as [|[c r] l IH]; intros [|p ps]; try done; [constructor|].
  cbn. intros [= -> H]. constructor; [done|by eapply IH].
Qed.

(** The uid was looked for among every process and not found. *)
Definition uid_free uid l : Prop :=
  exists names l', l = (ReadProc, ANames names) :: l' /\ none_runs_as uid names l'.

Lemma yields_uid_free uid : yields (refuse_if_uid_is_live uid) (fun l _ => uid_free uid l).
Proof.
  unfold refuse_if_uid_is_live. eapply yields_weaken.
  { apply (yields_bind _ _ (fun l r => l = [(ReadProc, r)]) (fun r l _ => exists names, r = ANames names /\ none_runs_as uid names l));
      [by apply yields_call|].
    intros r. destruct r; try apply yields_refuse. eapply yields_weaken; [apply yields_check_pids|]. eauto. }
  intros l a (l1 & l2 & r & -> & -> & names & -> & H). by exists names, l2.
Qed.

Lemma uid_free_quiet uid l : uid_free uid l -> quiet l.
Proof. intros (names & l' & -> & H). constructor; [done|by eapply none_runs_quiet]. Qed.

Definition Entry (jail : Path) : Log := [(Chroot jail, Done); (Chdir root_path, Done)].

Lemma yields_enter jail : yields (enter_jail jail) (fun l _ => l = Entry jail).
Proof.
  unfold enter_jail. eapply yields_seq; [apply yields_ensure|intros _|by intros ? ? ? ? [-> _] H; exact H].
  eapply yields_seq; [by apply yields_do|intros _; by apply yields_do|]. by intros l1 a l2 b -> ->.
Qed.

(** The drop, checked by asking and by failing to come back. *)
Definition Dropped (uid gid : Z) (groups : list Z) l : Prop :=
  exists got regained,
    l = [(Setgroups groups, Done); (Setgid gid, Done); (Setuid uid, Done); (Getuid, ANum uid); (Getgid, ANum gid);
         (Getgroups 64, AGroups got); (Setuid 0, regained)] /\
    got ≡ₚ groups /\ regained <> Done.

Lemma yields_drop uid gid groups : yields (drop_privileges uid gid groups) (fun l _ => Dropped uid gid groups l).
Proof.
  unfold drop_privileges. eapply yields_weaken.
  { do 3 (apply yields_bind; [by apply yields_do|intros ?]). do 2 (apply yields_bind; [by apply yields_getnum|intros ?]).
    apply yields_bind; [apply yields_ensure|intros ?].
    apply (yields_bind _ _ (fun l r => l = [(Getgroups 64, r)]) (fun r l _ => exists got regained,
      r = AGroups got /\ l = [(Setuid 0, regained)] /\ got ≡ₚ groups /\ regained <> Done)); [by apply yields_call|].
    intros r. destruct r as [| | | | | | |got]; try apply yields_refuse. eapply yields_weaken.
    { apply yields_bind; [apply yields_ensure|intros ?]. apply (yields_bind _ _ (fun l r => l = [(Setuid 0, r)])
        (fun r l _ => l = [] /\ r <> Done)); [by apply yields_call|].
      intros r. destruct r; try apply yields_refuse; (eapply yields_weaken; [apply yields_ret|]; by intros ? ? [-> _]). }
    cbv beta. intros l u (l1 & l2 & v & -> & [-> Hg] & l3 & l4 & r & -> & -> & -> & Hr). apply bool_decide_eq_true in Hg.
    exists got, r. split; [done|]. split; [done|]. split; [|done].
    by rewrite <- (merge_sort_Permutation Z.le got), Hg, (merge_sort_Permutation Z.le groups). }
  cbv beta. intros l u H. repeat match goal with H : exists _, _ |- _ => destruct H | H : _ /\ _ |- _ => destruct H end. subst.
  match goal with H : _ && _ = true |- _ => apply andb_true_iff in H as [?%Z.eqb_eq ?%Z.eqb_eq] end. subst.
  by eexists _, _.
Qed.

(** * The run *)

Definition Configured parse_config (args : Args) (config_path : Path) (paths : list Path) l : Prop :=
  exists text cfg,
    l = [(Canonicalize (a_config args), APath config_path); (ReadToString config_path, AText text)] /\
    parse_config text = Some cfg /\ host_paths config_path cfg (bind args) = Some paths.

Lemma yields_run_config parse_config args :
  yields (run_config parse_config args) (fun l x => Configured parse_config args x.1 x.2 l).
Proof.
  unfold run_config. eapply yields_weaken.
  { apply yields_bind; [by apply yields_getpath|intros config_path]. apply yields_bind; [by apply yields_call|intros r].
    apply (yields_bind _ _ (fun l text => l = [] /\ r = AText text)).
    { destruct r; try apply yields_refuse. eapply yields_weaken; [apply yields_ret|]. by intros ? ? [-> ->]. }
    intros text. apply yields_bind; [apply yields_required|intros cfg]. apply yields_bind; [apply yields_required|intros paths].
    apply yields_ret. }
  cbv beta. intros l x H. repeat match goal with H : exists _, _ |- _ => destruct H | H : _ /\ _ |- _ => destruct H end. subst.
  by eexists _, _.
Qed.

(** Membership and inclusion in logs put together. *)
Lemma in_left (e : Call * Reply) l k : e ∈ l -> e ∈ l ++ k.
Proof. rewrite elem_of_app. by left. Qed.
Lemma in_right (e : Call * Reply) l k : e ∈ k -> e ∈ l ++ k.
Proof. rewrite elem_of_app. by right. Qed.
Lemma sub_left m l k : m ⊆ l -> m ⊆ l ++ k.
Proof. intros H e He. by apply in_left, H. Qed.
Lemma sub_right m l k : m ⊆ k -> m ⊆ l ++ k.
Proof. intros H e He. by apply in_right, H. Qed.
Lemma sub_self l : l ⊆ l.
Proof. done. Qed.
Create HintDb logs.
#[local] Hint Resolve sub_self sub_left sub_right in_left in_right list_elem_of_here list_elem_of_further : logs.
Local Ltac listed := eauto 12 with logs.

(** Everything mounted in the jail: /proc and /sys with what is mounted under
    them, then the needed paths, one mount each. *)
Definition furniture (jail : Path) (paths : list Path) : Log :=
  [bound jail (path_of "/proc") (Z.lor MS_BIND MS_REC); bound jail (path_of "/sys") (Z.lor MS_BIND MS_REC)] ++
  ((fun p => bound jail p MS_BIND) <$> paths).

Lemma each_mounts jail paths ls :
  Forall2 (fun p l => mounts_only l /\ mounts l = [bound jail p (Z.lor MS_BIND 0)]) paths ls ->
  mounts_only (concat ls) /\ mounts (concat ls) = (fun p => bound jail p MS_BIND) <$> paths.
Proof.
  induction 1 as [|p l paths ls (H1 & H2) _ [IH1 IH2]]; [split; constructor|]. cbn [concat]. split.
  - by apply mounts_only_app.
  - by rewrite mounts_app, H2, IH2.
Qed.

(** What a run mounted, in order: propagation cut, the jail's layers, and what is
    brought in, and nothing else. *)
Definition jail_mounts (image scratch jail : Path) (paths : list Path) l : Prop :=
  jail = path_join scratch (path_of "merged") /\
  exists opts, overlay_options image (path_join scratch (path_of "upper")) (path_join scratch (path_of "work")) = Some opts /\
    mounts l = [(Mount None root_path None (Z.lor MS_REC MS_PRIVATE) None, Done)] ++
               layers image scratch jail opts ++ furniture jail paths.

(** The log of making a jail. *)
Record Made (args : Args) (image : Path) (paths : list Path) (jail : Path) (pid : Z) (inside l : Log) : Prop := {
  m_log : l = Cut ++ inside ++ Entry jail;
  m_mounts : mounts_only inside;
  m_made : jail_mounts image (path_join (scratch_dir args) (parse_path (decimal 10 pid []))) jail paths l
}.

Lemma yields_make_jail args image paths :
  yields (make_jail args image paths) (fun l jail => exists pid inside, Made args image paths jail pid inside l).
Proof.
  unfold make_jail. eapply yields_weaken.
  { apply yields_bind; [apply yields_unshare|intros ?].
    apply yields_bind; [by apply yields_getnum|intros pid]. apply yields_bind; [apply yields_build_jail|intros jail].
    do 2 (apply yields_bind; [apply yields_bind_mount|intros ?]).
    apply yields_bind; [apply yields_each; intros x; apply (yields_bind_mount jail x false)|intros ?].
    apply yields_bind; [apply yields_enter|intros ?]. apply yields_ret. }
  cbv beta. intros l jail (? & l0 & ? & -> & -> & ? & l1 & pid & -> & -> & lb & l2 & jail' & -> & (Hb1 & Hb2 & o & Ho & Hm) &
    lp & l3 & ? & -> & (Hp1 & Hp2) & ls & l4 & ? & -> & (Hs1 & Hs2) & le & l5 & ? & -> & (lss & -> & He) &
    lj & l6 & ? & -> & -> & -> & ->).
  apply each_mounts in He as [He1 He2].
  exists pid, ([(Getpid, ANum pid)] ++ lb ++ lp ++ ls ++ concat lss). split.
  - by rewrite !app_assoc, app_nil_r.
  - repeat apply mounts_only_app; try done. by apply quiet_mounts, Forall_singleton.
  - split; [done|]. exists o. split; [done|]. rewrite !mounts_app, Hm, Hp2, Hs2, He2. simpl. by rewrite !app_nil_r.
Qed.

(** The log of everything done as root. *)
Record Jailed (args : Args) (paths : list Path) (groups : list Z) (jail image : Path) (pid : Z) (before uids devs inside l : Log)
    : Prop := {
  j_log : l = before ++ Cut ++ inside ++ Entry jail;
  j_quiet : quiet before;
  j_root : (Geteuid, ANum 0) ∈ before;
  j_ids : a_uid args <> 0 /\ a_gid args <> 0;
  j_canon : (Canonicalize (jail_root args), APath image) ∈ before;
  j_free : uids ⊆ before /\ uid_free (a_uid args) uids;
  j_groups : devs ⊆ before /\ sorted_out paths [] [] devs groups [];
  j_made : Made args image paths jail pid inside (Cut ++ inside ++ Entry jail)
}.

Lemma yields_run_jail args paths :
  yields (run_jail args paths) (fun l x => exists image pid before uids devs inside,
    Jailed args paths x.1 x.2 image pid before uids devs inside l).
Proof.
  unfold run_jail. eapply yields_weaken.
  { apply yields_bind; [by apply yields_getnum|intros euid]. do 2 (apply yields_bind; [apply yields_ensure|intros ?]).
    apply yields_bind; [by apply yields_getpath|intros image]. apply yields_bind; [by apply yields_call|intros r].
    apply yields_bind; [apply yields_ensure|intros ?]. apply yields_bind; [apply yields_uid_free|intros ?].
    apply (yields_bind _ _ (fun l x => sorted_out paths [] [] l x.1 x.2) (fun x l y => x.2 = [] /\ y.1 = x.1 /\ exists pid inside, Made args image paths y.2 pid inside l));
      [apply yields_device_groups|].
    intros [groups unreachable]. eapply yields_weaken.
    { apply yields_bind; [apply yields_ensure|intros ?]. apply yields_bind; [apply yields_make_jail|intros jail]. apply yields_ret. }
    cbv beta. intros l y (? & l1 & ? & -> & [-> Hu] & l2 & ? & jail & -> & Hm & -> & ->). rewrite app_nil_r.
    split; [by destruct unreachable|done]. }
  cbv beta. intros l [groups jail] (? & l0 & euid & -> & -> & ? & l1 & ? & -> & [-> He] & ? & l2 & ? & -> & [-> Hi] &
    ? & l3 & image & -> & -> & ? & l4 & r & -> & -> & ? & l5 & ? & -> & [-> Hr] & lu & l6 & ? & -> & Hu &
    ld & l7 & [gs un] & -> & Hd & Hun & Hgs & pid & inside & Hm). cbn [fst snd] in *. subst un gs.
  apply Z.eqb_eq in He as ->. destruct Hm as [-> Hm].
  exists image, pid, ([(Geteuid, ANum 0)] ++ [(Canonicalize (jail_root args), APath image)] ++ [(Stat image, r)] ++ lu ++ ld),
    lu, ld, inside. split.
  - by rewrite !app_assoc.
  - unfold quiet. rewrite !Forall_app. split_and!; [by repeat constructor..|by eapply uid_free_quiet|by eapply sorted_quiet].
  - listed.
  - apply andb_true_iff in Hi. rewrite !negb_true_iff, !Z.eqb_neq in Hi. done.
  - listed.
  - split; [listed|done].
  - split; [listed|done].
  - by split.
Qed.

(** [exec_command]: nothing, or no_new_privs and then the exec, which ends the log. *)
Lemma exec_log prog arg w lg :
  exists w' l, exec_command prog arg (w, lg) = ((w', lg ++ l), None) /\
    (no_exec l \/ exists r, l = [(SetNoNewPrivs, Done); (Execv prog [prog; arg], r)]).
Proof.
  unfold exec_command, mbind, J_bind. 
  destruct (yields_do SetNoNewPrivs eq_refl w lg) as (w1 & l1 & r1 & -> & H1 & H2).
  destruct r1 as [u|]; [|eauto]. rewrite (H2 u eq_refl) in *. destruct (negb _); cbn; [|eauto].
  destruct (sys w1 _) as [w2 r]. exists w2. eexists. split; [by rewrite <- app_assoc|]. right. by exists r.
Qed.

(** The log of a run that reaches the exec, up to it. *)
Record Confining parse_config (args : Args) (config_path : Path) (paths : list Path) (groups : list Z) (jail : Path) (l : Log) : Prop := {
  c_dry : dry_run args = false;
  c_log : exists lc lj ld image pid before uids devs inside,
    l = lc ++ lj ++ ld ++ [(SetNoNewPrivs, Done)] /\ Configured parse_config args config_path paths lc /\
    Jailed args paths groups jail image pid before uids devs inside lj /\ Dropped (a_uid args) (a_gid args) groups ld;
  c_no_exec : no_exec l
}.

Lemma run_log parse_config args w lg :
  exists w' l res, run parse_config args (w, lg) = ((w', lg ++ l), res) /\
    (no_exec l \/ exists config_path paths groups jail pre r,
       l = pre ++ [(Execv (lossy (nesbox_bin args)) [lossy (nesbox_bin args); lossy (path_text config_path)], r)] /\
       Confining parse_config args config_path paths groups jail pre).
Proof.
  unfold run, mbind, J_bind.
  destruct (yields_run_config parse_config args w lg) as (w1 & l1 & r1 & -> & N1 & H1).
  destruct r1 as [[config_path paths]|]; [|by eexists _, _, _; eauto]. specialize (H1 _ eq_refl).
  destruct (dry_run args) eqn:Hdry; [by eexists _, _, _; eauto|].
  destruct (yields_run_jail args paths w1 (lg ++ l1)) as (w2 & l2 & r2 & -> & N2 & H2). rewrite <- app_assoc.
  destruct r2 as [[groups jail]|]; [|eexists _, _, _; split; [done|left; by apply Forall_app]].
  destruct (H2 _ eq_refl) as (image & pid & before & uids & devs & inside & H2').
  destruct (yields_drop (a_uid args) (a_gid args) groups w2 (lg ++ l1 ++ l2)) as (w3 & l3 & r3 & -> & N3 & H3).
  rewrite <- !app_assoc. destruct r3 as [u|]; [|eexists _, _, _; split; [done|left; by repeat apply Forall_app_2]].
  specialize (H3 _ eq_refl).
  destruct (exec_log (lossy (nesbox_bin args)) (lossy (path_text config_path)) w3 (lg ++ l1 ++ l2 ++ l3)) as (w4 & l4 & -> & H4).
  rewrite <- !app_assoc. eexists _, _, _. split; [done|]. destruct H4 as [N4|[r ->]]; [left; by repeat apply Forall_app_2|right].
  exists config_path, paths, groups, jail, (l1 ++ l2 ++ l3 ++ [(SetNoNewPrivs, Done)]), r.
  split; [by rewrite <- !app_assoc|]. split; [done| |by repeat (apply Forall_app_2; [done|]); repeat constructor].
  by exists l1, l2, l3, image, pid, before, uids, devs, inside.
Qed.

(** What a process that made those calls is. *)
Definition jailed_cred (uid gid : Z) (groups : list Z) (jail : Path) : Cred :=
  {| ruid := uid; euid := uid; suid := uid; rgid := gid; egid := gid; sgid := gid; cgroups := groups; no_new_privs := true;
     croot := Some jail; cwd_inside := true; own_mounts := true; private_mounts := true; leaked := [] |}.

Lemma configured_quiet parse_config args config_path paths l : Configured parse_config args config_path paths l -> quiet l.
Proof. intros (text & cfg & -> & _). by repeat constructor. Qed.

Lemma confining_cred parse_config args config_path paths groups jail l :
  Confining parse_config args config_path paths groups jail l -> replay root_cred l = jailed_cred (a_uid args) (a_gid args) groups jail.
Proof.
  intros [_ (lc & lj & ld & image & pid & before & uids & devs & inside & -> & Hc & Hj & (got & reg & -> & _ & Hr)) _].
  destruct Hj as [-> Hb _ _ _ _ _ [_ Hm _]]. rewrite !replay_app.
  rewrite (quiet_replay _ lc), (quiet_replay _ before) by (done || by eapply configured_quiet).
  rewrite (mounts_replay _ inside) by done. by destruct reg.
Qed.

(** The exec is where a log's first exec is. *)
Lemma last_exec pre pre' post c r c' r' :
  no_exec pre' -> is_exec c = true -> pre ++ (c, r) :: post = pre' ++ [(c', r')] -> pre = pre' /\ post = [] /\ c = c'.
Proof.
  intros Hn Hc H. destruct (decide (post = [])) as [->|Hp].
  - apply app_inj_tail in H as [-> [= -> ->]]. done.
  - destruct (exists_last Hp) as (post' & e & ->). rewrite app_comm_cons, app_assoc in H. apply app_inj_tail in H as [<- _].
    unfold no_exec in Hn. rewrite Forall_app, Forall_cons in Hn. cbn in Hn. destruct Hn as (_ & Hn & _). congruence.
Qed.

(** Everything the exec of nesbox is preceded by. *)
Record Confined parse_config (args : Args) (pre : Log) (config_path : Path) (cfg : BoxConfig) (paths : list Path) (groups : list Z)
    (jail image : Path) (devs uids : Log) : Prop := {
  f_ids : a_uid args <> 0 /\ a_gid args <> 0;
  f_config : exists text, (ReadToString config_path, AText text) ∈ pre /\ parse_config text = Some cfg /\
    host_paths config_path cfg (bind args) = Some paths;
  f_cred : replay root_cred pre = jailed_cred (a_uid args) (a_gid args) groups jail;
  f_image : (Canonicalize (jail_root args), APath image) ∈ pre;
  f_mounts : exists scratch, jail_mounts image scratch jail paths pre;
  f_groups : devs ⊆ pre /\ fst <$> devs = Stat <$> paths /\ (forall g, g ∈ groups <-> device_seen devs (Group g)) /\ 0 ∉ groups;
  f_devices : ~ device_seen devs OwnerOnly;
  f_uid : uids ⊆ pre /\ uid_free (a_uid args) uids;
  f_kept : exists refused, refused <> Done /\ (Setuid 0, refused) ∈ pre
}.

Lemma confining_confined parse_config args config_path paths groups jail l :
  Confining parse_config args config_path paths groups jail l ->
  exists cfg image devs uids, Confined parse_config args l config_path cfg paths groups jail image devs uids.
Proof.
  intros H. pose proof (confining_cred _ _ _ _ _ _ _ H) as Hcred. destruct H as [_ Hl _].
  destruct Hl as (lc & lj & ld & image & pid & before & uids & devs & inside & -> & Hc & Hj & (got & reg & -> & _ & Hr)).
  destruct Hc as (text & cfg & -> & Hp & Hh). destruct Hj as [-> Hq _ Hids Hcan [Hu1 Hu2] [Hd1 (Hd2 & Hd3 & Hd4)] [_ _ (Hj & o & Ho & Hm)]].
  exists cfg, image, devs, uids. split.
  - done.
  - exists text. split; [listed|done].
  - done.
  - listed.
  - eexists. split; [done|]. exists o. split; [done|]. rewrite (mounts_app [_; _]), (mounts_app (before ++ _)), (mounts_app before), Hm, (quiet_no_mounts before) by done.
    simpl. by rewrite app_nil_r.
  - split; [listed|]. split; [done|].
    assert (Hg : forall g, g ∈ groups <-> device_seen devs (Group g)).
    { intros g. rewrite Hd3. split; [by intros [?%elem_of_nil|]|by right]. }
    split; [done|]. intros (p & m & _ & _ & Hgm)%Hg. by apply device_access_group in Hgm as [_ ?].
  - by destruct (Hd4 eq_refl).
  - split; [listed|done].
  - exists reg. split; [done|]. listed.
Qed.

(** Where a path lands: below the jail, under its own name. *)
Lemma target_path_comps jail p : comps (target_path jail p) = comps jail ++ comps p.
Proof. done. Qed.

(** C3: nesbox runs only confined.  Whatever the kernel and the filesystem answer, and whatever the arguments, if a run of
    the jailer execs anything then it is not a dry run, the exec is its last call and it execs the nesbox binary on the text of
    the canonical configuration path; and the calls before it make the process one with that uid and gid in all three places,
    neither of them root, no_new_privs set, its root the overlay and its current directory inside it, and no mount made before
    propagation was cut.  What it mounted is a private layer, the overlay of the jail image under that layer, /proc, /sys and
    every path the configuration needs, each under its own name, and nothing else; the groups kept are exactly those a needed
    device is open to, never root's, and no needed device is one only its owner may use; no process found in /proc ran as that
    uid; and an attempt to become root again was refused. *)
Theorem jail_confined parse_config args (w w' : W) l res pre prog argv r post :
  run parse_config args (w, []) = ((w', l), res) ->
  l = pre ++ (Execv prog argv, r) :: post ->
  dry_run args = false /\ post = [] /\
  exists config_path cfg paths groups jail image devs uids,
    prog = lossy (nesbox_bin args) /\ argv = [prog; lossy (path_text config_path)] /\
    Confined parse_config args pre config_path cfg paths groups jail image devs uids.
Proof.
  intros Hrun ->. destruct (run_log parse_config args w []) as (w1 & l & res' & E & Hl). rewrite Hrun in E.
  injection E as <- E <-. subst l. destruct Hl as [Hl|(cp & paths & groups & jail & pre' & r' & El & Hc)].
  { unfold no_exec in Hl. rewrite Forall_app, Forall_cons in Hl. by destruct Hl as (_ & ? & _). }
  destruct (last_exec pre pre' post (Execv prog argv) r _ r' (c_no_exec _ _ _ _ _ _ _ Hc) eq_refl El) as (-> & -> & [= -> ->]).
  split; [by destruct Hc|]. split; [done|].
  destruct (confining_confined _ _ _ _ _ _ _ Hc) as (cfg & image & devs & uids & H). by exists cp, cfg, paths, groups, jail, image, devs, uids.
Qed.
End Facts.

(** * A run *)

(** A host on which everything is in order: one group of its own on [/dev/kvm]. *)
Definition tidy_reply (c : Call) : Reply :=
  match c with
  | Canonicalize p => APath p
  | ReadToString _ => AText []
  | Geteuid => ANum 0
  | Stat p | Lstat p =>
      AMeta {| is_dir := bool_decide (p = path_of "/srv/jail"); is_char_device := bool_decide (p = KVM);
               mode := if bool_decide (p = KVM) then 0x1B0 else 0x1A4; owner_gid := if bool_decide (p = KVM) then 107 else 0 |}
  | ReadProc => ANames [ascii_bytes "1"; ascii_bytes "self"]
  | ReadStatus _ => AText (ascii_bytes "Uid: 0 0 0 0")
  | Getpid => ANum 4242
  | Getuid | Getgid => ANum 1000
  | Getgroups _ => AGroups [107]
  | Setuid 0 => Failed
  | Execv _ _ => Failed
  | _ => Done
  end.

#[local] Instance tidy_host : JailHost () := { sys w c := (w, tidy_reply c) }.

Definition plain_config (_ : Text) : option BoxConfig :=
  Some {| kernel_image_path := path_of "/srv/vmlinux"; drives := [(ascii_bytes "root", path_of "/srv/root.img")];
          render_node := None; gpu_forward := None; has_network := false; has_vsock := false; shared_directories := [];
          stats_socket := None; control_socket := None |}.

Definition plain_args : Args :=
  {| a_config := path_of "/srv/box.json"; jail_root := path_of "/srv/jail"; a_uid := 1000; a_gid := 1000;
     nesbox_bin := DEFAULT_NESBOX_BIN; bind := []; scratch_dir := DEFAULT_SCRATCH_DIR; dry_run := false |}.

Definition plain_log : Log := (run plain_config plain_args (tt, [])).1.2.

Lemma jail_confined_witness :
  exists config_path cfg paths groups jail image devs uids,
    Confined plain_config plain_args (removelast plain_log) config_path cfg paths groups jail image devs uids.
Proof.
  destruct (jail_confined plain_config plain_args tt tt plain_log None (removelast plain_log) DEFAULT_NESBOX_BIN
    [DEFAULT_NESBOX_BIN; ascii_bytes "/srv/box.json"] Failed []) as (_ & _ & cp & cfg & paths & groups & jail & image & devs & uids & _ & _ & H).
  - vm_compute. reflexivity.
  - vm_compute. reflexivity.
  - by exists cp, cfg, paths, groups, jail, image, devs, uids.
Defined.
